(* ===== verification/_CoqProject ===== *)
-Q . S2P
Prelude.v
CMem.v
CMonad.v
CString.v
CStringProps.v
MemBuff.v
MemBuffProps.v
Lmb.v
LmbProps.v
Qsort.v
HashTable.v
HashTableProps.v
HashText.v
HashTextProps.v
Xlat.v
XlatProps.v
XlatWalk.v
XlatBuild.v
XlatSpec.v
BlFwu.v
BlFwuProps.v
BlFwuSpec.v
Io.v
LoadImage.v
IoProps.v
IoFip.v
LoadProps.v
LoadSpec.v
Fiptool.v
FiptoolSpec.v
EnvAttr.v
EnvFlags.v
EnvProps.v
EnvSpec.v
Psci.v
PsciProps.v
PsciInv.v
PsciSetup.v
PsciLocks.v
Bakery.v
BakeryProps.v
BakerySpec.v
MarvellPlat.v
PsciSpec.v
AddrDec.v
AddrDecProps.v
AddrBoards.v
AddrDecSpec.v
AddrQuiet.v
AddrRoutes.v
A3700Win.v
A3700Spec.v
Auth.v
AuthCot.v
X509.v
X509Props.v
X509Spec.v
AuthProps.v
AuthSpec.v
AuthRun.v
AuthExamples.v
Bl31.v
Bl31Spec.v
Imf.v
ImfSpec.v
Mss.v
MssSpec.v
Bl2.v
Bl2Spec.v
Boot.v
