(* ===== verification/Prelude.v ===== *)
(** * Verification of the Marvell U-Boot and ARM Trusted Firmware bundle

    The repository holds the two programs that boot a Marvell Armada board, and host tools.
    - [src/atf-marvell]: ARM Trusted Firmware.  BL1 starts from ROM and can update firmware
      over SMCs; every stage builds the translation tables it runs under, opens the address
      windows through which the cores reach memory and devices; BL2 loads the next
      images, authenticated, from a firmware image package in flash, and the firmware of the
      coprocessors; BL31 enters the normal world, stays resident, routes interrupts and
      serves PSCI, the power management calls of the normal world (turn cores on and off,
      suspend, query).
    - [src/u-boot-marvell]: U-Boot, the boot loader BL31 hands over to.  Its environment (named
      strings, with types, access rights and callbacks) configures it; its library has the
      memory map of the images being loaded, sorting, buffers and strings.

    This library translates parts of both into executable definitions and proves what they
    compute, that they keep their invariants and that no assertion or out-of-range access
    is reached.  Where the code does something else than its comments say, the theorems
    say what it does.

    ** Files

    Foundations
    - [Prelude]: machine integers, flags, list and arithmetic lemmas, tactics ([bits],
      [dlia], [cases_bool], [step_in]), the hint databases.
    - [CMem]: one byte-addressed memory, with faults.
    - [CMonad]: the state monad with undefined behaviour, [wp], its total-correctness
      weakest precondition, [pc], the partial-correctness one, and [rounds], the loops
      that end within [2^n] rounds.

    PSCI (src/atf-marvell/lib/psci, services/std_svc, plat/common/plat_psci_common.c)
    - [Psci]: the state (power domain tree, per-core data, requested local states, the
      event log), one definition per function of psci_setup.c, psci_common.c, psci_on.c,
      psci_off.c, psci_suspend.c, psci_main.c and psci_system_off.c, and the
      platform as the class [Plat].
    - [PsciProps]: the tree seen through its projections; the loops over ancestors by [wp].
    - [PsciInv]: phases of cores, the laws of platforms ([PlatLaws]), the invariant [Inv]
      and its preservation by every operation.
    - [PsciSetup]: [psci_setup] builds the breadth-first tree of any valid topology.
    - [PsciLocks]: the protocol of the per-domain locks: no deadlock, every schedule ends.
    - [Bakery], [BakeryProps], [BakerySpec]: the lock itself (src/atf-marvell/lib/locks/bakery),
      cut at its memory accesses and interleaved; it implements the lock that [PsciLocks]
      takes as atomic.
    - [MarvellPlat]: topology, MPIDR decoding and hooks of the Armada 7K/8K
      (src/atf-marvell/plat/marvell), an instance of [Plat] and of [PlatLaws].
    - [PsciSpec]: the SMC handler, the interleaved system and the theorems.

    Firmware update (src/atf-marvell/bl1, plat/arm/common/arm_bl1_fwu.c)
    - [BlFwu]: the SMC functions of bl1_fwu.c over image descriptors and physical memory.
    - [BlFwuProps], [BlFwuSpec]: the state machine of an image, and what follows: only
      authenticated images run, where copies land, which checks wrap.

    Translation tables (src/atf-marvell/lib/xlat_tables, plat/marvell/common/aarch64)
    - [Xlat]: the region array of xlat_tables_common.c, the table builder, the registers of
      the AArch64 setup, and the regions of the Marvell stages; the table walk of the
      architecture, which reads what the builder writes.
    - [XlatProps], [XlatWalk], [XlatBuild]: the region array's invariant; the walk on
      descriptors; the builder by induction on the level.
    - [XlatSpec]: what the MMU maps is what the regions ask for, for any accepted array and
      for the stages of the Armada 7K/8K.

    Loading images (src/atf-marvell/drivers/io, common/bl_common.c,
    plat/marvell/common/marvell_io_storage.c)
    - [Io]: io_storage.c with its pool of entities, the memory-mapped driver, the package
      driver, and the platform's policies.
    - [LoadImage]: reservation of memory, loading and authenticating an image with its chain
      of parents.
    - [IoProps], [IoFip], [LoadProps]: the pool's invariant and the class [Balanced] of
      operations that give back what they take; sessions on a package; loading as one session.
    - [LoadSpec]: the theorems, with the package of the Armada 8K as an instance.
    - [Fiptool], [FiptoolSpec]: the host tool that makes packages (src/atf-marvell/tools/fiptool) and
      what it shares with the loader.

    Authentication (src/atf-marvell/drivers/auth, plat/arm/board/common/board_arm_trusted_boot.c)
    - [Auth]: auth_mod.c, img_parser_mod.c and crypto_mod.c, over the class [AuthLib] of parsers,
      cryptographic functions and platform; [loader_auth] makes it an instance of the interface
      [AuthMod] of the loader.
    - [AuthCot]: the chain of trust of tbbr/tbbr_cot.c with its shared buffers, and the root
      key and counters of the Arm boards.
    - [X509], [X509Props], [X509Spec]: the certificate parser and the cryptographic functions of
      drivers/auth/mbedtls over the class [Mbedtls]; an instance for the examples and witnesses.
    - [AuthProps]: what a verification that returns has checked, copied and counted.
    - [AuthSpec]: chains of checks up to the root key; [AuthRun]: every call returns, counters;
      [AuthExamples]: a library with all the laws, the witnesses, and what shared buffers allow.

    Boot and resident firmware (src/atf-marvell/bl2, bl31, common/runtime_svc.c, services,
    lib/el3_runtime, plat/marvell/common, plat/marvell/a8k/common/mss)
    - [Bl31], [Bl31Spec]: runtime_svc.c and std_svc_setup.c, from an SMC to the service that
      answers it, with PSCI as the service.
    - [Imf], [ImfSpec]: interrupt_mgmt.c, the lines of both interrupt controllers, and the contexts
      (bl31_context_mgmt.c, context_mgmt.c) that a core is entered with.
    - [Mss], [MssSpec]: mss_scp_bootloader.c, the firmware of the coprocessors; the DMA engine as
      the code programs it.
    - [Bl2], [Bl2Spec]: bl2_image_load.c and marvell_bl2_setup.c over [LoadImage] and [Mss].
    - [Boot]: marvell_bl31_setup.c and the entry into the next image of bl31_main.c; the hand-over
      from [Bl2] through BL31 to the normal world.

    Address decoding (src/atf-marvell/drivers/marvell, plat/marvell/a8k, plat/marvell/a3700)
    - [AddrDec]: ccu.c, io_win.c, iob.c and amb_adec.c, one module each, over registers that
      keep the order of writes; the board as the class [Board].
    - [AddrDecProps]: loops over windows, the interface [WinUnit] the four units implement.
    - [AddrBoards]: the tables of eight boards of the Armada 7K/8K (instances of [Board]), the
      sequence of units BL31 sets up, and the temporary windows of BL2 and of the DRAM setup.
    - [AddrDecSpec]: each unit decodes what its table says; [AddrQuiet]: what is decoded while
      the windows change; [AddrRoutes]: the units chained, from an address to its target.
    - [A3700Win], [A3700Spec]: dram_win.c and io_addr_dec.c of the Armada 3700 and the state
      they leave after a wake-up.

    Environment (src/u-boot-marvell/lib/hashtable.c, common/env_attr.c, env_flags.c,
    env_callback.c)
    - [HashTable], [HashTableProps]: the open-addressing table refines a finite map.
    - [HashText], [HashTextProps]: export to and import from text, and the round trip.
    - [EnvAttr], [EnvFlags], [EnvProps], [EnvSpec]: attribute lists, types and access of
      variables; they implement the interface through which the table asks whether a
      change is allowed.

    Library (src/u-boot-marvell/lib)
    - [CString], [CStringProps]: string.c and ctype.c on [CMem].
    - [MemBuff], [MemBuffProps]: membuff.c refines a bounded queue.
    - [Lmb], [LmbProps]: lmb.c, regions of memory and allocation between them.
    - [Qsort]: qsort.c sorts; [HashText] uses it to order the exported names.

    ** Conventions

    - A definition has the name of the C function; several results (through pointers, or a
      changed structure) are a tuple or a state.
    - [None] is undefined behaviour or a failed [assert]: a null or dangling pointer, an
      index out of range, a fault.  That an operation returns [Some _] is thus a safety
      theorem, and theorems state it.  Five statements start from a call that returns:
      [io_handles_exact], on any sequence of calls, [fwu_transitions] ([fwu_call_safe] says when one returns), the part of [load_auth_image_spec] on
      what success implies (its other part gives the results that do occur), and
      [bl2_images_trusted] and [boot_hand_over], on what follows when BL2 hands over
      ([bl2_boot_spec] says when it does).
    - Unsigned integers are [Z] and wrap where the code computes at 8, 32 or 64 bits
      ([wrap]); signed 32-bit values are read with [sext].  [char] is unsigned and [long] has
      64 bits, as on AArch64.
    - Loops recurse on what bounds them: the levels of the tree, the cores, a byte count.
      The others have fuel: string loops as many rounds as there are mapped bytes, plus one
      (each round reads a new address, [CMem.allocated_size]); the probe loop of the table
      one per bucket; the search for a prime in [hcreate_r] [2 * nel + 8] candidates; scans
      of tables and text one per element, plus one; a table of the MMU one per descriptor and
      one per region, at most four levels deep; the entries of a package as many as fit the
      64-bit offset ([rounds 64]), or in the packaging tool the file; a package read from its backing store one driver deep;
      an authenticated load one call per parent in the chain of trust; the extensions of a
      certificate one per byte of the image, plus one.  The theorems prove
      the fuel enough, except for the search of an extension, which need not end
      ([integrity_not_enough]).
    - Code outside the tree, or below the modelled layer, is a parameter or a class with
      its laws: allocation results, regular expressions ([Slre]), image authentication,
      the platform and the payload dispatcher of PSCI ([Plat]), build options and system
      registers of the MMU ([XlatConfig], [XlatLaws]), those of the IO layer ([IoConfig]),
      mbed TLS ([Mbedtls], [MbedtlsLaws]) and what the authentication module asks of its
      libraries ([AuthLib], [AuthLaws], [LibLaws], [CounterLaws]; that the parameters of an image are
      inside it is a hypothesis on the image, [params_inside]), the interrupt controller
      ([Gic], [GicLaws]), what the coprocessors answer ([MssHw]) and the constants of BL2
      ([Bl2Config]).  A law is used only
      where a theorem needs it, and each such theorem has a witness with a concrete instance.
    - A device register is a 32-bit cell that keeps the last value written; the writes are also
      logged in order.  Tables of windows, which the code rounds in place, are part of the
      state.  The readers of the registers ([ccu_range] and the like) are the decoding the code's
      own dump functions print.
    - A function that ends the boot ([plat_error_handler]) is a result of its own ([inl]), as is
      [panic] in BL31 ([None] inside the result; in PSCI the event [Panic], after which the core does not
      go on).  Two hooks of the Armada family panic: the standby hook of the 7K/8K ([a8k_cpu_standby]) and
      the check of power states of the 3700.  Assertions count as present; the one on a
      value that only debug builds pass depends on the option.
    - Calls with no effect on the modelled state (cache maintenance, console output,
      statistics) are left out; calls to PSCI's platform hooks, dispatcher and locks are
      events of a log, so their order is part of the model.
    - An operation of PSCI between taking and releasing its locks is one step.  The locks
      are those of all ancestors up to the level it touches; [PsciLocks] shows that the
      order in which they are taken cannot deadlock, and [BakerySpec] that a lock admits one
      core at a time.  The asserts that a platform hook is not NULL are not modelled: the
      capability mask already guards those calls.

    ** Theorems

    - PSCI: setup builds the tree ([psci_setup_spec]); every step of every interleaving is
      defined ([psci_regions_defined]); an SMC answers or does not return as its function says, and changes the phase of
      the caller and, for CPU_ON, of its target only ([psci_smc_handler_spec]); a running core's domains
      are never off ([psci_running_core_powered]) and a domain's state is what its cores agreed
      on ([psci_domains_coordinated], [psci_state_coordination_spec]); the error branches of
      CPU_ON and the validity check of suspend requests; progress of the locks
      ([psci_locks_liveness]).
    - Bakery lock: it refines an abstract lock ([bakery_refines_lock]), makes progress
      ([bakery_lock_liveness]), serves in order ([bakery_first_come]), and all that for 32767
      calls in a row: [bakery_ticket_wraps] is the execution that breaks it afterwards.
    - Firmware update: calls are safe ([fwu_call_safe]), execution is authenticated
      ([fwu_execution_authenticated]), which calls are refused and the edge each other call takes
      ([fwu_transitions]), copies land where the descriptor says, and two theorems on
      what a caller can still do ([fwu_copy_wraps], [fwu_overwrite_authenticated]).
    - Translation tables: an address is translated as the innermost region that covers it
      says, or faults ([xlat_mmu_follows_regions]); the tables of the Marvell stages
      ([marvell_page_tables_spec]); which regions [mmap_add_region] accepts and where it puts
      them ([mmap_add_region_spec]); what level-2 blocks leave unchecked
      ([xlat_blocks_unchecked]).
    - Loading images: bytes of the image named by the policy arrive at the base address, or an
      error and no change ([load_image_spec]); success means every image of the chain was
      accepted, a rejected image or parent is reported ([load_auth_image_spec]); handles are neither leaked nor closed twice
      ([io_handles_exact]); memory reservation ([reserve_mem_spec]).
      The packaging tool treats a package as a map of images ([fiptool_refines_map]); what it packs is what the
      firmware loads ([fiptool_boots]); a case in which it drops images ([update_out_loses_images]).
    - Authentication: an accepted image is linked to the root key by checks, whatever was
      presented before ([auth_chain_rooted]); loading an image with its parents checks it
      against the certificates that the chain of trust names ([load_auth_chain]); no call on an image with its parameters
      inside fails an assertion or overruns a buffer ([auth_verify_defined]); counters never go
      back ([nv_counters_monotone]) and are read as they are encoded ([nv_ctr_roundtrip]);
      the certificate parser stays within the image ([cert_parse_spec]) and finds the right
      extension ([get_ext_spec]) if the extensions are nested properly, which the
      integrity check does not ensure ([integrity_not_enough]); what shared buffers
      allow ([auth_buffers_shared]).
    - Boot: from a package with the images BL2 returns, with the images in memory and what
      BL31 is told about them ([bl2_boot_spec]); with authentication it hands over only images that were
      accepted ([bl2_images_trusted]); after that BL31 enters BL33 in the normal world
      ([boot_hand_over]); the concatenated firmware is split where it was put together and each
      coprocessor gets its own ([scp_split_spec]), but failures are not reported
      ([scp_result_headers]).
    - Resident firmware: what every SMC of a running core does: PSCI answers it, it gets [SMC_UNK], or
      the core does not go on ([bl31_smc_spec], [rt_svc_dispatch]); which handlers and routing models are accepted
      ([register_handler_spec]); what a core is entered with, and which interrupts are then taken to
      EL3 ([entry_context_spec]); where two types share a line ([shared_line_conflict]).
    - Address decoding: after BL31's setup an address of a board goes where its tables say, whether or not
      the second CP110 answers, window 0 of the CCU and of each bridge being left alone
      ([bl31_routes]); the coherency unit's windows, defaults and untouched registers
      ([init_ccu_spec]); at no write of [init_ccu] is a window on with half its bounds
      ([ccu_windows_whole]); the temporary map of the DRAM setup is undone
      ([ble_mmap_roundtrip]); BL2's windows are
      written through a base that is still 0 ([bl2_windows_not_opened]); a
      default target that does not survive ([io_win_default_overwritten]); the Armada 3700
      after a wake-up, remapping and attributes included ([wake_windows_spec]).
    - Environment: refinement of a map, specification of enter, delete, export, the round
      trip through text, creation at a prime size, behaviour when full or when the export
      buffer is small; attribute lookup, type checks, access checks and the
      consistency of flags after [on_flags].
    - Library: [memcpy] and [memmove] with their word-wise paths, [strcmp]'s sign, the queue,
      line reading, region bookkeeping, allocation, sorting.

    ** Not modelled

    Within modelled parts: PSCI statistics, the extended state format, the 32-bit front
    end and the Armada 3700 hooks; FWU_DONE; the AArch32 translation tables and
    lib/xlat_tables_v2; the second image loader (LOAD_IMAGE_V2) and the block, semihosting and
    dummy IO drivers; [membuff_dispose]; functions that only print; the commands of nvedit.c
    and the storage of the environment; bl1_main.c, bl2_main.c and bl31_main, which are
    sequences of set-up calls; the saving of EL1 registers.  The table of images of the
    Marvell platforms has no certificates, so that trusted board boot of BL2 is stated for any
    authentication module and not for the chain of trust of [AuthCot].  Elsewhere: assembly (vectors,
    context switch), register programming (drivers and boards, except the address windows),
    vendored libraries (zlib, lzma, libfdt, dlmalloc, the shell), file systems, the network
    stack, image parsing, the driver model, and the host tools other than fiptool (of which the option parsing and the
    commands that only print are left out).

    Next: PSCI statistics, the voltage settings of plat_ble_setup.c, the power management of
    the Armada 3700 and the secure payload dispatchers. *)

From Stdlib Require Import ZArith Lia.
From stdpp Require Import base option list gmap numbers sorting.

Open Scope Z_scope.

Declare Scope cint_scope.
Delimit Scope cint_scope with cint.

(** ** Machine integers

    A [w]-bit unsigned C integer is a [Z] in [[0, 2^w)]; arithmetic that may
    leave the range is followed by [wrap w].  Signed conversions go through
    [sext w], the two's complement reading of the low [w] bits. *)
Definition wrap (w z : Z) : Z := z mod 2 ^ w.
Definition sext (w z : Z) : Z :=
  let r := wrap w z in if r <? 2 ^ (w - 1) then r else r - 2 ^ w.

Abbreviation u8 := (wrap 8).
Abbreviation u32 := (wrap 32).
Abbreviation u64 := (wrap 64).
Abbreviation s8 := (sext 8).
Abbreviation s32 := (sext 32).

Notation "a +u32 b" := (wrap 32 (a + b)) (at level 50, left associativity) : cint_scope.
Notation "a -u32 b" := (wrap 32 (a - b)) (at level 50, left associativity) : cint_scope.
Notation "a *u32 b" := (wrap 32 (a * b)) (at level 40, left associativity) : cint_scope.
Notation "a +u64 b" := (wrap 64 (a + b)) (at level 50, left associativity) : cint_scope.
Notation "a -u64 b" := (wrap 64 (a - b)) (at level 50, left associativity) : cint_scope.
Notation "a *u64 b" := (wrap 64 (a * b)) (at level 40, left associativity) : cint_scope.

Definition is_byte (b : Z) : Prop := 0 <= b < 256.
Definition in_u (w z : Z) : Prop := 0 <= z < 2 ^ w.
Definition in_s32 (z : Z) : Prop := - 2 ^ 31 <= z < 2 ^ 31.

#[global] Instance is_byte_dec b : Decision (is_byte b).
Proof. unfold is_byte. apply _. Defined.
#[global] Instance in_u_dec w z : Decision (in_u w z).
Proof. unfold in_u. apply _. Defined.

Lemma wrap_range w z : 0 <= w -> 0 <= wrap w z < 2 ^ w.
Proof. intros ?. apply Z.mod_pos_bound. lia. Qed.

Lemma wrap_small w z : 0 <= z < 2 ^ w -> wrap w z = z.
Proof. apply Z.mod_small. Qed.

Lemma wrap_wrap w z : wrap w (wrap w z) = wrap w z.
Proof. apply Zmod_mod. Qed.

Lemma wrap_add_l w a b : wrap w (wrap w a + b) = wrap w (a + b).
Proof. apply Zplus_mod_idemp_l. Qed.

Lemma wrap_add_r w a b : wrap w (a + wrap w b) = wrap w (a + b).
Proof. apply Zplus_mod_idemp_r. Qed.

Lemma wrap_sub_l w a b : wrap w (wrap w a - b) = wrap w (a - b).
Proof. apply Zminus_mod_idemp_l. Qed.

Lemma sext_range w z : 0 < w -> - 2 ^ (w - 1) <= sext w z < 2 ^ (w - 1).
Proof.
  intros Hw. unfold sext.
  pose proof (wrap_range w z ltac:(lia)) as Hr.
  assert (2 ^ w = 2 * 2 ^ (w - 1)) as Hp
    by (rewrite <- Z.pow_succ_r by lia; f_equal; lia).
  destruct (Z.ltb_spec (wrap w z) (2 ^ (w - 1))); lia.
Qed.

Lemma sext_small w z : 0 < w -> - 2 ^ (w - 1) <= z < 2 ^ (w - 1) -> sext w z = z.
Proof.
  intros Hw Hz. unfold sext, wrap.
  assert (2 ^ w = 2 * 2 ^ (w - 1)) as Hp
    by (rewrite <- Z.pow_succ_r by lia; f_equal; lia).
  destruct (decide (0 <= z)).
  - rewrite Z.mod_small by lia. destruct (Z.ltb_spec z (2 ^ (w - 1))); lia.
  - assert (z mod 2 ^ w = z + 2 ^ w) as ->.
    { symmetry. apply Z.mod_unique with (-1); lia. }
    destruct (Z.ltb_spec (z + 2 ^ w) (2 ^ (w - 1))); lia.
Qed.

Lemma wrap_sext w z : 0 < w -> wrap w (sext w z) = wrap w z.
Proof.
  intros Hw. unfold sext. destruct (Z.ltb_spec (wrap w z) (2 ^ (w - 1))); [apply wrap_wrap|].
  unfold wrap. rewrite <- (Z.mod_add _ 1) by lia. rewrite Z.mul_1_l, Z.sub_add. apply Zmod_mod.
Qed.

(** ** Hint databases and tactics *)
Create HintDb cint.
#[export] Hint Resolve wrap_range : cint.
Create Rewrite HintDb cint.
#[export] Hint Rewrite wrap_wrap wrap_add_l wrap_add_r wrap_sub_l : cint.

(** Case split on every boolean comparison of the goal and the context. *)
Ltac cases_bool :=
  repeat match goal with
  | |- context [Z.eqb ?a ?b] => destruct (Z.eqb_spec a b)
  | |- context [Z.ltb ?a ?b] => destruct (Z.ltb_spec a b)
  | |- context [Z.leb ?a ?b] => destruct (Z.leb_spec a b)
  | H : context [Z.eqb ?a ?b] |- _ => destruct (Z.eqb_spec a b)
  | H : context [Z.ltb ?a ?b] |- _ => destruct (Z.ltb_spec a b)
  | H : context [Z.leb ?a ?b] |- _ => destruct (Z.leb_spec a b)
  end; simpl in *.

(** Linear arithmetic with [div] and [mod] by constants. *)
Ltac dlia := Z.div_mod_to_equations; lia.

(** Case split on the innermost scrutinee of a [match] or [if] of hypothesis [H],
    keeping the equation. *)
Ltac step_in H :=
  match type of H with
  | context [match ?x with _ => _ end] =>
      lazymatch x with
      | context [match _ with _ => _ end] => fail
      | _ => let E := fresh "E" in destruct x eqn:E; simplify_eq/=
      end
  end.

(** Equality of integers built with masks ([Z.ones]), shifts and the bitwise operations. *)
Ltac bits :=
  apply Z.bits_inj'; intros n Hn;
  repeat (rewrite ?Z.land_spec, ?Z.lor_spec;
          match goal with
          | |- context [Z.testbit (Z.lnot _) _] => rewrite Z.lnot_spec by lia
          | |- context [Z.testbit (Z.shiftl _ ?k) ?i] =>
              let E := fresh in destruct (Z_lt_le_dec i k) as [E|E];
              [rewrite (Z.shiftl_spec_low _ k i E)|rewrite (Z.shiftl_spec_high _ k i) by lia]
          | |- context [Z.testbit (Z.shiftr _ _) _] => rewrite Z.shiftr_spec by lia
          | |- context [Z.testbit (Z.ones _) _] => rewrite Z.testbit_ones by lia
          end);
  repeat match goal with
  | |- context [Z.leb ?a ?b] => destruct (Z.leb_spec a b); try lia
  | |- context [Z.ltb ?a ?b] => destruct (Z.ltb_spec a b); try lia
  end;
  rewrite ?andb_true_r, ?andb_false_r; cbn [negb andb orb]; rewrite ?andb_true_r, ?andb_false_r;
  try done; try (f_equal; lia).

(** A field below a shifted value. *)
Lemma lor_sum x y k : 0 <= k -> 0 <= y < 2 ^ k -> Z.lor (x * 2 ^ k) y = x * 2 ^ k + y.
Proof.
  intros Hk Hy. rewrite <- Z.shiftl_mul_pow2 by done. replace y with (Z.land y (Z.ones k))
    by (rewrite Z.land_ones by done; by apply Z.mod_small).
  rewrite <- Z.add_lor_land. assert (Z.land (Z.shiftl x k) (Z.land y (Z.ones k)) = 0) as -> by (bits; by rewrite Z.bits_0).
  by rewrite Z.add_0_r.
Qed.

(** ** Lists indexed by [Z] *)
Definition zlen {A} (l : list A) : Z := Z.of_nat (length l).

Lemma zlen_nonneg {A} (l : list A) : 0 <= zlen l.
Proof. unfold zlen. lia. Qed.

Lemma zlen_nil {A} : zlen (@nil A) = 0.
Proof. done. Qed.

Lemma zlen_cons {A} (x : A) l : zlen (x :: l) = 1 + zlen l.
Proof. unfold zlen. simpl. lia. Qed.

Lemma zlen_app {A} (l k : list A) : zlen (l ++ k) = zlen l + zlen k.
Proof. unfold zlen. rewrite length_app. lia. Qed.

(** [slice l a b]: the elements of [l] at the offsets [a <= i < b]. *)
Definition slice {A} (l : list A) (a b : Z) : list A :=
  take (Z.to_nat (b - a)) (drop (Z.to_nat a) l).

Lemma slice_length {A} (l : list A) a b :
  0 <= a -> a <= b -> b <= zlen l -> zlen (slice l a b) = b - a.
Proof. unfold slice, zlen. rewrite length_take, length_drop. lia. Qed.

Lemma slice_full {A} (l : list A) : slice l 0 (zlen l) = l.
Proof. unfold slice, zlen. rewrite Z.sub_0_r, Nat2Z.id. apply take_ge. done. Qed.

Lemma slice_nil {A} (l : list A) a b : b <= a -> slice l a b = [].
Proof. intros. unfold slice. replace (Z.to_nat (b - a)) with 0%nat by lia. done. Qed.

Lemma slice_split {A} (l : list A) a b c :
  0 <= a -> a <= b -> b <= c -> slice l a c = slice l a b ++ slice l b c.
Proof.
  intros. unfold slice.
  replace (Z.to_nat (c - a)) with (Z.to_nat (b - a) + Z.to_nat (c - b))%nat by lia.
  rewrite <- take_take_drop, drop_drop. do 3 f_equal. lia.
Qed.

Lemma slice_lookup {A} (l : list A) a b i :
  0 <= a -> 0 <= i < b - a ->
  slice l a b !! Z.to_nat i = l !! Z.to_nat (a + i).
Proof.
  intros. unfold slice. rewrite lookup_take_lt by lia.
  rewrite lookup_drop. f_equal. lia.
Qed.

Lemma slice_take {A} (l : list A) n : slice l 0 n = take (Z.to_nat n) l.
Proof. unfold slice. rewrite Z.sub_0_r. done. Qed.

Lemma slice_drop {A} (l : list A) n : 0 <= n -> slice l n (zlen l) = drop (Z.to_nat n) l.
Proof.
  intros. unfold slice, zlen. apply take_ge. rewrite length_drop. lia.
Qed.

Lemma zsplit {A} (l : list A) n :
  0 <= n <= zlen l ->
  exists l1 l2, l = l1 ++ l2 /\ zlen l1 = n /\ zlen l2 = zlen l - n.
Proof.
  intros. exists (take (Z.to_nat n) l), (drop (Z.to_nat n) l).
  unfold zlen in *. rewrite take_drop, length_take, length_drop. split; [done|lia].
Qed.

Lemma take_zlen {A} (l k : list A) : take (Z.to_nat (zlen l)) (l ++ k) = l.
Proof. unfold zlen. rewrite Nat2Z.id. apply take_app_length. Qed.

Lemma drop_zlen {A} (l k : list A) : drop (Z.to_nat (zlen l)) (l ++ k) = k.
Proof. unfold zlen. rewrite Nat2Z.id. apply drop_app_length. Qed.

(** ** Sorted lists *)
Lemma sorted_mid {A} (R : A -> A -> Prop) l1 x l2 :
  StronglySorted R (l1 ++ x :: l2) <->
  StronglySorted R (l1 ++ l2) /\ Forall (fun y => R y x) l1 /\ Forall (R x) l2.
Proof.
  induction l1 as [|y l1 IH]; cbn.
  - split; [intros [? ?]%StronglySorted_inv|intros (? & _ & ?); by constructor].
    by split; [|split; [constructor|]].
  - split.
    + intros [H1 H2]%StronglySorted_inv. apply IH in H1 as (? & ? & ?).
      rewrite Forall_app, Forall_cons in H2. destruct H2 as (? & ? & ?).
      repeat split; [constructor; [done|by apply Forall_app]|by constructor|done].
    + intros ([H1 H2]%StronglySorted_inv & [? ?]%Forall_cons & ?).
      constructor; [by apply IH|]. apply Forall_app in H2 as [? ?].
      apply Forall_app. split; [done|by constructor].
Qed.

#[export] Hint Rewrite @zlen_nil @zlen_cons @zlen_app : cint.

(** Normalise the lengths of explicit lists, everywhere. *)
Ltac simpl_zlen :=
  repeat match goal with
  | |- context [@zlen ?A []] => change (@zlen A []) with 0
  | H : context [@zlen ?A []] |- _ => change (@zlen A []) with 0 in H
  | |- context [zlen (_ :: _)] => rewrite zlen_cons
  | H : context [zlen (_ :: _)] |- _ => rewrite zlen_cons in H
  | |- context [zlen (_ ++ _)] => rewrite zlen_app
  | H : context [zlen (_ ++ _)] |- _ => rewrite zlen_app in H
  end.
