(* ===== verification/CMem.v ===== *)
(** * Byte memory

    The C code of the following files works on one byte-addressed memory: a
    finite map from addresses to bytes.  An access outside the map has no
    meaning in C, and the operation then returns [None]; a theorem that an
    operation returns [Some _] is therefore also a memory-safety theorem.
    The ghost predicate [arr m p l] ("the bytes [l] are at [p]") and the total
    function [write] are what the specifications are stated with. *)

From Stdlib Require Import ZArith Lia.
From stdpp Require Import base option list gmap numbers.
From S2P Require Import Prelude.
Open Scope Z_scope.

Abbreviation mem := (gmap Z Z).

(** ** Accesses *)
Definition store (m : mem) (p v : Z) : option mem :=
  match m !! p with Some _ => Some (<[p := u8 v]> m) | None => None end.

Fixpoint load_range (m : mem) (p : Z) (n : nat) : option (list Z) :=
  match n with
  | O => Some []
  | S n => b ← m !! p; bs ← load_range m (p + 1) n; Some (b :: bs)
  end.

Fixpoint store_range (m : mem) (p : Z) (bs : list Z) : option mem :=
  match bs with
  | [] => Some m
  | b :: bs => m ← store m p b; store_range m (p + 1) bs
  end.

Fixpoint write (m : mem) (p : Z) (bs : list Z) : mem :=
  match bs with
  | [] => m
  | b :: bs => write (<[p := b]> m) (p + 1) bs
  end.

(** Little-endian value of a byte list, and back. *)
Fixpoint le_value (bs : list Z) : Z :=
  match bs with [] => 0 | b :: bs => b + 256 * le_value bs end.

Fixpoint le_bytes (n : nat) (v : Z) : list Z :=
  match n with O => [] | S n => v mod 256 :: le_bytes n (v / 256) end.

(** ** Ghost predicates *)
Definition arr (m : mem) (p : Z) (l : list Z) : Prop :=
  forall i, 0 <= i < zlen l -> m !! (p + i) = l !! Z.to_nat i.

Definition allocated (m : mem) (p n : Z) : Prop :=
  forall i, 0 <= i < n -> is_Some (m !! (p + i)).

(** Every byte of the memory is a byte. *)
Definition mem_bytes (m : mem) : Prop := forall p b, m !! p = Some b -> is_byte b.

(** ** Lemmas on [write] *)
Lemma write_lookup m p bs q :
  write m p bs !! q =
    if decide (p <= q < p + zlen bs) then bs !! Z.to_nat (q - p) else m !! q.
Proof.
  revert m p. induction bs as [|b bs IH]; intros m p; simpl.
  - rewrite zlen_nil. rewrite decide_False by lia. done.
  - rewrite IH, zlen_cons. pose proof (zlen_nonneg bs).
    destruct (decide (q = p)) as [->|].
    + rewrite decide_False, decide_True by lia.
      rewrite lookup_insert_eq, Z.sub_diag. done.
    + rewrite lookup_insert_ne by done. destruct (decide (p + 1 <= q < p + 1 + zlen bs)).
      * rewrite decide_True by lia.
        replace (Z.to_nat (q - p)) with (S (Z.to_nat (q - (p + 1)))) by lia. done.
      * rewrite decide_False by lia. done.
Qed.

Lemma write_lookup_out m p bs q :
  ~ (p <= q < p + zlen bs) -> write m p bs !! q = m !! q.
Proof. intros. rewrite write_lookup, decide_False by done. done. Qed.

Lemma write_app m p l k : write m p (l ++ k) = write (write m p l) (p + zlen l) k.
Proof.
  revert m p. induction l as [|b l IH]; intros; simpl.
  - rewrite zlen_nil, Z.add_0_r. done.
  - rewrite IH, zlen_cons. f_equal. lia.
Qed.

Lemma write_over m p l k : zlen l = zlen k -> write (write m p l) p k = write m p k.
Proof. intros. apply map_eq. intros q. rewrite !write_lookup. repeat case_decide; (done || lia). Qed.

Lemma arr_write m p bs : arr (write m p bs) p bs.
Proof.
  intros i Hi. rewrite write_lookup, decide_True by lia. f_equal. f_equal. lia.
Qed.

Lemma arr_ext m m' p l :
  (forall q, p <= q < p + zlen l -> m' !! q = m !! q) -> arr m p l -> arr m' p l.
Proof. intros He Ha i Hi. rewrite He by lia. by apply Ha. Qed.

Lemma arr_write_frame m p bs q l :
  q + zlen l <= p \/ p + zlen bs <= q -> arr m q l -> arr (write m p bs) q l.
Proof. intros ? Ha i Hi. rewrite write_lookup_out by lia. auto. Qed.

Lemma allocated_write m p bs q n : allocated m q n -> allocated (write m p bs) q n.
Proof.
  intros Ha i Hi. rewrite write_lookup. case_decide; [|by apply Ha].
  apply lookup_lt_is_Some. unfold zlen in *. lia.
Qed.

Lemma allocated_sub m p n q k :
  p <= q -> q + k <= p + n -> allocated m p n -> allocated m q k.
Proof. intros ?? Ha i Hi. replace (q + i) with (p + (q - p + i)) by lia. apply Ha. lia. Qed.

Lemma allocated_at m p n q : p <= q < p + n -> allocated m p n -> is_Some (m !! q).
Proof. intros ? Ha. replace q with (p + (q - p)) by lia. apply Ha. lia. Qed.

Lemma arr_nil m p : arr m p [].
Proof. intros i Hi. simpl_zlen. lia. Qed.

Lemma arr_cons m p b l : arr m p (b :: l) <-> m !! p = Some b /\ arr m (p + 1) l.
Proof.
  split.
  - intros Ha. pose proof (zlen_nonneg l). split.
    + specialize (Ha 0). rewrite Z.add_0_r in Ha. apply Ha. rewrite zlen_cons. lia.
    + intros i Hi. specialize (Ha (i + 1)). rewrite zlen_cons in Ha.
      replace (p + 1 + i) with (p + (i + 1)) by lia. rewrite Ha by lia.
      replace (Z.to_nat (i + 1)) with (S (Z.to_nat i)) by lia. done.
  - intros [Hb Ha] i Hi. rewrite zlen_cons in Hi. destruct (decide (i = 0)) as [->|].
    + rewrite Z.add_0_r. done.
    + replace (p + i) with (p + 1 + (i - 1)) by lia. rewrite Ha by lia.
      replace (Z.to_nat i) with (S (Z.to_nat (i - 1))) by lia. done.
Qed.

Lemma arr_app m p l k : arr m p (l ++ k) <-> arr m p l /\ arr m (p + zlen l) k.
Proof.
  revert p. induction l as [|b l IH]; intros p; simpl.
  - rewrite zlen_nil, Z.add_0_r. split; [intros; split; [apply arr_nil|done] | tauto].
  - rewrite !arr_cons, IH, zlen_cons. replace (p + 1 + zlen l) with (p + (1 + zlen l)) by lia.
    tauto.
Qed.

Lemma arr_slice m p l a b :
  0 <= a -> b <= zlen l -> arr m p l -> arr m (p + a) (slice l a b).
Proof.
  intros Ha Hb Harr i Hi.
  destruct (decide (b <= a)); [rewrite slice_nil in Hi by lia; simpl_zlen; lia|].
  rewrite slice_length in Hi by lia. rewrite slice_lookup by lia.
  rewrite <- Harr by lia. f_equal. lia.
Qed.

Lemma arr_allocated m p l : arr m p l -> allocated m p (zlen l).
Proof.
  intros Ha i Hi. rewrite Ha by done. apply lookup_lt_is_Some. unfold zlen in *. lia.
Qed.

Lemma arr_inj m p l k : zlen l = zlen k -> arr m p l -> arr m p k -> l = k.
Proof.
  intros Hl H1 H2. apply list_eq. intros i.
  destruct (decide (Z.of_nat i < zlen l)).
  - rewrite <- (Nat2Z.id i). rewrite <- H1, <- H2 by lia. done.
  - unfold zlen in *. rewrite !lookup_ge_None_2 by lia. done.
Qed.

Lemma write_arr_id m p l : arr m p l -> write m p l = m.
Proof.
  intros Ha. apply map_eq. intros q. rewrite write_lookup. case_decide; [|done].
  rewrite <- Ha by lia. f_equal. lia.
Qed.

Lemma arr_mem_bytes m p l : mem_bytes m -> arr m p l -> Forall is_byte l.
Proof.
  intros Hm Ha. apply Forall_lookup. intros i b Hb. apply (Hm (p + Z.of_nat i)).
  rewrite Ha, Nat2Z.id; [done|]. apply lookup_lt_Some in Hb. unfold zlen. lia.
Qed.

(** ** Accesses succeed on allocated memory *)
Lemma u8_byte b : is_byte b -> u8 b = b.
Proof. intros ?. apply wrap_small. done. Qed.

Lemma is_byte_u8 z : is_byte (u8 z).
Proof. apply wrap_range. lia. Qed.

Lemma store_ok m p v : is_Some (m !! p) -> store m p v = Some (write m p [u8 v]).
Proof. intros [x Hx]. unfold store. rewrite Hx. done. Qed.

Lemma load_range_arr m p l : arr m p l -> load_range m p (length l) = Some l.
Proof.
  revert p. induction l as [|b l IH]; intros p Ha; simpl; [done|].
  apply arr_cons in Ha as [Hb Ha]. rewrite Hb; simpl. rewrite (IH _ Ha). done.
Qed.

Lemma load_range_Some m p n l : load_range m p n = Some l -> length l = n /\ arr m p l.
Proof.
  revert p l. induction n as [|n IH]; intros p l Hl; simpl in Hl; simplify_eq.
  - split; [done|apply arr_nil].
  - destruct (m !! p) as [b|] eqn:Hb; simplify_eq/=.
    destruct (load_range m (p + 1) n) as [bs|] eqn:Hbs; simplify_eq/=.
    apply IH in Hbs as [<- ?]. split; [done|]. apply arr_cons. done.
Qed.

Lemma store_range_ok m p bs :
  allocated m p (zlen bs) -> Forall is_byte bs ->
  store_range m p bs = Some (write m p bs).
Proof.
  revert m p. induction bs as [|b bs IH]; intros m p Ha Hf; simpl; [done|].
  inversion_clear Hf. pose proof (zlen_nonneg bs). rewrite zlen_cons in Ha.
  rewrite store_ok by (eapply allocated_at, Ha; lia). simpl.
  rewrite u8_byte by done. apply IH; [|done].
  apply (allocated_write m p [b]). eapply allocated_sub, Ha; lia.
Qed.

(** ** The ghost predicates are decidable *)
Lemma arr_load_range m p l : arr m p l <-> load_range m p (length l) = Some l.
Proof. split; [apply load_range_arr|]. by intros [_ ?]%load_range_Some. Qed.

Lemma allocated_load_range m p n :
  allocated m p n <-> is_Some (load_range m p (Z.to_nat n)).
Proof.
  split.
  - intros Ha. remember (Z.to_nat n) as k eqn:Hk. revert p n Ha Hk.
    induction k as [|k IH]; intros p n Ha Hk; simpl; [eauto|].
    destruct (allocated_at m p n p ltac:(lia) Ha) as [b ->]. simpl.
    destruct (IH (p + 1) (n - 1)) as [bs ->]; [|lia|simpl; eauto].
    eapply allocated_sub, Ha; lia.
  - intros [l [Hl Ha%arr_allocated]%load_range_Some]. eapply allocated_sub, Ha; unfold zlen in *; lia.
Qed.

#[global] Instance arr_dec m p l : Decision (arr m p l).
Proof. refine (cast_if (decide (load_range m p (length l) = Some l))); by rewrite arr_load_range. Defined.
#[global] Instance allocated_dec m p n : Decision (allocated m p n).
Proof.
  refine (cast_if (decide (is_Some (load_range m p (Z.to_nat n))))); by rewrite allocated_load_range.
Defined.
#[global] Instance mem_bytes_dec m : Decision (mem_bytes m).
Proof. refine (cast_if (decide (map_Forall (fun _ b => is_byte b) m))); done. Defined.

Lemma mem_bytes_write m p l : mem_bytes m -> Forall is_byte l -> mem_bytes (write m p l).
Proof.
  intros Hm Hl q b. rewrite write_lookup. case_decide; [|apply Hm].
  intros Hb. rewrite Forall_lookup in Hl. eauto.
Qed.

(** Discharge a decidable closed goal by evaluation. *)
Ltac by_eval := apply (bool_decide_eq_true_1 _); vm_compute; reflexivity.
