(* ===== verification/CMonad.v ===== *)
(** * A state monad with undefined behaviour

    Stateful C code that only touches one record of state is written in [M S]: a
    computation takes the state and yields a value and the new state, or [None] where C
    leaves the behaviour undefined (a null or dangling pointer, an index out of range) or
    a loop's fuel runs out. *)

From stdpp Require Import base option list numbers.
From S2P Require Import Prelude.

Definition M (S A : Type) : Type := S -> option (A * S).

#[global] Instance M_ret S : MRet (M S) := fun A x s => Some (x, s).
#[global] Instance M_bind S : MBind (M S) := fun A B k m s =>
  match m s with Some (x, s') => k x s' | None => None end.

Definition get {S} : M S S := fun s => Some (s, s).
Definition put {S} (s : S) : M S unit := fun _ => Some (tt, s).
Definition modify {S} (f : S -> S) : M S unit := fun s => Some (tt, f s).
Definition gets {S A} (f : S -> A) : M S A := fun s => Some (f s, s).
(** A value that must exist: [None] is undefined behaviour. *)
Definition must {S A} (o : option A) : M S A := fun s => match o with Some x => Some (x, s) | None => None end.

(** C's [assert], in a build that keeps it. *)
Definition massert {S} (b : bool) : M S unit := if b then mret tt else must None.

Section laws.
Context {S A B : Type}.

Lemma bind_eq (m : M S A) (k : A -> M S B) s x s' :
  m s = Some (x, s') -> (m ≫= k) s = k x s'.
Proof. intros E. unfold mbind, M_bind. by rewrite E. Qed.

Lemma bind_some (m : M S A) (k : A -> M S B) s r :
  (m ≫= k) s = Some r <-> exists x s', m s = Some (x, s') /\ k x s' = Some r.
Proof.
  unfold mbind, M_bind. destruct (m s) as [[x s']|]; split; [eauto| |done|].
  - by intros (? & ? & [= <- <-] & ?).
  - by intros (? & ? & ? & ?).
Qed.

Lemma bind_ret (x : A) (k : A -> M S B) s : (mret x ≫= k) s = k x s.
Proof. done. Qed.
Lemma bind_gets {C} (f : S -> C) (k : C -> M S B) s : (gets f ≫= k) s = k (f s) s.
Proof. done. Qed.
Lemma bind_must {C} (o : option C) x (k : C -> M S B) s : o = Some x -> (must o ≫= k) s = k x s.
Proof. by intros ->. Qed.
Lemma bind_massert (b : bool) (k : unit -> M S B) s : b = true -> (massert b ≫= k) s = k tt s.
Proof. by intros ->. Qed.
Lemma bind_massert_false (b : bool) (k : unit -> M S B) s : b = false -> (massert b ≫= k) s = None.
Proof. by intros ->. Qed.
Lemma bind_modify (f : S -> S) (k : unit -> M S B) s : (modify f ≫= k) s = k tt (f s).
Proof. done. Qed.
Lemma bind_assoc {C} (m : M S A) (k : A -> M S B) (h : B -> M S C) s :
  ((m ≫= k) ≫= h) s = (m ≫= (fun x => k x ≫= h)) s.
Proof. unfold mbind, M_bind. by destruct (m s) as [[? ?]|]. Qed.
End laws.

(** ** Total correctness

    [wp m Q s]: run from [s], [m] is defined and its value and final state satisfy [Q]. *)
Definition wp {S A} (m : M S A) (Q : A -> S -> Prop) (s : S) : Prop :=
  match m s with Some (x, s') => Q x s' | None => False end.

Section wp.
Context {S A B : Type}.

Lemma wp_ret (x : A) (Q : A -> S -> Prop) s : Q x s -> wp (mret x) Q s.
Proof. done. Qed.
Lemma wp_bind (m : M S A) (k : A -> M S B) (Q : B -> S -> Prop) s :
  wp m (fun x s' => wp (k x) Q s') s -> wp (m ≫= k) Q s.
Proof. unfold wp, mbind, M_bind. by destruct (m s) as [[? ?]|]. Qed.
Lemma wp_gets (f : S -> A) (Q : A -> S -> Prop) s : Q (f s) s -> wp (gets f) Q s.
Proof. done. Qed.
Lemma wp_modify (f : S -> S) (Q : unit -> S -> Prop) s : Q tt (f s) -> wp (modify f) Q s.
Proof. done. Qed.
Lemma wp_must (o : option A) x (Q : A -> S -> Prop) s : o = Some x -> Q x s -> wp (must o) Q s.
Proof. by intros ->. Qed.
Lemma wp_massert (b : bool) (Q : unit -> S -> Prop) s : b = true -> Q tt s -> wp (massert b) Q s.
Proof. by intros ->. Qed.
Lemma wp_mono (m : M S A) (P Q : A -> S -> Prop) s :
  wp m P s -> (forall x s', P x s' -> Q x s') -> wp m Q s.
Proof. unfold wp. destruct (m s) as [[? ?]|]; eauto. Qed.
Lemma wp_inv (m : M S A) (Q : A -> S -> Prop) s :
  wp m Q s -> exists x s', m s = Some (x, s') /\ Q x s'.
Proof. unfold wp. destruct (m s) as [[x s']|]; [eauto|done]. Qed.
Lemma wp_some (m : M S A) (Q : A -> S -> Prop) s x s' : m s = Some (x, s') -> wp m Q s -> Q x s'.
Proof. unfold wp. by intros ->. Qed.
End wp.

(** Run the next command that is not a branch. *)
Ltac wp_step :=
  lazymatch goal with
  | |- wp (_ ≫= _) _ _ => apply wp_bind
  | |- wp (mret _) _ _ => apply wp_ret
  | |- wp (gets _) _ _ => apply wp_gets
  | |- wp (modify _) _ _ => apply wp_modify
  end; cbn beta.

(** ** Loops

    [rounds body n x] runs [body] until it yields [inr], at most [2 ^ n] times; [inl] carries
    what the next round starts from. *)
Section rounds.
Context {S A B : Type} (body : A -> M S (A + B)).
Fixpoint rounds (n : nat) (x : A) : M S (A + B) :=
  match n with
  | O => body x
  | Datatypes.S n => r ← rounds n x; match r with inl x => rounds n x | inr y => mret (inr y) end
  end.
(** [k] rounds that do not end the loop. *)
Fixpoint goes_on (k : nat) (x : A) (s : S) (x' : A) (s' : S) : Prop :=
  match k with
  | O => x' = x /\ s' = s
  | Datatypes.S k => exists x1 s1, body x s = Some (inl x1, s1) /\ goes_on k x1 s1 x' s'
  end.
Lemma goes_on_app k j x s x' s' : goes_on (k + j) x s x' s' <-> exists x1 s1, goes_on k x s x1 s1 /\ goes_on j x1 s1 x' s'.
Proof.
  revert x s. induction k as [|k IH]; intros x s; cbn.
  - split; [intros H; by exists x, s|by intros (? & ? & [-> ->] & ?)].
  - setoid_rewrite IH. split; [intros (x1 & s1 & ? & x2 & s2 & ? & ?)|intros (x2 & s2 & (x1 & s1 & ? & ?) & ?)]; eauto 10.
Qed.
Lemma rounds_go n : forall x s x' s', goes_on (2 ^ n) x s x' s' -> rounds n x s = Some (inl x', s').
Proof.
  induction n as [|n IH]; intros x s x' s' G; [by destruct G as (? & ? & ? & -> & ->)|].
  cbn in G. rewrite Nat.add_0_r in G. apply goes_on_app in G as (x1 & s1 & G1 & G2). cbn [rounds].
  by rewrite (bind_eq _ _ _ _ _ (IH _ _ _ _ G1)), (IH _ _ _ _ G2).
Qed.
(** The loop ends in the round after [k], if that many are allowed. *)
Lemma rounds_end n : forall k x s x1 s1 y s2, goes_on k x s x1 s1 -> body x1 s1 = Some (inr y, s2) -> (k < 2 ^ n)%nat ->
  rounds n x s = Some (inr y, s2).
Proof.
  induction n as [|n IH]; intros k x s x1 s1 y s2 G E Hk.
  - destruct k; [|cbn in Hk; lia]. by destruct G as [-> ->].
  - cbn [rounds]. destruct (decide (k < 2 ^ n)%nat) as [Hlt|Hge]; [by rewrite (bind_eq _ _ _ _ _ (IH _ _ _ _ _ _ _ G E Hlt))|].
    replace k with (2 ^ n + (k - 2 ^ n))%nat in G by lia. apply goes_on_app in G as (x2 & s3 & G1 & G2).
    rewrite (bind_eq _ _ _ _ _ (rounds_go _ _ _ _ _ G1)). apply (IH (k - 2 ^ n)%nat _ _ x1 s1); [done|done|]. cbn in Hk. lia.
Qed.
End rounds.

(** ** Partial correctness

    What holds of a result, if there is one. *)
Definition pc {S A} (m : M S A) (Q : A -> S -> Prop) (s : S) : Prop := forall x s', m s = Some (x, s') -> Q x s'.

Section pc.
Context {S A B : Type}.
Implicit Types (Q : A -> S -> Prop).
Lemma pc_ret (x : A) Q s : Q x s -> pc (mret x) Q s.
Proof. by intros HQ ? ? [= <- <-]. Qed.
Lemma pc_bind (m : M S B) (k : B -> M S A) Q s : pc m (fun x s' => pc (k x) Q s') s -> pc (m ≫= k) Q s.
Proof. intros Hm x s' E. apply bind_some in E as (y & s1 & E1 & E2). by eapply Hm. Qed.
Lemma pc_gets (f : S -> A) Q s : Q (f s) s -> pc (gets f) Q s.
Proof. by intros HQ ? ? [= <- <-]. Qed.
Lemma pc_must (o : option A) Q s : (forall x, o = Some x -> Q x s) -> pc (must o) Q s.
Proof. intros HQ x s'. unfold must. destruct o; [|done]. intros [= <- <-]. by apply HQ. Qed.
Lemma pc_mono (m : M S A) (P Q : A -> S -> Prop) s : pc m P s -> (forall x s', P x s' -> Q x s') -> pc m Q s.
Proof. intros Hm HPQ x s' E. by apply HPQ, Hm. Qed.
Lemma pc_and (m : M S A) (P Q : A -> S -> Prop) s : pc m P s -> pc m Q s -> pc m (fun x s' => P x s' /\ Q x s') s.
Proof. intros HP HQ x s' E. by split; [apply HP|apply HQ]. Qed.
End pc.
Lemma pc_massert {S} (b : bool) (Q : unit -> S -> Prop) s : (b = true -> Q tt s) -> pc (massert b) Q s.
Proof. destruct b; [intros HQ; by apply pc_ret, HQ|by intros ? ? ?]. Qed.
Lemma pc_modify {S} (f : S -> S) (Q : unit -> S -> Prop) s : Q tt (f s) -> pc (modify f) Q s.
Proof. by intros HQ ? ? [= <- <-]. Qed.

(** Branch on a return code; run one step; run to the next branch. *)
Ltac pc_if :=
  lazymatch goal with
  | |- pc (if negb (?rc =? 0)%Z then _ else _) _ _ =>
      let E := fresh "Hrc" in destruct (Z.eqb_spec rc 0) as [E|E]; cbn [negb]
  end.
Ltac pc_step :=
  lazymatch goal with
  | |- pc (_ ≫= _) _ _ => apply pc_bind
  | |- pc (mret _) _ _ => apply pc_ret
  | |- pc (gets _) _ _ => apply pc_gets
  | |- pc (modify _) _ _ => apply pc_modify
  | |- pc (must _) _ _ => let E := fresh "E" in apply pc_must; intros ? E
  | |- pc (massert _) _ _ => let E := fresh "E" in apply pc_massert; intros E
  end; cbn beta iota.
Ltac pc_run := repeat pc_step.
