(* ===== verification/CString.v ===== *)
(** * C strings and memory blocks: lib/string.c, lib/ctype.c

    One definition per routine of [u-boot-marvell/lib/string.c], on the byte
    memory of [CMem].  A pointer is an address ([Z], 0 is NULL); [char] is
    unsigned and [long] has 64 bits, as on the AArch64 target.  A loop without
    a counter runs on [fuel m], the number of mapped bytes plus one: such a loop
    reads a new address in each round, so it ends or faults before (lemma
    [allocated_size]). *)

From Stdlib Require Import ZArith Lia.
From stdpp Require Import base option list gmap numbers.
From S2P Require Import Prelude CMem.
Open Scope Z_scope.

Definition fuel (m : mem) : nat := S (size m).

(** ** lib/ctype.c and include/linux/ctype.h *)
Module Ctype.

Definition _U := 0x01.
Definition _L := 0x02.
Definition _D := 0x04.
Definition _C := 0x08.
Definition _P := 0x10.
Definition _S := 0x20.
Definition _X := 0x40.
Definition _SP := 0x80.

Definition _ctype : list Z :=
  replicate 8 _C ++ [_C] ++ replicate 5 (Z.lor _C _S) ++ replicate 2 _C ++
  replicate 16 _C ++ [Z.lor _S _SP] ++ replicate 15 _P ++
  replicate 10 _D ++ replicate 6 _P ++
  [_P] ++ replicate 6 (Z.lor _U _X) ++ replicate 20 _U ++ replicate 5 _P ++
  [_P] ++ replicate 6 (Z.lor _L _X) ++ replicate 20 _L ++ replicate 4 _P ++ [_C] ++
  replicate 32 0 ++
  [Z.lor _S _SP] ++ replicate 31 _P ++
  replicate 23 _U ++ [_P] ++ replicate 7 _U ++ [_L] ++
  replicate 23 _L ++ [_P] ++ replicate 8 _L.

Definition __ismask (x : Z) : Z := default 0 (_ctype !! Z.to_nat (u8 x)).

Definition isalnum (c : Z) : bool := negb (Z.land (__ismask c) (Z.lor (Z.lor _U _L) _D) =? 0).
Definition isdigit (c : Z) : bool := negb (Z.land (__ismask c) _D =? 0).
Definition islower (c : Z) : bool := negb (Z.land (__ismask c) _L =? 0).
Definition isspace (c : Z) : bool := negb (Z.land (__ismask c) _S =? 0).
Definition isupper (c : Z) : bool := negb (Z.land (__ismask c) _U =? 0).
Definition isxdigit (c : Z) : bool := negb (Z.land (__ismask c) (Z.lor _D _X) =? 0).
Definition isblank (c : Z) : bool := (c =? 32) || (c =? 9).
Definition tolower (c : Z) : Z := if isupper c then u8 (c - (65 - 97)) else c.
Definition toupper (c : Z) : Z := if islower c then u8 (c - (97 - 65)) else c.

End Ctype.
Import Ctype.

(** ** Strings *)
Fixpoint strncasecmp_loop (len : nat) (m : mem) (s1 s2 : Z) (c1 c2 : Z) : option (Z * Z) :=
  match len with
  | O => Some (c1, c2)
  | S len =>
      c1 ← m !! s1; c2 ← m !! s2;
      if c1 =? 0 then Some (c1, c2)
      else if c2 =? 0 then Some (c1, c2)
      else if c1 =? c2 then strncasecmp_loop len m (s1 + 1) (s2 + 1) c1 c2
      else
        let c1 := tolower c1 in
        let c2 := tolower c2 in
        if negb (c1 =? c2) then Some (c1, c2)
        else strncasecmp_loop len m (s1 + 1) (s2 + 1) c1 c2
  end.

Definition strncasecmp (m : mem) (s1 s2 : Z) (len : nat) : option Z :=
  '(c1, c2) ← strncasecmp_loop len m s1 s2 0 0; Some (c1 - c2).

(** [strcasecmp] passes the length [-1U], 4294967295; the loop cannot run
    longer than the mapped memory is, so the count is cut to the fuel. *)
Definition strcasecmp (m : mem) (s1 s2 : Z) : option Z :=
  strncasecmp m s1 s2 (Z.to_nat (Z.min (Z.of_nat (fuel m)) 4294967295)).

Fixpoint strcpy_loop (f : nat) (m : mem) (dest src : Z) : option mem :=
  match f with
  | O => None
  | S f =>
      c ← m !! src; m ← store m dest c;
      if c =? 0 then Some m else strcpy_loop f m (dest + 1) (src + 1)
  end.
Definition strcpy (m : mem) (dest src : Z) : option mem := strcpy_loop (fuel m) m dest src.

Fixpoint strncpy (m : mem) (dest src : Z) (count : nat) : option mem :=
  match count with
  | O => Some m
  | S count =>
      c ← m !! src; m ← store m dest c;
      if c =? 0 then Some m else strncpy m (dest + 1) (src + 1) count
  end.

Fixpoint strlen_loop (f : nat) (m : mem) (sc : Z) : option Z :=
  match f with
  | O => None
  | S f => c ← m !! sc; if c =? 0 then Some sc else strlen_loop f m (sc + 1)
  end.
Definition strlen (m : mem) (s : Z) : option Z :=
  sc ← strlen_loop (fuel m) m s; Some (sc - s).

Fixpoint strnlen_loop (m : mem) (sc : Z) (count : nat) : option Z :=
  match count with
  | O => Some sc
  | S count => c ← m !! sc; if c =? 0 then Some sc else strnlen_loop m (sc + 1) count
  end.
Definition strnlen (m : mem) (s : Z) (count : nat) : option Z :=
  sc ← strnlen_loop m s count; Some (sc - s).

Definition strcat (m : mem) (dest src : Z) : option mem :=
  d ← strlen_loop (fuel m) m dest; strcpy_loop (fuel m) m d src.

Fixpoint strncat_loop (count : nat) (m : mem) (dest src : Z) : option mem :=
  match count with
  | O => None
  | S count =>
      c ← m !! src; m ← store m dest c;
      if c =? 0 then Some m
      else if bool_decide (count = 0%nat) then store m (dest + 1) 0
      else strncat_loop count m (dest + 1) (src + 1)
  end.
Definition strncat (m : mem) (dest src : Z) (count : nat) : option mem :=
  if bool_decide (count = 0%nat) then Some m
  else d ← strlen_loop (fuel m) m dest; strncat_loop count m d src.

Fixpoint strcmp_loop (f : nat) (m : mem) (cs ct : Z) : option Z :=
  match f with
  | O => None
  | S f =>
      c ← m !! cs; d ← m !! ct;
      let res := s8 (c - d) in
      if negb (res =? 0) || (c =? 0) then Some res else strcmp_loop f m (cs + 1) (ct + 1)
  end.
Definition strcmp (m : mem) (cs ct : Z) : option Z := strcmp_loop (fuel m) m cs ct.

Fixpoint strncmp_loop (m : mem) (cs ct : Z) (count : nat) (res : Z) : option Z :=
  match count with
  | O => Some res
  | S count =>
      c ← m !! cs; d ← m !! ct;
      let res := s8 (c - d) in
      if negb (res =? 0) || (c =? 0) then Some res
      else strncmp_loop m (cs + 1) (ct + 1) count res
  end.
Definition strncmp (m : mem) (cs ct : Z) (count : nat) : option Z :=
  strncmp_loop m cs ct count 0.

Fixpoint strchr_loop (f : nat) (m : mem) (s c : Z) : option Z :=
  match f with
  | O => None
  | S f =>
      x ← m !! s;
      if x =? u8 c then Some s else if x =? 0 then Some 0 else strchr_loop f m (s + 1) c
  end.
Definition strchr (m : mem) (s c : Z) : option Z := strchr_loop (fuel m) m s c.

(** [strrchr_loop k]: the rounds with [p = s + k], [s + (k - 1)], ..., [s]. *)
Fixpoint strrchr_loop (k : nat) (m : mem) (s c : Z) : option Z :=
  x ← m !! (s + Z.of_nat k);
  if x =? u8 c then Some (s + Z.of_nat k)
  else match k with O => Some 0 | S k => strrchr_loop k m s c end.
Definition strrchr (m : mem) (s c : Z) : option Z :=
  n ← strlen m s; strrchr_loop (Z.to_nat n) m s c.

(** [strdup]: the allocator is the argument [malloc], called with the size; it
    returns the new block and the memory that holds it, or NULL (0). *)
Definition strdup (malloc : mem -> Z -> Z * mem) (m : mem) (s : Z) : option (Z * mem) :=
  if s =? 0 then Some (0, m)
  else
    n ← strlen m s;
    let '(new, m1) := malloc m (n + 1) in
    if new =? 0 then Some (0, m1)
    else m2 ← strcpy m1 new s; Some (new, m2).

(** The inner scan of [strspn] and [strpbrk]: is [c] among the characters at [a]? *)
Fixpoint scan_set (f : nat) (m : mem) (c a : Z) : option bool :=
  match f with
  | O => None
  | S f => x ← m !! a;
           if x =? 0 then Some false
           else if c =? x then Some true else scan_set f m c (a + 1)
  end.

Fixpoint strspn_loop (f : nat) (m : mem) (p accept count : Z) : option Z :=
  match f with
  | O => None
  | S f =>
      c ← m !! p;
      if c =? 0 then Some count
      else b ← scan_set (fuel m) m c accept;
           if (b : bool) then strspn_loop f m (p + 1) accept (count + 1) else Some count
  end.
Definition strspn (m : mem) (s accept : Z) : option Z := strspn_loop (fuel m) m s accept 0.

Fixpoint strpbrk_loop (f : nat) (m : mem) (sc1 ct : Z) : option Z :=
  match f with
  | O => None
  | S f =>
      c ← m !! sc1;
      if c =? 0 then Some 0
      else b ← scan_set (fuel m) m c ct;
           if (b : bool) then Some sc1 else strpbrk_loop f m (sc1 + 1) ct
  end.
Definition strpbrk (m : mem) (cs ct : Z) : option Z := strpbrk_loop (fuel m) m cs ct.

(** [strtok]: [tok] is the global [___strtok]; the result is the token, the new
    value of the global and the memory. *)
Definition strtok (m : mem) (tok s ct : Z) : option (Z * Z * mem) :=
  let sbegin := if negb (s =? 0) then s else tok in
  if sbegin =? 0 then Some (0, tok, m)
  else
    n ← strspn m sbegin ct;
    let sbegin := sbegin + n in
    c ← m !! sbegin;
    if c =? 0 then Some (0, 0, m)
    else
      send ← strpbrk m sbegin ct;
      if send =? 0 then Some (sbegin, send, m)
      else
        x ← m !! send;
        if x =? 0 then Some (sbegin, send, m)
        else m ← store m send 0; Some (sbegin, send + 1, m).

(** [strsep]: [sp] is the pointer [*s]; the result is the token, the new [*s]
    and the memory. *)
Definition strsep (m : mem) (sp ct : Z) : option (Z * Z * mem) :=
  if sp =? 0 then Some (0, sp, m)
  else
    e ← strpbrk m sp ct;
    if e =? 0 then Some (sp, 0, m)
    else m ← store m e 0; Some (sp, e + 1, m).

Fixpoint strswab_loop (f : nat) (m : mem) (p : Z) : option mem :=
  match f with
  | O => None
  | S f =>
      a ← m !! p;
      if a =? 0 then Some m
      else
        b ← m !! (p + 1);
        if b =? 0 then Some m
        else m ← store m p b; m ← store m (p + 1) a; strswab_loop f m (p + 2)
  end.
Definition strswab (m : mem) (s : Z) : option (Z * mem) :=
  if s =? 0 then Some (0, m)
  else c ← m !! s;
       if c =? 0 then Some (0, m) else m ← strswab_loop (fuel m) m s; Some (s, m).

(** ** Memory blocks *)
(** [sizeof(unsigned long)] on AArch64. *)
Definition WORD : Z := 8.

(** The words of [memset] and [memcpy]: [count / 8] rounds of eight bytes. *)
Fixpoint set_words (n : nat) (m : mem) (s cl : Z) : option mem :=
  match n with
  | O => Some m
  | S n => m ← store_range m s (le_bytes 8 cl); set_words n m (s + WORD) cl
  end.
Fixpoint set_bytes (n : nat) (m : mem) (s c : Z) : option mem :=
  match n with
  | O => Some m
  | S n => m ← store m s c; set_bytes n m (s + 1) c
  end.
Fixpoint memset_pattern (i : nat) (cl c : Z) : Z :=
  match i with
  | O => cl
  | S i => memset_pattern i (Z.lor (u64 (Z.shiftl cl 8)) (Z.land c 0xff)) c
  end.
Definition memset (m : mem) (s c count : Z) : option mem :=
  if Z.land s (WORD - 1) =? 0 then
    let words := count / WORD in
    m ← set_words (Z.to_nat words) m s (memset_pattern 8 0 c);
    set_bytes (Z.to_nat (count - WORD * words)) m (s + WORD * words) c
  else set_bytes (Z.to_nat count) m s c.

Fixpoint copy_words (n : nat) (m : mem) (d s : Z) : option mem :=
  match n with
  | O => Some m
  | S n => w ← load_range m s 8; m ← store_range m d w; copy_words n m (d + WORD) (s + WORD)
  end.
Fixpoint copy_fwd (n : nat) (m : mem) (d s : Z) : option mem :=
  match n with
  | O => Some m
  | S n => b ← m !! s; m ← store m d b; copy_fwd n m (d + 1) (s + 1)
  end.
(** [copy_bwd n]: the rounds [n-1, n-2, ..., 0] of the downward copy. *)
Fixpoint copy_bwd (n : nat) (m : mem) (d s : Z) : option mem :=
  match n with
  | O => Some m
  | S n => b ← m !! (s + Z.of_nat n); m ← store m (d + Z.of_nat n) b; copy_bwd n m d s
  end.

Definition memcpy (m : mem) (dest src count : Z) : option mem :=
  if src =? dest then Some m
  else if Z.land (Z.lor dest src) (WORD - 1) =? 0 then
    let words := count / WORD in
    m ← copy_words (Z.to_nat words) m dest src;
    copy_fwd (Z.to_nat (count - WORD * words)) m (dest + WORD * words) (src + WORD * words)
  else copy_fwd (Z.to_nat count) m dest src.

Definition memmove (m : mem) (dest src count : Z) : option mem :=
  if src =? dest then Some m
  else if dest <=? src then copy_fwd (Z.to_nat count) m dest src
  else copy_bwd (Z.to_nat count) m dest src.

Definition strlcpy (m : mem) (dest src sz : Z) : option (Z * mem) :=
  ret ← strlen m src;
  if sz =? 0 then Some (ret, m)
  else
    let len := if sz <=? ret then sz - 1 else ret in
    m ← memcpy m dest src len; m ← store m (dest + len) 0; Some (ret, m).

Fixpoint memcmp_loop (n : nat) (m : mem) (cs ct res : Z) : option Z :=
  match n with
  | O => Some res
  | S n =>
      a ← m !! cs; b ← m !! ct;
      if negb (a - b =? 0) then Some (a - b) else memcmp_loop n m (cs + 1) (ct + 1) (a - b)
  end.
Definition memcmp (m : mem) (cs ct count : Z) : option Z :=
  memcmp_loop (Z.to_nat count) m cs ct 0.

Fixpoint memscan_loop (n : nat) (m : mem) (p c : Z) : option Z :=
  match n with
  | O => Some p
  | S n => x ← m !! p; if x =? c then Some p else memscan_loop n m (p + 1) c
  end.
Definition memscan (m : mem) (addr c sz : Z) : option Z := memscan_loop (Z.to_nat sz) m addr c.

(** [strstr_loop k]: the rounds of the outer loop, [l1 - l2 + 1 = k] of them. *)
Fixpoint strstr_loop (k : nat) (m : mem) (s1 s2 l2 : Z) : option Z :=
  match k with
  | O => Some 0
  | S k => r ← memcmp m s1 s2 l2; if r =? 0 then Some s1 else strstr_loop k m (s1 + 1) s2 l2
  end.
Definition strstr (m : mem) (s1 s2 : Z) : option Z :=
  l2 ← strlen m s2;
  if l2 =? 0 then Some s1
  else l1 ← strlen m s1; strstr_loop (Z.to_nat (l1 - l2 + 1)) m s1 s2 l2.

Fixpoint memchr_loop (n : nat) (m : mem) (p c : Z) : option Z :=
  match n with
  | O => Some 0
  | S n => x ← m !! p; if u8 c =? x then Some p else memchr_loop n m (p + 1) c
  end.
Definition memchr (m : mem) (s c n : Z) : option Z := memchr_loop (Z.to_nat n) m s c.

Fixpoint check_bytes8_loop (n : nat) (m : mem) (start value : Z) : option Z :=
  match n with
  | O => Some 0
  | S n => x ← m !! start;
           if negb (x =? value) then Some start else check_bytes8_loop n m (start + 1) value
  end.
Definition check_bytes8 (m : mem) (start value bytes : Z) : option Z :=
  check_bytes8_loop (Z.to_nat (u32 bytes)) m start value.

Fixpoint memchr_inv_words (n : nat) (m : mem) (start value value64 rest : Z) : option Z :=
  match n with
  | O => check_bytes8 m start value rest
  | S n =>
      w ← load_range m start 8;
      if negb (le_value w =? value64) then check_bytes8 m start value 8
      else memchr_inv_words n m (start + 8) value value64 rest
  end.

Definition memchr_inv (m : mem) (start c bytes : Z) : option Z :=
  let value := u8 c in
  if bytes <=? 16 then check_bytes8 m start value bytes
  else
    let v := value in
    let v := Z.lor v (u64 (Z.shiftl v 8)) in
    let v := Z.lor v (u64 (Z.shiftl v 16)) in
    let v := Z.lor v (u64 (Z.shiftl v 32)) in
    let prefix := start mod 8 in
    if negb (prefix =? 0) then
      let prefix := 8 - prefix in
      r ← check_bytes8 m start value prefix;
      if negb (r =? 0) then Some r
      else memchr_inv_words (Z.to_nat (u32 ((bytes - prefix) / 8))) m (start + prefix)
             value v ((bytes - prefix) mod 8)
    else memchr_inv_words (Z.to_nat (u32 (bytes / 8))) m start value v (bytes mod 8).
