(* ===== verification/CStringProps.v ===== *)
(** * Properties of the string and memory routines of [CString] *)

From Stdlib Require Import ZArith Lia.
From stdpp Require Import base option list gmap numbers sets.
From S2P Require Import Prelude CMem CString.
Import Ctype.
Open Scope Z_scope.

(** [cstr m p s]: a NUL-terminated string with the characters [s] is at [p]. *)
Definition cstr (m : mem) (p : Z) (s : list Z) : Prop :=
  arr m p (s ++ [0]) /\ Forall (fun c => c <> 0) s.

#[global] Instance cstr_dec m p s : Decision (cstr m p s).
Proof. unfold cstr. apply _. Defined.

(** ** Fuel *)
Lemma allocated_size m p n : allocated m p n -> n <= Z.of_nat (size m).
Proof.
  intros Ha. destruct (decide (n <= 0)); [lia|].
  set (l := (fun i => p + Z.of_nat i) <$> seq 0 (Z.to_nat n)).
  assert (size (list_to_set l : gset Z) = Z.to_nat n) as Hs.
  { rewrite size_list_to_set; [by unfold l; rewrite length_fmap, length_seq|].
    apply NoDup_fmap_2_strong, NoDup_seq. intros. lia. }
  assert ((list_to_set l : gset Z) ⊆ dom m) as Hsub.
  { intros x Hx. apply elem_of_list_to_set, list_elem_of_fmap in Hx as (i & -> & Hi).
    apply elem_of_seq in Hi. apply elem_of_dom, Ha. lia. }
  apply subseteq_size in Hsub. rewrite Hs, size_dom in Hsub. lia.
Qed.

Lemma arr_fuel m p l : arr m p l -> (length l < fuel m)%nat.
Proof.
  intros Ha%arr_allocated%allocated_size. unfold fuel, zlen in *. lia.
Qed.

Lemma cstr_fuel m p s : cstr m p s -> (length s < fuel m)%nat.
Proof. intros [Ha%arr_fuel _]. rewrite length_app in Ha. simpl in Ha. lia. Qed.

Lemma cstr_nil m p : cstr m p [] <-> m !! p = Some 0.
Proof.
  unfold cstr. simpl. rewrite arr_cons. split; [tauto|].
  intros; repeat split; [done|apply arr_nil|constructor].
Qed.

Lemma cstr_cons m p c s : cstr m p (c :: s) <-> m !! p = Some c /\ c <> 0 /\ cstr m (p + 1) s.
Proof. unfold cstr. simpl. rewrite arr_cons, Forall_cons. tauto. Qed.

Lemma cstr_arr m p s : cstr m p s -> arr m p s.
Proof. intros [[Ha _]%arr_app _]. done. Qed.

Lemma cstr_end m p s : cstr m p s -> m !! (p + zlen s) = Some 0.
Proof. intros [[_ Ha]%arr_app _]. by apply arr_cons in Ha as [? _]. Qed.

Lemma cstr_drop m p s n : 0 <= n <= zlen s -> cstr m p s -> cstr m (p + n) (drop (Z.to_nat n) s).
Proof.
  intros Hn [Ha Hs]. split; [|by apply Forall_drop].
  rewrite <- (take_drop (Z.to_nat n) s), <- app_assoc in Ha.
  apply arr_app in Ha as [_ Ha]. unfold zlen in *. rewrite length_take in Ha.
  replace (Z.of_nat (Z.to_nat n `min` length s)) with n in Ha by lia. done.
Qed.

Ltac cstr_case s :=
  let c := fresh "c" in let s' := fresh "s" in
  destruct s as [|c s'];
  [rewrite cstr_nil in * | rewrite cstr_cons in *; destruct_and?].

(** ** [strlen] *)
Lemma strlen_loop_ok f m p s :
  (length s < f)%nat -> cstr m p s -> strlen_loop f m p = Some (p + zlen s).
Proof.
  revert f p. induction s as [|c s IH]; intros f p Hf Hs; (destruct f; [simpl in *; lia|]); simpl.
  - apply cstr_nil in Hs. rewrite Hs. simpl. f_equal. simpl_zlen. lia.
  - apply cstr_cons in Hs as (Hc & Hne & Hs). rewrite Hc. simpl.
    destruct (Z.eqb_spec c 0); [done|]. rewrite (IH f (p + 1)); simpl in *; [|lia|done].
    f_equal. simpl_zlen. lia.
Qed.

Lemma strlen_ok m p s : cstr m p s -> strlen m p = Some (zlen s).
Proof.
  intros Hs. unfold strlen. rewrite (strlen_loop_ok _ _ _ s) by eauto using cstr_fuel.
  simpl. f_equal. lia.
Qed.

(** ** Block copies *)
Lemma write_comm m p q l k :
  p + zlen l <= q \/ q + zlen k <= p -> write (write m p l) q k = write (write m q k) p l.
Proof. intros. apply map_eq. intros x. rewrite !write_lookup. repeat case_decide; (done || lia). Qed.

Lemma write_single m p b : <[p := b]> m = write m p [b].
Proof. done. Qed.

Lemma copy_fwd_ok l m d s :
  arr m s l -> Forall is_byte l -> allocated m d (zlen l) -> d <= s \/ s + zlen l <= d ->
  copy_fwd (length l) m d s = Some (write m d l).
Proof.
  revert m d s. induction l as [|b l IH]; intros m d s Ha Hb Hal Hov; simpl; [done|].
  pose proof Ha as [Hs Ha']%arr_cons. inversion_clear Hb. pose proof (zlen_nonneg l).
  simpl_zlen. rewrite Hs. simpl.
  rewrite store_ok by (eapply allocated_at, Hal; lia). simpl. rewrite u8_byte by done.
  apply IH; [|done| |lia].
  - apply (arr_write_frame m d [b]); [simpl_zlen; lia|done].
  - apply (allocated_write m d [b]). eapply allocated_sub, Hal; lia.
Qed.

Lemma copy_bwd_ok l m d s :
  arr m s l -> Forall is_byte l -> allocated m d (zlen l) -> s <= d ->
  copy_bwd (length l) m d s = Some (write m d l).
Proof.
  revert m. induction l as [|b l IH] using rev_ind; intros m Ha Hb Hal Hov; simpl; [done|].
  rewrite length_app, Nat.add_comm. simpl. pose proof (zlen_nonneg l).
  apply arr_app in Ha as [Ha Hs]. apply arr_cons in Hs as [Hs _].
  apply Forall_app in Hb as [Hb Hb1]. inversion_clear Hb1. simpl_zlen.
  fold (zlen l). rewrite Hs. simpl.
  rewrite store_ok by (eapply allocated_at, Hal; lia). simpl. rewrite u8_byte by done.
  rewrite IH; [|apply (arr_write_frame m _ [b]); [simpl_zlen; lia|done]|done| |done].
  - f_equal. rewrite write_app. apply (write_comm m _ d [b]). simpl_zlen. lia.
  - apply (allocated_write m _ [b]). eapply allocated_sub, Hal; lia.
Qed.

Lemma take_drop_8 (l : list Z) n :
  length l = (8 * S n)%nat -> exists w k, l = w ++ k /\ length w = 8%nat /\ length k = (8 * n)%nat.
Proof.
  intros. exists (take 8 l), (drop 8 l). rewrite take_drop, length_take, length_drop.
  split; [done|lia].
Qed.

Lemma copy_words_ok n l m d s :
  length l = (8 * n)%nat ->
  arr m s l -> Forall is_byte l -> allocated m d (zlen l) -> d <= s \/ s + zlen l <= d ->
  copy_words n m d s = Some (write m d l).
Proof.
  revert l m d s. induction n as [|n IH]; intros l m d s Hl Ha Hb Hal Hov.
  - destruct l; done.
  - apply take_drop_8 in Hl as (w & k & -> & Hw & Hk).
    apply arr_app in Ha as [Haw Hak]. apply Forall_app in Hb as [Hbw Hbk].
    pose proof (zlen_nonneg k). simpl_zlen.
    assert (zlen w = 8) as Hw8 by (unfold zlen; lia). rewrite Hw8 in *.
    cbn [copy_words]. rewrite <- Hw, (load_range_arr _ _ _ Haw). cbn [mbind option_bind].
    rewrite store_range_ok; [|eapply allocated_sub, Hal; lia|done]. cbn [mbind option_bind].
    rewrite (IH k); [|done| |done| |unfold WORD; lia].
    + rewrite write_app, Hw8. done.
    + apply arr_write_frame; [unfold WORD; lia|done].
    + apply allocated_write. unfold WORD. eapply allocated_sub, Hal; lia.
Qed.

Lemma memcpy_ok m dest src l :
  arr m src l -> Forall is_byte l -> allocated m dest (zlen l) ->
  dest <= src \/ src + zlen l <= dest ->
  memcpy m dest src (zlen l) = Some (write m dest l).
Proof.
  intros Ha Hb Hal Hov. unfold memcpy. pose proof (zlen_nonneg l).
  destruct (Z.eqb_spec src dest) as [->|]; [by rewrite write_arr_id|].
  destruct (Z.land (Z.lor dest src) (WORD - 1) =? 0).
  - set (q := zlen l / WORD).
    assert (0 <= WORD * q <= zlen l) as Hq by (unfold q, WORD; dlia).
    destruct (zsplit l (WORD * q) Hq) as (l1 & l2 & E & H1 & H2).
    clearbody q. rewrite E in Ha, Hb. apply arr_app in Ha as [Ha1 Ha2].
    apply Forall_app in Hb as [Hb1 Hb2].
    rewrite (copy_words_ok _ l1); [|unfold zlen, WORD in *; lia|done|done| |lia].
    2: eapply allocated_sub, Hal; lia.
    simpl. replace (Z.to_nat (zlen l - WORD * q)) with (length l2) by (unfold zlen in *; lia).
    rewrite copy_fwd_ok; [by rewrite E, write_app, H1| |done| |lia].
    + apply arr_write_frame; [lia|]. by rewrite <- H1.
    + apply allocated_write. eapply allocated_sub, Hal; lia.
  - unfold zlen. rewrite Nat2Z.id. by apply copy_fwd_ok.
Qed.

(** [memcpy] of lib/string.c, which copies eight bytes at a time when both
    pointers are aligned and the rest byte by byte, writes exactly the [count]
    source bytes to the destination, is memory safe when both blocks are mapped,
    and is right for overlapping blocks too as long as the destination does not
    start inside the source block. *)
Theorem memcpy_spec m dest src l :
  arr m src l -> Forall is_byte l -> allocated m dest (zlen l) ->
  dest <= src \/ src + zlen l <= dest ->
  memcpy m dest src (zlen l) = Some (write m dest l).
Proof. apply memcpy_ok. Qed.

Lemma memmove_ok m dest src l :
  arr m src l -> Forall is_byte l -> allocated m dest (zlen l) ->
  memmove m dest src (zlen l) = Some (write m dest l).
Proof.
  intros Ha Hb Hal. unfold memmove, zlen. rewrite Nat2Z.id.
  destruct (Z.eqb_spec src dest) as [->|]; [by rewrite write_arr_id|].
  destruct (Z.leb_spec dest src); [apply copy_fwd_ok | apply copy_bwd_ok]; auto with lia.
Qed.

(** [memmove] writes the [count] source bytes to the destination whatever the
    overlap of the two blocks. *)
Theorem memmove_spec m dest src l :
  arr m src l -> Forall is_byte l -> allocated m dest (zlen l) ->
  memmove m dest src (zlen l) = Some (write m dest l).
Proof. apply memmove_ok. Qed.

(** ** [memset] *)
Lemma land_ff z : Z.land z 0xff = u8 z.
Proof. change 0xff with (Z.ones 8). rewrite Z.land_ones by lia. done. Qed.

Lemma memset_pattern_u8 i cl c : memset_pattern i cl c = memset_pattern i cl (u8 c).
Proof.
  revert cl. induction i as [|i IH]; intros cl; simpl; [done|].
  rewrite IH, !land_ff, wrap_wrap. done.
Qed.

(** A boolean check of all bytes gives a universal statement over bytes. *)
Lemma forall_bytes (P : Z -> Prop) `{!forall b, Decision (P b)} b :
  forallb (fun b => bool_decide (P b)) (Z.of_nat <$> seq 0 256) = true -> is_byte b -> P b.
Proof.
  intros Hall Hb. rewrite forallb_forall in Hall.
  apply (bool_decide_eq_true_1 (P b)), Hall, list_elem_of_In.
  apply list_elem_of_fmap. exists (Z.to_nat b). unfold is_byte in Hb.
  split; [lia|]. apply elem_of_seq. lia.
Qed.

Lemma memset_pattern_bytes c : le_bytes 8 (memset_pattern 8 0 c) = replicate 8 (u8 c).
Proof.
  rewrite memset_pattern_u8. generalize (is_byte_u8 c). generalize (u8 c). intros b Hb.
  revert b Hb. refine (fun b => forall_bytes (fun b => le_bytes 8 (memset_pattern 8 0 b) = replicate 8 b) b _).
  by vm_compute.
Qed.

Lemma zlen_replicate {A} n (x : A) : zlen (replicate n x) = Z.of_nat n.
Proof. unfold zlen. rewrite length_replicate. done. Qed.

Lemma set_bytes_ok n m s c :
  allocated m s (Z.of_nat n) -> set_bytes n m s c = Some (write m s (replicate n (u8 c))).
Proof.
  revert m s. induction n as [|n IH]; intros m s Ha; simpl; [done|].
  rewrite store_ok by (eapply allocated_at, Ha; lia). simpl.
  apply IH. apply (allocated_write m s [u8 c]). eapply allocated_sub, Ha; lia.
Qed.

Lemma set_words_ok n m s c :
  allocated m s (8 * Z.of_nat n) ->
  set_words n m s (memset_pattern 8 0 c) = Some (write m s (replicate (8 * n) (u8 c))).
Proof.
  revert m s. induction n as [|n IH]; intros m s Ha; [done|].
  cbn [set_words]. rewrite memset_pattern_bytes.
  rewrite store_range_ok.
  2: rewrite zlen_replicate; eapply allocated_sub, Ha; lia.
  2: apply Forall_replicate, is_byte_u8.
  cbn [mbind option_bind]. unfold WORD. rewrite IH.
  2: apply allocated_write; eapply allocated_sub, Ha; lia.
  replace (8 * S n)%nat with (8 + 8 * n)%nat by lia.
  rewrite replicate_add, write_app, zlen_replicate. done.
Qed.

Lemma memset_ok m s c count :
  0 <= count -> allocated m s count ->
  memset m s c count = Some (write m s (replicate (Z.to_nat count) (u8 c))).
Proof.
  intros Hc Ha. unfold memset. destruct (Z.land s (WORD - 1) =? 0).
  - set (q := count / WORD). assert (0 <= WORD * q <= count) as Hq by (unfold q, WORD; dlia).
    unfold WORD in *. rewrite set_words_ok by (eapply allocated_sub, Ha; lia).
    cbn [mbind option_bind].
    rewrite set_bytes_ok by (apply allocated_write; eapply allocated_sub, Ha; lia).
    replace (Z.to_nat count) with (8 * Z.to_nat q + Z.to_nat (count - 8 * q))%nat by lia.
    rewrite replicate_add, write_app, zlen_replicate. do 2 f_equal. lia.
  - rewrite set_bytes_ok by (eapply allocated_sub, Ha; lia). done.
Qed.

(** [memset], which stores aligned 64-bit words made of eight copies of the
    byte and then single bytes, sets exactly [count] bytes to the low byte of its
    argument. *)
Theorem memset_spec m s c count :
  0 <= count -> allocated m s count ->
  memset m s c count = Some (write m s (replicate (Z.to_nat count) (u8 c))).
Proof. apply memset_ok. Qed.

(** ** Comparisons *)
Lemma s8_sub_zero a b : is_byte a -> is_byte b -> s8 (a - b) = 0 <-> a = b.
Proof.
  unfold is_byte, sext, wrap. intros. change (2 ^ (8 - 1)) with 128. change (2 ^ 8) with 256.
  destruct (Z.ltb_spec ((a - b) mod 256) 128); split; intros; dlia.
Qed.

Lemma strcmp_loop_ok f m p q s t :
  mem_bytes m -> (length s < f)%nat -> cstr m p s -> cstr m q t ->
  exists r, strcmp_loop f m p q = Some r /\ (r = 0 <-> s = t).
Proof.
  intros Hm. revert f p q t. induction s as [|c s IH]; intros f p q t Hf Hs Ht;
    (destruct f; [simpl in *; lia|]); cbn [strcmp_loop].
  - apply cstr_nil in Hs. destruct t as [|d t].
    + apply cstr_nil in Ht. rewrite Hs, Ht. exists 0. done.
    + apply cstr_cons in Ht as (Hd & Hne & _). rewrite Hs, Hd.
      pose proof (s8_sub_zero 0 d (Hm _ _ Hs) (Hm _ _ Hd)) as Hz.
      eexists. split; [cbn; rewrite orb_true_r; done|]. rewrite Hz. split; [congruence|done].
  - apply cstr_cons in Hs as (Hc & Hne & Hs'). rewrite Hc. simpl in Hf.
    assert (exists d, m !! q = Some d /\ (s8 (c - d) = 0 <-> c = d) /\
      (c = d -> exists t', t = d :: t' /\ cstr m (q + 1) t') /\
      (c <> d -> c :: s <> t)) as (d & Hd & Hz & Heq & Hn).
    { destruct t as [|d t].
      - apply cstr_nil in Ht. exists 0. repeat split; try done; by apply s8_sub_zero; eauto.
      - apply cstr_cons in Ht as (Hd & ? & Ht). exists d.
        repeat split; eauto; try (by apply s8_sub_zero; eauto). congruence. }
    rewrite Hd. cbn. destruct (Z.eqb_spec c 0); [done|].
    destruct (Z.eqb_spec (s8 (c - d)) 0) as [E|E]; cbn.
    + destruct (Heq (proj1 Hz E)) as (t' & -> & Ht'). destruct (IH f (p + 1) (q + 1) t') as (r & Hr & Hrz);
        [lia|done|done|]. exists r. split; [done|]. rewrite Hrz. rewrite (proj1 Hz E).
      split; congruence.
    + eexists. split; [done|]. split; [done|]. intros Hst. exfalso. apply (Hn ltac:(tauto) Hst).
Qed.

(** [strcmp] terminates on two C strings, without reading past either, and
    returns zero exactly when they are equal. *)
Theorem strcmp_equal_iff m p q s t :
  mem_bytes m -> cstr m p s -> cstr m q t ->
  exists r, strcmp m p q = Some r /\ (r = 0 <-> s = t).
Proof. intros. apply strcmp_loop_ok; eauto using cstr_fuel. Qed.

(** ** [strlcpy] *)
Lemma cstr_of_arr m p s : arr m p (s ++ [0]) -> Forall (fun c => c <> 0) s -> cstr m p s.
Proof. done. Qed.

(** [strlcpy] into a buffer of [sz > 0] bytes, disjoint from the source
    string, returns the length of the source and leaves a NUL-terminated string
    that fits in the buffer: the first [sz - 1] characters of the source.  No
    byte outside the buffer changes. *)
Theorem strlcpy_spec m dest src s sz :
  mem_bytes m -> cstr m src s -> 0 < sz -> allocated m dest sz ->
  dest + sz <= src \/ src + zlen s + 1 <= dest ->
  exists m', strlcpy m dest src sz = Some (zlen s, m') /\
    cstr m' dest (take (Z.to_nat (sz - 1)) s) /\
    forall q, ~ (dest <= q < dest + sz) -> m' !! q = m !! q.
Proof.
  intros Hm Hs Hsz Hal Hov. unfold strlcpy. rewrite (strlen_ok _ _ _ Hs). simpl.
  destruct (Z.eqb_spec sz 0); [lia|]. pose proof (zlen_nonneg s).
  set (len := if sz <=? zlen s then sz - 1 else zlen s).
  assert (0 <= len <= sz - 1 /\ len <= zlen s /\
    take (Z.to_nat len) s = take (Z.to_nat (sz - 1)) s) as (Hl & Hl' & Htake).
  { unfold len. destruct (Z.leb_spec sz (zlen s)); repeat split; try lia.
    rewrite !take_ge; [done|unfold zlen in *; lia..]. }
  rewrite <- Htake. clear Htake. clearbody len.
  destruct (zsplit s len) as (s1 & s2 & E & H1 & H2); [lia|].
  assert (take (Z.to_nat len) s = s1) as -> by (rewrite E; apply take_app_length'; unfold zlen in *; lia).
  destruct Hs as [Harr Hnz]. pose proof (arr_mem_bytes _ _ _ Hm Harr) as Hby.
  rewrite E, <- app_assoc in Harr, Hby. apply Forall_app in Hby as [Hby _].
  rewrite E in Hnz. apply Forall_app in Hnz as [Hnz _]. apply arr_app in Harr as [Harr _].
  subst len. rewrite memcpy_ok; [|done|done| |lia].
  2: eapply allocated_sub, Hal; lia.
  simpl. rewrite store_ok; [|apply allocated_at with dest sz; [lia|by apply allocated_write]].
  cbn [mbind option_bind]. change (u8 0) with 0. rewrite <- write_app. eexists. split; [done|]. split.
  - split; [apply arr_write|done].
  - intros q Hq. apply write_lookup_out. simpl_zlen. lia.
Qed.

(** ** [memchr_inv] *)
(** The reference: the address of the first byte of [l] (at [start]) other than
    [value], or NULL. *)
Definition first_other (value start : Z) (l : list Z) : Z :=
  match list_find (fun x => x <> value) l with
  | Some (i, _) => start + Z.of_nat i
  | None => 0
  end.

Lemma first_other_cons value start x l :
  first_other value start (x :: l) =
    if x =? value then first_other value (start + 1) l else start.
Proof.
  unfold first_other. cbn [list_find].
  destruct (decide (x <> value)), (Z.eqb_spec x value); try tauto; [lia|].
  destruct (list_find _ l) as [[i y]|]; cbn; lia.
Qed.

Lemma first_other_app value start l k :
  0 < start -> first_other value start (l ++ k) =
    if decide (first_other value start l = 0) then first_other value (start + zlen l) k
    else first_other value start l.
Proof.
  revert start. induction l as [|x l IH]; intros start Hst; cbn [app].
  - rewrite decide_True by done. f_equal. simpl_zlen. lia.
  - rewrite !first_other_cons. destruct (x =? value).
    + rewrite IH by lia. simpl_zlen. by replace (start + 1 + zlen l) with (start + (1 + zlen l)) by lia.
    + rewrite decide_False by lia. done.
Qed.

Lemma first_other_0 value start l :
  0 < start -> first_other value start l = 0 <-> l = replicate (length l) value.
Proof.
  revert start. induction l as [|x l IH]; intros start Hst; simpl; [done|].
  rewrite first_other_cons. destruct (Z.eqb_spec x value) as [->|].
  - rewrite (IH (start + 1)) by lia. split; intros E; [by rewrite E at 1|by injection E].
  - split; [lia|congruence].
Qed.

Lemma check_bytes8_loop_ok m start value l :
  arr m start l -> check_bytes8_loop (length l) m start value = Some (first_other value start l).
Proof.
  revert start. induction l as [|x l IH]; intros start Ha; simpl; [done|].
  apply arr_cons in Ha as [Hx Ha]. rewrite Hx, first_other_cons. simpl.
  destruct (x =? value); simpl; [by apply IH|done].
Qed.

Lemma check_bytes8_ok m start value l :
  zlen l < 2 ^ 32 -> arr m start l ->
  check_bytes8 m start value (zlen l) = Some (first_other value start l).
Proof.
  intros Hl Ha. unfold check_bytes8. pose proof (zlen_nonneg l).
  rewrite wrap_small by lia. unfold zlen. rewrite Nat2Z.id. by apply check_bytes8_loop_ok.
Qed.

Lemma le_bytes_value bs : Forall is_byte bs -> le_bytes (length bs) (le_value bs) = bs.
Proof.
  induction 1 as [|b bs Hb Hbs IH]; simpl; [done|]. unfold is_byte in Hb.
  f_equal; [dlia|].
  by replace ((b + 256 * le_value bs) / 256) with (le_value bs) by dlia.
Qed.

Definition word_pattern (value : Z) : Z :=
  let v := value in
  let v := Z.lor v (u64 (Z.shiftl v 8)) in
  let v := Z.lor v (u64 (Z.shiftl v 16)) in
  Z.lor v (u64 (Z.shiftl v 32)).

Lemma word_pattern_ok b : is_byte b -> word_pattern b = le_value (replicate 8 b).
Proof.
  apply (forall_bytes (fun b => word_pattern b = le_value (replicate 8 b))). by vm_compute.
Qed.

Lemma memchr_inv_words_at n m start value l k :
  mem_bytes m -> is_byte value -> 0 < start -> length l = (8 * n)%nat -> zlen k < 8 ->
  arr m start (l ++ k) ->
  memchr_inv_words n m start value (word_pattern value) (zlen k) =
    Some (first_other value start (l ++ k)).
Proof.
  intros Hm Hv. revert start l. induction n as [|n IH]; intros start l Hst Hl Hk Ha.
  - destruct l; [|done]. cbn [memchr_inv_words]. simpl app in *. apply check_bytes8_ok; [lia|done].
  - apply take_drop_8 in Hl as (w & l' & -> & Hw & Hl').
    rewrite <- app_assoc in *. pose proof Ha as [Haw Har]%arr_app.
    assert (zlen w = 8) as Hw8 by (unfold zlen; lia).
    pose proof (arr_mem_bytes _ _ _ Hm Haw) as Hwb.
    cbn [memchr_inv_words]. rewrite <- Hw at 1. rewrite (load_range_arr _ _ _ Haw).
    cbn [mbind option_bind]. rewrite word_pattern_ok by done.
    rewrite first_other_app by done.
    assert (le_value w = le_value (replicate 8 value) <-> first_other value start w = 0) as Hiff.
    { rewrite first_other_0 by done. rewrite Hw. split; [|by intros ->].
      intros E. rewrite <- (le_bytes_value w), E, Hw by done.
      by rewrite <- (le_bytes_value (replicate 8 value)) at 2 by by apply Forall_replicate. }
    destruct (Z.eqb_spec (le_value w) (le_value (replicate 8 value))) as [E|E]; cbn [negb].
    + rewrite decide_True by tauto. rewrite <- word_pattern_ok by done. rewrite Hw8 in *.
      apply IH; (done || lia).
    + rewrite decide_False by tauto. rewrite <- Hw8. apply check_bytes8_ok; [lia|done].
Qed.

Lemma memchr_inv_words_ok m start value l :
  mem_bytes m -> is_byte value -> 0 < start -> arr m start l -> zlen l < 2 ^ 32 ->
  memchr_inv_words (Z.to_nat (u32 (zlen l / 8))) m start value (word_pattern value) (zlen l mod 8)
  = Some (first_other value start l).
Proof.
  intros Hm Hv Hst Ha Hl. pose proof (zlen_nonneg l).
  destruct (zsplit l (8 * (zlen l / 8))) as (l1 & l2 & E & H1 & H2); [dlia|].
  replace (zlen l mod 8) with (zlen l2) by dlia.
  rewrite wrap_small by dlia. rewrite E in Ha |- * at 2.
  apply memchr_inv_words_at; [done|done|done| |dlia|done]. unfold zlen in *. lia.
Qed.

(** [memchr_inv], which compares 64-bit words against a replicated byte
    between an unaligned prefix and a tail, returns the address of the first byte
    that differs from the byte searched for, or NULL when there is none, for any
    block of less than 4 GiB. *)
Theorem memchr_inv_spec m start c l :
  mem_bytes m -> 0 < start -> arr m start l -> zlen l < 2 ^ 32 ->
  memchr_inv m start c (zlen l) = Some (first_other (u8 c) start l).
Proof.
  intros Hm Hst Ha Hl. unfold memchr_inv. fold (word_pattern (u8 c)). pose proof (zlen_nonneg l).
  destruct (Z.leb_spec (zlen l) 16); [by apply check_bytes8_ok|].
  destruct (Z.eqb_spec (start mod 8) 0); cbn [negb]; [by apply memchr_inv_words_ok; auto using is_byte_u8|].
  set (pre := 8 - start mod 8). assert (0 < pre < 8) by (unfold pre; dlia).
  destruct (zsplit l pre) as (l1 & l2 & -> & Hl1 & Hl2); [lia|].
  pose proof Ha as [Ha1 Ha2]%arr_app. rewrite <- Hl1. rewrite check_bytes8_ok by (done || lia).
  cbn [mbind option_bind]. rewrite first_other_app by done.
  destruct (Z.eqb_spec (first_other (u8 c) start l1) 0) as [E|E]; cbn [negb].
  - rewrite decide_True by done. simpl_zlen. replace (zlen l1 + zlen l2 - zlen l1) with (zlen l2) by lia.
    apply memchr_inv_words_ok; auto using is_byte_u8; (done || lia).
  - rewrite decide_False by done. done.
Qed.

(** ** [strstr] *)
Lemma memcmp_loop_ok m p q l k :
  arr m p l -> arr m q k -> length l = length k ->
  exists r, memcmp_loop (length l) m p q 0 = Some r /\ (r = 0 <-> l = k).
Proof.
  revert p q k. induction l as [|a l IH]; intros p q [|b k] Hl Hk Hlen; simplify_eq/=.
  - by exists 0.
  - apply arr_cons in Hl as [Ha Hl]. apply arr_cons in Hk as [Hb Hk]. rewrite Ha, Hb. simpl.
    destruct (Z.eqb_spec (a - b) 0) as [E|E]; simpl.
    + destruct (IH (p + 1) (q + 1) k) as (r & Hr & Hz); [done..|]. rewrite E.
      exists r. split; [done|]. rewrite Hz. replace b with a by lia. split; congruence.
    + exists (a - b). split; [done|]. split; [done|]. intros [=]. lia.
Qed.

(** What [strstr] promises: the first place where [t] occurs in [s], or NULL. *)
Definition strstr_result (p : Z) (s t : list Z) (r : Z) : Prop :=
  (r = 0 /\ forall i, ~ t `prefix_of` drop i s) \/
  (exists i, r = p + Z.of_nat i /\ t `prefix_of` drop i s /\
     forall j, (j < i)%nat -> ~ t `prefix_of` drop j s).

Lemma prefix_take (t s : list Z) : t `prefix_of` s <-> (length t <= length s)%nat /\ take (length t) s = t.
Proof.
  split.
  - intros [k ->]. rewrite length_app, take_app_length. split; [lia|done].
  - intros [_ E]. exists (drop (length t) s). rewrite <- E at 1. by rewrite take_drop.
Qed.

Lemma strstr_loop_ok m p q s t :
  arr m p s -> arr m q t -> t <> [] ->
  exists r, strstr_loop (S (length s) - length t) m p q (zlen t) = Some r /\ strstr_result p s t r.
Proof.
  intros Hs Ht Hne. revert p Hs. induction s as [|c s IH]; intros p Hs.
  - assert (S (length (@nil Z)) - length t = 0)%nat as -> by (destruct t; [done|simpl; lia]).
    exists 0. split; [done|]. left. split; [done|]. intros i. rewrite drop_nil.
    intros ->%prefix_nil_inv. done.
  - destruct (decide (length t <= length (c :: s))%nat) as [Hle|Hgt].
    + replace (S (length (c :: s)) - length t)%nat with (S (S (length s) - length t)) by (simpl in *; lia).
      cbn [strstr_loop]. unfold memcmp, zlen. rewrite Nat2Z.id.
      assert (arr m p (take (length t) (c :: s))) as Htk.
      { rewrite <- (take_drop (length t) (c :: s)) in Hs. by apply arr_app in Hs as [? _]. }
      destruct (memcmp_loop_ok m p q _ t Htk Ht) as (r & Hr & Hz).
      { rewrite length_take. lia. }
      rewrite length_take, Nat.min_l in Hr by lia. rewrite Hr. cbn [mbind option_bind].
      destruct (Z.eqb_spec r 0) as [->|Hr0].
      * exists p. split; [done|]. right. exists 0%nat. rewrite drop_0, prefix_take.
        split; [lia|]. split; [tauto|]. lia.
      * apply arr_cons in Hs as [_ Hs']. destruct (IH (p + 1) Hs') as (r' & Hr' & Hres).
        exists r'. split; [done|].
        assert (~ t `prefix_of` c :: s) as Hno by (rewrite prefix_take; tauto).
        destruct Hres as [[-> Hall]|(i & -> & Hi & Hmin)].
        -- left. split; [done|]. intros [|i]; [done|apply Hall].
        -- right. exists (S i). split; [lia|]. split; [done|].
           intros [|j] Hj; [done|]. apply Hmin. lia.
    + replace (S (length (c :: s)) - length t)%nat with 0%nat by (simpl in *; lia).
      exists 0. split; [done|]. left. split; [done|]. intros i Hp%prefix_length.
      rewrite length_drop in Hp. lia.
Qed.

(** [strstr] terminates without a stray read and returns the address of the
    first occurrence of the second string in the first one, or NULL when there is
    none. *)
Theorem strstr_spec m p q s t :
  cstr m p s -> cstr m q t ->
  exists r, strstr m p q = Some r /\ strstr_result p s t r.
Proof.
  intros Hs Ht. unfold strstr. rewrite (strlen_ok _ _ _ Ht). cbn [mbind option_bind].
  destruct (Z.eqb_spec (zlen t) 0) as [E|E].
  - exists p. split; [done|]. right. exists 0%nat. destruct t; [|done].
    split; [lia|]. split; [apply prefix_nil|lia].
  - rewrite (strlen_ok _ _ _ Hs). cbn [mbind option_bind].
    replace (Z.to_nat (zlen s - zlen t + 1)) with (S (length s) - length t)%nat by (unfold zlen; lia).
    apply strstr_loop_ok; eauto using cstr_arr. by intros ->.
Qed.

(** ** [strsep] *)
Lemma scan_set_ok f m c a delims :
  (length delims < f)%nat -> cstr m a delims ->
  scan_set f m c a = Some (bool_decide (c ∈ delims)).
Proof.
  revert f a. induction delims as [|d ds IH]; intros f a Hf Ha; (destruct f; [simpl in *; lia|]);
    cbn [scan_set].
  - apply cstr_nil in Ha. rewrite Ha. done.
  - apply cstr_cons in Ha as (Hd & Hne & Ha). rewrite Hd. cbn [mbind option_bind].
    destruct (Z.eqb_spec d 0); [done|]. destruct (Z.eqb_spec c d) as [->|].
    + rewrite bool_decide_eq_true_2; [done|by left].
    + rewrite (IH f (a + 1)); [|simpl in *; lia|done]. f_equal. apply bool_decide_ext.
      rewrite elem_of_cons. tauto.
Qed.

(** The first character of [s] that is in [delims]: what is before it and after it. *)
Fixpoint break_at (delims s : list Z) : option (list Z * Z * list Z) :=
  match s with
  | [] => None
  | c :: s =>
      if bool_decide (c ∈ delims) then Some ([], c, s)
      else '(a, d, b) ← break_at delims s; Some (c :: a, d, b)
  end.

Lemma break_at_spec delims s :
  match break_at delims s with
  | Some (a, d, b) => s = a ++ d :: b /\ d ∈ delims /\ Forall (fun c => c ∉ delims) a
  | None => Forall (fun c => c ∉ delims) s
  end.
Proof.
  induction s as [|c s IH]; simpl; [constructor|]. case_bool_decide; [done|].
  destruct (break_at delims s) as [[[a d] b]|]; simpl in *.
  - destruct IH as (-> & ? & ?). auto.
  - by constructor.
Qed.

Lemma strpbrk_loop_ok f m p ct delims s :
  (length s < f)%nat -> cstr m ct delims -> cstr m p s ->
  strpbrk_loop f m p ct = Some match break_at delims s with
                               | Some (a, _, _) => p + zlen a | None => 0 end.
Proof.
  intros Hf Hct. revert f p Hf. induction s as [|c s IH]; intros f p Hf Hs;
    (destruct f; [simpl in *; lia|]); cbn [strpbrk_loop break_at].
  - apply cstr_nil in Hs. by rewrite Hs.
  - apply cstr_cons in Hs as (Hc & Hne & Hs). rewrite Hc. cbn [mbind option_bind].
    destruct (Z.eqb_spec c 0); [done|].
    rewrite (scan_set_ok _ _ _ _ delims) by eauto using cstr_fuel. cbn [mbind option_bind].
    case_bool_decide; [f_equal; simpl_zlen; lia|]. rewrite IH by (simpl in *; lia || done).
    destruct (break_at delims s) as [[[a d] b]|]; cbn; [|done]. f_equal. simpl_zlen. lia.
Qed.

(** [strsep] cuts a string at its first delimiter: the token is the part
    before it (now NUL-terminated in place) and the pointer moves to the part
    after it; without a delimiter the token is the whole string, the pointer
    becomes NULL and memory is unchanged. *)
Theorem strsep_spec m p ct s delims :
  0 < p -> cstr m p s -> cstr m ct delims ->
  match break_at delims s with
  | Some (a, _, b) =>
      exists m', strsep m p ct = Some (p, p + zlen a + 1, m') /\
        cstr m' p a /\ cstr m' (p + zlen a + 1) b /\
        forall q, q <> p + zlen a -> m' !! q = m !! q
  | None => strsep m p ct = Some (p, 0, m)
  end.
Proof.
  intros Hp Hs Hct. unfold strsep. destruct (Z.eqb_spec p 0); [lia|].
  unfold strpbrk. rewrite (strpbrk_loop_ok _ _ _ _ delims s) by eauto using cstr_fuel.
  pose proof (break_at_spec delims s) as Hb.
  destruct (break_at delims s) as [[[a d] b]|]; cbn [mbind option_bind]; [|done].
  pose proof (zlen_nonneg a). destruct (Z.eqb_spec (p + zlen a) 0); [lia|].
  destruct Hb as (-> & _ & _). destruct Hs as [Harr Hnz].
  rewrite <- app_assoc in Harr. apply arr_app in Harr as [Ha Harr]. cbn [app] in Harr.
  apply arr_cons in Harr as [Hd Hb]. apply Forall_app in Hnz as [Hnza Hnzb].
  apply Forall_cons in Hnzb as [_ Hnzb].
  rewrite store_ok by eauto. cbn [mbind option_bind]. eexists. split; [done|]. split; [|split].
  - split; [|done]. apply arr_app. split; [apply (arr_write_frame m _ [0]); [simpl_zlen; lia|done]|].
    apply arr_write.
  - split; [|done]. apply (arr_write_frame m _ [0]); [simpl_zlen; lia|done].
  - intros q Hq. apply (write_lookup_out m _ [0]). simpl_zlen. lia.
Qed.

(** ** Witnesses

    One small memory serves them all: a 16-byte destination at 16, the bytes 1..9
    at 32, the strings abcab at 64 and ab at 80. *)
Definition demo : mem :=
  write (write (write (write ∅ 16 (replicate 16 0)) 32 [1; 2; 3; 4; 5; 6; 7; 8; 9])
    64 [97; 98; 99; 97; 98; 0]) 80 [97; 98; 0].

Lemma memcpy_spec_witness :
  memcpy demo 16 32 9 = Some (write demo 16 [1; 2; 3; 4; 5; 6; 7; 8; 9]).
Proof. apply (memcpy_spec demo 16 32 [1; 2; 3; 4; 5; 6; 7; 8; 9]); [by_eval..|lia]. Defined.

Lemma memmove_spec_witness :
  memmove demo 34 32 7 = Some (write demo 34 [1; 2; 3; 4; 5; 6; 7]).
Proof. apply (memmove_spec demo 34 32 [1; 2; 3; 4; 5; 6; 7]); by_eval. Defined.

Lemma memset_spec_witness :
  memset demo 16 0x1ab 11 = Some (write demo 16 (replicate 11 0xab)).
Proof. apply (memset_spec demo 16 0x1ab 11); by_eval. Defined.

Lemma strcmp_equal_iff_witness :
  exists r, strcmp demo 64 80 = Some r /\ (r = 0 <-> [97; 98; 99; 97; 98] = [97; 98]).
Proof. apply (strcmp_equal_iff demo 64 80); by_eval. Defined.

Lemma strlcpy_spec_witness :
  exists m', strlcpy demo 16 64 4 = Some (5, m') /\ cstr m' 16 [97; 98; 99] /\
    forall q, ~ (16 <= q < 16 + 4) -> m' !! q = demo !! q.
Proof. apply (strlcpy_spec demo 16 64 [97; 98; 99; 97; 98] 4); [by_eval..|lia|by_eval|]. vm_compute. left. congruence. Defined.

Lemma memchr_inv_spec_witness : memchr_inv demo 16 0x100 16 = Some 0.
Proof. apply (memchr_inv_spec demo 16 0x100 (replicate 16 0)); by_eval. Defined.

Lemma strstr_spec_witness :
  exists r, strstr demo 65 80 = Some r /\ strstr_result 65 [98; 99; 97; 98] [97; 98] r.
Proof. apply (strstr_spec demo 65 80); by_eval. Defined.

Lemma strsep_spec_witness :
  exists m', strsep demo 65 80 = Some (65, 66, m') /\ cstr m' 65 [] /\
    cstr m' 66 [99; 97; 98] /\ forall q, q <> 65 -> m' !! q = demo !! q.
Proof. apply (strsep_spec demo 65 80 [98; 99; 97; 98] [97; 98]); by_eval. Defined.

(** The sign of [strcmp] is not the order of the strings: the difference of
    the characters is cut to a signed 8-bit value, so a string whose first
    character is 0x80 compares as smaller than the empty string although every
    character is larger than NUL. *)
Theorem strcmp_sign_not_order :
  exists m p q s t,
    mem_bytes m /\ cstr m p s /\ cstr m q t /\ t `prefix_of` s /\ t <> s /\
    strcmp m p q = Some (-128).
Proof.
  exists (write (write ∅ 16 [0x80; 0]) 32 [0]), 16, 32, [0x80], [].
  refine (conj _ (conj _ (conj _ (conj (prefix_nil _) (conj _ _))))); [by_eval..|done|by_eval].
Qed.
