(* ===== verification/MemBuff.v ===== *)
(** * The circular byte buffer of lib/membuff.c

    The four pointers of [struct membuff] are addresses in the memory of [CMem];
    the characters are in that memory.  [putraw]/[getraw] are modelled with their
    control data only (they move no bytes); the callers that copy do it with the
    [memcpy]/[memmove] of [CString].  The functions that return an [int] through
    pointers return tuples here. *)

From Stdlib Require Import ZArith Lia.
From stdpp Require Import base option list gmap numbers.
From S2P Require Import Prelude CMem CString CStringProps.
Open Scope Z_scope.

Module MemBuff.

Record membuff := Membuff { start : Z; end_ : Z; head : Z; tail : Z }.

Definition set_head (mb : membuff) (h : Z) : membuff := Membuff (start mb) (end_ mb) h (tail mb).
Definition set_tail (mb : membuff) (t : Z) : membuff := Membuff (start mb) (end_ mb) (head mb) t.

Definition E2BIG := 7.
Definition ENOMEM := 12.
Definition INT_MAX := 2147483647.

Definition membuff_purge (mb : membuff) : membuff :=
  Membuff (start mb) (end_ mb) (start mb) (start mb).

(** Returns the length, [*offsetp] and the buffer; [*data] is [&mb->start]. *)
Definition membuff_putrawflex (mb : membuff) (maxlen : Z) (update : bool) : Z * Z * membuff :=
  let offset := head mb - start mb in
  if start mb =? 0 then (0, offset, mb)
  else if tail mb <=? head mb then
    let len := end_ mb - head mb - 1 in
    let len := if (0 <=? maxlen) && (maxlen <? len) then maxlen else len in
    let mb := if update then set_head mb (head mb + len) else mb in
    if ((maxlen <? 0) || (len <? maxlen)) && negb (tail mb =? start mb) then
      (len + 1, offset, if update then set_head mb (start mb) else mb)
    else (len, offset, mb)
  else
    let len := tail mb - head mb - 1 in
    let len := if (0 <=? maxlen) && (maxlen <? len) then maxlen else len in
    (len, offset, if update then set_head mb (head mb + len) else mb).

(** Returns the size, [*data] and the buffer. *)
Definition membuff_putraw (mb : membuff) (maxlen : Z) (update : bool) : Z * Z * membuff :=
  let '(size, offset, mb') := membuff_putrawflex mb maxlen update in
  (size, start mb' + offset, mb').

Definition membuff_putbyte (m : mem) (mb : membuff) (ch : Z) : option (bool * mem * membuff) :=
  let '(size, data, mb') := membuff_putraw mb 1 true in
  if negb (size =? 1) then Some (false, m, mb')
  else m' ← store m data ch; Some (true, m', mb').

(** [data] is the value of [*data] before the call, kept when there is no data. *)
Definition membuff_getraw (mb : membuff) (maxlen : Z) (update : bool) (data : Z)
    : Z * Z * membuff :=
  if tail mb <? head mb then
    let len := head mb - tail mb in
    let len := if (0 <=? maxlen) && (maxlen <? len) then maxlen else len in
    (len, tail mb, if update then set_tail mb (tail mb + len) else mb)
  else if head mb <? tail mb then
    let len := end_ mb - tail mb in
    let len := if (0 <=? maxlen) && (maxlen <? len) then maxlen else len in
    (len, tail mb,
     if update then
       let mb := set_tail mb (tail mb + len) in
       if tail mb =? end_ mb then set_tail mb (start mb) else mb
     else mb)
  else (0, data, mb).

Definition membuff_getbyte (m : mem) (mb : membuff) : option (Z * membuff) :=
  let '(len, data, mb') := membuff_getraw mb 1 true 0 in
  if negb (len =? 1) then Some (-1, mb') else c ← m !! data; Some (c, mb').

Definition membuff_peekbyte (m : mem) (mb : membuff) : option Z :=
  let '(len, data, _) := membuff_getraw mb 1 false 0 in
  if negb (len =? 1) then Some (-1) else m !! data.

(** The loop of [membuff_get]: at most [rounds] rounds while [len] is not zero. *)
Fixpoint membuff_get_loop (rounds : nat) (m : mem) (mb : membuff) (buffptr maxlen len data : Z)
    : option (Z * mem * membuff) :=
  match rounds with
  | O => Some (buffptr, m, mb)
  | S rounds =>
      if len =? 0 then Some (buffptr, m, mb)
      else
        let '(len, data, mb) := membuff_getraw mb maxlen true data in
        m ← memcpy m buffptr data len;
        membuff_get_loop rounds m mb (buffptr + len) (maxlen - len) len data
  end.
Definition membuff_get (m : mem) (mb : membuff) (buff maxlen : Z) : option (Z * mem * membuff) :=
  '(buffptr, m, mb) ← membuff_get_loop 2 m mb buff maxlen 1 0; Some (buffptr - buff, m, mb).

Fixpoint membuff_put_loop (rounds : nat) (m : mem) (mb : membuff) (buff length written : Z)
    : option (Z * mem * membuff) :=
  match rounds with
  | O => Some (written, m, mb)
  | S rounds =>
      let '(towrite, data, mb) := membuff_putraw mb length true in
      m ← memcpy m data buff towrite;
      membuff_put_loop rounds m mb (buff + towrite) (length - towrite) (written + towrite)
  end.
Definition membuff_put (m : mem) (mb : membuff) (buff length : Z) : option (Z * mem * membuff) :=
  membuff_put_loop 2 m mb buff length 0.

Definition membuff_isempty (mb : membuff) : bool := head mb =? tail mb.

Fixpoint membuff_avail_loop (rounds : nat) (copy : membuff) (avail data : Z) : Z :=
  match rounds with
  | O => avail
  | S rounds =>
      let '(len, data, copy) := membuff_getraw copy (-1) true data in
      membuff_avail_loop rounds copy (avail + len) data
  end.
Definition membuff_avail (mb : membuff) : Z := membuff_avail_loop 2 mb 0 0.

Definition membuff_size (mb : membuff) : Z := end_ mb - start mb.

Definition membuff_makecontig (m : mem) (mb : membuff) : option (bool * mem * membuff) :=
  let finish m topsize botsize :=
    m ← memcpy m (start mb) (tail mb) topsize;
    Some (true, m, Membuff (start mb) (end_ mb) (start mb + topsize + botsize) (start mb)) in
  if head mb <? tail mb then
    let topsize := end_ mb - tail mb in
    let botsize := head mb - start mb in
    if tail mb <=? head mb + topsize then Some (false, m, mb)
    else m ← memmove m (start mb + topsize) (start mb) botsize; finish m topsize botsize
  else finish m (head mb - tail mb) 0.

Definition membuff_free (mb : membuff) : Z :=
  if end_ mb =? start mb then 0 else (end_ mb - start mb) - 1 - membuff_avail mb.

(** The loop of [membuff_readline]; [k] counts the rounds [len < maxlen - 1] still
    allows.  Returns [ok], the memory, [s], [str] and [len] at the loop's exit. *)
Fixpoint membuff_readline_loop (k : nat) (m : mem) (mb : membuff) (s e str len minch : Z)
    : option (bool * mem * Z * Z * Z) :=
  match k with
  | O => Some (false, m, s, str, len)
  | S k =>
      if s <? e then
        c ← m !! s; m ← store m str c;
        let s := s + 1 in
        let len := len + 1 in
        if (c =? 10) || (c <? minch) then Some (true, m, s, str, len)
        else
          let '(s, e) := if (s =? e) && (head mb <? tail mb) then (start mb, head mb) else (s, e) in
          membuff_readline_loop k m mb s e (str + 1) len minch
      else Some (false, m, s, str, len)
  end.
Definition membuff_readline (m : mem) (mb : membuff) (str maxlen minch : Z)
    : option (Z * mem * membuff) :=
  let e := if tail mb <=? head mb then head mb else end_ mb in
  '(ok, m, s, str', len) ←
    membuff_readline_loop (Z.to_nat (maxlen - 1)) m mb (tail mb) e str 0 minch;
  if negb ok then
    if negb (maxlen =? 0) then m ← store m str 0; Some (0, m, mb) else Some (0, m, mb)
  else
    m ← store m str' 0;
    Some (len, m, set_tail mb (if s =? end_ mb then start mb else s)).

(** The doubling loop of [membuff_extend_by]; [None] when it does not end within
    the fuel or the [int] overflows. *)
Fixpoint extend_grow (f : nat) (size target : Z) : option Z :=
  match f with
  | O => None
  | S f =>
      if size <? target then
        if size * 2 <=? INT_MAX then extend_grow f (size * 2) target else None
      else Some size
  end.

(** [realloc m ptr size] returns the new block (0 for NULL) and the memory. *)
Definition membuff_extend_by (realloc : mem -> Z -> Z -> Z * mem) (m : mem) (mb : membuff)
    (by_ max : Z) : option (Z * mem * membuff) :=
  let orig := end_ mb - start mb in
  if INT_MAX <? orig + by_ then None
  else
    size ← extend_grow 32 orig (orig + by_);
    let size := if negb (max =? -1) then Z.min size max else size in
    let by_ := size - orig in
    if by_ <=? 0 then Some (- E2BIG, m, mb)
    else
      let oldhead := head mb - start mb in
      let oldtail := tail mb - start mb in
      let '(ptr, m') := realloc m (start mb) size in
      if ptr =? 0 then Some (- ENOMEM, m', mb)
      else
        let h := ptr + oldhead in
        let t := ptr + oldtail in
        if h <? t then
          m'' ← memmove m' (t + by_) t (orig - oldtail);
          Some (0, m'', Membuff ptr (ptr + size) h (t + by_))
        else Some (0, m', Membuff ptr (ptr + size) h t).

Definition membuff_init (buff size : Z) : membuff :=
  membuff_purge (Membuff buff (buff + size) 0 0).

Definition membuff_new (malloc : mem -> Z -> Z * mem) (m : mem) (mb : membuff) (size : Z)
    : Z * mem * membuff :=
  let '(p, m') := malloc m size in
  let mb := Membuff p (end_ mb) (head mb) (tail mb) in
  if p =? 0 then (- ENOMEM, m', mb) else (0, m', membuff_init p size).

Definition membuff_uninit (mb : membuff) : membuff := membuff_purge (Membuff 0 0 (head mb) (tail mb)).

End MemBuff.
