(* ===== verification/MemBuffProps.v ===== *)
(** * lib/membuff.c refines a bounded FIFO queue

    [queue m mb q] is the abstraction relation: the buffer holds the bytes [q],
    oldest first.  Each operation of [MemBuff] is specified against it, and
    [membuff_refines_fifo] puts the operations together: any sequence of calls
    answers what the same calls on an abstract queue of [size - 1] bytes answer. *)

From Stdlib Require Import ZArith Lia.
From stdpp Require Import base option list gmap numbers.
From S2P Require Import Prelude CMem CString CStringProps MemBuff.
Import MemBuff.
Open Scope Z_scope.

(** ** Well-formedness and abstraction *)
Record wf (m : mem) (mb : membuff) : Prop := {
  wf_start : 0 < start mb;
  wf_head : start mb <= head mb < end_ mb;
  wf_tail : start mb <= tail mb < end_ mb;
  wf_alloc : allocated m (start mb) (end_ mb - start mb)
}.

Definition queue (m : mem) (mb : membuff) (q : list Z) : Prop :=
  if decide (tail mb <= head mb) then arr m (tail mb) q /\ zlen q = head mb - tail mb
  else exists q1 q2, q = q1 ++ q2 /\
    arr m (tail mb) q1 /\ zlen q1 = end_ mb - tail mb /\
    arr m (start mb) q2 /\ zlen q2 = head mb - start mb.

(** The number of bytes the buffer can hold: one less than its size. *)
Definition capacity (mb : membuff) : Z := end_ mb - start mb - 1.

(** The number of bytes a limit lets through; a negative limit is no limit. *)
Definition limit (maxlen n : Z) : Z := if maxlen <? 0 then n else Z.min maxlen n.

Lemma queue_length m mb q : wf m mb -> queue m mb q -> 0 <= zlen q <= capacity mb.
Proof.
  intros [? ? ? _] Hq. unfold queue, capacity in *. case_decide; [lia|].
  destruct Hq as (q1 & q2 & -> & _ & ? & _ & ?). simpl_zlen. lia.
Qed.

(** Only the bytes between [start] and [end] matter. *)
Lemma queue_ext m m' mb q :
  wf m mb -> (forall p, start mb <= p < end_ mb -> m' !! p = m !! p) ->
  queue m mb q -> queue m' mb q.
Proof.
  intros [? ? ? _] He Hq. unfold queue in *. case_decide.
  - destruct Hq as [Ha Hl]. split; [|done]. apply (arr_ext m); [|done]. intros; apply He; lia.
  - destruct Hq as (q1 & q2 & -> & Ha & Hl & Ha2 & Hl2). exists q1, q2.
    repeat split; try done; (apply (arr_ext m); [|done]); intros; apply He; lia.
Qed.

Lemma queue_frame m mb q p l :
  wf m mb -> p + zlen l <= start mb \/ end_ mb <= p -> queue m mb q -> queue (write m p l) mb q.
Proof.
  intros Hwf Hd. apply queue_ext; [done|]. intros x Hx. apply write_lookup_out. lia.
Qed.

Lemma queue_bytes m mb q : mem_bytes m -> queue m mb q -> Forall is_byte q.
Proof.
  intros Hm Hq. unfold queue in Hq. case_decide; [destruct Hq; eauto using arr_mem_bytes|].
  destruct Hq as (q1 & q2 & -> & ? & _ & ? & _). apply Forall_app. eauto using arr_mem_bytes.
Qed.

Lemma wf_write m mb p l : wf m mb -> wf (write m p l) mb.
Proof. intros []. split; eauto using allocated_write. Qed.

(** Buffers with the same block. *)
Definition same_block (mb mb' : membuff) : Prop := start mb' = start mb /\ end_ mb' = end_ mb.

(** ** [putraw] and [getraw] *)
(** The bytes that can be written, or read, without going around. *)
Definition put_room (mb : membuff) : Z :=
  if tail mb <=? head mb then end_ mb - head mb - (if tail mb =? start mb then 1 else 0)
  else tail mb - head mb - 1.
Definition get_room (mb : membuff) : Z :=
  if tail mb <=? head mb then head mb - tail mb else end_ mb - tail mb.

(** Moving a pointer by [n] bytes within the block, around its end. *)
Definition advance (mb : membuff) (p n : Z) : Z := if p + n =? end_ mb then start mb else p + n.

Lemma raw_eq (a a' b b' : Z) mb mb' :
  a = a' -> b = b' -> start mb = start mb' -> end_ mb = end_ mb' ->
  head mb = head mb' -> tail mb = tail mb' -> (a, b, mb) = (a', b', mb').
Proof. destruct mb, mb'; cbn; congruence. Qed.

(** Both raw operations as closed formulas. *)
Lemma putraw_eq m mb maxlen :
  wf m mb -> 0 <= maxlen ->
  let n := Z.min maxlen (put_room mb) in
  membuff_putraw mb maxlen true = (n, head mb, set_head mb (advance mb (head mb) n)).
Proof.
  intros [H0 Hh Ht Hal] Hmax n. subst n.
  unfold membuff_putraw, membuff_putrawflex, put_room, advance, set_head. cbn.
  cases_bool; cbn; try lia; apply raw_eq; cbn; lia.
Qed.

Lemma getraw_eq m mb maxlen data :
  wf m mb ->
  let n := limit maxlen (get_room mb) in
  membuff_getraw mb maxlen true data =
    (n, if head mb =? tail mb then data else tail mb, set_tail mb (advance mb (tail mb) n)).
Proof.
  intros [H0 Hh Ht Hal] n. subst n.
  unfold membuff_getraw, get_room, limit, advance, set_tail. cbn.
  cases_bool; cbn; try lia; apply raw_eq; cbn; lia.
Qed.

Lemma put_room_bounds m mb : wf m mb -> 0 <= put_room mb <= end_ mb - head mb.
Proof. intros [H0 Hh Ht Hal]. unfold put_room. cases_bool; lia. Qed.

Lemma get_room_bounds m mb : wf m mb -> 0 <= get_room mb <= end_ mb - tail mb.
Proof. intros [H0 Hh Ht Hal]. unfold get_room. cases_bool; lia. Qed.

Lemma wf_advance_head m mb n :
  wf m mb -> 0 <= n <= end_ mb - head mb -> wf m (set_head mb (advance mb (head mb) n)).
Proof. intros [H0 Hh Ht Hal] Hn. split; cbn; auto; unfold advance; cases_bool; lia. Qed.

Lemma wf_advance_tail m mb n :
  wf m mb -> 0 <= n <= end_ mb - tail mb -> wf m (set_tail mb (advance mb (tail mb) n)).
Proof. intros [H0 Hh Ht Hal] Hn. split; cbn; auto; unfold advance; cases_bool; lia. Qed.

(** Writing at the head and moving it appends to the queue. *)
Lemma queue_push m mb q w :
  wf m mb -> queue m mb q -> zlen w <= put_room mb ->
  queue (write m (head mb) w) (set_head mb (advance mb (head mb) (zlen w))) (q ++ w).
Proof.
  intros Hwf Hq Hw. pose proof (put_room_bounds _ _ Hwf). destruct Hwf as [H0 Hh Ht _].
  pose proof (zlen_nonneg w). unfold queue, put_room, advance in *. cbn.
  destruct (Z.leb_spec (tail mb) (head mb)).
  - rewrite decide_True in Hq by lia. destruct Hq as [Ha Hl].
    assert (arr (write m (head mb) w) (tail mb) (q ++ w)) as Hqw.
    { apply arr_app. split; [apply arr_write_frame; [lia|done]|].
      replace (tail mb + zlen q) with (head mb) by lia. apply arr_write. }
    destruct (Z.eqb_spec (head mb + zlen w) (end_ mb)).
    + rewrite decide_False by (cases_bool; lia). exists (q ++ w), []. rewrite app_nil_r.
      repeat split; [done|simpl_zlen; lia|apply arr_nil|simpl_zlen; lia].
    + rewrite decide_True by lia. split; [done|simpl_zlen; lia].
  - rewrite decide_False in Hq by lia. destruct Hq as (q1 & q2 & -> & Ha1 & Hl1 & Ha2 & Hl2).
    destruct (Z.eqb_spec (head mb + zlen w) (end_ mb)); [lia|].
    rewrite decide_False by lia. exists q1, (q2 ++ w). rewrite <- app_assoc.
    repeat split; try done; [apply arr_write_frame; [lia|done]| |simpl_zlen; lia].
    apply arr_app. split; [apply arr_write_frame; [lia|done]|].
    replace (start mb + zlen q2) with (head mb) by lia. apply arr_write.
Qed.

(** Moving the tail removes from the front; the bytes removed are at the tail. *)
Lemma queue_pop m mb q n :
  wf m mb -> queue m mb q -> 0 <= n <= get_room mb ->
  exists a b, q = a ++ b /\ zlen a = n /\ arr m (tail mb) a /\
    queue m (set_tail mb (advance mb (tail mb) n)) b.
Proof.
  intros Hwf Hq Hn. destruct Hwf as [H0 Hh Ht _].
  unfold queue, get_room, advance in *. cbn.
  destruct (Z.leb_spec (tail mb) (head mb)).
  - rewrite decide_True in Hq by lia. destruct Hq as [Ha Hl].
    destruct (zsplit q n) as (a & b & -> & Hza & Hzb); [lia|]. apply arr_app in Ha as [Ha Hb].
    exists a, b. repeat split; try done. destruct (Z.eqb_spec (tail mb + n) (end_ mb)); [lia|].
    rewrite decide_True by lia. rewrite Hza in Hb. split; [done|lia].
  - rewrite decide_False in Hq by lia. destruct Hq as (q1 & q2 & -> & Ha1 & Hl1 & Ha2 & Hl2).
    destruct (zsplit q1 n) as (a & b & -> & Hza & Hzb); [lia|]. apply arr_app in Ha1 as [Ha Hb].
    exists a, (b ++ q2). rewrite app_assoc. repeat split; try done. rewrite Hza in Hb.
    destruct (Z.eqb_spec (tail mb + n) (end_ mb)).
    + rewrite decide_True by lia. destruct b; [done|simpl_zlen; pose proof (zlen_nonneg b); lia].
    + rewrite decide_False by lia. exists b, q2. repeat split; (done || lia).
Qed.

(** The number of bytes in the buffer, from the pointers. *)
Definition used (mb : membuff) : Z :=
  if tail mb <=? head mb then head mb - tail mb else end_ mb - tail mb + (head mb - start mb).

Lemma queue_used m mb q : queue m mb q -> zlen q = used mb.
Proof.
  unfold queue, used. case_decide; destruct (Z.leb_spec (tail mb) (head mb)); try lia.
  intros (q1 & q2 & -> & _ & ? & _ & ?). simpl_zlen. lia.
Qed.

(** A block that has nothing in common with the buffer's block. *)
Definition apart (mb : membuff) (p n : Z) : Prop := p + n <= start mb \/ end_ mb <= p.

(** ** [membuff_put] *)
Lemma put_round m mb q buff d :
  wf m mb -> queue m mb q -> arr m buff d -> Forall is_byte d -> apart mb buff (zlen d) ->
  exists d1 d2, d = d1 ++ d2 /\ zlen d1 = Z.min (zlen d) (put_room mb) /\
    let mb' := set_head mb (advance mb (head mb) (zlen d1)) in
    let m' := write m (head mb) d1 in
    membuff_putraw mb (zlen d) true = (zlen d1, head mb, mb') /\
    memcpy m (head mb) buff (zlen d1) = Some m' /\
    wf m' mb' /\ queue m' mb' (q ++ d1) /\ arr m' (buff + zlen d1) d2.
Proof.
  intros Hwf Hq Ha Hb Hap. pose proof (put_room_bounds _ _ Hwf) as Hr. pose proof (zlen_nonneg d).
  destruct (zsplit d (Z.min (zlen d) (put_room mb))) as (d1 & d2 & E & H1 & H2); [lia|].
  exists d1, d2. split; [done|]. split; [done|]. cbv zeta.
  assert (zlen d = zlen d1 + zlen d2) as Hz by (rewrite E; simpl_zlen; lia).
  rewrite E in Ha, Hb. apply arr_app in Ha as [Ha1 Ha2]. apply Forall_app in Hb as [Hb1 Hb2].
  pose proof (wf_head _ _ Hwf). pose proof (zlen_nonneg d1). unfold apart in Hap.
  split; [rewrite H1; apply (putraw_eq m); [done|lia]|]. split.
  { apply memcpy_ok; [done|done| |lia]. eapply allocated_sub, wf_alloc, Hwf; lia. }
  split; [apply wf_write, wf_advance_head; [done|lia]|].
  split; [apply queue_push; [done|done|lia]|]. apply arr_write_frame; [lia|done].
Qed.

Lemma put_two_rounds m mb L :
  wf m mb -> 0 <= L ->
  let n1 := Z.min L (put_room mb) in
  let mb1 := set_head mb (advance mb (head mb) n1) in
  n1 + Z.min (L - n1) (put_room mb1) = Z.min L (capacity mb - used mb).
Proof.
  intros [H0 Hh Ht _] HL n1 mb1. subst n1 mb1.
  unfold put_room, advance, capacity, used. cbn. cases_bool; lia.
Qed.

Lemma membuff_put_ok m mb q buff d :
  wf m mb -> queue m mb q -> arr m buff d -> Forall is_byte d -> apart mb buff (zlen d) ->
  exists m' mb' n, membuff_put m mb buff (zlen d) = Some (n, m', mb') /\
    n = Z.min (zlen d) (capacity mb - zlen q) /\
    same_block mb mb' /\ wf m' mb' /\ queue m' mb' (q ++ take (Z.to_nat n) d) /\
    (mem_bytes m -> mem_bytes m') /\
    forall p, ~ (start mb <= p < end_ mb) -> m' !! p = m !! p.
Proof.
  intros Hwf Hq Ha Hb Hap. pose proof (zlen_nonneg d) as Hd0.
  pose proof (put_two_rounds m mb (zlen d) Hwf Hd0) as Htot. cbv zeta in Htot.
  rewrite <- (queue_used _ _ _ Hq) in Htot.
  destruct (put_round m mb q buff d) as (d1 & d2 & E & Hn1 & Hraw & Hcp & Hwf1 & Hq1 & Ha1); try done.
  rewrite <- Hn1 in Htot. set (mb1 := set_head mb _) in *.
  assert (zlen d2 = zlen d - zlen d1) as Hz2 by (rewrite E; simpl_zlen; lia).
  assert (Forall is_byte d2) as Hb2 by (rewrite E in Hb; by apply Forall_app in Hb as [_ ?]).
  pose proof (put_room_bounds _ _ Hwf) as Hr1. pose proof (wf_head _ _ Hwf) as Hh1.
  pose proof (zlen_nonneg d1) as Hd1. pose proof (zlen_nonneg d2) as Hd2.
  destruct (put_round _ mb1 _ (buff + zlen d1) d2 Hwf1 Hq1 Ha1 Hb2)
    as (d3 & d4 & E2 & Hn2 & Hraw2 & Hcp2 & Hwf2 & Hq2 & _).
  { unfold apart in *. cbn. lia. }
  pose proof (put_room_bounds _ _ Hwf1) as Hr2. pose proof (wf_head _ _ Hwf1) as Hh2.
  cbn [start end_ mb1 set_head] in Hr2, Hh2.
  exists (write (write m (head mb) d1) (head mb1) d3),
    (set_head mb1 (advance mb1 (head mb1) (zlen d3))), (zlen d1 + zlen d3).
  split; [|split; [lia|split; [done|split; [exact Hwf2|split; [|split]]]]].
  - unfold membuff_put. cbn [membuff_put_loop]. rewrite Hraw, Hcp. cbn [mbind option_bind].
    rewrite <- Hz2, Hraw2, Hcp2. done.
  - rewrite <- app_assoc in Hq2. rewrite E, E2, app_assoc, <- zlen_app, take_zlen. done.
  - rewrite E in Hb. apply Forall_app in Hb as [Hb1 _]. rewrite E2 in Hb2.
    apply Forall_app in Hb2 as [Hb3 _]. eauto using mem_bytes_write.
  - intros p Hp. rewrite !write_lookup_out; [done|lia..].
Qed.

(** ** [membuff_get], [membuff_avail], [membuff_free] *)
Lemma get_round m mb q maxlen data :
  wf m mb -> queue m mb q ->
  exists a b, q = a ++ b /\ zlen a = limit maxlen (get_room mb) /\
    let mb' := set_tail mb (advance mb (tail mb) (zlen a)) in
    exists data', membuff_getraw mb maxlen true data = (zlen a, data', mb') /\
    (data' = tail mb \/ a = []) /\
    arr m (tail mb) a /\ wf m mb' /\ queue m mb' b.
Proof.
  intros Hwf Hq. pose proof (get_room_bounds _ _ Hwf) as Hr.
  assert (0 <= limit maxlen (get_room mb) <= get_room mb) as Hl
    by (unfold limit; cases_bool; lia).
  destruct (queue_pop m mb q _ Hwf Hq Hl) as (a & b & -> & Hza & Ha & Hb).
  exists a, b. split; [done|]. split; [done|]. cbv zeta.
  eexists. split; [rewrite Hza; by apply (getraw_eq m)|]. split; [|split; [done|split]].
  - destruct (Z.eqb_spec (head mb) (tail mb)) as [E|]; [right|by left].
    destruct a; [done|]. unfold get_room in *. simpl_zlen. pose proof (zlen_nonneg a).
    cases_bool; lia.
  - apply wf_advance_tail; [done|lia].
  - by rewrite Hza.
Qed.

Lemma get_two_rounds m mb L :
  wf m mb ->
  let n1 := limit L (get_room mb) in
  let mb1 := set_tail mb (advance mb (tail mb) n1) in
  n1 + limit (L - n1) (get_room mb1) = limit L (used mb) /\
  (n1 = 0 -> limit L (used mb) = 0).
Proof.
  intros [H0 Hh Ht _] n1 mb1. subst n1 mb1.
  unfold get_room, advance, used, limit. cbn. cases_bool; lia.
Qed.

(** Copying out of the buffer to a block apart from it. *)
Lemma get_copy m mb q a data buff :
  wf m mb -> queue m mb q -> 0 < buff -> apart mb buff (zlen a) -> allocated m buff (zlen a) ->
  mem_bytes m -> zlen a <= get_room mb -> arr m (tail mb) a ->
  data = tail mb \/ a = [] ->
  memcpy m buff data (zlen a) = Some (write m buff a).
Proof.
  intros Hwf Hq Hbuff Hap Hal Hm Hle Ha Hd. pose proof (get_room_bounds _ _ Hwf).
  pose proof (wf_tail _ _ Hwf). unfold apart in Hap. destruct Hd as [-> | ->].
  - apply memcpy_ok; [done|eauto using arr_mem_bytes|done|lia].
  - apply memcpy_ok; [apply arr_nil|constructor|done|simpl_zlen; lia].
Qed.

Lemma membuff_get_ok m mb q buff maxlen :
  wf m mb -> queue m mb q -> mem_bytes m -> 0 < buff ->
  apart mb buff (limit maxlen (zlen q)) -> allocated m buff (limit maxlen (zlen q)) ->
  exists a b mb', q = a ++ b /\ zlen a = limit maxlen (zlen q) /\
    membuff_get m mb buff maxlen = Some (zlen a, write m buff a, mb') /\
    same_block mb mb' /\ wf (write m buff a) mb' /\ queue (write m buff a) mb' b.
Proof.
  intros Hwf Hq Hm Hbuff Hap Hal. rewrite (queue_used _ _ _ Hq) in *.
  destruct (get_two_rounds m mb maxlen Hwf) as [Htot Hzero]. cbv zeta in Htot, Hzero.
  pose proof (get_room_bounds _ _ Hwf) as Hr.
  destruct (get_round m mb q maxlen 0 Hwf Hq)
    as (a1 & b1 & -> & Hn1 & data1 & Hraw1 & Hd1 & Ha1 & Hwf1 & Hq1).
  rewrite <- Hn1 in Htot, Hzero. set (mb1 := set_tail mb _) in *.
  destruct (get_round m mb1 b1 (maxlen - zlen a1) data1 Hwf1 Hq1)
    as (a2 & b2 & -> & Hn2 & data2 & Hraw2 & Hd2 & Ha2 & Hwf2 & Hq2).
  rewrite <- Hn2 in Htot. set (mb2 := set_tail mb1 _) in *.
  pose proof (get_room_bounds _ _ Hwf1) as Hr1. pose proof (zlen_nonneg a1). pose proof (zlen_nonneg a2).
  assert (zlen a1 <= get_room mb) by (rewrite Hn1; unfold limit; cases_bool; lia).
  assert (zlen a2 <= get_room mb1) by (rewrite Hn2; unfold limit; cases_bool; lia).
  unfold apart in Hap.
  assert (memcpy m buff data1 (zlen a1) = Some (write m buff a1)) as Hcp1.
  { apply (get_copy m mb (a1 ++ a2 ++ b2)); try done; [unfold apart; lia|].
    eapply allocated_sub, Hal; lia. }
  assert (queue (write m buff a1) mb1 (a2 ++ b2)) as Hq1'.
  { apply queue_frame; [done|unfold apart in *; cbn; lia|done]. }
  destruct (decide (zlen a1 = 0)) as [Hz|Hz].
  - specialize (Hzero Hz). destruct a1; [|simpl_zlen; pose proof (zlen_nonneg a1); lia].
    destruct a2; [|simpl_zlen; pose proof (zlen_nonneg a2); lia].
    exists [], b2, mb1. split; [done|]. split; [by rewrite Hzero|]. split; [|done].
    unfold membuff_get. cbn [membuff_get_loop Z.eqb]. rewrite Hraw1. cbn [mbind option_bind]. rewrite Hcp1. simpl_zlen. cbn. do 3 f_equal. lia.
  - assert (memcpy (write m buff a1) (buff + zlen a1) data2 (zlen a2)
      = Some (write m buff (a1 ++ a2))) as Hcp2.
    { rewrite write_app. apply (get_copy _ mb1 (a2 ++ b2)); auto using wf_write.
      - lia.
      - unfold apart. cbn. lia.
      - apply allocated_write. eapply allocated_sub, Hal; lia.
      - apply mem_bytes_write; eauto using arr_mem_bytes.
      - apply arr_write_frame; [pose proof (wf_tail _ _ Hwf1); cbn in *; lia|done]. }
    exists (a1 ++ a2), b2, mb2. rewrite <- app_assoc. simpl_zlen.
    split; [done|]. split; [done|]. split; [|split; [done|split; [by apply wf_write|]]].
    + unfold membuff_get. cbn [membuff_get_loop Z.eqb]. rewrite Hraw1. cbn [mbind option_bind].
      rewrite Hcp1. cbn [mbind option_bind]. destruct (Z.eqb_spec (zlen a1) 0); [done|].
      rewrite Hraw2. cbn [mbind option_bind]. rewrite Hcp2. cbn [mbind option_bind].
      do 3 f_equal. lia.
    + apply queue_frame; [done| |done]. simpl_zlen. cbn. lia.
Qed.

Lemma membuff_avail_ok m mb q : wf m mb -> queue m mb q -> membuff_avail mb = zlen q.
Proof.
  intros Hwf Hq. rewrite (queue_used _ _ _ Hq).
  destruct (get_two_rounds m mb (-1) Hwf) as [Htot _]. cbv zeta in Htot.
  pose proof (get_room_bounds _ _ Hwf) as Hr.
  unfold membuff_avail. cbn [membuff_avail_loop]. rewrite (getraw_eq m) by done.
  rewrite (getraw_eq m).
  - unfold limit in *. cbn in *. rewrite <- Htot. cases_bool; lia.
  - apply wf_advance_tail; [done|]. unfold limit. cbn. lia.
Qed.

(** ** Single bytes *)
Lemma room_zero m mb : wf m mb ->
  (put_room mb = 0 <-> used mb = capacity mb) /\ (get_room mb = 0 <-> used mb = 0).
Proof.
  intros [H0 Hh Ht _]. unfold put_room, get_room, used, capacity. cases_bool; lia.
Qed.

Lemma advance_0 m mb : wf m mb -> advance mb (head mb) 0 = head mb /\ advance mb (tail mb) 0 = tail mb.
Proof. intros [H0 Hh Ht _]. unfold advance. cases_bool; lia. Qed.

Lemma set_head_id mb : set_head mb (head mb) = mb.
Proof. by destruct mb. Qed.
Lemma set_tail_id mb : set_tail mb (tail mb) = mb.
Proof. by destruct mb. Qed.

Lemma membuff_putbyte_ok m mb q ch :
  wf m mb -> queue m mb q ->
  exists m' mb' ok, membuff_putbyte m mb ch = Some (ok, m', mb') /\
    ok = bool_decide (zlen q < capacity mb) /\ same_block mb mb' /\ wf m' mb' /\
    queue m' mb' (if ok then q ++ [u8 ch] else q) /\
    (mem_bytes m -> mem_bytes m') /\
    forall p, ~ (start mb <= p < end_ mb) -> m' !! p = m !! p.
Proof.
  intros Hwf Hq. pose proof (queue_length _ _ _ Hwf Hq) as Hlen.
  pose proof (put_room_bounds _ _ Hwf) as Hr. pose proof (queue_used _ _ _ Hq) as Hu.
  destruct (room_zero m mb Hwf) as [Hz _]. pose proof (wf_head _ _ Hwf) as Hh.
  unfold membuff_putbyte. rewrite (putraw_eq m) by (done || lia).
  destruct (decide (put_room mb = 0)) as [E|E].
  - rewrite E. change (1 `min` 0) with 0. destruct (advance_0 m mb Hwf) as [-> _].
    rewrite set_head_id. cbn.
    eexists _, _, false. split; [done|]. rewrite bool_decide_eq_false_2 by (apply Hz in E; lia).
    done.
  - rewrite Z.min_l by lia. cbn [Z.eqb negb Pos.eqb].
    rewrite store_ok by (eapply allocated_at, wf_alloc, Hwf; lia). cbn [mbind option_bind].
    eexists _, _, true. split; [done|].
    rewrite bool_decide_eq_true_2.
    2: { destruct (decide (zlen q = capacity mb)); [exfalso; apply E, Hz; lia|lia]. }
    split; [done|]. split; [done|]. split; [apply wf_write, wf_advance_head; [done|lia]|].
    split; [apply (queue_push m mb q [u8 ch]); [done|done|simpl_zlen; lia]|].
    split; [intros Hm; apply mem_bytes_write; [done|]; auto using is_byte_u8|].
    intros p Hp. apply write_lookup_out. simpl_zlen. lia.
Qed.

Lemma membuff_getbyte_ok m mb q :
  wf m mb -> queue m mb q ->
  match q with
  | [] => membuff_getbyte m mb = Some (-1, mb) /\ membuff_peekbyte m mb = Some (-1)
  | c :: q' => exists mb', membuff_getbyte m mb = Some (c, mb') /\
      membuff_peekbyte m mb = Some c /\ same_block mb mb' /\ wf m mb' /\ queue m mb' q'
  end.
Proof.
  intros Hwf Hq. pose proof (queue_used _ _ _ Hq) as Hu.
  pose proof (get_room_bounds _ _ Hwf) as Hr. destruct (room_zero m mb Hwf) as [_ Hz].
  assert (membuff_peekbyte m mb = '(c, _) ← membuff_getbyte m mb; Some c) as Hpeek.
  { unfold membuff_peekbyte, membuff_getbyte, membuff_getraw. destruct Hwf as [_ ? ? _].
    cases_bool; cbn; try lia; try done; by destruct (m !! _). }
  rewrite Hpeek. clear Hpeek. unfold membuff_getbyte. rewrite (getraw_eq m) by done.
  unfold limit. cbn [Z.ltb Z.compare].
  destruct q as [|c q'].
  - simpl_zlen. rewrite (proj2 Hz) by lia. change (1 `min` 0) with 0.
    destruct (advance_0 m mb Hwf) as [_ ->]. rewrite set_tail_id. done.
  - simpl_zlen. pose proof (zlen_nonneg q').
    assert (get_room mb <> 0) by (intros E%Hz; lia). rewrite Z.min_l by lia. cbn [Z.eqb negb Pos.eqb].
    destruct (queue_pop m mb (c :: q') 1 Hwf Hq) as (a & b & E & Hza & Ha & Hb); [lia|].
    destruct a as [|c' a]; [done|]. injection E as <- ->.
    destruct a; [|simpl_zlen; pose proof (zlen_nonneg a); lia]. apply arr_cons in Ha as [Hc _].
    destruct (Z.eqb_spec (head mb) (tail mb)) as [Eht|];
      [unfold get_room in *; cases_bool; lia|].
    rewrite Hc. cbn. eexists. split; [done|]. split; [done|]. split; [done|].
    split; [apply wf_advance_tail; [done|lia]|done].
Qed.

(** ** [membuff_makecontig] *)
Lemma membuff_makecontig_ok m mb q :
  wf m mb -> queue m mb q -> mem_bytes m ->
  exists ok m' mb', membuff_makecontig m mb = Some (ok, m', mb') /\
    ok = negb ((head mb <? tail mb) && (tail mb <=? head mb + (end_ mb - tail mb))) /\
    same_block mb mb' /\ wf m' mb' /\ queue m' mb' q /\
    (ok = true -> tail mb' = start mb' /\ arr m' (start mb) q) /\ mem_bytes m' /\
    forall p, ~ (start mb <= p < end_ mb) -> m' !! p = m !! p.
Proof.
  intros Hwf Hq Hm. pose proof Hwf as [H0 Hh Ht Hal]. unfold membuff_makecontig.
  pose proof Hq as Hq0. unfold queue in Hq0.
  destruct (Z.ltb_spec (head mb) (tail mb)) as [Hlt|Hge].
  - rewrite decide_False in Hq0 by lia. destruct Hq0 as (q1 & q2 & -> & Ha1 & Hl1 & Ha2 & Hl2).
    destruct (Z.leb_spec (tail mb) (head mb + (end_ mb - tail mb))) as [Hno|Hyes].
    { exists false, m, mb. by rewrite Z.leb_refl || done. }
    rewrite <- Hl1, <- Hl2. rewrite memmove_ok; [|done|eauto using arr_mem_bytes|eapply allocated_sub, Hal; lia].
    cbn [mbind option_bind].
    rewrite memcpy_ok; [|apply arr_write_frame; [lia|done]|eauto using arr_mem_bytes| |lia].
    2: apply allocated_write; eapply allocated_sub, Hal; lia.
    cbn [mbind option_bind]. rewrite write_comm by lia. rewrite <- write_app.
    eexists true, _, _. split; [done|]. split; [done|]. split; [done|].
    pose proof (arr_write m (start mb) (q1 ++ q2)).
    pose proof (zlen_nonneg q1). pose proof (zlen_nonneg q2).
    split; [split; cbn; [lia..|by apply allocated_write]|].
    assert (mem_bytes (write m (start mb) (q1 ++ q2)))
      by (apply mem_bytes_write; [done|]; apply Forall_app; eauto using arr_mem_bytes).
    split; [|split; [done|split; [done|intros p Hp; apply write_lookup_out; simpl_zlen; lia]]].
    unfold queue. cbn. rewrite decide_True by lia. split; [done|simpl_zlen; lia].
  - rewrite decide_True in Hq0 by lia. destruct Hq0 as [Ha Hl]. rewrite <- Hl.
    rewrite memcpy_ok; [|done|eauto using arr_mem_bytes|eapply allocated_sub, Hal; lia|lia].
    cbn [mbind option_bind]. eexists true, _, _. split; [done|]. split; [done|]. split; [done|].
    pose proof (arr_write m (start mb) q). pose proof (zlen_nonneg q).
    split; [split; cbn; [lia..|by apply allocated_write]|].
    split; [|split; [done|split; [eauto using mem_bytes_write, arr_mem_bytes|
      intros p Hp; apply write_lookup_out; lia]]].
    unfold queue. cbn. rewrite decide_True by lia. split; [done|lia].
Qed.

(** ** [membuff_readline] *)
Section Readline.
Context (minch : Z).

(** What ends a line. *)
Definition ends_line (c : Z) : bool := (c =? 10) || (c <? minch).

(** The first line of [l]: the characters before its end, the end, and the rest. *)
Fixpoint first_line (l : list Z) : option (list Z * Z * list Z) :=
  match l with
  | [] => None
  | c :: l =>
      if ends_line c then Some ([], c, l)
      else '(x, d, y) ← first_line l; Some (c :: x, d, y)
  end.

(** Two memories that differ at most in a block. *)
Definition only (m m' : mem) (p n : Z) : Prop :=
  (forall q, is_Some (m !! q) -> is_Some (m' !! q)) /\
  forall q, ~ (p <= q < p + n) -> m' !! q = m !! q.

Lemma only_refl m p n : only m m p n.
Proof. done. Qed.

Lemma only_write m p n q l : p <= q -> q + zlen l <= p + n -> only m (write m q l) p n.
Proof.
  intros Hp Hq. split.
  - intros x Hx. rewrite write_lookup. case_decide; [|done]. apply lookup_lt_is_Some. unfold zlen in *. lia.
  - intros x Hx. apply write_lookup_out. lia.
Qed.

Lemma only_trans m1 m2 m3 p n q k :
  p <= q -> q + k <= p + n -> only m1 m2 p n -> only m2 m3 q k -> only m1 m3 p n.
Proof. intros Hp Hq [Ha Hb] [Hc Hd]. split; [auto|]. intros x Hx. rewrite Hd by lia. apply Hb. lia. Qed.


(** The loop stands at [s] (running to [e]) and [rest] is still to be read. *)
Definition reading (m : mem) (mb : membuff) (s e : Z) (rest : list Z) : Prop :=
  start mb <= s /\
  (arr m s rest /\ s + zlen rest = head mb /\ e = head mb \/
   head mb < tail mb /\ tail mb <= s /\ e = end_ mb /\ exists c r1 q2, rest = (c :: r1) ++ q2 /\
     arr m s (c :: r1) /\ s + zlen (c :: r1) = end_ mb /\ arr m (start mb) q2 /\
     zlen q2 = head mb - start mb).

Lemma reading_start m mb q :
  wf m mb -> queue m mb q ->
  reading m mb (tail mb) (if tail mb <=? head mb then head mb else end_ mb) q.
Proof.
  intros [H0 Hh Ht _] Hq. unfold queue in Hq. split; [lia|].
  destruct (Z.leb_spec (tail mb) (head mb)).
  - rewrite decide_True in Hq by lia. left. repeat split; try tauto. lia.
  - rewrite decide_False in Hq by lia. destruct Hq as (q1 & q2 & -> & Ha1 & Hl1 & Ha2 & Hl2).
    right. repeat split; [lia..|]. destruct q1 as [|c r1]; [simpl_zlen; lia|].
    exists c, r1, q2. repeat split; try done. lia.
Qed.

Lemma reading_frame m mb s e rest p l :
  wf m mb -> apart mb p (zlen l) -> reading m mb s e rest -> reading (write m p l) mb s e rest.
Proof.
  intros [H0 Hh Ht _] Hap [Hs Hr]. unfold apart in Hap. split; [done|].
  destruct Hr as [(Ha & Hl & ->)|(Hlt & Hts & -> & c & r1 & q2 & -> & Ha & Hl & Ha2 & Hl2)].
  - left. split; [apply arr_write_frame; [lia|done]|done].
  - right. split; [done|]. split; [done|]. split; [done|]. exists c, r1, q2.
    repeat split; try done; apply arr_write_frame; (done || lia).
Qed.

(** One round: the next character, and the queue or the position after it. *)
Lemma reading_next m mb s e c rest :
  wf m mb -> reading m mb s e (c :: rest) ->
  m !! s = Some c /\ s < e /\ start mb <= s < end_ mb /\
  queue m (set_tail mb (if s + 1 =? end_ mb then start mb else s + 1)) rest /\
  let '(s', e') := if (s + 1 =? e) && (head mb <? tail mb) then (start mb, head mb) else (s + 1, e) in
  (rest = [] /\ head mb < tail mb /\ start mb <= s' <= head mb /\ e' = head mb) \/
  reading m mb s' e' rest.
Proof.
  intros [H0 Hh Ht _] [Hs Hr].
  destruct Hr as [(Ha & Hl & ->)|(Hlt & Hts & -> & c' & r1 & q2 & E & Ha & Hl & Ha2 & Hl2)].
  - apply arr_cons in Ha as [Hc Ha]. simpl_zlen. pose proof (zlen_nonneg rest).
    split; [done|]. split; [lia|]. split; [lia|]. split.
    { unfold queue. cbn. destruct (Z.eqb_spec (s + 1) (end_ mb)); [lia|].
      rewrite decide_True by lia. split; [done|lia]. }
    destruct (Z.eqb_spec (s + 1) (head mb)) as [Esh|]; cbn.
    + destruct rest; [|simpl_zlen; pose proof (zlen_nonneg rest); lia].
      destruct (Z.ltb_spec (head mb) (tail mb)); [left; split; [done|lia]|].
      right. split; [lia|]. left. split; [apply arr_nil|simpl_zlen; lia].
    + right. split; [lia|]. left. split; [done|lia].
  - injection E as <- ->. apply arr_cons in Ha as [Hc Ha]. simpl_zlen. pose proof (zlen_nonneg r1).
    split; [done|]. split; [lia|]. split; [lia|]. destruct (Z.ltb_spec (head mb) (tail mb)); [|lia].
    destruct (Z.eqb_spec (s + 1) (end_ mb)) as [Ee|].
    + destruct r1; [|simpl_zlen; pose proof (zlen_nonneg r1); lia]. cbn. split.
      { unfold queue. cbn. rewrite decide_True by lia. split; [done|lia]. }
      right. split; [lia|]. left. split; [done|]. split; lia.
    + destruct r1 as [|c1 r1]; [simpl_zlen; lia|]. cbn. split.
      { unfold queue. cbn. rewrite decide_False by lia. exists (c1 :: r1), q2.
        repeat split; try done. simpl_zlen. lia. }
      right. split; [lia|]. right. split; [lia|]. split; [lia|]. split; [done|].
      exists c1, r1, q2. simpl_zlen. repeat split; try done. lia.
Qed.

Lemma only_store m m' p n v :
  0 < n -> only (write m p [v]) m' (p + 1) (n - 1) -> only m m' p n.
Proof.
  intros Hn Ho. eapply only_trans, Ho; [lia|lia|]. apply only_write; [lia|simpl_zlen; lia].
Qed.

(** Once everything was read without an end of line, the loop reads the part from
    [start] to [head] again and again until [maxlen] stops it. *)
Lemma readline_loop_again k m mb s e str len :
  wf m mb -> allocated m str (Z.of_nat k) -> apart mb str (Z.of_nat k) ->
  (forall p, start mb <= p < head mb -> exists c, m !! p = Some c /\ ends_line c = false) ->
  start mb <= s <= head mb -> e = head mb ->
  exists m' s' str' len', membuff_readline_loop k m mb s e str len minch =
    Some (false, m', s', str', len') /\ only m m' str (Z.of_nat k).
Proof.
  intros Hwf. revert m Hwf s e str len. induction k as [|k IH];
    intros m Hwf s e str len Hal Hap Hno Hs ->; cbn [membuff_readline_loop].
  - eexists _, _, _, _. split; [done|]. apply only_refl.
  - destruct (Z.ltb_spec s (head mb)).
    2: { eexists _, _, _, _. split; [done|]. apply only_refl. }
    destruct (Hno s) as (c & Hc & Hnc); [lia|]. rewrite Hc. cbn [mbind option_bind].
    rewrite store_ok by (eapply allocated_at, Hal; lia). cbn [mbind option_bind].
    unfold ends_line in Hnc. rewrite Hnc.
    pose proof (wf_head _ _ Hwf). unfold apart in Hap.
    match goal with |- context [let '(_, _) := ?x in _] => destruct x as [s' e'] eqn:Ese end.
    destruct (IH (write m str [u8 c]) (wf_write _ _ _ _ Hwf) s' e' (str + 1) (len + 1))
      as (m' & s'' & str'' & len'' & Hl & Ho).
    + apply allocated_write. eapply allocated_sub, Hal; lia.
    + unfold apart. lia.
    + intros p Hp. destruct (Hno p Hp) as (c' & Hc' & ?). exists c'. split; [|done].
      rewrite write_lookup_out; [done|simpl_zlen; lia].
    + destruct ((s + 1 =? head mb) && (head mb <? tail mb)); simplify_eq; lia.
    + destruct ((s + 1 =? head mb) && (head mb <? tail mb)); by simplify_eq.
    + exists m', s'', str'', len''. split; [done|]. apply only_store with (u8 c); [lia|].
      by replace (Z.of_nat (S k) - 1) with (Z.of_nat k) by lia.
Qed.

Lemma queue_bottom m mb q :
  wf m mb -> queue m mb q -> head mb < tail mb -> Forall (fun c => ends_line c = false) q ->
  forall p, start mb <= p < head mb -> exists c, m !! p = Some c /\ ends_line c = false.
Proof.
  intros Hwf Hq Hlt Hf p Hp. unfold queue in Hq. rewrite decide_False in Hq by lia.
  destruct Hq as (q1 & q2 & -> & _ & _ & Ha2 & Hl2). apply Forall_app in Hf as [_ Hf].
  assert (p = start mb + (p - start mb)) as Ep by lia. rewrite Ep, Ha2 by lia.
  destruct (q2 !! Z.to_nat (p - start mb)) as [c|] eqn:Hc.
  - exists c. split; [done|]. rewrite Forall_lookup in Hf. eauto.
  - apply lookup_ge_None in Hc. unfold zlen in *. lia.
Qed.

Lemma readline_loop_ok rest k m mb s e str len read :
  wf m mb -> mem_bytes m -> allocated m str (Z.of_nat k) -> apart mb str (Z.of_nat k) ->
  queue m mb (read ++ rest) -> Forall (fun c => ends_line c = false) read ->
  reading m mb s e rest ->
  (exists x c y s', first_line rest = Some (x, c, y) /\ zlen x < Z.of_nat k /\
     start mb <= (if s' =? end_ mb then start mb else s') < end_ mb /\
     membuff_readline_loop k m mb s e str len minch =
       Some (true, write m str (x ++ [c]), s', str + zlen x, len + zlen x + 1) /\
     queue (write m str (x ++ [c])) (set_tail mb (if s' =? end_ mb then start mb else s')) y) \/
  ((forall x c y, first_line rest = Some (x, c, y) -> Z.of_nat k <= zlen x) /\
   exists m' s' str' len', membuff_readline_loop k m mb s e str len minch =
     Some (false, m', s', str', len') /\ only m m' str (Z.of_nat k)).
Proof.
  revert k m s e str len read. induction rest as [|c rest IH];
    intros k m s e str len read Hwf Hm Hal Hap Hq Hnt Hrd.
  - right. split; [done|]. rewrite app_nil_r in Hq. destruct k as [|k].
    { eexists _, _, _, _. split; [done|]. apply only_refl. }
    destruct Hrd as [Hs [(_ & Hl & ->)|(_ & _ & _ & ? & ? & ? & ? & _)]]; [|done].
    simpl_zlen. cbn [membuff_readline_loop]. destruct (Z.ltb_spec s (head mb)); [lia|].
    eexists _, _, _, _. split; [done|]. apply only_refl.
  - destruct k as [|k].
    { right. split; [intros x ? ? _; pose proof (zlen_nonneg x); lia|].
      eexists _, _, _, _. split; [done|]. apply only_refl. }
    destruct (reading_next _ _ _ _ _ _ Hwf Hrd) as (Hc & Hse & Hsr & Hqr & Hnext).
    cbn [membuff_readline_loop first_line]. destruct (Z.ltb_spec s e); [|lia]. rewrite Hc.
    cbn [mbind option_bind]. rewrite store_ok by (eapply allocated_at, Hal; lia).
    cbn [mbind option_bind]. rewrite u8_byte by eauto. fold (ends_line c). unfold apart in Hap.
    destruct (ends_line c) eqn:Hec.
    + left. exists [], c, rest, (s + 1). split; [done|]. split; [simpl_zlen; lia|]. cbn [app].
      split; [pose proof (wf_start _ _ Hwf); cases_bool; lia|].
      split; [simpl_zlen; do 5 f_equal; lia|].
      apply queue_frame; [|cbn; simpl_zlen; lia|done]. destruct Hwf. split; cbn; auto. cases_bool; lia.
    + match goal with |- context [let '(_, _) := ?x in _] => destruct x as [s' e'] end.
      assert (zlen [c] = 1) as Hz1 by done.
      assert (Forall (fun c => ends_line c = false) (read ++ [c])) as Hnt' by by apply Forall_app_2; [|constructor].
      assert (queue (write m str [c]) mb ((read ++ [c]) ++ rest)) as Hq'.
      { rewrite <- app_assoc. apply queue_frame; [done|lia|done]. }
      assert (allocated (write m str [c]) (str + 1) (Z.of_nat k)) as Hal'
        by (apply allocated_write; eapply allocated_sub, Hal; lia).
      assert (apart mb (str + 1) (Z.of_nat k)) as Hap' by (unfold apart; lia).
      destruct Hnext as [(-> & Hlt & Hs' & ->)|Hrd'].
      * right. split; [done|]. rewrite app_nil_r in Hq'.
        destruct (readline_loop_again k (write m str [c]) mb s' (head mb) (str + 1) (len + 1))
          as (m' & s'' & str'' & len'' & Hl & Ho); auto using wf_write.
        { apply queue_bottom with (read ++ [c]); auto using wf_write. }
        exists m', s'', str'', len''. split; [done|]. apply only_store with c; [lia|].
        by replace (Z.of_nat (S k) - 1) with (Z.of_nat k) by lia.
      * destruct (IH k (write m str [c]) s' e' (str + 1) (len + 1) (read ++ [c]))
          as [(x & d & y & s'' & Hf & Hx & Hrg & Hl & Hy)|(Hno & m' & s'' & str'' & len'' & Hl & Ho)];
          auto using wf_write.
        { apply mem_bytes_write; [done|]. constructor; eauto. }
        { apply reading_frame; [done|unfold apart; lia|done]. }
        -- left. exists (c :: x), d, y, s''. rewrite Hf. split; [done|]. simpl_zlen. split; [lia|].
           split; [done|]. cbn [app write]. cbn [write] in Hl, Hy.
           split; [|done]. rewrite Hl. f_equal. f_equal; [f_equal; lia|lia].
        -- right. split.
           { intros x d y. destruct (first_line rest) as [[[x' d'] y']|] eqn:Ef; [|done].
             intros [= <- <- <-]. specialize (Hno _ _ _ eq_refl). simpl_zlen. lia. }
           exists m', s'', str'', len''. split; [done|]. apply only_store with c; [lia|].
           by replace (Z.of_nat (S k) - 1) with (Z.of_nat k) by lia.
Qed.

End Readline.

(** [membuff_readline] into a buffer of [maxlen > 0] bytes apart from the
    ring: when the oldest bytes form a line whose end (a newline or a character
    below [minch]) is among the first [maxlen - 1] bytes, it removes the line from
    the ring, stores it NUL-terminated without its end and returns the number of
    bytes removed; otherwise it returns 0, leaves the ring as it was and stores an
    empty string.  It never writes outside the buffer. *)
Theorem membuff_readline_spec m mb q str maxlen minch :
  wf m mb -> queue m mb q -> mem_bytes m -> 0 < maxlen ->
  allocated m str maxlen -> apart mb str maxlen ->
  exists n m' mb', membuff_readline m mb str maxlen minch = Some (n, m', mb') /\
    same_block mb mb' /\ only m m' str maxlen /\
    match first_line minch q with
    | Some (x, _, y) =>
        if zlen x + 1 <? maxlen then
          n = zlen x + 1 /\ arr m' str (x ++ [0]) /\ queue m' mb' y
        else n = 0 /\ arr m' str [0] /\ mb' = mb /\ queue m' mb q
    | None => n = 0 /\ arr m' str [0] /\ mb' = mb /\ queue m' mb q
    end.
Proof.
  intros Hwf Hq Hm Hmax Hal Hap. unfold membuff_readline.
  destruct (readline_loop_ok minch q (Z.to_nat (maxlen - 1)) m mb (tail mb)
    (if tail mb <=? head mb then head mb else end_ mb) str 0 [])
    as [(x & c & y & s' & Hf & Hx & Hrg & Hl & Hy)|(Hno & m' & s' & str' & len' & Hl & Ho)]; auto.
  { eapply allocated_sub, Hal; lia. }
  { unfold apart in *. lia. }
  { by apply reading_start. }
  - rewrite Hl. cbn [mbind option_bind negb]. pose proof (zlen_nonneg x).
    rewrite store_ok by (eapply allocated_at, (allocated_write m str _ str maxlen), Hal; lia).
    cbn [mbind option_bind]. change (u8 0) with 0. rewrite Hf. unfold apart in Hap.
    destruct (Z.ltb_spec (zlen x + 1) maxlen); [|lia].
    eexists _, _, _. split; [done|]. split; [done|]. split; [|split; [lia|split]].
    + apply (only_trans _ (write m str (x ++ [c])) _ _ _ str maxlen); try lia;
        apply only_write; simpl_zlen; lia.
    + rewrite write_app, write_over by done. rewrite <- write_app. apply arr_write.
    + apply queue_frame; [|cbn; simpl_zlen; lia|done]. destruct Hwf.
      split; cbn; auto using allocated_write.
  - rewrite Hl. cbn [mbind option_bind negb]. destruct (Z.eqb_spec maxlen 0); [lia|]. cbn [negb].
    assert (only m m' str maxlen) as Ho' by (destruct Ho as [? Ho]; split; [done|]; intros; apply Ho; lia).
    unfold apart in Hap.
    assert (is_Some (m' !! str)) as Hstr by (apply Ho; eapply allocated_at, Hal; lia).
    rewrite store_ok by done. cbn [mbind option_bind]. change (u8 0) with 0.
    exists 0, (write m' str [0]), mb. split; [done|]. split; [done|]. split.
    { apply (only_trans _ m' _ _ _ str maxlen); try done; try lia.
      apply only_write; simpl_zlen; lia. }
    assert (queue (write m' str [0]) mb q).
    { apply (queue_ext m); [done| |done]. intros p Hp.
      rewrite write_lookup_out by (simpl_zlen; lia). apply Ho. lia. }
    pose proof (arr_write m' str [0]).
    destruct (first_line minch q) as [[[x c] y]|] eqn:Ef; [|done].
    specialize (Hno _ _ _ eq_refl). destruct (Z.ltb_spec (zlen x + 1) maxlen); [lia|done].
Qed.

(** ** [membuff_extend_by] *)
Lemma extend_grow_ok f size target :
  0 < size -> target <= 2 ^ 30 -> target <= size * 2 ^ Z.of_nat f ->
  exists r, extend_grow (S f) size target = Some r /\ size <= r /\ target <= r /\
    (r = size \/ r < 2 * target).
Proof.
  revert size. induction f as [|f IH]; intros size Hs Ht Hf; cbn [extend_grow].
  - destruct (Z.ltb_spec size target); [cbn in Hf; lia|]. eexists. split; [done|lia].
  - destruct (Z.ltb_spec size target); [|eexists; split; [done|lia]].
    destruct (Z.leb_spec (size * 2) INT_MAX); [|unfold INT_MAX in *; lia].
    destruct (IH (size * 2)) as (r & Hr & ?); [lia|done| |].
    + rewrite Nat2Z.inj_succ, Z.pow_succ_r in Hf by lia. lia.
    + exists r. split; [exact Hr|lia].
Qed.

(** What [realloc] promises: NULL and nothing changed, or a mapped block that
    starts with the old bytes (as many as fit in the new size). *)
Definition realloc_ok (realloc : mem -> Z -> Z -> Z * mem) : Prop :=
  forall m p l size, arr m p l -> zlen l <= size -> mem_bytes m ->
    realloc m p size = (0, m) \/
    exists ptr m', realloc m p size = (ptr, m') /\ 0 < ptr /\ allocated m' ptr size /\
      arr m' ptr l /\ mem_bytes m'.

Lemma allocated_arr m p n : 0 <= n -> allocated m p n -> exists l, arr m p l /\ zlen l = n.
Proof.
  intros Hn [l [Hl Ha]%load_range_Some]%allocated_load_range.
  exists l. split; [done|]. unfold zlen. lia.
Qed.

(** The same bytes at another address hold the same queue. *)
Lemma queue_move m m' mb q ptr l :
  wf m mb -> arr m (start mb) l -> zlen l = end_ mb - start mb -> arr m' ptr l ->
  queue m mb q ->
  queue m' (Membuff ptr (ptr + zlen l) (ptr + (head mb - start mb)) (ptr + (tail mb - start mb))) q.
Proof.
  intros [H0 Hh Ht _] Ha Hl Ha' Hq.
  assert (forall p k, start mb <= p -> p + zlen k <= end_ mb -> arr m p k -> arr m' (ptr + (p - start mb)) k)
    as Hmv.
  { intros p k Hp Hk Hak i Hi. rewrite <- (Hak i Hi).
    replace (ptr + (p - start mb) + i) with (ptr + (p - start mb + i)) by lia.
    replace (p + i) with (start mb + (p - start mb + i)) by lia. rewrite Ha, Ha' by lia. done. }
  unfold queue in *. cbn. destruct (decide (tail mb <= head mb)).
  - rewrite decide_True by lia. destruct Hq as [Hq Hz]. split; [|lia]. apply Hmv; (lia || done).
  - rewrite decide_False by lia. destruct Hq as (q1 & q2 & -> & Ha1 & Hl1 & Ha2 & Hl2).
    exists q1, q2. split; [done|]. split; [apply Hmv; (lia || done)|]. split; [lia|].
    split; [|lia]. specialize (Hmv (start mb) q2). rewrite Z.sub_diag, Z.add_0_r in Hmv.
    apply Hmv; (lia || done).
Qed.

(** [membuff_extend_by] on a buffer with contents [q] either enlarges the
    block, keeping the contents in order, with a size of at least the one asked
    for (or the given maximum), or reports an error and leaves the buffer as it
    was.  The doubling loop ends for every non-empty buffer up to 2^30 bytes. *)
Theorem membuff_extend_by_spec realloc m mb q by_ max :
  realloc_ok realloc -> wf m mb -> queue m mb q -> mem_bytes m -> 0 <= by_ ->
  end_ mb - start mb + by_ <= 2 ^ 30 ->
  exists r m' mb', membuff_extend_by realloc m mb by_ max = Some (r, m', mb') /\
    (r = 0 /\ wf m' mb' /\ queue m' mb' q /\ membuff_size mb < membuff_size mb' /\
       (max = -1 \/ membuff_size mb + by_ <= max -> membuff_size mb + by_ <= membuff_size mb') \/
     (r = - E2BIG \/ r = - ENOMEM) /\ mb' = mb /\ m' = m).
Proof.
  intros Hre Hwf Hq Hm Hby Hmax. pose proof Hwf as [H0 Hh Ht Hal]. unfold membuff_extend_by.
  destruct (Z.ltb_spec INT_MAX (end_ mb - start mb + by_)); [unfold INT_MAX in *; lia|].
  destruct (extend_grow_ok 31 (end_ mb - start mb) (end_ mb - start mb + by_))
    as (sz & Hg & Hsz1 & Hsz2 & _); [lia|done| |].
  { change (2 ^ Z.of_nat 31) with 2147483648. change (2 ^ 30) with 1073741824 in *. lia. }
  rewrite Hg. cbn [mbind option_bind].
  set (size := if negb (max =? -1) then Z.min sz max else sz).
  assert (max = -1 \/ membuff_size mb + by_ <= max -> membuff_size mb + by_ <= size) as Hsize
    by (unfold size, membuff_size; destruct (Z.eqb_spec max (-1)); cbn; lia).
  clearbody size. destruct (Z.leb_spec (size - (end_ mb - start mb)) 0).
  { eexists _, _, _. split; [done|]. right. auto. }
  destruct (allocated_arr m (start mb) (end_ mb - start mb)) as (l & Hl & Hlz); [lia|done|].
  destruct (Hre m (start mb) l size Hl ltac:(lia) Hm) as [->|(ptr & m' & -> & Hp & Hal' & Hl' & Hm')].
  { cbn. eexists _, _, _. split; [done|]. right. auto. }
  destruct (Z.eqb_spec ptr 0); [lia|].
  pose proof (queue_move _ _ _ _ _ _ Hwf Hl Hlz Hl' Hq) as Hqm. rewrite Hlz in Hqm.
  unfold queue in Hqm. cbn in Hqm.
  destruct (Z.ltb_spec (ptr + (head mb - start mb)) (ptr + (tail mb - start mb))).
  - rewrite decide_False in Hqm by lia. destruct Hqm as (q1 & q2 & -> & Ha1 & Hl1 & Ha2 & Hl2).
    replace (end_ mb - start mb - (tail mb - start mb)) with (zlen q1) by lia.
    rewrite memmove_ok; [|done|eauto using arr_mem_bytes|eapply allocated_sub, Hal'; lia].
    cbn [mbind option_bind]. eexists _, _, _. split; [done|]. left. split; [done|].
    unfold membuff_size in *. cbn. split; [|split; [|lia]].
    + split; cbn; [lia..|]. replace (ptr + size - ptr) with size by lia. by apply allocated_write.
    + unfold queue. cbn. rewrite decide_False by lia. exists q1, q2.
      split; [done|]. split; [apply arr_write|]. split; [lia|]. split; [|lia].
      apply arr_write_frame; [lia|done].
  - eexists _, _, _. split; [done|]. left. split; [done|]. unfold membuff_size in *. cbn.
    split; [|split; [|lia]].
    + split; cbn; [lia..|]. by replace (ptr + size - ptr) with size by lia.
    + unfold queue. cbn. rewrite decide_True in Hqm |- * by lia. done.
Qed.

(** On a buffer whose block is empty ([start = end]) the doubling loop of
    [membuff_extend_by] never reaches the wanted size: whatever the number of
    rounds, it is still running. *)
Theorem membuff_extend_empty_diverges f target : 0 < target -> extend_grow f 0 target = None.
Proof.
  intros Ht. induction f as [|f IH]; cbn [extend_grow]; [done|].
  destruct (Z.ltb_spec 0 target); [exact IH|lia].
Qed.

(** ** The whole interface against an abstract queue *)
Module Fifo.

Inductive call :=
| CPut (d : list Z) | CGet (n : Z) | CPutByte (c : Z) | CGetByte | CPeekByte
| CAvail | CFree | CIsEmpty | CPurge | CMakeContig.

Inductive answer := ANum (n : Z) | ABool (b : bool) | ABytes (l : list Z) | ANone.

(** The specification: a queue of at most [cap] bytes. *)
Definition spec_step (cap : Z) (c : call) (q : list Z) : answer * list Z :=
  match c with
  | CPut d => let n := Z.min (zlen d) (cap - zlen q) in (ANum n, q ++ take (Z.to_nat n) d)
  | CGet n => (ABytes (take (Z.to_nat n) q), drop (Z.to_nat n) q)
  | CPutByte b => if zlen q <? cap then (ABool true, q ++ [u8 b]) else (ABool false, q)
  | CGetByte => match q with [] => (ANum (-1), []) | b :: q => (ANum b, q) end
  | CPeekByte => (match q with [] => ANum (-1) | b :: _ => ANum b end, q)
  | CAvail => (ANum (zlen q), q)
  | CFree => (ANum (cap - zlen q), q)
  | CIsEmpty => (ABool (zlen q =? 0), q)
  | CPurge => (ANone, [])
  | CMakeContig => (ANone, q)
  end.

Fixpoint spec_run (cap : Z) (cs : list call) (q : list Z) : list answer :=
  match cs with
  | [] => []
  | c :: cs => let '(a, q') := spec_step cap c q in a :: spec_run cap cs q'
  end.

Section Client.
(** The caller's input and output buffers, [N] bytes each. *)
Context (ib ob N : Z).

(** The implementation: the caller fills its input buffer before a [put] and reads
    its output buffer after a [get]. *)
Definition impl_step (c : call) (m : mem) (mb : membuff) : option (answer * mem * membuff) :=
  match c with
  | CPut d => '(n, m, mb) ← membuff_put (write m ib d) mb ib (zlen d); Some (ANum n, m, mb)
  | CGet n => '(k, m, mb) ← membuff_get m mb ob n;
              l ← load_range m ob (Z.to_nat k); Some (ABytes l, m, mb)
  | CPutByte b => '(ok, m, mb) ← membuff_putbyte m mb b; Some (ABool ok, m, mb)
  | CGetByte => '(b, mb) ← membuff_getbyte m mb; Some (ANum b, m, mb)
  | CPeekByte => b ← membuff_peekbyte m mb; Some (ANum b, m, mb)
  | CAvail => Some (ANum (membuff_avail mb), m, mb)
  | CFree => Some (ANum (membuff_free mb), m, mb)
  | CIsEmpty => Some (ABool (membuff_isempty mb), m, mb)
  | CPurge => Some (ANone, m, membuff_purge mb)
  | CMakeContig => '(_, m, mb) ← membuff_makecontig m mb; Some (ANone, m, mb)
  end.

Fixpoint impl_run (cs : list call) (m : mem) (mb : membuff) : option (list answer) :=
  match cs with
  | [] => Some []
  | c :: cs => '(a, m, mb) ← impl_step c m mb; l ← impl_run cs m mb; Some (a :: l)
  end.

(** Calls with arguments the caller's buffers can hold. *)
Definition call_ok (c : call) : Prop :=
  match c with
  | CPut d => Forall is_byte d /\ zlen d <= N
  | CGet n => 0 <= n <= N
  | _ => True
  end.

(** The simulation relation. *)
Record sim (m : mem) (mb : membuff) (cap : Z) (q : list Z) : Prop := {
  sim_wf : wf m mb;
  sim_queue : queue m mb q;
  sim_cap : capacity mb = cap;
  sim_bytes : mem_bytes m;
  sim_ob : 0 < ob /\ apart mb ob N /\ allocated m ob N;
  sim_ib : apart mb ib N
}.

Lemma limit_nonneg n k : 0 <= n -> limit n k = Z.min n k.
Proof. intros. unfold limit. destruct (Z.ltb_spec n 0); lia. Qed.

(** Changing the ring's pointers and only bytes of the ring keeps the rest. *)
Lemma sim_change m mb cap q m' mb' q' :
  sim m mb cap q -> same_block mb mb' -> wf m' mb' -> queue m' mb' q' -> mem_bytes m' ->
  (forall p, ~ (start mb <= p < end_ mb) -> m' !! p = m !! p) -> sim m' mb' cap q'.
Proof.
  intros [Hwf Hq Hc Hm (Hob & Hap & Hal) Hib] [Es Ee] Hwf' Hq' Hm' He.
  unfold apart, capacity in *. split; unfold apart, capacity; try done; rewrite ?Es, ?Ee; try done.
  split; [done|]. split; [done|]. intros i Hi. rewrite He by lia. by apply Hal.
Qed.

Lemma impl_step_sim c m mb cap q :
  sim m mb cap q -> call_ok c ->
  exists m' mb', impl_step c m mb = Some (fst (spec_step cap c q), m', mb') /\
    sim m' mb' cap (snd (spec_step cap c q)).
Proof.
  intros Hsim Hc. pose proof Hsim as [Hwf Hq Hcap Hm (Hob & Hap & Hal) Hib].
  pose proof (queue_length _ _ _ Hwf Hq) as Hlen. destruct c; cbn [impl_step spec_step call_ok] in *.
  - destruct Hc as [Hd Hn]. unfold apart in Hib. pose proof (zlen_nonneg d).
    destruct (membuff_put_ok (write m ib d) mb q ib d) as (m' & mb' & n & -> & -> & Hb & Hwf' & Hq' & Hm' & He);
      auto using wf_write, arr_write. { apply queue_frame; [done|lia|done]. } { unfold apart. lia. }
    cbn. rewrite <- Hcap. eexists _, _. split; [done|]. cbn.
    destruct Hsim as [_ _ _ _ _ _]. split; auto using mem_bytes_write.
    + destruct Hb as [Es Ee]. unfold capacity. by rewrite Es, Ee.
    + destruct Hb as [Es Ee]. unfold apart in *. rewrite Es, Ee. split; [done|]. split; [done|].
      intros i Hi. rewrite He by lia. by apply (allocated_write m ib d ob N).
    + destruct Hb as [Es Ee]. unfold apart. rewrite Es, Ee. lia.
  - assert (limit n (zlen q) = Z.min n (zlen q)) as El by (apply limit_nonneg; lia).
    destruct (membuff_get_ok m mb q ob n) as (a & b & mb' & E & Hza & -> & Hb & Hwf' & Hq'); auto.
    { unfold apart in *. rewrite El. lia. } { rewrite El. eapply allocated_sub, Hal; lia. }
    cbn. unfold zlen at 1. rewrite Nat2Z.id, load_range_arr by apply arr_write. cbn.
    assert (take (Z.to_nat n) q = a /\ drop (Z.to_nat n) q = b) as [-> ->].
    { subst q. rewrite El in Hza. simpl_zlen. pose proof (zlen_nonneg b).
      destruct (decide (n <= zlen a)).
      - replace n with (zlen a) by lia. by rewrite take_zlen, drop_zlen.
      - destruct b; [|simpl_zlen; pose proof (zlen_nonneg b); lia]. rewrite app_nil_r.
        unfold zlen in *. by rewrite take_ge, drop_ge by lia. }
    eexists _, _. split; [done|]. destruct Hb as [Es Ee]. split; auto using allocated_write.
    + unfold capacity. by rewrite Es, Ee.
    + apply mem_bytes_write; [done|]. pose proof (queue_bytes _ _ _ Hm Hq) as Hqb.
      rewrite E in Hqb. by apply Forall_app in Hqb as [? _].
    + unfold apart in *. rewrite Es, Ee. auto using allocated_write.
    + unfold apart. by rewrite Es, Ee.
  - destruct (membuff_putbyte_ok m mb q c Hwf Hq) as (m' & mb' & ok & -> & -> & Hb & Hwf' & Hq' & Hm' & He).
    rewrite Hcap in *. cbn. destruct (Z.ltb_spec (zlen q) cap).
    + rewrite bool_decide_eq_true_2 in * by done. eexists _, _. split; [done|]. by eapply sim_change; eauto.
    + rewrite bool_decide_eq_false_2 in * by lia. eexists _, _. split; [done|]. by eapply sim_change; eauto.
  - pose proof (membuff_getbyte_ok m mb q Hwf Hq) as Hg. destruct q as [|b q].
    + destruct Hg as [-> _]. cbn. eauto.
    + destruct Hg as (mb' & -> & _ & Hb & Hwf' & Hq'). cbn. eexists _, _. split; [done|].
      by eapply sim_change; eauto.
  - pose proof (membuff_getbyte_ok m mb q Hwf Hq) as Hg. destruct q as [|b q].
    + destruct Hg as [_ ->]. cbn. eauto.
    + destruct Hg as (mb' & _ & -> & _). cbn. eauto.
  - rewrite (membuff_avail_ok m mb q) by done. cbn. eauto.
  - unfold membuff_free. rewrite (membuff_avail_ok m mb q) by done.
    destruct (Z.eqb_spec (end_ mb) (start mb)); [destruct Hwf; lia|]. unfold capacity in Hcap.
    rewrite Hcap. cbn. eauto.
  - assert (membuff_isempty mb = (zlen q =? 0)) as ->; [|eauto].
    rewrite (queue_used _ _ _ Hq). destruct Hwf. unfold membuff_isempty, used.
    cases_bool; (done || lia).
  - eexists _, _. split; [done|]. cbn. eapply sim_change; [done|done| | |done|done].
    + destruct Hwf. split; cbn; auto; lia.
    + unfold queue. cbn. rewrite decide_True by lia. split; [apply arr_nil|simpl_zlen; lia].
  - destruct (membuff_makecontig_ok m mb q Hwf Hq Hm) as (ok & m' & mb' & -> & _ & Hb & Hwf' & Hq' & _ & Hm' & He).
    cbn. eexists _, _. split; [done|]. by eapply sim_change; eauto.
Qed.

Lemma impl_run_sim cs m mb cap q :
  sim m mb cap q -> Forall call_ok cs -> impl_run cs m mb = Some (spec_run cap cs q).
Proof.
  revert m mb q. induction cs as [|c cs IH]; intros m mb q Hs Hc; cbn; [done|].
  inversion_clear Hc. destruct (impl_step_sim c m mb cap q) as (m' & mb' & -> & Hs'); [done..|].
  cbn. rewrite (IH m' mb' (snd (spec_step cap c q))) by done. cbn.
  by destruct (spec_step cap c q).
Qed.

End Client.
End Fifo.

(** [membuff_put] of the bytes [d] (in a block apart from the ring) writes
    [min (length d) (free)] of them behind the contents, across the end of the
    block where needed, returns that number, and touches no byte outside the
    ring's block. *)
Theorem membuff_put_spec m mb q buff d :
  wf m mb -> queue m mb q -> arr m buff d -> Forall is_byte d -> apart mb buff (zlen d) ->
  exists m' mb' n, membuff_put m mb buff (zlen d) = Some (n, m', mb') /\
    n = Z.min (zlen d) (capacity mb - zlen q) /\
    wf m' mb' /\ queue m' mb' (q ++ take (Z.to_nat n) d) /\
    forall p, ~ (start mb <= p < end_ mb) -> m' !! p = m !! p.
Proof.
  intros Hwf Hq Ha Hb Hap.
  destruct (membuff_put_ok m mb q buff d) as (m' & mb' & n & ? & ? & _ & ? & ? & _ & ?); [done..|].
  by exists m', mb', n.
Qed.

(** [membuff_get] takes the oldest bytes out of the ring, at most [maxlen] of
    them (all of them for a negative [maxlen]), copies them to the caller's block
    and returns their number; the contents that remain are the rest. *)
Theorem membuff_get_spec m mb q buff maxlen :
  wf m mb -> queue m mb q -> mem_bytes m -> 0 < buff ->
  apart mb buff (limit maxlen (zlen q)) -> allocated m buff (limit maxlen (zlen q)) ->
  exists a b mb', q = a ++ b /\ zlen a = limit maxlen (zlen q) /\
    membuff_get m mb buff maxlen = Some (zlen a, write m buff a, mb') /\
    wf (write m buff a) mb' /\ queue (write m buff a) mb' b.
Proof.
  intros Hwf Hq Hm Hb Hap Hal.
  destruct (membuff_get_ok m mb q buff maxlen) as (a & b & mb' & ? & ? & ? & _ & ? & ?); [done..|].
  by exists a, b, mb'.
Qed.

(** Refinement: any sequence of [put], [get], single-byte, query, purge and
    [makecontig] calls on a freshly initialised ring of [size] bytes runs without a
    stray access and answers exactly what a FIFO queue of capacity [size - 1]
    answers. *)
Theorem membuff_refines_fifo ib ob N m buff size cs :
  0 < buff -> 0 < size -> allocated m buff size -> mem_bytes m ->
  0 < ob -> allocated m ob N -> ob + N <= buff \/ buff + size <= ob ->
  ib + N <= buff \/ buff + size <= ib -> Forall (Fifo.call_ok N) cs ->
  Fifo.impl_run ib ob cs m (membuff_init buff size) = Some (Fifo.spec_run (size - 1) cs []).
Proof.
  intros Hbuff Hsize Hal Hm Hob Halo Hapo Hapi Hcs.
  apply Fifo.impl_run_sim with N; [|done]. split; cbn.
  - split; cbn; try lia. by replace (buff + size - buff) with size by lia.
  - unfold queue. cbn. rewrite decide_True by lia. split; [apply arr_nil|simpl_zlen; lia].
  - unfold capacity. cbn. lia.
  - done.
  - done.
  - done.
Qed.

(** ** Witnesses *)
(** A ring of 8 bytes at 64 (a block of zeros before it and after it), wrapped:
    the contents are 1 2 3 10 5. *)
Definition ring_mem : mem :=
  write (write ∅ 16 (replicate 64 0)) 64 [10; 5; 0; 0; 0; 1; 2; 3].
Definition ring : membuff := Membuff 64 72 66 69.

Lemma ring_wf : wf ring_mem ring.
Proof. split; cbn; [lia..|by_eval]. Qed.

Lemma ring_queue : queue ring_mem ring [1; 2; 3; 10; 5].
Proof.
  unfold queue. cbn. exists [1; 2; 3], [10; 5]. split; [done|]. split; [by_eval|].
  split; [done|]. split; [by_eval|done].
Qed.

Lemma membuff_readline_spec_witness :
  exists n m' mb', membuff_readline ring_mem ring 16 8 0 = Some (n, m', mb') /\
    same_block ring mb' /\ only ring_mem m' 16 8 /\
    n = 4 /\ arr m' 16 [1; 2; 3; 0] /\ queue m' mb' [5].
Proof.
  apply (membuff_readline_spec ring_mem ring [1; 2; 3; 10; 5] 16 8 0);
    [exact ring_wf|exact ring_queue|by_eval|lia|by_eval|left; cbn; lia].
Defined.

Lemma membuff_put_spec_witness :
  exists m' mb' n, membuff_put ring_mem ring 16 4 = Some (n, m', mb') /\
    n = Z.min 4 (7 - 5) /\ wf m' mb' /\
    queue m' mb' ([1; 2; 3; 10; 5] ++ take (Z.to_nat n) [0; 0; 0; 0]) /\
    forall p, ~ (64 <= p < 72) -> m' !! p = ring_mem !! p.
Proof.
  apply (membuff_put_spec ring_mem ring [1; 2; 3; 10; 5] 16 [0; 0; 0; 0]);
    [exact ring_wf|exact ring_queue|by_eval|by_eval|left; vm_compute; congruence].
Defined.

Lemma membuff_get_spec_witness :
  exists a b mb', [1; 2; 3; 10; 5] = a ++ b /\ zlen a = limit 4 5 /\
    membuff_get ring_mem ring 16 4 = Some (zlen a, write ring_mem 16 a, mb') /\
    wf (write ring_mem 16 a) mb' /\ queue (write ring_mem 16 a) mb' b.
Proof.
  apply (membuff_get_spec ring_mem ring [1; 2; 3; 10; 5] 16 4);
    [exact ring_wf|exact ring_queue|by_eval|lia|left; vm_compute; congruence|by_eval].
Defined.

Lemma membuff_refines_fifo_witness :
  Fifo.impl_run 16 32 [Fifo.CPut [1; 2; 3; 4; 5]; Fifo.CGet 4; Fifo.CPut [6; 7; 8]; Fifo.CGetByte]
    ring_mem (membuff_init 64 8) =
  Some [Fifo.ANum 5; Fifo.ABytes [1; 2; 3; 4]; Fifo.ANum 3; Fifo.ANum 5].
Proof.
  apply (membuff_refines_fifo 16 32 8 ring_mem 64 8
    [Fifo.CPut [1; 2; 3; 4; 5]; Fifo.CGet 4; Fifo.CPut [6; 7; 8]; Fifo.CGetByte]);
    [lia|lia|by_eval|by_eval|lia|by_eval|lia|lia|].
  repeat constructor; (lia || (vm_compute; congruence)).
Defined.

(** A concrete [realloc]: the old bytes, padded with zeros, at address 4096. *)
Fixpoint mapped_prefix (m : mem) (p : Z) (n : nat) : list Z :=
  match n with
  | O => []
  | S n => match m !! p with Some b => b :: mapped_prefix m (p + 1) n | None => 0 :: mapped_prefix m (p + 1) n end
  end.
Definition demo_realloc (m : mem) (p size : Z) : Z * mem :=
  (4096, write m 4096 (mapped_prefix m p (Z.to_nat size))).

Lemma mapped_prefix_ok m p n :
  length (mapped_prefix m p n) = n /\ (mem_bytes m -> Forall is_byte (mapped_prefix m p n)) /\
  forall l, arr m p l -> (length l <= n)%nat -> exists k, mapped_prefix m p n = l ++ k.
Proof.
  revert p. induction n as [|n IH]; intros p; cbn.
  - split; [done|]. split; [constructor|]. intros [|]; [eauto|cbn; lia].
  - destruct (IH (p + 1)) as (Hl & Hb & Hp).
    assert (forall l, arr m p l -> (length l <= S n)%nat -> l = [] \/ exists b l', l = b :: l' /\
      m !! p = Some b /\ arr m (p + 1) l' /\ (length l' <= n)%nat) as Hcase.
    { intros [|b l'] Ha Hlen; [by left|]. right. exists b, l'. apply arr_cons in Ha as [? ?].
      cbn in Hlen. repeat split; (done || lia). }
    destruct (m !! p) as [b|] eqn:Hmp; cbn; (split; [lia|]); (split; [intros Hm; constructor; auto; eauto || done|]).
    + intros l Ha Hlen. destruct (Hcase l Ha Hlen) as [->|(b' & l' & -> & [= <-] & Ha' & Hl')]; [by eexists|].
      destruct (Hp l' Ha' Hl') as [k ->]. by exists k.
    + intros l Ha Hlen. destruct (Hcase l Ha Hlen) as [->|(b' & l' & _ & ? & _)]; [by eexists|done].
Qed.

Lemma demo_realloc_ok : realloc_ok demo_realloc.
Proof.
  intros m p l size Ha Hl Hm. right. pose proof (zlen_nonneg l).
  destruct (mapped_prefix_ok m p (Z.to_nat size)) as (Hlen & Hb & Hp).
  eexists _, _. split; [done|]. split; [lia|]. split; [|split].
  - eapply allocated_sub, arr_allocated, arr_write; unfold zlen in *; lia.
  - destruct (Hp l Ha ltac:(unfold zlen in *; lia)) as [k ->].
    by destruct (proj1 (arr_app _ _ _ _) (arr_write m 4096 (l ++ k))).
  - auto using mem_bytes_write.
Qed.

Lemma membuff_extend_by_spec_witness :
  exists r m' mb', membuff_extend_by demo_realloc ring_mem ring 8 (-1) = Some (r, m', mb') /\
    (r = 0 /\ wf m' mb' /\ queue m' mb' [1; 2; 3; 10; 5] /\ 8 < membuff_size mb' /\
       (-1 = -1 \/ 8 + 8 <= -1 -> 8 + 8 <= membuff_size mb') \/
     (r = - E2BIG \/ r = - ENOMEM) /\ mb' = ring /\ m' = ring_mem).
Proof.
  apply (membuff_extend_by_spec demo_realloc ring_mem ring [1; 2; 3; 10; 5] 8 (-1));
    [exact demo_realloc_ok|exact ring_wf|exact ring_queue|by_eval|lia|cbn; lia].
Defined.

Lemma membuff_extend_empty_diverges_witness : extend_grow 32 0 16 = None.
Proof. apply (membuff_extend_empty_diverges 32 16). lia. Defined.
