(* ===== verification/Lmb.v ===== *)
(** * Logical memory blocks: lib/lmb.c

    [struct lmb_region] is a counter and an array of [MAX_LMB_REGIONS + 1]
    entries; addresses and sizes are 64-bit and wrap.  An array access out of
    range is undefined in C: the operation returns [None].  Operations that
    change a table return it beside the C return value. *)

From Stdlib Require Import ZArith Lia.
From stdpp Require Import base option list numbers.
From S2P Require Import Prelude.
Open Scope Z_scope.
Open Scope cint_scope.

Module Lmb.

Definition MAX_LMB_REGIONS := 8.
Definition LMB_ALLOC_ANYWHERE := 0.

Record lmb_property := Prop_ { base : Z; size : Z }.
Record lmb_region := Region { cnt : Z; rsize : Z; region : list lmb_property }.
Record lmb := Lmb_ { memory : lmb_region; reserved : lmb_region }.

#[global] Instance lmb_property_eq_dec : EqDecision lmb_property.
Proof. solve_decision. Defined.
#[global] Instance lmb_region_eq_dec : EqDecision lmb_region.
Proof. solve_decision. Defined.
#[global] Instance lmb_eq_dec : EqDecision lmb.
Proof. solve_decision. Defined.

(** [rgn->region[i]], read and written. *)
Definition get (rgn : lmb_region) (i : Z) : option lmb_property :=
  if i <? 0 then None else region rgn !! Z.to_nat i.
Definition set (rgn : lmb_region) (i : Z) (p : lmb_property) : option lmb_region :=
  if (0 <=? i) && (i <? zlen (region rgn)) then
    Some (Region (cnt rgn) (rsize rgn) (<[Z.to_nat i := p]> (region rgn)))
  else None.
Definition set_cnt (rgn : lmb_region) (n : Z) : lmb_region := Region n (rsize rgn) (region rgn).

Definition lmb_addrs_overlap (base1 size1 base2 size2 : Z) : bool :=
  (base1 <? base2 +u64 size2) && (base2 <? base1 +u64 size1).

Definition lmb_addrs_adjacent (base1 size1 base2 size2 : Z) : Z :=
  if base2 =? base1 +u64 size1 then 1
  else if base1 =? base2 +u64 size2 then -1
  else 0.

Definition lmb_regions_adjacent (rgn : lmb_region) (r1 r2 : Z) : option Z :=
  p1 ← get rgn r1; p2 ← get rgn r2;
  Some (lmb_addrs_adjacent (base p1) (size p1) (base p2) (size p2)).

(** Each round reads entry [i + 1], so the loop ends or leaves the array within
    as many rounds as the array has entries. *)
Fixpoint lmb_remove_loop (f : nat) (rgn : lmb_region) (i : Z) : option lmb_region :=
  match f with
  | O => None
  | S f =>
      if i <? cnt rgn -u64 1 then
        p ← get rgn (i + 1); rgn ← set rgn i p; lmb_remove_loop f rgn (i + 1)
      else Some rgn
  end.
Definition lmb_remove_region (rgn : lmb_region) (r : Z) : option lmb_region :=
  rgn ← lmb_remove_loop (S (length (region rgn))) rgn r; Some (set_cnt rgn (cnt rgn -u64 1)).

Definition lmb_coalesce_regions (rgn : lmb_region) (r1 r2 : Z) : option lmb_region :=
  p1 ← get rgn r1; p2 ← get rgn r2;
  rgn ← set rgn r1 (Prop_ (base p1) (size p1 +u64 size p2));
  lmb_remove_region rgn r2.

(** The two tables before the call hold arbitrary bytes: the argument. *)
Definition lmb_init (l : lmb) : option lmb :=
  mem ← set (memory l) 0 (Prop_ 0 0);
  res ← set (reserved l) 0 (Prop_ 0 0);
  Some (Lmb_ (Region 1 0 (region mem)) (Region 1 0 (region res))).

(** The first loop of [lmb_add_region]: the table, [i] and [coalesced] at its exit,
    or the early return when the region is already there. *)
Inductive coalesce_exit :=
| AlreadyThere
| LoopExit (rgn : lmb_region) (i coalesced : Z).

Fixpoint lmb_coalesce_loop (f : nat) (rgn : lmb_region) (b s i : Z) : option coalesce_exit :=
  match f with
  | O => None
  | S f =>
      if i <? cnt rgn then
        p ← get rgn i;
        if (base p =? b) && (size p =? s) then Some AlreadyThere
        else
          let adjacent := lmb_addrs_adjacent b s (base p) (size p) in
          if 0 <? adjacent then
            rgn ← set rgn i (Prop_ (base p -u64 s) (size p +u64 s)); Some (LoopExit rgn i 1)
          else if adjacent <? 0 then
            rgn ← set rgn i (Prop_ (base p) (size p +u64 s)); Some (LoopExit rgn i 1)
          else lmb_coalesce_loop f rgn b s (i + 1)
      else Some (LoopExit rgn i 0)
  end.

(** The insertion loop: [k] rounds are left, with [i = k - 1, k - 2, ..., 0]. *)
Fixpoint lmb_insert_loop (k : nat) (rgn : lmb_region) (b s : Z) : option lmb_region :=
  match k with
  | O => Some rgn
  | S k =>
      p ← get rgn (Z.of_nat k);
      if b <? base p then
        rgn ← set rgn (Z.of_nat k + 1) p; lmb_insert_loop k rgn b s
      else set rgn (Z.of_nat k + 1) (Prop_ b s)
  end.

Definition lmb_add_region (rgn : lmb_region) (b s : Z) : option (Z * lmb_region) :=
  p0 ← get rgn 0;
  if (cnt rgn =? 1) && (size p0 =? 0) then rgn ← set rgn 0 (Prop_ b s); Some (0, rgn)
  else
    e ← lmb_coalesce_loop (S (length (region rgn))) rgn b s 0;
    match e with
    | AlreadyThere => Some (0, rgn)
    | LoopExit rgn i coalesced =>
        adj ← if i <? cnt rgn -u64 1 then lmb_regions_adjacent rgn i (i + 1) else Some 0;
        '(rgn, coalesced) ←
          if negb (adj =? 0)
          then rgn ← lmb_coalesce_regions rgn i (i + 1); Some (rgn, coalesced + 1)
          else Some (rgn, coalesced);
        if negb (coalesced =? 0) then Some (coalesced, rgn)
        else if MAX_LMB_REGIONS <=? cnt rgn then Some (-1, rgn)
        else
          rgn ← lmb_insert_loop (Z.to_nat (cnt rgn)) rgn b s;
          p0 ← get rgn 0;
          rgn ← if b <? base p0 then set rgn 0 (Prop_ b s) else Some rgn;
          Some (0, set_cnt rgn (cnt rgn +u64 1))
    end.

Definition lmb_add (l : lmb) (b s : Z) : option (Z * lmb) :=
  '(r, rgn) ← lmb_add_region (memory l) b s; Some (r, Lmb_ rgn (reserved l)).

(** The search loop of [lmb_free]: [i], [rgnbegin] and [rgnend] at its exit. *)
Fixpoint lmb_free_loop (f : nat) (rgn : lmb_region) (b e i rgnbegin rgnend : Z)
    : option (Z * Z * Z) :=
  match f with
  | O => None
  | S f =>
      if i <? cnt rgn then
        p ← get rgn i;
        let rgnbegin := base p in
        let rgnend := rgnbegin +u64 size p in
        if (rgnbegin <=? b) && (e <=? rgnend) then Some (i, rgnbegin, rgnend)
        else lmb_free_loop f rgn b e (i + 1) rgnbegin rgnend
      else Some (i, rgnbegin, rgnend)
  end.

Definition lmb_free_region (rgn : lmb_region) (b s : Z) : option (Z * lmb_region) :=
  let e := b +u64 s in
  '(i, rgnbegin, rgnend) ← lmb_free_loop (S (length (region rgn))) rgn b e 0 0 0;
  if i =? cnt rgn then Some (-1, rgn)
  else if (rgnbegin =? b) && (rgnend =? e) then
    rgn ← lmb_remove_region rgn i; Some (0, rgn)
  else
    p ← get rgn i;
    if rgnbegin =? b then rgn ← set rgn i (Prop_ e (size p -u64 s)); Some (0, rgn)
    else if rgnend =? e then rgn ← set rgn i (Prop_ (base p) (size p -u64 s)); Some (0, rgn)
    else
      rgn ← set rgn i (Prop_ (base p) (b -u64 base p));
      lmb_add_region rgn e (rgnend -u64 e).
Definition lmb_free (l : lmb) (b s : Z) : option (Z * lmb) :=
  '(r, rgn) ← lmb_free_region (reserved l) b s; Some (r, Lmb_ (memory l) rgn).

Definition lmb_reserve (l : lmb) (b s : Z) : option (Z * lmb) :=
  '(r, rgn) ← lmb_add_region (reserved l) b s; Some (r, Lmb_ (memory l) rgn).

Fixpoint lmb_overlaps_loop (f : nat) (rgn : lmb_region) (b s i : Z) : option Z :=
  match f with
  | O => None
  | S f =>
      if i <? cnt rgn then
        p ← get rgn i;
        if lmb_addrs_overlap b s (base p) (size p) then Some i
        else lmb_overlaps_loop f rgn b s (i + 1)
      else Some i
  end.
Definition lmb_overlaps_region (rgn : lmb_region) (b s : Z) : option Z :=
  i ← lmb_overlaps_loop (S (length (region rgn))) rgn b s 0;
  Some (if i <? cnt rgn then i else -1).

Definition lmb_align_down (addr s : Z) : Z := Z.land addr (u64 (Z.lnot (s -u64 1))).
Definition lmb_align_up (addr s : Z) : Z :=
  Z.land (addr +u64 (s -u64 1)) (u64 (Z.lnot (s -u64 1))).

(** The [while] loop of [__lmb_alloc_base] over one memory region.  The outcome:
    [Some (Some r)] is a [return r], [Some None] leaves the loop. *)
Fixpoint lmb_alloc_loop (f : nat) (l : lmb) (lmbbase b s align : Z)
    : option (option (Z * lmb)) :=
  match f with
  | O => None
  | S f =>
      if negb (b =? 0) && (lmbbase <=? b) then
        j ← lmb_overlaps_region (reserved l) b s;
        if j <? 0 then
          '(r, rgn) ← lmb_add_region (reserved l) b (lmb_align_up s align);
          let l' := Lmb_ (memory l) rgn in
          Some (Some (if r <? 0 then 0 else b, l'))
        else
          p ← get (reserved l) j;
          let res_base := base p in
          if res_base <? s then Some None
          else lmb_alloc_loop f l lmbbase (lmb_align_down (res_base -u64 s) align) s align
      else Some None
  end.

(** The [for] loop: [k] regions are left, [i = k - 1, ..., 0]. *)
Fixpoint __lmb_alloc_loop (k : nat) (l : lmb) (s align max_addr : Z) : option (Z * lmb) :=
  match k with
  | O => Some (0, l)
  | S k =>
      p ← get (memory l) (Z.of_nat k);
      let lmbbase := base p in
      let lmbsize := size p in
      if lmbsize <? s then __lmb_alloc_loop k l s align max_addr
      else
        let start :=
          if max_addr =? LMB_ALLOC_ANYWHERE
          then Some (lmb_align_down (u64 (lmbbase + lmbsize - s)) align)
          else if lmbbase <? max_addr then
            let b := lmbbase +u64 lmbsize in
            let b := if b <? lmbbase then u64 (-1) else b in
            let b := Z.min b max_addr in
            Some (lmb_align_down (b -u64 s) align)
          else None in
        match start with
        | None => __lmb_alloc_loop k l s align max_addr
        | Some b =>
            o ← lmb_alloc_loop (S (length (region (reserved l)))) l lmbbase b s align;
            match o with
            | Some r => Some r
            | None => __lmb_alloc_loop k l s align max_addr
            end
        end
  end.
Definition __lmb_alloc_base (l : lmb) (s align max_addr : Z) : option (Z * lmb) :=
  __lmb_alloc_loop (Z.to_nat (cnt (memory l))) l s align max_addr.

(** The failure message of [lmb_alloc_base] is not modelled. *)
Definition lmb_alloc_base (l : lmb) (s align max_addr : Z) : option (Z * lmb) :=
  __lmb_alloc_base l s align max_addr.
Definition lmb_alloc (l : lmb) (s align : Z) : option (Z * lmb) :=
  lmb_alloc_base l s align LMB_ALLOC_ANYWHERE.

Fixpoint lmb_is_reserved_loop (f : nat) (rgn : lmb_region) (addr i : Z) : option Z :=
  match f with
  | O => None
  | S f =>
      if i <? cnt rgn then
        p ← get rgn i;
        let upper := u64 (base p + size p - 1) in
        if (base p <=? addr) && (addr <=? upper) then Some 1
        else lmb_is_reserved_loop f rgn addr (i + 1)
      else Some 0
  end.
Definition lmb_is_reserved (l : lmb) (addr : Z) : option Z :=
  lmb_is_reserved_loop (S (length (region (reserved l)))) (reserved l) addr 0.

End Lmb.
