(* ===== verification/LmbProps.v ===== *)
(** * Properties of the logical memory blocks of [Lmb]

    A table of the code ([cnt] and an array) represents a list of regions
    ([table rgn l]); the theorems say what the operations do to the set of
    addresses the list covers. *)

From Stdlib Require Import ZArith Lia.
From stdpp Require Import base option list numbers sorting.
From S2P Require Import Prelude Lmb CMem.
Import Lmb.
Open Scope Z_scope.

(** ** Lists of regions *)
(** A region that is not empty and ends below 2^64. *)
Definition ok (p : lmb_property) : Prop := 0 <= base p /\ 0 < size p /\ base p + size p < 2 ^ 64.
Definition in_reg (a : Z) (p : lmb_property) : Prop := base p <= a < base p + size p.
Definition covers (l : list lmb_property) (a : Z) : Prop := exists p, p ∈ l /\ in_reg a p.

(** Ordered by base address; ordered and without overlap. *)
Definition by_base (p q : lmb_property) : Prop := base p <= base q.
Definition before (p q : lmb_property) : Prop := base p + size p <= base q.
Definition apart (p q : lmb_property) : Prop := before p q \/ before q p.

Lemma covers_app l k a : covers (l ++ k) a <-> covers l a \/ covers k a.
Proof. unfold covers. setoid_rewrite elem_of_app. firstorder. Qed.

Lemma covers_cons p l a : covers (p :: l) a <-> in_reg a p \/ covers l a.
Proof.
  unfold covers. setoid_rewrite elem_of_cons. split.
  - intros (q & [->|?] & ?); eauto.
  - intros [?|(q & ? & ?)]; eauto.
Qed.

Lemma covers_nil a : ~ covers [] a.
Proof. intros (p & Hp & _). by apply elem_of_nil in Hp. Qed.

(** ** Tables *)
(** The array starts with the regions [l]; [cnt] is their number. *)
Record raw (rgn : lmb_region) (l : list lmb_property) : Prop := {
  raw_length : length (region rgn) = 9%nat;
  raw_region : exists junk, region rgn = l ++ junk;
  raw_cnt : cnt rgn = zlen l;
  raw_max : zlen l <= 8
}.

(** The table of [lmb_init]: one region of size zero, which stands for none. *)
Definition dummy (rgn : lmb_region) : Prop :=
  length (region rgn) = 9%nat /\ cnt rgn = 1 /\ exists p junk, region rgn = p :: junk /\ base p = 0 /\ size p = 0.

Definition table (rgn : lmb_region) (l : list lmb_property) : Prop :=
  Forall ok l /\ (l <> [] /\ raw rgn l \/ l = [] /\ dummy rgn).

Lemma get_raw rgn l1 p l2 : raw rgn (l1 ++ p :: l2) -> get rgn (zlen l1) = Some p.
Proof.
  intros [_ [junk E] _ _]. unfold get, zlen. destruct (Z.ltb_spec (Z.of_nat (length l1)) 0); [lia|].
  rewrite E, <- app_assoc. cbn [app]. apply list_lookup_middle. lia.
Qed.

Lemma set_raw rgn l1 p l2 q :
  raw rgn (l1 ++ p :: l2) ->
  exists rgn', set rgn (zlen l1) q = Some rgn' /\ raw rgn' (l1 ++ q :: l2) /\ rsize rgn' = rsize rgn.
Proof.
  intros [Hl [junk E] Hc Hm]. unfold set, zlen in *.
  destruct (Z.leb_spec 0 (Z.of_nat (length l1))); [|lia].
  assert (length (region rgn) = (length l1 + S (length l2) + length junk)%nat) as Hlen
    by (rewrite E, !length_app; cbn; lia).
  destruct (Z.ltb_spec (Z.of_nat (length l1)) (Z.of_nat (length (region rgn)))); [|lia].
  eexists. split; [reflexivity|]. split; [|done]. rewrite Nat2Z.id. split; cbn.
  - by rewrite length_insert.
  - exists junk. rewrite E, <- !app_assoc. cbn [app].
    rewrite insert_app_r_alt, Nat.sub_diag by lia. done.
  - rewrite Hc. unfold zlen. rewrite !length_app. done.
  - unfold zlen. rewrite !length_app in *. done.
Qed.

Lemma raw_fuel rgn l : raw rgn l -> (length l < S (length (region rgn)))%nat.
Proof. intros [Hl _ _ Hm]. unfold zlen in Hm. lia. Qed.

Lemma raw_cnt_sub1 rgn l : raw rgn l -> l <> [] -> wrap 64 (cnt rgn - 1) = zlen l - 1.
Proof.
  intros [_ _ -> Hm] Hne. destruct l as [|x l']; [done|]. apply wrap_small. simpl_zlen.
  pose proof (zlen_nonneg l'). lia.
Qed.

(** ** [lmb_remove_region] *)
Lemma remove_loop_ok f rgn l1 x l2 :
  (length l2 < f)%nat -> raw rgn (l1 ++ x :: l2) ->
  exists rgn' junk, lmb_remove_loop f rgn (zlen l1) = Some rgn' /\
    cnt rgn' = cnt rgn /\ length (region rgn') = 9%nat /\ region rgn' = l1 ++ l2 ++ junk.
Proof.
  revert rgn l1 x f. induction l2 as [|y l2 IH]; intros rgn l1 x f Hf Hr;
    (destruct f as [|f]; [cbn in Hf; lia|]); cbn [lmb_remove_loop];
    rewrite (raw_cnt_sub1 _ _ Hr) by (by destruct l1); simpl_zlen.
  - destruct (Z.ltb_spec (zlen l1) (zlen l1 + (1 + 0) - 1)); [lia|].
    destruct Hr as [Hl [junk E] _ _]. exists rgn, (x :: junk).
    split; [done|]. split; [done|]. split; [done|]. by rewrite E, <- app_assoc.
  - pose proof (zlen_nonneg l2).
    destruct (Z.ltb_spec (zlen l1) (zlen l1 + (1 + (1 + zlen l2)) - 1)); [|lia].
    replace (zlen l1 + 1) with (zlen (l1 ++ [x])) by (simpl_zlen; lia).
    rewrite (get_raw rgn (l1 ++ [x]) y l2) by by rewrite <- app_assoc.
    cbn [mbind option_bind].
    destruct (set_raw rgn l1 x (y :: l2) y Hr) as (rgn1 & Hset & Hr1 & _). rewrite Hset.
    cbn [mbind option_bind].
    replace (zlen (l1 ++ [x])) with (zlen (l1 ++ [y])) by (simpl_zlen; lia).
    destruct (IH rgn1 (l1 ++ [y]) y f) as (rgn' & junk & Hl & Hc & Hlen & E);
      [cbn in Hf; lia|by rewrite <- app_assoc|].
    exists rgn', junk. split; [done|]. split; [|split; [done|]].
    + rewrite Hc, (raw_cnt _ _ Hr1), (raw_cnt _ _ Hr). by simpl_zlen.
    + by rewrite E, <- !app_assoc.
Qed.

Lemma remove_region_ok rgn l1 x l2 :
  raw rgn (l1 ++ x :: l2) ->
  exists rgn', lmb_remove_region rgn (zlen l1) = Some rgn' /\ raw rgn' (l1 ++ l2).
Proof.
  intros Hr. unfold lmb_remove_region. pose proof (raw_fuel _ _ Hr) as Hf.
  rewrite length_app in Hf. cbn in Hf.
  destruct (remove_loop_ok (S (length (region rgn))) rgn l1 x l2) as (rgn' & junk & -> & Hc & Hlen & E);
    [lia|done|].
  cbn [mbind option_bind]. eexists. split; [reflexivity|].
  split; cbn; [done|exists junk; by rewrite <- app_assoc| |].
  - rewrite Hc, (raw_cnt_sub1 _ _ Hr) by (by destruct l1). simpl_zlen. lia.
  - pose proof (raw_max _ _ Hr). simpl_zlen. lia.
Qed.

(** ** Adjacent regions *)
Lemma adjacent_ok b s p :
  ok (Prop_ b s) -> ok p ->
  lmb_addrs_adjacent b s (base p) (size p) =
    if base p =? b + s then 1 else if b =? base p + size p then -1 else 0.
Proof. intros (? & ? & ?) (? & ? & ?). unfold lmb_addrs_adjacent. cbn in *. by rewrite !wrap_small by lia. Qed.

(** How an entry takes in an adjacent region. *)
Definition joins (b s : Z) (p p' : lmb_property) : Prop :=
  base p = b + s /\ p' = Prop_ b (size p + s) \/
  b = base p + size p /\ p' = Prop_ (base p) (size p + s).

Lemma joins_ok b s p p' :
  ok (Prop_ b s) -> ok p -> joins b s p p' ->
  ok p' /\ (forall a, in_reg a p' <-> in_reg a p \/ in_reg a (Prop_ b s)) /\ base p' <= base p.
Proof.
  intros (? & ? & ?) (? & ? & ?) [[? ->]|[? ->]]; unfold ok, in_reg; cbn in *;
    (split; [lia|]); (split; [|lia]); intros; lia.
Qed.

(** ** [lmb_add_region] *)
Lemma get_mid rgn l1 p k : region rgn = l1 ++ p :: k -> get rgn (zlen l1) = Some p.
Proof.
  intros E. unfold get, zlen. destruct (Z.ltb_spec (Z.of_nat (length l1)) 0); [lia|].
  rewrite E. apply list_lookup_middle. lia.
Qed.

Lemma set_mid rgn l1 p k q :
  region rgn = l1 ++ p :: k ->
  set rgn (zlen l1) q = Some (Region (cnt rgn) (rsize rgn) (l1 ++ q :: k)).
Proof.
  intros E. unfold set, zlen. rewrite E, length_app. cbn [length].
  destruct (Z.leb_spec 0 (Z.of_nat (length l1))); [|lia].
  destruct (Z.ltb_spec (Z.of_nat (length l1)) (Z.of_nat (length l1 + S (length k)))); [|lia].
  cbn [andb]. by rewrite Nat2Z.id, insert_app_r_alt, Nat.sub_diag by lia.
Qed.

Section add.
Context (b s : Z) (Hn : ok (Prop_ b s)).
Let new := Prop_ b s.

(** The three ways out of the first loop. *)
Inductive coalesced (rgn : lmb_region) (l1 l2 : list lmb_property) : coalesce_exit -> Prop :=
| found : new ∈ l2 -> coalesced rgn l1 l2 AlreadyThere
| joined k1 p k2 p' rgn' :
    l2 = k1 ++ p :: k2 -> joins b s p p' -> raw rgn' (l1 ++ k1 ++ p' :: k2) ->
    coalesced rgn l1 l2 (LoopExit rgn' (zlen (l1 ++ k1)) 1)
| lonely : coalesced rgn l1 l2 (LoopExit rgn (zlen (l1 ++ l2)) 0).

Lemma coalesce_loop_ok f rgn l1 l2 :
  (length l2 < f)%nat -> raw rgn (l1 ++ l2) -> Forall ok l2 ->
  exists e, lmb_coalesce_loop f rgn b s (zlen l1) = Some e /\ coalesced rgn l1 l2 e.
Proof.
  revert l1 f. induction l2 as [|p l2 IH]; intros l1 f Hf Hr Hok;
    (destruct f as [|f]; [cbn in Hf; lia|]); cbn [lmb_coalesce_loop]; rewrite (raw_cnt _ _ Hr).
  - rewrite app_nil_r, Z.ltb_irrefl. eexists. split; [done|].
    rewrite <- (app_nil_r l1) at 2. apply lonely.
  - pose proof (zlen_nonneg l2). apply Forall_cons in Hok as [Hp Hok].
    destruct (Z.ltb_spec (zlen l1) (zlen (l1 ++ p :: l2))); [|simpl_zlen; lia].
    rewrite (get_raw _ _ _ _ Hr). cbn [mbind option_bind].
    destruct ((base p =? b) && (size p =? s)) eqn:Eeq.
    { eexists. split; [done|]. apply found. destruct p. cbn in *.
      apply andb_true_iff in Eeq as [?%Z.eqb_eq ?%Z.eqb_eq]. subst. left. }
    rewrite (adjacent_ok _ _ _ Hn Hp). pose proof Hn as (? & ? & ?). pose proof Hp as (? & ? & ?).
    cbn [base size] in *.
    destruct (Z.eqb_spec (base p) (b + s)); cbn [Z.ltb Z.compare].
    { rewrite !wrap_small by lia.
      destruct (set_raw _ _ _ _ (Prop_ (base p - s) (size p + s)) Hr) as (rgn' & -> & Hr' & _).
      eexists. split; [done|]. rewrite <- (app_nil_r l1) at 2.
      eapply (joined _ _ _ [] p l2); [done| |apply Hr'].
      left. split; [done|]. f_equal. lia. }
    destruct (Z.eqb_spec b (base p + size p)); cbn [Z.ltb Z.compare].
    { rewrite !wrap_small by lia.
      destruct (set_raw _ _ _ _ (Prop_ (base p) (size p + s)) Hr) as (rgn' & -> & Hr' & _).
      eexists. split; [done|]. rewrite <- (app_nil_r l1) at 2.
      eapply (joined _ _ _ [] p l2); [done| |apply Hr'].
      by right. }
    replace (zlen l1 + 1) with (zlen (l1 ++ [p])) by (simpl_zlen; lia).
    destruct (IH (l1 ++ [p]) f) as (e & He & Hc); [cbn in Hf; lia|by rewrite <- app_assoc|done|].
    exists e. split; [done|]. destruct Hc as [Hin|k1 q k2 p' rgn' -> Hj Hr'|].
    + apply found. by right.
    + rewrite <- app_assoc. cbn [app]. eapply (joined _ _ _ (p :: k1)); [done|done|].
      by rewrite <- app_assoc in Hr'.
    + rewrite <- app_assoc. apply lonely.
Qed.

(** The insertion loop moves the larger entries up and writes the new region after the
    last entry that is not larger, or leaves a copy of the first entry. *)
Lemma insert_loop_ok l rgn x k :
  region rgn = l ++ x :: k ->
  (exists l1 y l2, l = l1 ++ y :: l2 /\ base y <= b /\ Forall (fun q => b < base q) l2 /\
     lmb_insert_loop (length l) rgn b s =
       Some (Region (cnt rgn) (rsize rgn) (l1 ++ y :: new :: l2 ++ k))) \/
  (Forall (fun q => b < base q) l /\
     lmb_insert_loop (length l) rgn b s =
       Some (Region (cnt rgn) (rsize rgn) (default x (head l) :: l ++ k))).
Proof.
  revert rgn x k. induction l as [|p l IH] using rev_ind; intros rgn x k E.
  { right. split; [done|]. destruct rgn; cbn in *. by subst. }
  rewrite length_app. cbn [length]. rewrite Nat.add_1_r. cbn [lmb_insert_loop].
  rewrite <- app_assoc in E. cbn [app] in E.
  change (Z.of_nat (length l)) with (zlen l). rewrite (get_mid _ _ _ _ E). cbn [mbind option_bind].
  replace (zlen l + 1) with (zlen (l ++ [p])) by (simpl_zlen; lia).
  assert (region rgn = (l ++ [p]) ++ x :: k) as E' by by rewrite <- app_assoc.
  rewrite !(set_mid _ _ _ _ _ E'). destruct (Z.ltb_spec b (base p)).
  - cbn [mbind option_bind].
    destruct (IH (Region (cnt rgn) (rsize rgn) ((l ++ [p]) ++ p :: k)) p (p :: k))
      as [(l1 & y & l2 & -> & Hy & Hl2 & ->)|[Hl ->]]; [by rewrite <- app_assoc| |].
    + left. exists l1, y, (l2 ++ [p]). rewrite <- !app_assoc. cbn.
      split; [done|]. split; [done|]. split; [|done]. by rewrite Forall_app, Forall_singleton.
    + right. split; [by rewrite Forall_app, Forall_singleton|]. cbn.
      rewrite <- app_assoc. by destruct l.
  - left. exists l, p, []. rewrite <- app_assoc. done.
Qed.
(** The list [l'] is [l] with the addresses of the new region. *)
Definition grown (l l' : list lmb_property) : Prop :=
  l' <> [] /\ Forall ok l' /\
  (forall a, covers l' a <-> covers l a \/ in_reg a new) /\
  (StronglySorted before l -> Forall (apart new) l -> StronglySorted before l').

Lemma grown_same l : Forall ok l -> new ∈ l -> grown l l.
Proof.
  intros Hok Hin. split; [|split; [done|split; [|done]]].
  - intros ->. by apply elem_of_nil in Hin.
  - intros a. split; [tauto|]. intros [?|?]; [done|]. by exists new.
Qed.

Lemma grown_join k1 p k2 p' :
  Forall ok (k1 ++ p :: k2) -> joins b s p p' -> grown (k1 ++ p :: k2) (k1 ++ p' :: k2).
Proof.
  rewrite Forall_app, Forall_cons. intros (H1 & Hp & H2) Hj.
  destruct (joins_ok _ _ _ _ Hn Hp Hj) as (Hp' & Hin & Hb). split; [by destruct k1|].
  split; [by rewrite Forall_app, Forall_cons|]. split.
  - intros a. rewrite !covers_app, !covers_cons, Hin. tauto.
  - rewrite !sorted_mid, Forall_app, Forall_cons. intros (Hs & Hs1 & Hs2) (Ha1 & Hap & Ha2).
    split; [done|]. rewrite !Forall_forall in *. split; intros q Hq.
    + specialize (H1 q Hq). specialize (Hs1 q Hq). specialize (Ha1 q Hq). destruct Hn as (? & ? & ?).
      unfold ok, apart, before, joins in *. destruct Hj as [[? ->]|[? ->]]; cbn in *; lia.
    + specialize (H2 q Hq). specialize (Hs2 q Hq). specialize (Ha2 q Hq). destruct Hn as (? & ? & ?).
      unfold ok, apart, before, joins in *. destruct Hj as [[? ->]|[? ->]]; cbn in *; lia.
Qed.

(** Two neighbours that touch become one entry. *)
Lemma grown_merge l k1 p q k2 :
  grown l (k1 ++ p :: q :: k2) -> base q = base p + size p ->
  grown l (k1 ++ Prop_ (base p) (size p + size q) :: k2).
Proof.
  intros (_ & Hok & Hc & Hs) E. split; [by destruct k1|].
  rewrite Forall_app, !Forall_cons in Hok. destruct Hok as (? & (? & ? & ?) & (? & ? & ?) & ?).
  split; [rewrite Forall_app, Forall_cons; unfold ok; cbn; repeat split; try done; lia|].
  split.
  - intros a. rewrite <- Hc, !covers_app, !covers_cons. unfold in_reg. cbn.
    assert (base p <= a < base p + (size p + size q) <->
            base p <= a < base p + size p \/ base q <= a < base q + size q) as -> by lia.
    tauto.
  - intros HL HA. specialize (Hs HL HA). apply sorted_mid in Hs as (Hs & Hp1 & Hp2).
    rewrite sorted_mid.
    apply sorted_mid in Hs as (Hs & Hq1 & Hq2).
    split; [done|]. rewrite !Forall_forall in *. unfold before in *. cbn.
    split; intros y Hy; [by apply Hp1|]. specialize (Hq2 y Hy). lia.
Qed.

Lemma grown_insert l1 l2 :
  Forall ok (l1 ++ l2) -> Forall (fun q => base q <= b) l1 -> Forall (fun q => b < base q) l2 ->
  grown (l1 ++ l2) (l1 ++ new :: l2).
Proof.
  rewrite Forall_app. intros [H1 H2] Hb1 Hb2. split; [by destruct l1|].
  split; [by rewrite Forall_app, Forall_cons|]. split.
  - intros a. rewrite !covers_app, covers_cons. tauto.
  - rewrite sorted_mid, Forall_app. intros Hs [Ha1 Ha2]. split; [done|].
    rewrite !Forall_forall in *. destruct Hn as (? & ? & ?).
    split; intros q Hq; [specialize (Hb1 q Hq); destruct (Ha1 q Hq)|
      specialize (Hb2 q Hq); destruct (Ha2 q Hq); [done|specialize (H2 q Hq)]];
      unfold before, ok in *; cbn in *; lia || done.
Qed.

(** After the first loop the entry that took in the new region merges with the next one
    when they touch. *)
Lemma merge_next_ok rgn l k1 p k2 :
  grown l (k1 ++ p :: k2) -> raw rgn (k1 ++ p :: k2) -> Forall (fun q => base p <= base q) k2 ->
  exists adj, (if zlen k1 <? wrap 64 (cnt rgn - 1)
               then lmb_regions_adjacent rgn (zlen k1) (zlen k1 + 1) else Some 0) = Some adj /\
    (adj = 0 \/
     adj <> 0 /\ exists rgn' l', lmb_coalesce_regions rgn (zlen k1) (zlen k1 + 1) = Some rgn' /\
       raw rgn' l' /\ grown l l').
Proof.
  intros Hg Hr Hb. rewrite (raw_cnt_sub1 _ _ Hr) by (by destruct k1).
  destruct k2 as [|q k2]; simpl_zlen.
  { destruct (Z.ltb_spec (zlen k1) (zlen k1 + (1 + 0) - 1)); [lia|]. eauto. }
  pose proof (zlen_nonneg k2).
  destruct (Z.ltb_spec (zlen k1) (zlen k1 + (1 + (1 + zlen k2)) - 1)); [|lia].
  apply Forall_cons in Hb as [Hb _].
  pose proof Hg as (_ & Hok & _). rewrite Forall_app, !Forall_cons in Hok.
  destruct Hok as (_ & Hp & Hq & _). destruct p as [pb ps].
  assert (forall rgn p, raw rgn (k1 ++ p :: q :: k2) -> get rgn (zlen k1 + 1) = Some q) as Hgq.
  { intros rgn' p Hr'. replace (zlen k1 + 1) with (zlen (k1 ++ [p])) by (simpl_zlen; lia).
    apply (get_raw rgn' _ q k2). by rewrite <- app_assoc. }
  unfold lmb_regions_adjacent, lmb_coalesce_regions.
  rewrite (get_raw _ _ _ _ Hr), (Hgq _ _ Hr). cbn [mbind option_bind base size].
  rewrite (adjacent_ok _ _ _ Hp Hq). eexists. split; [reflexivity|].
  destruct Hp as (? & ? & ?), Hq as (? & ? & ?). cbn [base size] in *.
  destruct (Z.eqb_spec (base q) (pb + ps)) as [E|]; [right|left; cases_bool; lia].
  split; [done|]. rewrite wrap_small by lia.
  destruct (set_raw _ _ _ _ (Prop_ pb (ps + size q)) Hr) as (rgn1 & -> & Hr1 & _).
  cbn [mbind option_bind].
  replace (zlen k1 + 1) with (zlen (k1 ++ [Prop_ pb (ps + size q)])) by (simpl_zlen; lia).
  destruct (remove_region_ok rgn1 (k1 ++ [Prop_ pb (ps + size q)]) q k2) as (rgn2 & -> & Hr2);
    [by rewrite <- app_assoc|].
  eexists _, _. split; [done|]. split; [apply Hr2|]. rewrite <- app_assoc.
  by apply (grown_merge l k1 (Prop_ pb ps) q k2).
Qed.

Definition added (rgn : lmb_region) (l : list lmb_property) (r : Z) (rgn' : lmb_region) : Prop :=
  r = -1 /\ rgn' = rgn /\ zlen l = 8 \/
  0 <= r /\ exists l', table rgn' l' /\ grown l l'.

Lemma add_first_ok rgn : dummy rgn -> exists rgn', lmb_add_region rgn b s = Some (0, rgn') /\ raw rgn' [new].
Proof.
  intros (Hl & Hc & p & junk & E & _ & Hs). unfold lmb_add_region.
  rewrite (get_mid rgn [] p junk E : get rgn 0 = Some p).
  cbn [mbind option_bind]. rewrite Hc, Hs. cbn [andb Z.eqb Pos.eqb].
  rewrite (set_mid rgn [] p junk (Prop_ b s) E : set rgn 0 (Prop_ b s) = _).
  eexists. split; [reflexivity|]. split; cbn; [by rewrite E in Hl|by exists junk|done|].
  simpl_zlen. lia.
Qed.

Lemma sorted_head l1 y l2 :
  StronglySorted by_base (l1 ++ y :: l2) -> forall q, q ∈ l1 ++ [y] -> base q <= base y.
Proof.
  rewrite sorted_mid. intros (_ & H & _) q [Hq|Hq]%elem_of_app.
  - rewrite Forall_forall in H. by apply H.
  - apply list_elem_of_singleton in Hq as ->. lia.
Qed.

(** The last part of [lmb_add_region]: a new entry in a table that is not full. *)
Lemma add_new_ok rgn l :
  raw rgn l -> l <> [] -> zlen l < 8 -> Forall ok l -> StronglySorted by_base l ->
  exists rgn1 p0 rgn2, lmb_insert_loop (Z.to_nat (cnt rgn)) rgn b s = Some rgn1 /\
    get rgn1 0 = Some p0 /\
    (if b <? base p0 then set rgn1 0 new else Some rgn1) = Some rgn2 /\
    exists l', raw (set_cnt rgn2 (wrap 64 (cnt rgn2 + 1))) l' /\ grown l l'.
Proof.
  intros Hr Hne Hlt Hok Hs. pose proof (zlen_nonneg l). destruct Hr as [Hlen [junk E] Hc _].
  destruct junk as [|x junk].
  { rewrite app_nil_r in E. unfold zlen in Hlt. rewrite <- E, Hlen in Hlt. lia. }
  rewrite Hc. unfold zlen at 1. rewrite Nat2Z.id.
  assert (forall l', length l' = S (length l) -> raw (Region (wrap 64 (zlen l + 1)) (rsize rgn) (l' ++ junk)) l')
    as Hraw.
  { intros l' Hl'. assert (zlen l' = zlen l + 1) by (unfold zlen; lia).
    split; cbn; [|by exists junk|rewrite wrap_small; lia|lia].
    rewrite E, length_app in Hlen. cbn in Hlen. rewrite length_app. lia. }
  change 0 with (zlen (@nil lmb_property)).
  destruct (insert_loop_ok l rgn x junk E) as [(l1 & y & l2 & -> & Hy & Hl2 & ->)|[Hl ->]].
  - assert (exists p0 k, l1 ++ [y] = p0 :: k) as (p0 & k & Ep).
    { destruct l1; cbn; eauto. }
    assert (Forall (fun q => base q <= b) (l1 ++ [y])) as Hle.
    { apply Forall_forall. intros q Hq. pose proof (sorted_head _ _ _ Hs q Hq). lia. }
    assert (l1 ++ y :: new :: l2 ++ junk = p0 :: k ++ new :: l2 ++ junk) as Er.
    { change (l1 ++ y :: new :: l2 ++ junk) with (l1 ++ [y] ++ new :: l2 ++ junk).
      by rewrite app_assoc, Ep. }
    eexists _, p0, _. split; [reflexivity|]. split; [by apply (get_mid _ []  _ (k ++ new :: l2 ++ junk))|].
    split.
    { destruct (Z.ltb_spec b (base p0)); [|reflexivity].
      rewrite Ep, Forall_cons in Hle. lia. }
    exists ((l1 ++ [y]) ++ new :: l2). cbn [set_cnt cnt rsize region]. rewrite Hc. split.
    + replace (l1 ++ y :: new :: l2 ++ junk) with (((l1 ++ [y]) ++ new :: l2) ++ junk)
        by by rewrite <- !app_assoc.
      apply Hraw. rewrite !length_app. cbn. lia.
    + change (l1 ++ y :: l2) with (l1 ++ [y] ++ l2) in *. rewrite app_assoc in *.
      by apply grown_insert.
  - destruct l as [|y l]; [done|]. cbn [default head from_option].
    eexists _, y, _. split; [reflexivity|]. split; [by apply (get_mid _ [] _ ((y :: l) ++ junk))|].
    pose proof Hl as [Hy _]%Forall_cons. destruct (Z.ltb_spec b (base y)); [|lia].
    split; [by apply (set_mid _ [] y ((y :: l) ++ junk))|].
    exists (new :: y :: l). cbn [set_cnt cnt rsize region app]. rewrite Hc. split.
    + apply (Hraw (new :: y :: l)). done.
    + by apply (grown_insert []).
Qed.

Lemma add_region_ok rgn l :
  table rgn l -> StronglySorted by_base l ->
  exists r rgn', lmb_add_region rgn b s = Some (r, rgn') /\ added rgn l r rgn'.
Proof.
  intros [Hok [[Hne Hr]|[-> Hd]]] Hs.
  2: { destruct (add_first_ok rgn Hd) as (rgn' & -> & Hr). eexists _, _. split; [done|].
       right. split; [done|]. exists [new]. pose proof (grown_insert [] [] ltac:(done) ltac:(done) ltac:(done)).
       split; [|done]. split; [by constructor|by left]. }
  assert (forall rgn' l', raw rgn' l' -> grown l l' -> table rgn' l') as Htab.
  { intros rgn' l' Hr' (? & ? & _). split; [done|]. by left. }
  unfold lmb_add_region. assert (exists p0 l0, l = p0 :: l0) as (p0 & l0 & El) by (destruct l; eauto; done).
  assert (get rgn 0 = Some p0) as ->.
  { change 0 with (zlen (@nil lmb_property)). apply (get_raw rgn [] p0 l0). by rewrite El in Hr. }
  cbn [mbind option_bind].
  assert ((cnt rgn =? 1) && (size p0 =? 0) = false) as ->.
  { rewrite El, Forall_cons in Hok. destruct Hok as ((_ & ? & _) & _).
    rewrite (proj2 (Z.eqb_neq (size p0) 0)) by lia. apply andb_false_r. }
  destruct (coalesce_loop_ok (S (length (region rgn))) rgn [] l) as (e & He & Hc);
    [by apply raw_fuel|done|done|].
  change (zlen []) with 0 in He. rewrite He. cbn [mbind option_bind].
  destruct Hc as [Hin|k1 p k2 p' rgn' El' Hj Hr'|].
  - eexists _, _. split; [done|]. right. split; [done|]. exists l.
    split; [split; [done|by left]|]. by apply grown_same.
  - cbn [app] in *. rewrite El' in Hok, Hs. pose proof (grown_join _ _ _ _ Hok Hj) as Hg.
    rewrite <- El' in Hg. destruct (merge_next_ok rgn' l k1 p' k2 Hg Hr') as (adj & -> & Ha).
    { apply sorted_mid in Hs as (_ & _ & Hs). rewrite Forall_app, Forall_cons in Hok.
      destruct Hok as (_ & Hp & _). pose proof (joins_ok _ _ _ _ Hn Hp Hj) as (_ & _ & ?).
      eapply Forall_impl; [exact Hs|]. unfold by_base. intros. lia. }
    cbn [mbind option_bind]. destruct Ha as [->|(Ha & rgn2 & l' & -> & Hr2 & Hg2)].
    + cbn. eexists _, _. split; [done|]. right. split; [done|]. eauto.
    + rewrite (proj2 (Z.eqb_neq adj 0)) by done. cbn. eexists _, _. split; [done|].
      right. split; [done|]. eauto.
  - cbn [app]. rewrite (raw_cnt_sub1 _ _ Hr) by by rewrite El.
    destruct (Z.ltb_spec (zlen l) (zlen l - 1)); [lia|]. cbn [mbind option_bind negb Z.eqb].
    rewrite (raw_cnt _ _ Hr).
    pose proof (raw_max _ _ Hr). unfold MAX_LMB_REGIONS. destruct (Z.leb_spec 8 (zlen l)).
    + eexists _, _. split; [done|]. left. split; [done|]. split; [done|]. lia.
    + rewrite <- (raw_cnt _ _ Hr).
      destruct (add_new_ok rgn l) as (rgn1 & q & rgn2 & -> & Hq & H2 & l' & Hr' & Hg); [done|by rewrite El|done..|].
      cbn [mbind option_bind]. rewrite Hq. cbn [mbind option_bind]. unfold new in H2. rewrite H2. cbn [mbind option_bind].
      eexists _, _. split; [done|]. right. split; [done|]. eauto.
Qed.
End add.

(** ** [lmb_free] *)
Definition inside (b e : Z) (p : lmb_property) : Prop := base p <= b /\ e <= base p + size p.

Lemma free_loop_ok f rgn l1 l2 b e x y :
  (length l2 < f)%nat -> raw rgn (l1 ++ l2) -> Forall ok l2 ->
  (exists x' y', lmb_free_loop f rgn b e (zlen l1) x y = Some (zlen (l1 ++ l2), x', y') /\
     Forall (fun p => ~ inside b e p) l2) \/
  (exists k1 p k2, l2 = k1 ++ p :: k2 /\ inside b e p /\
     lmb_free_loop f rgn b e (zlen l1) x y = Some (zlen (l1 ++ k1), base p, base p + size p)).
Proof.
  revert l1 f x y. induction l2 as [|p l2 IH]; intros l1 f x y Hf Hr Hok;
    (destruct f as [|f]; [cbn in Hf; lia|]); cbn [lmb_free_loop]; rewrite (raw_cnt _ _ Hr).
  - rewrite app_nil_r, Z.ltb_irrefl. left. by eexists _, _.
  - pose proof (zlen_nonneg l2). apply Forall_cons in Hok as [Hp Hok].
    destruct (Z.ltb_spec (zlen l1) (zlen (l1 ++ p :: l2))); [|simpl_zlen; lia].
    rewrite (get_raw _ _ _ _ Hr). cbn [mbind option_bind]. pose proof Hp as (? & ? & ?).
    rewrite wrap_small by lia.
    destruct ((base p <=? b) && (e <=? base p + size p)) eqn:E.
    { right. exists [], p, l2. apply andb_true_iff in E as [?%Z.leb_le ?%Z.leb_le].
      rewrite app_nil_r. done. }
    apply andb_false_iff in E. rewrite !Z.leb_gt in E.
    replace (zlen l1 + 1) with (zlen (l1 ++ [p])) by (simpl_zlen; lia).
    destruct (IH (l1 ++ [p]) f (base p) (base p + size p)) as [(x' & y' & -> & Hn)|(k1 & q & k2 & -> & Hq & ->)];
      [cbn in Hf; lia|by rewrite <- app_assoc|done|left|right].
    + rewrite <- app_assoc. eexists _, _. split; [done|]. constructor; [|done]. unfold inside. lia.
    + exists (p :: k1), q, k2. rewrite <- app_assoc. done.
Qed.

Lemma before_by_base l : Forall ok l -> StronglySorted before l -> StronglySorted by_base l.
Proof.
  intros Hok Hs. induction Hs as [|p l Hs IH Hp]; [by constructor|].
  apply Forall_cons in Hok as [(? & ? & ?) Hok]. constructor; [by apply IH|].
  eapply Forall_impl; [exact Hp|]. unfold before, by_base. intros. lia.
Qed.

(** In an ordered table the address of one entry is in no other. *)
Lemma covers_mid k1 p k2 :
  StronglySorted before (k1 ++ p :: k2) -> Forall ok (k1 ++ p :: k2) ->
  forall a, in_reg a p -> ~ covers (k1 ++ k2) a.
Proof.
  rewrite sorted_mid, Forall_app, Forall_cons. intros (_ & H1 & H2) (Ho1 & Hp & Ho2) a Ha (q & Hq & Hqa).
  rewrite !Forall_forall in *. unfold before, in_reg, ok in *.
  apply elem_of_app in Hq as [Hq|Hq]; [specialize (H1 q Hq)|specialize (H2 q Hq)]; lia.
Qed.

(** The addresses of [l'] are those of [l] outside the range. *)
Definition shrunk (b e : Z) (l l' : list lmb_property) : Prop :=
  Forall ok l' /\ StronglySorted before l' /\
  forall a, covers l' a <-> covers l a /\ ~ b <= a < e.

Lemma shrunk_remove k1 p k2 :
  StronglySorted before (k1 ++ p :: k2) -> Forall ok (k1 ++ p :: k2) ->
  shrunk (base p) (base p + size p) (k1 ++ p :: k2) (k1 ++ k2).
Proof.
  intros Hs Ho. pose proof (covers_mid _ _ _ Hs Ho) as Hd.
  rewrite sorted_mid in Hs. rewrite Forall_app, Forall_cons in Ho.
  split; [rewrite Forall_app; tauto|]. split; [tauto|]. intros a. specialize (Hd a).
  rewrite covers_app in *. rewrite covers_app, covers_cons. unfold in_reg in *. tauto.
Qed.

Lemma shrunk_cut k1 p k2 q b e :
  StronglySorted before (k1 ++ p :: k2) -> Forall ok (k1 ++ p :: k2) -> ok q -> inside b e p ->
  base p <= base q -> base q + size q <= base p + size p ->
  (forall a, in_reg a q <-> in_reg a p /\ ~ b <= a < e) ->
  shrunk b e (k1 ++ p :: k2) (k1 ++ q :: k2).
Proof.
  intros Hs Ho Hq Hi Hb He Hin. pose proof (covers_mid _ _ _ Hs Ho) as Hd.
  rewrite sorted_mid in Hs. destruct Hs as (Hs & H1 & H2).
  rewrite Forall_app, Forall_cons in Ho. destruct Ho as (Ho1 & Hp & Ho2).
  split; [by rewrite Forall_app, Forall_cons|]. split.
  - rewrite sorted_mid. split; [done|].
    split; [apply (Forall_impl _ _ _ H1)|apply (Forall_impl _ _ _ H2)]; unfold before; intros; lia.
  - intros a. specialize (Hd a). rewrite covers_app in *. rewrite !covers_app, !covers_cons, Hin.
    unfold in_reg, inside in *. assert (b <= a < e -> base p <= a < base p + size p) by lia. tauto.
Qed.

(** The three outcomes of [lmb_free_region]: no entry holds the range; the range is gone;
    or the entry had to be split in a full table, which drops everything from [b] to the
    end of the entry. *)
Inductive freed (b e : Z) (rgn : lmb_region) (l : list lmb_property) : Z -> lmb_region -> Prop :=
| free_missing : Forall (fun p => ~ inside b e p) l -> freed b e rgn l (-1) rgn
| free_done r rgn' l' : 0 <= r -> raw rgn' l' -> shrunk b e l l' -> freed b e rgn l r rgn'
| free_full p rgn' l' :
    p ∈ l -> zlen l = 8 -> base p < b -> e < base p + size p ->
    raw rgn' l' -> shrunk b (base p + size p) l l' -> freed b e rgn l (-1) rgn'.

Section free.
Context (b s : Z) (Hn : ok (Prop_ b s)).
Context (rgn : lmb_region) (k1 : list lmb_property) (p : lmb_property) (k2 : list lmb_property).
Let l := k1 ++ p :: k2.
Context (Hr : raw rgn l) (Ho : Forall ok l) (Hs : StronglySorted before l).

Lemma shrunk_trim q :
  inside b (b + s) p ->
  (base p = b /\ b + s < base p + size p /\ q = Prop_ (b + s) (size p - s) \/
   base p < b /\ base p + size p = b + s /\ q = Prop_ (base p) (size p - s)) ->
  shrunk b (b + s) l (k1 ++ q :: k2).
Proof.
  intros Hi Hq. destruct Hn as (? & ? & ?). cbn in *.
  assert (ok p) as (? & ? & ?) by (unfold l in Ho; rewrite Forall_app, Forall_cons in Ho; tauto).
  unfold inside in Hi. apply shrunk_cut; try done;
    destruct Hq as [(? & ? & ->)|(? & ? & ->)]; unfold ok, inside, in_reg; cbn; try lia; intros a; lia.
Qed.

(** The entry is split: its head stays, its tail is added as a region of its own. *)
Lemma free_split_ok :
  base p < b -> b + s < base p + size p ->
  exists rgn1 r rgn2, set rgn (zlen k1) (Prop_ (base p) (b - base p)) = Some rgn1 /\
    lmb_add_region rgn1 (b + s) (base p + size p - (b + s)) = Some (r, rgn2) /\
    freed b (b + s) rgn l r rgn2.
Proof.
  intros Hb He. destruct (set_raw _ _ _ _ (Prop_ (base p) (b - base p)) Hr) as (rgn1 & E1 & Hr1 & _).
  exists rgn1. destruct Hn as (? & ? & ?). cbn in *.
  assert (ok p) as (? & ? & ?) by (unfold l in Ho; rewrite Forall_app, Forall_cons in Ho; tauto).
  set (q := Prop_ (base p) (b - base p)) in *. set (t := Prop_ (b + s) (base p + size p - (b + s))).
  assert (shrunk b (base p + size p) l (k1 ++ q :: k2)) as Hcut.
  { apply shrunk_cut; unfold ok, inside, in_reg, q; cbn; try done; try lia; intros a; lia. }
  destruct Hcut as (Hoq & Hsq & Hcq).
  assert (ok t) as Ht by (unfold ok, t; cbn; lia).
  destruct (add_region_ok (b + s) (base p + size p - (b + s)) Ht rgn1 (k1 ++ q :: k2))
    as (r & rgn2 & E2 & [(-> & -> & Hz)|(? & l' & Htab & Hg)]).
  { split; [done|]. left. split; [by destruct k1|done]. }
  { by apply before_by_base. }
  - exists (-1), rgn1. split; [done|]. split; [done|]. eapply (free_full _ _ _ _ p); eauto.
    + apply elem_of_app. right. left.
    + unfold l. revert Hz. by simpl_zlen.
    + done.
  - exists r, rgn2. split; [done|]. split; [done|]. destruct Hg as (Hne & Hok' & Hc' & Hs').
    eapply (free_done _ _ _ _ _ _ l'); [done|by destruct Htab as [_ [[_ ?]|[-> _]]]|].
    split; [done|]. split.
    + apply Hs'; [done|]. unfold l in Hs, Ho. apply sorted_mid in Hs as (_ & Hk1 & Hk2).
      rewrite Forall_app, Forall_cons in Ho. rewrite Forall_app, Forall_cons.
      rewrite !Forall_forall in *. unfold apart, before, q in *. cbn.
      split; [intros y Hy; specialize (Hk1 y Hy); lia|]. split; [lia|].
      intros y Hy. specialize (Hk2 y Hy). lia.
    + intros a. rewrite Hc', Hcq. assert (in_reg a p -> covers l a) as Hpa by (intros; exists p; split; [apply elem_of_app; right; left|done]).
      unfold in_reg, t in *. cbn in *. destruct (decide (b + s <= a < base p + size p)).
      * split; [intros _; split; [apply Hpa|]; lia|]. intros _. right. lia.
      * assert (b <= a < base p + size p <-> b <= a < b + s) as -> by lia.
        split; [|tauto]. intros [?|?]; [done|lia].
Qed.
End free.

Lemma free_region_ok b s rgn l :
  ok (Prop_ b s) -> table rgn l -> StronglySorted before l ->
  exists r rgn', lmb_free_region rgn b s = Some (r, rgn') /\ freed b (b + s) rgn l r rgn'.
Proof.
  intros Hn [Ho [[Hne Hr]|[-> (Hl & Hc & p & junk & E & Hpb & Hps)]]] Hs; unfold lmb_free_region;
    pose proof Hn as (? & ? & ?); cbn [base size] in *; rewrite (wrap_small 64 (b + s)) by lia.
  2: { rewrite Hl. cbn [lmb_free_loop]. rewrite Hc. cbn [Z.ltb Z.compare].
       rewrite (get_mid rgn [] p junk E : get rgn 0 = Some p). cbn [mbind option_bind].
       rewrite Hpb, Hps. destruct (Z.leb_spec (b + s) (wrap 64 (0 + 0))) as [Hle|];
         [change (wrap 64 (0 + 0)) with 0 in Hle; lia|]. rewrite andb_false_r.
       change (0 + 1 <? 1) with false. cbn [mbind option_bind]. rewrite ?Hc.
       eexists _, _. split; [reflexivity|]. by apply free_missing. }
  destruct (free_loop_ok (S (length (region rgn))) rgn [] l b (b + s) 0 0)
    as [(x & y & E & Hf)|(k1 & p & k2 & -> & Hi & E)]; [by apply raw_fuel|done|done|..];
    change (zlen []) with 0 in E; rewrite E; cbn [mbind option_bind app].
  { rewrite (raw_cnt _ _ Hr), Z.eqb_refl. eexists _, _. split; [done|]. by apply free_missing. }
  pose proof (zlen_nonneg k2).
  rewrite (raw_cnt _ _ Hr), (proj2 (Z.eqb_neq (zlen k1) (zlen (k1 ++ p :: k2)))) by (simpl_zlen; lia).
  assert (ok p) as (? & ? & ?) by (rewrite Forall_app, Forall_cons in Ho; tauto).
  pose proof Hi as [? ?].
  assert (forall q, shrunk b (b + s) (k1 ++ p :: k2) (k1 ++ q :: k2) ->
    exists r rgn', (rgn0 ← set rgn (zlen k1) q; Some (0, rgn0)) = Some (r, rgn') /\
      freed b (b + s) rgn (k1 ++ p :: k2) r rgn') as Hset.
  { intros q Hq. destruct (set_raw _ _ _ _ q Hr) as (rgn' & -> & Hr' & _). cbn [mbind option_bind].
    eexists _, _. split; [done|]. by eapply free_done. }
  destruct (Z.eqb_spec (base p) b) as [Eb|]; destruct (Z.eqb_spec (base p + size p) (b + s)) as [Ee|];
    cbn [andb].
  - destruct (remove_region_ok _ _ _ _ Hr) as (rgn' & -> & Hr'). cbn [mbind option_bind].
    eexists _, _. split; [done|]. eapply free_done; [done|done|].
    rewrite <- Ee, <- Eb. by apply shrunk_remove.
  - rewrite (get_raw _ _ _ _ Hr). cbn [mbind option_bind]. rewrite wrap_small by lia.
    apply Hset, shrunk_trim; try done. left. split; [done|]. split; [lia|done].
  - rewrite (get_raw _ _ _ _ Hr). cbn [mbind option_bind]. rewrite wrap_small by lia.
    apply Hset, shrunk_trim; try done. right. split; [lia|done].
  - rewrite (get_raw _ _ _ _ Hr). cbn [mbind option_bind]. rewrite !wrap_small by lia.
    destruct (free_split_ok b s Hn rgn k1 p k2 Hr Ho Hs) as (rgn1 & r & rgn2 & -> & E2 & Hf); [lia..|].
    cbn [mbind option_bind]. eauto.
Qed.

(** ** Alignment *)
Lemma align_mask k : 0 <= k <= 64 -> forall a, in_u 64 a ->
  Z.land a (wrap 64 (Z.lnot (wrap 64 (2 ^ k - 1)))) = a - a mod 2 ^ k.
Proof.
  intros Hk a Ha. assert (0 <= 2 ^ k - 1 < 2 ^ 64) as Hm.
  { pose proof (Z.pow_le_mono_r 2 k 64 ltac:(lia) ltac:(lia)).
    pose proof (Z.pow_pos_nonneg 2 k ltac:(lia) ltac:(lia)). lia. }
  rewrite (wrap_small 64 (2 ^ k - 1)) by done. unfold wrap.
  rewrite <- Z.land_ones by lia. rewrite (Z.land_comm _ (Z.ones 64)), Z.land_assoc.
  rewrite Z.land_ones, Z.mod_small by (done || lia). rewrite <- Z.ldiff_land.
  replace (2 ^ k - 1) with (Z.ones k) by (rewrite Z.ones_equiv; lia).
  rewrite Z.ldiff_ones_r by lia. rewrite Z.shiftl_mul_pow2, Z.shiftr_div_pow2 by lia.
  pose proof (Z.div_mod a (2 ^ k) ltac:(lia)). lia.
Qed.

Section align.
Context (k : Z) (Hk : 0 <= k < 64).

Lemma align_down_ok a : in_u 64 a -> lmb_align_down a (2 ^ k) = a - a mod 2 ^ k.
Proof. intros. by apply align_mask; [lia|]. Qed.

(** The highest multiple of the alignment that is not above [a]. *)
Lemma align_down_spec a :
  in_u 64 a -> (2 ^ k | lmb_align_down a (2 ^ k)) /\ 0 <= lmb_align_down a (2 ^ k) <= a /\
  forall x, (2 ^ k | x) -> x <= a -> x <= lmb_align_down a (2 ^ k).
Proof.
  intros Ha. rewrite align_down_ok by done. assert (0 < 2 ^ k) by (apply Z.pow_pos_nonneg; lia).
  pose proof (Z.mod_pos_bound a (2 ^ k) ltac:(lia)). pose proof (Z.div_mod a (2 ^ k) ltac:(lia)) as E.
  assert (a - a mod 2 ^ k = 2 ^ k * (a / 2 ^ k)) as Eq by lia. rewrite Eq.
  pose proof (Z.div_pos a (2 ^ k) ltac:(destruct Ha; lia) ltac:(lia)).
  split; [by exists (a / 2 ^ k); lia|]. split; [nia|]. intros x [y ->] Hx.
  assert (y <= a / 2 ^ k) by (apply Z.div_le_lower_bound; lia). nia.
Qed.

(** The smallest multiple of the alignment that is not below [a]. *)
Lemma align_up_spec a :
  0 <= a -> a + 2 ^ k <= 2 ^ 64 ->
  (2 ^ k | lmb_align_up a (2 ^ k)) /\ a <= lmb_align_up a (2 ^ k) < a + 2 ^ k.
Proof.
  intros Ha Hm. assert (0 < 2 ^ k) by (apply Z.pow_pos_nonneg; lia).
  assert (lmb_align_up a (2 ^ k) = lmb_align_down (a + (2 ^ k - 1)) (2 ^ k)) as ->.
  { unfold lmb_align_up, lmb_align_down.
    rewrite (wrap_small 64 (2 ^ k - 1)) by lia. by rewrite (wrap_small 64 (a + (2 ^ k - 1))) by lia. }
  assert (in_u 64 (a + (2 ^ k - 1))) as Hu by (unfold in_u; lia).
  pose proof (align_down_spec _ Hu) as (? & ? & Hmax). split; [done|].
  rewrite align_down_ok by done. pose proof (Z.mod_pos_bound (a + (2 ^ k - 1)) (2 ^ k) ltac:(lia)). lia.
Qed.
End align.

(** ** [lmb_overlaps_region] *)
Lemma overlap_ok b s p :
  ok (Prop_ b s) -> ok p -> lmb_addrs_overlap b s (base p) (size p) = true <-> ~ apart (Prop_ b s) p.
Proof.
  intros (? & ? & ?) (? & ? & ?). unfold lmb_addrs_overlap, apart, before. cbn in *.
  rewrite !wrap_small by lia. rewrite andb_true_iff, !Z.ltb_lt. lia.
Qed.

Lemma overlaps_loop_ok f rgn l1 l2 b s :
  ok (Prop_ b s) -> (length l2 < f)%nat -> raw rgn (l1 ++ l2) -> Forall ok l2 ->
  (lmb_overlaps_loop f rgn b s (zlen l1) = Some (zlen (l1 ++ l2)) /\ Forall (apart (Prop_ b s)) l2) \/
  (exists k1 p k2, l2 = k1 ++ p :: k2 /\ ~ apart (Prop_ b s) p /\
     lmb_overlaps_loop f rgn b s (zlen l1) = Some (zlen (l1 ++ k1))).
Proof.
  intros Hn. revert l1 f. induction l2 as [|p l2 IH]; intros l1 f Hf Hr Hok;
    (destruct f as [|f]; [cbn in Hf; lia|]); cbn [lmb_overlaps_loop]; rewrite (raw_cnt _ _ Hr).
  - rewrite app_nil_r, Z.ltb_irrefl. by left.
  - pose proof (zlen_nonneg l2). apply Forall_cons in Hok as [Hp Hok].
    destruct (Z.ltb_spec (zlen l1) (zlen (l1 ++ p :: l2))); [|simpl_zlen; lia].
    rewrite (get_raw _ _ _ _ Hr). cbn [mbind option_bind]. pose proof (overlap_ok b s p Hn Hp) as Ho.
    destruct (lmb_addrs_overlap b s (base p) (size p)).
    { right. exists [], p, l2. rewrite app_nil_r. split; [done|]. split; [by apply Ho|done]. }
    assert (apart (Prop_ b s) p) as Ha.
    { destruct Hn as (? & ? & ?), Hp as (? & ? & ?). unfold apart, before in *. cbn in *. lia. }
    replace (zlen l1 + 1) with (zlen (l1 ++ [p])) by (simpl_zlen; lia).
    destruct (IH (l1 ++ [p]) f) as [[-> Hl]|(k1 & q & k2 & -> & Hq & ->)];
      [cbn in Hf; lia|by rewrite <- app_assoc|done|left|right].
    + rewrite <- app_assoc. split; [done|]. by constructor.
    + exists (p :: k1), q, k2. by rewrite <- app_assoc.
Qed.

Lemma overlaps_region_ok rgn l b s :
  ok (Prop_ b s) -> table rgn l ->
  (lmb_overlaps_region rgn b s = Some (-1) /\ Forall (apart (Prop_ b s)) l) \/
  (exists j p, lmb_overlaps_region rgn b s = Some j /\ 0 <= j /\ get rgn j = Some p /\
     p ∈ l /\ ~ apart (Prop_ b s) p).
Proof.
  intros Hn [Ho [[Hne Hr]|[-> (Hl & Hc & p & junk & E & Hpb & Hps)]]]; unfold lmb_overlaps_region.
  - destruct (overlaps_loop_ok (S (length (region rgn))) rgn [] l b s) as [[H Ha]|(k1 & p & k2 & -> & Hp & H)];
      [done|by apply raw_fuel|done|done|..]; change (zlen []) with 0 in H; rewrite H;
      cbn [mbind option_bind app]; rewrite (raw_cnt _ _ Hr).
    + left. by rewrite Z.ltb_irrefl.
    + right. exists (zlen k1), p. pose proof (zlen_nonneg k1). pose proof (zlen_nonneg k2).
      destruct (Z.ltb_spec (zlen k1) (zlen (k1 ++ p :: k2))); [|simpl_zlen; lia].
      split; [done|]. split; [done|]. split; [by eapply get_raw|]. split; [|done].
      apply elem_of_app. right. left.
  - left. split; [|done]. rewrite Hl. cbn [lmb_overlaps_loop]. rewrite Hc. cbn [Z.ltb Z.compare].
    rewrite (get_mid rgn [] p junk E : get rgn 0 = Some p). cbn [mbind option_bind].
    destruct Hn as (? & _). cbn in *. unfold lmb_addrs_overlap. rewrite Hpb, Hps.
    change (wrap 64 (0 + 0)) with 0. destruct (Z.ltb_spec b 0); [lia|].
    change (0 + 1 <? 1) with false. cbn. by rewrite ?Hc.
Qed.

(** ** [__lmb_alloc_base] *)
(** The entries that start below [t]: the loop's measure. *)
Definition below (t : Z) (l : list lmb_property) : nat := length (filter (fun q => base q < t) l).

Lemma below_mono t t' l : t <= t' -> (below t l <= below t' l)%nat.
Proof.
  intros. unfold below. induction l as [|q l IH]; [done|]. rewrite !filter_cons.
  repeat case_decide; cbn; lia.
Qed.

Lemma below_lt t t' l p : p ∈ l -> base p < t' -> t <= base p -> (below t l < below t' l)%nat.
Proof.
  intros Hp H1 H2. induction l as [|q l IH]; [by apply elem_of_nil in Hp|].
  pose proof (below_mono t t' l ltac:(lia)). unfold below in *. rewrite !filter_cons.
  apply elem_of_cons in Hp as [->|Hp]; repeat case_decide; cbn; try lia;
    specialize (IH Hp); lia.
Qed.

Section alloc.
Context (k s : Z) (Hk : 0 <= k < 64) (Hs : 0 < s).
Context (l : lmb) (rs : list lmb_property).
Context (Ht : table (reserved l) rs) (Hsort : StronglySorted by_base rs).
Let align := 2 ^ k.

(** An aligned address at which the request does not meet a reserved region. *)
Definition free_at (x : Z) : Prop := 0 < x /\ (align | x) /\ Forall (apart (Prop_ x s)) rs.

(** The request is granted at [r], or refused because the table is full. *)
Definition granted (lo top r : Z) (l' : lmb) : Prop :=
  memory l' = memory l /\
  (r = 0 /\ l' = l /\ zlen rs = 8 \/
   free_at r /\ lo <= r /\ r + s <= top /\ (forall x, free_at x -> x + s <= top -> x <= r) /\
   exists rs', table (reserved l') rs' /\ grown r (lmb_align_up s align) rs rs').

Lemma alloc_here_ok lo top b :
  0 <= lo -> 0 < b -> (align | b) -> lo <= b -> b + s <= top -> top + align <= 2 ^ 64 ->
  Forall (apart (Prop_ b s)) rs -> (forall x, free_at x -> x + s <= top -> x <= b) ->
  exists r rgn, lmb_add_region (reserved l) b (lmb_align_up s align) = Some (r, rgn) /\
    granted lo top (if r <? 0 then 0 else b) (Lmb_ (memory l) rgn).
Proof.
  intros Hlo Hb Hd Hl Htop Hm Hap Hx.
  pose proof (align_up_spec k Hk s ltac:(lia) ltac:(fold align; lia)) as [_ Hup]. fold align in Hup.
  assert (ok (Prop_ b (lmb_align_up s align))) as Hn by (unfold ok; cbn; lia).
  destruct (add_region_ok b _ Hn _ _ Ht Hsort) as (r & rgn & -> & Ha). exists r, rgn.
  split; [done|]. split; [done|]. destruct Ha as [(-> & -> & ?)|(? & rs' & ? & ?)].
  - left. split; [done|]. split; [by destruct l|done].
  - right. destruct (Z.ltb_spec r 0); [lia|]. split; [done|]. repeat (split; [done|]). eauto.
Qed.

Lemma alloc_loop_ok f lo top b :
  (below (b + s) rs < f)%nat -> 0 <= lo -> 0 <= b -> (align | b) -> b + s <= top ->
  top + align <= 2 ^ 64 -> (forall x, free_at x -> x + s <= top -> x <= b) ->
  exists o, lmb_alloc_loop f l lo b s align = Some o /\
    match o with
    | None => forall x, free_at x -> x + s <= top -> x < lo
    | Some (r, l') => granted lo top r l'
    end.
Proof.
  revert b. induction f as [|f IH]; intros b Hf Hlo Hb Hd Htop Hm Hx; [lia|]. cbn [lmb_alloc_loop].
  assert (0 < align) by (apply Z.pow_pos_nonneg; lia).
  destruct (Z.eqb_spec b 0) as [->|]; cbn [negb andb].
  { exists None. split; [done|]. intros x Hfx ?. pose proof (Hx x Hfx ltac:(done)). destruct Hfx. lia. }
  destruct (Z.leb_spec lo b).
  2: { exists None. split; [done|]. intros x Hfx ?. pose proof (Hx x Hfx ltac:(done)). lia. }
  assert (ok (Prop_ b s)) as Hn by (unfold ok; cbn; lia).
  destruct (overlaps_region_ok (reserved l) rs b s Hn Ht) as [[-> Ha]|(j & p & -> & Hj & Hg & Hp & Ha)];
    cbn [mbind option_bind].
  { cbn [Z.ltb Z.compare].
    destruct (alloc_here_ok lo top b) as (r & rgn & -> & Hgr); try done; [lia|].
    cbn [mbind option_bind]. eexists. split; [reflexivity|]. done. }
  destruct (Z.ltb_spec j 0); [lia|]. rewrite Hg. cbn [mbind option_bind].
  assert (ok p) as (? & ? & ?) by (destruct Ht as [Hok _]; rewrite Forall_forall in Hok; by apply Hok).
  assert (forall x, free_at x -> x + s <= top -> x + s <= base p) as Hx'.
  { intros x Hfx ?. pose proof (Hx x Hfx ltac:(done)). destruct Hfx as (? & _ & Hfx).
    rewrite Forall_forall in Hfx. specialize (Hfx p Hp). unfold apart, before in *. cbn in *. lia. }
  destruct (Z.ltb_spec (base p) s).
  { exists None. split; [done|]. intros x Hfx ?. pose proof (Hx' x Hfx ltac:(done)). destruct Hfx. lia. }
  rewrite (wrap_small 64 (base p - s)) by lia.
  assert (in_u 64 (base p - s)) as Hu by (unfold in_u; lia).
  destruct (align_down_spec k Hk _ Hu) as (Hd' & Hle & Hmax). fold align in Hd', Hle, Hmax.
  unfold apart, before in Ha. cbn in Ha.
  apply IH; try done; try lia.
  - assert (below (lmb_align_down (base p - s) align + s) rs < below (b + s) rs)%nat; [|lia].
    eapply below_lt; [done|lia|lia].
  - intros x Hfx Hxt. pose proof (Hx' x Hfx Hxt). apply Hmax; [apply Hfx|lia].
Qed.

(** The end of the part of a memory region the request may use. *)
Definition limit (max : Z) (m : lmb_property) : Z :=
  if max =? LMB_ALLOC_ANYWHERE then base m + size m else Z.min (base m + size m) max.

(** An address the allocator may return. *)
Definition fits (max : Z) (ms : list lmb_property) (x : Z) : Prop :=
  free_at x /\ exists m, m ∈ ms /\ base m <= x /\ x + s <= limit max m.

(** What [__lmb_alloc_base] does: it returns the highest fitting address and reserves it,
    or 0 when the table of reserved regions is full or nothing fits. *)
Definition allocated_top (max : Z) (ms : list lmb_property) (r : Z) (l' : lmb) : Prop :=
  memory l' = memory l /\
  (r = 0 /\ l' = l /\ (zlen rs = 8 \/ forall x, ~ fits max ms x) \/
   fits max ms r /\ (forall x, fits max ms x -> x <= r) /\
   exists rs', table (reserved l') rs' /\ grown r (lmb_align_up s align) rs rs').

Context (max : Z) (Hmax : max = 0 \/ s <= max).

(** The start address of the search in one memory region. *)
Lemma alloc_start_ok m :
  ok m -> base m + size m + align <= 2 ^ 64 ->
  let start :=
    if max =? LMB_ALLOC_ANYWHERE then Some (lmb_align_down (wrap 64 (base m + size m - s)) align)
    else if base m <? max then
      let b := wrap 64 (base m + size m) in
      let b := if b <? base m then wrap 64 (-1) else b in
      let b := Z.min b max in Some (lmb_align_down (wrap 64 (b - s)) align)
    else None in
  s <= size m ->
  match start with
  | None => limit max m <= base m
  | Some b => 0 <= b /\ (align | b) /\ b + s <= limit max m /\ limit max m <= base m + size m /\
              forall x, free_at x -> x + s <= limit max m -> x <= b
  end.
Proof.
  intros (? & ? & ?) Hm start Hsz. assert (0 < align) by (apply Z.pow_pos_nonneg; lia).
  assert (forall t, s <= t -> t <= base m + size m ->
    let b := lmb_align_down (wrap 64 (t - s)) align in
    0 <= b /\ (align | b) /\ b + s <= t /\ t <= base m + size m /\
    forall x, free_at x -> x + s <= t -> x <= b) as Hgo.
  { intros t ? ? b. unfold b. rewrite wrap_small by lia.
    assert (in_u 64 (t - s)) as Hu by (unfold in_u; lia).
    destruct (align_down_spec k Hk _ Hu) as (Hd & Hle & Hx). fold align in Hd, Hle, Hx.
    split; [lia|]. split; [done|]. split; [lia|]. split; [done|].
    intros x (_ & ? & _) ?. apply Hx; [done|lia]. }
  unfold start, limit, LMB_ALLOC_ANYWHERE. destruct (Z.eqb_spec max 0); [apply Hgo; lia|].
  destruct (Z.ltb_spec (base m) max); [|lia]. rewrite (wrap_small 64 (base m + size m)) by lia.
  cbn zeta. destruct (Z.ltb_spec (base m + size m) (base m)); [lia|]. apply Hgo; lia.
Qed.

Lemma fits_app m1 m2 x : fits max (m1 ++ m2) x <-> fits max m1 x \/ fits max m2 x.
Proof.
  unfold fits. setoid_rewrite elem_of_app. split.
  - intros (? & m & [?|?] & ?); eauto.
  - intros [(? & m & ? & ?)|(? & m & ? & ?)]; eauto.
Qed.

Lemma fits_one m x : fits max [m] x <-> free_at x /\ base m <= x /\ x + s <= limit max m.
Proof.
  unfold fits. setoid_rewrite list_elem_of_singleton. split.
  - intros (? & ? & -> & ?). done.
  - intros (? & ?). eauto.
Qed.

Lemma limit_le m : limit max m <= base m + size m.
Proof. unfold limit. case_match; lia. Qed.

Lemma outer_loop_ok m1 m2 :
  raw (memory l) (m1 ++ m2) -> Forall ok (m1 ++ m2) -> StronglySorted before (m1 ++ m2) ->
  Forall (fun m => base m + size m + align <= 2 ^ 64) (m1 ++ m2) ->
  (forall x, ~ fits max m2 x) ->
  exists r l', __lmb_alloc_loop (length m1) l s align max = Some (r, l') /\
    allocated_top max (m1 ++ m2) r l'.
Proof.
  revert m2. induction m1 as [|m m1 IH] using rev_ind; intros m2 Hr Ho Hso Hal Hn.
  { exists 0, l. split; [done|]. split; [done|]. left. split; [done|]. split; [done|]. by right. }
  rewrite <- app_assoc in *. cbn [app] in *.
  assert ((forall x, ~ fits max [m] x) ->
    exists r l', __lmb_alloc_loop (length m1) l s align max = Some (r, l') /\
      allocated_top max (m1 ++ m :: m2) r l') as Hnext.
  { intros Hno. apply IH; try done. intros x. change (m :: m2) with ([m] ++ m2).
    rewrite fits_app. intros [?|?]; [by eapply Hno|by eapply Hn]. }
  rewrite length_app. cbn [length]. rewrite Nat.add_1_r. cbn [__lmb_alloc_loop].
  change (Z.of_nat (length m1)) with (zlen m1). rewrite (get_raw _ _ _ _ Hr). cbn [mbind option_bind].
  assert (ok m) as Hm by (rewrite Forall_app, Forall_cons in Ho; tauto).
  assert (base m + size m + align <= 2 ^ 64) as Hma by (rewrite Forall_app, Forall_cons in Hal; tauto).
  pose proof (limit_le m) as Hlim.
  destruct (Z.ltb_spec (size m) s) as [Hsz|Hsz].
  { apply Hnext. intros x. rewrite fits_one. lia. }
  pose proof (alloc_start_ok m Hm Hma Hsz) as Hst. cbn zeta in Hst.
  match goal with |- context [match ?st with Some _ => _ | None => _ end] => destruct st as [b|] end.
  2: { apply Hnext. intros x. rewrite fits_one. lia. }
  destruct Hst as (Hb & Hd & Hbl & _ & Hx). destruct Hm as (? & ? & ?).
  destruct (alloc_loop_ok (S (length (region (reserved l)))) (base m) (limit max m) b)
    as (o & -> & Hres); try done; [|lia|].
  { unfold below. pose proof (length_filter (fun q => base q < b + s) rs).
    destruct Ht as [_ [[_ Hrr]|[-> _]]]; [pose proof (raw_fuel _ _ Hrr)|cbn in *]; lia. }
  cbn [mbind option_bind]. destruct o as [[r l']|].
  2: { apply Hnext. intros x. rewrite fits_one. intros (Hf & ? & ?). specialize (Hres x Hf). lia. }
  exists r, l'. split; [done|]. destruct Hres as [Hmem [(-> & -> & Hfull)|(Hf & ? & ? & Htop & Hgr)]].
  { split; [done|]. left. split; [done|]. split; [done|]. by left. }
  split; [done|]. right. change (m :: m2) with ([m] ++ m2). split.
  { rewrite !fits_app, fits_one. right. left. done. }
  split; [|done]. intros x. rewrite !fits_app, fits_one. intros [(Hfx & m' & Hm' & ? & ?)|[(Hfx & ? & ?)|Hfx]].
  - apply sorted_mid in Hso as (_ & Hbef & _). rewrite Forall_forall in Hbef. specialize (Hbef m' Hm').
    unfold before in Hbef. pose proof (limit_le m'). lia.
  - by apply Htop.
  - by apply Hn in Hfx.
Qed.
End alloc.

(** ** The interface *)
(** [lmb_reserve] on a table of regions ordered by base address never leaves the
    array.  It returns -1, with nothing changed, only when all eight entries are used;
    otherwise the table afterwards covers exactly the old addresses and those of the new
    region, and it is again ordered and free of overlap when the old one was and the new
    region overlaps none of its entries.  [lmb_add] does the same to the memory table. *)
Theorem lmb_reserve_spec l rs ms b s :
  table (reserved l) rs -> StronglySorted by_base rs ->
  table (memory l) ms -> StronglySorted by_base ms -> ok (Prop_ b s) ->
  (exists r rgn, lmb_reserve l b s = Some (r, Lmb_ (memory l) rgn) /\ added b s (reserved l) rs r rgn) /\
  (exists r rgn, lmb_add l b s = Some (r, Lmb_ rgn (reserved l)) /\ added b s (memory l) ms r rgn).
Proof.
  intros Ht Hs Htm Hsm Hn. unfold lmb_reserve, lmb_add. split.
  - destruct (add_region_ok b s Hn _ _ Ht Hs) as (r & rgn & -> & Ha). eauto.
  - destruct (add_region_ok b s Hn _ _ Htm Hsm) as (r & rgn & -> & Ha). eauto.
Qed.

(** [lmb_free] on an ordered table without overlap finds the entry that holds the
    whole range.  It returns -1 with the table unchanged when there is none; otherwise
    the range, and nothing else, is no longer covered, and order and disjointness are
    kept.  The exception is a range strictly inside an entry of a full table: -1 comes
    back although the entry has already lost everything from the start of the range. *)
Theorem lmb_free_spec l rs b s :
  table (reserved l) rs -> StronglySorted before rs -> ok (Prop_ b s) ->
  exists r rgn, lmb_free l b s = Some (r, Lmb_ (memory l) rgn) /\ freed b (b + s) (reserved l) rs r rgn.
Proof.
  intros Ht Hs Hn. unfold lmb_free.
  destruct (free_region_ok b s _ _ Hn Ht Hs) as (r & rgn & -> & Hf). eauto.
Qed.

(** [lmb_alloc_base] with a power-of-two alignment returns the highest address that
    is aligned, not zero, inside one memory region and below [max_addr], and where the
    request meets no reserved region, and from then on the table of reserved regions
    covers the request rounded up to the alignment and nothing else that is new.  It
    returns 0, with nothing changed, only when no such address exists or all eight
    entries are used.  The search always ends. *)
Theorem lmb_alloc_base_spec l ms rs k s max :
  0 <= k < 64 -> 0 < s -> max = 0 \/ s <= max ->
  table (memory l) ms -> StronglySorted before ms ->
  Forall (fun m => base m + size m + 2 ^ k <= 2 ^ 64) ms ->
  table (reserved l) rs -> StronglySorted by_base rs ->
  exists r l', lmb_alloc_base l s (2 ^ k) max = Some (r, l') /\ allocated_top k s l rs max ms r l'.
Proof.
  intros Hk Hs Hmax [Ho [[Hne Hr]|[-> (_ & Hc & p & junk & E & Hpb & Hps)]]] Hso Hal Ht Hsort;
    unfold lmb_alloc_base, __lmb_alloc_base.
  - rewrite (raw_cnt _ _ Hr). unfold zlen. rewrite Nat2Z.id.
    pose proof (outer_loop_ok k s Hk Hs l rs Ht Hsort max Hmax ms []) as H. rewrite app_nil_r in H.
    apply H; try done. intros x (_ & m & Hm & _). by apply elem_of_nil in Hm.
  - rewrite Hc. change (Z.to_nat 1) with 1%nat. cbn [__lmb_alloc_loop]. change (Z.of_nat 0) with 0.
    rewrite (get_mid _ [] p junk E : get (memory l) 0 = Some p). cbn [mbind option_bind].
    rewrite Hps. destruct (Z.ltb_spec 0 s); [|lia]. exists 0, l. split; [done|]. split; [done|].
    left. split; [done|]. split; [done|]. right. intros x (_ & m & Hm & _). by apply elem_of_nil in Hm.
Qed.

Lemma is_reserved_loop_ok f rgn l1 l2 a :
  (length l2 < f)%nat -> raw rgn (l1 ++ l2) -> Forall ok l2 ->
  lmb_is_reserved_loop f rgn a (zlen l1) = Some 1 /\ covers l2 a \/
  lmb_is_reserved_loop f rgn a (zlen l1) = Some 0 /\ ~ covers l2 a.
Proof.
  revert l1 f. induction l2 as [|p l2 IH]; intros l1 f Hf Hr Hok;
    (destruct f as [|f]; [cbn in Hf; lia|]); cbn [lmb_is_reserved_loop]; rewrite (raw_cnt _ _ Hr).
  - rewrite app_nil_r, Z.ltb_irrefl. right. split; [done|]. apply covers_nil.
  - pose proof (zlen_nonneg l2). apply Forall_cons in Hok as [(? & ? & ?) Hok].
    destruct (Z.ltb_spec (zlen l1) (zlen (l1 ++ p :: l2))); [|simpl_zlen; lia].
    rewrite (get_raw _ _ _ _ Hr). cbn [mbind option_bind]. rewrite wrap_small by lia.
    rewrite covers_cons. unfold in_reg.
    destruct ((base p <=? a) && (a <=? base p + size p - 1)) eqn:E.
    { left. split; [done|]. left. apply andb_true_iff in E as [?%Z.leb_le ?%Z.leb_le]. lia. }
    apply andb_false_iff in E. rewrite !Z.leb_gt in E.
    replace (zlen l1 + 1) with (zlen (l1 ++ [p])) by (simpl_zlen; lia).
    destruct (IH (l1 ++ [p]) f) as [[-> ?]|[-> ?]];
      [cbn in Hf; lia|by rewrite <- app_assoc|done|left; tauto|right].
    split; [done|]. intros [?|?]; [lia|done].
Qed.

(** [lmb_is_reserved] answers 1 exactly for the addresses a table with at least one
    region covers.  On the table [lmb_init] leaves, with its one region of size zero, it
    answers 1 for every address: the end of the empty region wraps around. *)
Theorem lmb_is_reserved_spec l rs a :
  table (reserved l) rs -> in_u 64 a ->
  (rs <> [] /\ covers rs a \/ rs = [] -> lmb_is_reserved l a = Some 1) /\
  (rs <> [] -> ~ covers rs a -> lmb_is_reserved l a = Some 0).
Proof.
  intros [Ho [[Hne Hr]|[-> (Hl & Hc & p & junk & E & Hpb & Hps)]]] Ha; unfold lmb_is_reserved.
  - destruct (is_reserved_loop_ok (S (length (region (reserved l)))) (reserved l) [] rs a) as [[H1 H2]|[H1 H2]];
      [by apply raw_fuel|done|done|..]; change (zlen []) with 0 in H1; rewrite H1; split; try done.
    intros [[_ ?]|?]; done.
  - split; [|done]. intros _. rewrite Hl. cbn [lmb_is_reserved_loop]. rewrite Hc. cbn [Z.ltb Z.compare].
    rewrite (get_mid _ [] p junk E : get (reserved l) 0 = Some p). cbn [mbind option_bind].
    rewrite Hpb, Hps. change (wrap 64 (0 + 0 - 1)) with (2 ^ 64 - 1). unfold in_u in Ha.
    destruct (Z.leb_spec 0 a); [|lia]. by destruct (Z.leb_spec a (2 ^ 64 - 1)); [|lia].
Qed.

(** Freeing the only reserved region leaves a table with a count of zero, which the
    next [lmb_reserve] does not handle: it compares the old contents of the first two
    entries and, when these are not adjacent and the new region does not start below the
    freed one, reports success while the table covers the freed region again instead of
    the new one. *)
Theorem lmb_free_last_then_reserve l p q :
  raw (reserved l) [p] -> ok p -> ok q -> base p <= base q ->
  lmb_regions_adjacent (reserved l) 0 1 = Some 0 ->
  exists l1 l2, lmb_free l (base p) (size p) = Some (0, l1) /\ raw (reserved l1) [] /\
    lmb_reserve l1 (base q) (size q) = Some (0, l2) /\ raw (reserved l2) [p].
Proof.
  intros Hr Hp Hq Hpq Hadj. destruct l as [mem [c rs reg]]. pose proof Hr as [Hl [junk E] Hc _]. cbn in E, Hc, Hl.
  subst c reg. destruct Hp as (? & ? & ?). destruct Hq as (? & ? & ?).
  exists (Lmb_ mem (Region 0 rs (p :: junk))), (Lmb_ mem (Region 1 rs (p :: junk))).
  assert (forall c l, c = zlen l -> zlen l <= 8 -> (exists j, p :: junk = l ++ j) ->
    raw (Region c rs (p :: junk)) l) as Hraw by (intros c l -> ? ?; by split).
  split; [|split; [apply Hraw; [done|done|by exists (p :: junk)]|
    split; [|apply Hraw; [done|done|by exists junk]]]].
  - unfold lmb_free, lmb_free_region. cbn [reserved memory region].
    injection Hl as Hl. cbn [app length]. rewrite Hl. cbn [lmb_free_loop cnt].
    change (0 <? zlen [p]) with true. cbn [get region lookup list_lookup]. cbn [mbind option_bind].
    change (Region (zlen [p]) rs (p :: junk)) with (Region 1 rs (p :: junk)).
    rewrite (get_mid (Region 1 rs (p :: junk)) [] p junk eq_refl : get (Region 1 rs (p :: junk)) 0 = Some p).
    cbn [mbind option_bind]. rewrite !wrap_small by lia. rewrite !Z.leb_refl. cbn [andb mbind option_bind cnt].
    rewrite !Z.eqb_refl. cbn [Z.eqb andb]. unfold lmb_remove_region. cbn [region length]. by rewrite Hl.
  - unfold lmb_reserve, lmb_add_region. cbn [reserved memory region length]. injection Hl as Hl.
    rewrite Hl. change (get (Region 0 rs (p :: junk)) 0) with (Some p).
    cbn [mbind option_bind cnt Z.eqb andb lmb_coalesce_loop Z.ltb Z.compare].
    change (0 <? wrap 64 (0 - 1)) with true. cbn iota.
    rewrite (Hadj : lmb_regions_adjacent (Region 0 rs (p :: junk)) 0 (0 + 1) = Some 0). cbn.
    change (Z.to_nat 0) with 0%nat. cbn [lmb_insert_loop mbind option_bind region lookup list_lookup].
    destruct (Z.ltb_spec (base q) (base p)); [lia|]. done.
Qed.

Definition demo_table (l : list lmb_property) : lmb_region :=
  Region (zlen l) 0 (take 9 (l ++ repeat (Prop_ 0 0) 9)).
Lemma demo_raw l : zlen l <= 8 -> raw (demo_table l) l.
Proof.
  intros H. unfold zlen in H. split; cbn -[repeat take]; [|exists (take (9 - length l) (repeat (Prop_ 0 0) 9))|done|done].
  - rewrite length_take, length_app, repeat_length. lia.
  - rewrite take_app. f_equal. apply take_ge. lia.
Qed.

Definition demo_lmb : lmb :=
  Lmb_ (demo_table [Prop_ 0x1000 0x8000])
       (demo_table [Prop_ 0x2000 0x100; Prop_ 0x8f00 0x80]).

Lemma demo_memory : table (memory demo_lmb) [Prop_ 0x1000 0x8000].
Proof.
  split; [repeat constructor; by vm_compute|]. left. split; [done|].
  by apply demo_raw; vm_compute.
Qed.
Lemma demo_reserved : table (reserved demo_lmb) [Prop_ 0x2000 0x100; Prop_ 0x8f00 0x80].
Proof.
  split; [repeat constructor; by vm_compute|]. left. split; [done|].
  by apply demo_raw; vm_compute.
Qed.
Lemma demo_sorted : StronglySorted before [Prop_ 0x2000 0x100; Prop_ 0x8f00 0x80].
Proof. repeat constructor. unfold before. cbn. lia. Qed.

Lemma lmb_reserve_spec_witness :
  (exists r rgn, lmb_reserve demo_lmb 0x2100 0x100 = Some (r, Lmb_ (memory demo_lmb) rgn) /\
     added 0x2100 0x100 (reserved demo_lmb) [Prop_ 0x2000 0x100; Prop_ 0x8f00 0x80] r rgn) /\
  (exists r rgn, lmb_add demo_lmb 0x2100 0x100 = Some (r, Lmb_ rgn (reserved demo_lmb)) /\
     added 0x2100 0x100 (memory demo_lmb) [Prop_ 0x1000 0x8000] r rgn).
Proof.
  apply lmb_reserve_spec;
    [exact demo_reserved|apply before_by_base; [apply demo_reserved|exact demo_sorted]
    |exact demo_memory|repeat constructor|by vm_compute].
Defined.

Lemma lmb_free_spec_witness :
  exists r rgn, lmb_free demo_lmb 0x2040 0x10 = Some (r, Lmb_ (memory demo_lmb) rgn) /\
    freed 0x2040 (0x2040 + 0x10) (reserved demo_lmb) [Prop_ 0x2000 0x100; Prop_ 0x8f00 0x80] r rgn.
Proof. apply lmb_free_spec; [exact demo_reserved|exact demo_sorted|by vm_compute]. Defined.

Lemma lmb_alloc_base_spec_witness :
  exists r l', lmb_alloc_base demo_lmb 0x200 (2 ^ 8) 0 = Some (r, l') /\
    allocated_top 8 0x200 demo_lmb [Prop_ 0x2000 0x100; Prop_ 0x8f00 0x80] 0 [Prop_ 0x1000 0x8000] r l'.
Proof.
  apply lmb_alloc_base_spec;
    [lia|lia|by left|exact demo_memory|repeat constructor|repeat constructor; by vm_compute
    |exact demo_reserved|apply before_by_base; [apply demo_reserved|exact demo_sorted]].
Defined.

Lemma lmb_is_reserved_spec_witness :
  lmb_is_reserved (Lmb_ (demo_table []) (demo_table [Prop_ 0 0])) 0x40000000 = Some 1 /\
  lmb_is_reserved demo_lmb 0x2100 = Some 0.
Proof.
  split.
  - apply (lmb_is_reserved_spec (Lmb_ (demo_table []) (demo_table [Prop_ 0 0])) [] 0x40000000);
      [|by vm_compute|by right].
    split; [done|]. right. split; [done|]. split; [done|]. split; [done|].
    by exists (Prop_ 0 0), (repeat (Prop_ 0 0) 8).
  - apply (lmb_is_reserved_spec demo_lmb _ 0x2100 demo_reserved); [by vm_compute|done|].
    intros (p & Hp & Ha). unfold in_reg in Ha.
    apply elem_of_cons in Hp as [->|Hp]; [cbn in Ha; lia|].
    apply list_elem_of_singleton in Hp as ->. cbn in Ha. lia.
Defined.

Lemma lmb_free_last_then_reserve_witness :
  exists l1 l2, lmb_free (Lmb_ (demo_table []) (demo_table [Prop_ 0x1000 0x100])) 0x1000 0x100 = Some (0, l1) /\
    raw (reserved l1) [] /\ lmb_reserve l1 0x3000 0x100 = Some (0, l2) /\
    raw (reserved l2) [Prop_ 0x1000 0x100].
Proof.
  apply (lmb_free_last_then_reserve _ (Prop_ 0x1000 0x100) (Prop_ 0x3000 0x100));
    [by apply demo_raw; vm_compute|by vm_compute..].
Defined.

(** Rounding the size up after the overlap check lets the new entry run into the next
    reserved region. *)
Example lmb_alloc_overlaps_next :
  (r ← lmb_alloc (Lmb_ (demo_table [Prop_ 0x1000 0x1000]) (demo_table [Prop_ 0x1f80 0x80])) 0x110 0x100;
   Some (r.1, take 2 (region (reserved r.2)))) =
  Some (0x1e00, [Prop_ 0x1e00 0x200; Prop_ 0x1f80 0x80]).
Proof. reflexivity. Qed.

(** A request larger than [max_addr] wraps around below zero and is granted outside
    every memory region. *)
Example lmb_alloc_base_wraps :
  (r ← lmb_alloc_base (Lmb_ (demo_table [Prop_ 0x1000 0x3000]) (demo_table [Prop_ 0x1f80 0x80]))
         0x2000 0x100 0x1100;
   Some r.1) = Some (2 ^ 64 - 0xf00).
Proof. reflexivity. Qed.
