(* ===== verification/Qsort.v ===== *)
(** * Sorting: lib/qsort.c

    The array is a list of elements of [width] bytes; [wgap], [i], [j] and [nel] are byte
    offsets as in the code, and [elt] finds the element at an offset.  The [assert] on
    [nel * width] is a hypothesis of the theorems, so the offsets do not wrap. *)

From Stdlib Require Import ZArith Lia Permutation.
From stdpp Require Import base option list numbers sorting.
From S2P Require Import Prelude.
Open Scope Z_scope.

Section qsort.
Context {A : Type} (comp : A -> A -> Z) (width : Z).

Definition elt (base : list A) (off : Z) : option A :=
  if off <? 0 then None else base !! Z.to_nat (off / width).

(** The [width] bytes of the two elements change places. *)
Definition swap (base : list A) (a b : Z) : option (list A) :=
  x ← elt base a; y ← elt base b;
  Some (<[Z.to_nat (b / width) := x]> (<[Z.to_nat (a / width) := y]> base)).

(** The innermost loop: the element at [j] sinks in steps of [wgap]. *)
Fixpoint sift (f : nat) (base : list A) (wgap j : Z) : option (list A) :=
  match f with
  | O => None
  | S f =>
      let j := j - wgap in
      a ← elt base j; b ← elt base (j + wgap);
      if comp a b <=? 0 then Some base
      else
        base ← swap base j (j + wgap);
        if wgap <=? j then sift f base wgap j else Some base
  end.

(** The loop over [i]. *)
Fixpoint pass (f : nat) (base : list A) (wgap nel i : Z) : option (list A) :=
  match f with
  | O => None
  | S f =>
      base ← sift (S (length base)) base wgap i;
      let i := i + width in
      if i <? nel then pass f base wgap nel i else Some base
  end.

(** The loop over the gaps. *)
Fixpoint gaps (f : nat) (base : list A) (wgap nel : Z) : option (list A) :=
  match f with
  | O => None
  | S f =>
      base ← pass (S (length base)) base wgap nel wgap;
      let wgap := (wgap - width) / 3 in
      if wgap =? 0 then Some base else gaps f base wgap nel
  end.

Fixpoint first_gap (f : nat) (nel wgap : Z) : option Z :=
  match f with
  | O => None
  | S f =>
      let wgap := 3 * wgap + 1 in
      if wgap <? (nel - 1) / 3 then first_gap f nel wgap else Some wgap
  end.

Definition qsort (base : list A) (nel : Z) : option (list A) :=
  if (1 <? nel) && (0 <? width) then
    wgap ← first_gap (S (length base)) nel 0;
    gaps (S (length base)) base (wgap * width) (nel * width)
  else Some base.
End qsort.

(** ** One element sinks *)
Section props.
Context {A : Type} (comp : A -> A -> Z) (width : Z) (Hw : 0 < width).

Lemma elt_ok (base : list A) n : elt width base (Z.of_nat n * width) = base !! n.
Proof.
  unfold elt. destruct (Z.ltb_spec (Z.of_nat n * width) 0); [lia|].
  by rewrite Z.div_mul, Nat2Z.id by lia.
Qed.

Lemma swap_perm (base : list A) a b x y :
  base !! a = Some x -> base !! b = Some y -> <[b := x]> (<[a := y]> base) ≡ₚ base.
Proof.
  intros Ha Hb. destruct (decide (a = b)) as [<-|Hne].
  { simplify_eq. by rewrite list_insert_insert_eq, list_insert_id. }
  symmetry. apply Permutation_inj. split; [by rewrite !length_insert|].
  exists (fun i => if decide (i = a) then b else if decide (i = b) then a else i).
  split; [intros i j; repeat case_decide; congruence|].
  intros i. pose proof (lookup_lt_Some _ _ _ Ha). pose proof (lookup_lt_Some _ _ _ Hb).
  repeat case_decide; subst.
  - rewrite list_lookup_insert_eq by (rewrite length_insert; lia). done.
  - rewrite list_lookup_insert_ne by done. by rewrite list_lookup_insert_eq by lia.
  - rewrite !list_lookup_insert_ne by done. done.
Qed.

Lemma swap_ok (base : list A) a b x y :
  base !! a = Some x -> base !! b = Some y ->
  swap width base (Z.of_nat a * width) (Z.of_nat b * width) = Some (<[b := x]> (<[a := y]> base)).
Proof.
  intros Ha Hb. unfold swap. rewrite !elt_ok, Ha, Hb. cbn.
  by rewrite !Z.div_mul, !Nat2Z.id by lia.
Qed.

Lemma sift_perm f base g n :
  (0 < g <= n)%nat -> (n < length base)%nat -> (n < f)%nat ->
  exists base', sift comp width f base (Z.of_nat g * width) (Z.of_nat n * width) = Some base' /\
    base' ≡ₚ base.
Proof.
  revert base n. induction f as [|f IH]; intros base n Hg Hn Hf; [lia|]. cbn [sift].
  replace (Z.of_nat n * width - Z.of_nat g * width) with (Z.of_nat (n - g) * width) by nia.
  replace (Z.of_nat (n - g) * width + Z.of_nat g * width) with (Z.of_nat n * width) by nia.
  destruct (lookup_lt_is_Some_2 base (n - g) ltac:(lia)) as [x Hx].
  destruct (lookup_lt_is_Some_2 base n ltac:(lia)) as [y Hy].
  rewrite !elt_ok, Hx, Hy. cbn [mbind option_bind].
  destruct (comp x y <=? 0); [by eexists|]. rewrite (swap_ok _ _ _ _ _ Hx Hy). cbn [mbind option_bind].
  pose proof (swap_perm _ _ _ _ _ Hx Hy) as Hp.
  destruct (Z.leb_spec (Z.of_nat g * width) (Z.of_nat (n - g) * width)); [|by eexists].
  destruct (IH (<[n := x]> (<[n - g := y]> base))%nat (n - g)%nat) as (base' & -> & Hp');
    [nia|rewrite !length_insert; lia|lia|].
  eexists. split; [done|]. by rewrite Hp'.
Qed.

Lemma pass_perm f base g n :
  (0 < g <= n)%nat -> (n < length base)%nat -> (length base < n + f)%nat ->
  exists base', pass comp width f base (Z.of_nat g * width) (zlen base * width) (Z.of_nat n * width)
    = Some base' /\ base' ≡ₚ base.
Proof.
  revert base n. induction f as [|f IH]; intros base n Hg Hn Hf; [lia|]. cbn [pass].
  destruct (sift_perm (S (length base)) base g n) as (base1 & -> & Hp); [lia..|].
  cbn [mbind option_bind]. pose proof (Permutation_length Hp) as Hl.
  replace (Z.of_nat n * width + width) with (Z.of_nat (S n) * width) by lia.
  destruct (Z.ltb_spec (Z.of_nat (S n) * width) (zlen base * width)) as [Hlt|]; [|by eexists].
  unfold zlen in *. rewrite <- Hl in *.
  destruct (IH base1 (S n)) as (base' & -> & Hp'); [lia|nia|lia|].
  eexists. split; [done|]. by rewrite Hp'.
Qed.

(** The gaps are 1, 4, 13, 40, ...: dividing by three is exact. *)
Definition gap_ok (g : nat) : Prop := exists k : nat, (2 * g + 1 = 3 ^ S k)%nat.

Lemma gap_next g : gap_ok g -> g = 1%nat \/ exists g', g = (3 * g' + 1)%nat /\ gap_ok g'.
Proof.
  intros [[|k] Hk]; [left; cbn in Hk; lia|right].
  assert (exists m, (3 ^ S k = 2 * m + 1)%nat) as [m Hm].
  { clear Hk. induction k as [|k [m Hm]]; [by exists 1%nat|].
    exists (3 * m + 1)%nat. rewrite Nat.pow_succ_r', Hm. lia. }
  exists m. rewrite Nat.pow_succ_r' in Hk. split; [lia|]. exists k. lia.
Qed.

Lemma gaps_last f base g :
  gap_ok g -> (g < length base)%nat -> (g < f)%nat ->
  exists base1, base1 ≡ₚ base /\
    gaps comp width f base (Z.of_nat g * width) (zlen base * width) =
    pass comp width (S (length base1)) base1 width (zlen base1 * width) width.
Proof.
  revert base g. induction f as [|f IH]; intros base g Hg Hn Hf; [lia|]. cbn [gaps].
  destruct (gap_next g Hg) as [->|(g' & -> & Hg')].
  - exists base. split; [done|]. rewrite !Z.mul_1_l. rewrite Z.sub_diag. cbn [Z.div Z.eqb Z.div_eucl].
    by destruct (pass _ _ _ _ _ _ _).
  - destruct (pass_perm (S (length base)) base (3 * g' + 1) (3 * g' + 1)) as (base1 & -> & Hp); [lia..|].
    cbn [mbind option_bind].
    replace (Z.of_nat (3 * g' + 1) * width - width) with (Z.of_nat g' * width * 3) by lia.
    rewrite Z.div_mul by lia. assert (0 < g')%nat by (destruct Hg' as [k Hk]; cbn in Hk; lia).
    destruct (Z.eqb_spec (Z.of_nat g' * width) 0); [nia|].
    pose proof (Permutation_length Hp) as Hl. unfold zlen. rewrite <- Hl.
    destruct (IH base1 g') as (base2 & Hp2 & E); [done|lia|lia|].
    unfold zlen in E. rewrite E. exists base2. split; [|done]. by rewrite Hp2.
Qed.

Lemma first_gap_ok f nel w :
  (w = 0 \/ gap_ok w /\ 3 * w + 3 < nel)%nat -> (1 < nel)%nat -> (nel <= w + f)%nat ->
  exists g, first_gap f (Z.of_nat nel) (Z.of_nat w) = Some (Z.of_nat g) /\ gap_ok g /\ (g < nel)%nat.
Proof.
  revert w. induction f as [|f IH]; intros w Hok Hn Hf; [lia|]. cbn [first_gap].
  replace (3 * Z.of_nat w + 1) with (Z.of_nat (3 * w + 1)) by lia.
  assert (gap_ok (3 * w + 1)) as Hg.
  { destruct Hok as [->|[[k Hk] _]]; [by exists 0%nat|]. exists (S k). rewrite Nat.pow_succ_r'. lia. }
  destruct (Z.ltb_spec (Z.of_nat (3 * w + 1)) ((Z.of_nat nel - 1) / 3)).
  - apply IH; [right; split; [done|dlia]|done|lia].
  - exists (3 * w + 1)%nat. split; [done|]. split; [done|]. lia.
Qed.

(** ** The last pass is insertion sort *)
(** Where the element stops. *)
Lemma sift_insert f l1 x l2 :
  l1 <> [] -> (length l1 < f)%nat ->
  exists k1 k2, l1 = k1 ++ k2 /\
    sift comp width f (l1 ++ x :: l2) width (zlen l1 * width) = Some (k1 ++ x :: k2 ++ l2) /\
    Forall (fun b => 0 < comp b x) k2 /\ (forall a, last k1 = Some a -> comp a x <= 0).
Proof.
  revert f l2. induction l1 as [|a l1 IH] using rev_ind; intros f l2 Hne Hf; [done|].
  rewrite length_app in Hf. cbn in Hf. destruct f as [|f]; [lia|]. cbn [sift]. simpl_zlen.
  replace ((zlen l1 + (1 + 0)) * width - width) with (Z.of_nat (length l1) * width) by (unfold zlen; lia).
  replace (Z.of_nat (length l1) * width + width) with (Z.of_nat (S (length l1)) * width) by lia.
  assert (((l1 ++ [a]) ++ x :: l2) !! length l1 = Some a) as Ha.
  { rewrite <- app_assoc. cbn. by apply list_lookup_middle. }
  assert (((l1 ++ [a]) ++ x :: l2) !! S (length l1) = Some x) as Hx.
  { apply list_lookup_middle. rewrite length_app. cbn. lia. }
  rewrite !elt_ok, Ha, Hx. cbn [mbind option_bind].
  destruct (Z.leb_spec (comp a x) 0).
  { exists (l1 ++ [a]), []. rewrite app_nil_r. split; [done|]. split; [done|]. split; [done|].
    intros b. rewrite last_snoc. by intros [= <-]. }
  rewrite (swap_ok _ _ _ _ _ Ha Hx). cbn [mbind option_bind].
  assert (<[S (length l1):=a]> (<[length l1:=x]> ((l1 ++ [a]) ++ x :: l2)) = l1 ++ x :: a :: l2) as ->.
  { rewrite <- app_assoc. cbn [app]. rewrite insert_app_r_alt, Nat.sub_diag by lia. cbn.
    rewrite insert_app_r_alt by lia. by replace (S (length l1) - length l1)%nat with 1%nat by lia. }
  destruct (Z.leb_spec width (Z.of_nat (length l1) * width)) as [Hle|Hle].
  - destruct (IH f (a :: l2)) as (k1 & k2 & -> & Hs & Hk2 & Hk1);
      [intros ->; cbn in Hle; lia|lia|].
    unfold zlen in Hs. rewrite Hs. exists k1, (k2 ++ [a]). rewrite <- !app_assoc.
    split; [done|]. split; [done|]. split; [|done]. by rewrite Forall_app, Forall_singleton.
  - destruct l1 as [|y l1]; [|cbn in Hle; nia]. exists [], [a]. split; [done|]. split; [done|].
    split; [by rewrite Forall_singleton|done].
Qed.

Section order.
(** The comparison is that of a total preorder. *)
Context (Htrans : forall a b c, comp a b <= 0 -> comp b c <= 0 -> comp a c <= 0).
Context (Htotal : forall a b, 0 < comp a b -> comp b a <= 0).

Let R (a b : A) : Prop := comp a b <= 0.

Lemma sift_sorted l1 k1 k2 x :
  StronglySorted R l1 -> l1 = k1 ++ k2 -> Forall (fun b => 0 < comp b x) k2 ->
  (forall a, last k1 = Some a -> comp a x <= 0) -> StronglySorted R (k1 ++ x :: k2).
Proof.
  intros Hs -> Hk2 Hk1.
  assert (Forall (fun a => R a x) k1) as H1.
  { destruct k1 as [|a k1] using rev_ind; [done|]. clear IHk1.
    specialize (Hk1 a (last_snoc _ _)). rewrite <- app_assoc in Hs. cbn in Hs.
    apply Forall_app. split; [|by constructor]. clear Hk2.
    induction k1 as [|b k1 IH]; [done|]. cbn in Hs. apply StronglySorted_inv in Hs as [Hs Hb].
    constructor; [|by apply IH]. apply Forall_app in Hb as [_ Hb]. apply Forall_cons in Hb as [Hb _].
    by eapply Htrans. }
  assert (Forall (R x) k2) as H2.
  { eapply Forall_impl; [exact Hk2|]. intros b Hb. by apply Htotal. }
  clear Hk1 Hk2. induction k1 as [|a k1 IH]; cbn in *; [by constructor|].
  apply StronglySorted_inv in Hs as [Hs Ha]. apply Forall_cons in H1 as [Hax H1].
  constructor; [by apply IH|]. apply Forall_app in Ha as [? ?].
  apply Forall_app. split; [done|]. by constructor.
Qed.

Lemma pass_sorted f l1 l2 :
  l1 <> [] -> l2 <> [] -> StronglySorted R l1 -> (length l2 < f)%nat ->
  exists base', pass comp width f (l1 ++ l2) width (zlen (l1 ++ l2) * width) (zlen l1 * width) = Some base' /\
    StronglySorted R base'.
Proof.
  revert l1 l2. induction f as [|f IH]; intros l1 l2 H1 H2 Hs Hf; [lia|].
  destruct l2 as [|x l2]; [done|]. cbn [pass].
  destruct (sift_insert (S (length (l1 ++ x :: l2))) l1 x l2) as (k1 & k2 & E & -> & Hk2 & Hk1);
    [done|rewrite length_app; lia|].
  cbn [mbind option_bind]. pose proof (sift_sorted _ _ _ _ Hs E Hk2 Hk1) as Hs'.
  assert (zlen (k1 ++ x :: k2) = zlen l1 + 1) as Hl by (rewrite E; simpl_zlen; lia).
  replace (zlen l1 * width + width) with (zlen (k1 ++ x :: k2) * width) by lia.
  replace (k1 ++ x :: k2 ++ l2) with ((k1 ++ x :: k2) ++ l2) by by rewrite <- app_assoc.
  pose proof (zlen_nonneg l2).
  destruct (Z.ltb_spec (zlen (k1 ++ x :: k2) * width) (zlen (l1 ++ x :: l2) * width)) as [Hlt|Hge].
  - replace (zlen (l1 ++ x :: l2)) with (zlen ((k1 ++ x :: k2) ++ l2)) by (revert Hl; simpl_zlen; lia).
    apply IH; [by destruct k1| |done|cbn in Hf; lia].
    intros ->. revert Hlt. simpl_zlen. nia.
  - eexists. split; [done|]. destruct l2; [by rewrite app_nil_r|].
    exfalso. revert Hge Hl. simpl_zlen. pose proof (zlen_nonneg l2). nia.
Qed.
End order.

Lemma qsort_ok base :
  exists base', qsort comp width base (zlen base) = Some base' /\ base' ≡ₚ base /\
    ((forall a b c, comp a b <= 0 -> comp b c <= 0 -> comp a c <= 0) ->
     (forall a b, 0 < comp a b -> comp b a <= 0) ->
     StronglySorted (fun a b => comp a b <= 0) base').
Proof.
  unfold qsort. destruct (Z.ltb_spec 0 width); [|lia]. rewrite andb_true_r.
  destruct (Z.ltb_spec 1 (zlen base)) as [Hn|Hn].
  2: { exists base. split; [done|]. split; [done|]. intros _ _.
       destruct base as [|x [|y base]]; [constructor|by repeat constructor|].
       revert Hn. simpl_zlen. pose proof (zlen_nonneg base). lia. }
  unfold zlen in Hn.
  destruct (first_gap_ok (S (length base)) (length base) 0) as (g & E & Hg & Hgn); [by left|lia|lia|].
  rewrite (E : first_gap (S (length base)) (zlen base) 0 = _).
  cbn [mbind option_bind].
  destruct (gaps_last (S (length base)) base g) as (base1 & Hp & ->); [done|done|lia|].
  pose proof (Permutation_length Hp) as Hl.
  destruct (pass_perm (S (length base1)) base1 1 1) as (base' & E' & Hp'); [lia..|].
  rewrite !Z.mul_1_l in E'. rewrite E'. exists base'. split; [done|]. split; [by rewrite Hp'|].
  intros Ht Ho. destruct base1 as [|x l]; [cbn in Hl; lia|].
  destruct (pass_sorted Ht Ho (S (length (x :: l))) [x] l) as (base2 & E2 & Hs);
    [done|intros ->; cbn in Hl; lia|by repeat constructor|cbn; lia|].
  change (zlen [x]) with 1 in E2. rewrite Z.mul_1_l in E2. cbn [app] in E2. rewrite E2 in E'.
  by injection E' as <-.
Qed.
End props.

(** [qsort] always returns, never reads or writes outside the array, and leaves a
    permutation of it whatever the comparison says; when the comparison is that of a
    total preorder the result is sorted by it. *)
Theorem qsort_spec {A} (comp : A -> A -> Z) (width : Z) (base : list A) :
  0 < width ->
  exists base', qsort comp width base (zlen base) = Some base' /\ base' ≡ₚ base /\
    ((forall a b c, comp a b <= 0 -> comp b c <= 0 -> comp a c <= 0) ->
     (forall a b, 0 < comp a b -> comp b a <= 0) ->
     StronglySorted (fun a b => comp a b <= 0) base').
Proof. intros Hw. by apply qsort_ok. Qed.

Lemma qsort_spec_witness :
  exists base', qsort Z.sub 8 [5; 2; 9; 4; 1; 7] 6 = Some base' /\ base' ≡ₚ [5; 2; 9; 4; 1; 7] /\
    ((forall a b c, a - b <= 0 -> b - c <= 0 -> a - c <= 0) ->
     (forall a b, 0 < a - b -> b - a <= 0) -> StronglySorted (fun a b => a - b <= 0) base').
Proof. apply (qsort_spec Z.sub 8 [5; 2; 9; 4; 1; 7]). lia. Defined.
