(* ===== verification/HashTable.v ===== *)
(** * The environment's hash table: lib/hashtable.c, include/search.h

    A NUL-terminated string is the list of its bytes; a null pointer, and the pointer of
    a freed string, is [None].  The state is the table, [errno] and the outcomes of the
    next allocations ([true] a block, [false] NULL; past the end of the list every
    allocation succeeds).  [htab == NULL] and the debug and warning messages are not
    modelled.  The code that looks up a new entry's callback and flags, and the regular
    expressions of lib/slre.c, are interfaces. *)

From Stdlib Require Import ZArith Lia.
From stdpp Require Import base option list numbers.
From S2P Require Import Prelude CMonad CString Qsort.
Open Scope Z_scope.
Open Scope cint_scope.

(** ** Strings as lists *)
Fixpoint str_cmp (s t : list Z) : Z :=
  match s with
  | [] => s8 (0 - default 0 (head t))
  | c :: s =>
      let res := s8 (c - default 0 (head t)) in
      if negb (res =? 0) then res else str_cmp s (tail t)
  end.
Fixpoint str_ncmp (n : nat) (s t : list Z) : Z :=
  match n with
  | O => 0
  | S n =>
      let res := s8 (default 0 (head s) - default 0 (head t)) in
      if negb (res =? 0) || (default 0 (head s) =? 0) then res else str_ncmp n (tail s) (tail t)
  end.
(** [strstr(s, t) != NULL]. *)
Fixpoint str_str (s t : list Z) : bool :=
  bool_decide (t = take (length t) s) || match s with [] => false | _ :: s => str_str s t end.

Module Hash.

Inductive env_op := env_op_create | env_op_delete | env_op_overwrite.
Inductive ACTION := FIND | ENTER.

Record ENTRY := Entry {
  key : option (list Z);
  data : option (list Z);
  callback : option (list Z -> option (list Z) -> env_op -> Z -> Z);
  flags : Z
}.
Record _ENTRY := _Entry { used : Z; entry : ENTRY }.

Record hsearch_data := Htab {
  table : option (list _ENTRY);
  size : Z;
  filled : Z;
  change_ok : option (ENTRY -> option (list Z) -> env_op -> Z -> Z)
}.

Definition EPERM := 1.
Definition ESRCH := 3.
Definition ENOMEM := 12.
Definition EINVAL := 22.

Definition H_NOCLEAR := 1.
Definition H_FORCE := 2.
Definition H_HIDE_DOT := 8.
Definition H_MATCH_KEY := 16.
Definition H_MATCH_DATA := 32.
Definition H_MATCH_IDENT := 64.
Definition H_MATCH_SUBSTR := 128.
Definition H_MATCH_REGEX := 256.
Definition H_MATCH_METHOD := Z.lor H_MATCH_IDENT (Z.lor H_MATCH_SUBSTR H_MATCH_REGEX).

Record state := State { htab : hsearch_data; errno : Z; allocs : list bool }.

Abbreviation H := (M state).

Definition set_errno (e : Z) : H unit := modify (fun s => State (htab s) e (allocs s)).
Definition set_htab (h : hsearch_data) : H unit := modify (fun s => State h (errno s) (allocs s)).
Definition alloc : H bool :=
  fun s => Some (default true (head (allocs s)), State (htab s) (errno s) (tail (allocs s))).
Definition strdup (s : option (list Z)) : H (option (list Z)) :=
  match s with None => mret None | Some _ => ok ← alloc; mret (if ok : bool then s else None) end.

(** [htab->table[idx]], read and written. *)
Definition slot (idx : Z) : H _ENTRY :=
  h ← gets htab; t ← must (table h); if idx <? 0 then must None else must (t !! Z.to_nat idx).
Definition set_slot (idx : Z) (e : _ENTRY) : H unit :=
  h ← gets htab; t ← must (table h);
  if (0 <=? idx) && (idx <? zlen t)
  then set_htab (Htab (Some (<[Z.to_nat idx := e]> t)) (size h) (filled h) (change_ok h))
  else must None.
Definition set_filled (n : Z) : H unit :=
  h ← gets htab; set_htab (Htab (table h) (size h) n (change_ok h)).

(** What the table needs from common/env_callback.c and common/env_flags.c: both fill in
    fields of a new entry and leave its key and data alone. *)
Class EnvHooks := {
  env_callback_init : hsearch_data -> ENTRY -> ENTRY;
  env_flags_init : hsearch_data -> ENTRY -> ENTRY
}.

Class EnvHooksLaws `{EnvHooks} : Prop := {
  env_callback_init_keeps h e :
    key (env_callback_init h e) = key e /\ data (env_callback_init h e) = data e;
  env_flags_init_keeps h e :
    key (env_flags_init h e) = key e /\ data (env_flags_init h e) = data e
}.

(** lib/slre.c: [None] is a pattern that does not compile. *)
Class Slre := {
  slre : Type;
  slre_compile : list Z -> option slre;
  slre_match : slre -> list Z -> bool
}.

(** ** Creation *)
(** [div * div] wraps at 32 bits; the fuel bounds the divisors tried. *)
Fixpoint isprime_loop (f : nat) (number div : Z) : option Z :=
  match f with
  | O => None
  | S f =>
      if (div *u32 div <? number) && negb (number mod div =? 0)
      then isprime_loop f number (div +u32 2) else Some div
  end.
Definition isprime (number : Z) : option bool :=
  div ← isprime_loop (S (Z.to_nat number)) number 3; Some (negb (number mod div =? 0)).

Fixpoint next_prime (f : nat) (nel : Z) : option Z :=
  match f with
  | O => None
  | S f => p ← isprime nel; if p : bool then Some nel else next_prime f (nel + 2)
  end.

Definition blank_entry : _ENTRY := _Entry 0 (Entry None None None 0).

(** The fuel of the search for a prime is [2 * nel + 8]. *)
Definition hcreate_r (nel : Z) : H Z :=
  h ← gets htab;
  match table h with
  | Some _ => mret 0
  | None =>
      let nel := Z.lor nel 1 in
      sz ← must (next_prime (Z.to_nat (2 * nel + 8)) nel);
      ok ← alloc;
      set_htab (Htab (if ok : bool then Some (replicate (Z.to_nat (sz + 1)) blank_entry) else None)
                     sz 0 (change_ok h));;
      mret (if ok : bool then 1 else 0)
  end.

(** [free] has no effect the model can see. *)
Definition hdestroy_r : H unit :=
  h ← gets htab; set_htab (Htab None (size h) (filled h) (change_ok h)).

(** ** Search *)
Fixpoint hmatch_loop (f : nat) (match_ : list Z) (idx : Z) : H (Z * option Z) :=
  match f with
  | O => must None
  | S f =>
      h ← gets htab;
      if idx <? size h then
        e ← slot idx;
        if used e <=? 0 then hmatch_loop f match_ (idx +u32 1)
        else
          k ← must (key (entry e));
          if str_ncmp (length match_) match_ k =? 0 then mret (idx, Some idx)
          else hmatch_loop f match_ (idx +u32 1)
      else set_errno ESRCH;; mret (0, None)
  end.
Definition hmatch_r (match_ : list Z) (last_idx : Z) : H (Z * option Z) :=
  h ← gets htab; hmatch_loop (S (Z.to_nat (size h))) match_ (last_idx +u32 1).

(** [htab->change_ok != NULL && htab->change_ok(...)] and the same for a callback. *)
Definition change_refused (h : hsearch_data) (e : ENTRY) (d : option (list Z)) (op : env_op) (flag : Z) : bool :=
  match change_ok h with Some ok => negb (ok e d op flag =? 0) | None => false end.
Definition callback_refused (e : ENTRY) (k : list Z) (d : option (list Z)) (op : env_op) (flag : Z) : bool :=
  match callback e with Some cb => negb (cb k d op flag =? 0) | None => false end.

(** The value returned and [*retval] as the index of an entry; -1 leaves [*retval]. *)
Definition _compare_and_overwrite_entry (k : list Z) (d : option (list Z)) (action : ACTION)
    (flag hval idx : Z) : H (Z * option Z) :=
  e ← slot idx;
  if u32 (used e) =? hval then
    kk ← must (key (entry e));
    if str_cmp k kk =? 0 then
      match action, d with
      | ENTER, Some _ =>
          h ← gets htab;
          if change_refused h (entry e) d env_op_overwrite flag then set_errno EPERM;; mret (0, None)
          else
            if callback_refused (entry e) k d env_op_overwrite flag then set_errno EINVAL;; mret (0, None)
            else
              new ← strdup d;
              set_slot idx (_Entry (used e) (Entry (key (entry e)) new (callback (entry e)) (flags (entry e))));;
              match new with
              | None => set_errno ENOMEM;; mret (0, None)
              | Some _ => mret (idx, Some idx)
              end
      | _, _ => mret (idx, Some idx)
      end
    else mret (-1, None)
  else mret (-1, None).

(** The characters from the last to the first; [char] is unsigned on ARM. *)
Definition hash (k : list Z) : Z :=
  foldl (fun hval c => u32 (u32 (Z.shiftl hval 4) + c)) (u32 (zlen k)) (reverse k).

(** [hval] after the first hash function; the table size must not be zero. *)
Definition first_hash (k : list Z) (sz : Z) : option Z :=
  if sz =? 0 then None
  else let hval := hash k mod sz in Some (if hval =? 0 then hval + 1 else hval).
Definition second_hash (hval sz : Z) : option Z :=
  if sz -u32 2 =? 0 then None else Some (1 + hval mod (sz -u32 2)).

(** The next index of the probe sequence. *)
Definition probe_next (sz hval2 idx : Z) : Z :=
  if idx <=? hval2 then u32 (sz + idx - hval2) else idx - hval2.

(** The [do] loop: [inl] is a return from the function, [inr idx] leaves the loop. *)
Fixpoint probe (f : nat) (k : list Z) (d : option (list Z)) (action : ACTION)
    (flag hval hval2 idx : Z) : H ((Z * option Z) + Z) :=
  match f with
  | O => must None
  | S f =>
      h ← gets htab;
      let idx := probe_next (size h) hval2 idx in
      if idx =? hval then mret (inr idx)
      else
        r ← _compare_and_overwrite_entry k d action flag hval idx;
        if negb (r.1 =? -1) then mret (inl r)
        else
          e ← slot idx;
          if used e =? 0 then mret (inr idx) else probe f k d action flag hval hval2 idx
  end.

Definition _hdelete (idx : Z) : H unit :=
  set_slot idx (_Entry (-1) (Entry None None None 0));;
  h ← gets htab; set_filled (filled h -u32 1).

Section with_hooks.
Context `{EnvHooks}.

(** The checks on a new entry [e], which has been stored at [idx]. *)
Definition check_entry (k : list Z) (d : option (list Z)) (flag idx : Z) (e : ENTRY) : H (Z * option Z) :=
  h ← gets htab;
  if change_refused h e d env_op_create flag then _hdelete idx;; set_errno EPERM;; mret (0, None)
  else if callback_refused e k d env_op_create flag then _hdelete idx;; set_errno EINVAL;; mret (0, None)
  else mret (1, Some idx).

(** The new entry at [idx]: from [htab->table[idx].used = hval] on. *)
Definition create_entry (k : list Z) (d : option (list Z)) (flag hval idx : Z) : H (Z * option Z) :=
  e ← slot idx;
  newk ← strdup (Some k);
  newd ← strdup d;
  let e := Entry newk newd (callback (entry e)) (flags (entry e)) in
  set_slot idx (_Entry hval e);;
  if negb (bool_decide (is_Some newk) && bool_decide (is_Some newd))
  then set_errno ENOMEM;; mret (0, None)
  else
    h ← gets htab;
    set_filled (filled h +u32 1);;
    h ← gets htab;
    let e := env_callback_init h e in
    set_slot idx (_Entry hval e);;
    h ← gets htab;
    let e := env_flags_init h e in
    set_slot idx (_Entry hval e);;
    check_entry k d flag idx e.

(** [inl] is a return, [inr (idx, first_deleted)] reaches the empty bucket. *)
Definition hsearch_find (k : list Z) (d : option (list Z)) (action : ACTION) (flag hval : Z)
    : H ((Z * option Z) + (Z * Z)) :=
  e ← slot hval;
  if negb (used e =? 0) then
    let first_deleted := if used e =? -1 then hval else 0 in
    r ← _compare_and_overwrite_entry k d action flag hval hval;
    if negb (r.1 =? -1) then mret (inl r)
    else
      h ← gets htab;
      hval2 ← must (second_hash hval (size h));
      o ← probe (S (Z.to_nat (size h))) k d action flag hval hval2 hval;
      match o with
      | inl r => mret (inl r)
      | inr idx => mret (inr (idx, first_deleted))
      end
  else mret (inr (hval, 0)).

Definition hsearch_r (k : list Z) (d : option (list Z)) (action : ACTION) (flag : Z)
    : H (Z * option Z) :=
  h ← gets htab;
  hval ← must (first_hash k (size h));
  o ← hsearch_find k d action flag hval;
  match o with
  | inl r => mret r
  | inr (idx, first_deleted) =>
      match action with
      | ENTER =>
          h ← gets htab;
          if filled h =? size h then set_errno ENOMEM;; mret (0, None)
          else create_entry k d flag hval (if negb (first_deleted =? 0) then first_deleted else idx)
      | FIND => set_errno ESRCH;; mret (0, None)
      end
  end.

Definition hdelete_r (k : list Z) (flag : Z) : H Z :=
  '(idx, ep) ← hsearch_r k None FIND 0;
  if idx =? 0 then set_errno ESRCH;; mret 0
  else
    e ← slot idx;
    h ← gets htab;
    if change_refused h (entry e) None env_op_delete flag then set_errno EPERM;; mret 0
    else
      if callback_refused (entry e) k None env_op_delete flag then set_errno EINVAL;; mret 0
      else _hdelete idx;; mret 1.
End with_hooks.

End Hash.
