(* ===== verification/HashTableProps.v ===== *)
(** * Properties of the environment's hash table

    The table represents a finite map from names to values: every operation is shown to
    implement the operation on the map, as long as a bucket that was never used is left;
    what happens when none is left is a theorem of its own. *)

From Stdlib Require Import ZArith Lia Znumtheory.
From stdpp Require Import base option list numbers gmap.
From S2P Require Import Prelude CMem CMonad CString CStringProps HashTable.
Import Hash.
Open Scope Z_scope.

(** ** Strings *)
(** The characters of a C string. *)
Definition chars (s : list Z) : Prop := Forall (fun c => 0 < c < 256) s.

#[global] Instance chars_dec s : Decision (chars s).
Proof. unfold chars. apply _. Defined.

Lemma chars_cons c s : chars (c :: s) <-> 0 < c < 256 /\ chars s.
Proof. unfold chars. by rewrite Forall_cons. Qed.

Lemma s8_diff_zero a b : 0 <= a < 256 -> 0 <= b < 256 -> s8 (a - b) = 0 -> a = b.
Proof. intros Ha Hb H. by apply s8_sub_zero. Qed.

Lemma str_cmp_refl s : str_cmp s s = 0.
Proof. induction s as [|c s IH]; [done|]. cbn. by rewrite Z.sub_diag. Qed.

Lemma str_cmp_eq s t : chars s -> chars t -> str_cmp s t = 0 <-> s = t.
Proof.
  intros Hs Ht. split; [|intros ->; apply str_cmp_refl]. revert t Ht.
  induction Hs as [|c s Hc Hs IH]; intros [|d t] Ht; cbn [str_cmp head default from_option tail id]; try done.
  - apply chars_cons in Ht as [Hd _]. intros E%s8_diff_zero; lia.
  - destruct (Z.eqb_spec (s8 (c - 0)) 0) as [E|E]; cbn; [|done].
    apply s8_diff_zero in E; lia.
  - apply chars_cons in Ht as [Hd Ht].
    destruct (Z.eqb_spec (s8 (c - d)) 0) as [E|E]; cbn; [|done].
    apply s8_diff_zero in E; [|lia..]. intros H. f_equal; [done|]. by apply IH.
Qed.

(** The comparison on lists is [strcmp] of lib/string.c on the strings in memory. *)
Lemma str_cmp_strcmp_loop f m p q s t :
  cstr m p s -> cstr m q t -> chars s -> chars t -> (length s < f)%nat ->
  strcmp_loop f m p q = Some (str_cmp s t).
Proof.
  revert p q t f. induction s as [|c s IH]; intros p q t f Hs Ht Hcs Hct Hf;
    (destruct f as [|f]; [cbn in Hf; lia|]); cbn [strcmp_loop].
  - apply cstr_nil in Hs. rewrite Hs. cbn [mbind option_bind].
    destruct t as [|d t]; [apply cstr_nil in Ht|apply cstr_cons in Ht as (Ht & _)];
      rewrite Ht; cbn [mbind option_bind str_cmp head default from_option id];
      by rewrite orb_true_r.
  - apply cstr_cons in Hs as (Hc & Hc0 & Hs). rewrite Hc. cbn [mbind option_bind].
    apply chars_cons in Hcs as [Hcr Hcs].
    destruct t as [|d t]; [apply cstr_nil in Ht|apply cstr_cons in Ht as (Ht & Hd & Htt)]; rewrite Ht;
      cbn [mbind option_bind str_cmp head default from_option tail id];
      rewrite (proj2 (Z.eqb_neq c 0)) by done; rewrite orb_false_r.
    + destruct (Z.eqb_spec (s8 (c - 0)) 0) as [E|E]; [|done].
      apply s8_diff_zero in E; lia.
    + apply chars_cons in Hct as [Hdr Hct].
      destruct (negb (s8 (c - d) =? 0)); [done|]. apply IH; try done. cbn in Hf. lia.
Qed.

(** ** The prime test *)
Definition odd (n : Z) : Prop := n mod 2 = 1.

Lemma isprime_loop_ok f n div :
  odd n -> odd div -> 3 <= div -> 5 <= n < 2 ^ 31 -> div <= 2 ^ 16 -> n < 2 * Z.of_nat f + div ->
  (div - 2) * (div - 2) < n -> (forall d, odd d -> 3 <= d < div -> ~ (d | n)) ->
  exists div', isprime_loop f n div = Some div' /\ odd div' /\ 3 <= div' /\ (div' - 2) * (div' - 2) < n /\
    (forall d, odd d -> 3 <= d < div' -> ~ (d | n)) /\ (n <= div' * div' \/ (div' | n)).
Proof.
  unfold odd. revert div. induction f as [|f IH]; intros div Hn Hd Hd3 Hr Hmax Hf Hsq Hno.
  { assert (3 * (div - 2) <= (div - 2) * (div - 2)) by (apply Z.mul_le_mono_nonneg_r; lia). lia. }
  cbn [isprime_loop]. rewrite (wrap_small 32 (div + 2)) by lia.
  destruct (Z.eq_dec div (2 ^ 16)) as [->|]; [done|].
  rewrite (wrap_small 32 (div * div)) by nia.
  destruct (Z.ltb_spec (div * div) n) as [Hlt|Hge]; cbn [andb].
  2: { exists div. repeat (split; [done|]). by left. }
  destruct (Z.eqb_spec (n mod div) 0) as [E|E]; cbn [negb].
  { exists div. repeat (split; [done|]). right. by apply Z.mod_divide; [lia|]. }
  apply IH; try done; try lia.
  - replace (div + 2) with (div + 1 * 2) by lia. by rewrite Z.mod_add by lia.
  - intros d Hdo Hd'. destruct (Z.lt_ge_cases d div) as [?|?]; [apply Hno; [done|lia]|].
    destruct (Z.eq_dec d div) as [->|]; [by intros ?%Z.mod_divide; [|lia]|].
    assert (d = div + 1) as -> by lia. intros _. dlia.
Qed.

Lemma odd_divisor n d : odd n -> (d | n) -> odd d.
Proof. unfold odd. intros Hn [q ->]. rewrite Zmult_mod in Hn. pose proof (Z.mod_pos_bound d 2). 
  assert (d mod 2 = 0 \/ d mod 2 = 1) as [E|E] by lia; [|done]. rewrite E, Z.mul_0_r in Hn. done. Qed.

Lemma isprime_ok n :
  odd n -> 5 <= n < 2 ^ 31 -> exists b, isprime n = Some b /\ (b = true <-> Z.prime n).
Proof.
  intros Hn Hr. unfold isprime.
  destruct (isprime_loop_ok (S (Z.to_nat n)) n 3) as (div & -> & Hd & Hd3 & Hsq & Hno & Hend);
    try done; try lia.
  cbn [mbind option_bind]. eexists. split; [done|].
  assert (div < n) as Hlt by nia.
  destruct (Z.eqb_spec (n mod div) 0) as [E|E]; cbn; split; try done.
  - intros [_ Hp]. apply Z.mod_divide in E; [|lia]. by apply Hp in E; [|lia].
  - intros _. destruct Hend as [Hend|Hend]; [|by apply Z.mod_divide in Hend; [|lia]].
    split; [lia|]. intros d Hdr Hdn.
    assert (exists e, odd e /\ 3 <= e /\ e * e <= n /\ (e | n)) as (e & Heo & He3 & Hee & Hen).
    { pose proof (odd_divisor _ _ Hn Hdn) as Hdo. destruct Hdn as [q Hq].
      assert (q | n) as Hqn by (exists d; lia). pose proof (odd_divisor _ _ Hn Hqn) as Hqo.
      unfold odd in *. destruct (Z.le_gt_cases d q).
      - exists d. repeat split; [done|dlia|nia|by exists q].
      - exists q. repeat split; [done|nia || dlia|nia|done]. }
    destruct (Z.eq_dec e div) as [->|]; [by apply Z.mod_divide in Hen; [|lia]|].
    apply (Hno e); [done|nia|done].
Qed.

(** ** The probe sequence *)
Section probing.
Context (sz : Z) (Hsz : 5 <= sz < 2 ^ 31) (Hprime : Z.prime sz).

Definition h1 (k : list Z) : Z := let h := hash k mod sz in if h =? 0 then h + 1 else h.
Definition h2 (k : list Z) : Z := 1 + h1 k mod (sz - 2).

(** The [n]th bucket a search for [k] looks at, between 1 and [sz]. *)
Definition path (k : list Z) (n : Z) : Z := (h1 k - 1 - n * h2 k) mod sz + 1.

Lemma h1_range k : 1 <= h1 k < sz.
Proof.
  unfold h1. pose proof (Z.mod_pos_bound (hash k) sz). destruct (Z.eqb_spec (hash k mod sz) 0); lia.
Qed.

Lemma h2_range k : 1 <= h2 k <= sz - 2.
Proof. unfold h2. pose proof (Z.mod_pos_bound (h1 k) (sz - 2)). lia. Qed.

Lemma first_hash_ok k : first_hash k sz = Some (h1 k).
Proof. unfold first_hash. by rewrite (proj2 (Z.eqb_neq sz 0)) by lia. Qed.

Lemma second_hash_ok k : second_hash (h1 k) sz = Some (h2 k).
Proof.
  unfold second_hash. rewrite wrap_small by lia. by rewrite (proj2 (Z.eqb_neq (sz - 2) 0)) by lia.
Qed.

Lemma path_range k n : 1 <= path k n <= sz.
Proof. unfold path. pose proof (Z.mod_pos_bound (h1 k - 1 - n * h2 k) sz). lia. Qed.

Lemma path_0 k : path k 0 = h1 k.
Proof. unfold path. pose proof (h1_range k). rewrite Z.mod_small; lia. Qed.

Lemma path_sz k : path k sz = h1 k.
Proof.
  unfold path. pose proof (h1_range k).
  replace (h1 k - 1 - sz * h2 k) with (h1 k - 1 + (- h2 k) * sz) by lia.
  rewrite Z.mod_add, Z.mod_small; lia.
Qed.

Lemma path_next k n : probe_next sz (h2 k) (path k n) = path k (n + 1).
Proof.
  unfold probe_next, path. set (x := h1 k - 1 - n * h2 k). pose proof (h2_range k).
  replace (h1 k - 1 - (n + 1) * h2 k) with (x - h2 k) by (unfold x; lia).
  pose proof (Z.mod_pos_bound x sz ltac:(lia)). pose proof (Z.div_mod x sz ltac:(lia)).
  destruct (Z.leb_spec (x mod sz + 1) (h2 k)).
  - rewrite wrap_small by lia.
    rewrite <- (Z.mod_unique_pos (x - h2 k) sz (x / sz - 1) (sz + x mod sz - h2 k)); lia.
  - rewrite <- (Z.mod_unique_pos (x - h2 k) sz (x / sz) (x mod sz - h2 k)); lia.
Qed.

Lemma h2_coprime k : Z.coprime sz (h2 k).
Proof. pose proof (h2_range k). apply Z.coprime_prime_small; [done|lia]. Qed.

Lemma path_inj k n m : 0 <= n < sz -> 0 <= m < sz -> path k n = path k m -> n = m.
Proof.
  intros Hn Hm E. unfold path in E.
  assert ((sz | (n - m) * h2 k)) as Hd.
  { apply Z.mod_divide; [lia|].
    replace ((n - m) * h2 k) with ((h1 k - 1 - m * h2 k) - (h1 k - 1 - n * h2 k)) by lia.
    rewrite Zminus_mod. replace ((h1 k - 1 - m * h2 k) mod sz) with ((h1 k - 1 - n * h2 k) mod sz) by lia.
    by rewrite Z.sub_diag. }
  rewrite Z.mul_comm in Hd. apply Z.gauss in Hd; [|apply h2_coprime].
  destruct Hd as [q Hq]. assert (q = 0) by nia. lia.
Qed.

Lemma path_surj k i : 1 <= i <= sz -> exists n, 0 <= n < sz /\ path k n = i.
Proof.
  intros Hi. destruct (Z.Bezout_coprime _ _ (h2_coprime k)) as (u & v & Huv).
  exists (((h1 k - i) * v) mod sz). split; [apply Z.mod_pos_bound; lia|]. unfold path.
  rewrite Zminus_mod, Zmult_mod_idemp_l, <- Zminus_mod.
  pose proof (f_equal (Z.mul (h1 k - i)) Huv) as E.
  replace (h1 k - 1 - (h1 k - i) * v * h2 k) with (i - 1 + (u * (h1 k - i)) * sz) by lia.
  rewrite Z.mod_add, Z.mod_small; lia.
Qed.

(** ** The invariant of a table *)
(** A property of the callbacks in the table, kept by the hooks that set them. *)
Context (P : option (list Z -> option (list Z) -> env_op -> Z -> Z) -> Prop) (HP : P None).
Definition live (e : _ENTRY) (k d : list Z) : Prop :=
  0 < used e /\ key (entry e) = Some k /\ data (entry e) = Some d.
Definition busy (t : list _ENTRY) (i : Z) : Prop := exists e, t !! Z.to_nat i = Some e /\ used e <> 0.

(** A bucket is empty, deleted, or holds an entry that its key's probe sequence reaches
    without meeting an empty bucket before. *)
Definition slot_ok (t : list _ENTRY) (i : Z) (e : _ENTRY) : Prop :=
  used e = 0 \/ used e = -1 \/
  exists k d, live e k d /\ chars k /\ chars d /\ used e = h1 k /\
    exists n, 0 <= n < sz /\ i = path k n /\ forall j, 0 <= j < n -> busy t (path k j).

Record inv (t : list _ENTRY) : Prop := {
  inv_len : zlen t = sz + 1;
  inv_zero : exists e, t !! 0%nat = Some e /\ used e = 0;
  inv_slot : forall i e, 1 <= i <= sz -> t !! Z.to_nat i = Some e -> slot_ok t i e;
  inv_unique : forall i j e e' k d d', 1 <= i <= sz -> 1 <= j <= sz ->
    t !! Z.to_nat i = Some e -> t !! Z.to_nat j = Some e' -> live e k d -> live e' k d' -> i = j;
  inv_callbacks : Forall (fun e => P (callback (entry e))) t
}.

(** The entries in use. *)
Definition count (t : list _ENTRY) : Z := zlen (filter (fun e => 0 < used e) t).

Definition maps (t : list _ENTRY) (m : gmap (list Z) (list Z)) : Prop :=
  forall k d, m !! k = Some d <-> exists i e, 1 <= i <= sz /\ t !! Z.to_nat i = Some e /\ live e k d.

(** The state [s] holds the table [t], which represents [m]. *)
Record rep (s : state) (t : list _ENTRY) (m : gmap (list Z) (list Z)) : Prop := {
  rep_table : table (htab s) = Some t;
  rep_size : size (htab s) = sz;
  rep_filled : filled (htab s) = count t;
  rep_inv : inv t;
  rep_maps : maps t m
}.

Lemma inv_lookup t i : inv t -> 1 <= i <= sz -> exists e, t !! Z.to_nat i = Some e.
Proof.
  intros Hi Hr. apply lookup_lt_is_Some_2. pose proof (inv_len _ Hi) as Hl. unfold zlen in Hl. lia.
Qed.

Lemma slot_eq s t i e :
  table (htab s) = Some t -> 0 <= i -> t !! Z.to_nat i = Some e -> slot i s = Some (e, s).
Proof.
  intros Ht Hi He. unfold slot. rewrite bind_gets. rewrite Ht.
  rewrite (bind_must _ t) by done. destruct (Z.ltb_spec i 0); [lia|]. unfold must. by rewrite He.
Qed.

Section search.
Context (s : state) (t : list _ENTRY) (k : list Z) (d : option (list Z)) (a : ACTION) (flag : Z).
Context (Ht : table (htab s) = Some t) (Hs : size (htab s) = sz) (Hi : inv t) (Hk : chars k).

(** The buckets before the [n1]th are in use, for other keys. *)
Definition skips (n1 : Z) : Prop :=
  forall n, 0 <= n < n1 -> busy t (path k n) /\
    forall e d', t !! Z.to_nat (path k n) = Some e -> ~ live e k d'.

Lemma compare_skip i e :
  1 <= i <= sz -> t !! Z.to_nat i = Some e -> (forall d', ~ live e k d') ->
  _compare_and_overwrite_entry k d a flag (h1 k) i s = Some ((-1, None), s).
Proof.
  intros Hr He Hn. unfold _compare_and_overwrite_entry.
  rewrite (bind_eq _ _ _ e s) by (eapply slot_eq; [done|lia|done]).
  pose proof (h1_range k).
  destruct (inv_slot _ Hi i e Hr He) as [E|[E|(k' & d' & Hl & Hc & _ & Hu & _)]].
  - rewrite E. change (u32 0) with 0. by rewrite (proj2 (Z.eqb_neq 0 (h1 k))) by lia.
  - rewrite E. change (u32 (-1)) with (2 ^ 32 - 1).
    by rewrite (proj2 (Z.eqb_neq (2 ^ 32 - 1) (h1 k))) by lia.
  - destruct (_ =? _); [|done]. destruct Hl as (Hp & Hkey & Hd).
    rewrite (bind_must _ k') by done.
    assert (str_cmp k k' <> 0) as Hne.
    { rewrite str_cmp_eq by done. intros <-. by apply (Hn d'). }
    by rewrite (proj2 (Z.eqb_neq (str_cmp k k') 0)).
Qed.

Lemma probe_skip f n :
  0 <= n -> n + 1 < sz -> skips (n + 2) ->
  probe (S f) k d a flag (h1 k) (h2 k) (path k n) s = probe f k d a flag (h1 k) (h2 k) (path k (n + 1)) s.
Proof.
  intros Hn Hlt Hsk. cbn [probe]. rewrite bind_gets, Hs. cbn zeta. rewrite path_next.
  destruct (Hsk (n + 1)) as [(e & He & Hu) Hno]; [lia|].
  destruct (Z.eqb_spec (path k (n + 1)) (h1 k)) as [E|_].
  { rewrite <- path_0 in E. apply path_inj in E; lia. }
  rewrite (bind_eq _ _ _ (-1, None) s)
    by (eapply compare_skip; [apply path_range|done|intros d'; by apply Hno]).
  cbn [fst Z.eqb Pos.eqb negb]. pose proof (path_range k (n + 1)).
  rewrite (bind_eq _ _ _ e s) by (eapply slot_eq; [done|lia|done]).
  by rewrite (proj2 (Z.eqb_neq (used e) 0)).
Qed.

Lemma probe_to g f n :
  0 <= n -> n + Z.of_nat g < sz -> skips (n + Z.of_nat g + 1) ->
  probe (g + f) k d a flag (h1 k) (h2 k) (path k n) s =
  probe f k d a flag (h1 k) (h2 k) (path k (n + Z.of_nat g)) s.
Proof.
  revert n. induction g as [|g IH]; intros n Hn Hlt Hsk; [by rewrite Z.add_0_r|].
  cbn [Nat.add]. rewrite probe_skip; [|lia|lia|].
  - replace (n + Z.of_nat (S g)) with (n + 1 + Z.of_nat g) by lia. apply IH; [lia|lia|].
    by replace (n + 1 + Z.of_nat g + 1) with (n + Z.of_nat (S g) + 1) by lia.
  - intros j Hj. apply Hsk. lia.
Qed.

(** A search that meets only other keys before the [n]th bucket. *)
Definition first_deleted (n : Z) : Z :=
  if 0 <? n then match t !! Z.to_nat (h1 k) with Some e => if used e =? -1 then h1 k else 0 | None => 0 end
  else 0.

Lemma find_start n :
  0 < n -> n <= sz -> skips n ->
  exists f, hsearch_find k d a flag (h1 k) s =
    (o ← probe (S f) k d a flag (h1 k) (h2 k) (path k (n - 1));
     match o with inl r => mret (inl r) | inr idx => mret (inr (idx, first_deleted n)) end) s.
Proof.
  intros Hn Hle Hsk. pose proof (h1_range k).
  destruct (Hsk 0) as [(e & He & Hu) Hno]; [lia|]. rewrite path_0 in He, Hno.
  unfold hsearch_find. rewrite (bind_eq _ _ _ e s) by (eapply slot_eq; [done|lia|done]).
  rewrite (proj2 (Z.eqb_neq (used e) 0)) by done. cbn [negb].
  rewrite (bind_eq _ _ _ (-1, None) s)
    by (eapply compare_skip; [lia|done|intros d'; by apply Hno]).
  cbn [fst Z.eqb Pos.eqb negb]. rewrite bind_gets, Hs.
  rewrite (bind_must _ (h2 k)) by (by apply second_hash_ok).
  exists (Z.to_nat (sz - (n - 1))).
  replace (S (Z.to_nat sz)) with (Z.to_nat (n - 1) + S (Z.to_nat (sz - (n - 1))))%nat by lia.
  pose proof (probe_to (Z.to_nat (n - 1)) (S (Z.to_nat (sz - (n - 1)))) 0) as E.
  replace (0 + Z.of_nat (Z.to_nat (n - 1))) with (n - 1) in E by lia. rewrite path_0 in E.
  unfold mbind, M_bind. rewrite E; [|lia|lia|by replace (n - 1 + 1) with n by lia].
  unfold first_deleted. destruct (Z.ltb_spec 0 n); [|lia]. by rewrite He.
Qed.

Lemma find_empty n e :
  0 <= n < sz -> skips n -> t !! Z.to_nat (path k n) = Some e -> used e = 0 ->
  hsearch_find k d a flag (h1 k) s = Some (inr (path k n, first_deleted n), s).
Proof.
  intros Hn Hsk He Hu. pose proof (path_range k n).
  destruct (Z.eq_dec n 0) as [->|].
  { rewrite path_0 in *. unfold hsearch_find.
    rewrite (bind_eq _ _ _ e s) by (eapply slot_eq; [done|lia|done]). by rewrite Hu. }
  destruct (find_start n) as [f ->]; [lia|lia|done|]. unfold mbind, M_bind. cbn [probe].
  rewrite bind_gets, Hs. cbn zeta. rewrite path_next. replace (n - 1 + 1) with n by lia.
  destruct (Z.eqb_spec (path k n) (h1 k)) as [E|_].
  { rewrite <- path_0 in E. apply path_inj in E; lia. }
  rewrite (bind_eq _ _ _ (-1, None) s).
  2: { eapply compare_skip; [lia|done|]. intros d' (? & _). lia. }
  cbn [fst Z.eqb Pos.eqb negb]. rewrite (bind_eq _ _ _ e s) by (eapply slot_eq; [done|lia|done]).
  by rewrite Hu.
Qed.

Lemma find_wrapped :
  skips sz -> hsearch_find k d a flag (h1 k) s = Some (inr (h1 k, first_deleted sz), s).
Proof.
  intros Hsk. destruct (find_start sz) as [f ->]; [lia|lia|done|]. unfold mbind, M_bind. cbn [probe].
  rewrite bind_gets, Hs. cbn zeta. rewrite path_next. replace (sz - 1 + 1) with sz by lia.
  by rewrite path_sz, Z.eqb_refl.
Qed.

(** The key's bucket is found: the search ends with the comparison there. *)
Lemma find_hit n r s' :
  0 <= n < sz -> skips n ->
  _compare_and_overwrite_entry k d a flag (h1 k) (path k n) s = Some (r, s') -> r.1 <> -1 ->
  (exists e d', t !! Z.to_nat (path k n) = Some e /\ live e k d') ->
  hsearch_find k d a flag (h1 k) s = Some (inl r, s').
Proof.
  intros Hn Hsk Hc Hr (e & d' & He & Hl). pose proof (path_range k n).
  destruct (Z.eq_dec n 0) as [->|].
  { rewrite path_0 in *. unfold hsearch_find.
    rewrite (bind_eq _ _ _ e s) by (eapply slot_eq; [done|lia|done]).
    rewrite (proj2 (Z.eqb_neq (used e) 0)) by (destruct Hl; lia). cbn [negb].
    rewrite (bind_eq _ _ _ _ _ Hc). by rewrite (proj2 (Z.eqb_neq r.1 (-1))). }
  destruct (find_start n) as [f ->]; [lia|lia|done|]. unfold mbind, M_bind. cbn [probe].
  rewrite bind_gets, Hs. cbn zeta. rewrite path_next. replace (n - 1 + 1) with n by lia.
  destruct (Z.eqb_spec (path k n) (h1 k)) as [E|_].
  { rewrite <- path_0 in E. apply path_inj in E; lia. }
  rewrite (bind_eq _ _ _ _ _ Hc). by rewrite (proj2 (Z.eqb_neq r.1 (-1))).
Qed.
End search.

(** Every search ends at the key's bucket, at an empty bucket, or back at its start. *)
Lemma skips_or_empty t k j :
  inv t -> 0 <= j <= sz -> (forall i e d, 1 <= i <= sz -> t !! Z.to_nat i = Some e -> ~ live e k d) ->
  (exists n e, 0 <= n < j /\ skips t k n /\ t !! Z.to_nat (path k n) = Some e /\ used e = 0) \/ skips t k j.
Proof.
  intros Hi Hj Hno. revert j Hj.
  intros j [Hj Hle]. revert Hle. pattern j. apply natlike_ind; [|clear j Hj; intros j Hj IH Hle|done].
  { intros _. right. intros n ?. lia. }
  destruct (IH ltac:(lia)) as [(n & e & Hn & H)|Hsk].
  { left. exists n, e. split; [lia|done]. }
  destruct (inv_lookup t (path k j) Hi (path_range k j)) as [e He].
  destruct (Z.eq_dec (used e) 0) as [E|E].
  { left. exists j, e. split; [lia|done]. }
  right. intros n Hn. destruct (Z.eq_dec n j) as [->|]; [|apply Hsk; lia].
  split; [by exists e|]. intros e' d He'. by eapply Hno; [apply path_range|].
Qed.

Lemma skips_hit t k i e d :
  inv t -> 1 <= i <= sz -> t !! Z.to_nat i = Some e -> live e k d ->
  exists n, 0 <= n < sz /\ i = path k n /\ skips t k n.
Proof.
  intros Hi Hr He Hl. destruct (inv_slot _ Hi i e Hr He) as [E|[E|(k' & d' & Hl' & _ & _ & _ & n & Hn & -> & Hb)]].
  1,2: destruct Hl; lia.
  assert (k' = k) as -> by (destruct Hl as (_ & ? & _), Hl' as (_ & ? & _); congruence).
  exists n. split; [done|]. split; [done|]. intros j Hj. split; [by apply Hb|].
  intros e' d'' He' Hl''. assert (path k j = path k n) as E.
  { eapply (inv_unique _ Hi); [apply path_range|apply path_range|exact He'|exact He|done|done]. }
  apply path_inj in E; lia.
Qed.

Lemma no_live t m k :
  maps t m -> m !! k = None -> forall i e d, 1 <= i <= sz -> t !! Z.to_nat i = Some e -> ~ live e k d.
Proof.
  intros Hm Hk i e d Hr He Hl. assert (m !! k = Some d); [|congruence]. apply Hm. eauto.
Qed.

Lemma find_ok s t m k d flag `{EnvHooks} :
  rep s t m -> chars k ->
  match m !! k with
  | Some v => exists i e, 1 <= i <= sz /\ t !! Z.to_nat i = Some e /\ live e k v /\
      hsearch_r k d FIND flag s = Some ((i, Some i), s)
  | None => hsearch_r k d FIND flag s = Some ((0, None), State (htab s) ESRCH (allocs s))
  end.
Proof.
  intros [Ht Hs _ Hi Hm] Hk. 
  assert (first_hash k sz = Some (h1 k)) as Hf by by apply first_hash_ok.
  destruct (m !! k) as [v|] eqn:Ev.
  - apply Hm in Ev as (i & e & Hr & He & Hl). exists i, e. split; [done|]. split; [done|]. split; [done|].
    unfold hsearch_r. rewrite bind_gets, Hs, (bind_must _ (h1 k)) by done.
    destruct (skips_hit t k i e v Hi Hr He Hl) as (n & Hn & -> & Hsk).
    rewrite (bind_eq _ _ _ (inl (path k n, Some (path k n))) s); [done|].
    eapply find_hit; eauto; [|cbn; lia].
    unfold _compare_and_overwrite_entry. rewrite (bind_eq _ _ _ e s) by (eapply slot_eq; [done|lia|done]).
    destruct (inv_slot _ Hi _ e Hr He) as [E|[E|(k' & d' & Hl' & _ & _ & Hu & _)]]; [destruct Hl; lia..|].
    assert (k' = k) as -> by (destruct Hl as (_ & ? & _), Hl' as (_ & ? & _); congruence).
    pose proof (h1_range k). rewrite Hu, wrap_small, Z.eqb_refl by lia.
    destruct Hl as (_ & Hkey & _). rewrite (bind_must _ k) by done. by rewrite str_cmp_refl.
  - unfold hsearch_r. rewrite bind_gets, Hs, (bind_must _ (h1 k)) by done.
    destruct (skips_or_empty t k sz Hi ltac:(lia) (no_live t m k Hm Ev)) as [(n & e & Hn & Hsk & He & Hu)|Hsk].
    + rewrite (bind_eq _ _ _ (inr (path k n, first_deleted t k n)) s); [done|]. by eapply find_empty.
    + rewrite (bind_eq _ _ _ (inr (h1 k, first_deleted t k sz)) s); [done|]. by eapply find_wrapped.
Qed.

(** ** Changes to one bucket *)
Lemma count_insert t i e e' :
  t !! i = Some e ->
  count (<[i := e']> t) =
    count t - (if decide (0 < used e) then 1 else 0) + (if decide (0 < used e') then 1 else 0).
Proof.
  intros He. unfold count. pose proof (lookup_lt_Some _ _ _ He).
  rewrite insert_take_drop by done. rewrite <- (take_drop_middle _ _ _ He) at 3.
  rewrite !filter_app, !filter_cons. repeat case_decide; simpl_zlen; lia.
Qed.

(** The entries never used, the one with index zero included. *)
Definition fresh (t : list _ENTRY) : Z := zlen (filter (fun e => used e = 0) t).

Lemma fresh_insert t i e e' :
  t !! i = Some e -> fresh t - (if decide (used e = 0) then 1 else 0) <= fresh (<[i := e']> t).
Proof.
  intros He. unfold fresh. pose proof (lookup_lt_Some _ _ _ He).
  rewrite insert_take_drop by done. rewrite <- (take_drop_middle _ _ _ He) at 1.
  rewrite !filter_app, !filter_cons. repeat case_decide; simpl_zlen; lia.
Qed.

(** More than one unused entry: one of them is a bucket. *)
Lemma fresh_bucket t : inv t -> 1 < fresh t -> exists i, 1 <= i <= sz /\ ~ busy t i.
Proof.
  intros Hi Hf. destruct (inv_zero _ Hi) as (z & Hz & Hz0). pose proof (inv_len _ Hi) as Hl.
  unfold fresh in Hf. destruct t as [|z' t]; [done|]. cbn in Hz. injection Hz as ->.
  rewrite filter_cons, decide_True in Hf by done. simpl_zlen.
  destruct (filter (fun e => used e = 0) t) as [|e l] eqn:E; [simpl_zlen; lia|].
  assert (e ∈ filter (fun e => used e = 0) t) as He by (rewrite E; left).
  apply list_elem_of_filter in He as [Hu He]. apply list_elem_of_lookup in He as [i Hlk].
  pose proof (lookup_lt_Some _ _ _ Hlk). exists (Z.of_nat (S i)). unfold zlen in *.
  split; [lia|]. intros (e' & He' & Hne). rewrite Nat2Z.id in He'.
  change (t !! i = Some e') in He'. congruence.
Qed.

Section change.
Context (t : list _ENTRY) (c : Z) (e0 : _ENTRY).
Context (Hi : inv t) (Hc : 1 <= c <= sz) (He0 : t !! Z.to_nat c = Some e0).

Lemma change_lookup e i :
  1 <= i <= sz -> <[Z.to_nat c := e]> t !! Z.to_nat i = if decide (i = c) then Some e else t !! Z.to_nat i.
Proof.
  intros Hr. pose proof (lookup_lt_Some _ _ _ He0). case_decide as E.
  - subst. by rewrite list_lookup_insert_eq.
  - apply list_lookup_insert_ne. lia.
Qed.

Lemma change_busy e i : used e <> 0 -> 1 <= i <= sz -> busy t i -> busy (<[Z.to_nat c := e]> t) i.
Proof.
  intros He Hr (e' & H & Hu). unfold busy. rewrite change_lookup by done. case_decide; eauto.
Qed.

(** The bucket takes an entry with another key than those of the other buckets. *)
Lemma inv_change e :
  used e <> 0 -> P (callback (entry e)) ->
  (used e = -1 \/ exists k d n, live e k d /\ chars k /\ chars d /\ used e = h1 k /\
     0 <= n < sz /\ c = path k n /\ (forall j, 0 <= j < n -> busy t (path k j)) /\
     (forall i e' d', 1 <= i <= sz -> i <> c -> t !! Z.to_nat i = Some e' -> ~ live e' k d')) ->
  inv (<[Z.to_nat c := e]> t).
Proof.
  intros Hu HPe Hcase. assert (forall k n, (forall j, 0 <= j < n -> busy t (path k j)) ->
    forall j, 0 <= j < n -> busy (<[Z.to_nat c := e]> t) (path k j)) as Hbusy.
  { intros k n Hb j Hj. apply change_busy; [done|apply path_range|by apply Hb]. }
  split.
  - unfold zlen. rewrite length_insert. apply (inv_len _ Hi).
  - destruct (inv_zero _ Hi) as (z & Hz & Hz0). exists z. split; [|done].
    rewrite list_lookup_insert_ne by lia. done.
  - intros i e' Hr. rewrite change_lookup by done. case_decide as E.
    + intros [= <-]. subst i. right.
      destruct Hcase as [?|(k & d & n & ? & ? & ? & ? & ? & ? & Hb & _)]; [by left|right].
      exists k, d. repeat (split; [done|]). exists n. repeat (split; [done|]). by apply Hbusy.
    + intros He'. destruct (inv_slot _ Hi i e' Hr He') as [?|[?|(k & d & ? & ? & ? & ? & n & ? & ? & Hb)]];
        [by left|by right; left|right; right].
      exists k, d. repeat (split; [done|]). exists n. repeat (split; [done|]). by apply Hbusy.
  - intros i j e1 e2 k d d' Hri Hrj. rewrite !change_lookup by done.
    repeat case_decide; intros H1 H2 Hl1 Hl2; simplify_eq; [done|..|by eapply (inv_unique _ Hi i j)].
    + destruct Hcase as [E|(k' & d0 & n & Hl & _ & _ & _ & _ & _ & _ & Hn)]; [destruct Hl1; lia|].
      assert (k' = k) as -> by (destruct Hl as (_ & ? & _), Hl1 as (_ & ? & _); congruence).
      exfalso. by eapply (Hn j e2 d').
    + destruct Hcase as [E|(k' & d0 & n & Hl & _ & _ & _ & _ & _ & _ & Hn)]; [destruct Hl2; lia|].
      assert (k' = k) as -> by (destruct Hl as (_ & ? & _), Hl2 as (_ & ? & _); congruence).
      exfalso. by eapply (Hn i e1 d).
  - by apply Forall_insert; [apply (inv_callbacks _ Hi)|].
Qed.

Lemma maps_set m e k d :
  maps t m -> live e k d -> (forall k' d', live e0 k' d' -> k' = k) ->
  (forall i e' d', 1 <= i <= sz -> i <> c -> t !! Z.to_nat i = Some e' -> ~ live e' k d') ->
  maps (<[Z.to_nat c := e]> t) (<[k := d]> m).
Proof.
  intros Hm Hl H0 Hno q v. rewrite lookup_insert_Some, (Hm q v). split.
  - intros [[<- <-]|(Hq & i & e' & Hr & He' & Hl')].
    + exists c, e. rewrite change_lookup by done. by case_decide.
    + exists i, e'. split; [done|]. rewrite change_lookup by done. case_decide; [|done].
      subst. rewrite He0 in He'. injection He' as <-. apply H0 in Hl'. congruence.
  - intros (i & e' & Hr & He' & Hl'). rewrite change_lookup in He' by done. case_decide.
    + injection He' as <-. left. destruct Hl as (_ & ? & ?), Hl' as (_ & ? & ?). split; congruence.
    + right. split; [intros <-; by eapply Hno|]. eauto.
Qed.

Lemma maps_clear m m' e :
  maps t m -> used e = -1 ->
  (forall q v, m' !! q = Some v <-> m !! q = Some v /\ forall v', ~ live e0 q v') ->
  maps (<[Z.to_nat c := e]> t) m'.
Proof.
  intros Hm Hu Hm' q v. rewrite Hm', (Hm q v). split.
  - intros ((i & e' & Hr & He' & Hl') & Hn). exists i, e'. split; [done|].
    rewrite change_lookup by done. case_decide; [|done].
    subst. rewrite He0 in He'. injection He' as <-. by apply Hn in Hl'.
  - intros (i & e' & Hr & He' & Hl'). rewrite change_lookup in He' by done. case_decide as E.
    + injection He' as <-. destruct Hl'. lia.
    + split; [eauto|]. intros v' Hl0. apply E. by eapply (inv_unique _ Hi i c).
Qed.
End change.

(** ** Operations on the represented map *)
Definition with_table (s : state) (t : list _ENTRY) (n : Z) : state :=
  State (Htab (Some t) (size (htab s)) n (change_ok (htab s))) (errno s) (allocs s).

Lemma set_slot_eq s t i e :
  table (htab s) = Some t -> 0 <= i < zlen t ->
  set_slot i e s = Some (tt, with_table s (<[Z.to_nat i := e]> t) (filled (htab s))).
Proof.
  intros Ht Hi. unfold set_slot. rewrite bind_gets, Ht, (bind_must _ t) by done.
  destruct (Z.leb_spec 0 i); [|lia]. by destruct (Z.ltb_spec i (zlen t)); [|lia].
Qed.

Lemma count_bounds t i e :
  inv t -> t !! i = Some e -> (i <> 0)%nat ->
  0 <= count t /\ (0 < used e -> 0 < count t) /\ (~ 0 < used e -> count t < sz) /\ count t <= sz.
Proof.
  intros Hi He Hne. destruct (inv_zero _ Hi) as (z & Hz & Hz0).
  pose proof (inv_len _ Hi) as Hl. unfold count.
  destruct t as [|z' t]; [done|]. cbn in Hz. injection Hz as ->. rewrite filter_cons.
  case_decide; [lia|]. destruct i as [|i]; [done|]. cbn in He.
  rewrite <- (take_drop_middle _ _ _ He). rewrite filter_app, filter_cons.
  assert (zlen t = sz) as Hlt by (revert Hl; simpl_zlen; lia).
  rewrite <- (take_drop_middle _ _ _ He) in Hlt. simpl_zlen.
  pose proof (length_filter (fun e => 0 < used e) (take i t)).
  pose proof (length_filter (fun e => 0 < used e) (drop (S i) t)).
  case_decide; simpl_zlen; unfold zlen in *; lia.
Qed.

Lemma _hdelete_ok s t m i e k d :
  rep s t m -> 1 <= i <= sz -> t !! Z.to_nat i = Some e -> live e k d ->
  exists s', _hdelete i s = Some (tt, s') /\
    rep s' (<[Z.to_nat i := _Entry (-1) (Entry None None None 0)]> t) (delete k m) /\
    change_ok (htab s') = change_ok (htab s) /\ errno s' = errno s /\ allocs s' = allocs s.
Proof.
  intros [Ht Hs Hf Hi Hm] Hr He Hl. unfold _hdelete. pose proof (inv_len _ Hi) as Hlen.
  rewrite (bind_eq _ _ _ tt _ (set_slot_eq s t i _ Ht ltac:(lia))). eexists. split; [reflexivity|].
  destruct (count_bounds t (Z.to_nat i) e Hi He ltac:(lia)) as (? & Hpos & _ & ?).
  pose proof Hl as (Hu & Hkey & Hd). specialize (Hpos Hu).
  split; [|done]. split; cbn; [done|done| |by eapply inv_change; eauto|].
  - rewrite Hf, wrap_small by lia. rewrite (count_insert t _ e) by done.
    rewrite decide_True, decide_False by (done || (cbn; lia)). lia.
  - eapply maps_clear; eauto. intros q v. rewrite lookup_delete_Some. split.
    + intros [Hq ?]. split; [done|]. intros v' (_ & ? & _). congruence.
    + intros [? Hn]. split; [|done]. intros <-. by apply (Hn d).
Qed.

Lemma hdelete_r_ok s t m k flag `{EnvHooks} :
  rep s t m -> chars k ->
  exists r s' t', hdelete_r k flag s = Some (r, s') /\ allocs s' = allocs s /\ fresh t <= fresh t' /\
    change_ok (htab s') = change_ok (htab s) /\
    (r = 1 /\ is_Some (m !! k) /\ rep s' t' (delete k m) /\ errno s' = errno s \/
     r = 0 /\ t' = t /\ rep s' t m /\ (m !! k = None \/ exists e d, live e k d /\ P (callback (entry e)) /\
       (change_refused (htab s) (entry e) None env_op_delete flag = true \/
        callback_refused (entry e) k None env_op_delete flag = true))).
Proof.
  intros Hrep Hk. pose proof (find_ok s t m k None 0 Hrep Hk) as Hfind. unfold hdelete_r.
  assert (forall e, rep (State (htab s) e (allocs s)) t m) as Herr by (intros e; by destruct Hrep).
  destruct (m !! k) as [v|] eqn:Ev.
  2: { rewrite (bind_eq _ _ _ _ _ Hfind). eexists 0, _, t. split; [reflexivity|]. split; [done|].
       split; [done|]. split; [done|]. right. split; [done|]. split; [done|]. split; [apply Herr|by left]. }
  destruct Hfind as (i & e & Hr & He & Hl & Hfind). rewrite (bind_eq _ _ _ _ _ Hfind).
  rewrite (proj2 (Z.eqb_neq i 0)) by lia.
  rewrite (bind_eq _ _ _ e s) by (eapply slot_eq; [apply Hrep|lia|done]). rewrite bind_gets.
  assert (P (callback (entry e))) as HPe.
  { pose proof (inv_callbacks _ (rep_inv _ _ _ Hrep)) as Hcb. rewrite Forall_lookup in Hcb. by apply (Hcb _ _ He). }
  destruct (change_refused _ _ _ _ _) eqn:E1.
  { eexists 0, _, t. split; [reflexivity|]. split; [done|]. split; [done|]. split; [done|]. right.
    split; [done|]. split; [done|]. split; [apply Herr|]. right. eauto 8. }
  destruct (callback_refused _ _ _ _ _) eqn:E2.
  { eexists 0, _, t. split; [reflexivity|]. split; [done|]. split; [done|]. split; [done|]. right.
    split; [done|]. split; [done|]. split; [apply Herr|]. right. eauto 8. }
  destruct (_hdelete_ok s t m i e k v Hrep Hr He Hl) as (s' & E & Hrep' & ? & ? & ?).
  rewrite (bind_eq _ _ _ _ _ E). exists 1, s', (<[Z.to_nat i := _Entry (-1) (Entry None None None 0)]> t).
  split; [reflexivity|]. split; [done|].
  split; [pose proof (fresh_insert t _ _ (_Entry (-1) (Entry None None None 0)) He) as Hfi;
          rewrite decide_False in Hfi by (destruct Hl; lia); lia|].
  split; [done|]. left. split; [done|]. split; [done|]. split; [exact Hrep'|done].
Qed.

(** Every allocation succeeds. *)
Definition mem_ok (s : state) : Prop := Forall (fun b => b = true) (allocs s).

Lemma strdup_ok s d : mem_ok s -> exists l,
  strdup (Some d) s = Some (Some d, State (htab s) (errno s) l) /\ Forall (fun b => b = true) l.
Proof.
  unfold mem_ok. destruct s as [h er [|b al]]; cbn; [by eexists|].
  intros [-> ?]%Forall_cons. by eexists.
Qed.

Section enter.
Context `{EnvHooksLaws}.
Context (HPc : forall h e, P (callback e) -> P (callback (env_callback_init h e))).
Context (HPf : forall h e, P (callback e) -> P (callback (env_flags_init h e))).
Context (s : state) (t : list _ENTRY) (m : gmap (list Z) (list Z)) (k d : list Z) (flag : Z).
Context (Hrep : rep s t m) (Hk : chars k) (Hd : chars d) (Hmem : mem_ok s).

(** A hook refuses the change of an entry for the key. *)
Definition refused (op : env_op) : Prop :=
  exists e, key e = Some k /\ P (callback e) /\
    (change_refused (htab s) e (Some d) op flag = true \/ callback_refused e k (Some d) op flag = true).

(** The outcomes of a [hsearch_r] that stores [d]. *)
Definition stored (o : option (Z * option Z * state)) : Prop :=
  exists r rv s' t', o = Some ((r, rv), s') /\ mem_ok s' /\ fresh t - 1 <= fresh t' /\ change_ok (htab s') = change_ok (htab s) /\
    (0 < r /\ rep s' t' (<[k := d]> m) \/
     r = 0 /\ rv = None /\ rep s' t' m /\ exists op, refused op).

(** The entry [e] with its key and data is in bucket [c] of [s']. *)
Definition created (c : Z) (e : ENTRY) (s' : state) : Prop :=
  exists t', t' !! Z.to_nat c = Some (_Entry (h1 k) e) /\ live (_Entry (h1 k) e) k d /\ fresh t - 1 <= fresh t' /\
    P (callback e) /\ rep s' t' (<[k := d]> m) /\ mem_ok s' /\ change_ok (htab s') = change_ok (htab s).

Lemma check_ok c e s' : m !! k = None -> 1 <= c <= sz -> created c e s' -> stored (check_entry k (Some d) flag c e s').
Proof.
  intros Hno Hc (t' & He & Hl & Hfr & HPe & Hrep' & Hmem' & Hck). unfold check_entry. rewrite bind_gets.
  assert (change_refused (htab s') e (Some d) env_op_create flag = true \/
          callback_refused e k (Some d) env_op_create flag = true -> refused env_op_create) as Href.
  { intros Hr. exists e. split; [apply Hl|]. split; [done|]. unfold change_refused in *. by rewrite <- Hck. }
  assert (forall er, exists s1 t1, (_hdelete c;; set_errno er;; mret (0, None)) s' = Some ((0, @None Z), s1) /\
    mem_ok s1 /\ fresh t - 1 <= fresh t1 /\ change_ok (htab s1) = change_ok (htab s) /\ rep s1 t1 m) as Hdel.
  { intros er. destruct (_hdelete_ok s' t' _ c (_Entry (h1 k) e) k d Hrep' Hc He Hl) as (s1 & E & Hrep1 & Hck1 & _ & Ha).
    rewrite (bind_eq _ _ _ _ _ E). eexists _, (<[Z.to_nat c := _Entry (-1) (Entry None None None 0)]> t').
    split; [reflexivity|]. unfold mem_ok. cbn [allocs]. rewrite Ha.
    split; [done|]. split.
    { pose proof (fresh_insert t' _ _ (_Entry (-1) (Entry None None None 0)) He) as Hfi.
      rewrite decide_False in Hfi by (destruct Hl; cbn in *; lia). lia. }
    split; [cbn; congruence|]. rewrite delete_insert_id in Hrep1 by done. by destruct Hrep1. }
  destruct (change_refused _ _ _ _ _).
  { destruct (Hdel EPERM) as (s1 & t1 & -> & ? & ? & ? & ?). eexists _, _, s1, t1. split; [done|].
    split; [done|]. split; [done|]. split; [done|]. right. eauto 8. }
  destruct (callback_refused _ _ _ _ _).
  { destruct (Hdel EINVAL) as (s1 & t1 & -> & ? & ? & ? & ?). eexists _, _, s1, t1. split; [done|].
    split; [done|]. split; [done|]. split; [done|]. right. eauto 8. }
  eexists _, _, s', t'. split; [done|]. split; [done|]. split; [done|]. split; [done|]. left. split; [lia|done].
Qed.

(** Storing an entry for the key in a bucket that is not in use. *)
Lemma rep_created c n e0 e s' :
  m !! k = None -> 0 <= n < sz -> c = path k n -> (forall j, 0 <= j < n -> busy t (path k j)) ->
  t !! Z.to_nat c = Some e0 -> ~ 0 < used e0 -> key e = Some k -> data e = Some d -> P (callback e) ->
  htab s' = Htab (Some (<[Z.to_nat c := _Entry (h1 k) e]> t)) sz (wrap 32 (filled (htab s) + 1)) (change_ok (htab s)) ->
  mem_ok s' -> created c e s'.
Proof.
  intros Hno Hn Ec Hb He0 Hu0 Hke Hde HPe Hs' Hms. pose proof Hrep as [Ht Hs Hf Hi Hm].
  pose proof (path_range k n) as Hpr. rewrite <- Ec in Hpr. pose proof (h1_range k) as Hh.
  assert (live (_Entry (h1 k) e) k d) as Hl by (split; [cbn; lia|done]).
  exists (<[Z.to_nat c := _Entry (h1 k) e]> t). split.
  { apply list_lookup_insert_eq. by apply lookup_lt_Some in He0. }
  split; [done|].
  split; [pose proof (fresh_insert t _ _ (_Entry (h1 k) e) He0); case_decide; lia|].
  split; [done|]. split; [|by rewrite Hs']. split; [by rewrite Hs'|by rewrite Hs'| | |].
  - rewrite Hs'. cbn. rewrite Hf.
    destruct (count_bounds t (Z.to_nat c) e0 Hi He0 ltac:(lia)) as (? & _ & ? & _).
    rewrite wrap_small by lia. rewrite (count_insert t _ e0) by done.
    rewrite decide_False, decide_True by (done || (cbn; lia)). lia.
  - eapply inv_change; eauto; [cbn; lia|]. right. exists k, d, n. repeat (split; [done|]).
    intros i e' d' Hr _ He'. by eapply no_live.
  - eapply maps_set; eauto; [intros k' d' (? & _); done|]. intros i e' d' Hr _ He'. by eapply no_live.
Qed.

(** What [create_entry] stores before it runs the checks. *)
Lemma create_run c e0 :
  1 <= c <= sz -> t !! Z.to_nat c = Some e0 ->
  exists e s', create_entry k (Some d) flag (h1 k) c s = check_entry k (Some d) flag c e s' /\
    key e = Some k /\ data e = Some d /\ P (callback e) /\ mem_ok s' /\
    htab s' = Htab (Some (<[Z.to_nat c := _Entry (h1 k) e]> t)) sz (wrap 32 (filled (htab s) + 1)) (change_ok (htab s)).
Proof.
  intros Hpr He0. pose proof Hrep as [Ht Hs Hf Hi Hm]. pose proof (inv_len _ Hi) as Hlen.
  unfold create_entry. rewrite (bind_eq _ _ _ e0 s) by (eapply slot_eq; [done|lia|done]).
  destruct (strdup_ok s k Hmem) as (al & E & Hal). rewrite (bind_eq _ _ _ _ _ E). clear E.
  destruct (strdup_ok (State (htab s) (errno s) al) d Hal) as (al' & E & Hal').
  rewrite (bind_eq _ _ _ _ _ E). clear E. cbn zeta. cbn [htab errno allocs].
  set (e1 := Entry (Some k) (Some d) (callback (entry e0)) (flags (entry e0))).
  set (s1 := State (htab s) (errno s) al').
  assert (forall e, zlen (<[Z.to_nat c := e]> t) = sz + 1) as Hlen' by (intros; unfold zlen; by rewrite length_insert).
  rewrite (bind_eq _ _ _ tt _ (set_slot_eq s1 t c (_Entry (h1 k) e1) Ht ltac:(lia))).
  change (negb (bool_decide (is_Some (Some k)) && bool_decide (is_Some (Some d)))) with false. cbn iota.
  rewrite bind_gets. set (t1 := <[Z.to_nat c := _Entry (h1 k) e1]> t).
  rewrite (bind_eq _ _ _ tt (with_table s1 t1 (wrap 32 (filled (htab s) + 1)))) by done. rewrite bind_gets.
  set (s3 := with_table s1 t1 _). set (e2 := env_callback_init (htab s3) e1).
  rewrite (bind_eq _ _ _ tt _ (set_slot_eq s3 t1 c (_Entry (h1 k) e2) eq_refl ltac:(unfold t1; rewrite Hlen'; lia))).
  rewrite bind_gets. set (t2 := <[Z.to_nat c := _Entry (h1 k) e2]> t1). set (s4 := with_table s3 t2 _).
  set (e3 := env_flags_init (htab s4) e2).
  assert (t2 = <[Z.to_nat c := _Entry (h1 k) e2]> t) as Et2 by apply list_insert_insert_eq.
  rewrite (bind_eq _ _ _ tt _ (set_slot_eq s4 t2 c (_Entry (h1 k) e3) eq_refl ltac:(rewrite Et2, Hlen'; lia))).
  destruct (env_flags_init_keeps (htab s4) e2) as [Ek Ed].
  destruct (env_callback_init_keeps (htab s3) e1) as [Ek' Ed'].
  eexists e3, _. split; [reflexivity|]. split; [exact (eq_trans Ek Ek')|]. split; [exact (eq_trans Ed Ed')|].
  split; [|split; [done|]].
  - apply HPf, HPc. cbn. pose proof (inv_callbacks _ Hi) as Hcb. rewrite Forall_lookup in Hcb. by apply (Hcb _ _ He0).
  - cbn. by rewrite Hs, Et2, list_insert_insert_eq.
Qed.

Lemma create_ok c n e0 :
  m !! k = None -> 0 <= n < sz -> c = path k n -> (forall j, 0 <= j < n -> busy t (path k j)) ->
  t !! Z.to_nat c = Some e0 -> ~ 0 < used e0 ->
  stored (create_entry k (Some d) flag (h1 k) c s).
Proof.
  intros Hno Hn Ec Hb He0 Hu0. pose proof (path_range k n) as Hpr. rewrite <- Ec in Hpr.
  destruct (create_run c e0 Hpr He0) as (e & s' & -> & ? & ? & ? & ? & ?).
  apply check_ok; [done|done|]. by eapply rep_created.
Qed.

(** With no empty bucket left and another key in the first bucket of the sequence, the
    other key's entry is overwritten. *)
Lemma full_overwrites e0 k' v :
  m !! k = None -> (forall i, 1 <= i <= sz -> busy t i) -> count t < sz ->
  t !! Z.to_nat (h1 k) = Some e0 -> live e0 k' v -> (forall op, ~ refused op) ->
  exists s' t', hsearch_r k (Some d) ENTER flag s = Some ((1, Some (h1 k)), s') /\
    table (htab s') = Some t' /\ maps t' (<[k := d]> (delete k' m)).
Proof.
  intros Hno Hfull Hlt He0 Hl Hnr. pose proof Hrep as [Ht Hs Hf Hi Hm]. pose proof (h1_range k) as Hh.
  unfold hsearch_r. rewrite bind_gets, Hs, (bind_must _ (h1 k)) by by apply first_hash_ok.
  destruct (skips_or_empty t k sz Hi ltac:(lia) (no_live t m k Hm Hno)) as [(n & e & _ & _ & He & Hu)|Hsk].
  { destruct (Hfull (path k n) (path_range k n)) as (e' & He' & Hu'). congruence. }
  rewrite (bind_eq _ _ _ (inr (h1 k, 0)) s).
  2: { rewrite (find_wrapped s t) by done. unfold first_deleted. destruct (Z.ltb_spec 0 sz); [|lia].
       rewrite He0. destruct (Z.eqb_spec (used e0) (-1)); [destruct Hl; lia|done]. }
  rewrite bind_gets, Hs, Hf, (proj2 (Z.eqb_neq (count t) sz)) by lia.
  destruct (create_run (h1 k) e0 ltac:(lia) He0) as (e & s' & E & Hke & Hde & HPe & _ & Hs').
  cbn [Z.eqb negb]. rewrite E. unfold check_entry. rewrite bind_gets.
  destruct (change_refused _ _ _ _ _) eqn:E1.
  { exfalso. apply (Hnr env_op_create). exists e. split; [done|]. split; [done|]. left.
    unfold change_refused in *. by rewrite Hs' in E1. }
  destruct (callback_refused _ _ _ _ _) eqn:E2.
  { exfalso. apply (Hnr env_op_create). exists e. eauto. }
  eexists s', _. split; [done|]. rewrite Hs'. split; [done|].
  set (tomb := _Entry (-1) (Entry None None None 0)).
  assert (inv (<[Z.to_nat (h1 k) := tomb]> t)) as Hi' by (eapply inv_change; eauto; lia).
  rewrite <- (list_insert_insert_eq t _ _ tomb).
  assert (maps (<[Z.to_nat (h1 k) := tomb]> t) (delete k' m)) as Hm'.
  { eapply maps_clear; eauto; [lia|]. intros q w. rewrite lookup_delete_Some. split.
    - intros [Hq ?]. split; [done|]. intros v' (_ & ? & _). destruct Hl as (_ & ? & _). congruence.
    - intros [? Hn]. split; [|done]. intros <-. by apply (Hn v). }
  eapply (maps_set _ (h1 k) tomb); eauto; [lia|apply list_lookup_insert_eq; by apply lookup_lt_Some in He0
    |split; [cbn; lia|done]|intros ? ? (? & _); cbn in *; lia|].
  intros i e' d' Hr _ He'. eapply no_live; eauto. rewrite lookup_delete_None. by right.
Qed.

Lemma overwrite_ok n e v :
  0 <= n < sz -> t !! Z.to_nat (path k n) = Some e -> live e k v ->
  exists r s', _compare_and_overwrite_entry k (Some d) ENTER flag (h1 k) (path k n) s = Some (r, s') /\
    r.1 <> -1 /\ stored (Some (r, s')).
Proof.
  intros Hn He Hl. pose proof Hrep as [Ht Hs Hf Hi Hm]. pose proof (path_range k n) as Hpr.
  pose proof (inv_len _ Hi) as Hlen. pose proof (h1_range k). pose proof Hl as (Hu & Hkey & Hv).
  assert (P (callback (entry e))) as HPe.
  { pose proof (inv_callbacks _ Hi) as Hcb. rewrite Forall_lookup in Hcb. by apply (Hcb _ _ He). }
  unfold _compare_and_overwrite_entry. rewrite (bind_eq _ _ _ e s) by (eapply slot_eq; [done|lia|done]).
  assert (used e = h1 k /\ exists n', 0 <= n' < sz /\ path k n = path k n' /\ forall j, 0 <= j < n' -> busy t (path k j))
    as (Huse & n' & Hn' & Ep & Hb).
  { destruct (inv_slot _ Hi _ e Hpr He) as [?|[?|(k' & d' & (_ & Hk' & _) & _ & _ & Hh & n' & Hn' & Ep & Hb)]]; [lia..|].
    rewrite Hkey in Hk'. injection Hk' as <-. eauto. }
  rewrite Huse, wrap_small, Z.eqb_refl by lia. rewrite (bind_must _ k) by done.
  rewrite str_cmp_refl. cbn [Z.eqb]. rewrite bind_gets.
  assert (forall er, rep (State (htab s) er (allocs s)) t m) as Herr by (intros; by destruct Hrep).
  destruct (change_refused _ _ _ _ _) eqn:E1.
  { eexists _, _. split; [reflexivity|]. split; [done|]. eexists _, _, _, t. split; [done|].
    split; [done|]. split; [lia|]. split; [done|]. right. split; [done|]. split; [done|]. split; [apply Herr|].
    exists env_op_overwrite, (entry e). eauto. }
  destruct (callback_refused _ _ _ _ _) eqn:E2.
  { eexists _, _. split; [reflexivity|]. split; [done|]. eexists _, _, _, t. split; [done|].
    split; [done|]. split; [lia|]. split; [done|]. right. split; [done|]. split; [done|]. split; [apply Herr|].
    exists env_op_overwrite, (entry e). eauto. }
  destruct (strdup_ok s d Hmem) as (al & E & Hal). rewrite (bind_eq _ _ _ _ _ E). clear E.
  set (e' := _Entry (h1 k) (Entry (key (entry e)) (Some d) (callback (entry e)) (flags (entry e)))).
  rewrite (bind_eq _ _ _ tt _ (set_slot_eq (State (htab s) (errno s) al) t (path k n) e' Ht ltac:(lia))).
  eexists _, _. split; [reflexivity|]. split; [cbn; lia|].
  assert (live e' k d) as Hl' by (split; [cbn; lia|done]).
  assert (forall i e1 d', 1 <= i <= sz -> i <> path k n -> t !! Z.to_nat i = Some e1 -> ~ live e1 k d') as Hother.
  { intros i e1 d' Hr Hne He1 Hl1. apply Hne. by eapply (inv_unique _ Hi i (path k n)). }
  eexists _, _, _, (<[Z.to_nat (path k n) := e']> t). split; [done|]. split; [done|].
  split; [pose proof (fresh_insert t _ _ e' He); case_decide; lia|]. split; [done|].
  left. split; [lia|]. split; cbn; [done|done| | |].
  - rewrite Hf, (count_insert t _ e) by done. rewrite !decide_True by (done || (cbn; lia)). lia.
  - eapply inv_change; eauto; [cbn; lia|]. right. exists k, d, n'. repeat (split; [done|]). done.
  - eapply maps_set; eauto. intros k' d' (_ & ? & _). congruence.
Qed.

Lemma enter_ok :
  is_Some (m !! k) \/ (exists i, 1 <= i <= sz /\ ~ busy t i) ->
  stored (hsearch_r k (Some d) ENTER flag s).
Proof.
  intros Hroom. pose proof Hrep as [Ht Hs Hf Hi Hm].
  unfold hsearch_r. rewrite bind_gets, Hs, (bind_must _ (h1 k)) by by apply first_hash_ok.
  destruct (m !! k) as [v|] eqn:Ev.
  { pose proof (proj1 (Hm k v) Ev) as (i & e & Hr & He & Hl).
    destruct (skips_hit t k i e v Hi Hr He Hl) as (n & Hn & -> & Hsk).
    destruct (overwrite_ok n e v Hn He Hl) as (r & s' & E & Hr1 & Hst).
    rewrite (bind_eq _ _ _ (inl r) s'); [done|]. eapply find_hit; eauto. }
  destruct Hroom as [[? ?]|(i0 & Hi0 & Hnb)]; [done|].
  destruct (skips_or_empty t k sz Hi ltac:(lia) (no_live t m k Hm Ev)) as [(n & e & Hn & Hsk & He & Hu)|Hsk].
  2: { destruct (path_surj k i0 Hi0) as (n & Hn & <-). by apply Hsk in Hn as [? _]. }
  rewrite (bind_eq _ _ _ (inr (path k n, first_deleted t k n)) s) by (by eapply find_empty).
  rewrite bind_gets, Hs, Hf. pose proof (path_range k n).
  destruct (count_bounds t _ e Hi He ltac:(lia)) as (? & _ & Hlt & _).
  rewrite (proj2 (Z.eqb_neq (count t) sz)) by lia.
  assert (forall j, 0 <= j < n -> busy t (path k j)) as Hbusy by (intros j Hj; by apply Hsk).
  unfold first_deleted. destruct (Z.ltb_spec 0 n); [|eapply create_ok; eauto; lia].
  destruct (t !! Z.to_nat (h1 k)) as [e1|] eqn:E1; [|eapply create_ok; eauto; lia].
  destruct (Z.eqb_spec (used e1) (-1)); [|eapply create_ok; eauto; lia].
  pose proof (h1_range k). rewrite (proj2 (Z.eqb_neq (h1 k) 0)) by lia. cbn [negb].
  eapply (create_ok (h1 k) 0 e1); eauto; [lia|by rewrite path_0|intros j ?; lia|lia].
Qed.
End enter.
End probing.

(** ** Creation *)
Lemma next_prime_ok f n p :
  odd n -> 5 <= n -> next_prime f n = Some p -> p < 2 ^ 31 ->
  n <= p /\ odd p /\ Z.prime p /\ forall q, n <= q < p -> Z.prime q -> False.
Proof.
  revert n. induction f as [|f IH]; intros n Ho Hn Hp Hlt; [done|]. cbn [next_prime] in Hp.
  destruct (Z.lt_ge_cases n (2 ^ 31)) as [Hr|Hr].
  - destruct (isprime_ok n Ho ltac:(lia)) as (b & Eb & Hb). rewrite Eb in Hp. cbn [mbind option_bind] in Hp.
    destruct b.
    + injection Hp as <-. split; [lia|]. split; [done|]. split; [by apply Hb|]. intros q Hq. lia.
    + assert (odd (n + 2)) as Ho2.
      { unfold odd in *. replace (n + 2) with (n + 1 * 2) by lia. by rewrite Z.mod_add by lia. }
      destruct (IH (n + 2) Ho2 ltac:(lia) Hp Hlt) as (? & ? & ? & Hmin).
      split; [lia|]. split; [done|]. split; [done|]. intros q Hq Hqp.
      destruct (Z.eq_dec q n) as [->|]; [by apply Hb in Hqp|].
      destruct (Z.eq_dec q (n + 1)) as [->|]; [|by apply (Hmin q); [lia|]].
      destruct Hqp as [_ Hqp]. apply (Hqp 2); [lia|]. apply Z.mod_divide; [lia|].
      unfold odd in Ho. rewrite Zplus_mod, Ho. done.
  - exfalso. assert (forall f n, 2 ^ 31 <= n -> next_prime f n = Some p -> n <= p) as Hge.
    { clear. intros f. induction f as [|f IH]; intros n Hn; cbn [next_prime]; [done|].
      destruct (isprime n) as [[|]|]; cbn [mbind option_bind]; [intros [= <-]; lia| |done].
      intros E%IH; lia. }
    specialize (Hge (S f) n Hr Hp). lia.
Qed.

(** The sizes [himport_r] asks for: the search for a prime ends. *)
Definition prime_found (nel : Z) : bool :=
  match next_prime (Z.to_nat (2 * Z.lor nel 1 + 8)) (Z.lor nel 1) with
  | Some p => (5 <=? p) && (p <? 2 ^ 31)
  | None => false
  end.

Lemma primes_found : forallb prime_found (seqZ 2 1023) = true.
Proof. vm_compute. done. Qed.

Lemma lor_1 n : 0 <= n -> Z.lor n 1 mod 2 = 1 /\ n <= Z.lor n 1 <= n + 1.
Proof.
  intros Hn. destruct n as [|[p|p|]|p]; [done| | |done|lia].
  - change (Z.lor (Z.pos p~1) 1) with (Z.pos p~1). rewrite Pos2Z.pos_xI. dlia.
  - change (Z.lor (Z.pos p~0) 1) with (Z.pos p~1). rewrite Pos2Z.pos_xI, Pos2Z.pos_xO. dlia.
Qed.

Lemma rep_blank sz P s :
  5 <= sz < 2 ^ 31 -> P None -> table (htab s) = Some (replicate (Z.to_nat (sz + 1)) blank_entry) ->
  size (htab s) = sz -> filled (htab s) = 0 ->
  rep sz P s (replicate (Z.to_nat (sz + 1)) blank_entry) ∅ /\
  fresh (replicate (Z.to_nat (sz + 1)) blank_entry) = sz + 1.
Proof.
  intros Hsz HP Ht Hs Hf.
  assert (forall i e, replicate (Z.to_nat (sz + 1)) blank_entry !! i = Some e -> e = blank_entry) as Hb.
  { intros i e [-> _]%lookup_replicate. done. }
  assert (forall n, count (replicate n blank_entry) = 0 /\ fresh (replicate n blank_entry) = Z.of_nat n) as Hc.
  { unfold count, fresh. intros n. induction n as [|n [IH1 IH2]]; [done|].
    cbn [replicate]. rewrite !filter_cons. cbn [used blank_entry]. rewrite decide_False, decide_True by (lia || done).
    simpl_zlen. lia. }
  split; [|rewrite (proj2 (Hc _)); lia]. split; [done|done|by rewrite Hf, (proj1 (Hc _))| |].
  - split.
    + unfold zlen. rewrite length_replicate. lia.
    + exists blank_entry. split; [|done]. apply lookup_replicate. split; [done|lia].
    + intros i e _ ->%Hb. by left.
    + intros i j e e' k d d' _ _ ->%Hb _ (? & _) _. cbn in *. lia.
    + by apply Forall_replicate.
  - intros k d. rewrite lookup_empty. split; [done|]. intros (i & e & _ & ->%Hb & (? & _)). cbn in *. lia.
Qed.

(** ** The interface *)
Lemma hcreate_r_ok P s nel :
  P None -> table (htab s) = None -> mem_ok s -> 2 <= nel <= 1024 ->
  exists sz s' t, hcreate_r nel s = Some (1, s') /\ nel <= sz /\ 5 <= sz < 2 ^ 31 /\ Z.prime sz /\
    (forall q, nel <= q < sz -> Z.prime q -> q = 2 \/ q = 3) /\
    rep sz P s' t ∅ /\ fresh t = sz + 1 /\ mem_ok s' /\ change_ok (htab s') = change_ok (htab s).
Proof.
  intros HP Ht Hmem Hn. unfold hcreate_r. rewrite bind_gets, Ht.
  pose proof primes_found as Hall. rewrite forallb_forall in Hall. specialize (Hall nel).
  unfold prime_found in Hall. destruct (lor_1 nel ltac:(lia)) as [Hodd Hle].
  destruct (next_prime _ (Z.lor nel 1)) as [sz|] eqn:E.
  2: { exfalso. apply diff_false_true, Hall. apply list_elem_of_In, elem_of_seqZ. lia. }
  rewrite (bind_must _ sz) by done.
  assert (5 <= sz < 2 ^ 31) as Hsz.
  { assert ((5 <=? sz) && (sz <? 2 ^ 31) = true) as Hb by (apply Hall, list_elem_of_In, elem_of_seqZ; lia).
    apply andb_true_iff in Hb as [?%Z.leb_le ?%Z.ltb_lt]. lia. }
  assert (Z.lor nel 1 <= sz /\ Z.prime sz /\ forall q, Z.lor nel 1 <= q < sz -> Z.prime q -> q = 3 \/ q = 4) as (Hge & Hpr & Hmin).
  { destruct (Z.eq_dec (Z.lor nel 1) 3) as [E3|E3].
    - rewrite E3 in E. change (next_prime (Z.to_nat (2 * 3 + 8)) 3) with (next_prime 13 5) in E.
      destruct (next_prime_ok _ _ _ (eq_refl : odd 5) ltac:(lia) E ltac:(lia)) as (? & _ & ? & Hm).
      split; [lia|]. split; [done|]. intros q Hq Hqp. destruct (Z.lt_ge_cases q 5); [lia|].
      exfalso. apply (Hm q); [lia|done].
    - destruct (next_prime_ok _ _ _ Hodd ltac:(unfold odd in *; dlia) E ltac:(lia)) as (? & _ & ? & Hm).
      split; [lia|]. split; [done|]. intros q Hq Hqp. exfalso. by apply (Hm q). }
  assert (exists al, alloc s = Some (true, State (htab s) (errno s) al) /\ Forall (fun b => b = true) al) as (al & Ea & Hal).
  { unfold mem_ok in Hmem. destruct s as [h er [|b al]]; cbn in *; [by eexists|].
    apply Forall_cons in Hmem as [-> ?]. by eexists. }
  rewrite (bind_eq _ _ _ _ _ Ea).
  eexists sz, _, _. split; [reflexivity|]. split; [lia|]. split; [done|]. split; [done|]. split.
  { intros q Hq Hqp. destruct (Z.eq_dec q nel) as [->|]; [|destruct (Hmin q) as [->| ->]; [lia|done|by right|]].
    - destruct (Z.eq_dec (Z.lor nel 1) nel) as [El|El].
      + destruct (Hmin nel) as [->| ->]; [lia|done|by right|]. done.
      + destruct (Z.eq_dec nel 2) as [->|]; [by left|]. exfalso. destruct Hqp as [_ Hqp].
        apply (Hqp 2); [lia|]. apply Z.mod_divide; [lia|]. dlia.
    - exfalso. destruct Hqp as [_ Hqp]. apply (Hqp 2); [lia|]. by exists 2. }
  set (s' := State _ _ _). destruct (rep_blank sz P s' Hsz HP eq_refl eq_refl eq_refl) as [Hrep Hfr].
  split; [exact Hrep|]. split; [exact Hfr|]. split; [exact Hal|done].
Qed.

(** ** Sequences of calls *)
Inductive call := Set_ (k d : list Z) | Unset (k : list Z) | Get (k : list Z).
Inductive reply := Done (ok : bool) | Value (v : option (list Z)).

Definition call_ok (c : call) : Prop :=
  match c with Set_ k d => chars k /\ chars d | Unset k => chars k | Get k => chars k end.
Definition is_set (c : call) : Prop := match c with Set_ _ _ => True | _ => False end.
#[global] Instance is_set_dec c : Decision (is_set c).
Proof. destruct c; apply _. Defined.

Section calls.
Context `{EnvHooks}.

(** A call on the table; [Get] reads the data of the entry [*retval] points to. *)
Definition do_call (c : call) (flag : Z) : H reply :=
  match c with
  | Set_ k d => r ← hsearch_r k (Some d) ENTER flag; mret (Done (negb (r.1 =? 0)))
  | Unset k => r ← hdelete_r k flag; mret (Done (negb (r =? 0)))
  | Get k =>
      r ← hsearch_r k None FIND flag;
      match r.2 with Some i => e ← slot i; mret (Value (data (entry e))) | None => mret (Value None) end
  end.
Fixpoint do_calls (cs : list call) (flag : Z) : H (list reply) :=
  match cs with
  | [] => mret []
  | c :: cs => r ← do_call c flag; rs ← do_calls cs flag; mret (r :: rs)
  end.
End calls.

(** The same calls on a finite map. *)
Definition map_call (m : gmap (list Z) (list Z)) (c : call) : reply * gmap (list Z) (list Z) :=
  match c with
  | Set_ k d => (Done true, <[k := d]> m)
  | Unset k => (Done (bool_decide (is_Some (m !! k))), delete k m)
  | Get k => (Value (m !! k), m)
  end.
Fixpoint map_calls (m : gmap (list Z) (list Z)) (cs : list call) : list reply :=
  match cs with [] => [] | c :: cs => let '(r, m) := map_call m c in r :: map_calls m cs end.

(** A callback that approves every change. *)
Definition approves (cb : option (list Z -> option (list Z) -> env_op -> Z -> Z)) : Prop :=
  match cb with Some f => forall k d op flag, f k d op flag = 0 | None => True end.

Section sequences.
Context `{EnvHooksLaws}.
Context (Hcb : forall h e, approves (callback e) -> approves (callback (env_callback_init h e))).
Context (Hfl : forall h e, approves (callback e) -> approves (callback (env_flags_init h e))).
Context (sz : Z) (Hsz : 5 <= sz < 2 ^ 31) (Hprime : Z.prime sz) (flag : Z).

Lemma approved s k d op : change_ok (htab s) = None -> ~ refused approves s k d flag op.
Proof.
  intros Hc (e & _ & Ha & [E|E]); unfold change_refused, callback_refused in E.
  - by rewrite Hc in E.
  - destruct (callback e) as [f|]; [|done]. cbn in Ha. by rewrite Ha in E.
Qed.

Lemma set_ok s t m k d :
  rep sz approves s t m -> mem_ok s -> change_ok (htab s) = None -> chars k -> chars d -> 1 < fresh t ->
  exists r rv s' t', hsearch_r k (Some d) ENTER flag s = Some ((r, rv), s') /\ 0 < r /\
    rep sz approves s' t' (<[k := d]> m) /\ mem_ok s' /\ change_ok (htab s') = None /\ fresh t - 1 <= fresh t'.
Proof.
  intros Hrep Hmem Hck Hk Hd Hroom.
  destruct (enter_ok sz Hsz Hprime approves I Hcb Hfl s t m k d flag Hrep Hk Hd Hmem)
    as (r & rv & s' & t' & E & Hm' & Hf' & Hc' & [[Hr Hrep']|(_ & _ & _ & op & Href)]).
  - right. eapply fresh_bucket; [apply Hrep|done].
  - exists r, rv, s', t'. rewrite Hc'. done.
  - by apply approved in Href.
Qed.

Lemma do_call_ok s t m c :
  rep sz approves s t m -> mem_ok s -> change_ok (htab s) = None -> call_ok c ->
  (is_set c -> 1 < fresh t) ->
  exists s' t', do_call c flag s = Some ((map_call m c).1, s') /\ rep sz approves s' t' (map_call m c).2 /\
    mem_ok s' /\ change_ok (htab s') = None /\ fresh t - (if decide (is_set c) then 1 else 0) <= fresh t'.
Proof.
  intros Hrep Hmem Hck Hc Hroom. destruct c as [k d|k|k]; cbn [do_call map_call fst snd].
  - destruct Hc as [Hk Hd].
    destruct (set_ok s t m k d Hrep Hmem Hck Hk Hd (Hroom I)) as (r & rv & s' & t' & E & Hr & Hrep' & ? & ? & ?).
    rewrite (bind_eq _ _ _ _ _ E). exists s', t'. cbn [fst].
    rewrite (proj2 (Z.eqb_neq r 0)) by lia. split; [done|]. split; [done|]. split; [done|].
    split; [done|]. by case_decide.
  - destruct (hdelete_r_ok sz Hsz Hprime approves I s t m k flag Hrep Hc)
      as (r & s' & t' & E & Ha & Hf & Hck' & [(-> & Hin & Hrep' & _)|(-> & -> & Hrep' & Hno)]);
      rewrite (bind_eq _ _ _ _ _ E); eexists s', _; cbn [Z.eqb negb].
    + rewrite bool_decide_true by done. split; [done|]. split; [exact Hrep'|].
      split; [by unfold mem_ok; rewrite Ha|]. split; [congruence|]. case_decide; [done|]. lia.
    + destruct Hno as [Hno|(e & d & _ & Ha' & [Hr|Hr])].
      * rewrite bool_decide_false by (rewrite Hno; by intros [? ?]). rewrite delete_id by done.
        split; [done|]. split; [exact Hrep'|]. split; [by unfold mem_ok; rewrite Ha|]. split; [congruence|].
        case_decide; [done|]. lia.
      * exfalso. unfold change_refused in Hr. by rewrite Hck in Hr.
      * exfalso. unfold callback_refused in Hr. destruct (callback (entry e)) as [f|]; [|done].
        cbn in Ha'. by rewrite Ha' in Hr.
  - pose proof (find_ok sz Hsz Hprime approves s t m k None flag Hrep Hc) as Hf.
    destruct (m !! k) as [v|].
    + destruct Hf as (i & e & Hr & He & (Hu & Hke & Hde) & E). rewrite (bind_eq _ _ _ _ _ E). cbn [snd].
      rewrite (bind_eq _ _ _ e s) by (eapply slot_eq; [apply Hrep|lia|done]).
      exists s, t. rewrite Hde. split; [done|]. split; [done|]. split; [done|]. split; [done|]. case_decide; [done|]. lia.
    + rewrite (bind_eq _ _ _ _ _ Hf). eexists _, t. split; [reflexivity|]. split; [by destruct Hrep|].
      split; [done|]. split; [done|]. case_decide; [done|]. lia.
Qed.

(** The calls that store a value. *)
Definition sets (cs : list call) : Z := zlen (filter is_set cs).

Lemma do_calls_ok cs s t m :
  rep sz approves s t m -> mem_ok s -> change_ok (htab s) = None -> Forall call_ok cs ->
  sets cs < fresh t ->
  exists s', do_calls cs flag s = Some (map_calls m cs, s').
Proof.
  revert s t m. induction cs as [|c cs IH]; intros s t m Hrep Hmem Hck Hcs Hn; cbn [do_calls map_calls].
  { by eexists. }
  apply Forall_cons in Hcs as [Hc Hcs]. unfold sets in Hn. rewrite filter_cons in Hn.
  pose proof (zlen_nonneg (filter is_set cs)).
  destruct (do_call_ok s t m c Hrep Hmem Hck Hc) as (s1 & t1 & E & Hrep1 & Hmem1 & Hck1 & Hf1).
  { intros Hset. rewrite decide_True in Hn by done. simpl_zlen. lia. }
  destruct (IH s1 t1 (map_call m c).2 Hrep1 Hmem1 Hck1 Hcs) as (s' & E').
  { unfold sets. case_decide; simpl_zlen; lia. }
  rewrite (bind_eq _ _ _ _ _ E), (bind_eq _ _ _ _ _ E'). exists s'.
  by destruct (map_call m c).
Qed.
End sequences.

(** C38: [hcreate_r] for 2 to 1024 elements, the range [himport_r] stays in, ends and
    makes an empty table whose size is the smallest prime above 4 that is not below the
    number asked for. *)
Theorem hcreate_r_spec P s nel :
  P None -> table (htab s) = None -> mem_ok s -> 2 <= nel <= 1024 ->
  exists sz s' t, hcreate_r nel s = Some (1, s') /\ nel <= sz /\ 5 <= sz < 2 ^ 31 /\ Z.prime sz /\
    (forall q, nel <= q < sz -> Z.prime q -> q = 2 \/ q = 3) /\
    rep sz P s' t ∅ /\ fresh t = sz + 1 /\ mem_ok s' /\ change_ok (htab s') = change_ok (htab s).
Proof. apply hcreate_r_ok. Qed.

(** C33: After [hcreate_r], any sequence of stores, deletions and look-ups with at most as
    many stores as the table was created for answers exactly as the same calls on a
    finite map from names to values do: the double hashing, the deleted markers and the
    probe sequences are not visible.  The hooks are assumed to approve every change. *)
Theorem hash_refines_map `{EnvHooksLaws} s nel cs flag :
  (forall h e, approves (callback e) -> approves (callback (env_callback_init h e))) ->
  (forall h e, approves (callback e) -> approves (callback (env_flags_init h e))) ->
  table (htab s) = None -> mem_ok s -> change_ok (htab s) = None -> 2 <= nel <= 1024 ->
  Forall call_ok cs -> sets cs <= nel ->
  exists s', (hcreate_r nel;; do_calls cs flag) s = Some (map_calls ∅ cs, s').
Proof.
  intros Hcb Hfl Ht Hmem Hck Hn Hcs Hs.
  destruct (hcreate_r_ok approves s nel I Ht Hmem Hn)
    as (sz & s1 & t & E & Hge & Hsz & Hpr & _ & Hrep & Hf & Hm1 & Hc1).
  rewrite (bind_eq _ _ _ _ _ E). eapply do_calls_ok; eauto; [by rewrite Hc1|lia].
Qed.

(** [hsearch_r] with [ENTER], hooks included: if the key is present or a bucket that
    was never used is left, the call returns; either the table then represents the map
    with the new value and the result is positive, or a hook refused the change, the
    result is 0 with a null entry, and the represented map is unchanged (an entry made
    for the check is taken out again). *)
Theorem hsearch_r_enter_spec `{EnvHooksLaws} sz P s t m k d flag :
  5 <= sz < 2 ^ 31 -> Z.prime sz -> P None ->
  (forall h e, P (callback e) -> P (callback (env_callback_init h e))) ->
  (forall h e, P (callback e) -> P (callback (env_flags_init h e))) ->
  rep sz P s t m -> chars k -> chars d -> mem_ok s ->
  is_Some (m !! k) \/ (exists i, 1 <= i <= sz /\ ~ busy t i) ->
  stored sz P s t m k d flag (hsearch_r k (Some d) ENTER flag s).
Proof. intros. by apply enter_ok. Qed.

(** [hdelete_r] takes exactly the named entry out of the map, or returns 0 and leaves
    the table as it was because the name is not there or a hook refused. *)
Theorem hdelete_r_spec `{EnvHooks} sz P s t m k flag :
  5 <= sz < 2 ^ 31 -> Z.prime sz -> P None -> rep sz P s t m -> chars k ->
  exists r s' t', hdelete_r k flag s = Some (r, s') /\ allocs s' = allocs s /\ fresh t <= fresh t' /\
    change_ok (htab s') = change_ok (htab s) /\
    (r = 1 /\ is_Some (m !! k) /\ rep sz P s' t' (delete k m) /\ errno s' = errno s \/
     r = 0 /\ t' = t /\ rep sz P s' t m /\ (m !! k = None \/ exists e d, live e k d /\ P (callback (entry e)) /\
       (change_refused (htab s) (entry e) None env_op_delete flag = true \/
        callback_refused (entry e) k None env_op_delete flag = true))).
Proof. intros. by apply hdelete_r_ok. Qed.

(** When no unused bucket is left but some are deleted, entering a new name whose
    first bucket holds another variable reports success and destroys that variable: the
    search for a deleted bucket only looks at the first one. *)
Theorem hsearch_r_full_overwrites `{EnvHooksLaws} sz P s t m k d flag e0 k' v :
  5 <= sz < 2 ^ 31 -> Z.prime sz -> P None ->
  (forall h e, P (callback e) -> P (callback (env_callback_init h e))) ->
  (forall h e, P (callback e) -> P (callback (env_flags_init h e))) ->
  rep sz P s t m -> chars k -> mem_ok s ->
  m !! k = None -> (forall i, 1 <= i <= sz -> busy t i) -> count t < sz ->
  t !! Z.to_nat (h1 sz k) = Some e0 -> live e0 k' v -> (forall op, ~ refused P s k d flag op) ->
  exists s' t', hsearch_r k (Some d) ENTER flag s = Some ((1, Some (h1 sz k)), s') /\
    table (htab s') = Some t' /\ maps sz t' (<[k := d]> (delete k' m)).
Proof. intros. by eapply (full_overwrites sz). Qed.

(** ** Instances *)
Definition no_hooks : EnvHooks := {| env_callback_init := fun _ e => e; env_flags_init := fun _ e => e |}.
Lemma no_hooks_laws : @EnvHooksLaws no_hooks.
Proof. by split. Qed.

Lemma prime_5 : Z.prime 5.
Proof.
  split; [lia|]. intros n Hn [q Hq].
  assert (n = 2 \/ n = 3 \/ n = 4) as [->|[->| ->]] by lia; lia.
Qed.

Definition demo_state (t : option (list _ENTRY)) (n : Z) : state := State (Htab t 5 n None) 0 [].
Definition tomb : _ENTRY := _Entry (-1) (Entry None None None 0).

(** Five buckets, one of them in use, four deleted. *)
Definition demo_full : list _ENTRY :=
  [blank_entry; tomb; tomb; _Entry 3 (Entry (Some [97]) (Some [49]) None 0); tomb; tomb].

Lemma bucket_cases i : 1 <= i <= 5 -> i = 1 \/ i = 2 \/ i = 3 \/ i = 4 \/ i = 5.
Proof. lia. Qed.

Lemma demo_full_lookup i e :
  1 <= i <= 5 -> demo_full !! Z.to_nat i = Some e ->
  e = tomb /\ i <> 3 \/ i = 3 /\ e = _Entry 3 (Entry (Some [97]) (Some [49]) None 0).
Proof.
  intros Hi. destruct (bucket_cases i Hi) as [->|[->|[->|[->| ->]]]]; intros [= <-]; auto;
    left; split; done.
Qed.

Lemma demo_full_rep : rep 5 (fun _ => True) (demo_state (Some demo_full) 1) demo_full {[ [97] := [49] ]}.
Proof.
  split; [done|done|done| |].
  - split; [done|by exists blank_entry| | |by repeat constructor].
    + intros i e Hi He. destruct (demo_full_lookup i e Hi He) as [[-> _]|[-> ->]]; [right; by left|]. right. right.
      exists [97], [49]. split; [done|]. split; [by repeat constructor|]. split; [by repeat constructor|].
      split; [done|]. exists 0. split; [done|]. split; [done|]. intros j ?. lia.
    + intros i j e e' k d d' Hi Hj He He'.
      destruct (demo_full_lookup i e Hi He) as [[-> _]|[-> _]]; [intros (? & _); cbn in *; lia|].
      destruct (demo_full_lookup j e' Hj He') as [[-> _]|[-> _]]; [|done]. intros _ (? & _). cbn in *. lia.
  - intros k d. rewrite lookup_singleton_Some. split.
    + intros [<- <-]. by eexists 3, _.
    + intros (i & e & Hi & He & (Hu & Hk & Hd)).
      destruct (demo_full_lookup i e Hi He) as [[-> _]|[-> ->]]; [cbn in *; lia|]. cbn in *. by simplify_eq.
Qed.

Lemma hcreate_r_spec_witness :
  exists sz s' t, hcreate_r 10 (demo_state None 0) = Some (1, s') /\ 10 <= sz /\ 5 <= sz < 2 ^ 31 /\ Z.prime sz /\
    (forall q, 10 <= q < sz -> Z.prime q -> q = 2 \/ q = 3) /\
    rep sz (fun _ => True) s' t ∅ /\ fresh t = sz + 1 /\ mem_ok s' /\ change_ok (htab s') = None.
Proof. apply (hcreate_r_spec (fun _ => True) (demo_state None 0) 10); [done|done|by constructor|lia]. Defined.

Lemma hash_refines_map_witness :
  exists s', (hcreate_r 2;; @do_calls no_hooks [Set_ [97] [49]; Get [97]; Unset [97]; Get [97]] 0) (demo_state None 0) =
    Some (map_calls ∅ [Set_ [97] [49]; Get [97]; Unset [97]; Get [97]], s').
Proof.
  apply (@hash_refines_map no_hooks no_hooks_laws); [done|done|done|by constructor|done|lia| |done].
  repeat constructor; by vm_compute.
Defined.

Lemma hsearch_r_enter_spec_witness :
  stored 5 (fun _ => True) (demo_state (Some demo_full) 1) demo_full {[ [97] := [49] ]} [97] [50] 0
    (@hsearch_r no_hooks [97] (Some [50]) ENTER 0 (demo_state (Some demo_full) 1)).
Proof.
  apply (@hsearch_r_enter_spec no_hooks no_hooks_laws);
    [lia|exact prime_5|done|done|done|exact demo_full_rep|by repeat constructor|by repeat constructor
    |by constructor|left; by eexists].
Defined.

Lemma hdelete_r_spec_witness :
  exists r s' t', @hdelete_r no_hooks [97] 0 (demo_state (Some demo_full) 1) = Some (r, s') /\ allocs s' = [] /\
    fresh demo_full <= fresh t' /\ change_ok (htab s') = None /\
    (r = 1 /\ is_Some (({[ [97] := [49] ]} : gmap (list Z) (list Z)) !! [97]) /\
       rep 5 (fun _ => True) s' t' (delete [97] {[ [97] := [49] ]}) /\ errno s' = 0 \/
     r = 0 /\ t' = demo_full /\ rep 5 (fun _ => True) s' demo_full {[ [97] := [49] ]} /\
       (({[ [97] := [49] ]} : gmap (list Z) (list Z)) !! [97] = None \/ exists e d, live e [97] d /\ True /\
       (change_refused (Htab (Some demo_full) 5 1 None) (entry e) None env_op_delete 0 = true \/
        callback_refused (entry e) [97] None env_op_delete 0 = true))).
Proof.
  apply (@hdelete_r_spec no_hooks 5 (fun _ => True) (demo_state (Some demo_full) 1) demo_full);
    [lia|exact prime_5|done|exact demo_full_rep|by repeat constructor].
Defined.

Lemma hsearch_r_full_overwrites_witness :
  exists s' t', @hsearch_r no_hooks [102] (Some [50]) ENTER 0 (demo_state (Some demo_full) 1) = Some ((1, Some 3), s') /\
    table (htab s') = Some t' /\ maps 5 t' (<[ [102] := [50] ]> (delete [97] {[ [97] := [49] ]})).
Proof.
  apply (@hsearch_r_full_overwrites no_hooks no_hooks_laws 5 approves (demo_state (Some demo_full) 1) demo_full
    {[ [97] := [49] ]} [102] [50] 0 (_Entry 3 (Entry (Some [97]) (Some [49]) None 0)) [97] [49]);
    [lia|exact prime_5|done|done|done| |by repeat constructor|by constructor|done| |done|done|done|].
  - destruct demo_full_rep as [? ? ? [? ? ? ? _] ?]. split; try done. split; try done. by repeat constructor.
  - intros i Hi. destruct (bucket_cases i Hi) as [->|[->|[->|[->| ->]]]]; by eexists.
  - intros op. by apply approved.
Defined.

(** The prime test is wrong for the two numbers the code may pass it below 5. *)
Example isprime_small : isprime 3 = Some false /\ isprime 1 = Some true.
Proof. done. Qed.
