(* ===== verification/HashText.v ===== *)
(** * Export and import of the environment: [hexport_r], [himport_r], [hwalk_r] of
    lib/hashtable.c

    A buffer is the list of its bytes; a read or write outside it is undefined and
    yields [None].  [himport_r] works in place on its copy of the text, with [dp], [sp]
    and [name] as offsets, as in the code.  A used bucket whose data is NULL, which no
    operation leaves behind, makes the export undefined even where the code would skip it. *)

From Stdlib Require Import ZArith Lia.
From stdpp Require Import base option list numbers.
From S2P Require Import Prelude CMonad CString Qsort HashTable.
Import Hash.
Open Scope Z_scope.
Open Scope cint_scope.

(** [buf[i]], read and written. *)
Definition peek (buf : list Z) (i : Z) : option Z := if i <? 0 then None else buf !! Z.to_nat i.
Definition poke (buf : list Z) (i c : Z) : option (list Z) :=
  if (0 <=? i) && (i <? zlen buf) then Some (<[Z.to_nat i := c]> buf) else None.

(** The string that starts at offset [i]. *)
Fixpoint cstr_loop (f : nat) (buf : list Z) (i : Z) : option (list Z) :=
  match f with
  | O => None
  | S f => c ← peek buf i; if c =? 0 then Some [] else s ← cstr_loop f buf (i + 1); Some (c :: s)
  end.
Definition cstr_at (buf : list Z) (i : Z) : option (list Z) := cstr_loop (S (length buf)) buf i.

(** ** [hexport_r] *)
Section with_slre.
Context `{Slre}.

Definition match_string (flag : Z) (str pat : list Z) (priv : slre) : bool :=
  let method := Z.land flag H_MATCH_METHOD in
  if method =? H_MATCH_IDENT then str_cmp str pat =? 0
  else if method =? H_MATCH_SUBSTR then str_str str pat
  else if method =? H_MATCH_REGEX then slre_match priv str
  else false.

Fixpoint match_entry (k d : list Z) (flag : Z) (argv : list (list Z)) : bool :=
  match argv with
  | [] => false
  | pat :: argv =>
      match slre_compile pat with
      | None => false
      | Some priv =>
          if negb (Z.land flag H_MATCH_KEY =? 0) && match_string flag k pat priv then true
          else if negb (Z.land flag H_MATCH_DATA =? 0) && match_string flag d pat priv then true
          else match_entry k d flag argv
      end
  end.

(** The characters of a value that get a backslash. *)
Definition is_special (sep c : Z) : bool := (c =? sep) || (c =? 92).
Definition escapes (sep : Z) (s : list Z) : Z := zlen (filter (fun c => is_special sep c = true) s).

(** Pass 1: the entries selected from slots [i], [i + 1], ... ([n] of them are left) and
    the length of their text. *)
Fixpoint export_pass1 (n : nat) (i : Z) (sep flag : Z) (argv : list (list Z))
    : H (list (list Z * list Z) * Z) :=
  match n with
  | O => mret ([], 0)
  | S n =>
      e ← slot i;
      if 0 <? used e then
        k ← must (key (entry e)); d ← must (data (entry e));
        let found := match_entry k d flag argv in
        if (0 <? zlen argv) && negb found then export_pass1 n (i + 1) sep flag argv
        else if negb (Z.land flag H_HIDE_DOT =? 0) && (default 0 (head k) =? 46)
        then export_pass1 n (i + 1) sep flag argv
        else
          '(l, totlen) ← export_pass1 n (i + 1) sep flag argv;
          let len := (zlen k + 2) + (if sep =? 0 then zlen d else zlen d + escapes sep d) + 2 in
          mret ((k, d) :: l, len + totlen)
      else export_pass1 n (i + 1) sep flag argv
  end.

Definition cmpkey (e1 e2 : list Z * list Z) : Z := str_cmp e1.1 e2.1.

(** Pass 2: [*p++ = c] for the characters of a key and of a value. *)
Fixpoint emit (res : list Z) (p : Z) (s : list Z) : option (list Z * Z) :=
  match s with
  | [] => Some (res, p)
  | c :: s => res ← poke res p c; emit res (p + 1) s
  end.
Fixpoint emit_value (res : list Z) (p sep : Z) (s : list Z) : option (list Z * Z) :=
  match s with
  | [] => Some (res, p)
  | c :: s =>
      '(res, p) ← if is_special sep c then emit res p [92] else Some (res, p);
      '(res, p) ← emit res p [c];
      emit_value res p sep s
  end.
Fixpoint export_pass2 (res : list Z) (p sep : Z) (l : list (list Z * list Z)) : option (list Z * Z) :=
  match l with
  | [] => Some (res, p)
  | (k, d) :: l =>
      '(res, p) ← emit res p k;
      '(res, p) ← emit res p [61];
      '(res, p) ← emit_value res p sep d;
      '(res, p) ← emit res p [sep];
      export_pass2 res p sep l
  end.

(** [resp] is the caller's buffer, if any; the result is the value returned and the
    buffer [*resp] points to. *)
Definition hexport_r (sep flag : Z) (resp : option (list Z)) (sz : Z) (argv : list (list Z))
    : H (Z * option (list Z)) :=
  h ← gets htab;
  '(l, totlen) ← export_pass1 (Z.to_nat (size h)) 1 sep flag argv;
  l ← must (qsort cmpkey 8 l (zlen l));
  if negb (sz =? 0) && (sz <? totlen + 1) then set_errno ENOMEM;; mret (-1, resp)
  else
    let sz := if sz =? 0 then totlen + 1 else sz in
    res ← match resp with
          | Some buf =>
              (* memset(res, 0, size) *)
              if sz <=? zlen buf
              then mret (Some (replicate (Z.to_nat sz) 0 ++ drop (Z.to_nat sz) buf))
              else must None
          | None => ok ← alloc; mret (if ok : bool then Some (replicate (Z.to_nat sz) 0) else None)
          end;
    match res with
    | None => set_errno ENOMEM;; mret (-1, None)
    | Some res =>
        '(res, p) ← must (export_pass2 res 0 sep l);
        res ← must (poke res p 0);
        mret (sz, Some res)
    end.
End with_slre.

(** ** [himport_r] *)
Definition drop_var_from_set (name : list Z) (vars : list (option (list Z))) : Z * list (option (list Z)) :=
  match vars with
  | [] => (1, vars)
  | _ =>
      let hit v := match v with Some v => str_cmp name v =? 0 | None => false end in
      (if existsb hit vars then 1 else 0, map (fun v => if hit v then None else v) vars)
  end.

Definition CONFIG_ENV_MIN_ENTRIES := 64.
Definition CONFIG_ENV_MAX_ENTRIES := 512.

(** The removal of carriage returns before line feeds: the buffer and [ignored_crs]. *)
Fixpoint crlf_loop (f : nat) (buf : list Z) (sz dp ignored : Z) : option (list Z * Z) :=
  match f with
  | O => None
  | S f =>
      if dp <? sz then
        c ← peek buf dp;
        if c =? 0 then Some (buf, ignored)
        else
          cr ← (if (c =? 13) && (dp <? sz - 1) then c' ← peek buf (dp + 1); Some (c' =? 10) else Some false);
          if cr : bool then crlf_loop f buf sz (dp + 1) (ignored + 1)
          else buf ← poke buf (dp - ignored) c; crlf_loop f buf sz (dp + 1) ignored
      else Some (buf, ignored)
  end.

(** [while (isblank( *dp)) ++dp] *)
Fixpoint skip_blank (f : nat) (buf : list Z) (dp : Z) : option Z :=
  match f with
  | O => None
  | S f => c ← peek buf dp; if Ctype.isblank c then skip_blank f buf (dp + 1) else Some dp
  end.

(** [while ( *dp && *dp != sep) ++dp], also stopping at '=' for a name. *)
Fixpoint skip_to (f : nat) (buf : list Z) (sep : Z) (name : bool) (dp : Z) : option Z :=
  match f with
  | O => None
  | S f =>
      c ← peek buf dp;
      if (c =? 0) || (c =? sep) || (name && (c =? 61)) then Some dp
      else skip_to f buf sep name (dp + 1)
  end.

(** The value is unescaped in place: the buffer, [sp] and [dp]. *)
Fixpoint value_loop (f : nat) (buf : list Z) (sep sp dp : Z) : option (list Z * Z * Z) :=
  match f with
  | O => None
  | S f =>
      c ← peek buf dp;
      if (c =? 0) || (c =? sep) then Some (buf, sp, dp)
      else
        dp ← (if c =? 92 then c' ← peek buf (dp + 1); Some (if c' =? 0 then dp else dp + 1) else Some dp);
        c ← peek buf dp;
        buf ← poke buf sp c;
        value_loop f buf sep (sp + 1) (dp + 1)
  end.

(** One round of the parser: what it found, the buffer and [dp] at its end. *)
Inductive line :=
| Comment
| Delete (name : list Z)
| Insert (name value : list Z).

Definition parse_line (buf : list Z) (sep dp : Z) : option (line * list Z * Z) :=
  let f := S (length buf) in
  dp ← skip_blank f buf dp;
  c ← peek buf dp;
  if c =? 35 then
    dp ← skip_to f buf sep false dp; Some (Comment, buf, dp + 1)
  else
    let name := dp in
    dp ← skip_to f buf sep true dp;
    c ← peek buf dp;
    del ← (if c =? 0 then Some true
           else c' ← peek buf (dp + 1); Some ((c' =? 0) || (c =? sep) || (c' =? sep)));
    if del : bool then
      '(buf, dp) ← (if c =? 61 then buf ← poke buf dp 0; Some (buf, dp + 1) else Some (buf, dp));
      buf ← poke buf dp 0;
      s ← cstr_at buf name;
      Some (Delete s, buf, dp + 1)
    else
      buf ← poke buf dp 0;
      let dp := dp + 1 in
      let value := dp in
      '(buf, sp, dp) ← value_loop f buf sep dp dp;
      buf ← poke buf sp 0;
      s ← cstr_at buf name;
      v ← cstr_at buf value;
      Some (Insert s v, buf, dp + 1).

Section import.
Context `{EnvHooks}.

(** What a parsed line does to the table: [None] is the return on an empty key. *)
Definition import_line (l : line) (flag : Z) (vars : list (option (list Z)))
    : H (option (list (option (list Z)))) :=
  match l with
  | Comment => mret (Some vars)
  | Delete name =>
      let '(hit, vars) := drop_var_from_set name vars in
      if hit =? 0 then mret (Some vars) else hdelete_r name flag;; mret (Some vars)
  | Insert name value =>
      if default 0 (head name) =? 0 then set_errno EINVAL;; mret None
      else
        let '(hit, vars) := drop_var_from_set name vars in
        if hit =? 0 then mret (Some vars)
        else hsearch_r name (Some value) ENTER flag;; mret (Some vars)
  end.

Fixpoint import_loop (f : nat) (buf : list Z) (sz sep dp flag : Z) (vars : list (option (list Z)))
    : H (option (list (option (list Z)))) :=
  match f with
  | O => must None
  | S f =>
      '(l, buf, dp) ← must (parse_line buf sep dp);
      r ← import_line l flag vars;
      match r with
      | None => mret None
      | Some vars =>
          more ← (if dp <? sz then c ← must (peek buf dp); mret (negb (c =? 0)) else mret false);
          if more : bool then import_loop f buf sz sep dp flag vars else mret (Some vars)
      end
  end.

(** The variables named but not present in the text. *)
Fixpoint import_rest (vars : list (option (list Z))) (flag : Z) : H unit :=
  match vars with
  | [] => mret tt
  | None :: vars => import_rest vars flag
  | Some v :: vars => hdelete_r v flag;; import_rest vars flag
  end.

Definition himport_r (env : list Z) (sz sep flag : Z) (crlf_is_lf : bool) (vars : list (list Z)) : H Z :=
  ok ← alloc;
  if negb ok then set_errno ENOMEM;; mret 0
  else if zlen env <? sz then must None
  else
    let buf := take (Z.to_nat sz) env ++ [0] in
    (if Z.land flag H_NOCLEAR =? 0
     then h ← gets htab; match table h with Some _ => hdestroy_r | None => mret tt end
     else mret tt);;
    h ← gets htab;
    created ← match table h with
              | Some _ => mret true
              | None =>
                  let nent := Z.min (CONFIG_ENV_MIN_ENTRIES + sz / 8) CONFIG_ENV_MAX_ENTRIES in
                  r ← hcreate_r nent; mret (negb (r =? 0))
              end;
    if negb (created : bool) then mret 0
    else if sz =? 0 then mret 1
    else
      '(buf, sz) ← (if crlf_is_lf
                    then '(buf, ignored) ← must (crlf_loop (S (length buf)) buf sz 0 0); mret (buf, sz - ignored)
                    else mret (buf, sz));
      r ← import_loop (S (length buf)) buf sz sep 0 flag (map Some vars);
      match r with
      | None => mret 0
      | Some vars => import_rest vars flag;; mret 1
      end.
End import.

(** ** [hwalk_r] *)
(** The callback may change the entry it is given. *)
Fixpoint hwalk_loop (n : nat) (i : Z) (callback : ENTRY -> Z * ENTRY) : H Z :=
  match n with
  | O => mret 0
  | S n =>
      e ← slot i;
      if 0 <? used e then
        let '(r, e') := callback (entry e) in
        set_slot i (_Entry (used e) e');;
        if negb (r =? 0) then mret r else hwalk_loop n (i + 1) callback
      else hwalk_loop n (i + 1) callback
  end.
Definition hwalk_r (callback : ENTRY -> Z * ENTRY) : H Z :=
  h ← gets htab; hwalk_loop (Z.to_nat (size h)) 1 callback.
