(* ===== verification/HashTextProps.v ===== *)
(** * Properties of export and import: what [hexport_r] writes, [himport_r] reads back *)

From Stdlib Require Import ZArith Lia.
From stdpp Require Import base option list numbers gmap fin_maps.
From S2P Require Import Prelude CMonad CString CStringProps Qsort HashTable HashTableProps HashText.
Import Hash.
Open Scope Z_scope.

(** ** Buffers *)
Lemma peek_at pre c post : peek (pre ++ c :: post) (zlen pre) = Some c.
Proof.
  unfold peek, zlen. destruct (Z.ltb_spec (Z.of_nat (length pre)) 0); [lia|].
  rewrite Nat2Z.id. by apply list_lookup_middle.
Qed.

Lemma poke_at pre c post x : poke (pre ++ c :: post) (zlen pre) x = Some (pre ++ x :: post).
Proof.
  unfold poke. pose proof (zlen_nonneg pre). pose proof (zlen_nonneg post).
  destruct (Z.leb_spec 0 (zlen pre)); [|lia]. simpl_zlen.
  destruct (Z.ltb_spec (zlen pre) (zlen pre + (1 + zlen post))); [|lia]. cbn [andb].
  unfold zlen. rewrite Nat2Z.id, insert_app_r_alt, Nat.sub_diag by lia. done.
Qed.

Lemma cstr_loop_ok f pre s post :
  chars s -> (length s < f)%nat -> cstr_loop f (pre ++ s ++ 0 :: post) (zlen pre) = Some s.
Proof.
  revert f pre. induction s as [|c s IH]; intros f pre Hs Hf; (destruct f as [|f]; [cbn in Hf; lia|]);
    cbn [cstr_loop app].
  - by rewrite peek_at.
  - apply chars_cons in Hs as [Hc Hs]. rewrite peek_at. cbn [mbind option_bind].
    rewrite (proj2 (Z.eqb_neq c 0)) by lia.
    replace (zlen pre + 1) with (zlen (pre ++ [c])) by (simpl_zlen; lia).
    replace (pre ++ c :: s ++ 0 :: post) with ((pre ++ [c]) ++ s ++ 0 :: post) by by rewrite <- app_assoc.
    rewrite IH by (done || (cbn in Hf; lia)). done.
Qed.

Lemma cstr_at_ok pre s post buf :
  chars s -> buf = pre ++ s ++ 0 :: post -> cstr_at buf (zlen pre) = Some s.
Proof.
  intros Hs ->. unfold cstr_at. apply cstr_loop_ok; [done|]. rewrite !length_app. cbn. lia.
Qed.

(** ** The text of an entry *)
Fixpoint escape (sep : Z) (s : list Z) : list Z :=
  match s with
  | [] => []
  | c :: s => if is_special sep c then 92 :: c :: escape sep s else c :: escape sep s
  end.
Definition line_text (sep : Z) (e : list Z * list Z) : list Z := e.1 ++ 61 :: escape sep e.2 ++ [sep].
Definition text (sep : Z) (l : list (list Z * list Z)) : list Z := concat (map (line_text sep) l).

(** The names and values the text format can hold: a name must not be empty, contain
    '=' or the separator, or begin like a comment or with a blank; a value must not be
    empty. *)
Definition entry_ok (sep : Z) (e : list Z * list Z) : Prop :=
  chars e.1 /\ chars e.2 /\ e.1 <> [] /\ e.2 <> [] /\
  Forall (fun c => c <> 61 /\ c <> sep) e.1 /\
  Ctype.isblank (default 0 (head e.1)) = false /\ default 0 (head e.1) <> 35.

#[global] Instance entry_ok_dec sep e : Decision (entry_ok sep e).
Proof. unfold entry_ok. apply _. Defined.

Definition sep_ok (sep : Z) : Prop := sep <> 61 /\ sep <> 92.

Lemma escape_length sep s : zlen (escape sep s) = zlen s + escapes sep s.
Proof.
  unfold escapes. induction s as [|c s IH]; [done|]. cbn [escape]. rewrite filter_cons.
  destruct (is_special sep c); rewrite ?decide_True, ?decide_False by done; simpl_zlen; rewrite IH; lia.
Qed.

(** ** [parse_line] reads an entry *)
Lemma skip_blank_ok f pre c post :
  (0 < f)%nat -> Ctype.isblank c = false -> skip_blank f (pre ++ c :: post) (zlen pre) = Some (zlen pre).
Proof. intros Hf Hc. destruct f; [lia|]. cbn [skip_blank]. rewrite peek_at. cbn [mbind option_bind]. by rewrite Hc. Qed.

Lemma skip_to_ok f pre s c post sep name :
  (length s < f)%nat -> chars s -> Forall (fun x => (name = true -> x <> 61) /\ x <> sep) s ->
  (c = 0 \/ c = sep \/ name = true /\ c = 61) ->
  skip_to f (pre ++ s ++ c :: post) sep name (zlen pre) = Some (zlen (pre ++ s)).
Proof.
  revert f pre. induction s as [|x s IH]; intros f pre Hf Hs Hn Hc; (destruct f as [|f]; [cbn in Hf; lia|]);
    cbn [skip_to app].
  - rewrite peek_at, app_nil_r. cbn [mbind option_bind].
    destruct Hc as [->|[->|[-> ->]]]; rewrite ?Z.eqb_refl, ?orb_true_r; done.
  - apply chars_cons in Hs as [Hx Hs]. apply Forall_cons in Hn as [[Hx1 Hx2] Hn].
    rewrite peek_at. cbn [mbind option_bind].
    rewrite (proj2 (Z.eqb_neq x 0)), (proj2 (Z.eqb_neq x sep)) by (done || lia). cbn [orb].
    assert (name && (x =? 61) = false) as ->.
    { destruct name; [|done]. by rewrite (proj2 (Z.eqb_neq x 61)) by by apply Hx1. }
    replace (zlen pre + 1) with (zlen (pre ++ [x])) by (simpl_zlen; lia).
    replace (pre ++ x :: s ++ c :: post) with ((pre ++ [x]) ++ s ++ c :: post) by by rewrite <- app_assoc.
    rewrite IH by (done || (cbn in Hf; lia)). by rewrite <- app_assoc.
Qed.

(** The value is moved down over the backslashes: [gap] bytes lie between [sp] and [dp]. *)
Lemma value_loop_ok f p gap s c post sep :
  sep_ok sep -> (length (escape sep s) < f)%nat -> chars s -> (c = 0 \/ c = sep) ->
  exists gap', value_loop f (p ++ gap ++ escape sep s ++ c :: post) sep (zlen p) (zlen (p ++ gap)) =
    Some (p ++ s ++ gap' ++ c :: post, zlen (p ++ s), zlen (p ++ s ++ gap')) /\
    zlen gap' = zlen gap + zlen (escape sep s) - zlen s.
Proof.
  intros Hsep. revert f p gap. induction s as [|x s IH]; intros f p gap Hf Hs Hc.
  { destruct f as [|f]; [cbn in Hf; lia|]. cbn [value_loop escape app].
    exists gap. rewrite app_assoc, peek_at. cbn [mbind option_bind].
    assert ((c =? 0) || (c =? sep) = true) as -> by (destruct Hc as [->| ->]; rewrite ?Z.eqb_refl, ?orb_true_r; done).
    rewrite app_nil_r, <- app_assoc. split; [done|]. simpl_zlen. lia. }
  apply chars_cons in Hs as [Hx Hs].
  destruct f as [|f]; [cbn in Hf; lia|]. cbn [value_loop].
  (* one character [x], written over the first byte [g] of the gap and what was read *)
  assert (forall l y, (l = [] \/ l = [92]) -> y = gap ++ l ++ [x] ->
    exists gap', (buf ← poke (p ++ y ++ escape sep s ++ c :: post) (zlen p) x;
                  value_loop f buf sep (zlen p + 1) (zlen (p ++ y))) =
      Some (p ++ (x :: s) ++ gap' ++ c :: post, zlen (p ++ x :: s), zlen (p ++ (x :: s) ++ gap')) /\
      zlen gap' = zlen gap + zlen l + zlen (escape sep s) - zlen s) as Hstep.
  { intros l y Hl Ey. destruct y as [|g y]; [by destruct gap; destruct l|].
    cbn [app]. rewrite poke_at. cbn [mbind option_bind].
    replace (zlen p + 1) with (zlen (p ++ [x])) by (simpl_zlen; lia).
    replace (p ++ x :: y ++ escape sep s ++ c :: post) with ((p ++ [x]) ++ y ++ escape sep s ++ c :: post)
      by by rewrite <- app_assoc.
    replace (zlen (p ++ g :: y)) with (zlen ((p ++ [x]) ++ y)) by (simpl_zlen; lia).
    destruct (IH f (p ++ [x]) y) as (gap' & E & Hg); [|done|done|].
    { cbn [escape] in Hf. destruct (is_special sep x); cbn in Hf; lia. }
    exists gap'. rewrite E, <- !app_assoc. split; [done|].
    apply (f_equal zlen) in Ey. revert Ey Hg. simpl_zlen. lia. }
  destruct Hsep as [Hs61 Hs92]. cbn [escape] in *. destruct (is_special sep x) eqn:Esp; cbn [app].
  - rewrite app_assoc, peek_at. cbn [mbind option_bind].
    rewrite (proj2 (Z.eqb_neq 92 sep)) by lia. cbn [Z.eqb orb Pos.eqb].
    replace ((p ++ gap) ++ 92 :: x :: escape sep s ++ c :: post)
      with ((p ++ gap ++ [92]) ++ x :: escape sep s ++ c :: post) by by rewrite <- !app_assoc.
    replace (zlen (p ++ gap) + 1) with (zlen (p ++ gap ++ [92])) by (simpl_zlen; lia).
    rewrite peek_at. cbn [mbind option_bind]. rewrite (proj2 (Z.eqb_neq x 0)) by lia.
    rewrite peek_at. cbn [mbind option_bind].
    destruct (Hstep [92] (gap ++ [92] ++ [x])) as (gap' & E & Hg); [by right|done|].
    exists gap'. split; [|revert Hg; simpl_zlen; lia]. etrans; [|exact E].
    replace (zlen (p ++ gap ++ [92]) + 1) with (zlen (p ++ gap ++ [92] ++ [x])) by (simpl_zlen; lia).
    by rewrite <- !app_assoc.
  - apply orb_false_iff in Esp as [E1 E2]. rewrite app_assoc, peek_at. cbn [mbind option_bind].
    rewrite (proj2 (Z.eqb_neq x 0)), E1, E2 by lia. cbn [orb mbind option_bind].
    rewrite peek_at. cbn [mbind option_bind].
    destruct (Hstep [] (gap ++ [] ++ [x])) as (gap' & E & Hg); [by left|done|].
    exists gap'. split; [|revert Hg; simpl_zlen; lia]. etrans; [|exact E]. cbn [app].
    replace (zlen (p ++ gap) + 1) with (zlen (p ++ gap ++ [x])) by (simpl_zlen; lia).
    by rewrite <- !app_assoc.
Qed.

Lemma parse_line_ok sep pre e post :
  sep_ok sep -> entry_ok sep e ->
  exists g, parse_line (pre ++ line_text sep e ++ post) sep (zlen pre) =
    Some (Insert e.1 e.2, pre ++ g ++ post, zlen (pre ++ line_text sep e)) /\
    zlen g = zlen (line_text sep e).
Proof.
  destruct e as [k d]. intros Hsep (Hk & Hd & Hkne & Hdne & Hkok & Hblank & Hhash). cbn [fst snd] in *.
  unfold parse_line, line_text. cbn [fst snd]. set (buf := pre ++ _ ++ post).
  assert (buf = pre ++ k ++ 61 :: escape sep d ++ sep :: post) as Eb.
  { unfold buf. rewrite <- !app_assoc. cbn. by rewrite <- app_assoc. }
  assert (length k < S (length buf))%nat as Hf1 by (rewrite Eb, !length_app; lia).
  assert (length (escape sep d) < S (length buf))%nat as Hf2.
  { rewrite Eb, !length_app. cbn. rewrite length_app. lia. }
  assert (exists k0 k1, k = k0 :: k1) as (k0 & k1 & Ek) by (destruct k; [done|eauto]).
  assert (buf = pre ++ k0 :: k1 ++ 61 :: escape sep d ++ sep :: post) as Eb' by (rewrite Eb, Ek; done).
  assert (k0 <> 35 /\ Ctype.isblank k0 = false) as [Hk35 Hk0] by (rewrite Ek in *; done).
  clearbody buf. cbn zeta.
  assert (skip_blank (S (length buf)) buf (zlen pre) = Some (zlen pre)) as ->.
  { rewrite Eb' at 2. apply skip_blank_ok; [lia|done]. }
  assert (peek buf (zlen pre) = Some k0) as Hp0 by (rewrite Eb'; apply peek_at).
  cbn [mbind option_bind]. rewrite Hp0. cbn [mbind option_bind]. rewrite (proj2 (Z.eqb_neq k0 35)) by done.
  assert (skip_to (S (length buf)) buf sep true (zlen pre) = Some (zlen (pre ++ k))) as ->.
  { rewrite Eb at 2. apply skip_to_ok; [done|done| |right; right; done].
    eapply Forall_impl; [exact Hkok|]. cbn. tauto. }
  assert (peek buf (zlen (pre ++ k)) = Some 61) as Hp1 by (rewrite Eb, app_assoc; apply peek_at).
  cbn [mbind option_bind]. rewrite Hp1. cbn [mbind option_bind].
  assert (exists c l, escape sep d ++ sep :: post = c :: l /\ c <> 0 /\ c <> sep) as (c & l & Ecl & Hc0 & Hcs).
  { destruct Hsep. destruct d as [|x d]; [done|]. apply chars_cons in Hd as [Hx _]. cbn [escape].
    destruct (is_special sep x) eqn:Esp; [eexists 92, _; cbn; split; [done|lia]|].
    apply orb_false_iff in Esp as [?%Z.eqb_neq _]. eexists x, _. split; [done|]. split; [lia|done]. }
  assert (peek buf (zlen (pre ++ k) + 1) = Some c) as ->.
  { rewrite Eb, Ecl. replace (zlen (pre ++ k) + 1) with (zlen (pre ++ k ++ [61])) by (simpl_zlen; lia).
    replace (pre ++ k ++ 61 :: c :: l) with ((pre ++ k ++ [61]) ++ c :: l) by by rewrite <- !app_assoc.
    apply peek_at. }
  change (61 =? 0) with false. cbn [mbind option_bind].
  rewrite (proj2 (Z.eqb_neq c 0)), (proj2 (Z.eqb_neq 61 sep)), (proj2 (Z.eqb_neq c sep))
    by (destruct Hsep; congruence || done). cbn [orb].
  assert (poke buf (zlen (pre ++ k)) 0 = Some ((pre ++ k) ++ 0 :: escape sep d ++ sep :: post)) as ->.
  { rewrite Eb, (app_assoc pre k). apply poke_at. }
  cbn [mbind option_bind]. replace (zlen (pre ++ k) + 1) with (zlen (pre ++ k ++ [0])) by (simpl_zlen; lia).
  destruct (value_loop_ok (S (length buf)) (pre ++ k ++ [0]) [] d sep post sep Hsep Hf2 Hd (or_intror eq_refl))
    as (gap & E & Hg).
  rewrite app_nil_r in E. cbn [app] in E.
  replace ((pre ++ k) ++ 0 :: escape sep d ++ sep :: post) with ((pre ++ k ++ [0]) ++ escape sep d ++ sep :: post)
    by by rewrite <- !app_assoc.
  rewrite E. cbn [mbind option_bind].
  assert (exists g gs, gap ++ [sep] = g :: gs) as (g & gs & Eg) by (destruct gap; cbn; eauto).
  replace ((pre ++ k ++ [0]) ++ d ++ gap ++ sep :: post) with (((pre ++ k ++ [0]) ++ d) ++ g :: gs ++ post).
  2: { rewrite <- (app_assoc _ d). f_equal. f_equal. change (sep :: post) with ([sep] ++ post). rewrite (app_assoc gap), Eg. done. }
  rewrite poke_at. cbn [mbind option_bind].
  rewrite (cstr_at_ok pre k (d ++ 0 :: gs ++ post)) by (done || by rewrite <- !app_assoc). cbn [mbind option_bind].
  rewrite (cstr_at_ok (pre ++ k ++ [0]) d (gs ++ post)) by (done || by rewrite <- !app_assoc). cbn [mbind option_bind].
  apply (f_equal zlen) in Eg. exists (k ++ 0 :: d ++ 0 :: gs). split.
  - f_equal. f_equal; [f_equal; by rewrite <- !app_assoc; cbn; rewrite <- !app_assoc|].
    revert Hg Eg. simpl_zlen. lia.
  - revert Hg Eg. simpl_zlen. lia.
Qed.

(** ** [import_loop] reads a text *)
Section import.
Context `{EnvHooksLaws}.
Context (Hcb : forall h e, approves (callback e) -> approves (callback (env_callback_init h e))).
Context (Hfl : forall h e, approves (callback e) -> approves (callback (env_flags_init h e))).
Context (sz : Z) (Hsz : 5 <= sz < 2 ^ 31) (Hprime : Z.prime sz) (flag sep : Z) (Hsep : sep_ok sep).

Definition put_entry (m : gmap (list Z) (list Z)) (e : list Z * list Z) : gmap (list Z) (list Z) :=
  <[e.1 := e.2]> m.

Lemma text_cons e l : text sep (e :: l) = line_text sep e ++ text sep l.
Proof. done. Qed.

(** The byte after a line: the next line's first character, or the end. *)
Lemma text_head l post :
  Forall (entry_ok sep) l -> exists c rest, text sep l ++ 0 :: post = c :: rest /\ (c = 0 <-> l = []).
Proof.
  intros [|e l' (Hk & _ & Hne & _) _]; [by eexists 0, _|].
  destruct e as [[|c k] d]; [done|]. apply chars_cons in Hk as [Hc _].
  eexists c, _. split; [reflexivity|]. split; [lia|done].
Qed.

Lemma import_entry s t m e :
  entry_ok sep e -> rep sz approves s t m -> mem_ok s -> change_ok (htab s) = None -> 1 < fresh t ->
  exists s' t', import_line (Insert e.1 e.2) flag [] s = Some (Some [], s') /\
    rep sz approves s' t' (put_entry m e) /\ mem_ok s' /\ change_ok (htab s') = None /\ fresh t - 1 <= fresh t'.
Proof.
  intros (Hk & Hd & Hne & _) Hrep Hmem Hck Hf. cbn [import_line].
  assert (default 0 (head e.1) <> 0) as Hnz.
  { destruct e as [[|c k] d]; [done|]. apply chars_cons in Hk as [Hc _]. cbn. lia. }
  rewrite (proj2 (Z.eqb_neq _ 0)) by done. cbn [drop_var_from_set Z.eqb].
  destruct (set_ok Hcb Hfl sz Hsz Hprime flag s t m e.1 e.2 Hrep Hmem Hck Hk Hd Hf)
    as (r & rv & s' & t' & E & _ & ? & ? & ? & ?).
  rewrite (bind_eq _ _ _ _ _ E). exists s', t'. done.
Qed.

Lemma import_loop_ok l f pre post bsz s t m :
  l <> [] -> (length l <= f)%nat -> Forall (entry_ok sep) l -> zlen pre + zlen (text sep l) <= bsz ->
  rep sz approves s t m -> mem_ok s -> change_ok (htab s) = None -> zlen l < fresh t ->
  exists s' t', import_loop f (pre ++ text sep l ++ 0 :: post) bsz sep (zlen pre) flag [] s = Some (Some [], s') /\
    rep sz approves s' t' (foldl put_entry m l).
Proof.
  revert f pre s t m. induction l as [|e l IH]; intros f pre s t m Hne Hf Hl Hb Hrep Hmem Hck Hfr; [done|].
  destruct f as [|f]; [cbn in Hf; lia|]. cbn [import_loop]. apply Forall_cons in Hl as [He Hl].
  rewrite text_cons, <- app_assoc. rewrite text_cons in Hb. simpl_zlen. pose proof (zlen_nonneg l).
  destruct (parse_line_ok sep pre e (text sep l ++ 0 :: post) Hsep He) as (g & Ep & Hg).
  rewrite Ep, (bind_must _ _ _ _ eq_refl).
  destruct (import_entry s t m e He Hrep Hmem Hck ltac:(lia)) as (s1 & t1 & Ei & Hrep1 & Hmem1 & Hck1 & Hf1).
  rewrite (bind_eq _ _ _ _ _ Ei). destruct (text_head l post Hl) as (c & rest & Et & Hc).
  assert (peek (pre ++ g ++ text sep l ++ 0 :: post) (zlen (pre ++ line_text sep e)) = Some c) as Hpk.
  { rewrite Et, app_assoc. replace (zlen (pre ++ line_text sep e)) with (zlen (pre ++ g)) by (simpl_zlen; lia).
    apply peek_at. }
  destruct (decide (l = [])) as [->|Hln].
  - assert (c = 0) as -> by tauto. exists s1, t1. split; [|done].
    destruct (_ <? _); [|done]. rewrite bind_assoc, Hpk. done.
  - assert (c <> 0) as Hc0 by tauto.
    destruct (Z.ltb_spec (zlen (pre ++ line_text sep e)) bsz) as [Hlt|Hge].
    + rewrite bind_assoc, Hpk, (bind_must _ _ _ _ eq_refl), bind_ret.
      rewrite (proj2 (Z.eqb_neq c 0)) by done. cbn [negb].
      replace (zlen (pre ++ line_text sep e)) with (zlen (pre ++ g)) by (simpl_zlen; lia).
      rewrite app_assoc. cbn [foldl]. apply (IH f (pre ++ g) s1 t1); try done; [cbn in Hf; lia| |lia].
      simpl_zlen. lia.
    + exfalso. revert Hge. simpl_zlen. apply (f_equal zlen) in Et. revert Et. simpl_zlen.
      assert (0 < zlen (text sep l)); [|lia]. destruct l as [|e' l]; [done|].
      rewrite text_cons. unfold line_text. simpl_zlen. 
      pose proof (zlen_nonneg e'.1). pose proof (zlen_nonneg (escape sep e'.2)). pose proof (zlen_nonneg (text sep l)). lia.
Qed.
End import.

(** ** [hexport_r] writes the text *)
Definition ent (e : _ENTRY) : option (list Z * list Z) :=
  if 0 <? used e then
    match key (entry e), data (entry e) with Some k, Some d => Some (k, d) | _, _ => None end
  else None.

Lemma ent_live e k d : ent e = Some (k, d) <-> live e k d.
Proof.
  unfold ent, live. destruct (Z.ltb_spec 0 (used e)); [|split; [done|intros (? & _); lia]].
  destruct (key (entry e)), (data (entry e)); split;
    (intros [= -> ->] || intros (? & [=] & [=]) || idtac); try done; congruence.
Qed.

(** What pass 1 counts for an entry. *)
Definition cost (sep : Z) (e : list Z * list Z) : Z :=
  (zlen e.1 + 2) + (if sep =? 0 then zlen e.2 else zlen e.2 + escapes sep e.2) + 2.
Definition costs (sep : Z) (l : list (list Z * list Z)) : Z := foldr (fun e n => cost sep e + n) 0 l.

Section export.
Context `{Slre}.
Context (sz : Z) (P : option (list Z -> option (list Z) -> env_op -> Z -> Z) -> Prop).
Context (s : state) (t : list _ENTRY) (m : gmap (list Z) (list Z)) (Hrep : rep sz P s t m).

Lemma pass1_ok n i sep :
  1 <= i -> i + Z.of_nat n <= sz + 1 ->
  let l := omap ent (take n (drop (Z.to_nat i) t)) in
  export_pass1 n i sep 0 [] s = Some ((l, costs sep l), s).
Proof.
  pose proof (rep_inv _ _ _ _ _ Hrep) as Hi. pose proof (inv_len _ _ _ Hi) as Hlen.
  revert i. induction n as [|n IH]; intros i H1 H2; [done|]. cbn [export_pass1].
  destruct (lookup_lt_is_Some_2 t (Z.to_nat i)) as [e He]; [unfold zlen in Hlen; lia|].
  rewrite (bind_eq _ _ _ e s) by (eapply slot_eq; [apply Hrep|lia|done]).
  rewrite (drop_S _ _ _ He). cbn [take omap list_omap].
  specialize (IH (i + 1) ltac:(lia) ltac:(lia)).
  replace (Z.to_nat (i + 1)) with (S (Z.to_nat i)) in IH by lia.
  cbn zeta in *. destruct (Z.ltb_spec 0 (used e)) as [Hu|Hu].
  2: { assert (ent e = None) as -> by (unfold ent; by rewrite (proj2 (Z.ltb_ge _ _))). exact IH. }
  destruct (inv_slot _ _ _ Hi i e ltac:(lia) He) as [?|[?|(k & d & Hl & _)]]; [lia..|].
  rewrite (proj2 (ent_live e k d) Hl). destruct Hl as (_ & Hk & Hd).
  rewrite Hk, Hd, !(bind_must _ _ _ _ eq_refl).
  change ((0 <? zlen (@nil (list Z))) && negb (match_entry k d 0 [])) with false. cbn iota.
  change (negb (Z.land 0 H_HIDE_DOT =? 0)) with false. cbn [andb].
  rewrite (bind_eq _ _ _ _ _ IH). done.
Qed.

Lemma omap_ent_nodup (t' : list _ENTRY) :
  (forall i j e e' k d d', t' !! i = Some e -> t' !! j = Some e' -> live e k d -> live e' k d' -> i = j) ->
  NoDup (omap ent t').*1.
Proof.
  induction t' as [|e t' IH]; intros Hu; [constructor|]. cbn [omap list_omap].
  assert (NoDup (omap ent t').*1) as Hnd.
  { apply IH. intros i j e1 e2 k d d' E1 E2 L1 L2. assert (S i = S j); [|lia]. by eapply (Hu (S i) (S j)). }
  destruct (ent e) as [[k d]|] eqn:E; [|done]. cbn. apply NoDup_cons. split; [|done].
  intros ([k' d'] & -> & Hin)%list_elem_of_fmap. apply list_elem_of_omap in Hin as (e' & He' & E').
  apply list_elem_of_lookup in He' as [j Hj]. cbn in *. apply ent_live in E, E'.
  assert (0%nat = S j); [|done]. by eapply (Hu 0%nat (S j)).
Qed.

Lemma entries_perm : omap ent (drop 1 t) ≡ₚ map_to_list m /\ NoDup (omap ent (drop 1 t)).*1.
Proof.
  pose proof Hrep as [_ _ _ Hi Hm]. pose proof (inv_len _ _ _ Hi) as Hlen.
  assert (forall i e, drop 1 t !! i = Some e -> 1 <= Z.of_nat (S i) <= sz /\ t !! Z.to_nat (Z.of_nat (S i)) = Some e) as Hdrop.
  { intros i e He. rewrite lookup_drop in He. cbn in He. pose proof (lookup_lt_Some _ _ _ He).
    unfold zlen in Hlen. rewrite Nat2Z.id. split; [lia|done]. }
  assert (NoDup (omap ent (drop 1 t)).*1) as Hnd.
  { apply omap_ent_nodup. intros i j e e' k d d' E1 E2 L1 L2. apply Hdrop in E1 as [? E1], E2 as [? E2].
    assert (Z.of_nat (S i) = Z.of_nat (S j)); [|lia]. by eapply (inv_unique _ _ _ Hi). }
  split; [|done]. apply NoDup_Permutation; [by eapply NoDup_fmap_1|apply NoDup_map_to_list|].
  intros [k d]. rewrite elem_of_map_to_list, (Hm k d), list_elem_of_omap. split.
  - intros (e & [i He]%list_elem_of_lookup & El). apply Hdrop in He as [? ?]. apply ent_live in El. eauto.
  - intros (i & e & Hr & He & Hl). exists e. split; [|by apply ent_live].
    apply list_elem_of_lookup. exists (Z.to_nat (i - 1)). rewrite lookup_drop.
    by replace (1 + Z.to_nat (i - 1))%nat with (Z.to_nat i) by lia.
Qed.

Lemma emit_ok x w zs :
  (length w <= length zs)%nat -> emit (x ++ zs) (zlen x) w = Some (x ++ w ++ drop (length w) zs, zlen (x ++ w)).
Proof.
  revert x zs. induction w as [|c w IH]; intros x zs Hl; cbn [emit length drop]; [by rewrite app_nil_r|].
  destruct zs as [|z zs]; [cbn in Hl; lia|]. rewrite poke_at. cbn [mbind option_bind].
  replace (x ++ c :: zs) with ((x ++ [c]) ++ zs) by by rewrite <- app_assoc.
  replace (zlen x + 1) with (zlen (x ++ [c])) by (simpl_zlen; lia).
  rewrite IH by (cbn in Hl; lia). by rewrite <- !app_assoc.
Qed.

Lemma emit_value_ok x w zs sep :
  (length (escape sep w) <= length zs)%nat ->
  emit_value (x ++ zs) (zlen x) sep w =
    Some (x ++ escape sep w ++ drop (length (escape sep w)) zs, zlen (x ++ escape sep w)).
Proof.
  revert x zs. induction w as [|c w IH]; intros x zs Hl; cbn [emit_value escape] in *; [by rewrite app_nil_r|].
  destruct (is_special sep c); cbn [length] in *.
  - rewrite emit_ok by (cbn; lia). cbn [mbind option_bind length].
    rewrite (app_assoc x [92]), emit_ok by (rewrite length_drop; cbn; lia). cbn [mbind option_bind length].
    rewrite (app_assoc (x ++ [92]) [c]), drop_drop, IH by (rewrite length_drop; lia).
    rewrite drop_drop, <- !app_assoc. done.
  - cbn [mbind option_bind]. rewrite emit_ok by (cbn; lia). cbn [mbind option_bind length].
    rewrite (app_assoc x [c]), IH by (rewrite length_drop; lia).
    rewrite drop_drop, <- !app_assoc. done.
Qed.

Lemma pass2_ok x l zs sep :
  (length (text sep l) <= length zs)%nat ->
  export_pass2 (x ++ zs) (zlen x) sep l =
    Some (x ++ text sep l ++ drop (length (text sep l)) zs, zlen (x ++ text sep l)).
Proof.
  revert x zs. induction l as [|[k d] l IH]; intros x zs Hl; cbn [export_pass2]; [by rewrite app_nil_r|].
  rewrite text_cons in *. unfold line_text in *. cbn [fst snd] in *.
  rewrite !length_app in Hl. cbn [length] in Hl. rewrite length_app in Hl. cbn in Hl.
  rewrite emit_ok by lia. cbn [mbind option_bind].
  rewrite (app_assoc x k), emit_ok by (rewrite length_drop; cbn; lia). cbn [mbind option_bind length].
  rewrite (app_assoc (x ++ k)), drop_drop, emit_value_ok by (rewrite length_drop; lia). cbn [mbind option_bind].
  rewrite (app_assoc _ (escape sep d)), drop_drop, emit_ok by (rewrite length_drop; cbn; lia).
  cbn [mbind option_bind length].
  rewrite (app_assoc _ [sep]), drop_drop, IH by (rewrite length_drop; lia).
  rewrite drop_drop. rewrite <- !app_assoc. cbn [app]. do 2 f_equal.
  - do 3 f_equal. cbn. rewrite <- !app_assoc. cbn. do 3 f_equal. f_equal.
    rewrite !length_app. cbn. rewrite length_app. cbn. lia.
  - do 2 f_equal. cbn. by rewrite <- app_assoc.
Qed.

Lemma costs_perm sep l l' : l ≡ₚ l' -> costs sep l = costs sep l'.
Proof. unfold costs. induction 1; cbn; lia. Qed.

Lemma text_length sep l :
  sep <> 0 \/ Forall (fun e => escapes 0 e.2 <= 2) l -> zlen (text sep l) <= costs sep l.
Proof.
  intros Hs. induction l as [|e l IH]; [done|]. rewrite text_cons, zlen_app.
  change (costs sep (e :: l)) with (cost sep e + costs sep l).
  assert (zlen (line_text sep e) = zlen e.1 + (zlen e.2 + escapes sep e.2) + 2) as ->.
  { unfold line_text. simpl_zlen. rewrite escape_length. lia. }
  unfold cost. destruct Hs as [Hs|Hs].
  - specialize (IH (or_introl Hs)). rewrite (proj2 (Z.eqb_neq sep 0)) by done. lia.
  - apply Forall_cons in Hs as [He Hs]. specialize (IH (or_intror Hs)).
    destruct (Z.eqb_spec sep 0) as [->|]; lia.
Qed.

Lemma export_ok sep :
  mem_ok s -> sep <> 0 \/ map_Forall (fun _ d => escapes 0 d <= 2) m ->
  exists l s' n, l ≡ₚ map_to_list m /\
    hexport_r sep 0 None 0 [] s = Some ((costs sep l + 1, Some (text sep l ++ replicate (S n) 0)), s') /\
    zlen (text sep l) + Z.of_nat n = costs sep l.
Proof.
  intros Hmem Hesc. pose proof Hrep as [_ Hsize _ Hi _]. pose proof (inv_len _ _ _ Hi) as Hlen.
  destruct entries_perm as [Hp Hnd]. unfold hexport_r. rewrite bind_gets, Hsize.
  assert (0 <= sz) as Hsz0.
  { destruct (inv_zero _ _ _ Hi) as (z & Hz & _). apply lookup_lt_Some in Hz. unfold zlen in Hlen. lia. }
  pose proof (pass1_ok (Z.to_nat sz) 1 sep ltac:(lia) ltac:(lia)) as Hp1. cbn zeta in Hp1.
  change (Z.to_nat 1) with 1%nat in Hp1.
  rewrite take_ge in Hp1 by (rewrite length_drop; unfold zlen in Hlen; lia).
  rewrite (bind_eq _ _ _ _ _ Hp1). set (l0 := omap ent (drop 1 t)) in *.
  destruct (qsort_ok cmpkey 8 ltac:(lia) l0) as (l & Eq & Hl & _).
  rewrite Eq, (bind_must _ _ _ _ eq_refl). cbn [Z.eqb negb andb].
  assert (exists al, alloc s = Some (true, State (htab s) (errno s) al)) as (al & Ea).
  { unfold mem_ok in Hmem. destruct s as [h er [|b al]]; cbn in *; [by eexists|].
    apply Forall_cons in Hmem as [-> _]. by eexists. }
  rewrite bind_assoc, (bind_eq _ _ _ _ _ Ea), bind_ret.
  rewrite <- (costs_perm sep _ _ Hl). set (N := costs sep l).
  assert (zlen (text sep l) <= N) as Hfit.
  { apply text_length. destruct Hesc as [?|Hesc]; [by left|right]. apply Forall_forall. intros [k d] Hin.
    rewrite Hl, Hp in Hin. apply elem_of_map_to_list in Hin. by apply (Hesc k d). }
  pose proof (zlen_nonneg (text sep l)).
  set (n := Z.to_nat (N - zlen (text sep l))).
  assert (Z.to_nat (N + 1) = length (text sep l) + S n)%nat as EN by (unfold n, zlen in *; lia).
  pose proof (pass2_ok [] l (replicate (Z.to_nat (N + 1)) 0) sep) as Hp2. cbn [app] in Hp2.
  rewrite length_replicate, EN in Hp2. specialize (Hp2 ltac:(lia)).
  change (zlen []) with 0 in Hp2. rewrite drop_replicate in Hp2.
  replace (length (text sep l) + S n - length (text sep l))%nat with (S n) in Hp2 by lia.
  rewrite EN, Hp2, (bind_must _ _ _ _ eq_refl). cbn [replicate]. rewrite poke_at, (bind_must _ _ _ _ eq_refl).
  eexists l, _, n. split; [by rewrite Hl|]. split; [reflexivity|]. unfold n. lia.
Qed.
End export.

(** ** Reading an exported text *)
Section roundtrip.
Context `{EnvHooksLaws}.
Context (Hcb : forall h e, approves (callback e) -> approves (callback (env_callback_init h e))).
Context (Hfl : forall h e, approves (callback e) -> approves (callback (env_flags_init h e))).

Lemma foldl_put l m :
  NoDup l.*1 -> l ≡ₚ map_to_list m -> foldl put_entry ∅ l = m.
Proof.
  intros Hnd Hp. rewrite <- (list_to_map_to_list m), <- (list_to_map_proper l) by done.
  rewrite (list_to_map_proper l (reverse l)) by (done || by rewrite reverse_Permutation).
  rewrite <- (reverse_involutive l) at 1. clear Hnd Hp. induction (reverse l) as [|[k d] l' IH]; [done|].
  rewrite reverse_cons, foldl_app. cbn. by rewrite IH.
Qed.

(** The old table, if any, is dropped. *)
Lemma import_clear s flag :
  Z.land flag H_NOCLEAR = 0 ->
  exists s', (if Z.land flag H_NOCLEAR =? 0
              then h ← gets htab; match table h with Some _ => hdestroy_r | None => mret tt end
              else mret tt) s = Some (tt, s') /\
    table (htab s') = None /\ change_ok (htab s') = change_ok (htab s) /\ allocs s' = allocs s.
Proof.
  intros ->. cbn [Z.eqb]. rewrite bind_gets. destruct (table (htab s)) eqn:E; by eexists.
Qed.

(** The parser on a whole text, the empty one included. *)
Lemma import_text tsz s t sep flag l n f :
  5 <= tsz < 2 ^ 31 -> Z.prime tsz -> rep tsz approves s t ∅ -> mem_ok s -> change_ok (htab s) = None ->
  sep_ok sep -> Forall (entry_ok sep) l -> zlen l < fresh t -> (length l < f)%nat ->
  exists s' t', import_loop f (text sep l ++ replicate (S n) 0 ++ [0]) (zlen (text sep l) + Z.of_nat n + 1) sep 0 flag [] s
    = Some (Some [], s') /\ rep tsz approves s' t' (foldl put_entry ∅ l).
Proof.
  intros Htsz Hpr Hrep Hmem Hck Hsep Hl Hf Hlf. destruct (decide (l = [])) as [->|Hne].
  2: { apply (import_loop_ok Hcb Hfl tsz Htsz Hpr flag sep Hsep l f [] (replicate n 0 ++ [0]) _ s t ∅); try done; [lia|].
       simpl_zlen. lia. }
  destruct f as [|f]; [lia|]. cbn [text concat map app foldl import_loop].
  assert (parse_line (replicate (S n) 0 ++ [0]) sep 0 = Some (Delete [], replicate (S n) 0 ++ [0], 1)) as ->.
  { unfold parse_line. cbn [replicate app].
    assert (forall g post, skip_to (S g) (0 :: post) sep true 0 = Some 0) as Hst by done.
    assert (forall g post, skip_blank (S g) (0 :: post) 0 = Some 0) as Hsb by done.
    assert (forall post, peek (0 :: post) 0 = Some 0) as Hpk by done.
    assert (forall post, poke (0 :: post) 0 0 = Some (0 :: post)) as Hpo by (intros post; apply (poke_at [])).
    rewrite Hsb. cbn [mbind option_bind]. rewrite Hpk. cbn [mbind option_bind Z.eqb].
    rewrite Hst. cbn [mbind option_bind]. rewrite Hpk. cbn [mbind option_bind Z.eqb]. by rewrite Hpo. }
  rewrite (bind_must _ _ _ _ eq_refl). cbn [import_line drop_var_from_set Z.eqb].
  destruct (hdelete_r_ok tsz Htsz Hpr approves I s t ∅ [] flag Hrep ltac:(by constructor))
    as (r & s' & t' & E & _ & _ & _ & [(_ & [? ?] & _)|(_ & _ & Hrep' & _)]); [done|].
  rewrite bind_assoc, (bind_eq _ _ _ _ _ E), bind_ret. exists s', t. split; [|done].
  change (zlen []) with 0. destruct (_ <? _) eqn:Elt; [|done]. apply Z.ltb_lt in Elt.
  destruct n as [|n]; [lia|]. by cbn.
Qed.

Lemma import_ok s sep flag l m n :
  mem_ok s -> change_ok (htab s) = None -> sep_ok sep -> Z.land flag H_NOCLEAR = 0 ->
  l ≡ₚ map_to_list m -> NoDup l.*1 -> Forall (entry_ok sep) l ->
  let sz := zlen (text sep l) + Z.of_nat n + 1 in
  zlen l <= Z.min (CONFIG_ENV_MIN_ENTRIES + sz / 8) CONFIG_ENV_MAX_ENTRIES ->
  exists tsz s' t, himport_r (text sep l ++ replicate (S n) 0) sz sep flag false [] s = Some (1, s') /\
    rep tsz approves s' t m.
Proof.
  intros Hmem Hck Hsep Hflag Hp Hnd Hl sz Hn. pose proof (zlen_nonneg (text sep l)). unfold himport_r.
  assert (exists al, alloc s = Some (true, State (htab s) (errno s) al) /\ Forall (fun b => b = true) al) as (al & Ea & Hal).
  { unfold mem_ok in Hmem. destruct s as [h er [|b al]]; cbn in *; [by eexists|].
    apply Forall_cons in Hmem as [-> ?]. by eexists. }
  rewrite (bind_eq _ _ _ _ _ Ea). cbn [negb].
  assert (zlen (text sep l ++ replicate (S n) 0) = sz) as Hlen.
  { unfold sz. simpl_zlen. rewrite zlen_replicate. lia. }
  rewrite Hlen, Z.ltb_irrefl, take_ge by (unfold zlen in Hlen; lia).
  destruct (import_clear (State (htab s) (errno s) al) flag Hflag) as (s1 & E1 & Ht1 & Hc1 & Ha1).
  rewrite (bind_eq _ _ _ _ _ E1), bind_gets, Ht1. cbn in Hc1, Ha1.
  set (nent := Z.min _ _) in *. unfold CONFIG_ENV_MIN_ENTRIES, CONFIG_ENV_MAX_ENTRIES in nent.
  assert (64 <= nent <= 512) by (unfold nent; dlia).
  destruct (hcreate_r_ok approves s1 nent I Ht1) as (tsz & s2 & t & E2 & ? & Htsz & Hpr & _ & Hrep & Hfr & Hm2 & Hc2);
    [by unfold mem_ok; rewrite Ha1|lia|].
  rewrite bind_assoc, (bind_eq _ _ _ _ _ E2), bind_ret. cbn [Z.eqb negb].
  rewrite (proj2 (Z.eqb_neq sz 0)) by lia. rewrite bind_ret.
  destruct (import_text tsz s2 t sep flag l n (S (length ((text sep l ++ replicate (S n) 0) ++ [0]))) Htsz Hpr Hrep Hm2)
    as (s3 & t3 & E3 & Hrep3); try done; [by rewrite Hc2, Hc1|lia| |].
  - rewrite !length_app, length_replicate. assert (length l <= length (text sep l))%nat; [|lia].
    clear. induction l as [|e l IH]; [done|]. rewrite text_cons, length_app. unfold line_text.
    rewrite length_app. cbn. lia.
  - cbn [map]. rewrite <- app_assoc in E3 |- *. rewrite (bind_eq _ _ _ _ _ E3).
    exists tsz, s3, t3. split; [done|]. by rewrite <- (foldl_put l m).
Qed.
End roundtrip.

(** ** The interface *)
(** What [hexport_r] writes into a buffer it allocates is the text of the table's
    entries, each once, as "name=value" with the separator and backslash escaped in the
    values, and a terminating zero, all inside the buffer; the size returned is the size
    of the buffer.  With the NUL separator this needs at most two backslashes per value
    (see the next theorem). *)
Theorem hexport_r_spec `{Slre} sz P s t m sep :
  rep sz P s t m -> mem_ok s -> sep <> 0 \/ map_Forall (fun _ d => escapes 0 d <= 2) m ->
  exists l s' n, l ≡ₚ map_to_list m /\
    hexport_r sep 0 None 0 [] s = Some ((costs sep l + 1, Some (text sep l ++ replicate (S n) 0)), s') /\
    zlen (text sep l) + Z.of_nat n = costs sep l.
Proof. intros. by eapply export_ok. Qed.

(** C34: The environment survives a save and a load: importing what [hexport_r] wrote,
    with the same separator, builds a table that represents the same map, provided the
    names and values are ones the format can hold, the separator is neither '=' nor a
    backslash, the hooks approve, the import clears the table first, and there are at most
    64 entries (the least table [himport_r] creates).  With NUL as the separator a value
    may hold at most two backslashes: the buffer [hexport_r] allocates has no room for more
    ([hexport_r_overruns_buffer]). *)
Theorem export_import_roundtrip `{Slre, EnvHooksLaws} sz P s t m sep flag s2 :
  (forall h e, approves (callback e) -> approves (callback (env_callback_init h e))) ->
  (forall h e, approves (callback e) -> approves (callback (env_flags_init h e))) ->
  rep sz P s t m -> mem_ok s -> sep_ok sep ->
  sep <> 0 \/ map_Forall (fun _ d => escapes 0 d <= 2) m ->
  map_Forall (fun k d => entry_ok sep (k, d)) m -> Z.of_nat (base.size m) <= CONFIG_ENV_MIN_ENTRIES ->
  mem_ok s2 -> change_ok (htab s2) = None -> Z.land flag H_NOCLEAR = 0 ->
  exists n buf s1 tsz s3 t3,
    hexport_r sep 0 None 0 [] s = Some ((n, Some buf), s1) /\
    himport_r buf n sep flag false [] s2 = Some (1, s3) /\ rep tsz approves s3 t3 m.
Proof.
  intros Hcb Hfl Hrep Hmem Hsep Hesc Hok Hcnt Hmem2 Hck Hflag.
  destruct (export_ok sz P s t m Hrep sep Hmem Hesc) as (l & s1 & n & Hl & E & Hlen).
  assert (zlen l = Z.of_nat (base.size m)) as Hzl.
  { unfold zlen. by rewrite Hl, length_map_to_list. }
  assert (zlen l <= Z.min (CONFIG_ENV_MIN_ENTRIES + (zlen (text sep l) + Z.of_nat n + 1) / 8) CONFIG_ENV_MAX_ENTRIES) as Hle.
  { unfold CONFIG_ENV_MIN_ENTRIES, CONFIG_ENV_MAX_ENTRIES in *. pose proof (zlen_nonneg (text sep l)). dlia. }
  destruct (import_ok Hcb Hfl s2 sep flag l m n Hmem2 Hck Hsep Hflag Hl) as (tsz & s3 & t3 & E3 & Hrep3); [| |done|].
  - rewrite Hl. apply NoDup_fst_map_to_list.
  - apply Forall_forall. intros [k d] Hin. rewrite Hl in Hin. apply elem_of_map_to_list in Hin. by apply (Hok k d).
  - rewrite <- Hlen in E. by eexists _, _, s1, tsz, s3, t3.
Qed.

(** ** Where the text format fails *)
Definition demo_slre : Slre := {| slre := unit; slre_compile := fun _ => Some tt; slre_match := fun _ _ => false |}.

(** The variable "a" with a value of three backslashes. *)
Definition demo_backslashes : list _ENTRY :=
  [blank_entry; tomb; tomb; _Entry 3 (Entry (Some [97]) (Some [92; 92; 92]) None 0); tomb; tomb].

(** With the NUL separator pass 1 of [hexport_r] reserves no room for the backslashes
    pass 2 adds (and which the documentation says are only added for other separators):
    three backslashes in a value make it write past the end of the buffer. *)
Theorem hexport_r_overruns_buffer :
  @hexport_r demo_slre 0 0 None 0 [] (demo_state (Some demo_backslashes) 1) = None /\
  (exists r, @hexport_r demo_slre 10 0 None 0 [] (demo_state (Some demo_backslashes) 1) = Some r).
Proof. split; [reflexivity|]. eexists. vm_compute. reflexivity. Qed.

(** With [crlf_is_lf], removing the carriage returns leaves the old bytes behind the
    shortened text: a last line without a line feed gets them appended to its value.
    The text "a=1\r\nb=2" sets b to "22". *)
Theorem himport_r_crlf_stale_tail :
  exists s', @himport_r no_hooks [97; 61; 49; 13; 10; 98; 61; 50] 8 10 0 true [] (demo_state None 0) = Some (1, s') /\
  exists e, @hsearch_r no_hooks [98] None FIND 0 s' = Some ((47, Some 47), s') /\
    slot 47 s' = Some (e, s') /\ data (entry e) = Some [50; 50].
Proof. eexists. split; [vm_compute; reflexivity|]. eexists. split; [vm_compute; reflexivity|]. done. Qed.

Lemma hexport_r_spec_witness :
  exists l s' n, l ≡ₚ map_to_list ({[ [97] := [49] ]} : gmap (list Z) (list Z)) /\
    @hexport_r demo_slre 0 0 None 0 [] (demo_state (Some demo_full) 1) =
      Some ((costs 0 l + 1, Some (text 0 l ++ replicate (S n) 0)), s') /\
    zlen (text 0 l) + Z.of_nat n = costs 0 l.
Proof.
  apply (@hexport_r_spec demo_slre 5 (fun _ => True) (demo_state (Some demo_full) 1) demo_full _ 0 demo_full_rep);
    [by constructor|right]. apply map_Forall_singleton. by vm_compute.
Defined.

Lemma export_import_roundtrip_witness :
  exists n buf s1 tsz s3 t3,
    @hexport_r demo_slre 10 0 None 0 [] (demo_state (Some demo_full) 1) = Some ((n, Some buf), s1) /\
    @himport_r no_hooks buf n 10 0 false [] (demo_state None 0) = Some (1, s3) /\
    rep tsz approves s3 t3 {[ [97] := [49] ]}.
Proof.
  apply (@export_import_roundtrip demo_slre no_hooks no_hooks_laws 5 (fun _ => True) (demo_state (Some demo_full) 1)
    demo_full {[ [97] := [49] ]} 10 0 (demo_state None 0));
    [done|done|exact demo_full_rep|by constructor|done|by left| |by vm_compute|by constructor|done|done].
  apply map_Forall_singleton. apply (bool_decide_unpack _). by vm_compute.
Defined.
