(* ===== verification/Xlat.v ===== *)
(** * Translation tables: lib/xlat_tables of the Trusted Firmware, AArch64

    Data and constants of include/lib/xlat_tables.h, the list of regions and the table builder
    of xlat_tables_common.c, [init_xlat_tables] and [enable_mmu_el1/3] of
    aarch64/xlat_tables.c.  The build is one with assertions and [DEBUG]; a failed assertion,
    an access outside an array and an address outside a table yield [None].

    The sizes a platform chooses and the addresses the linker gives the tables are the class
    [XlatConfig].  A pointer into the array [mmap] is the rest of the array from there; a
    pointer into a table is the table and an index.  Messages and [print_mmap] are left out. *)

From Stdlib Require Import ZArith Lia.
From stdpp Require Import base option list numbers.
From S2P Require Import Prelude CMonad.
Open Scope Z_scope.
Open Scope cint_scope.

Module Xlat.

(** ** xlat_tables.h *)
Definition FOUR_KB_SHIFT : Z := 12.
Definition INVALID_DESC : Z := 0x0.
Definition BLOCK_DESC : Z := 0x1.
Definition TABLE_DESC : Z := 0x3.
Definition PAGE_DESC : Z := 0x3.

Definition XN : Z := Z.shiftl 1 2.
Definition UPPER_ATTRS (x : Z) : Z := Z.shiftl (Z.land x 0x7) 52.
Definition ACCESS_FLAG : Z := Z.shiftl 1 8.
Definition OSH : Z := Z.shiftl 0x2 6.
Definition ISH : Z := Z.shiftl 0x3 6.

Definition PAGE_SIZE_SHIFT : Z := FOUR_KB_SHIFT.
Definition PAGE_SIZE : Z := Z.shiftl 1 PAGE_SIZE_SHIFT.
Definition PAGE_SIZE_MASK : Z := PAGE_SIZE - 1.
Definition IS_PAGE_ALIGNED (addr : Z) : bool := Z.land addr PAGE_SIZE_MASK =? 0.

Definition XLAT_ENTRY_SIZE_SHIFT : Z := 3.
Definition XLAT_TABLE_SIZE_SHIFT : Z := PAGE_SIZE_SHIFT.
Definition XLAT_TABLE_SIZE : Z := Z.shiftl 1 XLAT_TABLE_SIZE_SHIFT.
Definition XLAT_TABLE_LEVEL_MIN : Z := 0.
Definition XLAT_TABLE_LEVEL_MAX : Z := 3.
Definition XLAT_TABLE_ENTRIES_SHIFT : Z := XLAT_TABLE_SIZE_SHIFT - XLAT_ENTRY_SIZE_SHIFT.
Definition XLAT_TABLE_ENTRIES : Z := Z.shiftl 1 XLAT_TABLE_ENTRIES_SHIFT.
Definition XLAT_TABLE_ENTRIES_MASK : Z := XLAT_TABLE_ENTRIES - 1.
Definition L3_XLAT_ADDRESS_SHIFT : Z := PAGE_SIZE_SHIFT.
Definition L2_XLAT_ADDRESS_SHIFT : Z := L3_XLAT_ADDRESS_SHIFT + XLAT_TABLE_ENTRIES_SHIFT.
Definition L1_XLAT_ADDRESS_SHIFT : Z := L2_XLAT_ADDRESS_SHIFT + XLAT_TABLE_ENTRIES_SHIFT.
Definition L0_XLAT_ADDRESS_SHIFT : Z := L1_XLAT_ADDRESS_SHIFT + XLAT_TABLE_ENTRIES_SHIFT.

Definition AP_RO : Z := Z.shiftl 0x1 5.
Definition AP_RW : Z := Z.shiftl 0x0 5.
Definition NS : Z := Z.shiftl 0x1 3.
Definition ATTR_NON_CACHEABLE_INDEX : Z := 0x2.
Definition ATTR_DEVICE_INDEX : Z := 0x1.
Definition ATTR_IWBWA_OWBWA_NTR_INDEX : Z := 0x0.
Definition LOWER_ATTRS (x : Z) : Z := Z.shiftl (Z.land x 0xfff) 2.
Definition ATTR_NON_CACHEABLE : Z := 0x44.
Definition ATTR_DEVICE : Z := 0x4.
Definition ATTR_IWBWA_OWBWA_NTR : Z := 0xff.
Definition MAIR_ATTR_SET (attr index : Z) : Z := Z.shiftl attr (Z.shiftl index 3).
Definition DISABLE_DCACHE : Z := Z.shiftl 1 0.

Definition MT_TYPE_MASK : Z := 0x7.
Definition MT_TYPE (attr : Z) : Z := Z.land attr MT_TYPE_MASK.
Definition MT_DEVICE : Z := 0.
Definition MT_NON_CACHEABLE : Z := 1.
Definition MT_MEMORY : Z := 2.
Definition MT_RO : Z := Z.shiftl 0 3.
Definition MT_RW : Z := Z.shiftl 1 3.
Definition MT_SECURE : Z := Z.shiftl 0 4.
Definition MT_NS : Z := Z.shiftl 1 4.
Definition MT_EXECUTE : Z := Z.shiftl 0 5.
Definition MT_EXECUTE_NEVER : Z := Z.shiftl 1 5.
Definition MT_CODE : Z := Z.lor (Z.lor MT_MEMORY MT_RO) MT_EXECUTE.
Definition MT_RO_DATA : Z := Z.lor (Z.lor MT_MEMORY MT_RO) MT_EXECUTE_NEVER.

Record mmap_region := Region { base_pa : Z; base_va : Z; size : Z; attr : Z }.
Definition no_region : mmap_region := Region 0 0 0 0.
#[global] Instance mmap_region_eq_dec : EqDecision mmap_region.
Proof. solve_decision. Defined.

(** The last address of a region. *)
Definition end_va (mm : mmap_region) : Z := u64 (base_va mm + size mm - 1).
Definition end_pa (mm : mmap_region) : Z := u64 (base_pa mm + size mm - 1).

Definition UNSET_DESC : Z := 2 ^ 64 - 1.

(** What platforms choose, and the addresses of [xlat_tables] and [base_xlation_table]. *)
Class XlatConfig := {
  MAX_MMAP_REGIONS : nat;
  MAX_XLAT_TABLES : nat;
  ADDR_SPACE_SIZE : Z;
  xlat_tables_addr : Z;
  base_xlation_table_addr : Z
}.

Section xlat.
Context `{XlatConfig}.

(** The first level of lookup and the length of its table. *)
Definition XLAT_TABLE_LEVEL_BASE : Z :=
  if Z.shiftl 1 L0_XLAT_ADDRESS_SHIFT <? ADDR_SPACE_SIZE then 0
  else if Z.shiftl 1 L1_XLAT_ADDRESS_SHIFT <? ADDR_SPACE_SIZE then 1
  else 2.
Definition NUM_BASE_LEVEL_ENTRIES : Z :=
  if Z.shiftl 1 L0_XLAT_ADDRESS_SHIFT <? ADDR_SPACE_SIZE then Z.shiftr ADDR_SPACE_SIZE L0_XLAT_ADDRESS_SHIFT
  else if Z.shiftl 1 L1_XLAT_ADDRESS_SHIFT <? ADDR_SPACE_SIZE then Z.shiftr ADDR_SPACE_SIZE L1_XLAT_ADDRESS_SHIFT
  else Z.shiftr ADDR_SPACE_SIZE L2_XLAT_ADDRESS_SHIFT.

(** ** The static data of both files *)
Record xlat := XlatState {
  xlat_tables : list (list Z);
  next_xlat : nat;
  xlat_max_pa : Z;
  xlat_max_va : Z;
  mmap : list mmap_region;
  base_xlation_table : list Z;
  tcr_ps_bits : Z
}.
Definition xlat_init : xlat :=
  XlatState (replicate MAX_XLAT_TABLES (replicate (Z.to_nat XLAT_TABLE_ENTRIES) 0)) 0 0 0
    (replicate (S MAX_MMAP_REGIONS) no_region) (replicate (Z.to_nat NUM_BASE_LEVEL_ENTRIES) 0) 0.
Abbreviation X := (M xlat).

Definition set_mmap (l : list mmap_region) (s : xlat) : xlat :=
  XlatState (xlat_tables s) (next_xlat s) (xlat_max_pa s) (xlat_max_va s) l (base_xlation_table s) (tcr_ps_bits s).
Definition set_max (pa va : Z) (s : xlat) : xlat :=
  XlatState (xlat_tables s) (next_xlat s) pa va (mmap s) (base_xlation_table s) (tcr_ps_bits s).
Definition set_next (n : nat) (s : xlat) : xlat :=
  XlatState (xlat_tables s) n (xlat_max_pa s) (xlat_max_va s) (mmap s) (base_xlation_table s) (tcr_ps_bits s).
Definition set_tables (t : list (list Z)) (s : xlat) : xlat :=
  XlatState t (next_xlat s) (xlat_max_pa s) (xlat_max_va s) (mmap s) (base_xlation_table s) (tcr_ps_bits s).
Definition set_base (t : list Z) (s : xlat) : xlat :=
  XlatState (xlat_tables s) (next_xlat s) (xlat_max_pa s) (xlat_max_va s) (mmap s) t (tcr_ps_bits s).
Definition set_ps_bits (b : Z) (s : xlat) : xlat :=
  XlatState (xlat_tables s) (next_xlat s) (xlat_max_pa s) (xlat_max_va s) (mmap s) (base_xlation_table s) b.

(** ** [mmap_add_region] *)

(** The body of the [DEBUG] check: [new] against one region of the list. *)
Definition regions_compatible (new mm : mmap_region) : bool :=
  let fully_overlapped_va :=
    (base_va mm <=? base_va new) && (end_va new <=? end_va mm) ||
    (base_va new <=? base_va mm) && (end_va mm <=? end_va new) in
  if fully_overlapped_va
  then (base_va mm -u64 base_pa mm =? base_va new -u64 base_pa new) &&
       (negb (base_va new =? base_va mm) || negb (size new =? size mm))
  else
    let separated_pa := (end_pa new <? base_pa mm) || (end_pa mm <? base_pa new) in
    let separated_va := (end_va new <? base_va mm) || (end_va mm <? base_va new) in
    separated_va && separated_pa.
Fixpoint check_regions (new : mmap_region) (mm : list mmap_region) : option bool :=
  match mm with
  | [] => None
  | r :: mm => if size r =? 0 then Some true else if regions_compatible new r then check_regions new mm else Some false
  end.

(** The two loops that find the place, as the index of the region pointed to. *)
Fixpoint find_base (va : Z) (mm : list mmap_region) : option nat :=
  match mm with
  | [] => None
  | r :: mm => if (base_va r <? va) && negb (size r =? 0) then S <$> find_base va mm else Some 0%nat
  end.
Fixpoint find_inner (va sz : Z) (mm : list mmap_region) : option nat :=
  match mm with
  | [] => None
  | r :: mm => if (base_va r =? va) && (sz <? size r) then S <$> find_inner va sz mm else Some 0%nat
  end.
(** [memmove(mm + 1, mm, mm_last - mm)] with [mm] the element [i]. *)
Definition move_up (l : list mmap_region) (i : nat) : list mmap_region :=
  take (S i) l ++ take (MAX_MMAP_REGIONS - i) (drop i l).

Definition mmap_add_region (base_pa base_va size attr : Z) : X unit :=
  let end_pa := u64 (base_pa + size - 1) in
  let end_va := u64 (base_va + size - 1) in
  massert (IS_PAGE_ALIGNED base_pa);;
  massert (IS_PAGE_ALIGNED base_va);;
  massert (IS_PAGE_ALIGNED size);;
  if size =? 0 then mret tt else
  massert (base_pa <? end_pa);;
  massert (base_va <? end_va);;
  l ← gets mmap;
  ok ← must (check_regions (Region base_pa base_va size attr) l);
  massert ok;;
  i ← must (find_base base_va l);
  j ← must (find_inner base_va size (drop i l));
  let l := move_up l (i + j) in
  last ← must (l !! MAX_MMAP_REGIONS);
  massert (Xlat.size last =? 0);;
  modify (set_mmap (<[(i + j)%nat := Region base_pa base_va size attr]> l));;
  max_pa ← gets xlat_max_pa;
  max_va ← gets xlat_max_va;
  modify (set_max (if max_pa <? end_pa then end_pa else max_pa) (if max_va <? end_va then end_va else max_va)).

Fixpoint mmap_add (mm : list mmap_region) : X unit :=
  match mm with
  | [] => must None
  | r :: mm =>
      if size r =? 0 then mret tt
      else mmap_add_region (base_pa r) (base_va r) (size r) (attr r);; mmap_add mm
  end.

(** ** Descriptors *)
Definition has (attr flag : Z) : bool := negb (Z.land attr flag =? 0).
Definition mmap_desc (attr addr_pa level : Z) : option Z :=
  let desc := addr_pa in
  let desc := Z.lor desc (if level =? XLAT_TABLE_LEVEL_MAX then PAGE_DESC else BLOCK_DESC) in
  let desc := Z.lor desc (if has attr MT_NS then LOWER_ATTRS NS else 0) in
  let desc := Z.lor desc (if has attr MT_RW then LOWER_ATTRS AP_RW else LOWER_ATTRS AP_RO) in
  let desc := Z.lor desc (LOWER_ATTRS ACCESS_FLAG) in
  let mem_type := MT_TYPE attr in
  if mem_type =? MT_DEVICE then
    let desc := Z.lor desc (LOWER_ATTRS (Z.lor ATTR_DEVICE_INDEX OSH)) in
    Some (Z.lor desc (UPPER_ATTRS XN))
  else
    let desc := if has attr MT_RW || has attr MT_EXECUTE_NEVER then Z.lor desc (UPPER_ATTRS XN) else desc in
    if mem_type =? MT_MEMORY then Some (Z.lor desc (LOWER_ATTRS (Z.lor ATTR_IWBWA_OWBWA_NTR_INDEX ISH)))
    else if mem_type =? MT_NON_CACHEABLE
    then Some (Z.lor desc (LOWER_ATTRS (Z.lor ATTR_NON_CACHEABLE_INDEX OSH)))
    else None.

(** [at_] is the variable [attr], an [int] that is compared with the unsigned [mm->attr]. *)
Fixpoint mmap_region_attr_from (at_ : Z) (mm : list mmap_region) (va sz : Z) : option Z :=
  match mm with
  | [] => None
  | r :: mm =>
      if size r =? 0 then Some at_
      else if va +u64 (sz - 1) <? base_va r then Some at_
      else if end_va r <? va then mmap_region_attr_from at_ mm va sz
      else if attr r =? u32 at_ then mmap_region_attr_from at_ mm va sz
      else if (va <? base_va r) || (end_va r <? va +u64 (sz - 1)) then Some (-1)
      else mmap_region_attr_from (s32 (attr r)) mm va sz
  end.
Definition mmap_region_attr : list mmap_region -> Z -> Z -> option Z := mmap_region_attr_from (-1).

(** ** The table builder *)
Inductive table_ref := Base | Inner (n : nat).
Definition set_entry (t : table_ref) (i : nat) (desc : Z) : X unit :=
  match t with
  | Base =>
      b ← gets base_xlation_table;
      massert (i <? length b)%nat;; modify (set_base (<[i := desc]> b))
  | Inner n =>
      ts ← gets xlat_tables; tb ← must (ts !! n);
      massert (i <? length tb)%nat;; modify (set_tables (<[n := <[i := desc]> tb]> ts))
  end.

Definition level_size_shift (level : Z) : Z := L0_XLAT_ADDRESS_SHIFT - level * XLAT_TABLE_ENTRIES_SHIFT.
Definition level_size (level : Z) : Z := u64 (Z.shiftl 1 (level_size_shift level)).
Definition level_index_mask (level : Z) : Z := u64 (Z.shiftl XLAT_TABLE_ENTRIES_MASK (level_size_shift level)).

(** What the loop does with the area at [va]: go to the next region, or a descriptor, which
    is [UNSET_DESC] when a finer table is needed. *)
Inductive area := NextRegion | Desc (desc : Z).
Definition area_of (mm : list mmap_region) (va level : Z) : option area :=
  r ← head mm;
  if negb (size r =? 0) && (end_va r <? va) then Some NextRegion
  else
    let desc := if size r =? 0 then INVALID_DESC else UNSET_DESC in
    if va +u64 (level_size level - 1) <? base_va r then Some (Desc INVALID_DESC)
    else
      at_ ← mmap_region_attr mm va (level_size level);
      if 0 <=? at_ then Desc <$> mmap_desc at_ (u64 (va - base_va r + base_pa r)) level
      else Some (Desc desc).

(** [Inner n] and its address. *)
Definition table_addr (n : nat) : Z := xlat_tables_addr + Z.of_nat n * XLAT_TABLE_SIZE.
Definition another_area (va level : Z) : bool :=
  negb (Z.land va (level_index_mask level) =? 0) && ((va -u64 1) <? ADDR_SPACE_SIZE - 1).

Section loop.
Variable recurse : list mmap_region -> Z -> nat -> X (list mmap_region).
Fixpoint table_loop (fuel : nat) (mm : list mmap_region) (va : Z) (table : table_ref) (i : nat) (level : Z) : X (list mmap_region) :=
  match fuel with
  | O => must None
  | S fuel =>
      a ← must (area_of mm va level);
      match a with
      | NextRegion =>
          let mm := tail mm in
          if another_area va level then table_loop fuel mm va table i level else mret mm
      | Desc desc =>
          '(mm, desc) ←
            (if desc =? UNSET_DESC then
               n ← gets next_xlat;
               modify (set_next (S n));;
               massert (S n <=? MAX_XLAT_TABLES)%nat;;
               mm ← recurse mm va n;
               mret (mm, Z.lor TABLE_DESC (table_addr n))
             else mret (mm, desc));
          set_entry table i desc;;
          let va := va +u64 level_size level in
          if another_area va level then table_loop fuel mm va table (S i) level else mret mm
      end
  end.
End loop.
(** The recursion ends with the assertion on the level, at the latest below level 3; a
    table has at most 512 entries and each region is passed once. *)
Fixpoint init_xlation_table_inner (depth : nat) (mm : list mmap_region) (va : Z) (table : table_ref) (level : Z) : X (list mmap_region) :=
  match depth with
  | O => must None
  | S depth =>
      massert ((XLAT_TABLE_LEVEL_MIN <=? level) && (level <=? XLAT_TABLE_LEVEL_MAX));;
      table_loop (fun mm va n => init_xlation_table_inner depth mm va (Inner n) (level + 1))
        (Z.to_nat XLAT_TABLE_ENTRIES + length mm) mm va table 0 level
  end.

Definition init_xlation_table (va : Z) (table : table_ref) (level : Z) : X (Z * Z) :=
  mm ← gets mmap;
  init_xlation_table_inner 4 mm va table level;;
  max_va ← gets xlat_max_va;
  max_pa ← gets xlat_max_pa;
  mret (max_va, max_pa).

(** ** aarch64/xlat_tables.c *)
Definition TCR_PS_BITS_4GB : Z := 0x0.
Definition TCR_PS_BITS_64GB : Z := 0x1.
Definition TCR_PS_BITS_1TB : Z := 0x2.
Definition TCR_PS_BITS_4TB : Z := 0x3.
Definition TCR_PS_BITS_16TB : Z := 0x4.
Definition TCR_PS_BITS_256TB : Z := 0x5.
Definition ADDR_MASK_48_TO_63 : Z := 0xFFFF000000000000.
Definition ADDR_MASK_44_TO_47 : Z := 0x0000F00000000000.
Definition ADDR_MASK_42_TO_43 : Z := 0x00000C0000000000.
Definition ADDR_MASK_40_TO_41 : Z := 0x0000030000000000.
Definition ADDR_MASK_36_TO_39 : Z := 0x000000F000000000.
Definition ADDR_MASK_32_TO_35 : Z := 0x0000000F00000000.

Definition calc_physical_addr_size_bits (max_addr : Z) : option Z :=
  if has max_addr ADDR_MASK_48_TO_63 then None
  else if has max_addr ADDR_MASK_44_TO_47 then Some TCR_PS_BITS_256TB
  else if has max_addr ADDR_MASK_42_TO_43 then Some TCR_PS_BITS_16TB
  else if has max_addr ADDR_MASK_40_TO_41 then Some TCR_PS_BITS_4TB
  else if has max_addr ADDR_MASK_36_TO_39 then Some TCR_PS_BITS_1TB
  else if has max_addr ADDR_MASK_32_TO_35 then Some TCR_PS_BITS_64GB
  else Some TCR_PS_BITS_4GB.

Definition init_xlat_tables : X unit :=
  '(max_va, max_pa) ← init_xlation_table 0 Base XLAT_TABLE_LEVEL_BASE;
  bits ← must (calc_physical_addr_size_bits max_pa);
  modify (set_ps_bits bits);;
  massert (max_va <? ADDR_SPACE_SIZE).

(** The registers [enable_mmu_el1] and [enable_mmu_el3] program, of the exception level; the
    variable [sctlr] has 32 bits.  Barriers and TLB invalidation are left out. *)
Record regs := Regs { mair : Z; tcr : Z; ttbr0 : Z; sctlr : Z }.
Definition SCTLR_M_BIT : Z := Z.shiftl 1 0.
Definition SCTLR_C_BIT : Z := Z.shiftl 1 2.
Definition SCTLR_WXN_BIT : Z := Z.shiftl 1 19.
Definition TCR_EL3_RES1 : Z := Z.lor (Z.shiftl 1 31) (Z.shiftl 1 23).
Definition TCR_EL1_IPS_SHIFT : Z := 32.
Definition TCR_EL3_PS_SHIFT : Z := 16.
Definition TCR_RGN_INNER_WBA : Z := Z.shiftl 0x1 8.
Definition TCR_RGN_OUTER_WBA : Z := Z.shiftl 0x1 10.
Definition TCR_SH_INNER_SHAREABLE : Z := Z.shiftl 0x3 12.
(** [__builtin_ctzl]: the index of the lowest bit that is set. *)
Definition ctzl (x : Z) : Z := Z.log2 (Z.land x (- x)).

Definition enable_mmu_el (tcr_extra : Z) (in_el : bool) (flags : Z) (r : regs) : option regs :=
  if negb in_el then None
  else if negb (Z.land (sctlr r) SCTLR_M_BIT =? 0) then None
  else
    let mair := MAIR_ATTR_SET ATTR_DEVICE ATTR_DEVICE_INDEX in
    let mair := Z.lor mair (MAIR_ATTR_SET ATTR_IWBWA_OWBWA_NTR ATTR_IWBWA_OWBWA_NTR_INDEX) in
    let mair := Z.lor mair (MAIR_ATTR_SET ATTR_NON_CACHEABLE ATTR_NON_CACHEABLE_INDEX) in
    let tcr := Z.lor (Z.lor (Z.lor TCR_SH_INNER_SHAREABLE TCR_RGN_OUTER_WBA) TCR_RGN_INNER_WBA) (64 - ctzl ADDR_SPACE_SIZE) in
    let tcr := Z.lor tcr tcr_extra in
    let ttbr := base_xlation_table_addr in
    let sctlr := u32 (sctlr r) in
    let sctlr := Z.lor sctlr (Z.lor SCTLR_WXN_BIT SCTLR_M_BIT) in
    let sctlr := if has flags DISABLE_DCACHE then Z.ldiff sctlr SCTLR_C_BIT else Z.lor sctlr SCTLR_C_BIT in
    Some (Regs mair tcr ttbr sctlr).
Definition enable_mmu_el1 (s : xlat) (in_el : bool) : Z -> regs -> option regs :=
  enable_mmu_el (Z.shiftl (tcr_ps_bits s) TCR_EL1_IPS_SHIFT) in_el.
Definition enable_mmu_el3 (s : xlat) (in_el : bool) : Z -> regs -> option regs :=
  enable_mmu_el (Z.lor TCR_EL3_RES1 (Z.shiftl (tcr_ps_bits s) TCR_EL3_PS_SHIFT)) in_el.

(** ** plat/marvell/common/aarch64/marvell_common.c, with [USE_COHERENT_MEM] *)
Definition marvell_setup_page_tables (total_base total_size code_start code_limit rodata_start rodata_limit
    coh_start coh_limit : Z) (plat_marvell_mmap : list mmap_region) : X unit :=
  mmap_add_region total_base total_base total_size (Z.lor (Z.lor MT_MEMORY MT_RW) MT_SECURE);;
  mmap_add_region code_start code_start (code_limit -u64 code_start) (Z.lor MT_CODE MT_SECURE);;
  mmap_add_region rodata_start rodata_start (rodata_limit -u64 rodata_start) (Z.lor MT_RO_DATA MT_SECURE);;
  mmap_add_region coh_start coh_start (coh_limit -u64 coh_start) (Z.lor (Z.lor MT_DEVICE MT_RW) MT_SECURE);;
  mmap_add plat_marvell_mmap;;
  init_xlat_tables.
End xlat.
End Xlat.
