(* ===== verification/XlatProps.v ===== *)
(** * Translation tables: the list of regions and the areas of the builder

    [wf] is the order and the compatibility of the regions that [mmap_add_region] keeps;
    [region_at] is the innermost region of an address.  The lemmas say what
    [mmap_add_region], [mmap_region_attr] and [area_of] do in these terms, and when the code
    needs a finer table. *)

From Stdlib Require Import ZArith Lia.
From stdpp Require Import base option list numbers sorting.
From S2P Require Import Prelude CMonad Xlat.
Import Xlat.
Open Scope Z_scope.

Module XlatProps.

(** ** Regions as sets of addresses *)
Definition contains (r : mmap_region) (va : Z) : bool := (base_va r <=? va) && (va <? base_va r + size r).
Definition covers (r : mmap_region) (va sz : Z) : Prop := base_va r <= va /\ va + sz <= base_va r + size r.
Definition overlaps (r : mmap_region) (va sz : Z) : Prop := base_va r < va + sz /\ va < base_va r + size r.
Definition offset (r : mmap_region) : Z := u64 (base_va r - base_pa r).

Record region_ok (r : mmap_region) : Prop := {
  ok_pa : 0 <= base_pa r /\ base_pa r + size r <= 2 ^ 64;
  ok_va : 0 <= base_va r /\ base_va r + size r <= 2 ^ 64;
  ok_size : 0 < size r;
  ok_aligned : base_pa r mod 4096 = 0 /\ base_va r mod 4096 = 0 /\ size r mod 4096 = 0
}.

(** [r2] comes after [r1] in the list: inside it, with the same offset, or behind it. *)
Definition before (r1 r2 : mmap_region) : Prop :=
  (base_va r1 <= base_va r2 /\ base_va r2 + size r2 <= base_va r1 + size r1 /\ offset r1 = offset r2 /\
   (base_va r1 <> base_va r2 \/ size r1 <> size r2)) \/
  (base_va r1 + size r1 <= base_va r2 /\
   (base_pa r1 + size r1 <= base_pa r2 \/ base_pa r2 + size r2 <= base_pa r1)).
Definition wf (l : list mmap_region) : Prop := Forall region_ok l /\ StronglySorted before l.

(** The innermost region that contains an address: the last one of the list. *)
Fixpoint region_at (l : list mmap_region) (va : Z) : option mmap_region :=
  match l with
  | [] => None
  | r :: l => match region_at l va with
              | Some r' => Some r'
              | None => if contains r va then Some r else None
              end
  end.

Lemma contains_true r va : contains r va = true <-> base_va r <= va < base_va r + size r.
Proof. unfold contains. rewrite andb_true_iff, Z.leb_le, Z.ltb_lt. done. Qed.
Lemma region_at_elem l va r : region_at l va = Some r -> r ∈ l /\ contains r va = true.
Proof.
  induction l as [|r0 l IH]; cbn; [done|]. destruct (region_at l va) as [r'|].
  - intros [= ->]. destruct (IH eq_refl). split; [by right|done].
  - destruct (contains r0 va) eqn:E; [|done]. intros [= ->]. split; [by left|done].
Qed.
Lemma region_at_None l va : region_at l va = None <-> Forall (fun r => contains r va = false) l.
Proof.
  induction l as [|r0 l IH]; cbn; [by split|]. rewrite Forall_cons. destruct (region_at l va).
  - split; [done|]. intros [_ F]. by apply IH in F.
  - destruct (contains r0 va); split; [done|by intros [? _]|intros _; split; [done|by apply IH]|done].
Qed.
Lemma region_at_app l k va : region_at (l ++ k) va = match region_at k va with Some r => Some r | None => region_at l va end.
Proof.
  induction l as [|r0 l IH]; cbn; [by destruct (region_at k va)|]. rewrite IH. by destruct (region_at k va).
Qed.
(** Every region that contains the address contains the innermost one. *)
Lemma region_at_innermost l va r r' : wf l -> region_at l va = Some r -> r' ∈ l -> contains r' va = true ->
  base_va r' <= base_va r /\ base_va r + size r <= base_va r' + size r' /\ offset r' = offset r.
Proof.
  intros [_ S]. revert r. induction S as [|r0 l S IH F]; [done|]. cbn. intros r.
  destruct (region_at l va) as [r1|] eqn:E.
  - intros [= ->] [->|Hin]%elem_of_cons Hc; [|by apply (IH r)]. apply region_at_elem in E as [Hin Hc'].
    rewrite Forall_forall in F. apply contains_true in Hc, Hc'. destruct (F _ Hin) as [?|[? _]]; intuition lia.
  - destruct (contains r0 va) eqn:E0; [|done]. intros [= ->] [->|Hin]%elem_of_cons Hc; [lia|].
    apply region_at_None in E. rewrite Forall_forall in E. rewrite (E _ Hin) in Hc. done.
Qed.

Lemma same_extent l r r' : wf l -> r ∈ l -> r' ∈ l -> base_va r = base_va r' -> size r = size r' -> r = r'.
Proof.
  intros [F S] Hr Hr' Eb Es. rewrite Forall_forall in F. pose proof (ok_size _ (F _ Hr)) as Hs. clear F.
  induction S as [|r0 l S IH B]; [by apply elem_of_nil in Hr|]. rewrite Forall_forall in B.
  apply elem_of_cons in Hr as [->|Hr], Hr' as [->|Hr']; [done| | |by apply IH].
  - specialize (B _ Hr'). unfold before in B. lia.
  - specialize (B _ Hr). unfold before in B. lia.
Qed.
Lemma region_at_unique l va r : wf l -> r ∈ l -> contains r va = true ->
  (forall r', r' ∈ l -> contains r' va = true -> base_va r' <= base_va r /\ base_va r + size r <= base_va r' + size r') -> region_at l va = Some r.
Proof.
  intros W Hr Hc Hin. destruct (region_at l va) as [r'|] eqn:E.
  - destruct (region_at_innermost l va r' r W E Hr Hc) as (? & ? & _). apply region_at_elem in E as [Hr' Hc'].
    destruct (Hin r' Hr' Hc'). f_equal. apply (same_extent l); done || lia.
  - apply region_at_None in E. rewrite Forall_forall in E. rewrite (E _ Hr) in Hc. done.
Qed.

Lemma wf_nil : wf [].
Proof. split; constructor. Qed.
Lemma wf_app_r l k : wf (l ++ k) -> wf k.
Proof. intros [F S]. apply Forall_app in F as [_ F]. split; [done|]. induction l; [done|]. inversion S; auto. Qed.

Lemma end_va_ok r : region_ok r -> end_va r = base_va r + size r - 1.
Proof. intros [? ? ? ?]. unfold end_va. apply wrap_small. lia. Qed.
Lemma end_pa_ok r : region_ok r -> end_pa r = base_pa r + size r - 1.
Proof. intros [? ? ? ?]. unfold end_pa. apply wrap_small. lia. Qed.
Lemma page_aligned x : IS_PAGE_ALIGNED x = true <-> x mod 4096 = 0.
Proof.
  unfold IS_PAGE_ALIGNED, PAGE_SIZE_MASK. change (PAGE_SIZE - 1) with (Z.ones 12). rewrite Z.land_ones by lia. apply Z.eqb_eq.
Qed.

(** ** [mmap_add_region] *)
Definition compatible (new r : mmap_region) : Prop := before new r \/ before r new.
Lemma regions_compatible_ok new r : region_ok new -> region_ok r -> regions_compatible new r = true <-> compatible new r.
Proof.
  intros Hn Hr. unfold regions_compatible. rewrite !end_va_ok, !end_pa_ok by done. destruct Hn as [P1 V1 S1 _], Hr as [P2 V2 S2 _].
  change (wrap 64 (base_va r - base_pa r)) with (offset r). change (wrap 64 (base_va new - base_pa new)) with (offset new).
  unfold compatible, before. destruct (_ || _) eqn:E.
  - rewrite orb_true_iff, !andb_true_iff, !Z.leb_le in E.
    rewrite andb_true_iff, orb_true_iff, !negb_true_iff, Z.eqb_eq, !Z.eqb_neq. intuition lia.
  - rewrite orb_false_iff, !andb_false_iff, !Z.leb_gt in E. rewrite andb_true_iff, !orb_true_iff, !Z.ltb_lt. intuition lia.
Qed.

(** The array [mmap] holds the regions [l]. *)
Definition array (cap : nat) (l : list mmap_region) : list mmap_region := l ++ replicate (S cap - length l) no_region.

Lemma check_regions_ok new l k : Forall region_ok l ->
  check_regions new (l ++ no_region :: k) = Some (forallb (regions_compatible new) l).
Proof.
  induction 1 as [|r l Hr _ IH]; cbn; [done|]. pose proof (ok_size _ Hr). destruct (Z.eqb_spec (size r) 0); [lia|].
  rewrite IH. by destruct (regions_compatible new r).
Qed.
Lemma find_base_ok va l k : Forall region_ok l -> exists l1 l2, l = l1 ++ l2 /\
  find_base va (l ++ no_region :: k) = Some (length l1) /\ Forall (fun r => base_va r < va) l1 /\
  forall r, head l2 = Some r -> va <= base_va r.
Proof.
  induction 1 as [|r l Hr _ IH]; cbn.
  { exists [], []. rewrite andb_false_r. done. }
  pose proof (ok_size _ Hr). destruct (Z.eqb_spec (size r) 0); [lia|]. destruct (Z.ltb_spec (base_va r) va); cbn.
  - destruct IH as (l1 & l2 & -> & -> & F & Hd). exists (r :: l1), l2. split; [done|]. split; [done|]. split; [by constructor|done].
  - exists [], (r :: l). split; [done|]. split; [done|]. split; [done|]. by intros ? [= ->].
Qed.
Lemma find_inner_ok va sz l k : 0 <= sz -> exists l1 l2, l = l1 ++ l2 /\
  find_inner va sz (l ++ no_region :: k) = Some (length l1) /\ Forall (fun r => base_va r = va /\ sz < size r) l1 /\
  forall r, head l2 = Some r -> base_va r <> va \/ size r <= sz.
Proof.
  intros Hsz. induction l as [|r l IH]; cbn.
  { exists [], []. destruct (Z.ltb_spec sz 0); [lia|]. rewrite andb_false_r. done. }
  destruct (Z.eqb_spec (base_va r) va), (Z.ltb_spec sz (size r)); cbn.
  1: destruct IH as (l1 & l2 & -> & -> & F & Hd); exists (r :: l1), l2;
    (split; [done|]); (split; [done|]); (split; [by constructor|done]).
  all: exists [], (r :: l); (split; [done|]); (split; [done|]); (split; [done|]); intros ? [= ->]; by auto.
Qed.

(** The place found keeps the order. *)
Lemma mm_sorted_head (P : mmap_region -> Prop) l : wf l -> (forall r, head l = Some r -> P r) ->
  (forall r1 r2, region_ok r1 -> region_ok r2 -> before r1 r2 -> P r1 -> P r2) -> Forall P l.
Proof.
  intros [O S] Hd Hm. destruct S as [|r l S F]; [done|]. apply Forall_cons in O as [Or O]. specialize (Hd r eq_refl).
  constructor; [done|]. rewrite Forall_forall in *. intros x Hx. eauto.
Qed.
Lemma compatible_lt new r : region_ok new -> region_ok r -> compatible new r -> base_va r < base_va new -> before r new.
Proof. intros [? ? ? _] [? ? ? _] [C|C] ?; [|done]. unfold before in *. lia. Qed.
Lemma compatible_gt new r : region_ok new -> region_ok r -> compatible new r -> base_va new < base_va r -> before new r.
Proof. intros [? ? ? _] [? ? ? _] [C|C] ?; [done|]. unfold before in *. lia. Qed.
Lemma compatible_eq new r : region_ok new -> region_ok r -> compatible new r -> base_va new = base_va r ->
  size new < size r /\ before r new \/ size r < size new /\ before new r.
Proof. intros [? ? ? _] [? ? ? _] [C|C] ?; unfold before in *; [right|left]; intuition lia. Qed.

Lemma insert_wf new l1 l2 l3 : region_ok new -> wf (l1 ++ l2 ++ l3) -> Forall (compatible new) (l1 ++ l2 ++ l3) ->
  Forall (fun r => base_va r < base_va new) l1 -> (forall r, head (l2 ++ l3) = Some r -> base_va new <= base_va r) ->
  Forall (fun r => base_va r = base_va new /\ size new < size r) l2 ->
  (forall r, head l3 = Some r -> base_va r <> base_va new \/ size r <= size new) ->
  wf ((l1 ++ l2) ++ new :: l3).
Proof.
  intros Hn [F S] C H1 H2 H3 H4. rewrite app_assoc in F, S, C. pose proof F as F'. pose proof C as C'.
  apply Forall_app in F' as [F1 F3], C' as [C1 C3]. split; [apply Forall_app; by split; [|constructor]|].
  apply sorted_mid. split; [done|]. split.
  - apply Forall_app in F1 as [F1 F2], C1 as [C1 C2]. apply Forall_app. split; rewrite Forall_forall in *; intros r Hr.
    + apply compatible_lt; eauto.
    + destruct (H3 r Hr). destruct (compatible_eq new r) as [[? ?]|[? ?]]; eauto; lia.
  - assert (wf (l2 ++ l3)) as W by (apply (wf_app_r l1); split; by rewrite app_assoc).
    assert (Forall (fun r => base_va new <= base_va r) (l2 ++ l3)) as G1.
    { apply mm_sorted_head; [done|done|]. intros r1 r2 [? ? ? _] [? ? ? _] [?|[? _]] ?; lia. }
    apply Forall_app in G1 as [_ G1]. pose proof (wf_app_r _ _ W) as W3.
    assert (Forall (fun r => base_va new < base_va r \/ base_va new = base_va r /\ size r <= size new) l3) as G2.
    { apply mm_sorted_head; [done| |].
      - intros r Hr. specialize (H4 r Hr). destruct l3; [done|]. injection Hr as ->. apply Forall_cons in G1 as [? _]. lia.
      - intros r1 r2 [? ? ? _] [? ? ? _] [?|[? _]] ?; lia. }
    rewrite Forall_forall in *. intros r Hr. destruct (G2 r Hr) as [?|[? ?]]; [apply compatible_gt; eauto|].
    destruct (compatible_eq new r) as [[? ?]|[? ?]]; eauto; lia.
Qed.

Section add.
Context `{XlatConfig}.

Lemma array_tail l : (length l <= MAX_MMAP_REGIONS)%nat ->
  array MAX_MMAP_REGIONS l = l ++ no_region :: replicate (MAX_MMAP_REGIONS - length l) no_region.
Proof. intros Hl. unfold array. by rewrite Nat.sub_succ_l. Qed.
Lemma move_up_insert (a b : list mmap_region) new : (length a + length b = S MAX_MMAP_REGIONS)%nat -> b <> [] ->
  <[length a := new]> (move_up (a ++ b) (length a)) = a ++ new :: take (MAX_MMAP_REGIONS - length a) b.
Proof.
  intros Hl Hb. unfold move_up. rewrite drop_app_length. destruct b as [|x b]; [done|].
  rewrite (take_app_ge a) by lia. rewrite Nat.sub_succ_l, Nat.sub_diag by lia. cbn [take].
  rewrite <- app_assoc. rewrite insert_app_r_alt by lia. rewrite Nat.sub_diag. done.
Qed.
Lemma move_up_last (a b : list mmap_region) x : (length a + length b = S MAX_MMAP_REGIONS)%nat -> (length a < MAX_MMAP_REGIONS)%nat ->
  (a ++ b) !! (MAX_MMAP_REGIONS - 1)%nat = Some x -> move_up (a ++ b) (length a) !! MAX_MMAP_REGIONS = Some x.
Proof.
  intros Hl Ha Hx. unfold move_up. rewrite drop_app_length. rewrite lookup_app_r by (rewrite length_take; lia).
  rewrite length_take, length_app. rewrite lookup_take_lt by lia. rewrite lookup_app_r in Hx by lia.
  rewrite <- Hx. f_equal. lia.
Qed.

(** The region is added, at its place, or the overlap check fails. *)
Definition added (s : xlat) (new : mmap_region) (l : list mmap_region) : xlat :=
  set_max (if xlat_max_pa s <? end_pa new then end_pa new else xlat_max_pa s)
    (if xlat_max_va s <? end_va new then end_va new else xlat_max_va s) (set_mmap (array MAX_MMAP_REGIONS l) s).

Lemma add_asserts (s : xlat) new (k : M xlat unit) : region_ok new ->
  (massert (IS_PAGE_ALIGNED (base_pa new));; massert (IS_PAGE_ALIGNED (base_va new));; massert (IS_PAGE_ALIGNED (size new));;
   if size new =? 0 then mret tt else massert (base_pa new <? end_pa new);; massert (base_va new <? end_va new);; k) s = k s.
Proof.
  intros Hn. rewrite end_va_ok, end_pa_ok by done. destruct Hn as [? ? ? (A1 & A2 & A3)].
  rewrite !(proj2 (page_aligned _)) by done. cbn -[Z.ltb Z.eqb].
  assert (4096 <= size new) by (apply Z.div_exact in A3; [|lia]; lia).
  destruct (Z.eqb_spec (size new) 0); [lia|]. destruct (Z.ltb_spec (base_pa new) (base_pa new + size new - 1)); [|lia].
  destruct (Z.ltb_spec (base_va new) (base_va new + size new - 1)); [|lia]. done.
Qed.

(** The two searches find the place of [new]. *)
Lemma place_ok new l : region_ok new -> wf l -> (length l <= MAX_MMAP_REGIONS)%nat -> Forall (compatible new) l ->
  exists i j l1 l2, l = l1 ++ l2 /\ find_base (base_va new) (array MAX_MMAP_REGIONS l) = Some i /\
    find_inner (base_va new) (size new) (drop i (array MAX_MMAP_REGIONS l)) = Some j /\ (i + j = length l1)%nat /\
    wf (l1 ++ new :: l2).
Proof.
  intros Hn W Hl C. rewrite array_tail by done. pose proof W as [F _].
  destruct (find_base_ok (base_va new) l (replicate (MAX_MMAP_REGIONS - length l) no_region) F) as (l1 & l2 & -> & E1 & F1 & D1).
  destruct (find_inner_ok (base_va new) (size new) l2 (replicate (MAX_MMAP_REGIONS - length (l1 ++ l2)) no_region)) as (l3 & l4 & -> & E2 & F2 & D2).
  { pose proof (ok_size _ Hn). lia. }
  exists (length l1), (length l3), (l1 ++ l3), l4. split; [by rewrite app_assoc|]. split; [done|]. split.
  - by rewrite <- app_assoc, drop_app_length.
  - split; [by rewrite length_app|]. by apply insert_wf.
Qed.

Abbreviation add_region new := (mmap_add_region (base_pa new) (base_va new) (size new) (attr new)).
Lemma add_region_unfold new s l : region_ok new -> wf l ->
  mmap s = array MAX_MMAP_REGIONS l -> (length l <= MAX_MMAP_REGIONS)%nat ->
  add_region new s =
  (massert (forallb (regions_compatible new) l);;
   i ← must (find_base (base_va new) (mmap s)); j ← must (find_inner (base_va new) (size new) (drop i (mmap s)));
   last ← must (move_up (mmap s) (i + j) !! MAX_MMAP_REGIONS); massert (size last =? 0);;
   modify (set_mmap (<[(i + j)%nat := new]> (move_up (mmap s) (i + j))));;
   max_pa ← gets xlat_max_pa; max_va ← gets xlat_max_va;
   modify (set_max (if max_pa <? end_pa new then end_pa new else max_pa) (if max_va <? end_va new then end_va new else max_va))) s.
Proof.
  intros Hn W Hm Hl. unfold mmap_add_region. rewrite add_asserts by done. rewrite bind_gets.
  assert (Region (base_pa new) (base_va new) (size new) (attr new) = new) as -> by (by destruct new).
  rewrite (bind_must _ (forallb (regions_compatible new) l)); [done|].
  rewrite Hm, array_tail by done. apply check_regions_ok, W.
Qed.

Lemma compatible_all new l : region_ok new -> wf l -> forallb (regions_compatible new) l = true <-> Forall (compatible new) l.
Proof.
  intros Hn [F _]. rewrite forallb_forall, Forall_forall. rewrite Forall_forall in F. setoid_rewrite <- list_elem_of_In.
  split; intros Hc r Hr; specialize (Hc r Hr); apply regions_compatible_ok; eauto.
Qed.

Lemma mm_add_ok new s l : region_ok new -> wf l ->
  mmap s = array MAX_MMAP_REGIONS l -> (length l < MAX_MMAP_REGIONS)%nat -> Forall (compatible new) l ->
  exists l1 l2, l = l1 ++ l2 /\ wf (l1 ++ new :: l2) /\
    add_region new s = Some (tt, added s new (l1 ++ new :: l2)).
Proof.
  intros Hn W Hm Hl C. destruct (place_ok new l Hn W ltac:(lia) C) as (i & j & l1 & l2 & -> & E1 & E2 & E3 & W').
  exists l1, l2. split; [done|]. split; [done|]. rewrite (add_region_unfold new s (l1 ++ l2)) by (done || lia).
  rewrite Hm, bind_massert, (bind_must _ i), (bind_must _ j); [|done|done|by apply compatible_all].
  rewrite E3. clear E1 E2 E3. rewrite length_app in Hl. rewrite array_tail, <- app_assoc by (rewrite length_app; lia).
  rewrite (bind_must _ no_region), (move_up_insert l1).
  - rewrite bind_massert, bind_modify, !bind_gets by done. unfold modify, added. cbn [xlat_max_pa xlat_max_va set_mmap]. do 4 f_equal.
    rewrite array_tail by (rewrite length_app; cbn; lia). rewrite <- app_assoc. f_equal. cbn. f_equal.
    rewrite take_app_ge by lia. f_equal. rewrite !length_app. cbn.
    replace (MAX_MMAP_REGIONS - length l1 - length l2)%nat with (S (MAX_MMAP_REGIONS - (length l1 + S (length l2)))) by lia.
    cbn. f_equal. rewrite take_replicate. f_equal. lia.
  - rewrite length_app. cbn. rewrite length_replicate, length_app. lia.
  - by destruct l2.
  - apply move_up_last; [rewrite length_app; cbn; rewrite length_replicate, length_app; lia|lia|].
    rewrite app_assoc, lookup_app_r by (rewrite length_app; lia). rewrite <- replicate_S. apply lookup_replicate. rewrite length_app. split; [done|lia].
Qed.

(** A region that overlaps another one otherwise is refused. *)
Lemma add_region_refused new s l : region_ok new -> wf l -> mmap s = array MAX_MMAP_REGIONS l -> (length l <= MAX_MMAP_REGIONS)%nat ->
  ~ Forall (compatible new) l -> add_region new s = None.
Proof.
  intros Hn W Hm Hl C. rewrite (add_region_unfold new s l) by done. apply bind_massert_false.
  apply not_true_is_false. by rewrite compatible_all.
Qed.
(** A full array: the assertion looks at the last element before it is overwritten. *)
Lemma add_region_full new s l : region_ok new -> wf l -> mmap s = array MAX_MMAP_REGIONS l -> length l = MAX_MMAP_REGIONS ->
  Forall (fun r => before r new) l -> exists s', add_region new s = Some (tt, s') /\ mmap s' = l ++ [new].
Proof.
  intros Hn W Hm Hl B. assert (Forall (compatible new) l) as C by (eapply Forall_impl; [done|]; by right).
  destruct (place_ok new l Hn W ltac:(lia) C) as (i & j & l1 & l2 & -> & E1 & E2 & E3 & W').
  assert (l2 = []) as ->.
  { destruct l2 as [|r l2]; [done|]. destruct W' as [F S]. apply sorted_mid in S as (_ & _ & S). apply Forall_app in B as [_ B].
    apply Forall_cons in S as [S _], B as [B _]. apply Forall_app in F as [_ F]. apply Forall_cons in F as [[? ? ? _] F].
    apply Forall_cons in F as [[? ? ? _] _]. unfold before in S, B. lia. }
  rewrite (add_region_unfold new s (l1 ++ [])) by (done || lia).
  rewrite Hm, bind_massert, (bind_must _ i), (bind_must _ j); [|done|done|by apply compatible_all].
  rewrite E3. clear E1 E2 E3. rewrite app_nil_r in *. rewrite array_tail, Hl, Nat.sub_diag by lia. cbn [replicate].
  rewrite (bind_must _ no_region), bind_massert, bind_modify, !bind_gets; [|done|].
  - eexists. split; [done|]. cbn. rewrite <- Hl. rewrite (move_up_insert l1); [|cbn; lia|done]. by rewrite Hl, Nat.sub_diag.
  - rewrite <- Hl at 2. unfold move_up. rewrite <- Hl at 1. rewrite lookup_app_l; [|rewrite length_take, length_app; cbn [length]; lia].
    rewrite lookup_take_lt, lookup_app_r, Nat.sub_diag by lia. done.
Qed.
End add.

(** ** [mmap_region_attr] *)
Definition attr_ok (r : mmap_region) : Prop := 0 <= attr r < 2 ^ 31.
Definition in_area (va sz x : Z) : Prop := va <= x < va + sz.
(** The attributes an address gets from the regions [l], [at_] without any. *)
Definition attr_at (at_ : Z) (l : list mmap_region) (x : Z) : Z := match region_at l x with Some r => attr r | None => at_ end.

Lemma attr_at_cons at_ r l x : attr_at at_ (r :: l) x = attr_at (if contains r x then attr r else at_) l x.
Proof. unfold attr_at. cbn. destruct (region_at l x); [done|]. by destruct (contains r x). Qed.
Lemma attr_at_none at_ l x : Forall (fun r => contains r x = false) l -> attr_at at_ l x = at_.
Proof. intros F. unfold attr_at. by rewrite (proj2 (region_at_None l x) F). Qed.
Lemma attr_at_nonneg at_ l x : Forall attr_ok l -> 0 <= at_ -> 0 <= attr_at at_ l x.
Proof.
  intros F Ha. unfold attr_at. destruct (region_at l x) as [r|] eqn:E; [|done]. apply region_at_elem in E as [E _].
  rewrite Forall_forall in F. apply F in E. unfold attr_ok in E. lia.
Qed.
Lemma not_overlaps r va sz x : ~ overlaps r va sz -> in_area va sz x -> contains r x = false.
Proof. unfold overlaps, in_area. intros ? ?. apply not_true_is_false. rewrite contains_true. lia. Qed.
Lemma base_mono r l : wf (r :: l) -> Forall (fun r' => base_va r <= base_va r') l.
Proof.
  intros [F S]. apply StronglySorted_inv in S as [_ S]. apply Forall_cons in F as [[? ? ? _] F]. rewrite Forall_forall in *.
  intros r' Hr'. destruct (S _ Hr') as [?|[? _]]; lia.
Qed.

(** The result: no region in the area, or one that covers it in part, or the attributes of
    every address of it. *)
Lemma region_attr_from_ok l k at_ va sz : wf l -> Forall attr_ok l -> at_ = -1 \/ 0 <= at_ < 2 ^ 31 ->
  0 <= va -> 0 < sz -> va + sz <= 2 ^ 64 ->
  exists x, mmap_region_attr_from at_ (l ++ no_region :: k) va sz = Some x /\
    (x = -1 /\ at_ = -1 /\ Forall (fun r => ~ overlaps r va sz) l \/
     x = -1 /\ Exists (fun r => overlaps r va sz /\ ~ covers r va sz) l \/
     0 <= x < 2 ^ 31 /\ forall y, in_area va sz y -> attr_at at_ l y = x).
Proof.
  intros W A Hat Hva Hsz Hend. revert at_ Hat. induction l as [|r l IH]; intros at_ Hat; cbn [app mmap_region_attr_from].
  { exists at_. split; [done|]. destruct Hat as [->|?]; [left; by repeat constructor|]. by right; right. }
  pose proof W as [F _]. apply Forall_cons in F as [Or Fl], A as [Ar Al]. pose proof (wf_app_r [r] l W) as Wl. specialize (IH Wl Al).
  pose proof (ok_size _ Or). destruct (Z.eqb_spec (size r) 0); [lia|]. rewrite wrap_small by lia. rewrite end_va_ok by done.
  pose proof (base_mono _ _ W) as Hb. unfold attr_ok in Ar. destruct (Z.ltb_spec (va + (sz - 1)) (base_va r)).
  { assert (Forall (fun r => ~ overlaps r va sz) (r :: l)) as Fo.
    { constructor; [unfold overlaps; lia|]. apply (Forall_impl _ _ _ Hb). intros r' ?. cbn in *. unfold overlaps. lia. }
    exists at_. split; [done|]. destruct Hat as [->|?]; [by left|]. right; right. split; [done|]. intros y Hy. apply attr_at_none.
    apply (Forall_impl _ _ _ Fo). intros r' ?. by eapply not_overlaps. }
  destruct (Z.ltb_spec (base_va r + size r - 1) va).
  { destruct (IH at_ Hat) as (x & E & Hx). exists x. split; [done|]. destruct Hx as [(? & ? & ?)|[[? ?]|[? Hx]]].
    - left. repeat split; try done. constructor; [unfold overlaps; lia|done].
    - right; left. split; [done|by right].
    - right; right. split; [done|]. intros y Hy. rewrite attr_at_cons, (not_overlaps r va sz) by (done || unfold overlaps; lia). by apply Hx. }
  destruct (Z.eqb_spec (attr r) (wrap 32 at_)) as [Ea|Ea].
  { destruct Hat as [->|Hat]; [change (wrap 32 (-1)) with (2 ^ 32 - 1) in Ea; lia|]. rewrite wrap_small in Ea by lia.
    destruct (IH at_ (or_intror Hat)) as (x & E & Hx). exists x. split; [done|]. destruct Hx as [(? & ? & ?)|[[? ?]|[? Hx]]].
    - lia.
    - right; left. split; [done|by right].
    - right; right. split; [done|]. intros y Hy. rewrite attr_at_cons, Ea. destruct (contains r y); by apply Hx. }
  destruct (_ || _) eqn:Ec.
  { exists (-1). split; [done|]. right; left. split; [done|]. left. rewrite orb_true_iff, !Z.ltb_lt in Ec. unfold overlaps, covers. lia. }
  rewrite orb_false_iff, !Z.ltb_ge in Ec. rewrite sext_small by lia.
  destruct (IH (attr r)) as (x & E & Hx); [by right|]. exists x. split; [done|]. destruct Hx as [(? & ? & ?)|[[? ?]|[? Hx]]].
  - lia.
  - right; left. split; [done|by right].
  - right; right. split; [done|]. intros y Hy. rewrite attr_at_cons. rewrite (proj2 (contains_true r y)) by (unfold in_area in Hy; lia). by apply Hx.
Qed.

(** ** [area_of] *)
Definition lsz (level : Z) : Z := 2 ^ (39 - 9 * level).
Lemma level_cases level : 0 <= level <= 3 -> level = 0 \/ level = 1 \/ level = 2 \/ level = 3.
Proof. lia. Qed.
Lemma level_size_ok level : 0 <= level <= 3 -> level_size level = lsz level.
Proof. by intros [->|[->|[->| ->]]]%level_cases. Qed.
Lemma lsz_bounds level : 0 <= level <= 3 -> 4096 <= lsz level <= 2 ^ 39.
Proof. by intros [->|[->|[->| ->]]]%level_cases. Qed.
Lemma lsz_pages level : 0 <= level <= 3 -> exists k, lsz level = 4096 * k.
Proof. intros [->|[->|[->| ->]]]%level_cases; [exists (2 ^ 27)|exists (2 ^ 18)|exists (2 ^ 9)|exists 1]; done. Qed.

(** A page is inside a region or outside. *)
Lemma page_covered r va : region_ok r -> va mod lsz 3 = 0 -> overlaps r va (lsz 3) -> covers r va (lsz 3).
Proof.
  intros [_ _ _ (_ & Hb & Hs)] Hv. change (lsz 3) with 4096 in *. unfold overlaps, covers. intros. dlia.
Qed.

(** What [area_of] finds when the regions [pre] end before [va] and [ms] are those the
    pointer has not passed. *)
Inductive area_case (pre ms : list mmap_region) (va level : Z) : option area -> Prop :=
| case_next r ms' : ms = r :: ms' -> base_va r + size r <= va -> area_case pre ms va level (Some NextRegion)
| case_empty : (forall y, in_area va (lsz level) y -> region_at (pre ++ ms) y = None) ->
    area_case pre ms va level (Some (Desc INVALID_DESC))
| case_leaf r x : r ∈ pre ++ ms -> covers r va (lsz level) -> 0 <= x ->
    (forall y, in_area va (lsz level) y -> exists r', region_at (pre ++ ms) y = Some r' /\ attr r' = x /\ offset r' = offset r) ->
    area_case pre ms va level (Desc <$> mmap_desc x (u64 (va - base_va r + base_pa r)) level)
| case_split r : level < 3 -> r ∈ pre ++ ms -> overlaps r va (lsz level) -> ~ covers r va (lsz level) ->
    (forall r, head ms = Some r -> va < base_va r + size r) -> area_case pre ms va level (Some (Desc UNSET_DESC)).

Record at_area (pre ms : list mmap_region) (va level : Z) : Prop := {
  area_wf : wf (pre ++ ms);
  area_attr : Forall attr_ok (pre ++ ms);
  area_level : 0 <= level <= 3;
  area_range : 0 <= va /\ va + lsz level <= 2 ^ 64;
  area_aligned : va mod lsz level = 0;
  area_pre : Forall (fun r => base_va r + size r <= va) pre
}.

Lemma pre_outside pre ms va level y : at_area pre ms va level -> in_area va (lsz level) y -> region_at pre y = None.
Proof.
  intros [_ _ _ _ _ Hpre] Hy. apply region_at_None. apply (Forall_impl _ _ _ Hpre). intros r ?. apply not_true_is_false. rewrite contains_true.
  unfold in_area in Hy. lia.
Qed.
Lemma split_level pre ms va level r : at_area pre ms va level -> r ∈ pre ++ ms ->
  overlaps r va (lsz level) -> ~ covers r va (lsz level) -> level < 3.
Proof.
  intros [W _ Hl _ Ha _] Hr Ho Hc. destruct (decide (level = 3)) as [->|]; [|lia]. destruct Hc. apply page_covered; [|done|done].
  destruct W as [F _]. rewrite Forall_forall in F. by apply F.
Qed.

Lemma area_of_ok pre ms k va level : at_area pre ms va level -> area_case pre ms va level (area_of (ms ++ no_region :: k) va level).
Proof.
  intros H0. pose proof H0 as [W A Hl [Hv Hv'] _ _].
  pose proof (lsz_bounds level Hl) as Hb. unfold area_of. rewrite level_size_ok by done. destruct ms as [|r ms'].
  { cbn -[Z.ltb lsz]. rewrite wrap_small by lia. destruct (Z.ltb_spec (va + (lsz level - 1)) 0); [lia|].
    apply case_empty. intros y Hy. rewrite app_nil_r. by apply (pre_outside pre [] va level). }
  pose proof W as [F _]. apply Forall_app in F as [_ F]. apply Forall_cons in F as [Or Fr]. pose proof (ok_size _ Or) as Hs.
  cbn [app head]. unfold mbind at 1, option_bind at 1. rewrite end_va_ok by done. destruct (Z.eqb_spec (size r) 0); [lia|]. cbn [negb andb].
  destruct (Z.ltb_spec (base_va r + size r - 1) va).
  { apply (case_next _ _ _ _ r ms'); [done|lia]. }
  rewrite wrap_small by lia. pose proof (wf_app_r _ _ W) as Wm. pose proof A as A'. apply Forall_app in A' as [_ Am]. apply Forall_cons in Am as [Ar Am].
  unfold attr_ok in Ar. destruct (Z.ltb_spec (va + (lsz level - 1)) (base_va r)).
  { apply case_empty. intros y Hy. rewrite region_at_app, (pre_outside _ _ _ _ y H0 Hy). enough (region_at (r :: ms') y = None) as -> by done.
    apply region_at_None. pose proof (base_mono _ _ Wm) as Hm. unfold in_area in Hy. constructor.
    - apply not_true_is_false. rewrite contains_true. lia.
    - apply (Forall_impl _ _ _ Hm). intros r' ?. apply not_true_is_false. rewrite contains_true. cbn in *. lia. }
  unfold mmap_region_attr. cbn [mmap_region_attr_from]. destruct (Z.eqb_spec (size r) 0); [lia|]. rewrite (wrap_small 64 (va + _)), end_va_ok by (done || lia).
  destruct (Z.ltb_spec (va + (lsz level - 1)) (base_va r)); [lia|]. destruct (Z.ltb_spec (base_va r + size r - 1) va); [lia|].
  change (wrap 32 (-1)) with 4294967295. destruct (Z.eqb_spec (attr r) 4294967295); [lia|].
  assert (r ∈ pre ++ r :: ms') as Hin by (apply elem_of_app; right; left).
  assert (forall r0, head (r :: ms') = Some r0 -> va < base_va r0 + size r0) as Hhd by (intros ? [= <-]; lia).
  destruct (_ || _) eqn:Ec.
  { rewrite orb_true_iff, !Z.ltb_lt in Ec. cbn.
    assert (overlaps r va (lsz level) /\ ~ covers r va (lsz level)) as [? ?] by (unfold overlaps, covers; lia).
    apply (case_split _ _ _ _ r); [by eapply split_level|done..]. }
  rewrite orb_false_iff, !Z.ltb_ge in Ec. rewrite sext_small by lia.
  destruct (region_attr_from_ok ms' k (attr r) va (lsz level)) as (x & -> & Hx); [by apply (wf_app_r [r])|done|by right|lia|lia|lia|].
  cbn [mbind option_bind]. destruct Hx as [(? & ? & _)|[[-> Hx]|[Hx Hall]]]; [lia| |].
  { apply Exists_exists in Hx as (r' & Hr' & Ho & Hc). assert (r' ∈ pre ++ r :: ms') by (apply elem_of_app; right; by right).
    cbn. apply (case_split _ _ _ _ r'); [by eapply split_level|done..]. }
  destruct (Z.leb_spec 0 x); [|lia]. apply case_leaf; [done|unfold covers; lia|done|]. intros y Hy.
  assert (contains r y = true) as Hcy by (apply contains_true; unfold in_area in Hy; lia).
  specialize (Hall y Hy). unfold attr_at in Hall.
  assert (exists r', region_at (r :: ms') y = Some r' /\ attr r' = x) as (r' & Er & Ex).
  { cbn. rewrite Hcy. destruct (region_at ms' y) as [r'|]; by eauto. }
  assert (region_at (pre ++ r :: ms') y = Some r') as Ea by (by rewrite region_at_app, Er).
  exists r'. split; [done|]. split; [done|]. by destruct (region_at_innermost _ _ _ _ W Ea Hin Hcy) as (_ & _ & ?).
Qed.
End XlatProps.
