(* ===== verification/XlatWalk.v ===== *)
(** * Translation tables: the hardware's walk and what the builder builds

    [walk] and [mmu] are the reference: how a core with 4 KB pages reads the tables and
    registers (VMSAv8-64).  [mmap_desc] writes descriptors that decode to the attributes asked
    for, and [init_xlation_table_inner] builds tables in which every walk ends in the
    descriptor of the innermost region. *)

From Stdlib Require Import ZArith Lia.
From stdpp Require Import base option list numbers sorting gmap.
From S2P Require Import Prelude CMonad Xlat XlatProps.
Import Xlat XlatProps.
Open Scope Z_scope.

Module XlatWalk.

(** ** The architecture *)

(** The fields of a block or page descriptor: memory attribute index, non-secure, writable
    (AP[2] clear), shareability, execute-never. *)
Record access := Access { acc_index : Z; acc_ns : bool; acc_write : bool; acc_share : Z; acc_xn : bool }.
Definition field (x lo width : Z) : Z := Z.land (Z.shiftr x lo) (Z.ones width).
Definition decode (desc : Z) : access :=
  Access (field desc 2 3) (Z.testbit desc 5) (negb (Z.testbit desc 7)) (field desc 8 2) (Z.testbit desc 54).
(** A block or page maps its area; a clear access flag faults. *)
Definition leaf (level desc va : Z) : option (Z * access) :=
  if Z.testbit desc 10 then Some (desc mod 2 ^ 48 - desc mod lsz level + va mod lsz level, decode desc) else None.
(** The walk from an entry [desc] of a table of [level]; [read] reads an entry of the table
    at an address. *)
Fixpoint walk (depth : nat) (read : Z -> Z -> option Z) (level desc va : Z) : option (Z * access) :=
  if Z.testbit desc 0 then
    if level =? 3 then if Z.testbit desc 1 then leaf level desc va else None
    else if Z.testbit desc 1 then
      match depth with
      | O => None
      | S depth => desc' ← read (desc mod 2 ^ 48 - desc mod 4096) ((va / lsz (level + 1)) mod 512);
                   walk depth read (level + 1) desc' va
      end
    else if level =? 0 then None else leaf level desc va
  else None.

(** ** Descriptors *)

(** The attributes a region asks for, as the fields of its descriptors. *)
Definition access_of (attr : Z) : access :=
  let device := MT_TYPE attr =? MT_DEVICE in
  Access (if device then ATTR_DEVICE_INDEX else if MT_TYPE attr =? MT_MEMORY then ATTR_IWBWA_OWBWA_NTR_INDEX else ATTR_NON_CACHEABLE_INDEX)
    (has attr MT_NS) (has attr MT_RW) (if MT_TYPE attr =? MT_MEMORY then 3 else 2)
    (device || has attr MT_RW || has attr MT_EXECUTE_NEVER).
Definition type_ok (attr : Z) : Prop := MT_TYPE attr = MT_DEVICE \/ MT_TYPE attr = MT_NON_CACHEABLE \/ MT_TYPE attr = MT_MEMORY.

(** The bits a descriptor has besides the address. *)
Definition DESC_MASK : Z := 0x40000000000fff.
Definition page_addr (pa : Z) : Prop := 0 <= pa < 2 ^ 48 /\ pa mod 4096 = 0.

Lemma page_addr_bits pa n : page_addr pa -> 0 <= n -> n < 12 \/ 48 <= n -> Z.testbit pa n = false.
Proof.
  intros [Hr Ha] Hn [Hlt|Hge].
  - apply Z.mod_divide in Ha as [k ->]; [|lia]. change 4096 with (2 ^ 12). by apply Z.mul_pow2_bits_low.
  - rewrite <- (Z.mod_small pa (2 ^ 48)) by lia. apply Z.mod_pow2_bits_high. lia.
Qed.
Lemma page_addr_mask pa : page_addr pa -> Z.land pa DESC_MASK = 0.
Proof.
  intros Hp. apply Z.bits_inj'. intros n Hn. rewrite Z.land_spec, Z.bits_0.
  change DESC_MASK with (Z.lor (Z.ones 12) (Z.shiftl 1 54)). rewrite Z.lor_spec, Z.testbit_ones by lia.
  destruct (decide (n < 12 \/ 48 <= n)) as [Hc|Hc]; [by rewrite page_addr_bits|].
  rewrite Z.shiftl_spec_low by lia. destruct (Z.leb_spec 0 n), (Z.ltb_spec n 12); lia || by rewrite andb_false_r.
Qed.
Lemma desc_sum pa c : page_addr pa -> Z.land c DESC_MASK = c -> Z.lor pa c = pa + c.
Proof.
  intros Hp Hc. assert (Z.land pa c = 0) as E.
  { rewrite <- Hc, (Z.land_comm c), Z.land_assoc, page_addr_mask by done. apply Z.land_0_l. }
  rewrite (Z.add_nocarry_lxor _ _ E). symmetry. by apply Z.lxor_lor.
Qed.
Lemma desc_bit pa c n : page_addr pa -> 0 <= n -> n < 12 \/ 48 <= n -> Z.testbit (Z.lor pa c) n = Z.testbit c n.
Proof. intros Hp Hn Hc. by rewrite Z.lor_spec, page_addr_bits. Qed.
Lemma desc_field pa c lo w : page_addr pa -> 0 <= lo -> 0 <= w -> lo + w <= 12 -> field (Z.lor pa c) lo w = field c lo w.
Proof.
  intros Hp Hlo Hw Hs. unfold field. apply Z.bits_inj'. intros n Hn. rewrite !Z.land_spec, !Z.shiftr_spec, Z.testbit_ones by done.
  destruct (Z.ltb_spec n w); [|by rewrite !andb_false_r]. by rewrite desc_bit by (done || lia).
Qed.
Lemma decode_desc pa c : page_addr pa -> decode (Z.lor pa c) = decode c.
Proof. intros Hp. unfold decode. rewrite !desc_field, !desc_bit by (done || lia). done. Qed.

(** A descriptor is the address and the bits of the attributes. *)
Lemma mmap_desc_bits attr pa level : type_ok attr -> exists c, mmap_desc attr pa level = Some (Z.lor pa c) /\
  Z.land c DESC_MASK = c /\ decode c = access_of attr /\ Z.testbit c 10 = true /\
  Z.testbit c 0 = true /\ Z.testbit c 1 = (level =? 3) /\ 0 <= c < 2 ^ 55.
Proof.
  intros Ht. unfold mmap_desc, access_of, has. change XLAT_TABLE_LEVEL_MAX with 3.
  destruct Ht as [E|[E|E]]; rewrite E; clear E; destruct (Z.land attr MT_NS =? 0), (Z.land attr MT_RW =? 0),
    (Z.land attr MT_EXECUTE_NEVER =? 0), (level =? 3);
    unfold MT_DEVICE, MT_NON_CACHEABLE, MT_MEMORY; cbn [negb orb Z.eqb Pos.eqb]; rewrite <- ?Z.lor_assoc; eexists; (split; [reflexivity|]); by vm_compute.
Qed.

(** ** What is asked of platforms and regions *)
Class XlatLaws `{XlatConfig} : Prop := {
  law_space : exists w, 25 <= w <= 48 /\ ADDR_SPACE_SIZE = 2 ^ w;
  law_tables : 0 <= xlat_tables_addr /\ xlat_tables_addr mod 4096 = 0 /\
    xlat_tables_addr + Z.of_nat MAX_XLAT_TABLES * 4096 <= 2 ^ 48;
  law_base : base_xlation_table_addr < xlat_tables_addr \/
    xlat_tables_addr + Z.of_nat MAX_XLAT_TABLES * 4096 <= base_xlation_table_addr
}.

(** What the regions [l] map an address to. *)
Definition mapping (l : list mmap_region) (va : Z) : option (Z * access) :=
  r ← region_at l va; Some (va - base_va r + base_pa r, access_of (attr r)).

Section mappable.
Context `{XlatConfig}.
(** The regions can be expressed in descriptors: memory types exist, addresses fit, and
    where a region covers a whole block, physical addresses are aligned like virtual ones and
    the level has blocks. *)
Record mappable (l : list mmap_region) : Prop := {
  map_wf : wf l;
  map_attr : Forall attr_ok l;
  map_type : Forall (fun r => type_ok (attr r)) l;
  map_pa : Forall (fun r => base_pa r + size r <= 2 ^ 48) l;
  map_va : Forall (fun r => base_va r + size r <= ADDR_SPACE_SIZE) l;
  map_blocks : forall r level va, r ∈ l -> XLAT_TABLE_LEVEL_BASE <= level < 3 -> va mod lsz level = 0 ->
    covers r va (lsz level) -> 1 <= level /\ (base_pa r - base_va r) mod lsz level = 0
}.
End mappable.

Section build.
Context `{L : XlatLaws} (all : list mmap_region) (Hall : mappable all).

Lemma mod_mod_mul a b c : 0 < b -> 0 < c -> (a mod (b * c)) mod b = a mod b.
Proof. intros. rewrite (Z.rem_mul_r a b c) by lia. rewrite Z.mul_comm, Z.mod_add, Z.mod_mod by lia. done. Qed.

(** ** Entries *)

(** [desc] maps the area at [va] as the regions say, in every memory that holds the
    tables [lo] to [hi - 1] of [ts]. *)
Definition entry_ok (ts : list (list Z)) (lo hi : nat) (level desc va : Z) : Prop :=
  forall read, (forall m i, (lo <= m < hi)%nat -> 0 <= i < 512 -> read (table_addr m) i = ts !! m ≫= (.!! Z.to_nat i)) ->
  forall y, in_area va (lsz level) y -> walk (Z.to_nat (3 - level)) read level desc y = mapping all y.

Lemma entry_mono ts ts' lo lo' hi hi' level desc va : (lo' <= lo)%nat -> (hi <= hi')%nat ->
  (forall m, (lo <= m < hi)%nat -> ts' !! m = ts !! m) -> entry_ok ts lo hi level desc va -> entry_ok ts' lo' hi' level desc va.
Proof.
  intros Hlo Hhi Hs E read Hr. apply E. intros m i Hm Hi. rewrite <- Hs by done. apply Hr; [lia|done].
Qed.

Lemma walk_invalid depth read level va : walk depth read level INVALID_DESC va = None.
Proof. by destruct depth. Qed.
Lemma invalid_ok ts n level va : (forall y, in_area va (lsz level) y -> region_at all y = None) -> entry_ok ts n n level INVALID_DESC va.
Proof. intros Hn read _ y Hy. rewrite walk_invalid. unfold mapping. by rewrite Hn. Qed.

Lemma walk_leaf depth read level desc va : Z.testbit desc 0 = true -> Z.testbit desc 1 = (level =? 3) ->
  (level = 3 \/ 1 <= level < 3) -> walk depth read level desc va = leaf level desc va.
Proof.
  intros E0 E1 Hl. destruct depth; cbn [walk]; rewrite E0, E1; destruct (Z.eqb_spec level 3), (Z.eqb_spec level 0); (done || lia).
Qed.
Lemma desc_low c : Z.land c DESC_MASK = c -> c mod 2 ^ 48 = c mod 4096.
Proof.
  intros Hc. rewrite <- !(Z.land_ones c 48) by lia. rewrite <- Hc at 1. rewrite <- Z.land_assoc.
  change (Z.land DESC_MASK (Z.ones 48)) with (Z.ones 12). by rewrite Z.land_ones by lia.
Qed.
Lemma mod_add_l a b m : 0 < m -> a mod m = 0 -> (a + b) mod m = b mod m.
Proof. intros Hm Ha. rewrite <- Zplus_mod_idemp_l, Ha. done. Qed.
Lemma lsz_div48 level : 0 <= level <= 3 -> exists q, 0 < q /\ 2 ^ 48 = lsz level * q.
Proof. intros [->|[->|[->| ->]]]%level_cases; [exists (2 ^ 9)|exists (2 ^ 18)|exists (2 ^ 27)|exists (2 ^ 36)]; done. Qed.
Lemma area_offset level va y : 0 <= level <= 3 -> va mod lsz level = 0 -> in_area va (lsz level) y -> y mod lsz level = y - va.
Proof.
  intros Hl Ha Hy. pose proof (lsz_bounds level Hl). replace y with (va + (y - va)) at 1 by lia. rewrite mod_add_l by (done || lia).
  apply Z.mod_small. unfold in_area in Hy. lia.
Qed.
Lemma desc_parts level pa c : page_addr pa -> 0 <= level <= 3 -> pa mod lsz level = 0 -> Z.land c DESC_MASK = c ->
  Z.lor pa c mod 2 ^ 48 - Z.lor pa c mod lsz level = pa.
Proof.
  intros Hp Hl Hpa Hc. rewrite desc_sum by done. pose proof (lsz_bounds level Hl). pose proof (Z.mod_pos_bound c 4096 ltac:(lia)) as Hb.
  rewrite (mod_add_l pa c (lsz level)) by (done || lia). destruct (lsz_div48 level Hl) as (q & Hq & Eq).
  assert (c mod lsz level = c mod 4096) as ->.
  { transitivity ((c mod 2 ^ 48) mod lsz level).
    - rewrite Eq, mod_mod_mul by lia. done.
    - rewrite desc_low by done. apply Z.mod_small. lia. }
  rewrite <- Zplus_mod_idemp_r, (desc_low c) by done. destruct Hp as [? Hp]. rewrite Z.mod_small; [lia|].
  change (2 ^ 48) with (4096 * 2 ^ 36) in *. dlia.
Qed.
Lemma leaf_value level pa c y va : page_addr pa -> 0 <= level <= 3 -> pa mod lsz level = 0 -> va mod lsz level = 0 -> in_area va (lsz level) y ->
  Z.land c DESC_MASK = c -> Z.testbit c 10 = true -> leaf level (Z.lor pa c) y = Some (pa + (y - va), decode c).
Proof.
  intros Hp Hl Hpa Hva Hy Hc H10. unfold leaf. rewrite desc_bit, H10, decode_desc, desc_parts, (area_offset level va y) by (done || lia). done.
Qed.

(** The physical address of every address of the area, from the first region that
    contains it. *)
Lemma same_offset r r' va y : region_ok r -> region_ok r' -> contains r' y = true -> base_va r <= va <= y -> y < base_va r + size r ->
  offset r' = offset r -> y - base_va r' + base_pa r' = (va - base_va r + base_pa r) + (y - va).
Proof.
  intros [P V S _] [P' V' S' _] Hc%contains_true Hva Hy Ho. unfold offset, wrap in Ho.
  assert (((y - base_va r' + base_pa r') - (y - base_va r + base_pa r)) mod 2 ^ 64 = 0) as E.
  { replace (_ - _) with ((base_va r - base_pa r) - (base_va r' - base_pa r')) by lia.
    rewrite Zminus_mod, Ho, Z.sub_diag. done. }
  apply Z.mod_divide in E as [q E]; [|lia]. lia.
Qed.

Lemma leaf_ok ts n r x va level : r ∈ all -> covers r va (lsz level) -> 0 <= level <= 3 -> XLAT_TABLE_LEVEL_BASE <= level -> 0 <= va -> va mod lsz level = 0 ->
  (forall y, in_area va (lsz level) y -> exists r', region_at all y = Some r' /\ attr r' = x /\ offset r' = offset r) ->
  exists desc, mmap_desc x (u64 (va - base_va r + base_pa r)) level = Some desc /\ desc <> UNSET_DESC /\ entry_ok ts n n level desc va.
Proof.
  intros Hr Hc Hl Hb Hva Ha Hy. pose proof (lsz_bounds level Hl) as Hbd. destruct Hall as [[F _] _ Ty Pa _ Bl].
  rewrite Forall_forall in F, Ty, Pa. pose proof (F _ Hr) as Or. pose proof (Pa _ Hr) as Hpa. destruct Or as [P V S (A1 & A2 & A3)].
  unfold covers in Hc. rewrite wrap_small by lia. set (pa := va - base_va r + base_pa r).
  assert (pa mod lsz level = 0 /\ (level = 3 \/ 1 <= level < 3)) as [Hpm Hlv].
  { subst pa. replace (va - base_va r + base_pa r) with (va + (base_pa r - base_va r)) by lia. rewrite mod_add_l by (done || lia).
    destruct (decide (level = 3)) as [->|]; [split; [change (lsz 3) with 4096; dlia|by left]|].
    destruct (Bl r level va) as [? ?]; [done|lia|done|done|]. split; [done|right; lia]. }
  assert (page_addr pa) as Hp.
  { split; [subst pa; lia|]. destruct (lsz_pages level Hl) as [k Ek]. rewrite Ek in Hpm. assert (0 < k) by lia.
    rewrite <- (mod_mod_mul pa 4096 k), Hpm by lia. done. }
  destruct (Hy va) as (r0 & Er0 & Ex & _); [unfold in_area; lia|]. apply region_at_elem in Er0 as [Er0 _].
  destruct (mmap_desc_bits x pa level) as (c & E & Hm & Hd & H10 & H0 & H1 & Hcb); [rewrite <- Ex; by apply Ty|].
  exists (Z.lor pa c). split; [done|]. split.
  - rewrite desc_sum by done. unfold UNSET_DESC. destruct Hp. lia.
  - intros read _ y Hya. rewrite walk_leaf, (leaf_value level pa c y va), Hd by (done || rewrite ?desc_bit by (done || lia); done || lia).
    destruct (Hy y Hya) as (r' & Er' & Ex' & Eo). unfold mapping. rewrite Er'. cbn. rewrite Ex'. apply region_at_elem in Er' as [Er' Ec'].
    do 2 f_equal. symmetry. unfold in_area in Hya. apply (same_offset r); [by apply F|by apply F|done|lia|lia|done].
Qed.

(** ** Tables *)
Lemma lsz_succ level : 0 <= level < 3 -> lsz level = 512 * lsz (level + 1).
Proof. intros Hl. unfold lsz. replace (39 - 9 * level) with (9 + (39 - 9 * (level + 1))) by lia. by rewrite Z.pow_add_r by lia. Qed.
Lemma lsz_pos level : 0 <= level <= 3 -> 0 < lsz level.
Proof. intros Hl. pose proof (lsz_bounds level Hl). lia. Qed.

(** The first [cnt] entries of the table [tb] map the area at [va]. *)
Definition table_ok (ts : list (list Z)) (lo hi : nat) (tb : list Z) (level va : Z) (cnt : nat) : Prop :=
  forall k, (k < cnt)%nat -> exists desc, tb !! k = Some desc /\ entry_ok ts lo hi level desc (va + Z.of_nat k * lsz level).

Lemma table_mono ts ts' lo hi hi' tb level va cnt : (hi <= hi')%nat -> (forall m, (lo <= m < hi)%nat -> ts' !! m = ts !! m) ->
  table_ok ts lo hi tb level va cnt -> table_ok ts' lo hi' tb level va cnt.
Proof. intros Hhi Hs T k Hk. destruct (T k Hk) as (d & E & O). exists d. split; [done|]. by eapply entry_mono. Qed.

Lemma table_addr_page n : (n < MAX_XLAT_TABLES)%nat -> page_addr (table_addr n).
Proof.
  intros Hn. destruct law_tables as (? & Ha & ?). unfold page_addr, table_addr. change XLAT_TABLE_SIZE with 4096.
  split; [lia|]. by rewrite Z.mod_add by lia.
Qed.

Lemma entry_index level va y : 0 <= level < 3 -> 0 <= va -> va mod lsz level = 0 -> in_area va (lsz level) y ->
  (y / lsz (level + 1)) mod 512 = (y - va) / lsz (level + 1) /\ 0 <= (y - va) / lsz (level + 1) < 512.
Proof.
  intros Hl Hv Ha Hy. pose proof (lsz_pos (level + 1) ltac:(lia)) as Hp. rewrite (lsz_succ level) in Ha, Hy by done.
  unfold in_area in Hy. apply Z.mod_divide in Ha as [q ->]; [|lia].
  assert (0 <= (y - q * (512 * lsz (level + 1))) / lsz (level + 1) < 512) as Hb.
  { split; [apply Z.div_pos; lia|apply Z.div_lt_upper_bound; lia]. }
  split; [|done]. replace y with ((y - q * (512 * lsz (level + 1))) + (q * 512) * lsz (level + 1)) at 1 by lia.
  rewrite Z.div_add, Z.mod_add by lia. by apply Z.mod_small.
Qed.

Lemma table_entry_ok ts n hi tb level va : (n < MAX_XLAT_TABLES)%nat -> (n < hi)%nat -> 0 <= level < 3 -> 0 <= va -> va mod lsz level = 0 ->
  ts !! n = Some tb -> table_ok ts (S n) hi tb (level + 1) va 512 -> entry_ok ts n hi level (Z.lor TABLE_DESC (table_addr n)) va.
Proof.
  intros Hn Hhi Hl Hv Ha Htb T read Hr y Hy. pose proof (table_addr_page n Hn) as Hp. rewrite Z.lor_comm.
  replace (Z.to_nat (3 - level)) with (S (Z.to_nat (3 - (level + 1)))) by lia. cbn [walk].
  rewrite !desc_bit by (done || lia). cbn [TABLE_DESC Z.testbit]. destruct (Z.eqb_spec level 3); [lia|].
  change 4096 with (lsz 3). rewrite (desc_parts 3) by (done || lia || apply Hp).
  destruct (entry_index level va y Hl Hv Ha Hy) as [-> Hk]. set (k := (y - va) / lsz (level + 1)) in *.
  destruct (T (Z.to_nat k)) as (d & Ed & Od); [lia|]. rewrite Hr by lia. rewrite Htb. cbn [mbind option_bind]. rewrite Ed.
  apply Od; [intros m i Hm; apply Hr; lia|]. rewrite Z2Nat.id by lia. pose proof (lsz_pos (level + 1) ltac:(lia)) as Hlp.
  pose proof (Z.mul_div_le (y - va) (lsz (level + 1)) Hlp). pose proof (Z.mul_succ_div_gt (y - va) (lsz (level + 1)) Hlp).
  fold k in H0, H1. unfold in_area. lia.
Qed.

(** ** Counting tables *)

(** The first and the last address, plus one, of every region. *)
Definition cuts (l : list mmap_region) : list Z := l ≫= (fun r => [base_va r; base_va r + size r]).
(** The areas of a level that a cut between [lo] and [hi] divides, and their number from
    [level] to 2: each needs a table. *)
Definition divided (level lo hi : Z) : gset Z :=
  list_to_set ((fun b => b / lsz level) <$> filter (fun b => lo < b < hi /\ b mod lsz level <> 0) (cuts all)).
Definition tables_needed (level lo hi : Z) : nat := sum_list ((fun l => base.size (divided l lo hi)) <$> seqZ level (3 - level)).

Lemma elem_divided level lo hi q : q ∈ divided level lo hi <-> exists b, b ∈ cuts all /\ lo < b < hi /\ b mod lsz level <> 0 /\ q = b / lsz level.
Proof.
  unfold divided. rewrite elem_of_list_to_set, list_elem_of_fmap. setoid_rewrite list_elem_of_filter.
  split; [intros (b & -> & (? & ?) & ?)|intros (b & ? & ? & ? & ->)]; exists b; auto.
Qed.
Lemma needed_succ level lo hi : level < 3 -> tables_needed level lo hi = (base.size (divided level lo hi) + tables_needed (level + 1) lo hi)%nat.
Proof. intros Hl. unfold tables_needed. rewrite seqZ_cons by lia. cbn. do 4 f_equal; lia. Qed.
Lemma lsz_multiple level l x : 0 <= level <= l -> l <= 3 -> x mod lsz level = 0 -> x mod lsz l = 0.
Proof.
  intros Hl Hl3 Hx. assert (lsz level = lsz l * 2 ^ (9 * (l - level))) as E.
  { unfold lsz. rewrite <- Z.pow_add_r by lia. f_equal. lia. }
  rewrite E in Hx. rewrite <- (mod_mod_mul x (lsz l) (2 ^ (9 * (l - level)))), Hx by (apply lsz_pos || apply Z.pow_pos_nonneg; lia). done.
Qed.
Lemma divided_split level lo mid hi : 0 <= level <= 3 -> mid mod lsz level = 0 -> lo <= mid <= hi ->
  (base.size (divided level lo mid) + base.size (divided level mid hi) <= base.size (divided level lo hi))%nat.
Proof.
  intros Hl Hmid Hm. pose proof (lsz_pos level Hl) as Hp. rewrite <- size_union.
  - apply subseteq_size. intros q. rewrite elem_of_union, !elem_divided. intros [(b & ? & ? & ? & ?)|(b & ? & ? & ? & ?)]; exists b; intuition lia.
  - intros q. rewrite !elem_divided. intros (b & _ & Hb & _ & ->) (b' & _ & Hb' & _ & E). apply Z.mod_divide in Hmid as [m ->]; [|lia].
    pose proof (Z.div_lt_upper_bound b (lsz level) m Hp ltac:(lia)). pose proof (Z.div_le_lower_bound b' (lsz level) m Hp ltac:(lia)). lia.
Qed.
Lemma needed_split level lo mid hi : 0 <= level <= 3 -> mid mod lsz level = 0 -> lo <= mid <= hi ->
  (tables_needed level lo mid + tables_needed level mid hi <= tables_needed level lo hi)%nat.
Proof.
  intros Hl Hmid Hm. unfold tables_needed.
  assert (forall l, l ∈ seqZ level (3 - level) -> (base.size (divided l lo mid) + base.size (divided l mid hi) <= base.size (divided l lo hi))%nat) as Hd.
  { intros l Hin%elem_of_seqZ. apply divided_split; [lia| |done]. apply (lsz_multiple level); (done || lia). }
  induction (seqZ level (3 - level)) as [|l k IH]; [cbn; lia|]. pose proof (Hd l ltac:(by left)).
  specialize (IH ltac:(intros; apply Hd; by right)). rewrite !fmap_cons. cbn [sum_list_with id]. lia.
Qed.
Lemma inside_unaligned level va b : 0 <= level <= 3 -> va mod lsz level = 0 -> va < b < va + lsz level -> b mod lsz level <> 0.
Proof. intros Hl Ha Hb. rewrite (area_offset level va b) by (done || unfold in_area; lia). lia. Qed.
Lemma needed_child level va b : 0 <= level < 3 -> va mod lsz level = 0 -> b ∈ cuts all -> va < b < va + lsz level ->
  (S (tables_needed (level + 1) va (va + lsz level)) <= tables_needed level va (va + lsz level))%nat.
Proof.
  intros Hl Ha Hb Hin. rewrite (needed_succ level) by lia. enough (base.size (divided level va (va + lsz level)) <> 0)%nat by lia.
  apply size_non_empty_iff. intros E. assert (b / lsz level ∈ divided level va (va + lsz level)) as Hx.
  { apply elem_divided. exists b. split; [done|]. split; [done|]. split; [|done]. apply (inside_unaligned level va); done || lia. }
  apply (not_elem_of_empty (C := gset Z) (b / lsz level)). by rewrite <- E.
Qed.
(** A region that covers an area in part has an end inside it. *)
Lemma partial_cut r va sz : r ∈ all -> overlaps r va sz -> ~ covers r va sz -> exists b, b ∈ cuts all /\ va < b < va + sz.
Proof.
  intros Hr Ho Hc. assert (forall b, b ∈ [base_va r; base_va r + size r] -> b ∈ cuts all) as Hin.
  { intros b Hb. unfold cuts. apply list_elem_of_bind. eauto. }
  unfold overlaps, covers in *. destruct (decide (va < base_va r)); [exists (base_va r)|exists (base_va r + size r)]; (split; [|lia]);
    apply Hin; [by left|right; by left].
Qed.
End build.
End XlatWalk.
