(* ===== verification/XlatBuild.v ===== *)
(** * Translation tables: the builder is total and correct

    By induction on the levels and, inside a table, on the loop: with enough tables the
    builder fills every entry, each entry maps its area as the regions say, and it uses no
    more tables than [tables_needed] counts. *)

From Stdlib Require Import ZArith Lia.
From stdpp Require Import base option list numbers sorting.
From S2P Require Import Prelude CMonad Xlat XlatProps XlatWalk.
Import Xlat XlatProps XlatWalk.
Open Scope Z_scope.

Module XlatBuild.

Section build.
Context `{L : XlatLaws} (all : list mmap_region) (Hall : mappable all).
Implicit Types (s : xlat) (t : table_ref) (pre ms k : list mmap_region).

(** ** The state *)
Definition get_table s t : option (list Z) :=
  match t with Base => Some (base_xlation_table s) | Inner n => xlat_tables s !! n end.
Definition put_table t (tb : list Z) s : xlat :=
  match t with Base => set_base tb s | Inner n => set_tables (<[n := tb]> (xlat_tables s)) s end.
(** Tables below a table have larger numbers. *)
Definition lo t : nat := match t with Base => 0 | Inner n => S n end.

(** What changes when the table [t] and tables not yet in use are written. *)
Record frame t s s' : Prop := {
  fr_next : (next_xlat s <= next_xlat s')%nat;
  fr_tables : forall m, (m < next_xlat s)%nat -> t <> Inner m -> xlat_tables s' !! m = xlat_tables s !! m;
  fr_length : length <$> xlat_tables s' = length <$> xlat_tables s;
  fr_base_length : length (base_xlation_table s') = length (base_xlation_table s);
  fr_base : t <> Base -> base_xlation_table s' = base_xlation_table s;
  fr_rest : mmap s' = mmap s /\ xlat_max_pa s' = xlat_max_pa s /\ xlat_max_va s' = xlat_max_va s
}.
Lemma frame_refl t s : frame t s s.
Proof. by constructor. Qed.
Lemma frame_trans t s1 s2 s3 : frame t s1 s2 -> frame t s2 s3 -> frame t s1 s3.
Proof.
  intros [N1 T1 L1 B1 C1 (R1 & R2 & R3)] [N2 T2 L2 B2 C2 (R4 & R5 & R6)]. constructor; try congruence.
  - lia.
  - intros m Hm Ht. rewrite T2 by (done || lia). by apply T1.
  - intros Ht. rewrite C2, C1; done.
  - repeat split; congruence.
Qed.
(** A finer table is filled: to the table above only new tables change. *)
Lemma frame_child t s s' : (lo t <= next_xlat s)%nat -> frame (Inner (next_xlat s)) (set_next (S (next_xlat s)) s) s' -> frame t s s'.
Proof.
  intros Hlo [N1 T1 L1 B1 C1 R1]. cbn in *. constructor; try done.
  - lia.
  - intros m Hm _. apply T1; [lia|]. intros [= E]. lia.
  - intros _. by apply C1.
Qed.
Lemma frame_put t s tb tb' : get_table s t = Some tb -> length tb' = length tb -> frame t s (put_table t tb' s).
Proof.
  intros Hg Hl. destruct t as [|n]; cbn in *; constructor; cbn; try done.
  - congruence.
  - intros m _ Hm. apply list_lookup_insert_ne. congruence.
  - rewrite list_fmap_insert, Hl. apply list_insert_id. by rewrite list_lookup_fmap, Hg.
Qed.
Lemma get_put t tb s : is_Some (get_table s t) -> get_table (put_table t tb s) t = Some tb.
Proof. destruct t; cbn; [done|]. intros [? ?]. apply list_lookup_insert_eq. by eapply lookup_lt_Some. Qed.
Lemma put_tables t tb s m : t <> Inner m -> xlat_tables (put_table t tb s) !! m = xlat_tables s !! m.
Proof. destruct t; cbn; [done|]. intros. apply list_lookup_insert_ne. congruence. Qed.
Lemma put_next t tb s : next_xlat (put_table t tb s) = next_xlat s.
Proof. by destruct t. Qed.

Lemma wp_set_entry t i desc tb s (Q : unit -> xlat -> Prop) : get_table s t = Some tb -> (i < length tb)%nat ->
  Q tt (put_table t (<[i := desc]> tb) s) -> wp (set_entry t i desc) Q s.
Proof.
  intros Hg Hi HQ. assert (bool_decide (i < length tb)%nat = true) as Hb by (by apply bool_decide_eq_true).
  destruct t as [|n]; cbn in Hg; unfold set_entry.
  - injection Hg as <-. repeat wp_step. apply wp_massert; [by apply Nat.ltb_lt|]. repeat wp_step. done.
  - repeat wp_step. apply (wp_must _ tb); [done|]. repeat wp_step. apply wp_massert; [by apply Nat.ltb_lt|]. repeat wp_step. done.
Qed.

(** ** The areas of a table *)
Record table_area (level tva : Z) (cnt : nat) : Prop := {
  ta_level : XLAT_TABLE_LEVEL_BASE <= level <= 3;
  ta_range : 0 <= tva /\ tva + Z.of_nat cnt * lsz level <= 2 ^ 48;
  ta_aligned : tva mod lsz level = 0;
  ta_more : forall j, (1 <= j <= cnt)%nat -> another_area (tva + Z.of_nat j * lsz level) level = (j <? cnt)%nat
}.
Lemma base_level : 0 <= XLAT_TABLE_LEVEL_BASE <= 2.
Proof. unfold XLAT_TABLE_LEVEL_BASE. cases_bool; lia. Qed.
Lemma space_bounds : 2 ^ 25 <= ADDR_SPACE_SIZE <= 2 ^ 48.
Proof. destruct law_space as (w & Hw & ->). split; apply Z.pow_le_mono_r; lia. Qed.
Lemma mask_ok level va : 0 <= level <= 3 -> Z.land va (level_index_mask level) = (va / lsz level) mod 512 * lsz level.
Proof.
  intros Hl. assert (level_index_mask level = Z.shiftl (Z.ones 9) (39 - 9 * level)) as -> by (by apply level_cases in Hl as [->|[->|[->| ->]]]).
  rewrite <- (Z.shiftl_mul_pow2 _ (39 - 9 * level)) by lia. unfold lsz. rewrite <- Z.shiftr_div_pow2 by lia.
  change 512 with (2 ^ 9). rewrite <- Z.land_ones by lia. rewrite Z.shiftl_land. apply Z.bits_inj'. intros n Hn. rewrite !Z.land_spec.
  destruct (Z_lt_le_dec n (39 - 9 * level)).
  - rewrite !(Z.shiftl_spec_low _ _ n) by done. by rewrite !andb_false_r.
  - rewrite !Z.shiftl_spec by lia. rewrite Z.shiftr_spec by lia. do 2 f_equal. lia.
Qed.
Lemma another_ok level va : 0 <= level <= 3 -> 1 <= va <= 2 ^ 48 ->
  another_area va level = negb ((va / lsz level) mod 512 =? 0) && (va <? ADDR_SPACE_SIZE).
Proof.
  intros Hl Hv. unfold another_area. rewrite mask_ok by done. pose proof (lsz_pos level Hl). pose proof space_bounds.
  rewrite wrap_small by lia. f_equal; [|destruct (Z.ltb_spec va ADDR_SPACE_SIZE), (Z.ltb_spec (va - 1) (ADDR_SPACE_SIZE - 1)); lia].
  destruct (Z.eqb_spec ((va / lsz level) mod 512 * lsz level) 0), (Z.eqb_spec ((va / lsz level) mod 512) 0); try done; nia.
Qed.
Lemma inner_area level va : XLAT_TABLE_LEVEL_BASE <= level < 3 -> 0 <= va -> va mod lsz level = 0 -> va + lsz level <= ADDR_SPACE_SIZE ->
  table_area (level + 1) va 512.
Proof.
  intros Hl Hv Ha He. pose proof base_level as Hb. pose proof space_bounds as Hs. pose proof (lsz_pos (level + 1) ltac:(lia)) as Hp.
  rewrite (lsz_succ level) in * by lia. apply Z.mod_divide in Ha as [q ->]; [|lia]. constructor.
  - lia.
  - lia.
  - rewrite Z.mul_assoc. apply Z.mod_mul. lia.
  - intros j Hj. rewrite another_ok by nia.
    replace (q * (512 * lsz (level + 1)) + Z.of_nat j * lsz (level + 1)) with ((q * 512 + Z.of_nat j) * lsz (level + 1)) by lia.
    rewrite Z.div_mul by lia. rewrite Z.add_comm, Z.mod_add by lia. destruct (Nat.ltb_spec j 512).
    + rewrite Z.mod_small by lia. destruct (Z.eqb_spec (Z.of_nat j) 0); [lia|]. cbn. apply Z.ltb_lt. nia.
    + replace j with 512%nat by lia. done.
Qed.
Lemma base_entries : exists n, NUM_BASE_LEVEL_ENTRIES = Z.of_nat n /\ (1 <= n <= 512)%nat /\ Z.of_nat n * lsz XLAT_TABLE_LEVEL_BASE = ADDR_SPACE_SIZE.
Proof.
  destruct law_space as (w & Hw & E). unfold NUM_BASE_LEVEL_ENTRIES, XLAT_TABLE_LEVEL_BASE. rewrite E.
  change (Z.shiftl 1 L0_XLAT_ADDRESS_SHIFT) with (2 ^ 39). change (Z.shiftl 1 L1_XLAT_ADDRESS_SHIFT) with (2 ^ 30).
  assert (forall a, 0 <= a <= w -> w <= a + 9 -> exists n, Z.shiftr (2 ^ w) a = Z.of_nat n /\ (1 <= n <= 512)%nat /\ Z.of_nat n * 2 ^ a = 2 ^ w) as G.
  { intros a Ha Hd. exists (Z.to_nat (2 ^ (w - a))). rewrite Z.shiftr_div_pow2, <- Z.pow_sub_r, Z2Nat.id by lia.
    assert (1 <= 2 ^ (w - a) <= 512). { change 512 with (2 ^ 9). split; [lia|apply Z.pow_le_mono_r; lia]. }
    split; [done|]. split; [lia|]. rewrite <- Z.pow_add_r by lia. f_equal. lia. }
  destruct (Z.ltb_spec (2 ^ 39) (2 ^ w)) as [H1|H1]; [|destruct (Z.ltb_spec (2 ^ 30) (2 ^ w)) as [H2|H2]].
  - apply Z.pow_lt_mono_r_iff in H1; [|lia..]. apply (G 39); lia.
  - apply Z.pow_lt_mono_r_iff in H2; [|lia..]. apply Z.pow_le_mono_r_iff in H1; [|lia..]. apply (G 30); lia.
  - apply Z.pow_le_mono_r_iff in H2; [|lia..]. apply (G 21); lia.
Qed.
Lemma base_area n : (1 <= n <= 512)%nat -> Z.of_nat n * lsz XLAT_TABLE_LEVEL_BASE = ADDR_SPACE_SIZE -> table_area XLAT_TABLE_LEVEL_BASE 0 n.
Proof.
  intros Hn He. pose proof base_level as Hb. assert (0 < lsz XLAT_TABLE_LEVEL_BASE) as Hp by (apply lsz_pos; lia).
  pose proof space_bounds as Hs. constructor.
  - lia.
  - lia.
  - apply Z.mod_0_l. lia.
  - intros j Hj. rewrite Z.add_0_l, another_ok by nia. rewrite Z.div_mul by lia. destruct (Nat.ltb_spec j n).
    + rewrite Z.mod_small by lia. destruct (Z.eqb_spec (Z.of_nat j) 0); [lia|]. cbn. apply Z.ltb_lt. nia.
    + replace j with n by lia. rewrite He. rewrite (proj2 (Z.ltb_ge _ _)) by lia. by rewrite andb_false_r.
Qed.

(** ** The loop over a table *)
Definition sized s : Prop := length (xlat_tables s) = MAX_XLAT_TABLES /\ Forall (fun tb => length tb = 512%nat) (xlat_tables s).
Lemma frame_sized t s s' : frame t s s' -> sized s -> sized s'.
Proof.
  intros F [Hl Hf]. pose proof (fr_length _ _ _ F) as E. split.
  - rewrite <- (length_fmap length), E. by rewrite length_fmap.
  - rewrite Forall_forall in *. intros tb (m & Hm)%list_elem_of_lookup. apply (f_equal (.!! m)) in E. rewrite !list_lookup_fmap, Hm in E.
    cbn in E. destruct (xlat_tables s !! m) as [tb0|] eqn:E0; [|done]. cbn in E. injection E as ->. apply Hf. by eapply list_elem_of_lookup_2.
Qed.
Lemma frame_get t s s' tb : frame t s s' -> get_table s t = Some tb -> exists tb', get_table s' t = Some tb' /\ length tb' = length tb.
Proof.
  intros F. destruct t as [|n]; cbn.
  - intros [= <-]. eexists. split; [done|]. by destruct F.
  - intros Hn. pose proof (f_equal (.!! n) (fr_length _ _ _ F)) as E. rewrite !list_lookup_fmap, Hn in E. cbn in E.
    destruct (xlat_tables s' !! n) as [tb'|]; [|done]. exists tb'. cbn in E. by injection E.
Qed.

Abbreviation end_by va := (fun r => base_va r + size r <= va).
Abbreviation needed := (tables_needed all).
(** The pointer is [ms], and no region before it reaches beyond [va]. *)
Definition pointer pre ms (va : Z) : Prop := pre ++ ms = all /\ Forall (end_by va) pre.
Definition not_passed ms (va : Z) : Prop := forall r, head ms = Some r -> va < base_va r + size r.

(** The table [t] has been filled. *)
Definition filled t (level tva : Z) (cnt : nat) k len (budget : nat) s (mm : list mmap_region) s' : Prop :=
  exists pre ms tb, mm = ms ++ no_region :: k /\ pointer pre ms (tva + Z.of_nat cnt * lsz level) /\ (length ms <= len)%nat /\
    frame t s s' /\ (next_xlat s' <= next_xlat s + budget)%nat /\ get_table s' t = Some tb /\
    table_ok all (xlat_tables s') (lo t) (next_xlat s') tb level tva cnt.

Definition fills_child (level : Z) (recurse : list mmap_region -> Z -> nat -> M xlat (list mmap_region)) : Prop :=
  forall pre ms k va n s, pointer pre ms va -> not_passed ms va -> 0 <= va -> va mod lsz level = 0 -> va + lsz level <= ADDR_SPACE_SIZE ->
  next_xlat s = S n -> sized s -> (S n + needed (level + 1) va (va + lsz level) <= MAX_XLAT_TABLES)%nat ->
  wp (recurse (ms ++ no_region :: k) va n)
    (filled (Inner n) (level + 1) va 512 k (length ms) (needed (level + 1) va (va + lsz level)) s) s.

Section loop.
Context (level tva : Z) (cnt : nat) (t : table_ref) (recurse : list mmap_region -> Z -> nat -> M xlat (list mmap_region)).
Context (Harea : table_area level tva cnt) (Hspace : tva + Z.of_nat cnt * lsz level <= ADDR_SPACE_SIZE)
  (Hrec : level < 3 -> fills_child level recurse).
Abbreviation va i := (tva + Z.of_nat i * lsz level).

Record loop_inv (i : nat) pre ms s : Prop := {
  li_pointer : pointer pre ms (va i);
  li_i : (i < cnt)%nat;
  li_first : i = 0%nat -> not_passed ms (va i);
  li_lo : (lo t <= next_xlat s)%nat;
  li_sized : sized s;
  li_table : exists tb, get_table s t = Some tb /\ (cnt <= length tb)%nat /\
    table_ok all (xlat_tables s) (lo t) (next_xlat s) tb level tva i;
  li_need : (next_xlat s + needed level (va i) (va cnt) <= MAX_XLAT_TABLES)%nat
}.

Lemma va_S i : va i + lsz level = va (S i).
Proof. lia. Qed.
Lemma va_aligned i : va i mod lsz level = 0.
Proof. destruct Harea as [Hl _ Ha _]. pose proof base_level. rewrite Z.mod_add; [done|]. pose proof (lsz_pos level ltac:(lia)). lia. Qed.
Lemma lsz_level : 0 < lsz level.
Proof. pose proof base_level. destruct Harea as [? _ _ _]. apply lsz_pos. lia. Qed.
Lemma va_mono i j : (i <= j)%nat -> va i <= va j.
Proof. intros. pose proof lsz_level. nia. Qed.
Lemma loop_area i pre ms s : loop_inv i pre ms s -> at_area pre ms (va i) level.
Proof.
  intros [[Hp Hpre] Hi _ _ _ _ _]. destruct Hall as [W A _ _ _ _]. pose proof base_level. destruct Harea as [? ? ? _].
  pose proof lsz_level. pose proof (va_mono (S i) cnt Hi) as Hm. pose proof space_bounds. constructor; try (rewrite Hp; done).
  - lia.
  - split; nia.
  - apply va_aligned.
  - done.
Qed.

(** After the entry [i] has been written. *)
Lemma entry_written i s tb desc : (lo t <= next_xlat s)%nat -> get_table s t = Some tb -> (i < length tb)%nat ->
  table_ok all (xlat_tables s) (lo t) (next_xlat s) tb level tva i ->
  entry_ok all (xlat_tables s) (lo t) (next_xlat s) level desc (va i) ->
  let s' := put_table t (<[i := desc]> tb) s in
  frame t s s' /\ get_table s' t = Some (<[i := desc]> tb) /\ next_xlat s' = next_xlat s /\
  table_ok all (xlat_tables s') (lo t) (next_xlat s') (<[i := desc]> tb) level tva (S i).
Proof.
  intros Hlo Hg Hi Ht He. cbn zeta. split; [eapply frame_put; [done|by rewrite length_insert]|]. split; [apply get_put; by eauto|].
  split; [apply put_next|]. rewrite put_next. intros k Hk.
  assert (forall m, (lo t <= m < next_xlat s)%nat -> xlat_tables (put_table t (<[i := desc]> tb) s) !! m = xlat_tables s !! m) as Hs.
  { intros m Hm. apply put_tables. destruct t; cbn in Hm; [done|]. intros [= ->]. lia. }
  destruct (decide (k = i)) as [->|Hne].
  - exists desc. split; [by apply list_lookup_insert_eq|]. by eapply entry_mono; [| |done|].
  - destruct (Ht k) as (d & Ed & Od); [lia|]. exists d. split; [by rewrite list_lookup_insert_ne|]. by eapply entry_mono; [| |done|].
Qed.

Lemma table_kept i s s' tb : frame t s s' -> (lo t <= next_xlat s)%nat -> table_ok all (xlat_tables s) (lo t) (next_xlat s) tb level tva i ->
  table_ok all (xlat_tables s') (lo t) (next_xlat s') tb level tva i.
Proof.
  intros F Hlo. apply table_mono; [apply F|]. intros m Hm. apply (fr_tables _ _ _ F); [lia|]. destruct t; cbn in Hm; [done|]. intros [= ->]. lia.
Qed.

(** What the code does once the descriptor of the area is known. *)
Lemma after_entry fuel i pre ms pre' ms' k s s1 tb desc (Q : list mmap_region -> xlat -> Prop) :
  loop_inv i pre ms s -> pointer pre' ms' (va (S i)) -> (length ms' <= length ms)%nat -> frame t s s1 ->
  (next_xlat s1 <= next_xlat s + needed level (va i) (va (S i)))%nat -> get_table s1 t = Some tb -> (cnt <= length tb)%nat ->
  table_ok all (xlat_tables s1) (lo t) (next_xlat s1) tb level tva i ->
  entry_ok all (xlat_tables s1) (lo t) (next_xlat s1) level desc (va i) ->
  (forall s2, loop_inv (S i) pre' ms' s2 -> frame t s s2 -> (next_xlat s2 <= next_xlat s + needed level (va i) (va (S i)))%nat ->
     wp (table_loop recurse fuel (ms' ++ no_region :: k) (va (S i)) t (S i) level) Q s2) ->
  (S i = cnt -> forall s2, filled t level tva cnt k (length ms) (needed level (va i) (va cnt)) s (ms' ++ no_region :: k) s2 ->
     Q (ms' ++ no_region :: k) s2) ->
  wp (set_entry t i desc;;
      let va' := u64 (va i + level_size level) in
      if another_area va' level then table_loop recurse fuel (ms' ++ no_region :: k) va' t (S i) level else mret (ms' ++ no_region :: k)) Q s1.
Proof.
  intros I Hp Hlen F Hn Hg Hc Ht He Hgo Hstop. destruct I as [_ Hi _ Hlo Hsz _ Hneed].
  pose proof (fr_next _ _ _ F) as Hn0. pose proof base_level. destruct Harea as [? ? ? Hmore].
  wp_step. eapply wp_set_entry; [done|lia|]. cbn zeta.
  destruct (entry_written i s1 tb desc) as (F2 & Hg2 & Hn2 & Ht2); [lia|done|lia|done|done|].
  rewrite level_size_ok by lia. pose proof lsz_level. pose proof (va_mono (S i) cnt Hi) as Hm. rewrite va_S.
  rewrite wrap_small by nia. rewrite Hmore by lia. pose proof (frame_trans _ _ _ _ F F2) as F3.
  pose proof (needed_split all level (va i) (va (S i)) (va cnt) ltac:(lia) (va_aligned (S i)) (conj (va_mono i (S i) ltac:(lia)) Hm)) as Hsplit.
  destruct (Nat.ltb_spec (S i) cnt) as [Hlt|Hge].
  - apply Hgo; [|done|lia]. constructor; try done; try lia.
    + by eapply frame_sized.
    + eexists. split; [done|]. rewrite length_insert. split; [lia|done].
  - apply wp_ret. apply Hstop; [lia|]. replace cnt with (S i) by lia.
    exists pre', ms', (<[i := desc]> tb). split; [done|]. split; [done|]. split; [lia|]. split; [done|]. split; [lia|]. by split.
Qed.

Lemma filled_trans k len len' b b' s s1 mm s' : (len' <= len)%nat -> frame t s s1 -> (next_xlat s1 + b' <= next_xlat s + b)%nat ->
  filled t level tva cnt k len' b' s1 mm s' -> filled t level tva cnt k len b s mm s'.
Proof.
  intros Hl F Hb (pre & ms & tb & -> & Hp & Hlen & F' & Hn & Hg & Ht). exists pre, ms, tb.
  split; [done|]. split; [done|]. split; [lia|]. split; [by eapply frame_trans|]. split; [lia|]. done.
Qed.
Lemma pointer_mono pre ms a b : a <= b -> pointer pre ms a -> pointer pre ms b.
Proof. intros Hab [E F]. split; [done|]. eapply Forall_impl; [done|]. cbn. lia. Qed.
Lemma child_get s s' tb : (lo t <= next_xlat s)%nat -> frame (Inner (next_xlat s)) (set_next (S (next_xlat s)) s) s' -> get_table s t = Some tb ->
  get_table s' t = Some tb.
Proof.
  intros Hlo F. destruct t as [|m]; cbn in *.
  - intros [= <-]. f_equal. by apply (fr_base _ _ _ F).
  - intros <-. apply (fr_tables _ _ _ F); cbn; [lia|]. intros [= E]. lia.
Qed.

Lemma table_loop_ok fuel : forall i pre ms k s, loop_inv i pre ms s -> (cnt - i + length ms <= fuel)%nat ->
  wp (table_loop recurse fuel (ms ++ no_region :: k) (va i) t i level)
    (filled t level tva cnt k (length ms) (needed level (va i) (va cnt)) s) s.
Proof.
  induction fuel as [|fuel IH]; intros i pre ms k s I Hfuel; [destruct I; lia|].
  pose proof (loop_area _ _ _ _ I) as Ha. pose proof (area_of_ok pre ms k (va i) level Ha) as C.
  pose proof (va_S i) as HS. pose proof (va_mono (S i) cnt (li_i _ _ _ _ I)) as Hm. pose proof lsz_level as Hlz. pose proof (li_i _ _ _ _ I) as Hi.
  destruct (li_table _ _ _ _ I) as (tb & Hg & Hc & Ht). pose proof (li_pointer _ _ _ _ I) as Hp.
  assert (forall s2, loop_inv (S i) pre ms s2 -> frame t s s2 -> (next_xlat s2 <= next_xlat s + needed level (va i) (va (S i)))%nat ->
     wp (table_loop recurse fuel (ms ++ no_region :: k) (va (S i)) t (S i) level)
       (filled t level tva cnt k (length ms) (needed level (va i) (va cnt)) s) s2) as Hgo.
  { intros s2 I2 F2 Hn2. eapply wp_mono; [apply (IH (S i) pre ms k s2 I2); lia|]. intros mm s3 Hf.
    eapply filled_trans; [| exact F2| |exact Hf]; [done|].
    pose proof (needed_split all level (va i) (va (S i)) (va cnt) (area_level _ _ _ _ Ha) (va_aligned (S i)) ltac:(lia)). lia. }
  cbn [table_loop]. apply wp_bind. remember (area_of (ms ++ no_region :: k) (va i) level) as o eqn:Eo. clear Eo.
  destruct C as [r ms' -> Hend|Hempty|r x Hr Hcov Hx Hall'|r Hl Hr Hov Hnc Hhd].
  - (* the region ends before the area *)
    apply (wp_must _ NextRegion); [done|]. cbn [tail app]. destruct i as [|i].
    { pose proof (li_first _ _ _ _ I eq_refl r eq_refl). lia. }
    rewrite (ta_more _ _ _ Harea) by (destruct I; lia). rewrite (proj2 (Nat.ltb_lt _ _)) by apply I.
    eapply wp_mono; [apply (IH (S i) (pre ++ [r]) ms' k s)|].
    + destruct I as [[E F] _ Hf Hlo Hsz Htb Hn]. constructor; try done.
      split; [by rewrite <- app_assoc|]. apply Forall_app. split; [done|]. by repeat constructor.
    + cbn in Hfuel. lia.
    + intros mm s3. apply filled_trans; [cbn; lia|apply frame_refl|lia].
  - (* nothing is mapped *)
    apply (wp_must _ (Desc INVALID_DESC)); [done|]. apply wp_bind. change (INVALID_DESC =? UNSET_DESC) with false. apply wp_ret.
    eapply (after_entry fuel i pre ms pre ms k s s tb); [done| |done|apply frame_refl|lia|done|done|done| |exact Hgo|].
    + eapply pointer_mono; [|done]. lia.
    + eapply (entry_mono all _ _ (next_xlat s)); [apply I|done|done|]. apply invalid_ok. destruct Hp as [<- _]. done.
    + by intros <- s2 Hf.
  - (* a block or page *)
    destruct (leaf_ok all Hall (xlat_tables s) (next_xlat s) r x (va i) level) as (desc & E & Hd & He).
    + by destruct Hp as [<- _].
    + done.
    + apply Ha.
    + apply Harea.
    + apply Ha.
    + apply va_aligned.
    + by destruct Hp as [<- _].
    + rewrite E. apply (wp_must _ (Desc desc)); [done|]. apply wp_bind. destruct (Z.eqb_spec desc UNSET_DESC); [done|]. apply wp_ret.
      eapply (after_entry fuel i pre ms pre ms k s s tb); [done| |done|apply frame_refl|lia|done|done|done| |exact Hgo|].
      * eapply pointer_mono; [|done]. lia.
      * eapply (entry_mono all _ _ (next_xlat s)); [apply I|done|done|done].
      * by intros <- s2 Hf.
  - (* a finer table *)
    pose proof I as [_ _ _ Hlo Hsz _ Hneed]. pose proof (va_aligned i) as Hva. assert (0 <= level < 3) as Hl3 by (split; [apply Ha|done]).
    destruct (partial_cut all r (va i) (lsz level)) as (b & Hb & Hbin); [by destruct Hp as [<- _]|done|done|].
    pose proof (needed_child all level (va i) b Hl3 Hva Hb Hbin) as Hch. rewrite HS in Hch.
    pose proof (needed_split all level (va i) (va (S i)) (va cnt) (area_level _ _ _ _ Ha) (va_aligned (S i)) ltac:(lia)) as Hspl.
    apply (wp_must _ (Desc UNSET_DESC)); [done|]. change (UNSET_DESC =? UNSET_DESC) with true. do 2 apply wp_bind.
    apply wp_gets. apply wp_bind, wp_modify, wp_bind, wp_massert; [apply Nat.leb_le; lia|]. apply wp_bind.
    eapply wp_mono; [apply (Hrec Hl pre ms k (va i) (next_xlat s) (set_next (S (next_xlat s)) s)); try done|].
    + apply Ha.
    + lia.
    + rewrite HS. lia.
    + intros mm s1 (pre' & ms' & tbc & -> & Hp' & Hlen & F & Hn & Hgc & Htc). cbn [next_xlat set_next] in Hn. rewrite HS in Hn.
      apply wp_ret. pose proof (frame_child t s s1 Hlo F) as F'. pose proof (fr_next _ _ _ F) as Hn1. cbn in Hn1.
      assert (Z.of_nat 512 * lsz (level + 1) = lsz level) as E512 by (rewrite (lsz_succ level) by done; lia). rewrite E512, HS in Hp'.
      eapply (after_entry fuel i pre ms pre' ms' k s s1 tb);
        [done|done|done|done|lia|by apply (child_get s s1)|done|by apply (table_kept i s s1)| | |].
      * apply (entry_mono all (xlat_tables s1) (xlat_tables s1) (next_xlat s) (lo t) (next_xlat s1) (next_xlat s1)); [done|done|done|].
        apply (table_entry_ok all _ _ _ tbc); [lia|lia|done|apply Ha|done|exact Hgc|exact Htc].
      * intros s2 I2 F2 Hn2. eapply wp_mono; [apply (IH (S i) pre' ms' k s2 I2); lia|]. intros mm s3 Hf.
        eapply filled_trans; [exact Hlen|exact F2| |exact Hf]. lia.
      * by intros <- s2 Hf.
Qed.
End loop.

(** ** The recursion *)
Lemma inner_ok depth : forall level va cnt t tb pre ms k s, 4 - level <= Z.of_nat depth -> table_area level va cnt -> (0 < cnt <= 512)%nat ->
  va + Z.of_nat cnt * lsz level <= ADDR_SPACE_SIZE -> pointer pre ms va -> not_passed ms va ->
  (lo t <= next_xlat s)%nat -> sized s -> get_table s t = Some tb -> (cnt <= length tb)%nat ->
  (next_xlat s + needed level va (va + Z.of_nat cnt * lsz level) <= MAX_XLAT_TABLES)%nat ->
  wp (init_xlation_table_inner depth (ms ++ no_region :: k) va t level)
    (filled t level va cnt k (length ms) (needed level va (va + Z.of_nat cnt * lsz level)) s) s.
Proof.
  induction depth as [|depth IH]; intros level va cnt t tb pre ms k s Hd Ha Hcnt Hsp Hp Hnp Hlo Hsz Hg Hlen Hneed.
  { destruct Ha as [? _ _ _]. lia. }
  pose proof base_level as Hbl. pose proof (ta_level _ _ _ Ha) as Hlv. cbn [init_xlation_table_inner]. apply wp_bind, wp_massert.
  { unfold XLAT_TABLE_LEVEL_MIN, XLAT_TABLE_LEVEL_MAX. rewrite andb_true_iff, !Z.leb_le. lia. }
  pose proof (table_loop_ok level va cnt t (fun mm va n => init_xlation_table_inner depth mm va (Inner n) (level + 1)) Ha Hsp) as Hloop.
  assert (va + Z.of_nat 0 * lsz level = va) as E0 by lia.
  match type of Hloop with ?P -> _ => assert P as Hchild end.
  { intros Hl3 pre' ms' k' va' n s' Hp' Hnp' Hv' Hm' Hs' Hn' Hsz' Hneed'.
    assert (is_Some (xlat_tables s' !! n)) as [tb' Htb'] by (apply lookup_lt_is_Some_2; destruct Hsz' as [-> _]; lia).
    assert (length tb' = 512%nat) as Hl'.
    { destruct Hsz' as [_ F]. rewrite Forall_forall in F. apply F. by eapply list_elem_of_lookup_2. }
    assert (Z.of_nat 512 * lsz (level + 1) = lsz level) as E512 by (rewrite (lsz_succ level) by lia; lia).
    rewrite <- E512 in Hneed' |- *. eapply (IH (level + 1) va' 512%nat (Inner n) tb'); try done; [lia|apply inner_area; done || lia|lia|..].
    - by rewrite E512.
    - cbn. lia.
    - lia.
    - by rewrite Hn'. }
  specialize (Hloop Hchild (Z.to_nat XLAT_TABLE_ENTRIES + length (ms ++ no_region :: k))%nat 0%nat pre ms k s). rewrite E0 in Hloop. apply Hloop.
  - constructor; rewrite ?E0; try done; try lia. exists tb. split; [done|]. split; [done|]. intros q Hq. lia.
  - rewrite length_app. cbn [length]. change (Z.to_nat XLAT_TABLE_ENTRIES) with 512%nat. lia.
Qed.

(** ** [init_xlat_tables] *)

(** The tables translate like the regions: from the base table, in every memory that holds
    the finer tables. *)
Definition tables_translate s : Prop :=
  exists n, (next_xlat s <= MAX_XLAT_TABLES)%nat /\ Z.of_nat n * lsz XLAT_TABLE_LEVEL_BASE = ADDR_SPACE_SIZE /\
    table_ok all (xlat_tables s) 0 (next_xlat s) (base_xlation_table s) XLAT_TABLE_LEVEL_BASE 0 n.

Lemma init_xlation_table_ok s k : mmap s = all ++ no_region :: k -> next_xlat s = 0%nat -> sized s ->
  length (base_xlation_table s) = Z.to_nat NUM_BASE_LEVEL_ENTRIES -> (needed XLAT_TABLE_LEVEL_BASE 0 ADDR_SPACE_SIZE <= MAX_XLAT_TABLES)%nat ->
  wp (init_xlation_table 0 Base XLAT_TABLE_LEVEL_BASE)
    (fun r s' => r = (xlat_max_va s, xlat_max_pa s) /\ tables_translate s' /\ mmap s' = mmap s /\
       xlat_max_va s' = xlat_max_va s /\ xlat_max_pa s' = xlat_max_pa s) s.
Proof.
  intros Hm Hn Hsz Hb Hneed. destruct base_entries as (n & En & Hn' & Esp). pose proof base_level as Hbl. unfold init_xlation_table.
  wp_step. apply wp_gets. rewrite Hm. wp_step. rewrite <- Esp in Hneed.
  eapply wp_mono; [apply (inner_ok 4 XLAT_TABLE_LEVEL_BASE 0 n Base (base_xlation_table s) [] all k s); try done|].
  - lia.
  - by apply base_area.
  - lia.
  - intros r Hr. destruct Hall as [[F _] _ _ _ _ _]. destruct all as [|r0 l]; [done|]. injection Hr as ->.
    apply Forall_cons in F as [[? ? ? _] _]. lia.
  - cbn. lia.
  - lia.
  - rewrite Hn. cbn. done.
  - intros mm s' (pre & ms & tb & _ & _ & _ & F & Hnx & Hg & Ht). repeat wp_step. destruct F as [F1 F2 F3 F4 F5 (F6 & F7 & F8)].
    rewrite F7, F8. split; [done|]. split; [|by rewrite F6]. exists n. cbn in Hg. injection Hg as ->. rewrite Z.add_0_l in Hnx.
    rewrite Hn in Hnx. split; [lia|]. by split.
Qed.
End build.
End XlatBuild.
