(* ===== verification/XlatSpec.v ===== *)
(** * What the translation tables guarantee

    The MMU as the registers configure it ([mmu_el3]), and the theorems: [mmap_add_region]
    keeps the list of regions, the MMU translates every address like the innermost region,
    and what the code does with full lists and unaligned mappings.  The Armada 8K's memory map
    for BL31 is the example. *)

From Stdlib Require Import ZArith Lia.
From stdpp Require Import base option list numbers sorting gmap.
From S2P Require Import Prelude CMonad Xlat XlatProps XlatWalk XlatBuild.
Import Xlat XlatProps XlatWalk XlatBuild.
Open Scope Z_scope.

Module XlatSpec.

(** ** The MMU at EL3 *)

(** A translation: physical address, memory attribute of the MAIR, security state of the
    address, permissions. *)
Record translation := Translation { tr_pa : Z; tr_memory : Z; tr_ns : bool; tr_write : bool; tr_exec : bool }.
(** The width of physical addresses that a value of TCR.PS allows. *)
Definition pa_bits (ps : Z) : Z :=
  if ps =? 0 then 32 else if ps =? 1 then 36 else if ps =? 2 then 40 else if ps =? 3 then 42 else if ps =? 4 then 44 else 48.
(** With the MMU on: TCR.T0SZ bounds the addresses and determines the first level, TTBR0
    points to its table, TCR.PS bounds the output, MAIR gives the memory attributes and
    SCTLR.WXN makes writable memory execute-never. *)
Definition mmu_el3 (r : regs) (read : Z -> Z -> option Z) (va : Z) : option translation :=
  if negb (Z.testbit (sctlr r) 0) then None else
  let width := 64 - field (tcr r) 0 6 in
  if negb ((0 <=? va) && (va <? 2 ^ width)) then None else
  let level := if 39 <? width then 0 else if 30 <? width then 1 else 2 in
  desc ← read (ttbr0 r) (va / lsz level);
  '(pa, a) ← walk (Z.to_nat (3 - level)) read level desc va;
  if pa <? 2 ^ pa_bits (field (tcr r) 16 3) then
    Some (Translation pa (field (mair r) (8 * acc_index a) 8) (acc_ns a) (acc_write a)
            (negb (acc_xn a) && negb (Z.testbit (sctlr r) 19 && acc_write a)))
  else None.
(** The entry [i] of the table at an address. *)
Definition read_table `{XlatConfig} (s : xlat) (addr i : Z) : option Z :=
  if (xlat_tables_addr <=? addr) && (addr <? xlat_tables_addr + Z.of_nat MAX_XLAT_TABLES * XLAT_TABLE_SIZE)
  then tb ← xlat_tables s !! Z.to_nat ((addr - xlat_tables_addr) / XLAT_TABLE_SIZE); tb !! Z.to_nat i
  else if addr =? base_xlation_table_addr then base_xlation_table s !! Z.to_nat i else None.

(** What a region asks for. *)
Definition region_translation (va : Z) (r : mmap_region) : translation :=
  let a := attr r in
  let device := MT_TYPE a =? MT_DEVICE in
  Translation (va - base_va r + base_pa r)
    (if device then ATTR_DEVICE else if MT_TYPE a =? MT_MEMORY then ATTR_IWBWA_OWBWA_NTR else ATTR_NON_CACHEABLE)
    (has a MT_NS) (has a MT_RW) (negb (device || has a MT_RW || has a MT_EXECUTE_NEVER)).

(** ** Physical address size *)
Lemma has_mask x lo hi : 0 <= lo <= hi -> 0 <= x < 2 ^ hi -> has x (Z.shiftl (Z.ones (hi - lo)) lo) = negb (x <? 2 ^ lo).
Proof.
  intros Hl Hx. unfold has. f_equal.
  assert (Z.land x (Z.shiftl (Z.ones (hi - lo)) lo) = Z.shiftl (x / 2 ^ lo) lo) as ->.
  { rewrite <- Z.shiftr_div_pow2 by lia. apply Z.bits_inj'. intros n Hn. rewrite Z.land_spec.
    destruct (Z_lt_le_dec n lo); [by rewrite !Z.shiftl_spec_low, andb_false_r by done|].
    rewrite !Z.shiftl_spec, Z.shiftr_spec, Z.testbit_ones by lia. replace (n - lo + lo) with n by lia.
    destruct (Z_lt_le_dec n hi).
    - rewrite (proj2 (Z.leb_le _ _)), (proj2 (Z.ltb_lt _ _)) by lia. by rewrite andb_true_r.
    - rewrite <- (Z.mod_small x (2 ^ hi)) by done. by rewrite Z.mod_pow2_bits_high by lia. }
  rewrite Z.shiftl_mul_pow2 by lia. assert (0 < 2 ^ lo) by lia. pose proof (Z.div_pos x (2 ^ lo) ltac:(lia) ltac:(lia)).
  destruct (Z.ltb_spec x (2 ^ lo)).
  - by rewrite Z.div_small by lia.
  - assert (1 <= x / 2 ^ lo) by (apply Z.div_le_lower_bound; lia). apply Z.eqb_neq. nia.
Qed.
Lemma calc_ok x : 0 <= x < 2 ^ 64 ->
  calc_physical_addr_size_bits x =
    if x <? 2 ^ 48 then Some (if x <? 2 ^ 32 then 0 else if x <? 2 ^ 36 then 1 else if x <? 2 ^ 40 then 2 else if x <? 2 ^ 42 then 3
      else if x <? 2 ^ 44 then 4 else 5) else None.
Proof.
  intros Hx. unfold calc_physical_addr_size_bits.
  change ADDR_MASK_48_TO_63 with (Z.shiftl (Z.ones (64 - 48)) 48). rewrite (has_mask x 48 64) by lia. destruct (Z.ltb_spec x (2 ^ 48)); [|done]. cbn [negb].
  change ADDR_MASK_44_TO_47 with (Z.shiftl (Z.ones (48 - 44)) 44). rewrite (has_mask x 44 48) by lia.
  change ADDR_MASK_42_TO_43 with (Z.shiftl (Z.ones (44 - 42)) 42). change ADDR_MASK_40_TO_41 with (Z.shiftl (Z.ones (42 - 40)) 40).
  change ADDR_MASK_36_TO_39 with (Z.shiftl (Z.ones (40 - 36)) 36). change ADDR_MASK_32_TO_35 with (Z.shiftl (Z.ones (36 - 32)) 32).
  destruct (Z.ltb_spec x (2 ^ 44)); cbn [negb].
  2: { destruct (Z.ltb_spec x (2 ^ 32)), (Z.ltb_spec x (2 ^ 36)), (Z.ltb_spec x (2 ^ 40)), (Z.ltb_spec x (2 ^ 42)); done || lia. }
  rewrite (has_mask x 42 44) by lia. destruct (Z.ltb_spec x (2 ^ 42)); cbn [negb].
  2: { destruct (Z.ltb_spec x (2 ^ 32)), (Z.ltb_spec x (2 ^ 36)), (Z.ltb_spec x (2 ^ 40)); done || lia. }
  rewrite (has_mask x 40 42) by lia. destruct (Z.ltb_spec x (2 ^ 40)); cbn [negb].
  2: { destruct (Z.ltb_spec x (2 ^ 32)), (Z.ltb_spec x (2 ^ 36)); done || lia. }
  rewrite (has_mask x 36 40) by lia. destruct (Z.ltb_spec x (2 ^ 36)); cbn [negb].
  2: { destruct (Z.ltb_spec x (2 ^ 32)); done || lia. }
  rewrite (has_mask x 32 36) by lia. by destruct (Z.ltb_spec x (2 ^ 32)).
Qed.
Lemma calc_bounds x : 0 <= x < 2 ^ 48 -> exists ps, calc_physical_addr_size_bits x = Some ps /\ 0 <= ps <= 5 /\ x < 2 ^ pa_bits ps.
Proof.
  intros Hx. rewrite calc_ok by lia. rewrite (proj2 (Z.ltb_lt _ _)) by lia.
  repeat match goal with |- context [x <? ?b] => destruct (Z.ltb_spec x b) end; eexists; (split; [done|]); (split; [lia|]); unfold pa_bits; cbn [Z.eqb Pos.eqb]; lia.
Qed.

(** ** The state before the tables are built *)
Definition max_end (f : mmap_region -> Z) (l : list mmap_region) : Z := foldr Z.max 0 ((fun r => f r + size r - 1) <$> l).
Lemma max_end_insert f l1 r l2 : max_end f (l1 ++ r :: l2) = Z.max (max_end f (l1 ++ l2)) (f r + size r - 1).
Proof. unfold max_end. induction l1 as [|r1 l1 IH]; cbn; [lia|]. unfold max_end, fmap in *. rewrite IH. lia. Qed.
Lemma max_end_elem f l r : r ∈ l -> f r + size r - 1 <= max_end f l.
Proof. intros Hr. induction Hr as [r l|r r' l _ IH]; unfold max_end in *; cbn; unfold fmap in *; lia. Qed.
Lemma max_end_lt f l b : 0 < b -> Forall (fun r => f r + size r <= b) l -> 0 <= max_end f l < b.
Proof. intros Hb. induction 1 as [|r l Hr _ IH]; unfold max_end in *; cbn; unfold fmap in *; lia. Qed.

Section state.
Context `{XlatConfig}.
(** [l] are the regions added so far; no table has been built. *)
Record ready (l : list mmap_region) (s : xlat) : Prop := {
  rd_mmap : mmap s = array MAX_MMAP_REGIONS l;
  rd_len : (length l <= MAX_MMAP_REGIONS)%nat;
  rd_wf : wf l;
  rd_max_pa : xlat_max_pa s = max_end base_pa l;
  rd_max_va : xlat_max_va s = max_end base_va l;
  rd_next : next_xlat s = 0%nat;
  rd_sized : sized s;
  rd_base : length (base_xlation_table s) = Z.to_nat NUM_BASE_LEVEL_ENTRIES
}.
Lemma ready_init : ready [] xlat_init.
Proof.
  constructor; try done.
  - cbn. lia.
  - apply wf_nil.
  - split; cbn; [apply length_replicate|]. apply Forall_replicate. done.
  - cbn. apply length_replicate.
Qed.
Lemma ready_added l1 l2 new s : region_ok new -> ready (l1 ++ l2) s -> (length (l1 ++ l2) < MAX_MMAP_REGIONS)%nat -> wf (l1 ++ new :: l2) ->
  ready (l1 ++ new :: l2) (added s new (l1 ++ new :: l2)).
Proof.
  intros Hn [? ? ? Mp Mv ? ? ?] Hl W. constructor; cbn; try done.
  - rewrite length_app in *. cbn. lia.
  - rewrite max_end_insert, end_pa_ok, Mp by done. destruct (Z.ltb_spec (max_end base_pa (l1 ++ l2)) (base_pa new + size new - 1)); lia.
  - rewrite max_end_insert, end_va_ok, Mv by done. destruct (Z.ltb_spec (max_end base_va (l1 ++ l2)) (base_va new + size new - 1)); lia.
Qed.
End state.

(** ** The registers *)
Section registers.
Context `{L : XlatLaws}.
Definition tcr_value (w ps : Z) : Z :=
  Z.lor (Z.lor (Z.lor (Z.lor TCR_SH_INNER_SHAREABLE TCR_RGN_OUTER_WBA) TCR_RGN_INNER_WBA) (64 - ctzl (2 ^ w)))
    (Z.lor TCR_EL3_RES1 (Z.shiftl ps TCR_EL3_PS_SHIFT)).
Lemma tcr_fields w ps : 25 <= w <= 48 -> 0 <= ps <= 5 -> field (tcr_value w ps) 0 6 = 64 - w /\ field (tcr_value w ps) 16 3 = ps.
Proof.
  intros Hw Hp. assert (forallb (fun w => forallb (fun ps => (field (tcr_value w ps) 0 6 =? 64 - w) && (field (tcr_value w ps) 16 3 =? ps))
    (seqZ 0 6)) (seqZ 25 24) = true) as C by (by vm_compute).
  rewrite forallb_forall in C. specialize (C w). rewrite <- list_elem_of_In, elem_of_seqZ in C. specialize (C ltac:(lia)).
  rewrite forallb_forall in C. specialize (C ps). rewrite <- list_elem_of_In, elem_of_seqZ in C. specialize (C ltac:(lia)).
  by rewrite andb_true_iff, !Z.eqb_eq in C.
Qed.
Definition mair_value : Z := 0x4404ff.
Lemma enable_ok s flags r : Z.land (sctlr r) SCTLR_M_BIT = 0 -> exists r', enable_mmu_el3 s true flags r = Some r' /\
  ttbr0 r' = base_xlation_table_addr /\ mair r' = mair_value /\ Z.testbit (sctlr r') 0 = true /\ Z.testbit (sctlr r') 19 = true /\
  forall w, ADDR_SPACE_SIZE = 2 ^ w -> tcr r' = tcr_value w (tcr_ps_bits s).
Proof.
  intros Hm. unfold enable_mmu_el3, enable_mmu_el. rewrite Hm. cbn [negb Z.eqb]. eexists. split; [done|]. cbn [ttbr0 mair tcr sctlr].
  split; [done|]. split; [done|]. split; [|split].
  - destruct (has flags DISABLE_DCACHE); [rewrite Z.ldiff_spec|rewrite Z.lor_spec]; rewrite Z.lor_spec;
      change (Z.testbit (Z.lor SCTLR_WXN_BIT SCTLR_M_BIT) 0) with true; by rewrite orb_true_r.
  - destruct (has flags DISABLE_DCACHE); [rewrite Z.ldiff_spec|rewrite Z.lor_spec]; rewrite Z.lor_spec;
      change (Z.testbit (Z.lor SCTLR_WXN_BIT SCTLR_M_BIT) 19) with true; by rewrite orb_true_r.
  - by intros w ->.
Qed.

Lemma read_inner s m i : (m < MAX_XLAT_TABLES)%nat -> read_table s (table_addr m) i = xlat_tables s !! m ≫= (.!! Z.to_nat i).
Proof.
  intros Hm. unfold read_table, table_addr. change XLAT_TABLE_SIZE with 4096.
  rewrite (proj2 (Z.leb_le _ _)), (proj2 (Z.ltb_lt _ _)) by lia. cbn [andb].
  replace (xlat_tables_addr + Z.of_nat m * 4096 - xlat_tables_addr) with (Z.of_nat m * 4096) by lia. by rewrite Z.div_mul, Nat2Z.id by lia.
Qed.
Lemma read_base s i : read_table s base_xlation_table_addr i = base_xlation_table s !! Z.to_nat i.
Proof.
  unfold read_table. change XLAT_TABLE_SIZE with 4096. rewrite Z.eqb_refl. pose proof law_base as Hb.
  destruct (Z.leb_spec xlat_tables_addr base_xlation_table_addr); [|done].
  destruct (Z.ltb_spec base_xlation_table_addr (xlat_tables_addr + Z.of_nat MAX_XLAT_TABLES * 4096)); [lia|done].
Qed.
Lemma level_eq w : 25 <= w <= 48 -> ADDR_SPACE_SIZE = 2 ^ w -> XLAT_TABLE_LEVEL_BASE = if 39 <? w then 0 else if 30 <? w then 1 else 2.
Proof.
  intros Hw E. unfold XLAT_TABLE_LEVEL_BASE. rewrite E.
  change (Z.shiftl 1 L0_XLAT_ADDRESS_SHIFT) with (2 ^ 39). change (Z.shiftl 1 L1_XLAT_ADDRESS_SHIFT) with (2 ^ 30).
  assert (forall a, 0 <= a -> (2 ^ a <? 2 ^ w) = (a <? w)) as G.
  { intros a Ha. destruct (Z.ltb_spec a w); [apply Z.ltb_lt|apply Z.ltb_ge]; [apply Z.pow_lt_mono_r; lia|apply Z.pow_le_mono_r; lia]. }
  by rewrite !G by lia.
Qed.
End registers.

(** ** The MMU follows the regions *)
Section translate.
Context `{L : XlatLaws}.

Lemma translation_ok l r' va pa a : mappable l -> mapping l va = Some (pa, a) -> max_end base_pa l < 2 ^ pa_bits (field (tcr r') 16 3) ->
  mair r' = mair_value -> Z.testbit (sctlr r') 19 = true ->
  (if pa <? 2 ^ pa_bits (field (tcr r') 16 3) then
     Some (Translation pa (field (mair r') (8 * acc_index a) 8) (acc_ns a) (acc_write a)
             (negb (acc_xn a) && negb (Z.testbit (sctlr r') 19 && acc_write a)))
   else None) = region_translation va <$> region_at l va.
Proof.
  intros Hm E Hmax Hmair Hw. unfold mapping in E. destruct (region_at l va) as [r|] eqn:Er; [|done]. cbn in E. injection E as <- <-.
  apply region_at_elem in Er as [Er Hc]. apply contains_true in Hc. pose proof (max_end_elem base_pa l r Er).
  rewrite (proj2 (Z.ltb_lt _ _)) by lia. rewrite Hmair, Hw. cbn [fmap option_fmap option_map]. f_equal. unfold region_translation, access_of. cbn [acc_index acc_ns acc_write acc_xn].
  destruct Hm as [_ _ Ty _ _ _]. rewrite Forall_forall in Ty. specialize (Ty r Er).
  f_equal.
  - destruct Ty as [-> | [-> | ->]]; by vm_compute.
  - by destruct (MT_TYPE (attr r) =? MT_DEVICE), (has (attr r) MT_RW), (has (attr r) MT_EXECUTE_NEVER).
Qed.

Lemma mmu_ok l s s' r' w : mappable l -> 25 <= w <= 48 -> ADDR_SPACE_SIZE = 2 ^ w -> tables_translate l s -> xlat_tables s' = xlat_tables s ->
  base_xlation_table s' = base_xlation_table s -> field (tcr r') 0 6 = 64 - w -> max_end base_pa l < 2 ^ pa_bits (field (tcr r') 16 3) ->
  ttbr0 r' = base_xlation_table_addr -> mair r' = mair_value -> Z.testbit (sctlr r') 0 = true -> Z.testbit (sctlr r') 19 = true ->
  forall va, mmu_el3 r' (read_table s') va = region_translation va <$> region_at l va.
Proof.
  intros Hm Hw Es (n & Hn & En & T) Et Eb E0 Hmax Httbr Hmair Hon Hwxn va. unfold mmu_el3. rewrite Hon, E0. cbn [negb].
  replace (64 - (64 - w)) with w by lia. rewrite <- Es. rewrite <- (level_eq w Hw Es).
  destruct (Z.leb_spec 0 va) as [Hva|Hva]; [destruct (Z.ltb_spec va ADDR_SPACE_SIZE) as [Hlt|Hge]|]; cbn [andb negb].
  2, 3: symmetry; apply fmap_None, region_at_None; destruct Hm as [[F _] _ _ _ V _]; rewrite Forall_forall in *; intros r Hr;
    specialize (F r Hr); specialize (V r Hr); destruct F as [? ? ? _]; apply not_true_is_false; rewrite contains_true; cbn in *; lia.
  pose proof base_level as Hbl. assert (0 < lsz XLAT_TABLE_LEVEL_BASE) as Hp by (apply lsz_pos; lia).
  rewrite Httbr, read_base, Eb. set (k := va / lsz XLAT_TABLE_LEVEL_BASE).
  assert (0 <= k < Z.of_nat n) as Hk.
  { subst k. split; [apply Z.div_pos; lia|]. apply Z.div_lt_upper_bound; lia. }
  destruct (T (Z.to_nat k)) as (desc & Ed & Oe); [lia|]. rewrite Ed. cbn [mbind option_bind].
  rewrite (Oe (read_table s')).
  - destruct (mapping l va) as [[pa a]|] eqn:E; cbn [mbind option_bind].
    + by apply translation_ok.
    + unfold mapping in E. by destruct (region_at l va).
  - intros m i Hmn Hi. rewrite read_inner by lia. by rewrite Et.
  - rewrite Z2Nat.id by lia. unfold in_area. subst k. pose proof (Z.mul_div_le va _ Hp). pose proof (Z.mul_succ_div_gt va _ Hp). lia.
Qed.

Lemma init_ok l s : ready l s -> mappable l -> (tables_needed l XLAT_TABLE_LEVEL_BASE 0 ADDR_SPACE_SIZE <= MAX_XLAT_TABLES)%nat ->
  exists s', init_xlat_tables s = Some (tt, s') /\ forall flags r, Z.land (sctlr r) SCTLR_M_BIT = 0 ->
    exists r', enable_mmu_el3 s' true flags r = Some r' /\
      forall va, mmu_el3 r' (read_table s') va = region_translation va <$> region_at l va.
Proof.
  intros R Hm Hneed. destruct R as [Rm Rl _ Rp Rv Rn Rs Rb]. destruct law_space as (w & Hw & Es).
  pose proof (max_end_lt base_pa l (2 ^ 48) ltac:(lia) (map_pa _ Hm)) as Hpa. pose proof space_bounds as Hsp.
  assert (0 <= max_end base_va l < ADDR_SPACE_SIZE) as Hva by (apply max_end_lt; [lia|apply Hm]). rewrite array_tail in Rm by done.
  destruct (wp_inv _ _ _ (init_xlation_table_ok l Hm s _ Rm Rn Rs Rb Hneed)) as (mx & s1 & E & -> & T & _ & _ & _).
  destruct (calc_bounds (max_end base_pa l)) as (ps & Ec & Hps & Hlim); [lia|].
  exists (set_ps_bits ps s1). split.
  - unfold init_xlat_tables. rewrite (bind_eq _ _ _ _ _ E), Rp, Rv, (bind_must _ ps) by done. rewrite bind_modify.
    by rewrite (proj2 (Z.ltb_lt _ _)) by lia.
  - intros flags r Hr. destruct (enable_ok (set_ps_bits ps s1) flags r Hr) as (r' & Er & H1 & H2 & H3 & H4 & H5).
    exists r'. split; [done|]. destruct (tcr_fields w ps Hw Hps) as [F1 F2]. specialize (H5 w Es). cbn in H5. rewrite <- H5 in F1, F2.
    apply (mmu_ok l s1 _ r' w); try done. by rewrite F2.
Qed.
End translate.

(** ** Several regions *)
Section regions.
Context `{XlatConfig}.
Abbreviation add_region new := (mmap_add_region (base_pa new) (base_va new) (size new) (attr new)).

Lemma add_ready new l s : region_ok new -> ready l s -> (length l < MAX_MMAP_REGIONS)%nat -> Forall (compatible new) l ->
  exists l' s', l' ≡ₚ new :: l /\ add_region new s = Some (tt, s') /\ ready l' s'.
Proof.
  intros Hn R Hl C. destruct (mm_add_ok new s l Hn (rd_wf _ _ R) (rd_mmap _ _ R) Hl C) as (l1 & l2 & -> & W & E).
  exists (l1 ++ new :: l2), (added s new (l1 ++ new :: l2)). split; [by rewrite Permutation_middle|]. split; [done|]. by apply ready_added.
Qed.

(** Regions that are pairwise compatible. *)
Definition addable (rs l : list mmap_region) : Prop :=
  Forall region_ok rs /\ StronglySorted compatible rs /\ Forall (fun r => Forall (compatible r) l) rs /\
  (length rs + length l <= MAX_MMAP_REGIONS)%nat.
Lemma addable_cons r rs l l' : addable (r :: rs) l -> l' ≡ₚ r :: l -> region_ok r /\ (length l < MAX_MMAP_REGIONS)%nat /\ Forall (compatible r) l /\ addable rs l'.
Proof.
  intros (F & S & C & Hl) P. apply Forall_cons in F as [Hr F], C as [Cr C]. apply StronglySorted_inv in S as [S Sr]. cbn in Hl.
  split; [done|]. split; [lia|]. split; [done|]. split; [done|]. split; [done|]. split.
  - rewrite Forall_forall in C, Sr |- *. intros x Hx. rewrite P. constructor; [|by apply C]. destruct (Sr x Hx); [by right|by left].
  - rewrite P. cbn. lia.
Qed.
Lemma mmap_add_ok rs : forall l s, ready l s -> addable rs l ->
  exists l' s', l' ≡ₚ rs ++ l /\ mmap_add (rs ++ [no_region]) s = Some (tt, s') /\ ready l' s'.
Proof.
  induction rs as [|r rs IH]; intros l s R A; [by exists l, s|].
  pose proof (proj1 A) as F. apply Forall_cons in F as [Hr _].
  destruct (addable_cons r rs l (r :: l) A (Permutation_refl _)) as (_ & Hl & C & _).
  destruct (add_ready r l s Hr R Hl C) as (l1 & s1 & P1 & E1 & R1). destruct (addable_cons r rs l l1 A P1) as (_ & _ & _ & A1).
  destruct (IH l1 s1 R1 A1) as (l2 & s2 & P2 & E2 & R2). exists l2, s2. split; [rewrite P2, P1; by rewrite <- Permutation_middle|].
  split; [|done]. cbn [mmap_add app]. pose proof (ok_size _ Hr). destruct (Z.eqb_spec (size r) 0); [lia|]. by rewrite (bind_eq _ _ _ _ _ E1).
Qed.
End regions.

(** The regions of [marvell_setup_page_tables]. *)
Definition image_regions (total_base total_size code_start code_limit rodata_start rodata_limit coh_start coh_limit : Z) : list mmap_region :=
  [Region total_base total_base total_size (Z.lor (Z.lor MT_MEMORY MT_RW) MT_SECURE);
   Region code_start code_start (u64 (code_limit - code_start)) (Z.lor MT_CODE MT_SECURE);
   Region rodata_start rodata_start (u64 (rodata_limit - rodata_start)) (Z.lor MT_RO_DATA MT_SECURE);
   Region coh_start coh_start (u64 (coh_limit - coh_start)) (Z.lor (Z.lor MT_DEVICE MT_RW) MT_SECURE)].
Lemma setup_adds `{XlatConfig} tb ts cs cl rs rl hs hl plat (Q : xlat -> Prop) :
  addable (image_regions tb ts cs cl rs rl hs hl ++ plat) [] ->
  (forall l s, l ≡ₚ image_regions tb ts cs cl rs rl hs hl ++ plat -> ready l s -> exists s', init_xlat_tables s = Some (tt, s') /\ Q s') ->
  exists s', marvell_setup_page_tables tb ts cs cl rs rl hs hl (plat ++ [no_region]) xlat_init = Some (tt, s') /\ Q s'.
Proof.
  intros A HQ. destruct (mmap_add_ok _ [] xlat_init ready_init A) as (l & s & P & E & R). rewrite app_nil_r in P.
  destruct (HQ l s P R) as (s' & Ei & Hq). exists s'. split; [|done].
  assert (forall r rest s0 s1, size r <> 0 -> mmap_add (r :: rest) s0 = Some (tt, s1) ->
    exists s2, mmap_add_region (base_pa r) (base_va r) (size r) (attr r) s0 = Some (tt, s2) /\ mmap_add rest s2 = Some (tt, s1)) as Hstep.
  { intros r rest s0 s1 Hs Hadd. cbn [mmap_add] in Hadd. destruct (Z.eqb_spec (size r) 0); [done|].
    apply bind_some in Hadd as ([] & s2 & E1 & E2). eauto. }
  assert (Forall (fun r => size r <> 0) (image_regions tb ts cs cl rs rl hs hl)) as Hnz.
  { destruct A as (F & _). apply Forall_app in F as [F _]. eapply Forall_impl; [done|]. intros r [_ _ ? _]. lia. }
  unfold image_regions in *. repeat (apply Forall_cons in Hnz as [? Hnz]). cbn [app] in E.
  do 4 (apply Hstep in E as (? & ? & E); [|done]). unfold marvell_setup_page_tables. cbn [base_pa base_va size attr] in *.
  do 4 (erewrite bind_eq by done). by rewrite (bind_eq _ _ _ _ _ E).
Qed.

Lemma needed_perm l l' level lo hi : l ≡ₚ l' -> tables_needed l level lo hi = tables_needed l' level lo hi.
Proof.
  intros P. unfold tables_needed. f_equal. apply list_fmap_ext. intros _ n _. f_equal. apply set_eq. intros q.
  rewrite !elem_divided. unfold cuts. setoid_rewrite P. done.
Qed.
(** Regions that are mapped to themselves. *)
Definition flat `{XlatConfig} (r : mmap_region) : Prop :=
  base_pa r = base_va r /\ attr_ok r /\ type_ok (attr r) /\ base_va r + size r <= ADDR_SPACE_SIZE.
Lemma flat_mappable `{XlatLaws} l : wf l -> Forall flat l -> 1 <= XLAT_TABLE_LEVEL_BASE -> mappable l.
Proof.
  intros W F Hb. pose proof space_bounds. constructor; [done|..]; rewrite ?Forall_forall in *.
  - intros r Hr. apply (F r Hr).
  - intros r Hr. apply (F r Hr).
  - intros r Hr. destruct (F r Hr) as (-> & _ & _ & ?). cbn. lia.
  - intros r Hr. apply (F r Hr).
  - intros r level va Hr Hl _ _. destruct (F r Hr) as (-> & _). rewrite Z.sub_diag. split; [lia|]. apply Z.mod_0_l.
    pose proof (lsz_pos level ltac:(lia)). lia.
Qed.

(** ** An example: BL31 on the Armada 8K *)
#[global] Instance region_ok_dec r : Decision (region_ok r).
Proof.
  refine (cast_if (decide ((0 <= base_pa r /\ base_pa r + size r <= 2 ^ 64) /\ (0 <= base_va r /\ base_va r + size r <= 2 ^ 64) /\ 0 < size r /\
    (base_pa r mod 4096 = 0 /\ base_va r mod 4096 = 0 /\ size r mod 4096 = 0)))); [constructor; tauto|intros []; tauto].
Defined.
#[global] Instance before_dec r1 r2 : Decision (before r1 r2).
Proof. unfold before. apply _. Defined.
#[global] Instance compatible_dec new r : Decision (compatible new r).
Proof. unfold compatible. apply _. Defined.
#[global] Instance wf_dec l : Decision (wf l).
Proof. unfold wf. apply _. Defined.
#[global] Instance flat_dec `{XlatConfig} r : Decision (flat r).
Proof. unfold flat, attr_ok, type_ok. apply _. Defined.
#[global] Instance addable_dec `{XlatConfig} rs l : Decision (addable rs l).
Proof. unfold addable. apply _. Defined.

#[local] Instance a8k : XlatConfig :=
  {| MAX_MMAP_REGIONS := 8; MAX_XLAT_TABLES := 4; ADDR_SPACE_SIZE := 2 ^ 32; xlat_tables_addr := 0x4050000; base_xlation_table_addr := 0x4048000 |}.
#[local] Instance a8k_laws : XlatLaws.
Proof. constructor; [by exists 32|done|by left]. Qed.
Definition a8k_image : list mmap_region := image_regions 0x4023000 0x50000 0x4023000 0x402d000 0x402d000 0x4030000 0x4070000 0x4071000.
Definition a8k_plat : list mmap_region :=
  [Region 0x4000000 0x4000000 0x1000 (Z.lor MT_MEMORY MT_RW); Region 0xf0000000 0xf0000000 0x10000000 (Z.lor MT_DEVICE MT_RW);
   Region 0 0 0x80000000 (Z.lor (Z.lor MT_MEMORY MT_RW) MT_NS)].
(** DRAM with a page of code in it. *)
Definition a8k_dram : list mmap_region :=
  [Region 0 0 0x80000000 (Z.lor (Z.lor MT_MEMORY MT_RW) MT_NS); Region 0x4000000 0x4000000 0x1000 (Z.lor MT_CODE MT_SECURE)].
(** The state after these regions have been added. *)
Definition ready_state `{XlatConfig} (l : list mmap_region) : xlat :=
  set_max (max_end base_pa l) (max_end base_va l) (set_mmap (array MAX_MMAP_REGIONS l) xlat_init).
Lemma ready_state_ok `{XlatConfig} l : wf l -> (length l <= MAX_MMAP_REGIONS)%nat -> ready l (ready_state l).
Proof. intros W Hl. destruct ready_init as [_ _ _ _ _ ? ? ?]. by constructor. Qed.

(** The regions are added, the tables built and the MMU enabled. *)
Definition boot `{XlatConfig} (rs : list mmap_region) : option (regs * xlat) :=
  '(_, s) ← (mmap_add (rs ++ [no_region]);; init_xlat_tables) xlat_init;
  r ← enable_mmu_el3 s true 0 (Regs 0 0 0 0);
  Some (r, s).
(** A platform with a larger address space, whose first level is 0. *)
Definition terabyte : XlatConfig :=
  {| MAX_MMAP_REGIONS := 8; MAX_XLAT_TABLES := 4; ADDR_SPACE_SIZE := 2 ^ 40; xlat_tables_addr := 0x4050000; base_xlation_table_addr := 0x4048000 |}.

(** ** The theorems *)

(** C17: After [init_xlat_tables] and [enable_mmu_el3], the MMU translates every virtual address
    exactly as the regions added with [mmap_add_region] say: an address in no region faults,
    any other gets the physical address, memory type, security state and permissions of the
    innermost region that contains it, and is executable only if that region is normal
    read-only memory not marked execute-never.  No assertion fails.  The regions must be
    [mappable]: physical ends at most 2^48 and virtual ends inside the address space, one of the
    three memory types, no aligned area of 512 GB inside one region, and where an aligned area of
    1 GB or 2 MB lies inside a region, the offset between its virtual and physical addresses is a
    multiple of that size (the code maps such an area by a block without checking it:
    [xlat_blocks_unchecked]).  There must be as many tables as there are areas (of 512 GB,
    1 GB and 2 MB) that an end of a region divides. *)
Theorem xlat_mmu_follows_regions `{XlatLaws} l s :
  ready l s -> mappable l -> (tables_needed l XLAT_TABLE_LEVEL_BASE 0 ADDR_SPACE_SIZE <= MAX_XLAT_TABLES)%nat ->
  exists s', init_xlat_tables s = Some (tt, s') /\ forall flags r, Z.land (sctlr r) SCTLR_M_BIT = 0 ->
    exists r', enable_mmu_el3 s' true flags r = Some r' /\
      forall va, mmu_el3 r' (read_table s') va = region_translation va <$> region_at l va.
Proof. apply init_ok. Qed.
Lemma xlat_mmu_follows_regions_witness : exists s', init_xlat_tables (ready_state a8k_dram) = Some (tt, s') /\
  forall flags r, Z.land (sctlr r) SCTLR_M_BIT = 0 -> exists r', enable_mmu_el3 s' true flags r = Some r' /\
    forall va, mmu_el3 r' (read_table s') va = region_translation va <$> region_at a8k_dram va.
Proof.
  apply (xlat_mmu_follows_regions a8k_dram (ready_state a8k_dram)).
  - by apply ready_state_ok; [apply (bool_decide_unpack _); vm_compute|vm_compute; lia].
  - by apply flat_mappable; [apply (bool_decide_unpack _); vm_compute|apply (bool_decide_unpack _); vm_compute|].
  - apply (bool_decide_unpack _). by vm_compute.
Defined.

(** C18: While the table has a free slot (fewer than [MAX_MMAP_REGIONS] regions; a full one loses its
    terminator, [mmap_add_region_drops_terminator]), [mmap_add_region] keeps the list of regions in
    order, with a region before those inside it.  A page-aligned, non-empty region that does not wrap is added exactly when it is compatible with
    all others (inside or around them with the same offset and another extent, or apart from
    them both virtually and physically); otherwise an assertion fails. *)
Theorem mmap_add_region_spec `{XlatConfig} new l s :
  region_ok new -> ready l s -> (length l < MAX_MMAP_REGIONS)%nat ->
  (Forall (compatible new) l -> exists l1 l2 s', l = l1 ++ l2 /\ ready (l1 ++ new :: l2) s' /\
     mmap_add_region (base_pa new) (base_va new) (size new) (attr new) s = Some (tt, s')) /\
  (~ Forall (compatible new) l -> mmap_add_region (base_pa new) (base_va new) (size new) (attr new) s = None).
Proof.
  intros Hn R Hl. split; intros C.
  - destruct (mm_add_ok new s l Hn (rd_wf _ _ R) (rd_mmap _ _ R) Hl C) as (l1 & l2 & -> & W & E).
    exists l1, l2, (added s new (l1 ++ new :: l2)). split; [done|]. split; [by apply ready_added|done].
  - apply (add_region_refused new s l); [done|apply R|apply R|apply R|done].
Qed.
Lemma mmap_add_region_spec_witness :
  let new := Region 0x4001000 0x4001000 0x1000 (Z.lor MT_RO_DATA MT_SECURE) in
  (Forall (compatible new) a8k_dram -> exists l1 l2 s', a8k_dram = l1 ++ l2 /\ ready (l1 ++ new :: l2) s' /\
     mmap_add_region (base_pa new) (base_va new) (size new) (attr new) (ready_state a8k_dram) = Some (tt, s')) /\
  (~ Forall (compatible new) a8k_dram ->
     mmap_add_region (base_pa new) (base_va new) (size new) (attr new) (ready_state a8k_dram) = None).
Proof.
  apply (mmap_add_region_spec _ a8k_dram (ready_state a8k_dram)).
  - apply (bool_decide_unpack _). by vm_compute.
  - by apply ready_state_ok; [apply (bool_decide_unpack _); vm_compute|vm_compute; lia].
  - vm_compute. lia.
Defined.

(** The page tables of the Marvell platforms: when the regions of the image and the
    platform are compatible, flat and small enough for the tables there are,
    [marvell_setup_page_tables] succeeds, and with the MMU on an address is mapped to itself with
    the attributes of its innermost region, or faults if no region contains it. *)
Theorem marvell_page_tables_spec `{XlatLaws} tb ts cs cl rs rl hs hl plat :
  let regions := image_regions tb ts cs cl rs rl hs hl ++ plat in
  1 <= XLAT_TABLE_LEVEL_BASE -> addable regions [] -> Forall flat regions ->
  (tables_needed regions XLAT_TABLE_LEVEL_BASE 0 ADDR_SPACE_SIZE <= MAX_XLAT_TABLES)%nat ->
  exists s', marvell_setup_page_tables tb ts cs cl rs rl hs hl (plat ++ [no_region]) xlat_init = Some (tt, s') /\
    forall flags r, Z.land (sctlr r) SCTLR_M_BIT = 0 -> exists r', enable_mmu_el3 s' true flags r = Some r' /\
      (forall va rg, rg ∈ regions -> contains rg va = true ->
         (forall rg', rg' ∈ regions -> contains rg' va = true ->
            base_va rg' <= base_va rg /\ base_va rg + size rg <= base_va rg' + size rg') ->
         mmu_el3 r' (read_table s') va = Some (region_translation va rg)) /\
      (forall va, Forall (fun rg => contains rg va = false) regions -> mmu_el3 r' (read_table s') va = None).
Proof.
  intros regions Hb A F Hn. apply setup_adds; [done|]. intros l s P R. fold regions in P. pose proof (rd_wf _ _ R) as W.
  destruct (init_ok l s R) as (s' & E & Hmmu).
  - apply flat_mappable; [done|by rewrite P|done].
  - by rewrite (needed_perm _ _ _ _ _ P).
  - exists s'. split; [done|]. intros flags r Hr. destruct (Hmmu flags r Hr) as (r' & Er & Ht). exists r'. split; [done|]. split.
    + intros va rg Hin Hc Hinner. rewrite Ht, (region_at_unique l va rg W); [done|by rewrite P|done|].
      intros rg' Hrg'. rewrite P in Hrg'. by apply Hinner.
    + intros va Hno. rewrite Ht. apply fmap_None, region_at_None. by rewrite P.
Qed.
Lemma marvell_page_tables_spec_witness : exists s',
  marvell_setup_page_tables 0x4023000 0x50000 0x4023000 0x402d000 0x402d000 0x4030000 0x4070000 0x4071000 (a8k_plat ++ [no_region]) xlat_init =
    Some (tt, s') /\
  forall flags r, Z.land (sctlr r) SCTLR_M_BIT = 0 -> exists r', enable_mmu_el3 s' true flags r = Some r' /\
    (forall va rg, rg ∈ a8k_image ++ a8k_plat -> contains rg va = true ->
       (forall rg', rg' ∈ a8k_image ++ a8k_plat -> contains rg' va = true ->
          base_va rg' <= base_va rg /\ base_va rg + size rg <= base_va rg' + size rg') ->
       mmu_el3 r' (read_table s') va = Some (region_translation va rg)) /\
    (forall va, Forall (fun rg => contains rg va = false) (a8k_image ++ a8k_plat) -> mmu_el3 r' (read_table s') va = None).
Proof.
  apply (marvell_page_tables_spec 0x4023000 0x50000 0x4023000 0x402d000 0x402d000 0x4030000 0x4070000 0x4071000 a8k_plat); [by vm_compute|..];
    apply (bool_decide_unpack _); by vm_compute.
Defined.

(** What [mmap_desc] writes decodes to the attributes asked for: memory type, security
    state, write permission and shareability, with writable and device memory execute-never. *)
Theorem mmap_desc_spec attr pa level : type_ok attr -> page_addr pa -> exists desc,
  mmap_desc attr pa level = Some desc /\ decode desc = access_of attr /\ desc mod 2 ^ 48 - desc mod 4096 = pa /\
  (acc_write (decode desc) = true -> acc_xn (decode desc) = true).
Proof.
  intros Ht Hp. destruct (mmap_desc_bits attr pa level Ht) as (c & E & Hm & Hd & _). exists (Z.lor pa c).
  rewrite decode_desc, Hd by done. split; [done|]. split; [done|]. split.
  - apply (desc_parts 3); [done|lia|apply Hp|done].
  - unfold access_of. cbn. intros ->. by rewrite orb_true_r.
Qed.
Lemma mmap_desc_spec_witness : exists desc,
  mmap_desc (Z.lor MT_DEVICE MT_RW) 0xf0000000 2 = Some desc /\ decode desc = access_of (Z.lor MT_DEVICE MT_RW) /\
  desc mod 2 ^ 48 - desc mod 4096 = 0xf0000000 /\ (acc_write (decode desc) = true -> acc_xn (decode desc) = true).
Proof. apply (mmap_desc_spec (Z.lor MT_DEVICE MT_RW) 0xf0000000 2); [by left|]. split; [lia|done]. Defined.

(** The check for the terminator of the list comes before the write: with all
    [MAX_MMAP_REGIONS] regions in use, a region behind all others passes it and takes the
    terminator's place. *)
Theorem mmap_add_region_drops_terminator `{XlatConfig} new l s :
  region_ok new -> ready l s -> length l = MAX_MMAP_REGIONS -> Forall (fun r => before r new) l ->
  exists s', mmap_add_region (base_pa new) (base_va new) (size new) (attr new) s = Some (tt, s') /\
    mmap s' = l ++ [new] /\ Forall (fun r => size r <> 0) (mmap s').
Proof.
  intros Hn R Hl B. destruct (add_region_full new s l Hn (rd_wf _ _ R) (rd_mmap _ _ R) Hl B) as (s' & E & Em).
  exists s'. split; [done|]. split; [done|]. rewrite Em. apply Forall_app. split; [|by repeat constructor; pose proof (ok_size _ Hn); lia].
  destruct (rd_wf _ _ R) as [F _]. eapply Forall_impl; [done|]. intros r [_ _ ? _]. lia.
Qed.
Lemma mmap_add_region_drops_terminator_witness :
  let l := (fun i => Region (i * 0x1000) (i * 0x1000) 0x1000 MT_MEMORY) <$> seqZ 0 8 in
  exists s', mmap_add_region 0x8000 0x8000 0x1000 MT_MEMORY (ready_state l) = Some (tt, s') /\
    mmap s' = l ++ [Region 0x8000 0x8000 0x1000 MT_MEMORY] /\ Forall (fun r => size r <> 0) (mmap s').
Proof.
  apply (mmap_add_region_drops_terminator (Region 0x8000 0x8000 0x1000 MT_MEMORY)).
  - apply (bool_decide_unpack _). by vm_compute.
  - by apply ready_state_ok; [apply (bool_decide_unpack _); vm_compute|vm_compute; lia].
  - done.
  - apply (bool_decide_unpack _). by vm_compute.
Defined.

(** Blocks are used wherever a region covers one.  The 2 MB at 0x200000 mapped to 0x1000
    become a block, whose descriptor cannot hold that address: they are mapped to 0.  With an
    address space of more than 512 GB, a region that covers 512 GB gets a block of level 0, which
    the architecture does not have: its addresses fault.  No assertion fails in either case. *)
Theorem xlat_blocks_unchecked :
  (exists r s, boot (H := a8k) [Region 0x1000 0x200000 0x200000 (Z.lor MT_MEMORY MT_RW)] = Some (r, s) /\
     tr_pa <$> mmu_el3 r (read_table (H := a8k) s) 0x200000 = Some 0) /\
  (exists r s, boot (H := terabyte) [Region 0 0 (2 ^ 39) (Z.lor MT_MEMORY MT_RW)] = Some (r, s) /\
     mmu_el3 r (read_table (H := terabyte) s) 0 = None).
Proof.
  split; (destruct (boot _) as [[r s]|] eqn:E; [|by vm_compute in E]); exists r, s; (split; [done|]); vm_compute in E; injection E as <- <-; by vm_compute.
Qed.
End XlatSpec.
