(* ===== verification/BlFwu.v ===== *)
(** * Firmware update in BL1 of the Trusted Firmware: bl1/bl1_fwu.c

    Also [bl1_prepare_next_image] (bl1/aarch64/bl1_context_mgmt.c) and the platform
    functions of plat/arm/common/arm_bl1_fwu.c.  Physical memory is a total function from
    addresses to bytes; [memcpy] between overlapping ranges, and any access to a range that
    passes the end of the address space, is undefined and yields [None], as does a failed
    [assert].  Saving, restoring and initialising CPU contexts
    is recorded as a list of actions, as is the platform's hook on the entry point; SPSR values, cache
    maintenance and messages are not modelled.  [auth_mod_verify_img] is a parameter with a state of its own. *)

From Stdlib Require Import ZArith Lia.
From stdpp Require Import base option list numbers.
From S2P Require Import Prelude CMonad.
Open Scope Z_scope.
Open Scope cint_scope.

Module Fwu.

Inductive image_state :=
| IMAGE_STATE_RESET | IMAGE_STATE_COPIED | IMAGE_STATE_COPYING
| IMAGE_STATE_AUTHENTICATED | IMAGE_STATE_EXECUTED | IMAGE_STATE_INTERRUPTED.

#[global] Instance image_state_eq_dec : EqDecision image_state.
Proof. solve_decision. Defined.

(** [image_info.image_base], [image_info.image_size] and [ep_info.h.attr] are fields here. *)
Record image_desc := Desc {
  image_id : Z;
  state : image_state;
  copied_size : Z;
  image_base : Z;
  image_size : Z;
  attr : Z
}.

Definition INVALID_IMAGE_ID := 0xFFFFFFFF.
Definition SECURE := 0.
Definition NON_SECURE := 1.
Definition NON_EXECUTABLE := 0.
Definition EXECUTABLE := 8.
Definition GET_SECURITY_STATE (x : Z) : Z := Z.land x 1.
Definition EP_GET_EXE (x : Z) : Z := Z.land x 8.

Definition EPERM := 1.
Definition ENOMEM := 12.
Definition EAUTH := 80.

(** What is done to the CPU contexts of the two worlds. *)
Inductive action :=
| SaveContext (world : Z)
| RestoreContext (world : Z)
| PlatSetEpInfo (image_id : Z)
| InitContext (world : Z)
| PrepareEl3Exit (world : Z)
| SetNextEret (world : Z).

Class Platform := {
  auth_state : Type;
  (** The verdict on an image's bytes: zero is success. *)
  auth_mod_verify_img : auth_state -> Z -> list Z -> Z * auth_state;
  (** Zero when the range is mapped for the world in [flags]. *)
  bl1_plat_mem_check : Z -> Z -> Z -> option Z;
  (** [free_base] and [free_size] of the trusted RAM. *)
  free_base : Z;
  free_size : Z;
  (** The build saves the AArch32 registers ([CTX_INCLUDE_AARCH32_REGS]), and the core's EL1 supports AArch64 only. *)
  ctx_include_aarch32_regs : bool;
  el1_aarch64_only : bool
}.

(** ** Memory *)
Definition memory_t := Z -> Z.
Definition in_range (a base n : Z) : bool := (base <=? a) && (a <? base + n).
Definition read_bytes (m : memory_t) (base n : Z) : option (list Z) :=
  if 2 ^ 64 <? base + n then None else Some (map m (seqZ base n)).
Definition memcpy (m : memory_t) (dst src n : Z) : option memory_t :=
  if (2 ^ 64 <? dst + n) || (2 ^ 64 <? src + n) || ((dst <? src + n) && (src <? dst + n)) then None
  else Some (fun a => if in_range a dst n then m (src + (a - dst)) else m a).
Definition memset (m : memory_t) (dst c n : Z) : memory_t :=
  fun a => if in_range a dst n then c else m a.

Section fwu.
Context `{Platform}.

(** [world] is the one whose context [*handle] refers to when the call returns: the
    world that runs next. *)
Record fwu := Fwu_ {
  descs : list image_desc;
  memory : memory_t;
  sec_exec_image_id : Z;
  auth : auth_state;
  actions : list action;
  world : Z
}.
Abbreviation F := (M fwu).

(** A failed assertion stops the firmware. *)
Definition assert (b : bool) : F unit := if b then mret tt else must None.
Definition act (a : action) : F unit :=
  modify (fun s => Fwu_ (descs s) (memory s) (sec_exec_image_id s) (auth s) (actions s ++ [a]) (world s)).
Definition set_memory (m : memory_t) : F unit :=
  modify (fun s => Fwu_ (descs s) m (sec_exec_image_id s) (auth s) (actions s) (world s)).
Definition set_sec_exec (i : Z) : F unit :=
  modify (fun s => Fwu_ (descs s) (memory s) i (auth s) (actions s) (world s)).
Definition set_auth (a : auth_state) : F unit :=
  modify (fun s => Fwu_ (descs s) (memory s) (sec_exec_image_id s) a (actions s) (world s)).
Definition set_handle (w : Z) : F unit :=
  modify (fun s => Fwu_ (descs s) (memory s) (sec_exec_image_id s) (auth s) (actions s) w).
Definition set_desc (i : nat) (d : image_desc) : F unit :=
  modify (fun s => Fwu_ (<[i := d]> (descs s)) (memory s) (sec_exec_image_id s) (auth s) (actions s) (world s)).

Definition with_state (d : image_desc) (st : image_state) : image_desc :=
  Desc (image_id d) st (copied_size d) (image_base d) (image_size d) (attr d).
Definition with_copied (d : image_desc) (n : Z) : image_desc :=
  Desc (image_id d) (state d) n (image_base d) (image_size d) (attr d).
Definition with_size (d : image_desc) (n : Z) : image_desc :=
  Desc (image_id d) (state d) (copied_size d) (image_base d) n (attr d).

(** The search stops at the entry whose id is [INVALID_IMAGE_ID], the end of [descs]. *)
Fixpoint find_desc (l : list image_desc) (id : Z) (i : nat) : option (nat * image_desc) :=
  match l with
  | [] => None
  | d :: l => if image_id d =? id then Some (i, d) else find_desc l id (S i)
  end.
Definition bl1_plat_get_image_desc (id : Z) : F (option (nat * image_desc)) :=
  gets (fun s => find_desc (descs s) id 0).

(** ** Copying *)
Definition copy_continue (i : nat) (d : image_desc) (image_src block_size flags : Z) : F Z :=
  let block_size := if image_size d <? copied_size d +u32 block_size
                    then image_size d -u32 copied_size d else block_size in
  c ← must (bl1_plat_mem_check image_src block_size flags);
  if negb (c =? 0) then mret (- ENOMEM)
  else
    let base_addr := image_base d +u64 copied_size d in
    let d := with_copied d (copied_size d +u32 block_size) in
    m ← gets memory;
    m ← must (memcpy m base_addr image_src block_size);
    set_memory m;;
    set_desc i (if copied_size d =? image_size d then with_state d IMAGE_STATE_COPIED else d);;
    mret 0.

Definition copy_fresh (i : nat) (d : image_desc) (image_src block_size new_size flags : Z) : F Z :=
  if new_size =? 0 then mret (- ENOMEM)
  else
    let block_size := if new_size <? block_size then new_size else block_size in
    c ← must (bl1_plat_mem_check image_src block_size flags);
    if negb (c =? 0) then mret (- ENOMEM)
    else if (image_base d <? free_base) || (free_base +u64 free_size <? image_base d +u64 new_size)
    then mret (- ENOMEM)
    else
      let d := with_size d new_size in
      m ← gets memory;
      m ← must (memcpy m (image_base d) image_src block_size);
      set_memory m;;
      let d := with_state d (if block_size =? new_size then IMAGE_STATE_COPIED else IMAGE_STATE_COPYING) in
      set_desc i (with_copied d block_size);;
      mret 0.

Definition bl1_fwu_image_copy (id image_src block_size new_size flags : Z) : F Z :=
  o ← bl1_plat_get_image_desc id;
  match o with
  | None => mret (- EPERM)
  | Some (i, d) =>
      if bool_decide (state d <> IMAGE_STATE_RESET) && bool_decide (state d <> IMAGE_STATE_COPYING)
      then mret (- EPERM)
      else if (GET_SECURITY_STATE flags =? SECURE) || (GET_SECURITY_STATE (attr d) =? NON_SECURE)
      then mret (- EPERM)
      else if (image_src =? 0) || (block_size =? 0) then mret (- ENOMEM)
      else if bool_decide (state d = IMAGE_STATE_COPYING)
      then copy_continue i d image_src block_size flags
      else copy_fresh i d image_src block_size new_size flags
  end.

(** ** Authentication *)
(** Who may authenticate which image in which state. *)
Definition auth_allowed (d : image_desc) (flags : Z) : bool :=
  if GET_SECURITY_STATE flags =? SECURE then bool_decide (state d = IMAGE_STATE_RESET)
  else if GET_SECURITY_STATE (attr d) =? SECURE then bool_decide (state d = IMAGE_STATE_COPIED)
  else bool_decide (state d = IMAGE_STATE_RESET).

(** The verification of [total_size] bytes at [base_addr] and what follows. *)
Definition auth_verify (i : nat) (d : image_desc) (base_addr total_size : Z) : F Z :=
  m ← gets memory; a ← gets auth;
  bytes ← must (read_bytes m base_addr total_size);
  let '(result, a) := auth_mod_verify_img a (image_id d) bytes in
  set_auth a;;
  if negb (result =? 0) then
    (if bool_decide (state d = IMAGE_STATE_COPIED)
     then set_memory (memset m base_addr 0 total_size);; set_desc i (with_state d IMAGE_STATE_RESET)
     else mret tt);;
    mret (- EAUTH)
  else set_desc i (with_state d IMAGE_STATE_AUTHENTICATED);; mret 0.

Definition bl1_fwu_image_auth (id image_src new_size flags : Z) : F Z :=
  o ← bl1_plat_get_image_desc id;
  match o with
  | None => mret (- EPERM)
  | Some (i, d) =>
      if negb (auth_allowed d flags) then mret (- EPERM)
      else if bool_decide (state d = IMAGE_STATE_COPIED)
      then auth_verify i d (image_base d) (image_size d)
      else if (image_src =? 0) || (new_size =? 0) then mret (- ENOMEM)
      else
        c ← must (bl1_plat_mem_check image_src new_size (attr d));
        if negb (c =? 0) then mret (- ENOMEM)
        else
          let d := with_size d new_size in
          set_desc i d;;
          auth_verify i d image_src new_size
  end.

(** ** Execution *)
Definition bl1_prepare_next_image (id : Z) : F unit :=
  (if ctx_include_aarch32_regs && el1_aarch64_only then must None (* panic *) else mret tt);;
  o ← bl1_plat_get_image_desc id;
  match o with
  | None => assert false
  | Some (i, d) =>
      act (PlatSetEpInfo id);;
      act (InitContext (GET_SECURITY_STATE (attr d)));;
      act (PrepareEl3Exit (GET_SECURITY_STATE (attr d)));;
      set_desc i (with_state d IMAGE_STATE_EXECUTED)
  end.

Definition bl1_fwu_image_execute (id flags : Z) : F Z :=
  o ← bl1_plat_get_image_desc id;
  match o with
  | None => mret (- EPERM)
  | Some (i, d) =>
      if (GET_SECURITY_STATE flags =? SECURE) || (GET_SECURITY_STATE (attr d) =? NON_SECURE)
         || (EP_GET_EXE (attr d) =? NON_EXECUTABLE)
         || bool_decide (state d <> IMAGE_STATE_AUTHENTICATED)
      then mret (- EPERM)
      else
        act (SaveContext NON_SECURE);;
        bl1_prepare_next_image id;;
        set_sec_exec id;;
        set_handle SECURE;;
        mret 0
  end.

Definition bl1_fwu_image_resume (image_param flags : Z) : F Z :=
  let caller_sec_state := GET_SECURITY_STATE flags in
  e ← gets sec_exec_image_id;
  o ← bl1_plat_get_image_desc e;
  match o with
  | None => if caller_sec_state =? NON_SECURE then mret (- EPERM) else assert false;; mret 0
  | Some (i, d) =>
      assert (GET_SECURITY_STATE (attr d) =? SECURE);;
      assert (EP_GET_EXE (attr d) =? EXECUTABLE);;
      resume_sec_state ←
        (if caller_sec_state =? SECURE then
           assert (bool_decide (state d = IMAGE_STATE_EXECUTED));;
           set_desc i (with_state d IMAGE_STATE_INTERRUPTED);; mret NON_SECURE
         else
           assert (bool_decide (state d = IMAGE_STATE_INTERRUPTED));;
           set_desc i (with_state d IMAGE_STATE_EXECUTED);; mret SECURE);
      act (SaveContext caller_sec_state);;
      act (RestoreContext resume_sec_state);;
      act (SetNextEret resume_sec_state);;
      set_handle resume_sec_state;;
      mret image_param
  end.

Definition bl1_fwu_sec_image_done (flags : Z) : F Z :=
  if GET_SECURITY_STATE flags =? NON_SECURE then mret (- EPERM)
  else
    e ← gets sec_exec_image_id;
    o ← bl1_plat_get_image_desc e;
    match o with
    | None => assert false;; mret 0
    | Some (i, d) =>
        assert (GET_SECURITY_STATE (attr d) =? SECURE);;
        assert (EP_GET_EXE (attr d) =? EXECUTABLE);;
        assert (bool_decide (state d = IMAGE_STATE_EXECUTED));;
        set_desc i (with_state d IMAGE_STATE_RESET);;
        set_sec_exec INVALID_IMAGE_ID;;
        act (RestoreContext NON_SECURE);;
        act (SetNextEret NON_SECURE);;
        set_handle NON_SECURE;;
        mret 0
    end.

(** ** The SMC handler *)
Definition FWU_SMC_IMAGE_COPY := 0x10.
Definition FWU_SMC_IMAGE_AUTH := 0x11.
Definition FWU_SMC_IMAGE_EXECUTE := 0x12.
Definition FWU_SMC_IMAGE_RESUME := 0x13.
Definition FWU_SMC_SEC_IMAGE_DONE := 0x14.
Definition FWU_SMC_UPDATE_DONE := 0x15.

(** [FWU_SMC_UPDATE_DONE] never returns: [None] like an unknown function, which asserts. *)
Definition bl1_fwu_smc_handler (smc_fid x1 x2 x3 x4 flags : Z) : F Z :=
  if smc_fid =? FWU_SMC_IMAGE_COPY then bl1_fwu_image_copy (u32 x1) x2 (u32 x3) (u32 x4) flags
  else if smc_fid =? FWU_SMC_IMAGE_AUTH then bl1_fwu_image_auth (u32 x1) x2 (u32 x3) flags
  else if smc_fid =? FWU_SMC_IMAGE_EXECUTE then bl1_fwu_image_execute (u32 x1) flags
  else if smc_fid =? FWU_SMC_IMAGE_RESUME then bl1_fwu_image_resume x1 flags
  else if smc_fid =? FWU_SMC_SEC_IMAGE_DONE then bl1_fwu_sec_image_done flags
  else must None.
End fwu.

(** ** The Arm platforms' memory check *)
(** The ranges of [fwu_addr_map_secure] or [fwu_addr_map_non_secure] up to the entry of
    size zero. *)
Fixpoint mem_check_loop (mmap : list (Z * Z)) (mem_base mem_size : Z) : Z :=
  match mmap with
  | [] => - ENOMEM
  | (b, n) :: mmap =>
      if (b <=? mem_base) && (mem_base +u64 mem_size <=? b +u64 n) then 0
      else mem_check_loop mmap mem_base mem_size
  end.
Definition arm_mem_check (secure_map non_secure_map : list (Z * Z)) (mem_base mem_size flags : Z) : option Z :=
  if (mem_base =? 0) || (mem_size =? 0) then None
  else Some (mem_check_loop (if GET_SECURITY_STATE flags =? SECURE then secure_map else non_secure_map)
                            mem_base mem_size).

End Fwu.
