(* ===== verification/BlFwuProps.v ===== *)
(** * Properties of the firmware update of [BlFwu]

    Every successful call is one [move] of the state machine of the image descriptors;
    the theorems follow from the moves by cases, and from sequences of calls by rule
    induction on [reach]. *)

From Stdlib Require Import ZArith Lia.
From stdpp Require Import base option list numbers.
From S2P Require Import Prelude CMonad BlFwu.
Import Fwu.
Open Scope Z_scope.

Section fwu.
Context `{Platform}.

(** ** Descriptors *)
Lemma find_desc_shift l id k i d :
  find_desc l id k = Some (i, d) -> exists j, i = (k + j)%nat /\ l !! j = Some d /\ image_id d = id.
Proof.
  revert k. induction l as [|e l IH]; intros k; cbn; [done|].
  destruct (Z.eqb_spec (image_id e) id).
  - intros [= <- <-]. exists 0%nat. split; [lia|done].
  - intros (j & -> & ? & ?)%IH. exists (S j). split; [lia|done].
Qed.

Lemma find_desc_lookup l id i d : find_desc l id 0 = Some (i, d) -> l !! i = Some d /\ image_id d = id.
Proof. intros (j & -> & ? & ?)%find_desc_shift. done. Qed.

Lemma find_desc_set l id i d d' id' :
  find_desc l id 0 = Some (i, d) -> image_id d' = id ->
  find_desc (<[i := d']> l) id' 0 = if decide (id' = id) then Some (i, d') else find_desc l id' 0.
Proof.
  assert (forall k, find_desc l id k = Some ((k + i)%nat, d) -> image_id d' = id ->
    find_desc (<[i := d']> l) id' k = if decide (id' = id) then Some ((k + i)%nat, d') else find_desc l id' k) as Hgen.
  2: { intros Hf Hid. apply (Hgen 0%nat Hf Hid). }
  revert i. induction l as [|e l IH]; intros i k Hf Hid; [done|]. cbn in Hf.
  destruct (Z.eqb_spec (image_id e) id) as [E|E].
  - injection Hf as Ei <-. assert (i = 0%nat) as -> by lia. cbn. rewrite Hid.
    destruct (Z.eqb_spec id id'); case_decide; try congruence.
    by destruct (Z.eqb_spec (image_id e) id'); [congruence|].
  - destruct i as [|i].
    { apply find_desc_shift in Hf as (j & ? & _). lia. }
    cbn. destruct (Z.eqb_spec (image_id e) id').
    + case_decide; [congruence|done].
    + replace (k + S i)%nat with (S k + i)%nat in * by lia. by apply IH.
Qed.

(** ** Moves *)
Definition secure (d : image_desc) : Prop := GET_SECURITY_STATE (attr d) = SECURE.
Definition executable (d : image_desc) : Prop := EP_GET_EXE (attr d) = EXECUTABLE.

(** One call's effect on the addressed descriptor, [d] before and [d'] after; [flags]
    names the calling world, [fid] the function and [r] the result.  [ok] is what is known
    of a block that continues a copy. *)
Inductive move (ok : image_desc -> Z -> Prop) (fid flags r : Z) (s s' : fwu) (d d' : image_desc) : Prop :=
| mv_copy_more src b n :
    fid = FWU_SMC_IMAGE_COPY -> GET_SECURITY_STATE flags <> SECURE -> secure d -> r = 0 -> src <> 0 -> b <> 0 -> in_u 32 b ->
    state d = IMAGE_STATE_COPYING -> ok d b ->
    n = (if image_size d <? wrap 32 (copied_size d + b) then wrap 32 (image_size d - copied_size d) else b) ->
    bl1_plat_mem_check src n flags = Some 0 ->
    memcpy (memory s) (wrap 64 (image_base d + copied_size d)) src n = Some (memory s') ->
    image_size d' = image_size d -> copied_size d' = wrap 32 (copied_size d + n) ->
    state d' = (if copied_size d' =? image_size d then IMAGE_STATE_COPIED else IMAGE_STATE_COPYING) ->
    sec_exec_image_id s' = sec_exec_image_id s -> world s' = world s ->
    move ok fid flags r s s' d d'
| mv_copy_fresh src b n :
    fid = FWU_SMC_IMAGE_COPY -> GET_SECURITY_STATE flags <> SECURE -> secure d -> r = 0 -> src <> 0 -> b <> 0 -> in_u 32 b ->
    state d = IMAGE_STATE_RESET -> image_size d' <> 0 -> in_u 32 (image_size d') ->
    n = (if image_size d' <? b then image_size d' else b) ->
    bl1_plat_mem_check src n flags = Some 0 ->
    free_base <= image_base d -> wrap 64 (image_base d + image_size d') <= wrap 64 (free_base + free_size) ->
    memcpy (memory s) (image_base d) src n = Some (memory s') -> copied_size d' = n ->
    state d' = (if n =? image_size d' then IMAGE_STATE_COPIED else IMAGE_STATE_COPYING) ->
    sec_exec_image_id s' = sec_exec_image_id s -> world s' = world s ->
    move ok fid flags r s s' d d'
| mv_auth base n bytes :
    fid = FWU_SMC_IMAGE_AUTH -> auth_allowed d flags = true -> r = 0 ->
    read_bytes (memory s) base n = Some bytes ->
    (auth_mod_verify_img (auth s) (image_id d) bytes).1 = 0 ->
    (state d = IMAGE_STATE_COPIED /\ base = image_base d /\ n = image_size d \/
     state d = IMAGE_STATE_RESET /\ in_u 32 n) ->
    image_size d' = n -> copied_size d' = copied_size d ->
    state d' = IMAGE_STATE_AUTHENTICATED -> memory s' = memory s ->
    sec_exec_image_id s' = sec_exec_image_id s -> world s' = world s ->
    move ok fid flags r s s' d d'
| mv_auth_wiped :
    fid = FWU_SMC_IMAGE_AUTH -> state d = IMAGE_STATE_COPIED -> r = - EAUTH -> state d' = IMAGE_STATE_RESET ->
    image_size d' = image_size d -> copied_size d' = copied_size d ->
    memory s' = memset (memory s) (image_base d) 0 (image_size d) ->
    sec_exec_image_id s' = sec_exec_image_id s -> world s' = world s ->
    move ok fid flags r s s' d d'
| mv_auth_failed :
    fid = FWU_SMC_IMAGE_AUTH -> state d = IMAGE_STATE_RESET -> r = - EAUTH -> state d' = IMAGE_STATE_RESET ->
    in_u 32 (image_size d') -> copied_size d' = copied_size d -> memory s' = memory s ->
    sec_exec_image_id s' = sec_exec_image_id s -> world s' = world s ->
    move ok fid flags r s s' d d'
| mv_execute :
    fid = FWU_SMC_IMAGE_EXECUTE -> GET_SECURITY_STATE flags <> SECURE -> secure d -> executable d -> r = 0 ->
    state d = IMAGE_STATE_AUTHENTICATED -> d' = with_state d IMAGE_STATE_EXECUTED -> memory s' = memory s ->
    sec_exec_image_id s' = image_id d -> world s' = SECURE ->
    move ok fid flags r s s' d d'
| mv_interrupt :
    fid = FWU_SMC_IMAGE_RESUME -> GET_SECURITY_STATE flags = SECURE -> secure d -> sec_exec_image_id s = image_id d ->
    state d = IMAGE_STATE_EXECUTED -> d' = with_state d IMAGE_STATE_INTERRUPTED -> memory s' = memory s ->
    sec_exec_image_id s' = sec_exec_image_id s -> world s' = NON_SECURE ->
    move ok fid flags r s s' d d'
| mv_resume :
    fid = FWU_SMC_IMAGE_RESUME -> GET_SECURITY_STATE flags <> SECURE -> secure d -> sec_exec_image_id s = image_id d ->
    state d = IMAGE_STATE_INTERRUPTED -> d' = with_state d IMAGE_STATE_EXECUTED -> memory s' = memory s ->
    sec_exec_image_id s' = sec_exec_image_id s -> world s' = SECURE ->
    move ok fid flags r s s' d d'
| mv_done :
    fid = FWU_SMC_SEC_IMAGE_DONE -> GET_SECURITY_STATE flags = SECURE -> secure d -> sec_exec_image_id s = image_id d -> r = 0 ->
    state d = IMAGE_STATE_EXECUTED -> d' = with_state d IMAGE_STATE_RESET -> memory s' = memory s ->
    sec_exec_image_id s' = INVALID_IMAGE_ID -> world s' = NON_SECURE ->
    move ok fid flags r s s' d d'.

(** The image a call is about: the one it names, or the one that is being run. *)
Definition addressed (fid id : Z) (s : fwu) : Z :=
  if (fid =? FWU_SMC_IMAGE_RESUME) || (fid =? FWU_SMC_SEC_IMAGE_DONE) then sec_exec_image_id s else id.
(** The world, the kind of image and the state a call takes. *)
Definition permitted (fid flags : Z) (d : image_desc) : bool :=
  let normal := negb (GET_SECURITY_STATE flags =? SECURE) in
  let sec := GET_SECURITY_STATE (attr d) =? SECURE in
  let exe := EP_GET_EXE (attr d) =? EXECUTABLE in
  if fid =? FWU_SMC_IMAGE_COPY then
    normal && sec && bool_decide (state d = IMAGE_STATE_RESET \/ state d = IMAGE_STATE_COPYING)
  else if fid =? FWU_SMC_IMAGE_AUTH then
    bool_decide (state d = if normal && sec then IMAGE_STATE_COPIED else IMAGE_STATE_RESET)
  else if fid =? FWU_SMC_IMAGE_EXECUTE then
    normal && sec && exe && bool_decide (state d = IMAGE_STATE_AUTHENTICATED)
  else if fid =? FWU_SMC_IMAGE_RESUME then
    sec && exe && bool_decide (state d = if normal then IMAGE_STATE_INTERRUPTED else IMAGE_STATE_EXECUTED)
  else negb normal && sec && exe && bool_decide (state d = IMAGE_STATE_EXECUTED).

(** Why a call is refused: nothing permits it, or its arguments name no memory the caller may use. *)
Definition refused (fid id flags r : Z) (s : fwu) : Prop :=
  match find_desc (descs s) (addressed fid id s) 0 with
  | None => r = - EPERM
  | Some (_, d) => if permitted fid flags d then r = - ENOMEM /\ (fid = FWU_SMC_IMAGE_COPY \/ fid = FWU_SMC_IMAGE_AUTH)
                   else r = - EPERM
  end.
Lemma refused_neg fid id flags r s : refused fid id flags r s -> r < 0.
Proof. unfold refused, EPERM, ENOMEM. repeat case_match; lia. Qed.
Lemma refused_absent fid id flags s : find_desc (descs s) (addressed fid id s) 0 = None -> refused fid id flags (- EPERM) s.
Proof. unfold refused. by intros ->. Qed.
Lemma refused_perm fid id flags s i d : find_desc (descs s) (addressed fid id s) 0 = Some (i, d) ->
  permitted fid flags d = false -> refused fid id flags (- EPERM) s.
Proof. unfold refused. by intros -> ->. Qed.
Lemma refused_memory fid id flags s i d : find_desc (descs s) (addressed fid id s) 0 = Some (i, d) ->
  permitted fid flags d = true -> fid = FWU_SMC_IMAGE_COPY \/ fid = FWU_SMC_IMAGE_AUTH -> refused fid id flags (- ENOMEM) s.
Proof. unfold refused. by intros -> ->. Qed.

(** A call leaves the state alone, or moves one descriptor. *)
Inductive changes (ok : image_desc -> Z -> Prop) (fid id flags r : Z) (s s' : fwu) : Prop :=
| ch_none : s' = s -> refused fid id flags r s -> changes ok fid id flags r s s'
| ch_move i d d' :
    find_desc (descs s) (image_id d) 0 = Some (i, d) -> descs s' = <[i := d']> (descs s) ->
    image_id d = addressed fid id s /\ permitted fid flags d = true ->
    image_id d' = image_id d -> image_base d' = image_base d -> attr d' = attr d ->
    move ok fid flags r s s' d d' -> changes ok fid id flags r s s'.

(** Inversion of a monadic computation that returns. *)
Ltac minv Hm :=
  repeat first
    [ rewrite bind_gets in Hm
    | rewrite bind_modify in Hm
    | rewrite bind_ret in Hm
    | rewrite bind_assoc in Hm
    | match type of Hm with
      | (must ?o ≫= _) _ = Some _ =>
          let x := fresh "x" in let E := fresh "E" in
          destruct o as [x|] eqn:E; [rewrite (bind_must _ x _ _ eq_refl) in Hm|discriminate Hm]
      | (if ?b then _ else _) _ = Some _ => let E := fresh "E" in destruct b eqn:E
      | match ?o with _ => _ end _ = Some _ => let E := fresh "E" in destruct o eqn:E
      | mret _ _ = Some _ => injection Hm as <- <-
      end ].

(** Updates one after the other, each put together with those before. *)
Ltac modifies Hm := repeat (rewrite bind_modify in Hm; cbn [descs memory sec_exec_image_id auth actions world] in Hm).
(** A refusal, and the side condition of [ch_move] on the addressed image. *)
Ltac refuse := first [apply ch_none; [reflexivity|]; first
  [by apply refused_absent|by eapply refused_perm|eapply refused_memory; [eassumption|eassumption|by (left + right)]]].
Ltac ids := split; done.

Lemma sec_cases x : GET_SECURITY_STATE x = SECURE \/ GET_SECURITY_STATE x = NON_SECURE.
Proof.
  unfold GET_SECURITY_STATE. change 1 with (Z.ones 1). rewrite Z.land_ones by lia.
  pose proof (Z.mod_pos_bound x (2 ^ 1)). unfold SECURE, NON_SECURE. lia.
Qed.

Lemma secure_of_not x : (GET_SECURITY_STATE x =? NON_SECURE) = false -> GET_SECURITY_STATE x = SECURE.
Proof. intros ?%Z.eqb_neq. destruct (sec_cases x); done. Qed.

Lemma copy_permitted d flags :
  permitted FWU_SMC_IMAGE_COPY flags d =
  negb (bool_decide (state d <> IMAGE_STATE_RESET) && bool_decide (state d <> IMAGE_STATE_COPYING)) &&
  negb ((GET_SECURITY_STATE flags =? SECURE) || (GET_SECURITY_STATE (attr d) =? NON_SECURE)).
Proof.
  unfold permitted. cbn [Z.eqb FWU_SMC_IMAGE_COPY Pos.eqb].
  destruct (sec_cases (attr d)) as [-> | ->], (GET_SECURITY_STATE flags =? SECURE), (state d); reflexivity.
Qed.
Lemma auth_permitted d flags : permitted FWU_SMC_IMAGE_AUTH flags d = auth_allowed d flags.
Proof.
  unfold permitted, auth_allowed. cbn [Z.eqb FWU_SMC_IMAGE_COPY FWU_SMC_IMAGE_AUTH Pos.eqb].
  destruct (GET_SECURITY_STATE flags =? SECURE), (GET_SECURITY_STATE (attr d) =? SECURE); reflexivity.
Qed.
Lemma exe_cases x : EP_GET_EXE x = NON_EXECUTABLE \/ EP_GET_EXE x = EXECUTABLE.
Proof.
  unfold EP_GET_EXE, NON_EXECUTABLE, EXECUTABLE.
  change 8 with (2 ^ 3). destruct (Z.testbit x 3) eqn:Eb; [right|left];
    apply Z.bits_inj'; intros k Hk; rewrite Z.land_spec, Z.pow2_bits_eqb by lia;
    (destruct (Z.eqb_spec 3 k) as [<-|]; [rewrite Eb|rewrite andb_false_r]);
    rewrite ?Z.bits_0, ?Z.pow2_bits_eqb by lia; try done.
Qed.
Lemma execute_permitted d flags :
  permitted FWU_SMC_IMAGE_EXECUTE flags d =
  negb ((GET_SECURITY_STATE flags =? SECURE) || (GET_SECURITY_STATE (attr d) =? NON_SECURE)
         || (EP_GET_EXE (attr d) =? NON_EXECUTABLE) || bool_decide (state d <> IMAGE_STATE_AUTHENTICATED)).
Proof.
  unfold permitted. cbn [Z.eqb FWU_SMC_IMAGE_COPY FWU_SMC_IMAGE_AUTH FWU_SMC_IMAGE_EXECUTE Pos.eqb].
  destruct (sec_cases (attr d)) as [-> | ->], (exe_cases (attr d)) as [-> | ->], (GET_SECURITY_STATE flags =? SECURE), (state d);
    reflexivity.
Qed.

Lemma copy_changes ok id src b n flags s r s' :
  (forall i d, find_desc (descs s) id 0 = Some (i, d) -> ok d b) -> in_u 32 b -> in_u 32 n ->
  bl1_fwu_image_copy id src b n flags s = Some (r, s') -> changes ok FWU_SMC_IMAGE_COPY id flags r s s'.
Proof.
  intros Hok Hbr Hnr Hm. unfold bl1_fwu_image_copy, bl1_plat_get_image_desc in Hm. rewrite bind_gets in Hm.
  destruct (find_desc (descs s) id 0) as [[i d]|] eqn:Ef; [|minv Hm; refuse].
  pose proof (copy_permitted d flags) as Hp. pose proof Ef as Ea. change id with (addressed FWU_SMC_IMAGE_COPY id s) in Ea.
  minv Hm; rewrite ?E, ?E0 in Hp; cbn [negb andb] in Hp; try refuse.
  all: apply orb_false_iff in E0 as [Hw%Z.eqb_neq Hsec%secure_of_not];
    apply orb_false_iff in E1 as [Hsrc%Z.eqb_neq Hb%Z.eqb_neq];
    pose proof (find_desc_lookup _ _ _ _ Ef) as [_ Hid]; subst id.
  - apply bool_decide_eq_true in E2. unfold copy_continue, set_memory, set_desc in Hm. cbn zeta in Hm.
    set (n' := if image_size d <? _ then _ else _) in Hm.
    destruct (bl1_plat_mem_check src n' flags) as [c|] eqn:Ec; [rewrite (bind_must _ c _ _ eq_refl) in Hm|done].
    destruct (Z.eqb_spec c 0) as [->|Hc]; cbn [negb] in Hm; [|minv Hm; refuse].
    rewrite bind_gets in Hm. destruct (memcpy _ _ src n') as [m'|] eqn:Em; [rewrite (bind_must _ m' _ _ eq_refl) in Hm|done].
    minv Hm. eapply ch_move; [exact Ef|reflexivity|ids|..].
    4: { eapply (mv_copy_more _ _ _ _ _ _ d _ src b n'); try reflexivity; try done; [by eapply Hok|..];
         cbn; destruct (_ =? image_size d) eqn:Eq; cbn; by rewrite ?Eq. }
    all: cbn; by destruct (_ =? image_size d).
  - apply bool_decide_eq_false in E2.
    assert (state d = IMAGE_STATE_RESET) as Hreset.
    { apply andb_false_iff in E. rewrite !bool_decide_eq_false in E. destruct E as [E|E]; by apply dec_stable in E. }
    unfold copy_fresh, set_memory, set_desc in Hm. cbn zeta in Hm.
    destruct (Z.eqb_spec n 0) as [->|Hn0]; [minv Hm; refuse|].
    set (n' := if n <? b then _ else _) in Hm.
    destruct (bl1_plat_mem_check src n' flags) as [c|] eqn:Ec; [rewrite (bind_must _ c _ _ eq_refl) in Hm|done].
    destruct (Z.eqb_spec c 0) as [->|Hc]; cbn [negb] in Hm; [|minv Hm; refuse].
    destruct (_ || _) eqn:Ebound; [minv Hm; refuse|].
    apply orb_false_iff in Ebound as [?%Z.ltb_ge ?%Z.ltb_ge].
    rewrite bind_gets in Hm. destruct (memcpy _ _ src n') as [m'|] eqn:Em; [rewrite (bind_must _ m' _ _ eq_refl) in Hm|done].
    minv Hm. eapply ch_move; [exact Ef|reflexivity|ids|done|done|done|].
    by eapply (mv_copy_fresh _ _ _ _ _ _ d _ src b n').
Qed.

Lemma auth_verify_changes ok i d base n flags s r s' :
  find_desc (descs s) (image_id d) 0 = Some (i, d) -> auth_allowed d flags = true ->
  state d = IMAGE_STATE_COPIED /\ base = image_base d /\ n = image_size d ->
  auth_verify i d base n s = Some (r, s') -> changes ok FWU_SMC_IMAGE_AUTH (image_id d) flags r s s'.
Proof.
  rewrite <- auth_permitted. intros Ef Ha (Hst & -> & ->) Hm. unfold auth_verify, set_auth, set_memory, set_desc in Hm. rewrite !bind_gets in Hm.
  destruct (read_bytes _ _ _) as [bytes|] eqn:Er; [rewrite (bind_must _ bytes _ _ eq_refl) in Hm|done].
  destruct (auth_mod_verify_img _ _ _) as [result a] eqn:Ev. rewrite bind_modify in Hm.
  destruct (Z.eqb_spec result 0) as [->|Hr]; cbn [negb] in Hm.
  - minv Hm. eapply ch_move; [exact Ef|reflexivity|ids|done|done|done|].
    eapply (mv_auth _ _ _ _ _ _ _ _ (image_base d) (image_size d) bytes); try done; [by rewrite <- auth_permitted|by rewrite Ev|by left].
  - rewrite bool_decide_true in Hm by done. minv Hm.
    eapply ch_move; [exact Ef|reflexivity|ids|done|done|done|]. by apply mv_auth_wiped.
Qed.

Lemma auth_changes ok id src n flags s r s' :
  in_u 32 n -> bl1_fwu_image_auth id src n flags s = Some (r, s') -> changes ok FWU_SMC_IMAGE_AUTH id flags r s s'.
Proof.
  intros Hnr Hm. unfold bl1_fwu_image_auth, bl1_plat_get_image_desc in Hm. rewrite bind_gets in Hm.
  destruct (find_desc (descs s) id 0) as [[i d]|] eqn:Ef; [|minv Hm; refuse].
  pose proof (find_desc_lookup _ _ _ _ Ef) as [Hlk Hid]. subst id.
  pose proof Ef as Ea. change (image_id d) with (addressed FWU_SMC_IMAGE_AUTH (image_id d) s) in Ea.
  pose proof (auth_permitted d flags) as Hp.
  destruct (auth_allowed d flags) eqn:Ha; cbn [negb] in Hm; [|minv Hm; refuse].
  case_bool_decide as Hst; [by eapply auth_verify_changes|].
  assert (state d = IMAGE_STATE_RESET) as Hreset.
  { unfold auth_allowed in Ha. repeat case_match; apply bool_decide_eq_true in Ha; done. }
  destruct ((src =? 0) || (n =? 0)); [minv Hm; refuse|].
  destruct (bl1_plat_mem_check src n (attr d)) as [c|] eqn:Ec; [rewrite (bind_must _ c _ _ eq_refl) in Hm|done].
  destruct (Z.eqb_spec c 0) as [->|Hc]; cbn [negb] in Hm; [|minv Hm; refuse].
  unfold set_desc at 1, auth_verify, set_auth, set_memory, set_desc in Hm. cbn zeta in Hm.
  rewrite bind_modify, !bind_gets in Hm. cbn [memory auth image_id with_size state] in Hm.
  destruct (read_bytes _ _ _) as [bytes|] eqn:Er; [rewrite (bind_must _ bytes _ _ eq_refl) in Hm|done].
  destruct (auth_mod_verify_img _ _ _) as [result a] eqn:Ev. rewrite bind_modify in Hm.
  destruct (Z.eqb_spec result 0) as [->|Hr]; cbn [negb] in Hm.
  - minv Hm. eapply ch_move; [exact Ef| |..].
    1: { cbn. by rewrite list_insert_insert_eq. }
    1: ids. 1-3: done. eapply (mv_auth _ _ _ _ _ _ _ _ src n bytes); try done; [by rewrite Ev|by right].
  - rewrite bool_decide_false in Hm by (cbn; congruence). minv Hm.
    eapply ch_move; [exact Ef|reflexivity|ids|done|done|done|]. by apply mv_auth_failed.
Qed.

Lemma execute_changes ok id flags s r s' :
  bl1_fwu_image_execute id flags s = Some (r, s') -> changes ok FWU_SMC_IMAGE_EXECUTE id flags r s s'.
Proof.
  intros Hm. unfold bl1_fwu_image_execute, bl1_plat_get_image_desc in Hm. rewrite bind_gets in Hm.
  destruct (find_desc (descs s) id 0) as [[i d]|] eqn:Ef; [|minv Hm; refuse].
  pose proof (find_desc_lookup _ _ _ _ Ef) as [_ Hid]. subst id.
  pose proof Ef as Ea. change (image_id d) with (addressed FWU_SMC_IMAGE_EXECUTE (image_id d) s) in Ea.
  pose proof (execute_permitted d flags) as Hp.
  destruct (_ || _) eqn:Eg; cbn [negb] in Hp; [minv Hm; refuse|].
  rewrite !orb_false_iff in Eg. destruct Eg as [[[Hw%Z.eqb_neq Hs%secure_of_not] He%Z.eqb_neq] Hst%bool_decide_eq_false].
  apply dec_stable in Hst. unfold act at 1, bl1_prepare_next_image, bl1_plat_get_image_desc in Hm.
  rewrite bind_modify in Hm. destruct (ctx_include_aarch32_regs && _); [done|].
  rewrite !bind_assoc, bind_ret, ?bind_assoc, bind_gets in Hm. cbn [descs] in Hm. rewrite Ef in Hm.
  unfold act, set_desc, set_sec_exec, set_handle in Hm. rewrite ?bind_assoc in Hm. modifies Hm. injection Hm as <- <-.
  eapply ch_move; [exact Ef|reflexivity|ids|done|done|done|]. apply mv_execute; try done.
  unfold executable. by destruct (exe_cases (attr d)).
Qed.

Lemma resume_changes ok id p flags s r s' :
  bl1_fwu_image_resume p flags s = Some (r, s') -> changes ok FWU_SMC_IMAGE_RESUME id flags r s s'.
Proof.
  intros Hm. unfold bl1_fwu_image_resume, bl1_plat_get_image_desc in Hm. cbn zeta in Hm. rewrite !bind_gets in Hm.
  destruct (find_desc (descs s) (sec_exec_image_id s) 0) as [[i d]|] eqn:Ef.
  2: { destruct (_ =? NON_SECURE); minv Hm; [refuse|done]. }
  pose proof (find_desc_lookup _ _ _ _ Ef) as [_ Hid]. rewrite <- Hid in Ef.
  unfold assert, set_desc, act, set_handle in Hm.
  destruct (Z.eqb_spec (GET_SECURITY_STATE (attr d)) SECURE) as [Hs|]; [rewrite bind_ret in Hm|done].
  destruct (Z.eqb_spec (EP_GET_EXE (attr d)) EXECUTABLE) as [He|]; [rewrite bind_ret in Hm|done].
  destruct (Z.eqb_spec (GET_SECURITY_STATE flags) SECURE) as [Hw|Hw]; case_bool_decide as Hst; try done; minv Hm;
    (eapply ch_move; [exact Ef|reflexivity| |done|done|done|]); [|by apply mv_interrupt| |by apply mv_resume].
  all: split; [exact Hid|]; unfold permitted; cbn [Z.eqb FWU_SMC_IMAGE_COPY FWU_SMC_IMAGE_AUTH FWU_SMC_IMAGE_EXECUTE FWU_SMC_IMAGE_RESUME Pos.eqb];
    rewrite Hs, He, ?Hw, ?(proj2 (Z.eqb_neq _ _) Hw), Hst; reflexivity.
Qed.

Lemma done_changes ok id flags s r s' :
  bl1_fwu_sec_image_done flags s = Some (r, s') -> changes ok FWU_SMC_SEC_IMAGE_DONE id flags r s s'.
Proof.
  intros Hm. unfold bl1_fwu_sec_image_done, bl1_plat_get_image_desc in Hm.
  destruct (Z.eqb_spec (GET_SECURITY_STATE flags) NON_SECURE) as [Hw|Hw].
  { minv Hm. apply ch_none; [done|]. unfold refused, permitted. cbn. rewrite Hw. case_match; [case_match|]; done. }
  rewrite !bind_gets in Hm. destruct (find_desc (descs s) (sec_exec_image_id s) 0) as [[i d]|] eqn:Ef; [|done].
  pose proof (find_desc_lookup _ _ _ _ Ef) as [_ Hid]. rewrite <- Hid in Ef.
  unfold assert, set_desc, act, set_handle, set_sec_exec in Hm.
  destruct (Z.eqb_spec (GET_SECURITY_STATE (attr d)) SECURE) as [Hs|]; [rewrite bind_ret in Hm|done].
  destruct (Z.eqb_spec (EP_GET_EXE (attr d)) EXECUTABLE) as [He|]; [rewrite bind_ret in Hm|done].
  case_bool_decide as Hst; [rewrite bind_ret in Hm|done]. minv Hm.
  assert (GET_SECURITY_STATE flags = SECURE) as Hw' by (by destruct (sec_cases flags)).
  eapply ch_move; [exact Ef|reflexivity| |done|done|done|by apply mv_done].
  split; [exact Hid|]. unfold permitted. cbn. by rewrite Hs, He, Hw', Hst.
Qed.

Lemma handler_changes ok fid x1 x2 x3 x4 flags s r s' :
  (fid = FWU_SMC_IMAGE_COPY -> forall i d, find_desc (descs s) (wrap 32 x1) 0 = Some (i, d) -> ok d (wrap 32 x3)) ->
  bl1_fwu_smc_handler fid x1 x2 x3 x4 flags s = Some (r, s') -> changes ok fid (wrap 32 x1) flags r s s'.
Proof.
  assert (forall x, in_u 32 (wrap 32 x)) as Hr by (intros x; apply wrap_range; lia).
  unfold bl1_fwu_smc_handler. intros Hok. repeat case_match; intros Hm; [..|done].
  all: match goal with E : (?f =? _) = true |- _ => apply Z.eqb_eq in E; try subst f end.
  - eapply copy_changes; eauto.
  - by eapply auth_changes in Hm.
  - by eapply execute_changes in Hm.
  - by eapply resume_changes in Hm.
  - by eapply done_changes in Hm.
Qed.

(** ** The state machine *)
(** The edges, each with the call that takes it and the call's result.  Who may make the call, for which image
    and in which state, is [permitted]. *)
Inductive edge (fid flags r : Z) (d d' : image_desc) : Prop :=
| e_copy : fid = FWU_SMC_IMAGE_COPY -> r = 0 ->
    state d = IMAGE_STATE_RESET \/ state d = IMAGE_STATE_COPYING /\ image_size d' = image_size d ->
    state d' = (if copied_size d' =? image_size d' then IMAGE_STATE_COPIED else IMAGE_STATE_COPYING) ->
    edge fid flags r d d'
| e_auth : fid = FWU_SMC_IMAGE_AUTH -> r = 0 -> state d' = IMAGE_STATE_AUTHENTICATED -> edge fid flags r d d'
| e_auth_failed : fid = FWU_SMC_IMAGE_AUTH -> r = - EAUTH -> state d' = IMAGE_STATE_RESET -> edge fid flags r d d'
| e_execute : fid = FWU_SMC_IMAGE_EXECUTE -> r = 0 -> d' = with_state d IMAGE_STATE_EXECUTED -> edge fid flags r d d'
| e_interrupt : fid = FWU_SMC_IMAGE_RESUME -> GET_SECURITY_STATE flags = SECURE ->
    d' = with_state d IMAGE_STATE_INTERRUPTED -> edge fid flags r d d'
| e_resume : fid = FWU_SMC_IMAGE_RESUME -> GET_SECURITY_STATE flags <> SECURE ->
    d' = with_state d IMAGE_STATE_EXECUTED -> edge fid flags r d d'
| e_done : fid = FWU_SMC_SEC_IMAGE_DONE -> r = 0 -> d' = with_state d IMAGE_STATE_RESET -> edge fid flags r d d'.

(** The image that is being run and the world that runs, after a call that was not refused. *)
Definition next_run (fid flags : Z) (s : fwu) (d : image_desc) : Z * Z :=
  if fid =? FWU_SMC_IMAGE_EXECUTE then (image_id d, SECURE)
  else if fid =? FWU_SMC_IMAGE_RESUME then
    (sec_exec_image_id s, if GET_SECURITY_STATE flags =? SECURE then NON_SECURE else SECURE)
  else if fid =? FWU_SMC_SEC_IMAGE_DONE then (INVALID_IMAGE_ID, NON_SECURE)
  else (sec_exec_image_id s, world s).

Lemma move_edge ok fid flags r s s' d d' : move ok fid flags r s s' d d' ->
  edge fid flags r d d' /\ (sec_exec_image_id s', world s') = next_run fid flags s d.
Proof.
  intros [src b n Ef _ _ Er _ _ _ Hst _ _ _ _ Hn _ Hst' Hx Hw|src b n Ef _ _ Er _ _ _ Hst _ _ _ _ _ _ _ Hc Hst' Hx Hw
    |base n bytes Ef _ Er _ _ _ _ _ Hst' _ Hx Hw|Ef _ Er Hst' _ _ _ Hx Hw|Ef _ Er Hst' _ _ _ Hx Hw
    |Ef _ _ _ Er _ Hd _ Hx Hw|Ef Hs _ _ _ Hd _ Hx Hw|Ef Hs _ _ _ Hd _ Hx Hw|Ef _ _ _ Er _ Hd _ Hx Hw].
  all: split; [|rewrite Hx, Hw, Ef; unfold next_run; cbn; rewrite ?Hs, ?(proj2 (Z.eqb_neq _ _) Hs); reflexivity].
  - apply e_copy; [done|done|by right|]. by rewrite Hn.
  - apply e_copy; [done|done|by left|]. by rewrite Hc.
  - by apply e_auth.
  - by apply e_auth_failed.
  - by apply e_auth_failed.
  - by apply e_execute.
  - by apply e_interrupt.
  - by apply e_resume.
  - by apply e_done.
Qed.

(** ** Invariants *)
Class PlatformLaws : Prop := {
  (** The cores have what the build saves. *)
  aarch32_fits : ctx_include_aarch32_regs && el1_aarch64_only = false;
  free_range : 0 <= free_base /\ 0 <= free_size /\ free_base + free_size < 2 ^ 63;
  (** The check has an answer for a source and a size that are not zero. *)
  mem_check_total src n flags : src <> 0 -> n <> 0 -> is_Some (bl1_plat_mem_check src n flags);
  (** What the Normal world may pass is outside the free trusted RAM. *)
  mem_check_apart src n flags :
    in_u 64 src -> in_u 32 n -> GET_SECURITY_STATE flags <> SECURE -> bl1_plat_mem_check src n flags = Some 0 ->
    src + n <= free_base \/ free_base + free_size <= src
}.
Context {HL : PlatformLaws}.

Definition in_free (d : image_desc) : Prop :=
  free_base <= image_base d /\ image_base d + image_size d <= free_base + free_size.
Definition desc_ok (d : image_desc) : Prop :=
  0 <= image_base d < 2 ^ 63 /\ in_u 32 (copied_size d) /\ in_u 32 (image_size d) /\
  image_id d <> INVALID_IMAGE_ID /\
  (state d = IMAGE_STATE_COPYING -> in_free d /\ 0 < copied_size d < image_size d) /\
  (state d = IMAGE_STATE_COPIED -> in_free d /\ copied_size d = image_size d).

(** The last secure image that was started runs in the Secure world, or is interrupted
    while the Normal world runs. *)
Definition running (s : fwu) : Prop :=
  exists i d, find_desc (descs s) (sec_exec_image_id s) 0 = Some (i, d) /\ secure d /\ executable d /\
    state d = if decide (world s = SECURE) then IMAGE_STATE_EXECUTED else IMAGE_STATE_INTERRUPTED.

Record inv (s : fwu) : Prop := {
  inv_desc : Forall desc_ok (descs s);
  inv_world : world s = SECURE \/ world s = NON_SECURE;
  inv_running : world s = NON_SECURE /\ sec_exec_image_id s = INVALID_IMAGE_ID \/ running s
}.

(** A block that continues a copy does not wrap the 32-bit counter of copied bytes. *)
Definition no_wrap (d : image_desc) (b : Z) : Prop :=
  state d = IMAGE_STATE_COPYING -> copied_size d + b < 2 ^ 32.

Lemma move_desc_ok fid flags r s s' d d' :
  desc_ok d -> image_id d' = image_id d -> image_base d' = image_base d ->
  move no_wrap fid flags r s s' d d' -> desc_ok d'.
Proof.
  intros (Hb & Hc & Hs & Hid & Hcg & Hcd) Ei Eb Hm. pose proof free_range as (? & ? & ?).
  unfold desc_ok, in_free, in_u in *. rewrite Ei, Eb.
  destruct Hm as [src b n _ _ _ _ _ Hb0 Hbr Hst Hok En _ _ Es Ec Est|src b n _ _ _ _ _ Hb0 Hbr Hst Hs0 Hsr En _ Hlo Hhi _ Ec Est
    |base n bytes _ _ _ _ _ Hcase Es Ec Est|_ _ _ Est Es Ec|_ _ _ Est Es Ec|_ _ _ _ _ _ ->|_ _ _ _ _ ->|_ _ _ _ _ ->|_ _ _ _ _ _ ->];
    unfold in_u in *; cbn in *; rewrite ?Est, ?Ec, ?Es in *; try (repeat split; try done; lia).
  - specialize (Hcg Hst). specialize (Hok Hst). rewrite (wrap_small 32 (copied_size d + b)) in En by lia.
    assert (n = Z.min b (image_size d - copied_size d)) as ->.
    { rewrite En. destruct (Z.ltb_spec (image_size d) (copied_size d + b)); [rewrite wrap_small|]; lia. }
    rewrite wrap_small by lia. split; [lia|]. split; [lia|]. split; [lia|]. split; [done|].
    destruct (Z.eqb_spec (copied_size d + Z.min b (image_size d - copied_size d)) (image_size d)); split; try done; lia.
  - rewrite !wrap_small in Hhi by lia.
    assert (n = Z.min b (image_size d')) as -> by (rewrite En; destruct (Z.ltb_spec (image_size d') b); lia).
    split; [lia|]. split; [lia|]. split; [lia|]. split; [done|].
    destruct (Z.eqb_spec (Z.min b (image_size d')) (image_size d')); split; try done; lia.
Qed.

(** The caller is the world that runs. *)
Definition called_by (s : fwu) (flags : Z) : Prop := GET_SECURITY_STATE flags = world s.

Lemma running_desc s : inv s -> forall i d,
  find_desc (descs s) (sec_exec_image_id s) 0 = Some (i, d) -> running s.
Proof.
  intros [Hd _ Hr] i d Hf. destruct Hr as [[_ He]|]; [|done]. apply find_desc_lookup in Hf as [Hl Hid].
  pose proof (Forall_lookup_1 _ _ _ _ Hd Hl) as (_ & _ & _ & ? & _). congruence.
Qed.

(** The running image, seen through its descriptor. *)
Lemma running_found s flags i d :
  inv s -> called_by s flags -> find_desc (descs s) (sec_exec_image_id s) 0 = Some (i, d) ->
  secure d /\ executable d /\
  state d = if decide (GET_SECURITY_STATE flags = SECURE) then IMAGE_STATE_EXECUTED else IMAGE_STATE_INTERRUPTED.
Proof.
  intros Hi Hw Hf. destruct (running_desc _ Hi _ _ Hf) as (i' & d' & Hf' & Hs & He & Hst).
  rewrite Hf in Hf'. injection Hf' as <- <-. by rewrite Hw.
Qed.

Lemma inv_running_other s s' i d d' :
  inv s -> find_desc (descs s) (image_id d) 0 = Some (i, d) -> descs s' = <[i := d']> (descs s) ->
  image_id d' = image_id d -> sec_exec_image_id s' = sec_exec_image_id s -> world s' = world s ->
  state d <> IMAGE_STATE_EXECUTED -> state d <> IMAGE_STATE_INTERRUPTED ->
  world s' = NON_SECURE /\ sec_exec_image_id s' = INVALID_IMAGE_ID \/ running s'.
Proof.
  intros [_ _ [Hr|(i' & r & Hf & Hs & He & Hst)]] Ef Ed Hid Ee Ew Hn1 Hn2; [left; by rewrite Ee, Ew|right].
  assert (sec_exec_image_id s <> image_id d) as Hne.
  { intros E. rewrite E, Ef in Hf. injection Hf as <- <-. case_decide; done. }
  exists i', r. rewrite Ed, Ew, Ee. split; [|done]. by rewrite (find_desc_set _ _ _ _ _ _ Ef), decide_False.
Qed.

Lemma inv_running_this s' i d' l :
  descs s' = <[i := d']> l -> forall d, find_desc l (image_id d') 0 = Some (i, d) ->
  sec_exec_image_id s' = image_id d' -> secure d' -> executable d' ->
  state d' = (if decide (world s' = SECURE) then IMAGE_STATE_EXECUTED else IMAGE_STATE_INTERRUPTED) -> running s'.
Proof.
  intros Ed d Ef Ee Hs He Hst. exists i, d'. rewrite Ed, Ee. split; [|done].
  by rewrite (find_desc_set _ _ _ _ _ _ Ef), decide_True.
Qed.

(** The invariant holds after every call of the running world. *)
Lemma inv_changes fid id flags r s s' :
  inv s -> called_by s flags -> changes no_wrap fid id flags r s s' -> inv s'.
Proof.
  intros Hi Hw Hc. destruct Hc as [-> _|i d d' Ef Ed Hids Hid Hb Ha Hm]; [done|].
  pose proof (find_desc_lookup _ _ _ _ Ef) as [Hl _].
  pose proof (Forall_lookup_1 _ _ _ _ (inv_desc _ Hi) Hl) as Hok.
  assert (inv_desc' : Forall desc_ok (descs s')).
  { rewrite Ed. apply Forall_insert; [apply Hi|]. by eapply move_desc_ok. }
  assert (Hsec : secure d -> secure d') by (unfold secure; by rewrite Ha).
  assert (Hexe : executable d -> executable d') by (unfold executable; by rewrite Ha).
  rewrite <- Hid in Ef. pose proof (inv_world _ Hi) as Hworld.
  assert (forall e, state d = e -> e <> IMAGE_STATE_EXECUTED -> e <> IMAGE_STATE_INTERRUPTED ->
    sec_exec_image_id s' = sec_exec_image_id s -> world s' = world s -> inv s') as Hother.
  { intros e He H1 H2 Hs' Hw'. split; [done|by rewrite Hw'|]. rewrite Hid in Ef.
    eapply inv_running_other; try done; congruence. }
  assert (forall w, world s' = w -> w = SECURE \/ w = NON_SECURE -> sec_exec_image_id s' = image_id d' ->
    secure d' -> executable d' -> state d' = (if decide (w = SECURE) then IMAGE_STATE_EXECUTED else IMAGE_STATE_INTERRUPTED) ->
    inv s') as Hthis.
  { intros w <- Hww Hs' Hse Hx Hst. split; [done|done|right]. by eapply inv_running_this. }
  destruct Hm as [src b n _ _ _ _ _ _ _ Hst _ _ _ _ _ _ _ Hs' Hw'|src b n _ _ _ _ _ _ _ Hst _ _ _ _ _ _ _ _ _ Hs' Hw'
    |base n bytes _ _ _ _ _ Hst _ _ _ _ Hs' Hw'|_ Hst _ _ _ _ _ Hs' Hw'|_ Hst _ _ _ _ _ Hs' Hw'
    |_ Hn Hs He _ Hst -> _ Hs' Hw'|_ Hn Hs Hsx Hst -> _ Hs' Hw'|_ Hn Hs Hsx Hst -> _ Hs' Hw'|_ Hn Hs Hsx _ Hst -> _ Hs' Hw'];
    try (by eapply Hother; [exact Hst|..]).
  - destruct Hst as [(Hst & _)|(Hst & _)]; by eapply Hother; [exact Hst|..].
  - eapply Hthis; [exact Hw'|by left|..]; auto.
  - cbn in Ef. rewrite <- Hsx in Ef. destruct (running_found _ _ _ _ Hi Hw Ef) as (_ & He & _).
    eapply Hthis; [exact Hw'|by right|..]; auto. by rewrite Hs'.
  - cbn in Ef. rewrite <- Hsx in Ef. destruct (running_found _ _ _ _ Hi Hw Ef) as (_ & He & _).
    eapply Hthis; [exact Hw'|by left|..]; auto. by rewrite Hs'.
  - split; [done|by right|by left].
Qed.

(** ** Progress *)
Lemma memcpy_some m dst src n :
  dst + n <= 2 ^ 64 -> src + n <= 2 ^ 64 -> dst + n <= src \/ src + n <= dst ->
  memcpy m dst src n = Some (fun a => if in_range a dst n then m (src + (a - dst)) else m a).
Proof.
  intros H1 H2 H3. unfold memcpy.
  rewrite (proj2 (Z.ltb_ge (2 ^ 64) (dst + n))), (proj2 (Z.ltb_ge (2 ^ 64) (src + n))) by lia. cbn [orb].
  destruct (Z.ltb_spec dst (src + n)), (Z.ltb_spec src (dst + n)); try done; lia.
Qed.

(** From the free trusted RAM to where the Normal world may point. *)
Lemma memcpy_free m dst src n flags :
  GET_SECURITY_STATE flags <> SECURE -> bl1_plat_mem_check src n flags = Some 0 -> 0 <= src -> 0 < n < 2 ^ 32 -> src + n <= 2 ^ 64 ->
  free_base <= dst -> dst + n <= free_base + free_size ->
  memcpy m dst src n = Some (fun a => if in_range a dst n then m (src + (a - dst)) else m a).
Proof.
  intros Hw Hc Hs0 Hn Hsrc Hlo Hhi. pose proof free_range as (? & ? & ?).
  apply mem_check_apart in Hc; [|unfold in_u; lia..|done]. apply memcpy_some; lia.
Qed.

Lemma continue_size d b :
  desc_ok d -> state d = IMAGE_STATE_COPYING -> no_wrap d b -> b <> 0 -> in_u 32 b ->
  (if image_size d <? wrap 32 (copied_size d + b) then wrap 32 (image_size d - copied_size d) else b)
  = Z.min b (image_size d - copied_size d).
Proof.
  intros (_ & Hc & Hs & _ & Hcg & _) Hst Hok Hb0 Hb. specialize (Hok Hst). specialize (Hcg Hst). unfold in_u in *.
  rewrite (wrap_small 32 (copied_size d + b)) by lia.
  destruct (Z.ltb_spec (image_size d) (copied_size d + b)); [rewrite wrap_small|]; lia.
Qed.

Lemma copy_total s id src b n flags :
  inv s -> in_u 32 b -> in_u 32 n -> 0 <= src -> src + b <= 2 ^ 64 ->
  (forall i d, find_desc (descs s) id 0 = Some (i, d) -> no_wrap d b) ->
  is_Some (bl1_fwu_image_copy id src b n flags s).
Proof.
  intros Hi Hb Hn Hsrc0 Hsrc Hok. unfold bl1_fwu_image_copy, bl1_plat_get_image_desc. rewrite bind_gets.
  destruct (find_desc (descs s) id 0) as [[i d]|] eqn:Ef; [|eauto]. specialize (Hok _ _ eq_refl).
  pose proof (find_desc_lookup _ _ _ _ Ef) as [Hl _].
  pose proof (Forall_lookup_1 _ _ _ _ (inv_desc _ Hi) Hl) as Hd. pose proof free_range as (? & ? & ?).
  destruct (_ && _) eqn:Es; [eauto|]. destruct (_ || _) eqn:Ew; [eauto|]. destruct ((src =? 0) || _) eqn:Ez; [eauto|].
  apply orb_false_iff in Ew as [Hw%Z.eqb_neq _]. apply orb_false_iff in Ez as [Hs0%Z.eqb_neq Hb0%Z.eqb_neq]. clear Es.
  case_bool_decide as Hst.
  - unfold copy_continue, set_memory, set_desc. cbn zeta. rewrite (continue_size _ _ Hd Hst Hok Hb0 Hb).
    destruct Hd as (Hbase & Hc & Hs & _ & Hcg & _). destruct (Hcg Hst) as ([Hlo Hhi] & Hcc).
    set (m := Z.min b _). assert (0 < m <= b /\ copied_size d + m <= image_size d) as [Hm Hm'] by (unfold in_u in *; lia).
    destruct (mem_check_total src m flags) as [c Ec]; [done|lia|]. rewrite (bind_must _ c _ _ Ec).
    destruct (Z.eqb_spec c 0) as [->|]; cbn [negb]; [|eauto]. rewrite bind_gets.
    rewrite (wrap_small 64 (image_base d + copied_size d)) by (unfold in_u in *; lia).
    erewrite bind_must; [|apply (memcpy_free _ _ _ _ flags); auto; unfold in_u in *; lia]. rewrite !bind_modify. eauto.
  - unfold copy_fresh, set_memory, set_desc. cbn zeta. destruct (Z.eqb_spec n 0) as [|Hn0]; [eauto|].
    set (m := if n <? b then n else b). assert (0 < m <= b /\ m <= n) as [Hm Hm'].
    { unfold m. unfold in_u in *. destruct (Z.ltb_spec n b); lia. }
    destruct (mem_check_total src m flags) as [c Ec]; [done|lia|]. rewrite (bind_must _ c _ _ Ec).
    destruct (Z.eqb_spec c 0) as [->|]; cbn [negb]; [|eauto]. destruct (_ || _) eqn:Ebd; [eauto|].
    apply orb_false_iff in Ebd as [Hlo%Z.ltb_ge Hhi%Z.ltb_ge]. destruct Hd as (Hbase & _). unfold in_u in *.
    rewrite !wrap_small in Hhi by lia. rewrite bind_gets.
    erewrite bind_must; [|apply (memcpy_free _ _ _ _ flags); auto; cbn; lia]. rewrite !bind_modify. eauto.
Qed.

Lemma auth_verify_total s i d base n :
  base + n <= 2 ^ 64 -> is_Some (auth_verify i d base n s).
Proof.
  intros Hr. unfold auth_verify, set_auth, set_memory, set_desc. rewrite !bind_gets.
  unfold read_bytes. rewrite (proj2 (Z.ltb_ge _ _)) by done. rewrite (bind_must _ _ _ _ eq_refl).
  destruct (auth_mod_verify_img _ _ _) as [res a]. rewrite bind_modify. destruct (res =? 0); cbn [negb].
  - rewrite bind_modify. eauto.
  - case_bool_decide; rewrite ?bind_assoc, ?bind_modify, ?bind_ret, ?bind_modify; eauto.
Qed.

Lemma auth_total s id src n flags :
  inv s -> src + n <= 2 ^ 64 -> is_Some (bl1_fwu_image_auth id src n flags s).
Proof.
  intros Hi Hr. unfold bl1_fwu_image_auth, bl1_plat_get_image_desc. rewrite bind_gets.
  destruct (find_desc (descs s) id 0) as [[i d]|] eqn:Ef; [|eauto].
  pose proof (find_desc_lookup _ _ _ _ Ef) as [Hl _].
  pose proof (Forall_lookup_1 _ _ _ _ (inv_desc _ Hi) Hl) as (_ & _ & _ & _ & _ & Hcd). pose proof free_range as (? & ? & ?).
  destruct (negb _); [eauto|]. case_bool_decide as Hst.
  - apply auth_verify_total. destruct (Hcd Hst) as [[_ ?] _]. lia.
  - destruct (_ || _) eqn:Ez; [eauto|]. apply orb_false_iff in Ez as [?%Z.eqb_neq ?%Z.eqb_neq].
    destruct (mem_check_total src n (attr d)) as [c Ec]; [done|done|]. rewrite (bind_must _ c _ _ Ec).
    destruct (negb _); [eauto|]. unfold set_desc. rewrite bind_modify. by apply auth_verify_total.
Qed.

Lemma execute_total s id flags : is_Some (bl1_fwu_image_execute id flags s).
Proof.
  unfold bl1_fwu_image_execute, bl1_plat_get_image_desc. rewrite bind_gets.
  destruct (find_desc (descs s) id 0) as [[i d]|] eqn:Ef; [|eauto]. destruct (_ || _); [eauto|].
  unfold act at 1, bl1_prepare_next_image, bl1_plat_get_image_desc. rewrite bind_modify, aarch32_fits.
  rewrite !bind_assoc, bind_ret, ?bind_assoc, bind_gets.
  cbn [descs]. rewrite Ef. unfold act, set_desc, set_sec_exec, set_handle.
  rewrite !bind_assoc, !bind_modify. eauto.
Qed.

Lemma resume_total s p flags : inv s -> called_by s flags -> is_Some (bl1_fwu_image_resume p flags s).
Proof.
  intros Hi Hw. unfold bl1_fwu_image_resume, bl1_plat_get_image_desc. cbn zeta. rewrite !bind_gets.
  destruct (find_desc (descs s) (sec_exec_image_id s) 0) as [[i d]|] eqn:Ef.
  - destruct (running_found _ _ _ _ Hi Hw Ef) as (Hs & He & Hst). unfold assert, set_desc, act, set_handle.
    rewrite Hs, He. cbn [Z.eqb SECURE EXECUTABLE]. rewrite !bind_ret, Hst.
    destruct (Z.eqb_spec (GET_SECURITY_STATE flags) SECURE).
    + rewrite decide_True by done. rewrite bool_decide_true by done. eauto.
    + rewrite decide_False by done. rewrite bool_decide_true by done. eauto.
  - destruct (inv_running _ Hi) as [[Hns _]|(? & ? & Hf & _)]; [|congruence].
    unfold called_by in Hw. rewrite Hw, Hns. cbn. eauto.
Qed.

Lemma done_total s flags : inv s -> called_by s flags -> is_Some (bl1_fwu_sec_image_done flags s).
Proof.
  intros Hi Hw. unfold bl1_fwu_sec_image_done, bl1_plat_get_image_desc.
  destruct (Z.eqb_spec (GET_SECURITY_STATE flags) NON_SECURE) as [|Hn]; [eauto|]. rewrite !bind_gets.
  destruct (inv_running _ Hi) as [[Hns _]|(i & d & Hf & _)]; [unfold called_by in *; congruence|].
  rewrite Hf. destruct (running_found _ _ _ _ Hi Hw Hf) as (Hs & He & Hst). rewrite Hs, He, Hst.
  rewrite decide_True by (destruct (sec_cases flags); done). unfold assert, set_desc, set_sec_exec, act, set_handle.
  cbn [Z.eqb SECURE EXECUTABLE]. rewrite bool_decide_true by done. eauto.
Qed.

Lemma handler_total fid x1 x2 x3 x4 flags s :
  inv s -> called_by s flags -> FWU_SMC_IMAGE_COPY <= fid <= FWU_SMC_SEC_IMAGE_DONE ->
  0 <= x2 -> x2 + wrap 32 x3 <= 2 ^ 64 ->
  (forall i d, find_desc (descs s) (wrap 32 x1) 0 = Some (i, d) -> no_wrap d (wrap 32 x3)) ->
  is_Some (bl1_fwu_smc_handler fid x1 x2 x3 x4 flags s).
Proof.
  intros Hi Hw Hf Hsrc0 Hsrc Hok. assert (forall x, in_u 32 (wrap 32 x)) as Hr by (intros x; apply wrap_range; lia).
  unfold bl1_fwu_smc_handler. repeat case_match.
  - by apply copy_total.
  - by apply auth_total.
  - apply execute_total.
  - by apply resume_total.
  - by apply done_total.
  - repeat match goal with E : (_ =? _) = false |- _ => apply Z.eqb_neq in E end.
    unfold FWU_SMC_IMAGE_COPY, FWU_SMC_IMAGE_AUTH, FWU_SMC_IMAGE_EXECUTE, FWU_SMC_IMAGE_RESUME, FWU_SMC_SEC_IMAGE_DONE in *. lia.
Qed.

(** ** Where calls write *)
Lemma memcpy_frame m dst src n m' a :
  memcpy m dst src n = Some m' -> a < dst \/ dst + n <= a -> m' a = m a.
Proof.
  unfold memcpy. destruct (_ || _); [done|]. intros [= <-] Ha. unfold in_range.
  destruct (Z.leb_spec dst a), (Z.ltb_spec a (dst + n)); try done; lia.
Qed.

Lemma memset_frame m dst c n a : a < dst \/ dst + n <= a -> memset m dst c n a = m a.
Proof.
  intros Ha. unfold memset, in_range. destruct (Z.leb_spec dst a), (Z.ltb_spec a (dst + n)); try done; lia.
Qed.

Lemma move_writes fid flags r s s' d d' a :
  desc_ok d -> move no_wrap fid flags r s s' d d' ->
  a < free_base \/ free_base + free_size <= a -> memory s' a = memory s a.
Proof.
  intros Hd Hm Ha. pose proof free_range as (? & ? & ?). pose proof Hd as (Hb & Hc & Hs & _ & Hcg & Hcd).
  destruct Hm as [src b n _ _ _ _ _ Hb0 Hbr Hst Hok En _ Em|src b n _ _ _ _ _ Hb0 Hbr Hst Hs0 Hsr En _ Hlo Hhi Em
    |base n bytes _ _ _ _ _ _ _ _ _ Em|_ Hst _ _ _ _ Em|_ _ _ _ _ _ Em|_ _ _ _ _ _ _ Em|_ _ _ _ _ _ Em|_ _ _ _ _ _ Em|_ _ _ _ _ _ _ Em];
    try (by rewrite Em).
  - rewrite (continue_size _ _ Hd Hst Hok Hb0 Hbr) in En. destruct (Hcg Hst) as [[? ?] ?]. unfold in_u in *.
    rewrite wrap_small in Em by lia. eapply memcpy_frame; [exact Em|]. lia.
  - unfold in_u in *. rewrite !wrap_small in Hhi by lia. eapply memcpy_frame; [exact Em|].
    subst n. destruct (Z.ltb_spec (image_size d') b); lia.
  - rewrite Em. destruct (Hcd Hst) as [[? ?] _]. apply memset_frame. lia.
Qed.

Lemma changes_writes fid id flags r s s' a :
  inv s -> changes no_wrap fid id flags r s s' ->
  a < free_base \/ free_base + free_size <= a -> memory s' a = memory s a.
Proof.
  intros Hi [->|i d d' Ef _ _ _ _ _ Hm] Ha; [done|]. eapply move_writes; [|exact Hm|done].
  apply find_desc_lookup in Ef as [Hl _]. by apply (Forall_lookup_1 _ _ _ _ (inv_desc _ Hi) Hl).
Qed.

(** ** Sequences of calls *)
Record call := Call { c_fid : Z; c_x1 : Z; c_x2 : Z; c_x3 : Z; c_x4 : Z; c_flags : Z }.
Definition perform (c : call) : M fwu Z :=
  bl1_fwu_smc_handler (c_fid c) (c_x1 c) (c_x2 c) (c_x3 c) (c_x4 c) (c_flags c).

(** Calls and their results, the last one first. *)
Inductive reach (s0 : fwu) : list (call * Z) -> fwu -> Prop :=
| r_start : reach s0 [] s0
| r_call tr s c r s' : reach s0 tr s -> perform c s = Some (r, s') -> reach s0 ((c, r) :: tr) s'.

(** The successful calls of one function for one image. *)
Definition succeeded (fid id : Z) (e : call * Z) : bool :=
  (c_fid e.1 =? fid) && (wrap 32 (c_x1 e.1) =? id) && (e.2 =? 0).
Definition count (fid id : Z) (tr : list (call * Z)) : nat := length (filter (fun e => succeeded fid id e = true) tr).
Definition authenticated (d : image_desc) : nat := if decide (state d = IMAGE_STATE_AUTHENTICATED) then 1 else 0.

Lemma count_cons fid id e tr : count fid id (e :: tr) = ((if succeeded fid id e then 1 else 0) + count fid id tr)%nat.
Proof. unfold count. rewrite filter_cons. destruct (succeeded fid id e); [by rewrite decide_True|by rewrite decide_False]. Qed.

(** What one call does to an image's state, as far as authentication goes. *)
Lemma changes_authenticated ok c r s s' id i d :
  changes ok (c_fid c) (wrap 32 (c_x1 c)) (c_flags c) r s s' -> find_desc (descs s) id 0 = Some (i, d) ->
  exists d', find_desc (descs s') id 0 = Some (i, d') /\
    (authenticated d' + (if succeeded FWU_SMC_IMAGE_EXECUTE id (c, r) then 1 else 0)
     = authenticated d + (if succeeded FWU_SMC_IMAGE_AUTH id (c, r) then 1 else 0))%nat.
Proof.
  unfold succeeded. cbn [fst snd]. intros [-> Hneg|i' e e' Ef Ed Ha Hid _ _ Hm] Hf.
  { exists d. split; [done|]. apply refused_neg in Hneg. rewrite (proj2 (Z.eqb_neq r 0)), !andb_false_r by lia. done. }
  assert (c_fid c = FWU_SMC_IMAGE_AUTH \/ c_fid c = FWU_SMC_IMAGE_EXECUTE -> image_id e = wrap 32 (c_x1 c)) as Hids.
  { intros Hc. rewrite (proj1 Ha). by destruct Hc as [-> | ->]. }
  rewrite Ed, (find_desc_set _ _ _ _ _ _ Ef Hid). destruct (decide (id = image_id e)) as [->|Hne].
  - rewrite Ef in Hf. injection Hf as <- <-. exists e'. split; [done|]. unfold authenticated.
    destruct Hm as [src b n Ec _ _ Er _ _ _ Hst _ _ _ _ _ _ Hst'|src b n Ec _ _ Er _ _ _ Hst _ _ _ _ _ _ _ _ Hst'
      |base n bytes Ec _ Er _ _ Hst _ _ Hst'|Ec Hst Er Hst'|Ec Hst Er Hst'|Ec _ _ _ Er Hst ->|Ec _ _ _ Hst ->|Ec _ _ _ Hst ->
      |Ec _ _ _ _ Hst ->]; try (rewrite Hst'); cbn [with_state state]; try rewrite Hst; rewrite Ec in *.
    all: try (rewrite <- Hids by (first [by left|by right])); rewrite ?Z.eqb_refl, ?Er; cbn; try done.
    1,2: by destruct (_ =? _).
    destruct Hst as [[-> _]|[-> _]]; done.
  - exists d. split; [done|]. f_equal.
    assert (forall f, f = FWU_SMC_IMAGE_AUTH \/ f = FWU_SMC_IMAGE_EXECUTE ->
      (c_fid c =? f) && (wrap 32 (c_x1 c) =? id) && (r =? 0) = false) as Hfalse.
    { intros f Hff. destruct (Z.eqb_spec (c_fid c) f) as [Ec|]; [|done]. rewrite Ec in Hids.
      rewrite <- (Hids Hff). by rewrite (proj2 (Z.eqb_neq _ _)). }
    by rewrite !Hfalse by auto.
Qed.

Lemma reach_authenticated s0 tr s :
  reach s0 tr s -> forall id i d0, find_desc (descs s0) id 0 = Some (i, d0) -> state d0 <> IMAGE_STATE_AUTHENTICATED ->
  exists d, find_desc (descs s) id 0 = Some (i, d) /\
    count FWU_SMC_IMAGE_AUTH id tr = (count FWU_SMC_IMAGE_EXECUTE id tr + authenticated d)%nat.
Proof.
  induction 1 as [|tr s c r s' Hr IH Hp]; intros id i d0 Hf Hst.
  - exists d0. unfold authenticated. by rewrite decide_False.
  - destruct (IH _ _ _ Hf Hst) as (d & Hfd & Hcount).
    apply (handler_changes (fun _ _ => True)) in Hp; [|done].
    destruct (changes_authenticated _ _ _ _ _ _ _ _ Hp Hfd) as (d' & Hfd' & Hcount').
    exists d'. split; [done|]. rewrite !count_cons. lia.
Qed.

(** ** Copying in blocks *)
(** The Normal world's calls for consecutive blocks of the lengths [bs]. *)
Fixpoint copy_blocks (id src n flags : Z) (bs : list Z) : M fwu bool :=
  match bs with
  | [] => mret true
  | b :: bs =>
      r ← bl1_fwu_image_copy id src b n flags;
      if r =? 0 then copy_blocks id (src + b) n flags bs else mret false
  end.
Definition sum (bs : list Z) : Z := foldr Z.add 0 bs.

Section blocks.
Variables (s0 : fwu) (id src n flags : Z) (i : nat) (d : image_desc).
Hypothesis Hfind : find_desc (descs s0) id 0 = Some (i, d).
Hypothesis Hreset : state d = IMAGE_STATE_RESET.
Hypothesis Hsecure : secure d.
Hypothesis Hns : GET_SECURITY_STATE flags <> SECURE.
Hypothesis Hn : 0 < n < 2 ^ 32.
Hypothesis Hfree : free_base <= image_base d /\ image_base d + n <= free_base + free_size.
Hypothesis Hsrc : 0 < src /\ src + n <= 2 ^ 64.
Hypothesis Hmapped : forall off b, 0 <= off -> 0 < b -> off + b <= n -> bl1_plat_mem_check (src + off) b flags = Some 0.

(** [c] bytes are copied. *)
Definition copied (c : Z) (s : fwu) : Prop :=
  find_desc (descs s) id 0 =
    Some (i, Desc id (if c =? n then IMAGE_STATE_COPIED else IMAGE_STATE_COPYING) c (image_base d) n (attr d)) /\
  forall a, memory s a = if in_range a (image_base d) c then memory s0 (src + (a - image_base d)) else memory s0 a.

Lemma in_range_true a b k : in_range a b k = true <-> b <= a < b + k.
Proof. unfold in_range. rewrite andb_true_iff, Z.leb_le, Z.ltb_lt. done. Qed.
Lemma in_range_false a b k : in_range a b k = false <-> a < b \/ b + k <= a.
Proof. unfold in_range. rewrite andb_false_iff, Z.leb_gt, Z.ltb_ge. done. Qed.

Lemma src_apart : src + n <= free_base \/ free_base + free_size <= src.
Proof.
  pose proof (Hmapped 0 n ltac:(lia) ltac:(lia) ltac:(lia)) as Hc. rewrite Z.add_0_r in Hc.
  apply mem_check_apart in Hc; [done|unfold in_u; lia..|done].
Qed.

Lemma copy_first b : 0 < b <= n ->
  exists s, bl1_fwu_image_copy id src b n flags s0 = Some (0, s) /\ copied b s.
Proof.
  intros Hb. pose proof free_range as (? & ? & ?). pose proof (find_desc_lookup _ _ _ _ Hfind) as [_ Hid].
  unfold bl1_fwu_image_copy, bl1_plat_get_image_desc. rewrite bind_gets, Hfind, Hreset.
  rewrite (bool_decide_false (_ <> _)) by (intros Hc; by apply Hc). cbn [andb].
  rewrite (proj2 (Z.eqb_neq _ _) Hns), Hsecure, (proj2 (Z.eqb_neq src 0)), (proj2 (Z.eqb_neq b 0)) by lia.
  cbn [orb Z.eqb SECURE NON_SECURE]. rewrite bool_decide_false by done. unfold copy_fresh. cbn zeta.
  rewrite (proj2 (Z.eqb_neq n 0)), (proj2 (Z.ltb_ge n b)) by lia.
  pose proof (Hmapped 0 b ltac:(lia) ltac:(lia) ltac:(lia)) as Hc. rewrite Z.add_0_r in Hc.
  rewrite (bind_must _ 0 _ _ Hc). cbn [Z.eqb negb]. rewrite !wrap_small by lia.
  rewrite (proj2 (Z.ltb_ge _ _)), (proj2 (Z.ltb_ge (free_base + free_size) _)) by lia. cbn [orb].
  rewrite bind_gets. cbn [image_base with_size].
  erewrite bind_must; [|apply (memcpy_free _ _ _ _ flags); [done|done|lia..]].
  unfold set_memory, set_desc. rewrite !bind_modify. eexists. split; [reflexivity|]. split; [|done].
  cbn [descs]. rewrite <- Hid in Hfind |- *. by rewrite (find_desc_set _ _ _ _ _ _ Hfind), decide_True.
Qed.

Lemma copy_next s c b : 0 < c -> 0 < b -> c + b <= n -> copied c s ->
  exists s', bl1_fwu_image_copy id (src + c) b n flags s = Some (0, s') /\ copied (c + b) s'.
Proof.
  intros Hc Hb Hcb [Hf Hmem]. pose proof free_range as (? & ? & ?).
  rewrite (proj2 (Z.eqb_neq c n)) in Hf by lia.
  unfold bl1_fwu_image_copy, bl1_plat_get_image_desc. rewrite bind_gets, Hf. cbn [state attr].
  rewrite (bool_decide_false (IMAGE_STATE_COPYING <> IMAGE_STATE_COPYING)) by (intros Hx; by apply Hx). rewrite andb_false_r.
  rewrite (proj2 (Z.eqb_neq _ _) Hns), Hsecure, (proj2 (Z.eqb_neq (src + c) 0)), (proj2 (Z.eqb_neq b 0)) by lia.
  cbn [orb Z.eqb SECURE NON_SECURE]. rewrite bool_decide_true by done. unfold copy_continue. cbn [copied_size image_size image_base].
  rewrite (wrap_small 32 (c + b)), (proj2 (Z.ltb_ge n (c + b))) by lia. cbn zeta.
  pose proof (Hmapped c b ltac:(lia) Hb Hcb) as Hck. rewrite (bind_must _ 0 _ _ Hck). cbn [Z.eqb negb].
  rewrite bind_gets, (wrap_small 64 (image_base d + c)) by lia.
  erewrite bind_must; [|apply (memcpy_free _ _ _ _ flags); [done|done|lia..]].
  unfold set_memory, set_desc. rewrite !bind_modify. eexists. split; [reflexivity|]. split; cbn [descs memory].
  - rewrite (find_desc_set _ _ _ _ _ _ Hf) by (cbn; by destruct (_ =? _)). rewrite decide_True by done.
    cbn. rewrite (wrap_small 32 (c + b)) by lia. by destruct (c + b =? n).
  - intros a. pose proof src_apart. rewrite !Hmem.
    destruct (in_range a (image_base d + c) b) eqn:E1, (in_range a (image_base d) (c + b)) eqn:E2,
      (in_range a (image_base d) c) eqn:E3, (in_range (src + c + (a - (image_base d + c))) (image_base d) c) eqn:E4;
      rewrite ?in_range_true, ?in_range_false in *; try lia; f_equal; lia.
Qed.

Lemma copy_rest bs : forall c s, 0 < c -> Forall (fun b => 0 < b) bs -> c + sum bs = n -> copied c s ->
  exists s', copy_blocks id (src + c) n flags bs s = Some (true, s') /\ copied n s'.
Proof.
  induction bs as [|b bs IH]; intros c s Hc Hbs Hsum Hp.
  - exists s. cbn in Hsum. rewrite Z.add_0_r in Hsum. by subst c.
  - apply Forall_cons_1 in Hbs as [Hb Hbs]. cbn [sum foldr] in Hsum. fold (sum bs) in Hsum.
    assert (0 <= sum bs) by (clear - Hbs; induction Hbs; cbn; [done|fold (sum l); lia]).
    destruct (copy_next s c b) as (s1 & E & Hp1); [lia..|done|]. cbn [copy_blocks].
    rewrite (bind_eq _ _ _ _ _ E). cbn [Z.eqb]. rewrite <- Z.add_assoc. apply IH; [lia|done|lia|done].
Qed.

Lemma copy_blocks_ok bs : Forall (fun b => 0 < b) bs -> sum bs = n ->
  exists s', copy_blocks id src n flags bs s0 = Some (true, s') /\ copied n s'.
Proof.
  intros Hbs Hsum. destruct bs as [|b bs]; [cbn in Hsum; lia|].
  apply Forall_cons_1 in Hbs as [Hb Hbs]. cbn [sum foldr] in Hsum. fold (sum bs) in Hsum.
  assert (0 <= sum bs) by (clear - Hbs; induction Hbs; cbn; [done|fold (sum l); lia]).
  destruct (copy_first b) as (s1 & E & Hp1); [lia|]. cbn [copy_blocks].
  rewrite (bind_eq _ _ _ _ _ E). cbn [Z.eqb]. apply copy_rest; [lia|done|lia|done].
Qed.
End blocks.
End fwu.
