(* ===== verification/BlFwuSpec.v ===== *)
(** * What BL1's firmware update guarantees

    The theorems on [BlFwu], from the lemmas of [BlFwuProps]; the Arm platforms' memory
    check as an instance of the interface; and two ways round the protection that the
    code leaves open. *)

From Stdlib Require Import ZArith Lia.
From stdpp Require Import base option list numbers.
From S2P Require Import Prelude CMonad BlFwu BlFwuProps.
Import Fwu.
Open Scope Z_scope.

(** ** The Arm platforms

    Built with CTX_INCLUDE_AARCH32_REGS, the default, for cores that have AArch32 at EL1. *)
Section arm.
Context {astate : Type} (verify : astate -> Z -> list Z -> Z * astate).
Context (secure_map ns_map : list (Z * Z)) (fb fs : Z).

Definition arm_platform : Platform :=
  {| auth_state := astate; auth_mod_verify_img := verify;
     bl1_plat_mem_check := arm_mem_check secure_map ns_map; free_base := fb; free_size := fs;
     ctx_include_aarch32_regs := true; el1_aarch64_only := false |}.

(** An entry of a map: a 64-bit base and a 32-bit size that stay in the address space. *)
Definition entry_ok (e : Z * Z) : Prop := 0 <= e.1 /\ 0 < e.2 < 2 ^ 32 /\ e.1 + e.2 < 2 ^ 64.
Definition apart (e : Z * Z) : Prop := e.1 + e.2 <= fb \/ fb + fs <= e.1.

Lemma mem_check_loop_0 l b n :
  mem_check_loop l b n = 0 -> exists e, e ∈ l /\ e.1 <= b /\ wrap 64 (b + n) <= wrap 64 (e.1 + e.2).
Proof.
  induction l as [|[eb en] l IH]; cbn; [done|].
  destruct (Z.leb_spec eb b), (Z.leb_spec (wrap 64 (b + n)) (wrap 64 (eb + en))); cbn.
  2-4: intros (e & ? & ?)%IH; exists e; split; [by right|done].
  intros _. exists (eb, en). split; [by left|done].
Qed.

Lemma mem_check_loop_spec l b n :
  Forall entry_ok l -> 0 <= b -> 0 < n -> b + n < 2 ^ 64 ->
  mem_check_loop l b n = if bool_decide (Exists (fun e => e.1 <= b /\ b + n <= e.1 + e.2) l) then 0 else - ENOMEM.
Proof.
  intros Hl Hb Hn Hbn. induction Hl as [|[eb en] l (? & ? & ?) Hl IH]; [done|]. cbn [fst snd] in *. cbn [mem_check_loop].
  rewrite !wrap_small by lia. rewrite IH.
  assert (bool_decide (Exists (fun e : Z * Z => e.1 <= b /\ b + n <= e.1 + e.2) ((eb, en) :: l))
    = (eb <=? b) && (b + n <=? eb + en) || bool_decide (Exists (fun e : Z * Z => e.1 <= b /\ b + n <= e.1 + e.2) l)) as ->.
  { apply eq_true_iff_eq. by rewrite orb_true_iff, andb_true_iff, !bool_decide_eq_true, Z.leb_le, Z.leb_le, Exists_cons. }
  by destruct ((eb <=? b) && _).
Qed.

Lemma arm_laws :
  0 <= fb /\ 0 <= fs /\ fb + fs < 2 ^ 63 -> Forall entry_ok ns_map -> Forall apart ns_map ->
  @PlatformLaws arm_platform.
Proof.
  intros Hfree Hok Hap. split; [done|done|..].
  - intros src n flags Hs Hn. cbn. unfold arm_mem_check.
    rewrite (proj2 (Z.eqb_neq _ _) Hs), (proj2 (Z.eqb_neq _ _) Hn). eauto.
  - intros src n flags Hs Hn Hw. cbn. unfold arm_mem_check. destruct (_ || _); [done|].
    rewrite (proj2 (Z.eqb_neq _ _) Hw). intros [= (e & He & Hlo & Hhi)%mem_check_loop_0].
    apply list_elem_of_In in He. rewrite Forall_forall in Hok, Hap. specialize (Hok _ He) as (? & ? & ?). specialize (Hap _ He).
    unfold apart, in_u in *. rewrite (wrap_small 64 (e.1 + e.2)) in Hhi by lia.
    destruct (decide (src + n < 2 ^ 64)); [rewrite wrap_small in Hhi by lia|]; lia.
Qed.
End arm.

(** ** A platform and images to run on *)
(** The Arm platforms' shared RAM, Normal-world DRAM and flash; an image whose first byte
    is 0xAA verifies. *)
Definition demo_verify (a : unit) (id : Z) (bytes : list Z) : Z * unit :=
  (match bytes with b :: _ => if b =? 0xAA then 0 else 1 | [] => 1 end, a).
#[local] Instance demo : Platform :=
  arm_platform demo_verify [(0x04000000, 0x1000)] [(0x80000000, 0x7f000000); (0x08000000, 0x04000000)]
    0x04001000 0x30000.
#[local] Instance demo_laws : PlatformLaws.
Proof.
  apply arm_laws; [lia| |]; repeat apply Forall_cons_2; try apply Forall_nil_2; unfold entry_ok, apart; cbn; lia.
Qed.

(** FWU_CERT and BL2U, which have the same base address, and NS_BL2U. *)
Definition demo_descs (st1 st2 : image_state) : list image_desc :=
  [Desc 17 st1 0 0x04022000 0 0; Desc 19 st2 4 0x04022000 4 8; Desc 20 IMAGE_STATE_RESET 0 0x80000000 0 1].
Definition demo_memory : memory_t := fun a =>
  if in_range a 0x80000000 8 then 0xAA + (a - 0x80000000) else if in_range a 0x80001000 8 then 0xEE else 0.
Definition demo_state (st1 st2 : image_state) : fwu :=
  Fwu_ (demo_descs st1 st2) demo_memory INVALID_IMAGE_ID tt [] NON_SECURE.

Lemma demo_inv st1 : st1 = IMAGE_STATE_RESET -> inv (demo_state st1 IMAGE_STATE_AUTHENTICATED).
Proof.
  intros ->. split; [|by right|by left].
  repeat apply Forall_cons_2; try apply Forall_nil_2; unfold desc_ok, in_u; cbn; repeat (split; [done|]); done.
Qed.

(** ** Theorems *)
Section theorems.
Context `{Platform}.

(** C37: the FWU state machine, call by call.  An FWU call is about the image it names or, for RESUME and
    SEC_IMAGE_DONE, the Secure image that is being run.  A call that returns is refused with EPERM, changing nothing,
    exactly if there is no such image or [permitted] fails: only the Normal world copies and executes, only
    Secure images; the Normal world authenticates a Secure image when COPIED, any other authentication needs RESET; only
    an AUTHENTICATED executable image is executed; the Secure world interrupts and ends the EXECUTED image, the Normal world
    resumes the INTERRUPTED one.  A permitted call either is a COPY or AUTH refused for its memory arguments
    (ENOMEM, nothing changed), or replaces the descriptor of its image alone, keeping id, base address and
    attributes, and moves its state along the edge of that call: COPY to COPIED if all bytes are there, else COPYING;
    AUTH to AUTHENTICATED, or to RESET if verification fails (EAUTH); EXECUTE to EXECUTED; RESUME to INTERRUPTED or back to
    EXECUTED; SEC_IMAGE_DONE to RESET; and the image that is being run and the world that runs next change as the
    call says. *)
Theorem fwu_transitions fid x1 x2 x3 x4 flags s r s' :
  bl1_fwu_smc_handler fid x1 x2 x3 x4 flags s = Some (r, s') ->
  match find_desc (descs s) (addressed fid (wrap 32 x1) s) 0 with
  | None => s' = s /\ r = - EPERM
  | Some (i, d) =>
      if permitted fid flags d then
        s' = s /\ r = - ENOMEM /\ (fid = FWU_SMC_IMAGE_COPY \/ fid = FWU_SMC_IMAGE_AUTH) \/
        exists d', descs s' = <[i := d']> (descs s) /\
          image_id d' = image_id d /\ image_base d' = image_base d /\ attr d' = attr d /\
          edge fid flags r d d' /\ (sec_exec_image_id s', world s') = next_run fid flags s d
      else s' = s /\ r = - EPERM
  end.
Proof.
  intros Hc%(handler_changes (fun _ _ => True)); [|done].
  destruct Hc as [-> Hr|i d d' Ef Ed [Ea Hp] Hid Hb Ha Hm].
  - unfold refused in Hr. destruct (find_desc _ _ _) as [[i d]|]; [destruct (permitted _ _ _)|]; auto.
  - rewrite <- Ea, Ef, Hp. right. exists d'. apply move_edge in Hm as [He Hn]. done.
Qed.

Context {HL : PlatformLaws}.

(** C35: an FWU call made by the running world in a consistent state returns: no assertion
    fails and no memory operation is undefined.  The state stays consistent, and memory
    outside the free trusted RAM is not written.  The caller's source range must not pass
    the end of the address space and a block that continues a copy must not wrap the
    32-bit count of copied bytes, which the code does not check; and the cores must have the AArch32 state that
    the build saves ([CTX_INCLUDE_AARCH32_REGS]), or preparing an image to run panics. *)
Theorem fwu_call_safe fid x1 x2 x3 x4 flags s :
  inv s -> called_by s flags -> FWU_SMC_IMAGE_COPY <= fid <= FWU_SMC_SEC_IMAGE_DONE ->
  0 <= x2 -> x2 + wrap 32 x3 <= 2 ^ 64 ->
  (forall i d, find_desc (descs s) (wrap 32 x1) 0 = Some (i, d) -> no_wrap d (wrap 32 x3)) ->
  exists r s', bl1_fwu_smc_handler fid x1 x2 x3 x4 flags s = Some (r, s') /\ inv s' /\
    forall a, a < free_base \/ free_base + free_size <= a -> memory s' a = memory s a.
Proof.
  intros Hi Hw Hf Hs0 Hs Hok. destruct (handler_total fid x1 x2 x3 x4 flags s) as [[r s'] E]; [done..|].
  exists r, s'. split; [done|]. apply (handler_changes no_wrap) in E; [|done].
  split; [by eapply inv_changes|]. intros a Ha. by eapply changes_writes.
Qed.

(** C36: along every sequence of FWU calls from a state in which an image is not
    authenticated, the number of its successful authentications is the number of its
    successful executions, plus one if it is authenticated now: every execution of an
    image is preceded by an authentication of its own. *)
Theorem fwu_execution_authenticated s0 tr s id i d0 :
  reach s0 tr s -> find_desc (descs s0) id 0 = Some (i, d0) -> state d0 <> IMAGE_STATE_AUTHENTICATED ->
  exists d, find_desc (descs s) id 0 = Some (i, d) /\
    count FWU_SMC_IMAGE_AUTH id tr =
      (count FWU_SMC_IMAGE_EXECUTE id tr + (if decide (state d = IMAGE_STATE_AUTHENTICATED) then 1 else 0))%nat.
Proof. intros Hr. by apply reach_authenticated. Qed.

(** Copying a Secure image from the Normal world in any number of consecutive blocks
    whose lengths add up to the image's size succeeds, leaves the image COPIED with its
    size recorded, puts exactly the source's bytes at the image's base address and changes
    nothing else in memory. *)
Theorem fwu_copy_blocks s id src n flags bs i d :
  find_desc (descs s) id 0 = Some (i, d) -> state d = IMAGE_STATE_RESET -> secure d ->
  GET_SECURITY_STATE flags <> SECURE -> 0 < n < 2 ^ 32 ->
  free_base <= image_base d /\ image_base d + n <= free_base + free_size ->
  0 < src /\ src + n <= 2 ^ 64 ->
  (forall off b, 0 <= off -> 0 < b -> off + b <= n -> bl1_plat_mem_check (src + off) b flags = Some 0) ->
  Forall (fun b => 0 < b) bs -> sum bs = n ->
  exists s', copy_blocks id src n flags bs s = Some (true, s') /\
    find_desc (descs s') id 0 = Some (i, Desc id IMAGE_STATE_COPIED n (image_base d) n (attr d)) /\
    forall a, memory s' a = if in_range a (image_base d) n then memory s (src + (a - image_base d)) else memory s a.
Proof.
  intros Hf Hst Hsec Hns Hn Hfree Hsrc Hmap Hbs Hsum.
  destruct (copy_blocks_ok s id src n flags i d Hf Hst Hsec Hns Hn Hfree Hsrc Hmap bs Hbs Hsum) as (s' & E & Hf' & Hm').
  exists s'. split; [done|]. by rewrite Z.eqb_refl in Hf'.
Qed.
End theorems.

(** ** What the checks leave open *)
(** A range the Arm platforms' check accepts lies inside one entry of the map of the
    calling world, and a range inside an entry is accepted, as long as the range does not
    pass the end of the address space. *)
Theorem arm_mem_check_spec secure_map ns_map base size flags :
  Forall entry_ok secure_map -> Forall entry_ok ns_map ->
  0 < base -> 0 < size -> base + size < 2 ^ 64 ->
  arm_mem_check secure_map ns_map base size flags =
    Some (if bool_decide (Exists (fun e => e.1 <= base /\ base + size <= e.1 + e.2)
              (if GET_SECURITY_STATE flags =? SECURE then secure_map else ns_map))
          then 0 else - ENOMEM).
Proof.
  intros Hs Hn Hb Hsz Hend. unfold arm_mem_check.
  rewrite (proj2 (Z.eqb_neq base 0)), (proj2 (Z.eqb_neq size 0)) by lia. cbn [orb].
  rewrite mem_check_loop_spec; [done|by destruct (_ =? _)|lia..].
Qed.

Lemma arm_mem_check_spec_witness :
  arm_mem_check [(0x04000000, 0x1000)] [(0x80000000, 0x7f000000)] 0x90000000 0x1000 NON_SECURE = Some 0.
Proof.
  rewrite arm_mem_check_spec; [by vm_compute| | |lia..].
  all: repeat apply Forall_cons_2; try apply Forall_nil_2; unfold entry_ok; cbn; lia.
Defined.

(** A range that passes the end of the address space is accepted: the sum wraps. *)
Example arm_mem_check_wraps :
  arm_mem_check [] [(0x80000000, 0x7f000000)] (2 ^ 64 - 0x1000) 0x2000 NON_SECURE = Some 0.
Proof. by vm_compute. Qed.

Section open.
Context `{Platform}.

(** In a block that continues a copy, [copied_size + block_size] is a 32-bit sum.  A
    block that wraps it is not clipped to the image's size: all of it is copied, past the
    end of the image, and the call reports success. *)
Theorem fwu_copy_wraps s id src b n flags i d :
  find_desc (descs s) id 0 = Some (i, d) -> state d = IMAGE_STATE_COPYING -> secure d ->
  GET_SECURITY_STATE flags <> SECURE -> 0 < src -> 0 <= image_base d ->
  0 < copied_size d < image_size d -> image_size d < 2 ^ 32 -> in_u 32 b ->
  2 ^ 32 <= copied_size d + b -> copied_size d + b - 2 ^ 32 <= image_size d ->
  bl1_plat_mem_check src b flags = Some 0 ->
  image_base d + copied_size d + b <= src -> src + b <= 2 ^ 64 ->
  exists s', bl1_fwu_image_copy id src b n flags s = Some (0, s') /\
    image_base d + image_size d < image_base d + copied_size d + b /\
    forall a, image_base d + copied_size d <= a < image_base d + copied_size d + b ->
      memory s' a = memory s (src + (a - (image_base d + copied_size d))).
Proof.
  intros Hf Hst Hsec Hns Hs0 Hb0 Hc Hn Hb Hwrap Hle Hck Hap Hend. unfold in_u in Hb.
  assert (wrap 32 (copied_size d + b) = copied_size d + b - 2 ^ 32) as Ew.
  { unfold wrap. symmetry. apply (Z.mod_unique _ _ 1); lia. }
  unfold bl1_fwu_image_copy, bl1_plat_get_image_desc. rewrite bind_gets, Hf, Hst.
  rewrite (bool_decide_false (IMAGE_STATE_COPYING <> IMAGE_STATE_COPYING)) by (intros Hx; by apply Hx). rewrite andb_false_r.
  rewrite (proj2 (Z.eqb_neq _ _) Hns), Hsec, (proj2 (Z.eqb_neq src 0)), (proj2 (Z.eqb_neq b 0)) by lia.
  cbn [orb Z.eqb SECURE NON_SECURE]. rewrite bool_decide_true by done. unfold copy_continue. rewrite Ew.
  rewrite (proj2 (Z.ltb_ge _ _)) by lia. cbn zeta. rewrite (bind_must _ 0 _ _ Hck). cbn [Z.eqb negb].
  rewrite bind_gets, (wrap_small 64) by lia. erewrite bind_must; [|apply memcpy_some; lia].
  unfold set_memory, set_desc. rewrite !bind_modify. eexists. split; [reflexivity|]. split; [lia|].
  intros a Ha. cbn [memory]. by rewrite (proj2 (in_range_true _ _ _)).
Qed.

Context {HL : PlatformLaws}.

(** Nothing keeps an authenticated image from being overwritten before it is executed.
    If the range of another Secure image in the RESET state covers its base address, the
    Normal world can copy bytes of its choice there, and the execution of the first image
    then succeeds with those bytes, which were never verified, in place. *)
Theorem fwu_overwrite_authenticated s id1 id2 src n flags i1 d1 i2 d2 :
  find_desc (descs s) id1 0 = Some (i1, d1) -> state d1 = IMAGE_STATE_AUTHENTICATED -> secure d1 -> executable d1 ->
  find_desc (descs s) id2 0 = Some (i2, d2) -> state d2 = IMAGE_STATE_RESET -> secure d2 ->
  image_base d2 <= image_base d1 < image_base d2 + n ->
  id1 <> id2 -> GET_SECURITY_STATE flags <> SECURE -> 0 < n < 2 ^ 32 ->
  free_base <= image_base d2 /\ image_base d2 + n <= free_base + free_size ->
  0 < src /\ src + n <= 2 ^ 64 ->
  (forall off b, 0 <= off -> 0 < b -> off + b <= n -> bl1_plat_mem_check (src + off) b flags = Some 0) ->
  exists s1 s2, bl1_fwu_image_copy id2 src n n flags s = Some (0, s1) /\
    bl1_fwu_image_execute id1 flags s1 = Some (0, s2) /\ world s2 = SECURE /\ sec_exec_image_id s2 = id1 /\
    forall a, image_base d1 <= a < image_base d2 + n -> memory s2 a = memory s (src + (a - image_base d2)).
Proof.
  intros Hf1 Hst1 Hsec1 Hex1 Hf2 Hst2 Hsec2 Hbase Hne Hns Hn Hfree Hsrc Hmap.
  destruct (copy_first s id2 src n flags i2 d2 Hf2 Hst2 Hsec2 Hns Hn Hfree Hsrc Hmap n ltac:(lia)) as (s1 & E & Hf & Hm).
  assert (find_desc (descs s1) id1 0 = Some (i1, d1)) as Hf1'.
  { assert (in_u 32 n) as Hnr by (unfold in_u; lia).
    pose proof (copy_changes (fun _ _ => True) _ _ _ _ _ _ _ _ (fun _ _ _ => I) Hnr Hnr E) as Hch. destruct Hch as [_ ?%refused_neg|j e e' Ef Ed _ Hid _ _ Hmv]; [lia|]. rewrite Ed, (find_desc_set _ _ _ _ _ _ Ef Hid).
    case_decide as Heq; [|done]. subst id1. rewrite Ef in Hf1. injection Hf1 as -> ->.
    destruct Hmv; first [congruence|done]. }
  exists s1. eexists. split; [done|]. split.
  { unfold bl1_fwu_image_execute, bl1_plat_get_image_desc. rewrite bind_gets, Hf1'.
    rewrite Hst1, Hsec1, Hex1, (proj2 (Z.eqb_neq _ _) Hns), bool_decide_false by (intros Hx; by apply Hx). cbn [orb].
    unfold act at 1, bl1_prepare_next_image, bl1_plat_get_image_desc. cbn [Z.eqb SECURE NON_SECURE EXECUTABLE NON_EXECUTABLE orb].
    rewrite bind_modify, aarch32_fits, !bind_assoc, bind_ret, ?bind_assoc, bind_gets.
    cbn [descs]. rewrite Hf1'. unfold act, set_desc, set_sec_exec, set_handle. rewrite !bind_assoc.
    repeat (rewrite bind_modify; cbn [descs memory sec_exec_image_id auth actions world]). reflexivity. }
  split; [done|]. split; [done|]. intros a Ha. cbn [memory].
  by rewrite Hm, (proj2 (in_range_true _ _ _)) by lia.
Qed.
End open.

(** ** Witnesses *)
Definition idle : fwu := demo_state IMAGE_STATE_RESET IMAGE_STATE_RESET.

Lemma demo_mapped base size off b :
  0x80000000 <= base -> base + size <= 0xFF000000 -> 0 <= off -> 0 < b -> off + b <= size ->
  bl1_plat_mem_check (base + off) b NON_SECURE = Some 0.
Proof.
  intros. cbn [bl1_plat_mem_check demo arm_platform]. unfold arm_mem_check.
  rewrite (proj2 (Z.eqb_neq _ _)), (proj2 (Z.eqb_neq b 0)) by lia.
  change (GET_SECURITY_STATE NON_SECURE =? SECURE) with false. cbn [orb mem_check_loop].
  rewrite !wrap_small by lia. rewrite (proj2 (Z.leb_le _ _)), (proj2 (Z.leb_le _ (0x80000000 + 0x7f000000))) by lia. done.
Qed.

(** Results are computed apart from the memory, which is a function. *)
Definition after (c : call) (s : fwu) : fwu := default s (snd <$> perform c s).
Lemma perform_after c s r : fst <$> perform c s = Some r -> perform c s = Some (r, after c s).
Proof. unfold after. destruct (perform c s) as [[? ?]|]; cbn; by intros [= ->]. Qed.

Definition demo_call (fid x1 x2 x3 x4 : Z) : call := Call fid x1 x2 x3 x4 NON_SECURE.

(** The execution of BL2U, which is AUTHENTICATED. *)
Lemma fwu_transitions_witness : exists s' d',
  bl1_fwu_smc_handler FWU_SMC_IMAGE_EXECUTE 19 0 0 0 NON_SECURE (demo_state IMAGE_STATE_RESET IMAGE_STATE_AUTHENTICATED)
    = Some (0, s') /\
  descs s' = <[1%nat := d']> (demo_descs IMAGE_STATE_RESET IMAGE_STATE_AUTHENTICATED) /\
  edge FWU_SMC_IMAGE_EXECUTE NON_SECURE 0 (Desc 19 IMAGE_STATE_AUTHENTICATED 4 0x04022000 4 8) d' /\ world s' = SECURE.
Proof.
  set (c := demo_call FWU_SMC_IMAGE_EXECUTE 19 0 0 0). set (s := demo_state IMAGE_STATE_RESET IMAGE_STATE_AUTHENTICATED).
  assert (perform c s = Some (0, after c s)) as E by (apply perform_after; by vm_compute).
  pose proof (fwu_transitions _ _ _ _ _ _ _ _ _ E) as T. cbn in T.
  destruct T as [(_ & T & _)|(d' & Ed & _ & _ & _ & He & Hn)]; [discriminate T|].
  exists (after c s), d'. split; [exact E|]. split; [exact Ed|]. split; [exact He|]. exact (f_equal snd Hn).
Defined.

Lemma fwu_call_safe_witness : exists r s',
  bl1_fwu_smc_handler FWU_SMC_IMAGE_EXECUTE 19 0 0 0 NON_SECURE (demo_state IMAGE_STATE_RESET IMAGE_STATE_AUTHENTICATED)
    = Some (r, s') /\ inv s' /\
  forall a, a < free_base \/ free_base + free_size <= a -> memory s' a = demo_memory a.
Proof.
  apply fwu_call_safe; [by apply demo_inv|done|vm_compute; by split|lia|by vm_compute|].
  intros i d. cbn. intros [= <- <-]. done.
Defined.

(** An authentication of BL2U after a copy, then its execution. *)
Definition demo_trace : list (call * Z) :=
  [(demo_call FWU_SMC_IMAGE_EXECUTE 19 0 0 0, 0); (demo_call FWU_SMC_IMAGE_AUTH 19 0 0 0, 0);
   (demo_call FWU_SMC_IMAGE_COPY 19 0x80000000 8 8, 0)].

Lemma fwu_execution_authenticated_witness : exists s,
  reach idle demo_trace s /\ exists d, find_desc (descs s) 19 0 = Some (1%nat, d) /\
    count FWU_SMC_IMAGE_AUTH 19 demo_trace =
      (count FWU_SMC_IMAGE_EXECUTE 19 demo_trace + (if decide (state d = IMAGE_STATE_AUTHENTICATED) then 1 else 0))%nat.
Proof.
  set (s1 := after (demo_call FWU_SMC_IMAGE_COPY 19 0x80000000 8 8) idle).
  set (s2 := after (demo_call FWU_SMC_IMAGE_AUTH 19 0 0 0) s1).
  set (s3 := after (demo_call FWU_SMC_IMAGE_EXECUTE 19 0 0 0) s2).
  assert (reach idle demo_trace s3) as Hr.
  { apply (r_call _ _ s2); [|apply perform_after; by vm_compute].
    apply (r_call _ _ s1); [|apply perform_after; by vm_compute].
    apply (r_call _ _ idle); [apply r_start|apply perform_after; by vm_compute]. }
  clearbody s3. exists s3. split; [exact Hr|].
  by apply (fwu_execution_authenticated idle demo_trace s3 19 1%nat (Desc 19 IMAGE_STATE_RESET 4 0x04022000 4 8)).
Defined.

Lemma fwu_copy_blocks_witness : exists s',
  copy_blocks 17 0x80000000 8 NON_SECURE [4; 3; 1] idle = Some (true, s') /\
  find_desc (descs s') 17 0 = Some (0%nat, Desc 17 IMAGE_STATE_COPIED 8 0x04022000 8 0) /\
  forall a, memory s' a = if in_range a 0x04022000 8 then demo_memory (0x80000000 + (a - 0x04022000)) else demo_memory a.
Proof.
  apply (fwu_copy_blocks idle 17 0x80000000 8 NON_SECURE [4; 3; 1] 0%nat (Desc 17 IMAGE_STATE_RESET 0 0x04022000 0 0)); try done; try lia.
  - intros off b ? ? ?. apply (demo_mapped _ 8); lia.
  - by repeat constructor.
Defined.

(** A map with an entry of 4 GiB - 1. *)
Definition wide : Platform :=
  arm_platform demo_verify [] [(0x800000000, 0xFFFFFFFF)] 0x04001000 0x30000.
Definition wide_desc : image_desc := Desc 19 IMAGE_STATE_COPYING 0x1000 0x04022000 0x2000 8.
Definition wide_state : @fwu wide := @Fwu_ wide [wide_desc] demo_memory INVALID_IMAGE_ID tt [] NON_SECURE.

Lemma fwu_copy_wraps_witness : exists s',
  @bl1_fwu_image_copy wide 19 0x800000000 0xFFFFF000 0 NON_SECURE wide_state = Some (0, s') /\
  0x04022000 + 0x2000 < 0x04022000 + 0x1000 + 0xFFFFF000 /\
  forall a, 0x04022000 + 0x1000 <= a < 0x04022000 + 0x1000 + 0xFFFFF000 ->
    @memory wide s' a = demo_memory (0x800000000 + (a - (0x04022000 + 0x1000))).
Proof.
  apply (@fwu_copy_wraps wide wide_state 19 0x800000000 0xFFFFF000 0 NON_SECURE 0%nat wide_desc);
    try done; unfold in_u; cbn; lia.
Defined.

Lemma fwu_overwrite_authenticated_witness : exists s1 s2,
  bl1_fwu_image_copy 17 0x80001000 8 8 NON_SECURE (demo_state IMAGE_STATE_RESET IMAGE_STATE_AUTHENTICATED) = Some (0, s1) /\
  bl1_fwu_image_execute 19 NON_SECURE s1 = Some (0, s2) /\ world s2 = SECURE /\ sec_exec_image_id s2 = 19 /\
  forall a, 0x04022000 <= a < 0x04022000 + 8 -> memory s2 a = demo_memory (0x80001000 + (a - 0x04022000)).
Proof.
  apply (fwu_overwrite_authenticated (demo_state IMAGE_STATE_RESET IMAGE_STATE_AUTHENTICATED) 19 17 0x80001000 8 NON_SECURE
    1%nat (Desc 19 IMAGE_STATE_AUTHENTICATED 4 0x04022000 4 8) 0%nat (Desc 17 IMAGE_STATE_RESET 0 0x04022000 0 0));
    try done; try (cbn; lia).
  intros off b ? ? ?. apply (demo_mapped _ 8); lia.
Defined.
