(* ===== verification/Io.v ===== *)
(** * IO abstraction and firmware image packages of the Trusted Firmware

    drivers/io/io_storage.c (the pool of entities and the registry of devices), the drivers
    io_memmap.c and io_fip.c, and the policy of plat/marvell/common/marvell_io_storage.c, in
    a build with assertions.

    Pointers are modelled by what they can point to: a device is one of the two static
    structures [fip_dev_info] and [memmap_dev_info], an entity handle the index in
    [entity_pool], the field [info] the [current_file] of a driver, a [spec] the structure
    behind it.  Using a pointer as another type than it has, a failed assertion and [memcpy]
    on overlapping memory yield [None].  Calls through function pointers go through
    [dev_funcs], whose argument bounds the nesting of drivers: a package lies on the memory
    map device, which calls no other.  Messages are left out. *)

From Stdlib Require Import ZArith Lia.
From stdpp Require Import base option list numbers.
From S2P Require Import Prelude CMonad BlFwu.
Open Scope Z_scope.
Open Scope cint_scope.

Module Io.

(** ** Data *)
Definition ENOENT := 2.
Definition ENOMEM := 12.
Definition ENODEV := 19.

Definition IO_TYPE_INVALID := 0.
Definition IO_TYPE_MEMMAP := 2.
Definition IO_TYPE_FIRMWARE_IMAGE_PACKAGE := 4.
Definition IO_TYPE_MAX := 6.
Definition IO_SEEK_INVALID := 0.
Definition IO_SEEK_SET := 1.
Definition IO_SEEK_MAX := 4.

Inductive dev := FipDev | MemmapDev.
#[global] Instance dev_eq_dec : EqDecision dev.
Proof. solve_decision. Defined.

(** [io_block_spec_t] and [io_uuid_spec_t]; a UUID is its 16 bytes. *)
Inductive io_spec := BlockSpec (offset length : Z) | UuidSpec (uuid : list Z).
Inductive info_t := InfoNull | MemmapFile | FipFile.
Record io_entity := Entity { dev_handle : option dev; info : info_t }.

Record fip_toc_header := TocHeader { name : Z; serial_number : Z; header_flags : Z }.
Record fip_toc_entry := TocEntry { uuid : list Z; offset_address : Z; size : Z; flags : Z }.
Definition TOC_HEADER_NAME := 0xAA640001.

(** The [file_state_t] of io_memmap.c and the one of io_fip.c. *)
Record memmap_state := MemmapState { in_use : Z; base : Z; mm_pos : Z; mm_size : Z }.
Record fip_state := FipState { file_pos : Z; entry : fip_toc_entry }.
Definition memmap_zero : memmap_state := MemmapState 0 0 0 0.
Definition fip_zero : fip_state := FipState 0 (TocEntry (replicate 16 0) 0 0 0).

(** Little-endian structures. *)
Fixpoint le_decode (l : list Z) : Z := match l with [] => 0 | b :: l => b + 256 * le_decode l end.
Definition sizeof_header : Z := 16.
Definition sizeof_entry : Z := 40.
Definition decode_header (l : list Z) : fip_toc_header :=
  TocHeader (le_decode (slice l 0 4)) (le_decode (slice l 4 8)) (le_decode (slice l 8 16)).
Definition decode_entry (l : list Z) : fip_toc_entry :=
  TocEntry (slice l 0 16) (le_decode (slice l 16 24)) (le_decode (slice l 24 32)) (le_decode (slice l 32 40)).

Class IoConfig := {
  MAX_IO_HANDLES : nat;
  MAX_IO_DEVICES : nat;
  PLAT_ALLOW_ZERO_ADDR_COPY : bool;
  PLAT_MARVELL_FIP_BASE : Z;
  PLAT_MARVELL_FIP_MAX_SIZE : Z
}.

(** The static data of the four files and memory.  [devices] holds the devices registered
    so far, [dev_count] is its length. *)
Record io := IoState {
  entity_pool : list io_entity;
  entity_map : list (option nat);
  entity_count : Z;
  devices : list dev;
  memmap_file : memmap_state;
  fip_file : fip_state;
  backend_dev_handle : option dev;
  backend_image_spec : option io_spec;
  fip_dev_con : option dev;
  fip_dev_handle : option dev;
  memmap_dev_con : option dev;
  memmap_dev_handle : option dev;
  memory : Fwu.memory_t
}.
Abbreviation X := (M io).

Definition set_pool p s := IoState p (entity_map s) (entity_count s) (devices s) (memmap_file s) (fip_file s) (backend_dev_handle s)
  (backend_image_spec s) (fip_dev_con s) (fip_dev_handle s) (memmap_dev_con s) (memmap_dev_handle s) (memory s).
Definition set_map m c s := IoState (entity_pool s) m c (devices s) (memmap_file s) (fip_file s) (backend_dev_handle s)
  (backend_image_spec s) (fip_dev_con s) (fip_dev_handle s) (memmap_dev_con s) (memmap_dev_handle s) (memory s).
Definition set_devices d s := IoState (entity_pool s) (entity_map s) (entity_count s) d (memmap_file s) (fip_file s) (backend_dev_handle s)
  (backend_image_spec s) (fip_dev_con s) (fip_dev_handle s) (memmap_dev_con s) (memmap_dev_handle s) (memory s).
Definition set_memmap f s := IoState (entity_pool s) (entity_map s) (entity_count s) (devices s) f (fip_file s) (backend_dev_handle s)
  (backend_image_spec s) (fip_dev_con s) (fip_dev_handle s) (memmap_dev_con s) (memmap_dev_handle s) (memory s).
Definition set_fip f s := IoState (entity_pool s) (entity_map s) (entity_count s) (devices s) (memmap_file s) f (backend_dev_handle s)
  (backend_image_spec s) (fip_dev_con s) (fip_dev_handle s) (memmap_dev_con s) (memmap_dev_handle s) (memory s).
Definition set_backend d sp s := IoState (entity_pool s) (entity_map s) (entity_count s) (devices s) (memmap_file s) (fip_file s) d sp
  (fip_dev_con s) (fip_dev_handle s) (memmap_dev_con s) (memmap_dev_handle s) (memory s).
Definition set_cons fc mc s := IoState (entity_pool s) (entity_map s) (entity_count s) (devices s) (memmap_file s) (fip_file s)
  (backend_dev_handle s) (backend_image_spec s) fc (fip_dev_handle s) mc (memmap_dev_handle s) (memory s).
Definition set_handles fh mh s := IoState (entity_pool s) (entity_map s) (entity_count s) (devices s) (memmap_file s) (fip_file s)
  (backend_dev_handle s) (backend_image_spec s) (fip_dev_con s) fh (memmap_dev_con s) mh (memory s).
Definition set_memory m s := IoState (entity_pool s) (entity_map s) (entity_count s) (devices s) (memmap_file s) (fip_file s)
  (backend_dev_handle s) (backend_image_spec s) (fip_dev_con s) (fip_dev_handle s) (memmap_dev_con s) (memmap_dev_handle s) m.

(** A buffer is an address, or a structure outside of the memory that is modelled, whose
    new bytes are a result. *)
Inductive buffer := Mem (addr : Z) | Object.

(** [io_dev_funcs_t].  Results that C returns through pointers are options, [None] where
    nothing is written. *)
Record io_dev_funcs := Funcs {
  type : Z;
  f_open : option (dev -> io_spec -> nat -> X Z);
  f_seek : option (nat -> Z -> Z -> X Z);
  f_size : option (nat -> X (Z * option Z));
  f_read : option (nat -> buffer -> Z -> X (Z * option (Z * list Z)));
  f_write : option (nat -> Z -> Z -> X (Z * option Z));
  f_close : option (nat -> X Z);
  f_dev_init : option (dev -> Z -> X Z);
  f_dev_close : option (dev -> X Z)
}.

Section config.
Context `{IoConfig}.

Definition io_init (m : Fwu.memory_t) : io :=
  IoState (replicate MAX_IO_HANDLES (Entity None InfoNull)) (replicate MAX_IO_HANDLES None) 0 [] memmap_zero fip_zero
    None None None None None None m.

(** ** io_storage.c *)
Section io_storage.
Variable funcs : dev -> io_dev_funcs.

Definition is_valid_dev (h : option dev) : bool :=
  match h with None => false | Some d => type (funcs d) <? IO_TYPE_MAX end.
Definition is_valid_seek_mode (mode : Z) : bool := negb (mode =? IO_SEEK_INVALID) && (mode <? IO_SEEK_MAX).
(** The device of a valid entity. *)
Definition entity_dev (handle : nat) : X dev :=
  pool ← gets entity_pool; e ← must (pool !! handle);
  massert (is_valid_dev (dev_handle e));; must (dev_handle e).

Fixpoint find_entity (entity : option nat) (m : list (option nat)) (i : nat) : option nat :=
  match m with
  | [] => None
  | e :: m => if bool_decide (e = entity) then Some i else find_entity entity m (S i)
  end.
(** 0 and the index, or [-ENOENT]. *)
Definition find_first_entity (entity : option nat) : X (Z * option nat) :=
  m ← gets entity_map;
  mret (match find_entity entity m 0 with Some i => (0, Some i) | None => (- ENOENT, None) end).
Definition allocate_entity : X (Z * option nat) :=
  count ← gets entity_count;
  if count <? Z.of_nat MAX_IO_HANDLES then
    '(result, index) ← find_first_entity None;
    massert (result =? 0);;
    i ← must index;
    modify (fun s => set_map (<[i := Some i]> (entity_map s)) (entity_count s +u32 1) s);;
    mret (result, Some i)
  else mret (- ENOMEM, None).
Definition free_entity (entity : nat) : X Z :=
  '(result, index) ← find_first_entity (Some entity);
  (if result =? 0 then
     i ← must index;
     modify (fun s => set_map (<[i := None]> (entity_map s)) (entity_count s -u32 1) s)
   else mret tt);;
  mret result.

Definition io_register_device (d : dev) : X Z :=
  l ← gets devices;
  if (length l <? MAX_IO_DEVICES)%nat then modify (set_devices (l ++ [d]));; mret 0 else mret (- ENOMEM).

Definition io_dev_init (h : option dev) (init_params : Z) : X Z :=
  massert (is_valid_dev h);; d ← must h;
  match f_dev_init (funcs d) with Some f => f d init_params | None => mret 0 end.
Definition io_dev_close (h : option dev) : X Z :=
  massert (is_valid_dev h);; d ← must h;
  match f_dev_close (funcs d) with Some f => f d | None => mret 0 end.

Definition io_open (h : option dev) (spec : option io_spec) : X (Z * option nat) :=
  sp ← must spec;
  massert (is_valid_dev h);; d ← must h;
  '(result, entity) ← allocate_entity;
  if result =? 0 then
    e ← must entity;
    f ← must (f_open (funcs d));
    result ← f d sp e;
    if result =? 0 then
      pool ← gets entity_pool; x ← must (pool !! e);
      modify (set_pool (<[e := Entity (Some d) (info x)]> pool));;
      mret (result, Some e)
    else free_entity e;; mret (result, None)
  else mret (result, None).
Definition io_seek (handle : nat) (mode offset : Z) : X Z :=
  d ← entity_dev handle; massert (is_valid_seek_mode mode);;
  match f_seek (funcs d) with Some f => f handle mode offset | None => mret (- ENODEV) end.
Definition io_size (handle : nat) : X (Z * option Z) :=
  d ← entity_dev handle;
  match f_size (funcs d) with Some f => f handle | None => mret (- ENODEV, None) end.
Definition not_null (b : buffer) : bool :=
  PLAT_ALLOW_ZERO_ADDR_COPY || match b with Mem a => negb (a =? 0) | Object => true end.
Definition io_read (handle : nat) (b : buffer) (length : Z) : X (Z * option (Z * list Z)) :=
  d ← entity_dev handle; massert (not_null b);;
  match f_read (funcs d) with Some f => f handle b length | None => mret (- ENODEV, None) end.
Definition io_write (handle : nat) (b length : Z) : X (Z * option Z) :=
  d ← entity_dev handle; massert (negb (b =? 0));;
  match f_write (funcs d) with Some f => f handle b length | None => mret (- ENODEV, None) end.
Definition io_close (handle : nat) : X Z :=
  d ← entity_dev handle;
  result ← (match f_close (funcs d) with Some f => f handle | None => mret 0 end);
  free_entity handle;; mret result.
End io_storage.

(** ** io_memmap.c *)
Definition set_info (e : nat) (i : info_t) : X unit :=
  pool ← gets entity_pool; x ← must (pool !! e);
  modify (set_pool (<[e := Entity (dev_handle x) i]> pool)).
(** The structure that [entity->info] points to. *)
Definition memmap_file_of (e : nat) : X memmap_state :=
  pool ← gets entity_pool; x ← must (pool !! e);
  match info x with MemmapFile => gets memmap_file | _ => must None end.

Definition memmap_block_open (_ : dev) (spec : io_spec) (e : nat) : X Z :=
  file ← gets memmap_file;
  if in_use file =? 0 then
    match spec with
    | BlockSpec offset length => modify (set_memmap (MemmapState 1 offset 0 length));; set_info e MemmapFile;; mret 0
    | UuidSpec _ => must None
    end
  else mret (- ENOMEM).
Definition memmap_block_seek (e : nat) (mode offset : Z) : X Z :=
  if mode =? IO_SEEK_SET then
    fp ← memmap_file_of e;
    modify (set_memmap (MemmapState (in_use fp) (base fp) (u64 offset) (mm_size fp)));; mret 0
  else mret (- ENOENT).
Definition memmap_block_len (e : nat) : X (Z * option Z) := fp ← memmap_file_of e; mret (0, Some (mm_size fp)).
Definition memmap_block_read (e : nat) (b : buffer) (length : Z) : X (Z * option (Z * list Z)) :=
  massert (not_null b);;
  fp ← memmap_file_of e;
  let src := base fp +u64 mm_pos fp in
  m ← gets memory;
  bytes ← must (Fwu.read_bytes m src length);
  (match b with
   | Mem dst => m ← must (Fwu.memcpy m dst src length); modify (set_memory m)
   | Object => mret tt
   end);;
  modify (set_memmap (MemmapState (in_use fp) (base fp) (mm_pos fp +u64 length) (mm_size fp)));;
  mret (0, Some (length, bytes)).
Definition memmap_block_write (e : nat) (b length : Z) : X (Z * option Z) :=
  massert (negb (b =? 0));;
  fp ← memmap_file_of e;
  m ← gets memory;
  m ← must (Fwu.memcpy m (base fp +u64 mm_pos fp) b length);
  modify (set_memory m);;
  modify (set_memmap (MemmapState (in_use fp) (base fp) (mm_pos fp +u64 length) (mm_size fp)));;
  mret (0, Some length).
Definition memmap_block_close (e : nat) : X Z :=
  set_info e InfoNull;; modify (set_memmap memmap_zero);; mret 0.
Definition memmap_dev_close (_ : dev) : X Z := mret 0.
Definition memmap_dev_funcs : io_dev_funcs :=
  Funcs IO_TYPE_MEMMAP (Some memmap_block_open) (Some memmap_block_seek) (Some memmap_block_len) (Some memmap_block_read)
    (Some memmap_block_write) (Some memmap_block_close) None (Some memmap_dev_close).
(** The connector's [dev_open] yields the device; the connector of a device is the device. *)
Definition dev_open (con : option dev) : X (Z * option dev) := d ← must con; mret (0, Some d).
Definition io_dev_open (con : option dev) : X (Z * option dev) := '(result, h) ← dev_open con; mret (result, h).
Definition register_io_dev (d : dev) : X (Z * option dev) :=
  result ← io_register_device d; mret (result, if result =? 0 then Some d else None).

(** ** io_fip.c and marvell_io_storage.c

    The functions of the package driver and of the platform policy call the IO layer, and
    with it the devices [funcs]. *)
Definition fip_block_spec : io_spec := BlockSpec PLAT_MARVELL_FIP_BASE PLAT_MARVELL_FIP_MAX_SIZE.
Definition FIP_IMAGE_ID := 0.
(** [policies]: memory map or package, and what [image_spec] points to. *)
Definition UUID_TRUSTED_BOOT_FIRMWARE_BL2 : list Z :=
  [0x5f; 0xf9; 0xec; 0x0b; 0x4d; 0x22; 0x3e; 0x4d; 0xa5; 0x44; 0xc3; 0x9d; 0x81; 0xc7; 0x3f; 0x0a].
Definition UUID_SCP_FIRMWARE_SCP_BL2 : list Z :=
  [0x97; 0x66; 0xfd; 0x3d; 0x89; 0xbe; 0xe8; 0x49; 0xae; 0x5d; 0x78; 0xa1; 0x40; 0x60; 0x82; 0x13].
Definition UUID_EL3_RUNTIME_FIRMWARE_BL31 : list Z :=
  [0x47; 0xd4; 0x08; 0x6d; 0x4c; 0xfe; 0x98; 0x46; 0x9b; 0x95; 0x29; 0x50; 0xcb; 0xbd; 0x5a; 0x00].
Definition UUID_SECURE_PAYLOAD_BL32 : list Z :=
  [0x05; 0xd0; 0xe1; 0x89; 0x53; 0xdc; 0x13; 0x47; 0x8d; 0x2b; 0x50; 0x0a; 0x4b; 0x7a; 0x3e; 0x38].
Definition UUID_NON_TRUSTED_FIRMWARE_BL33 : list Z :=
  [0xd6; 0xd0; 0xee; 0xa7; 0xfc; 0xea; 0xd5; 0x4b; 0x97; 0x82; 0x99; 0x34; 0xf2; 0x34; 0xb6; 0xe4].
Definition policies : list (dev * io_spec) :=
  [(MemmapDev, fip_block_spec); (FipDev, UuidSpec UUID_TRUSTED_BOOT_FIRMWARE_BL2); (FipDev, UuidSpec UUID_SCP_FIRMWARE_SCP_BL2);
   (FipDev, UuidSpec UUID_EL3_RUNTIME_FIRMWARE_BL31); (FipDev, UuidSpec UUID_SECURE_PAYLOAD_BL32);
   (FipDev, UuidSpec UUID_NON_TRUSTED_FIRMWARE_BL33)].

Section nested.
Variable funcs : dev -> io_dev_funcs.

(** [open_fip] and [open_memmap] *)
Definition check_open (h : option dev) (init_params : Z) (spec : io_spec) : X Z :=
  result ← io_dev_init funcs h init_params;
  if result =? 0 then
    '(result, handle) ← io_open funcs h (Some spec);
    (if result =? 0 then e ← must handle; io_close funcs e;; mret tt else mret tt);;
    mret result
  else mret result.
Definition open_fip (spec : io_spec) : X Z := h ← gets fip_dev_handle; check_open h FIP_IMAGE_ID spec.
Definition open_memmap (spec : io_spec) : X Z := h ← gets memmap_dev_handle; check_open h 0 spec.
Definition plat_marvell_get_alt_image_source (image_id : Z) : X (Z * option (option dev * io_spec)) := mret (- ENOENT, None).
(** 0 with the device handle and the specification, or an error. *)
Definition plat_get_image_source (image_id : Z) : X (Z * option (option dev * io_spec)) :=
  '(d, spec) ← must (policies !! Z.to_nat image_id);
  result ← (match d with FipDev => open_fip spec | MemmapDev => open_memmap spec end);
  if result =? 0 then
    h ← gets (match d with FipDev => fip_dev_handle | MemmapDev => memmap_dev_handle end);
    mret (0, Some (h, spec))
  else plat_marvell_get_alt_image_source image_id.

Fixpoint memcmp (s1 s2 : list Z) : Z :=
  match s1, s2 with
  | b1 :: s1, b2 :: s2 => if negb (b1 - b2 =? 0) then b1 - b2 else memcmp s1 s2
  | _, _ => 0
  end.
Definition uuid_null : list Z := replicate 16 0.
Definition compare_uuids (u1 u2 : list Z) : Z := memcmp u1 u2.
Definition is_valid_header (h : fip_toc_header) : bool := (name h =? TOC_HEADER_NAME) && negb (serial_number h =? 0).

Definition fip_dev_init (_ : dev) (init_params : Z) : X Z :=
  let image_id := u32 init_params in
  '(result, source) ← plat_get_image_source image_id;
  (match source with Some (h, spec) => modify (set_backend h (Some spec)) | None => mret tt end);;
  if negb (result =? 0) then mret (- ENOENT) else
  h ← gets backend_dev_handle; spec ← gets backend_image_spec;
  '(result, handle) ← io_open funcs h spec;
  if negb (result =? 0) then mret (- ENOENT) else
  backend_handle ← must handle;
  '(result, data) ← io_read funcs backend_handle Object sizeof_header;
  result ← (if result =? 0 then
              '(_, bytes) ← must data;
              mret (if is_valid_header (decode_header bytes) then result else - ENOENT)
            else mret result);
  io_close funcs backend_handle;;
  mret result.
Definition fip_dev_close (_ : dev) : X Z := modify (set_backend None None);; mret 0.

Definition set_entry (e : fip_toc_entry) : X unit := modify (fun s => set_fip (FipState (file_pos (fip_file s)) e) s).
(** One round of the loop over the table of contents: [inr] the result and whether the
    file has been found, or [inl] when there is a next round. *)
Definition toc_round (backend_handle : nat) (u : list Z) : X (unit + (Z * bool)) :=
  '(result, data) ← io_read funcs backend_handle Object sizeof_entry;
  if result =? 0 then
    '(_, bytes) ← must data;
    let e := decode_entry bytes in
    set_entry e;;
    if compare_uuids (uuid e) u =? 0 then mret (inr (result, true))
    else if compare_uuids (uuid e) uuid_null =? 0 then mret (inr (result, false))
    else mret (inl tt)
  else mret (inr (result, false)).
(** At most [2 ^ n] rounds. *)
Definition toc_loop (n : nat) (backend_handle : nat) (u : list Z) : X (Z * bool) :=
  r ← rounds (fun _ => toc_round backend_handle u) n tt; 
  match r with inl _ => must None | inr x => mret x end.

Definition fip_file_open (_ : dev) (spec : io_spec) (e : nat) : X Z :=
  u ← must (match spec with UuidSpec u => Some u | BlockSpec _ _ => None end);
  file ← gets fip_file;
  if negb (offset_address (entry file) =? 0) then mret (- ENOMEM) else
  h ← gets backend_dev_handle; bspec ← gets backend_image_spec;
  '(result, handle) ← io_open funcs h bspec;
  if negb (result =? 0) then mret (- ENOENT) else
  backend_handle ← must handle;
  result ← io_seek funcs backend_handle IO_SEEK_SET sizeof_header;
  result ← (if negb (result =? 0) then mret (- ENOENT) else
    '(result, found_file) ← toc_loop 64 backend_handle u;
    if negb (result =? 0) then mret result
    else if found_file : bool then
      modify (fun s => set_fip (FipState 0 (entry (fip_file s))) s);; set_info e FipFile;; mret result
    else
      x ← gets (fun s => entry (fip_file s));
      set_entry (TocEntry (uuid x) 0 (size x) (flags x));; mret (- ENOENT));
  io_close funcs backend_handle;;
  mret result.

Definition fip_file_of (e : nat) : X fip_state :=
  pool ← gets entity_pool; x ← must (pool !! e);
  match info x with FipFile => gets fip_file | _ => must None end.
Definition fip_file_len (e : nat) : X (Z * option Z) := fp ← fip_file_of e; mret (0, Some (size (entry fp))).
Definition fip_file_read (e : nat) (b : buffer) (length : Z) : X (Z * option (Z * list Z)) :=
  massert (not_null b);;
  pool ← gets entity_pool; x ← must (pool !! e);
  massert (match info x with InfoNull => false | _ => true end);;
  h ← gets backend_dev_handle; bspec ← gets backend_image_spec;
  '(result, handle) ← io_open funcs h bspec;
  if negb (result =? 0) then mret (- ENOENT, None) else
  backend_handle ← must handle;
  fp ← fip_file_of e;
  let file_offset := offset_address (entry fp) +u64 file_pos fp in
  result ← io_seek funcs backend_handle IO_SEEK_SET (sext 64 file_offset);
  r ← (if negb (result =? 0) then mret (- ENOENT, None) else
    '(result, data) ← io_read funcs backend_handle b length;
    if negb (result =? 0) then mret (- ENOENT, None) else
    '(bytes_read, bytes) ← must data;
    modify (fun s => set_fip (FipState (file_pos fp +u32 bytes_read) (entry fp)) s);;
    mret (result, Some (bytes_read, bytes)));
  io_close funcs backend_handle;;
  mret r.
Definition fip_file_close (e : nat) : X Z :=
  file ← gets fip_file;
  (if negb (offset_address (entry file) =? 0) then modify (set_fip fip_zero) else mret tt);;
  set_info e InfoNull;; mret 0.
Definition fip_dev_funcs : io_dev_funcs :=
  Funcs IO_TYPE_FIRMWARE_IMAGE_PACKAGE (Some fip_file_open) None (Some fip_file_len) (Some fip_file_read) None (Some fip_file_close)
    (Some fip_dev_init) (Some fip_dev_close).
End nested.

(** Without nesting, the functions of the package driver are undefined. *)
Definition no_funcs : io_dev_funcs :=
  Funcs IO_TYPE_FIRMWARE_IMAGE_PACKAGE (Some (fun _ _ _ => must None)) None (Some (fun _ => must None)) (Some (fun _ _ _ => must None)) None
    (Some (fun _ => must None)) (Some (fun _ _ => must None)) (Some (fun _ => must None)).
Fixpoint dev_funcs (depth : nat) (d : dev) : io_dev_funcs :=
  match d with
  | MemmapDev => memmap_dev_funcs
  | FipDev => match depth with O => no_funcs | S depth => fip_dev_funcs (dev_funcs depth) end
  end.

Definition marvell_io_setup : X unit :=
  '(io_result, con) ← register_io_dev FipDev;
  modify (fun s => set_cons con (memmap_dev_con s) s);; massert (io_result =? 0);;
  '(io_result, con) ← register_io_dev MemmapDev;
  modify (fun s => set_cons (fip_dev_con s) con s);; massert (io_result =? 0);;
  con ← gets fip_dev_con; '(io_result, h) ← io_dev_open con;
  modify (fun s => set_handles h (memmap_dev_handle s) s);; massert (io_result =? 0);;
  con ← gets memmap_dev_con; '(io_result, h) ← io_dev_open con;
  modify (fun s => set_handles (fip_dev_handle s) h s);; massert (io_result =? 0).
Definition marvell_io_is_toc_valid (depth : nat) : X Z :=
  h ← gets fip_dev_handle; result ← io_dev_init (dev_funcs depth) h FIP_IMAGE_ID;
  mret (if result =? 0 then 1 else 0).
End config.
End Io.
