(* ===== verification/LoadImage.v ===== *)
(** * Loading images: common/bl_common.c of the Trusted Firmware

    The version for [LOAD_IMAGE_V2 = 0], which the Marvell platforms build, over the IO layer
    of [Io].  Structures that C passes by pointer are arguments and results.  The
    authentication module is behind the class [AuthMod], which [Auth] implements; the boolean [TRUSTED_BOARD_BOOT]
    is the build option.  Messages and cache maintenance are left out. *)

From Stdlib Require Import ZArith Lia.
From stdpp Require Import base option list numbers.
From S2P Require Import Prelude CMonad BlFwu Io.
Import Io.
Open Scope Z_scope.
Open Scope cint_scope.

Module LoadImage.

Record meminfo := Meminfo { total_base : Z; total_size : Z; free_base : Z; free_size : Z }.
(** The [version] is that of the header [h]. *)
Record image_info := ImageInfo { version : Z; image_base : Z; image_size : Z }.
Definition VERSION_1 := 1.
Definition EAUTH := 80.
Definition UINTPTR_MAX := 2 ^ 64 - 1.
Definition PAGE_SIZE := 4096.
Definition DOWN := 0.
Definition UP := 1.
Definition TOP := 1.
Definition BOTTOM := 0.

Definition page_align (value dir : Z) : Z :=
  if negb (Z.land value (PAGE_SIZE - 1) =? 0) then
    let value := Z.ldiff value (PAGE_SIZE - 1) in
    if dir =? UP then value +u64 PAGE_SIZE else value
  else value.

Definition check_uptr_overflow (ptr inc : Z) : bool := UINTPTR_MAX -u64 inc <? ptr.
Definition is_mem_free (free_base free_size addr size : Z) : bool :=
  if size =? 0 then true
  else if free_size =? 0 then false
  else if check_uptr_overflow free_base (free_size - 1) then false
  else
    let free_end := free_base +u64 (free_size - 1) in
    if check_uptr_overflow addr (size - 1) then false
    else
      let requested_end := addr +u64 (size - 1) in
      (free_base <=? addr) && (requested_end <=? free_end).

(** The position and the size of the smaller chunk. *)
Definition choose_mem_pos (mem_start mem_end submem_start submem_end : Z) : option (Z * Z) :=
  if negb ((mem_start <=? submem_start) && (submem_start <=? submem_end) && (submem_end <=? mem_end)) then None
  else
    let top_chunk_size := mem_end -u64 submem_end in
    let bottom_chunk_size := submem_start -u64 mem_start in
    Some (if top_chunk_size <? bottom_chunk_size then (TOP, top_chunk_size) else (BOTTOM, bottom_chunk_size)).
(** The new [free_base] and [free_size]. *)
Definition reserve_mem (free_base free_size addr size : Z) : option (Z * Z) :=
  if negb (is_mem_free free_base free_size addr size) then None
  else if size =? 0 then Some (free_base, free_size)
  else
    '(pos, discard_size) ← choose_mem_pos free_base (free_base +u64 (free_size - 1)) addr (addr +u64 (size - 1));
    let reserved_size := size +u64 discard_size in
    Some (if pos =? BOTTOM then addr +u64 size else free_base, free_size -u64 reserved_size).

Class AuthMod := {
  TRUSTED_BOARD_BOOT : bool;
  auth_state : Type;
  (** The return value, 0 when the image has a parent still to be authenticated, and [*parent_id]. *)
  auth_mod_get_parent_id : auth_state -> Z -> option (Z * Z);
  (** The verdict on the bytes of an image at an address, 0 for success; it may keep what it extracts. *)
  auth_mod_verify_img : auth_state -> Z -> Z -> list Z -> option (Z * auth_state)
}.

Section load.
Context `{IoConfig} (funcs : dev -> io_dev_funcs).

Definition image_size_of (image_id : Z) : X Z :=
  '(io_result, source) ← plat_get_image_source funcs image_id;
  if negb (io_result =? 0) then mret 0 else
  '(dev_handle, image_spec) ← must source;
  '(io_result, handle) ← io_open funcs dev_handle (Some image_spec);
  if negb (io_result =? 0) then mret 0 else
  image_handle ← must handle;
  '(io_result, length) ← io_size funcs image_handle;
  io_close funcs image_handle;;
  io_dev_close funcs dev_handle;;
  mret (default 0 length).

(** [load_image] after [io_size], up to the label [exit]: the result, the memory layout, the
    image information and the program counter of the entry point, if there is one. *)
Definition load_read (mem_layout : meminfo) (image_handle : nat) (base size : Z) (image_data : image_info) (ep : option Z) :
  X (Z * meminfo * image_info * option Z) :=
  if negb (is_mem_free (free_base mem_layout) (free_size mem_layout) base size) then mret (- ENOMEM, mem_layout, image_data, ep) else
  '(io_result, data) ← io_read funcs image_handle (Mem base) size;
  if negb (io_result =? 0) then mret (io_result, mem_layout, image_data, ep) else
  '(bytes_read, _) ← must data;
  if bytes_read <? size then mret (io_result, mem_layout, image_data, ep) else
  let image_data := ImageInfo (version image_data) base (u32 size) in
  match ep with
  | Some _ =>
      '(fb, fs) ← must (reserve_mem (free_base mem_layout) (free_size mem_layout) base size);
      mret (io_result, Meminfo (total_base mem_layout) (total_size mem_layout) fb fs, image_data, Some base)
  | None => mret (io_result, mem_layout, image_data, None)
  end.
Definition load_image (mem_layout : meminfo) (image_id base : Z) (image_data : image_info) (ep : option Z) :
  X (Z * meminfo * image_info * option Z) :=
  massert (version image_data =? VERSION_1);;
  '(io_result, source) ← plat_get_image_source funcs image_id;
  if negb (io_result =? 0) then mret (io_result, mem_layout, image_data, ep) else
  '(dev_handle, image_spec) ← must source;
  '(io_result, handle) ← io_open funcs dev_handle (Some image_spec);
  if negb (io_result =? 0) then mret (io_result, mem_layout, image_data, ep) else
  image_handle ← must handle;
  '(io_result, length) ← io_size funcs image_handle;
  r ← (if negb (io_result =? 0) then mret (io_result, mem_layout, image_data, ep) else
       size ← must length;
       if size =? 0 then mret (io_result, mem_layout, image_data, ep)
       else load_read mem_layout image_handle base size image_data ep);
  io_close funcs image_handle;;
  io_dev_close funcs dev_handle;;
  mret r.

(** The state with that of the authentication module. *)
Context `{AuthMod}.
Definition lift {A} (m : X A) : M (io * auth_state) A :=
  fun '(s, a) => match m s with Some (x, s') => Some (x, (s', a)) | None => None end.
(** [depth] bounds the chain of parents. *)
Fixpoint load_auth_image (depth : nat) (mem_layout : meminfo) (image_id base : Z) (image_data : image_info) (ep : option Z) :
  M (io * auth_state) (Z * meminfo * image_info * option Z) :=
  match depth with
  | O => must None
  | S depth =>
      '(rc, mem_layout, image_data) ←
        (if TRUSTED_BOARD_BOOT then
           '(_, a) ← get;
           '(rc, parent_id) ← must (auth_mod_get_parent_id a image_id);
           if rc =? 0 then
             '(rc, l, d, _) ← load_auth_image depth mem_layout parent_id base image_data None; mret (rc, l, d)
           else mret (0, mem_layout, image_data)
         else mret (0, mem_layout, image_data));
      if negb (rc =? 0) then mret (rc, mem_layout, image_data, ep) else
      '(rc, mem_layout, image_data, ep) ← lift (load_image mem_layout image_id base image_data ep);
      if negb (rc =? 0) then mret (rc, mem_layout, image_data, ep) else
      if TRUSTED_BOARD_BOOT then
        '(s, a) ← get;
        bytes ← must (Fwu.read_bytes (memory s) (image_base image_data) (image_size image_data));
        '(rc, a) ← must (auth_mod_verify_img a image_id (image_base image_data) bytes);
        put (s, a);;
        if negb (rc =? 0) then
          lift (modify (set_memory (Fwu.memset (memory s) (image_base image_data) 0 (image_size image_data))));;
          mret (- EAUTH, mem_layout, image_data, ep)
        else mret (0, mem_layout, image_data, ep)
      else mret (0, mem_layout, image_data, ep)
  end.
End load.
End LoadImage.
