(* ===== verification/IoProps.v ===== *)
(** * IO layer: the pool of entities, and the memory map device

    The invariant of the pool, the promise a driver makes to the IO layer ([Balanced]: it
    returns every entity it takes, on every path), and the exact effect of a session with the
    memory map device. *)

From Stdlib Require Import ZArith Lia.
From stdpp Require Import base option list numbers.
From S2P Require Import Prelude CMonad BlFwu Io.
Import Io.
Open Scope Z_scope.

Module IoProps.

(** ** The pool *)
Fixpoint used (m : list (option nat)) : nat :=
  match m with [] => O | Some _ :: m => S (used m) | None :: m => used m end.

Section pool.
Context `{IoConfig}.
Record pool_ok (s : io) : Prop := {
  po_pool : length (entity_pool s) = MAX_IO_HANDLES;
  po_map : length (entity_map s) = MAX_IO_HANDLES;
  po_own : forall i e, entity_map s !! i = Some (Some e) -> e = i;
  po_count : entity_count s = Z.of_nat (used (entity_map s));
  po_max : Z.of_nat MAX_IO_HANDLES < 2 ^ 32
}.

Lemma used_insert m i x y : m !! i = Some x -> (used (<[i := y]> m) + match x with Some _ => 1 | None => 0 end =
  used m + match y with Some _ => 1 | None => 0 end)%nat.
Proof.
  revert i. induction m as [|z m IH]; intros [|i] E; [done|done|..]; cbn in E.
  - injection E as ->. destruct x, y; cbn; lia.
  - specialize (IH i E). destruct z; cbn; unfold insert in *; lia.
Qed.
Lemma used_take m i x : m !! i = Some None -> used (<[i := Some x]> m) = S (used m).
Proof. intros E. pose proof (used_insert _ _ _ (Some x) E) as Hu. cbn in Hu. unfold insert in *. lia. Qed.
Lemma used_give m i x : m !! i = Some (Some x) -> S (used (<[i := None]> m)) = used m.
Proof. intros E. pose proof (used_insert _ _ _ None E) as Hu. cbn in Hu. unfold insert in *. lia. Qed.
Lemma used_le m : (used m <= length m)%nat.
Proof. induction m as [|[] m]; cbn; lia. Qed.

Lemma find_entity_some x m k i : find_entity x m k = Some i -> (k <= i)%nat /\ m !! (i - k)%nat = Some x.
Proof.
  revert k. induction m as [|y m IH]; intros k; cbn; [done|]. case_bool_decide.
  - intros [= ->]. rewrite Nat.sub_diag. split; [done|]. cbn. congruence.
  - intros E. apply IH in E as [? E]. split; [lia|]. by replace (i - k)%nat with (S (i - S k)) by lia.
Qed.
Lemma find_entity_none x m k : find_entity x m k = None -> x ∉ m.
Proof.
  revert k. induction m as [|y m IH]; intros k; cbn; [intros _; apply not_elem_of_nil|]. case_bool_decide; [done|].
  intros E. apply IH in E. rewrite not_elem_of_cons. split; [congruence|done].
Qed.
(** A slot is free as long as the count is below the maximum. *)
Lemma free_slot s : pool_ok s -> entity_count s < Z.of_nat MAX_IO_HANDLES ->
  exists e, find_entity None (entity_map s) 0 = Some e /\ entity_map s !! e = Some None.
Proof.
  intros [_ Hm _ Hc _] Hlt. destruct (find_entity None (entity_map s) 0) as [e|] eqn:E.
  - exists e. split; [done|]. apply find_entity_some in E as [_ E]. by rewrite Nat.sub_0_r in E.
  - apply find_entity_none in E. enough (used (entity_map s) = length (entity_map s)) by lia. clear -E.
    induction (entity_map s) as [|x m IH]; [done|]. rewrite not_elem_of_cons in E. destruct E as [Hx E]. destruct x; [|done]. cbn. by rewrite IH.
Qed.
(** An entity in use is at its own index only. *)
Lemma own_slot s e : pool_ok s -> entity_map s !! e = Some (Some e) -> find_entity (Some e) (entity_map s) 0 = Some e.
Proof.
  intros P E. destruct (find_entity (Some e) (entity_map s) 0) as [i|] eqn:F.
  - apply find_entity_some in F as [_ F]. rewrite Nat.sub_0_r in F. apply (po_own _ P) in F. by subst.
  - apply find_entity_none in F. destruct F. by eapply list_elem_of_lookup_2.
Qed.

(** [s'] has the entities of [s] and [e]. *)
Definition taken (e : nat) (s s' : io) : Prop :=
  entity_map s !! e = Some None /\ entity_map s' = <[e := Some e]> (entity_map s) /\ entity_count s' = entity_count s + 1 /\
  length (entity_pool s') = length (entity_pool s).
Definition same_pool (s s' : io) : Prop :=
  entity_map s' = entity_map s /\ entity_count s' = entity_count s /\ length (entity_pool s') = length (entity_pool s).
#[global] Instance same_pool_preorder : PreOrder same_pool.
Proof. split; [by repeat split|]. intros s1 s2 s3 (? & ? & ?) (? & ? & ?). repeat split; congruence. Qed.
Lemma same_pool_ok s s' : pool_ok s -> same_pool s s' -> pool_ok s'.
Proof. intros [] (Em & Ec & El). constructor; rewrite ?Em, ?Ec, ?El; done. Qed.

Lemma taken_ok e s s' : pool_ok s -> taken e s s' -> pool_ok s'.
Proof.
  intros [Pp Pm Po Pc Px] (E0 & Em & Ec & El). constructor; rewrite ?Em, ?Ec, ?El, ?length_insert; [done|done| |..|done].
  - intros i j. rewrite list_lookup_insert_Some. intros [(? & [= ->] & _)|[_ ?]]; [done|by apply Po].
  - rewrite used_take by done. lia.
Qed.
Lemma allocate_ok s : pool_ok s -> exists r e s', allocate_entity s = Some ((r, e), s') /\
  ((r = - ENOMEM /\ e = None /\ s' = s /\ used (entity_map s) = MAX_IO_HANDLES) \/
   (exists i, r = 0 /\ e = Some i /\ taken i s s' /\ s' = set_map (<[i := Some i]> (entity_map s)) (entity_count s + 1) s)).
Proof.
  intros P. pose proof (po_map _ P) as Hm. pose proof (po_count _ P) as Hc. pose proof (po_max _ P). pose proof (used_le (entity_map s)).
  unfold allocate_entity. rewrite bind_gets. destruct (Z.ltb_spec (entity_count s) (Z.of_nat MAX_IO_HANDLES)).
  - destruct (free_slot s P ltac:(done)) as (e & F & E). unfold find_first_entity. rewrite bind_assoc, bind_gets, bind_ret, F. cbn [fst snd].
    rewrite bind_massert, (bind_must _ e), bind_modify by done. eexists _, _, _. split; [done|]. right. exists e.
    rewrite wrap_small by lia. repeat split; done.
  - eexists _, _, _. split; [done|]. left. repeat split; try done. lia.
Qed.
Lemma free_entity_eq s e : pool_ok s -> entity_map s !! e = Some (Some e) ->
  free_entity e s = Some (0, set_map (<[e := None]> (entity_map s)) (entity_count s - 1) s).
Proof.
  intros P E. unfold free_entity, find_first_entity. rewrite bind_assoc, bind_gets, bind_ret, (own_slot s e P E). cbn -[set_map].
  unfold mbind, M_bind. cbn -[set_map]. pose proof (po_count _ P). pose proof (po_max _ P).
  pose proof (po_map _ P). pose proof (used_le (entity_map s)).
  pose proof (used_give _ _ _ E) as Hu.
  by rewrite wrap_small by lia.
Qed.
Lemma free_taken s0 s s' e : pool_ok s0 -> taken e s0 s -> same_pool s s' ->
  exists s'', free_entity e s' = Some (0, s'') /\ same_pool s0 s'' /\ memory s'' = memory s'.
Proof.
  intros P T S. pose proof (taken_ok _ _ _ P T) as P1. pose proof (same_pool_ok _ _ P1 S) as P2. destruct T as (E0 & Em & Ec & El), S as (Em' & Ec' & El').
  assert (e < length (entity_map s0))%nat by (by eapply lookup_lt_Some).
  assert (entity_map s' !! e = Some (Some e)) as E by (by rewrite Em', Em, list_lookup_insert_eq).
  rewrite free_entity_eq by done. eexists. split; [done|]. split; [|done]. split; [|split]; cbn.
  - rewrite Em', Em, list_insert_insert_eq. by apply list_insert_id.
  - lia.
  - congruence.
Qed.
End pool.

(** ** What a driver promises *)
Section keeps.
Context `{IoConfig}.
(** [m] leaves the pool as it finds it. *)
Definition keeps {A} (m : X A) : Prop := forall s x s', pool_ok s -> m s = Some (x, s') -> same_pool s s'.
Lemma keeps_bind {A B} (m : X A) (k : A -> X B) : keeps m -> (forall x, keeps (k x)) -> keeps (m ≫= k).
Proof.
  intros Hm Hk s x s' P (y & s1 & E1 & E2)%bind_some. pose proof (Hm _ _ _ P E1). transitivity s1; [done|].
  eapply Hk; [|done]. by eapply same_pool_ok.
Qed.
Lemma keeps_ret {A} (x : A) : keeps (mret x).
Proof. by intros s y s' _ [= <- <-]. Qed.
Lemma keeps_gets {A} (f : io -> A) : keeps (gets f).
Proof. by intros s y s' _ [= <- <-]. Qed.
Lemma keeps_must {A} (o : option A) : keeps (must o).
Proof. intros s y s' _. destruct o; by intros [= <- <-]. Qed.
Lemma keeps_massert b : keeps (massert b).
Proof. destruct b; [apply keeps_ret|apply keeps_must]. Qed.
Lemma keeps_modify f : (forall s, same_pool s (f s)) -> keeps (modify f).
Proof. intros Hf s y s' _ [= <- <-]. apply Hf. Qed.
Lemma keeps_rounds {A B} (body : A -> X (A + B)) n : (forall x, keeps (body x)) -> forall x, keeps (rounds body n x).
Proof.
  intros Hb. induction n as [|n IH]; intros x; [apply Hb|]. cbn [rounds]. apply keeps_bind; [apply IH|].
  intros [y|y]; [apply IH|apply keeps_ret].
Qed.
Lemma keeps_set_pool e x : keeps (pool ← gets entity_pool; modify (set_pool (<[e := x pool]> pool))).
Proof. intros s y s' _ E. injection E as <- <-. repeat split; cbn. by rewrite length_insert. Qed.
Lemma keeps_set_info e i : keeps (set_info e i).
Proof.
  intros s y s' _ E. unfold set_info in E. rewrite bind_gets in E. apply bind_some in E as (x & s1 & E1 & E2).
  unfold must in E1. destruct (entity_pool s !! e); [|done]. injection E1 as <- <-. injection E2 as <- <-. repeat split; cbn. by rewrite length_insert.
Qed.
End keeps.

Create HintDb keeps.
#[export] Hint Resolve keeps_ret keeps_gets keeps_must keeps_massert keeps_set_info : keeps.
(** Goes through the commands of a computation that neither opens nor closes. *)
Ltac keeps_step :=
  lazymatch goal with
  | |- keeps (_ ≫= _) => apply keeps_bind; [|intros ?]
  | |- keeps (modify _) => apply keeps_modify; intros ?; by repeat split
  | |- keeps (match ?x with _ => _ end) => destruct x eqn:?
  | |- keeps _ => auto with keeps
  end.
Ltac keeps := repeat keeps_step.

(** The interface of a driver to the IO layer: each function leaves the pool alone. *)
Class Balanced `{IoConfig} (f : io_dev_funcs) : Prop := {
  bal_open g d sp e : f_open f = Some g -> keeps (g d sp e);
  bal_seek g e mode off : f_seek f = Some g -> keeps (g e mode off);
  bal_size g e : f_size f = Some g -> keeps (g e);
  bal_read g e b n : f_read f = Some g -> keeps (g e b n);
  bal_write g e b n : f_write f = Some g -> keeps (g e b n);
  bal_close g e : f_close f = Some g -> keeps (g e);
  bal_init g d p : f_dev_init f = Some g -> keeps (g d p);
  bal_dev_close g d : f_dev_close f = Some g -> keeps (g d)
}.

Section io_layer.
Context `{IoConfig} (funcs : dev -> io_dev_funcs) `{Hf : forall d, Balanced (funcs d)}.

Lemma keeps_entity_dev e : keeps (entity_dev funcs e).
Proof. unfold entity_dev. keeps. Qed.
Hint Resolve keeps_entity_dev : keeps.
Lemma keeps_seek e mode off : keeps (io_seek funcs e mode off).
Proof. unfold io_seek. keeps. by eapply bal_seek. Qed.
Lemma keeps_size e : keeps (io_size funcs e).
Proof. unfold io_size. keeps. by eapply bal_size. Qed.
Lemma keeps_read e b n : keeps (io_read funcs e b n).
Proof. unfold io_read. keeps. by eapply bal_read. Qed.
Lemma keeps_write e b n : keeps (io_write funcs e b n).
Proof. unfold io_write. keeps. by eapply bal_write. Qed.
Lemma keeps_dev_init h p : keeps (io_dev_init funcs h p).
Proof. unfold io_dev_init. keeps. by eapply bal_init. Qed.
Lemma keeps_dev_close h : keeps (io_dev_close funcs h).
Proof. unfold io_dev_close. keeps. by eapply bal_dev_close. Qed.

Lemma open_cases h sp s r x s' : pool_ok s -> io_open funcs h sp s = Some ((r, x), s') ->
  (r = 0 /\ exists e, x = Some e /\ taken e s s') \/ (r <> 0 /\ x = None /\ same_pool s s').
Proof.
  intros P E. unfold io_open in E. apply bind_some in E as (sp' & s1 & E1 & E). destruct sp as [sp0|]; [|done]. injection E1 as <- <-.
  apply bind_some in E as ([] & s1 & E1 & E). destruct (is_valid_dev funcs h); [|done]. injection E1 as <-.
  apply bind_some in E as (d & s1 & E1 & E). destruct h as [d0|]; [|done]. injection E1 as <- <-.
  destruct (allocate_ok s P) as (r0 & x0 & s1 & E1 & Hc). rewrite (bind_eq _ _ _ _ _ E1) in E.
  destruct Hc as [(-> & -> & -> & _)|(e & -> & -> & T & _)]; [injection E as <- <- <-; right; by repeat split|].
  cbn [Z.eqb] in E. rewrite (bind_must _ e) in E by done. apply bind_some in E as (f & s2 & E2 & E). destruct (f_open (funcs d0)) as [f0|] eqn:Eo; [|done].
  injection E2 as <- <-. apply bind_some in E as (r1 & s2 & E2 & E). pose proof (taken_ok _ _ _ P T) as P1.
  pose proof (bal_open f0 d0 sp0 e Eo _ _ _ P1 E2) as S. destruct (Z.eqb_spec r1 0) as [->|Hr].
  - rewrite bind_gets in E. apply bind_some in E as (y & s3 & E3 & E). destruct (entity_pool s2 !! e); [|done]. injection E3 as <- <-.
    injection E as <- <- <-. left. split; [done|]. exists e. split; [done|]. destruct T as (? & Em & Ec & El), S as (Sm & Sc & Sl).
    repeat split; cbn; rewrite ?length_insert; congruence.
  - destruct (free_taken s s1 s2 e P T S) as (s3 & E3 & S3 & _). rewrite (bind_eq _ _ _ _ _ E3) in E. injection E as <- <- <-. by right.
Qed.

(** [m] runs with the entity [e] taken and gives it back. *)
Definition gives_back {A} (e : nat) (m : X A) : Prop :=
  forall s0 s x s', pool_ok s0 -> taken e s0 s -> m s = Some (x, s') -> same_pool s0 s'.
Lemma taken_same e s0 s s' : taken e s0 s -> same_pool s s' -> taken e s0 s'.
Proof. intros (? & ? & ? & ?) (? & ? & ?). repeat split; congruence. Qed.
Lemma gives_back_bind {A B} e (m : X A) (k : A -> X B) : keeps m -> (forall x, gives_back e (k x)) -> gives_back e (m ≫= k).
Proof.
  intros Hm Hk s0 s x s' P T (y & s1 & E1 & E2)%bind_some. pose proof (Hm _ _ _ (taken_ok _ _ _ P T) E1) as S.
  eapply Hk; [done| |done]. by eapply taken_same.
Qed.
Lemma gives_back_must {A B} e (x : A) (k : A -> X B) : gives_back e (k x) -> gives_back e (must (Some x) ≫= k).
Proof. intros Hk s0 s y s' P T E. by eapply Hk. Qed.
Lemma gives_back_seq {A B} e (m : X A) (k : A -> X B) : gives_back e m -> (forall x, keeps (k x)) -> gives_back e (m ≫= k).
Proof.
  intros Hm Hk s0 s x s' P T (y & s1 & E1 & E2)%bind_some. pose proof (Hm _ _ _ _ P T E1). transitivity s1; [done|].
  eapply Hk; [|done]. by apply (same_pool_ok s0).
Qed.
Lemma gives_back_close {A} e (k : Z -> X A) : (forall r, keeps (k r)) -> gives_back e (io_close funcs e ≫= k).
Proof.
  intros Hk s0 s x s' P T (r & s1 & E1 & E2)%bind_some. pose proof (taken_ok _ _ _ P T) as P1. unfold io_close in E1.
  apply bind_some in E1 as (d & s2 & Ed & E1). pose proof (keeps_entity_dev e _ _ _ P1 Ed) as S2. pose proof (same_pool_ok _ _ P1 S2) as P2.
  apply bind_some in E1 as (r1 & s3 & Ec & E1).
  assert (same_pool s2 s3) as S3.
  { destruct (f_close (funcs d)) eqn:Ef; [by eapply (bal_close _ e Ef); [|done]|injection Ec as <- <-; reflexivity]. }
  destruct (free_taken s0 s s3 e P T ltac:(by transitivity s2)) as (s4 & E4 & S4 & _). rewrite (bind_eq _ _ _ _ _ E4) in E1.
  injection E1 as <- <-. transitivity s4; [done|]. eapply Hk; [|done]. by apply (same_pool_ok s0).
Qed.
Lemma keeps_open {A} h sp (k : Z * option nat -> X A) :
  (forall r, r <> 0 -> keeps (k (r, None))) -> (forall e, gives_back e (k (0, Some e))) -> keeps (io_open funcs h sp ≫= k).
Proof.
  intros Hfail Hk s x s' P ([r y] & s1 & E1 & E2)%bind_some. destruct (open_cases _ _ _ _ _ _ P E1) as [(-> & e & -> & T)|(Hr & -> & S)].
  - by eapply Hk.
  - transitivity s1; [done|]. eapply (Hfail r Hr); [|done]. by eapply same_pool_ok.
Qed.
End io_layer.
#[export] Hint Resolve keeps_entity_dev keeps_seek keeps_size keeps_read keeps_write keeps_dev_init keeps_dev_close : keeps.

(** Like [keeps], for computations that open and close entities. *)
Ltac balanced_step :=
  lazymatch goal with
  | |- keeps (io_open _ _ _ ≫= _) => apply keeps_open; [first [done|apply _]|let r := fresh in let E := fresh in intros r E%Z.eqb_neq; cbn beta iota; rewrite ?E|intros ?; cbn beta iota]
  | |- gives_back _ (if negb (?r =? ?r) then _ else _) => rewrite Z.eqb_refl
  | |- gives_back _ (if negb (0 =? 0) then _ else _) => change (0 =? 0) with true
  | |- gives_back _ (io_close _ _ ≫= _) => apply gives_back_close; [first [done|apply _]|intros ?]
  | |- gives_back _ (must (Some _) ≫= _) => apply gives_back_must
  | |- gives_back _ (_ ≫= _) => apply gives_back_bind; [|intros ?]
  | |- gives_back _ (match ?x with _ => _ end) => destruct x
  | |- keeps _ => keeps_step
  end; cbn [negb].
Ltac balanced := repeat balanced_step.
Ltac use_func := intros; repeat match goal with H : Some _ = Some _ |- _ => injection H as <- | H : None = Some _ |- _ => discriminate H end.

Section drivers.
Context `{IoConfig}.

Lemma keeps_memmap_file_of e : keeps (memmap_file_of e).
Proof. unfold memmap_file_of. keeps. Qed.
Lemma keeps_fip_file_of e : keeps (fip_file_of e).
Proof. unfold fip_file_of. keeps. Qed.
Hint Resolve keeps_memmap_file_of keeps_fip_file_of : keeps.
#[global] Instance memmap_balanced : Balanced memmap_dev_funcs.
Proof.
  constructor; cbn; use_func; unfold memmap_block_open, memmap_block_seek, memmap_block_len, memmap_block_read, memmap_block_write,
    memmap_block_close, memmap_dev_close; keeps.
Qed.
#[global] Instance no_funcs_balanced : Balanced no_funcs.
Proof. constructor; cbn; use_func; auto with keeps. Qed.

Section fip.
Context (funcs : dev -> io_dev_funcs) `{Hf : forall d, Balanced (funcs d)}.
Lemma keeps_check_open h p sp : keeps (check_open funcs h p sp).
Proof.
  unfold check_open. keeps_step; [auto with keeps|]. keeps_step; [|keeps]. balanced_step; [keeps|].
  apply gives_back_seq; [|intros ?; keeps]. cbn [Z.eqb]. balanced.
Qed.
Hint Resolve keeps_check_open : keeps.
Lemma keeps_get_image_source id : keeps (plat_get_image_source funcs id).
Proof. unfold plat_get_image_source, open_fip, open_memmap, plat_marvell_get_alt_image_source. keeps. Qed.
Hint Resolve keeps_get_image_source : keeps.
Lemma keeps_toc_loop n e u : keeps (toc_loop funcs n e u).
Proof.
  unfold toc_loop. keeps_step; [|keeps]. apply keeps_rounds. intros _. unfold toc_round, set_entry. keeps.
Qed.
Hint Resolve keeps_toc_loop : keeps.
#[global] Instance fip_balanced : Balanced (fip_dev_funcs funcs).
Proof.
  constructor; cbn; use_func; unfold fip_dev_init, fip_dev_close, fip_file_open, fip_file_len, fip_file_read, fip_file_close, set_entry; balanced.
Qed.
End fip.
#[global] Instance dev_funcs_balanced n d : Balanced (dev_funcs n d).
Proof. revert d. induction n; intros []; cbn; apply _. Qed.
End drivers.
End IoProps.
