(* ===== verification/IoFip.v ===== *)
(** * The package driver on the memory map device

    What each function of the drivers does, as an equation on states: a session with the
    memory map device ([sess]), the scan of the table of contents, and opening, reading and
    closing a file of the package. *)

From Stdlib Require Import ZArith Lia.
From stdpp Require Import base option list numbers.
From S2P Require Import Prelude CMonad BlFwu Io IoProps.
Import Io IoProps.
Open Scope Z_scope.

Module IoFip.

(** ** Sessions with the memory map device *)
Section session.
Context `{IoConfig} (funcs : dev -> io_dev_funcs) (Hmm : funcs MemmapDev = memmap_dev_funcs).

(** [e] is the next entity and the device is not in use. *)
Record backend_ready (s : io) (e : nat) : Prop := {
  br_pool : pool_ok s;
  br_free : find_entity None (entity_map s) 0 = Some e;
  br_file : memmap_file s = memmap_zero
}.
(** The device is open with the entity [e], at the position [pos]; otherwise the state is [s]. *)
Definition sess (s : io) (e : nat) (b l pos : Z) : io :=
  set_memmap (MemmapState 1 b pos l) (set_map (<[e := Some e]> (entity_map s)) (entity_count s + 1)
    (set_pool (<[e := Entity (Some MemmapDev) MemmapFile]> (entity_pool s)) s)).
(** The session is over. *)
Definition closed (s : io) (e : nat) : io := set_pool (<[e := Entity (Some MemmapDev) InfoNull]> (entity_pool s)) s.

Lemma backend_free s e : backend_ready s e -> entity_map s !! e = Some None.
Proof. intros [_ E _]. apply find_entity_some in E as [_ E]. by rewrite Nat.sub_0_r in E. Qed.
Lemma backend_lt s e : backend_ready s e -> (e < length (entity_pool s))%nat.
Proof.
  intros R. pose proof (backend_free s e R) as E. apply lookup_lt_Some in E. destruct R as [[Pp Pm _ _ _] _ _]. lia.
Qed.
Lemma backend_count s e : backend_ready s e -> 0 <= entity_count s < Z.of_nat MAX_IO_HANDLES /\ entity_count s + 1 < 2 ^ 32.
Proof.
  intros R. pose proof (backend_free s e R) as E. destruct R as [[_ Pm _ Pc Px] _ _]. pose proof (used_take _ e e E) as Hu.
  pose proof (used_le (<[e := Some e]> (entity_map s))) as Hl. rewrite length_insert in Hl. rewrite Pc. lia.
Qed.
Lemma allocate_eq s e : backend_ready s e ->
  allocate_entity s = Some ((0, Some e), set_map (<[e := Some e]> (entity_map s)) (entity_count s + 1) s).
Proof.
  intros R. pose proof (backend_count s e R). unfold allocate_entity, find_first_entity. rewrite bind_gets, (proj2 (Z.ltb_lt _ _)) by lia.
  rewrite bind_assoc, bind_gets, bind_ret, (br_free _ _ R). cbn -[set_map]. unfold mbind, M_bind. cbn -[set_map]. by rewrite wrap_small by lia.
Qed.
Lemma taken_set_map s e : entity_map s !! e = Some None -> taken e s (set_map (<[e := Some e]> (entity_map s)) (entity_count s + 1) s).
Proof. by repeat split. Qed.

Lemma open_eq s e b l : backend_ready s e -> io_open funcs (Some MemmapDev) (Some (BlockSpec b l)) s = Some ((0, Some e), sess s e b l 0).
Proof.
  intros R. pose proof (backend_lt s e R) as Hlt. unfold io_open. rewrite (bind_must _ (BlockSpec b l)) by done.
  rewrite bind_massert by (cbn; by rewrite Hmm). rewrite (bind_must _ MemmapDev), (bind_eq _ _ _ _ _ (allocate_eq s e R)) by done.
  cbn [Z.eqb]. rewrite (bind_must _ e), (bind_must _ memmap_block_open) by (by rewrite ?Hmm).
  unfold memmap_block_open, set_info. destruct (lookup_lt_is_Some_2 (entity_pool s) e Hlt) as [x Ex].
  unfold mbind, M_bind, gets, must, modify, mret, M_ret. cbn -[insert lookup]. rewrite (br_file _ _ R). cbn -[insert lookup]. rewrite Ex. cbn -[insert lookup].
  rewrite list_lookup_insert_eq by done. cbn -[insert lookup]. by rewrite list_insert_insert_eq.
Qed.
Lemma sess_entity s e b l pos : (e < length (entity_pool s))%nat -> entity_dev funcs e (sess s e b l pos) = Some (MemmapDev, sess s e b l pos).
Proof.
  intros He. unfold entity_dev. rewrite bind_gets. rewrite (bind_must _ (Entity (Some MemmapDev) MemmapFile)) by (by apply list_lookup_insert_eq).
  cbn. by rewrite Hmm.
Qed.
Lemma sess_file s e b l pos : (e < length (entity_pool s))%nat -> memmap_file_of e (sess s e b l pos) = Some (MemmapState 1 b pos l, sess s e b l pos).
Proof.
  intros He. unfold memmap_file_of. rewrite bind_gets. by rewrite (bind_must _ (Entity (Some MemmapDev) MemmapFile)) by (by apply list_lookup_insert_eq).
Qed.
Lemma seek_eq s e b l pos off : (e < length (entity_pool s))%nat ->
  io_seek funcs e IO_SEEK_SET off (sess s e b l pos) = Some (0, sess s e b l (u64 off)).
Proof.
  intros He. unfold io_seek. rewrite (bind_eq _ _ _ _ _ (sess_entity s e b l pos He)), bind_massert, Hmm by done. cbn [memmap_dev_funcs f_seek].
  unfold memmap_block_seek. rewrite Z.eqb_refl. by rewrite (bind_eq _ _ _ _ _ (sess_file s e b l pos He)).
Qed.
Lemma read_object_eq s e b l pos n bytes : (e < length (entity_pool s))%nat -> Fwu.read_bytes (memory s) (u64 (b + pos)) n = Some bytes ->
  io_read funcs e Object n (sess s e b l pos) = Some ((0, Some (n, bytes)), sess s e b l (u64 (pos + n))).
Proof.
  intros He Hr. unfold io_read. rewrite (bind_eq _ _ _ _ _ (sess_entity s e b l pos He)), bind_massert, Hmm by apply orb_true_r.
  cbn [memmap_dev_funcs f_read]. unfold memmap_block_read. rewrite bind_massert by apply orb_true_r.
  rewrite (bind_eq _ _ _ _ _ (sess_file s e b l pos He)), bind_gets. cbn [base mm_pos]. by rewrite (bind_must _ bytes).
Qed.
Lemma read_memory_eq s e b l pos n dst bytes m : (e < length (entity_pool s))%nat -> not_null (Mem dst) = true ->
  Fwu.read_bytes (memory s) (u64 (b + pos)) n = Some bytes -> Fwu.memcpy (memory s) dst (u64 (b + pos)) n = Some m ->
  io_read funcs e (Mem dst) n (sess s e b l pos) = Some ((0, Some (n, bytes)), sess (set_memory m s) e b l (u64 (pos + n))).
Proof.
  intros He Hn Hr Hc. unfold io_read. rewrite (bind_eq _ _ _ _ _ (sess_entity s e b l pos He)), bind_massert, Hmm by done.
  cbn [memmap_dev_funcs f_read]. unfold memmap_block_read. rewrite bind_massert by done.
  rewrite (bind_eq _ _ _ _ _ (sess_file s e b l pos He)), bind_gets. cbn [base mm_pos]. rewrite (bind_must _ bytes) by done.
  rewrite bind_assoc. by rewrite (bind_must _ m).
Qed.
Lemma close_eq s e b l pos : backend_ready s e -> io_close funcs e (sess s e b l pos) = Some (0, closed s e).
Proof.
  intros R. pose proof (backend_lt s e R) as He. pose proof (backend_free s e R) as Ef. unfold io_close.
  rewrite (bind_eq _ _ _ _ _ (sess_entity s e b l pos He)), Hmm. cbn [memmap_dev_funcs f_close].
  set (s1 := set_memmap memmap_zero (set_map (<[e := Some e]> (entity_map s)) (entity_count s + 1) (closed s e))).
  assert (memmap_block_close e (sess s e b l pos) = Some (0, s1)) as Ec.
  { unfold memmap_block_close, set_info, mbind, M_bind, gets, must, modify. cbn -[insert lookup]. rewrite list_lookup_insert_eq by done.
    cbn -[insert lookup]. by rewrite list_insert_insert_eq. }
  rewrite (bind_eq _ _ _ _ _ Ec). rewrite (bind_eq _ _ _ _ _ (free_entity_eq s1 e ltac:(eapply taken_ok; [apply R|]; subst s1; repeat split; cbn; [done|by rewrite length_insert])
    ltac:(cbn; apply list_lookup_insert_eq; by apply lookup_lt_Some in Ef))).
  subst s1. unfold mret, M_ret, closed. f_equal. f_equal. cbn -[insert]. rewrite list_insert_insert_eq, list_insert_id by done.
  replace (entity_count s + 1 - 1) with (entity_count s) by lia. rewrite <- (br_file _ _ R). by destruct s.
Qed.
Lemma closed_ready s e : backend_ready s e -> backend_ready (closed s e) e.
Proof.
  intros [P F M]. constructor; [|done|done]. apply (same_pool_ok s); [done|]. repeat split. cbn. by rewrite length_insert.
Qed.
Lemma closed_closed s e : closed (closed s e) e = closed s e.
Proof. unfold closed. cbn. by rewrite list_insert_insert_eq. Qed.
End session.

(** ** Packages in memory *)
Definition bytes_at (m : Fwu.memory_t) (a n : Z) : list Z := map m (seqZ a n).
Lemma read_bytes_eq m a n : a + n <= 2 ^ 64 -> Fwu.read_bytes m a n = Some (bytes_at m a n).
Proof. intros Hn. unfold Fwu.read_bytes. by rewrite (proj2 (Z.ltb_ge _ _)) by lia. Qed.
Lemma bytes_at_length m a n : length (bytes_at m a n) = Z.to_nat n.
Proof. unfold bytes_at. by rewrite length_map, length_seqZ. Qed.
(** The entry [i] of the table of contents of a package at [b]. *)
Definition entry_at (m : Fwu.memory_t) (b : Z) (i : nat) : fip_toc_entry :=
  decode_entry (bytes_at m (b + sizeof_header + sizeof_entry * Z.of_nat i) sizeof_entry).
(** A package at [b] with the files [toc]: the header is valid, the table of contents
    holds [toc] and ends with the null UUID. *)
Record package (m : Fwu.memory_t) (b : Z) (toc : list fip_toc_entry) : Prop := {
  pk_header : is_valid_header (decode_header (bytes_at m b sizeof_header)) = true;
  pk_toc : forall i e, toc !! i = Some e -> entry_at m b i = e /\ uuid e <> uuid_null;
  pk_end : uuid (entry_at m b (length toc)) = uuid_null;
  pk_fits : 0 < b /\ b + sizeof_header + sizeof_entry * (Z.of_nat (length toc) + 1) <= 2 ^ 64
}.
Definition toc_find (u : list Z) (toc : list fip_toc_entry) : option fip_toc_entry := snd <$> list_find (fun e => uuid e = u) toc.

Lemma memcmp_eq l1 l2 : length l1 = length l2 -> memcmp l1 l2 = 0 <-> l1 = l2.
Proof.
  revert l2. induction l1 as [|x l1 IH]; intros [|y l2] Hl; try done. cbn. injection Hl as Hl. destruct (Z.eqb_spec (x - y) 0); cbn.
  - rewrite IH by done. split; [intros ->; f_equal; lia|by intros [= _ ->]].
  - split; [lia|intros [= -> _]; lia].
Qed.
Lemma uuid_length m b i : length (uuid (entry_at m b i)) = 16%nat.
Proof.
  unfold entry_at, decode_entry. cbn [uuid]. set (l := bytes_at _ _ _). assert (length l = 40%nat) as Hl by apply bytes_at_length.
  clearbody l. unfold slice. cbn [Z.to_nat]. rewrite length_take, length_drop, Hl. done.
Qed.
Lemma compare_uuids_eq m b i u : length u = 16%nat -> (compare_uuids (uuid (entry_at m b i)) u =? 0) = bool_decide (uuid (entry_at m b i) = u).
Proof.
  intros Hu. unfold compare_uuids. pose proof (memcmp_eq (uuid (entry_at m b i)) u) as E. rewrite uuid_length, Hu in E. specialize (E eq_refl).
  case_bool_decide; [by apply Z.eqb_eq, E|]. apply Z.eqb_neq. by rewrite E.
Qed.

(** ** The scan *)
Section scan.
Context `{IoConfig} (funcs : dev -> io_dev_funcs) (Hmm : funcs MemmapDev = memmap_dev_funcs).
Definition with_entry (s : io) (en : fip_toc_entry) : io := set_fip (FipState (file_pos (fip_file s)) en) s.
(** The position of the entry [i] in the package. *)
Definition toc_pos (i : nat) : Z := sizeof_header + sizeof_entry * Z.of_nat i.

Lemma toc_round_eq s e b l i u : (e < length (entity_pool s))%nat -> length u = 16%nat -> 0 < b -> b + toc_pos (S i) <= 2 ^ 64 ->
  let en := entry_at (memory s) b i in
  toc_round funcs e u (sess s e b l (toc_pos i)) =
    Some (if bool_decide (uuid en = u) then inr (0, true) else if bool_decide (uuid en = uuid_null) then inr (0, false) else inl tt,
          sess (with_entry s en) e b l (toc_pos (S i))).
Proof.
  intros He Hu Hb Hf en. unfold toc_round. unfold toc_pos, sizeof_header, sizeof_entry in Hf.
  assert (u64 (b + toc_pos i) = b + toc_pos i) as Ew by (apply wrap_small; unfold toc_pos, sizeof_header, sizeof_entry; lia).
  assert (u64 (toc_pos i + sizeof_entry) = toc_pos (S i)) as Ep.
  { unfold toc_pos, sizeof_header, sizeof_entry. rewrite wrap_small by lia. lia. }
  rewrite (bind_eq _ _ _ _ _ (read_object_eq funcs Hmm s e b l (toc_pos i) sizeof_entry (bytes_at (memory s) (b + toc_pos i) sizeof_entry) He
    ltac:(rewrite Ew; apply read_bytes_eq; unfold toc_pos, sizeof_header, sizeof_entry; lia))).
  cbn [Z.eqb]. rewrite (bind_must _ (sizeof_entry, bytes_at (memory s) (b + toc_pos i) sizeof_entry)) by done. rewrite Ep.
  replace (decode_entry (bytes_at (memory s) (b + toc_pos i) sizeof_entry)) with en
    by (unfold en, entry_at, toc_pos; by rewrite Z.add_assoc).
  unfold set_entry. rewrite bind_modify. subst en. rewrite !compare_uuids_eq by done.
  by repeat case_bool_decide.
Qed.

Lemma scan_goes_on s e b l u k : (e < length (entity_pool s))%nat -> length u = 16%nat -> 0 < b -> forall i, b + toc_pos (i + k) <= 2 ^ 64 ->
  (forall j, (i <= j < i + k)%nat -> uuid (entry_at (memory s) b j) <> u /\ uuid (entry_at (memory s) b j) <> uuid_null) ->
  exists s1, goes_on (fun _ => toc_round funcs e u) k tt (sess s e b l (toc_pos i)) tt (sess s1 e b l (toc_pos (i + k))) /\
    memory s1 = memory s /\ entity_pool s1 = entity_pool s /\ forall en, with_entry s1 en = with_entry s en.
Proof.
  intros He Hu Hb. revert s He. induction k as [|k IH]; intros s He i Hf Hn.
  - exists s. rewrite Nat.add_0_r. cbn. done.
  - destruct (Hn i) as [H1 H2]; [lia|]. unfold toc_pos, sizeof_header, sizeof_entry in Hf.
    destruct (IH (with_entry s (entry_at (memory s) b i)) He (S i)) as (s1 & G & Em & Ep & Ew).
    { unfold toc_pos, sizeof_header, sizeof_entry. lia. }
    { intros j Hj. apply Hn. lia. }
    exists s1. replace (i + S k)%nat with (S i + k)%nat by lia. split; [|done]. cbn [goes_on]. eexists tt, _. split; [|done].
    rewrite (toc_round_eq s e b l i u) by (done || unfold toc_pos, sizeof_header, sizeof_entry; lia). cbn zeta.
    by rewrite !bool_decide_eq_false_2.
Qed.
Lemma scan_eq s e b l u k : (e < length (entity_pool s))%nat -> length u = 16%nat -> 0 < b -> b + toc_pos (S k) <= 2 ^ 64 ->
  (forall j, (j < k)%nat -> uuid (entry_at (memory s) b j) <> u /\ uuid (entry_at (memory s) b j) <> uuid_null) ->
  uuid (entry_at (memory s) b k) = u \/ uuid (entry_at (memory s) b k) = uuid_null ->
  toc_loop funcs 64 e u (sess s e b l (toc_pos 0)) =
    Some ((0, bool_decide (uuid (entry_at (memory s) b k) = u)), sess (with_entry s (entry_at (memory s) b k)) e b l (toc_pos (S k))).
Proof.
  intros He Hu Hb Hf Hn Hk. unfold toc_pos, sizeof_header, sizeof_entry in Hf.
  destruct (scan_goes_on s e b l u k He Hu Hb 0) as (s1 & G & Em & Ep & Ew).
  { unfold toc_pos, sizeof_header, sizeof_entry. lia. }
  { intros j Hj. apply Hn. lia. }
  pose proof (toc_round_eq s1 e b l k u ltac:(by rewrite Ep) Hu Hb ltac:(unfold toc_pos, sizeof_header, sizeof_entry; lia)) as E. cbn zeta in E.
  rewrite Em, Ew in E. unfold toc_loop.
  assert (exists y, toc_round funcs e u (sess s1 e b l (toc_pos k)) =
    Some (inr y, sess (with_entry s (entry_at (memory s) b k)) e b l (toc_pos (S k))) /\ y = (0, bool_decide (uuid (entry_at (memory s) b k) = u))) as (y & Ey & ->).
  { rewrite E. case_bool_decide; [by eexists|]. rewrite bool_decide_eq_true_2 by (by destruct Hk). by eexists. }
  assert (k < 2 ^ 64)%nat as Hlt.
  { apply Nat2Z.inj_lt. rewrite Nat2Z.inj_pow. change (Z.of_nat 2) with 2. change (Z.of_nat 64) with 64. lia. }
  by rewrite (bind_eq _ _ _ _ _ (rounds_end _ 64 k _ _ _ _ _ _ G Ey Hlt)).
Qed.
End scan.

(** The round in which the scan of a package ends. *)
Lemma toc_scan m b toc u : package m b toc -> u <> uuid_null -> exists k, (k <= length toc)%nat /\
  (forall j, (j < k)%nat -> uuid (entry_at m b j) <> u /\ uuid (entry_at m b j) <> uuid_null) /\
  match toc_find u toc with
  | Some en => entry_at m b k = en /\ uuid en = u
  | None => uuid (entry_at m b k) = uuid_null
  end.
Proof.
  intros P Hu. unfold toc_find. destruct (list_find (fun e => uuid e = u) toc) as [[k en]|] eqn:E; cbn [fmap option_fmap option_map snd].
  - apply list_find_Some in E as (Ek & Hen & Hb). exists k. pose proof (lookup_lt_Some _ _ _ Ek). split; [lia|].
    destruct (pk_toc _ _ _ P k en Ek) as [Ee _]. split; [|done]. intros j Hj.
    destruct (lookup_lt_is_Some_2 toc j ltac:(lia)) as [ej Ej]. destruct (pk_toc _ _ _ P j ej Ej) as [-> Hn]. split; [by apply (Hb j ej)|done].
  - apply list_find_None in E. exists (length toc). split; [done|]. split; [|apply P]. intros j Hj.
    destruct (lookup_lt_is_Some_2 toc j Hj) as [ej Ej]. destruct (pk_toc _ _ _ P j ej Ej) as [-> Hn]. split; [|done].
    by apply (proj1 (Forall_lookup _ _) E j).
Qed.

(** ** Files of the package *)
Section fip.
Context `{IoConfig} (inner outer : dev -> io_dev_funcs).
Context (Hi : inner MemmapDev = memmap_dev_funcs) (Hm : outer MemmapDev = memmap_dev_funcs) (Ho : outer FipDev = fip_dev_funcs inner).
Abbreviation fip_base := PLAT_MARVELL_FIP_BASE.

(** The backend that [fip_dev_init] finds. *)
Definition mount (s : io) : io := set_backend (Some MemmapDev) (Some fip_block_spec) s.
Definition mounted (s : io) : Prop := backend_dev_handle s = Some MemmapDev /\ backend_image_spec s = Some fip_block_spec.

Lemma backend_open_eq s e : backend_ready s e ->
  io_open inner (Some MemmapDev) (Some fip_block_spec) s = Some ((0, Some e), sess s e fip_base PLAT_MARVELL_FIP_MAX_SIZE 0).
Proof. by apply open_eq. Qed.
Lemma image_source_memmap s e : backend_ready s e -> memmap_dev_handle s = Some MemmapDev ->
  plat_get_image_source inner FIP_IMAGE_ID s = Some ((0, Some (Some MemmapDev, fip_block_spec)), closed s e).
Proof.
  intros R Hh. unfold plat_get_image_source. rewrite (bind_must _ (MemmapDev, fip_block_spec)) by done. unfold open_memmap.
  rewrite bind_assoc, bind_gets, Hh. unfold check_open. rewrite bind_assoc.
  assert (io_dev_init inner (Some MemmapDev) 0 s = Some (0, s)) as E0.
  { unfold io_dev_init. rewrite bind_massert by (cbn; by rewrite Hi). by rewrite (bind_must _ MemmapDev), Hi. }
  rewrite (bind_eq _ _ _ _ _ E0). cbn [Z.eqb]. rewrite bind_assoc, (bind_eq _ _ _ _ _ (backend_open_eq s e R)). cbn [Z.eqb].
  rewrite !bind_assoc, (bind_must _ e), bind_assoc, (bind_eq _ _ _ _ _ (close_eq inner Hi s e _ _ _ R)) by done.
  rewrite !bind_ret. cbn [Z.eqb]. rewrite bind_gets. cbn. by rewrite Hh.
Qed.
Lemma mount_ready s e : backend_ready s e -> backend_ready (mount s) e.
Proof. intros [[] F M]. by repeat constructor. Qed.
Lemma dev_init_eq s e : backend_ready s e -> memmap_dev_handle s = Some MemmapDev -> 0 < fip_base -> fip_base + sizeof_header <= 2 ^ 64 ->
  io_dev_init outer (Some FipDev) FIP_IMAGE_ID s =
    Some (if is_valid_header (decode_header (bytes_at (memory s) fip_base sizeof_header)) then 0 else - ENOENT, mount (closed s e)).
Proof.
  intros R Hh Hb Hf.
  assert (Fwu.read_bytes (memory s) (u64 (fip_base + 0)) sizeof_header = Some (bytes_at (memory s) fip_base sizeof_header)) as Er.
  { rewrite Z.add_0_r, wrap_small by (unfold sizeof_header in Hf; lia). by apply read_bytes_eq. }
  unfold io_dev_init. rewrite bind_massert by (cbn; by rewrite Ho). rewrite (bind_must _ FipDev), Ho by done.
  cbn [fip_dev_funcs f_dev_init]. unfold fip_dev_init. change (u32 FIP_IMAGE_ID) with FIP_IMAGE_ID.
  rewrite (bind_eq _ _ _ _ _ (image_source_memmap s e R Hh)), bind_modify. cbn [Z.eqb negb]. rewrite !bind_gets.
  change (set_backend (Some MemmapDev) (Some fip_block_spec) (closed s e)) with (mount (closed s e)).
  pose proof (mount_ready _ _ (closed_ready s e R)) as R1. pose proof (backend_lt _ _ R1) as Hlt.
  change (backend_dev_handle (mount (closed s e))) with (Some MemmapDev). change (backend_image_spec (mount (closed s e))) with (Some fip_block_spec).
  rewrite (bind_eq _ _ _ _ _ (backend_open_eq _ e R1)). cbn [Z.eqb negb]. rewrite (bind_must _ e) by done.
  rewrite (bind_eq _ _ _ _ _ (read_object_eq inner Hi _ e fip_base PLAT_MARVELL_FIP_MAX_SIZE 0 sizeof_header (bytes_at (memory s) fip_base sizeof_header) Hlt Er)).
  cbn [Z.eqb]. rewrite bind_assoc, (bind_must _ (sizeof_header, bytes_at (memory s) fip_base sizeof_header)), bind_ret by done.
  rewrite (bind_eq _ _ _ _ _ (close_eq inner Hi _ e _ _ _ R1)). unfold mret, M_ret. do 2 f_equal.
  transitivity (mount (closed (closed s e) e)); [done|by rewrite closed_closed].
Qed.

(** The entity [e] of [s] gets the pointer [i]. *)
Definition with_info (s : io) (e : nat) (i : info_t) : io :=
  set_pool (<[e := Entity (match entity_pool s !! e with Some x => dev_handle x | None => None end) i]> (entity_pool s)) s.
Lemma set_info_sess s e e' b l pos i x : e <> e' -> entity_pool s !! e = Some x ->
  set_info e i (sess s e' b l pos) = Some (tt, sess (with_info s e i) e' b l pos).
Proof.
  intros Hne Ex. unfold set_info. rewrite bind_gets. rewrite (bind_must _ x) by (cbn; by rewrite list_lookup_insert_ne).
  unfold modify, sess, with_info. cbn -[insert]. rewrite Ex. by rewrite list_insert_insert_ne.
Qed.
Lemma with_info_ready s e e' i : backend_ready s e' -> backend_ready (with_info s e i) e'.
Proof. intros [P F M]. constructor; [|done|done]. apply (same_pool_ok s); [done|]. repeat split. cbn. by rewrite length_insert. Qed.
Lemma set_fip_ready s e f : backend_ready s e -> backend_ready (set_fip f s) e.
Proof. intros [[] F M]. by repeat constructor. Qed.

(** The state after a scan that does not find the file. *)
Definition missed (s : io) (e1 : nat) (en : fip_toc_entry) : io :=
  closed (with_entry s (TocEntry (uuid en) 0 (size en) (flags en))) e1.
Lemma file_open_eq s e0 e1 u toc d x : backend_ready s e1 -> e0 <> e1 -> entity_pool s !! e0 = Some x -> mounted s ->
  offset_address (entry (fip_file s)) = 0 -> package (memory s) fip_base toc -> length u = 16%nat -> u <> uuid_null ->
  exists en, fip_file_open inner d (UuidSpec u) e0 s =
    match toc_find u toc with
    | Some en => Some (0, closed (with_info (set_fip (FipState 0 en) s) e0 FipFile) e1)
    | None => Some (- ENOENT, missed s e1 en)
    end.
Proof.
  intros R Hne Ex [Hb1 Hb2] Hoff P Hu Hnull. pose proof (backend_lt _ _ R) as Hlt. destruct (toc_scan _ _ _ u P Hnull) as (k & Hk & Hn & Hr).
  exists (entry_at (memory s) fip_base k). destruct (pk_fits _ _ _ P) as [Hpos Hfits]. unfold fip_file_open.
  rewrite (bind_must _ u), bind_gets, Hoff by done. cbn [Z.eqb negb]. rewrite !bind_gets, Hb1, Hb2, (bind_eq _ _ _ _ _ (backend_open_eq s e1 R)).
  cbn [Z.eqb negb]. rewrite (bind_must _ e1), (bind_eq _ _ _ _ _ (seek_eq inner Hi s e1 _ _ _ sizeof_header Hlt)) by done. cbn [Z.eqb negb].
  change (u64 sizeof_header) with (toc_pos 0).
  assert (fip_base + toc_pos (S k) <= 2 ^ 64) as Hf by (unfold toc_pos, sizeof_header, sizeof_entry in *; lia).
  rewrite bind_assoc, (bind_eq _ _ _ _ _ (scan_eq inner Hi s e1 fip_base PLAT_MARVELL_FIP_MAX_SIZE u k Hlt Hu Hpos Hf Hn
    ltac:(destruct (toc_find u toc); [left|right]; intuition congruence))).
  destruct (toc_find u toc) as [en|].
  - destruct Hr as [Ee Eu]. rewrite Ee, bool_decide_eq_true_2 by done. cbn [Z.eqb negb]. rewrite bind_assoc, bind_modify.
    change (set_fip _ (sess _ _ _ _ _)) with (sess (set_fip (FipState 0 en) s) e1 fip_base PLAT_MARVELL_FIP_MAX_SIZE (toc_pos (S k))).
    rewrite bind_assoc, (bind_eq _ _ _ _ _ (set_info_sess (set_fip (FipState 0 en) s) e0 e1 _ _ _ FipFile x Hne Ex)), bind_ret.
    by rewrite (bind_eq _ _ _ _ _ (close_eq inner Hi _ e1 _ _ _ (with_info_ready _ e0 _ FipFile (set_fip_ready _ _ _ R)))).
  - rewrite bool_decide_eq_false_2 by congruence. cbn [Z.eqb negb]. rewrite bind_assoc, bind_gets. unfold set_entry.
    rewrite bind_assoc, bind_modify, bind_ret.
    set (en := entry_at (memory s) fip_base k).
    change (set_fip _ (sess _ _ _ _ _)) with
      (sess (with_entry s (TocEntry (uuid en) 0 (size en) (flags en))) e1 fip_base PLAT_MARVELL_FIP_MAX_SIZE (toc_pos (S k))).
    pose proof (set_fip_ready _ _ _ R : backend_ready (with_entry s (TocEntry (uuid en) 0 (size en) (flags en))) e1) as R1.
    by rewrite (bind_eq _ _ _ _ _ (close_eq inner Hi _ e1 _ _ _ R1)).
Qed.
End fip.
End IoFip.
