(* ===== verification/LoadProps.v ===== *)
(** * Files of a package through the IO layer, and loading images

    [fsess] is the state while a file of the package is open; [idle] the state between
    calls.  The functions of the IO layer on files of the package and [load_image], as
    equations on states, and what [is_mem_free] and [reserve_mem] compute. *)

From Stdlib Require Import ZArith Lia.
From stdpp Require Import base option list numbers.
From S2P Require Import Prelude CMonad BlFwu Io LoadImage IoProps IoFip.
Import Io LoadImage IoProps IoFip.
Open Scope Z_scope.

Module LoadProps.

Section files.
Context `{IoConfig} (inner outer : dev -> io_dev_funcs).
Context (Hi : inner MemmapDev = memmap_dev_funcs) (Hm : outer MemmapDev = memmap_dev_funcs) (Ho : outer FipDev = fip_dev_funcs inner).
Abbreviation fip_base := PLAT_MARVELL_FIP_BASE.

(** No file is open in either driver, [e0] and [e1] are the next two entities, and the
    platform has its devices. *)
Record idle (s : io) (e0 e1 : nat) : Prop := {
  id_pool : pool_ok s;
  id_free0 : find_entity None (entity_map s) 0 = Some e0;
  id_free1 : find_entity None (<[e0 := Some e0]> (entity_map s)) 0 = Some e1;
  id_memmap : memmap_file s = memmap_zero;
  id_fip : offset_address (entry (fip_file s)) = 0;
  id_fh : fip_dev_handle s = Some FipDev;
  id_mh : memmap_dev_handle s = Some MemmapDev
}.
Lemma idle_ready s e0 e1 : idle s e0 e1 -> backend_ready s e0.
Proof. by intros []; constructor. Qed.
Lemma idle_ne s e0 e1 : idle s e0 e1 -> e0 <> e1.
Proof.
  intros I ->. pose proof (backend_free _ _ (idle_ready _ _ _ I)) as E. destruct I as [_ _ F _ _ _ _].
  apply find_entity_some in F as [_ F]. rewrite Nat.sub_0_r, list_lookup_insert_eq in F by (by eapply lookup_lt_Some). done.
Qed.
Lemma idle_frame s s' e0 e1 : idle s e0 e1 -> same_pool s s' -> memmap_file s' = memmap_zero -> offset_address (entry (fip_file s')) = 0 ->
  fip_dev_handle s' = Some FipDev -> memmap_dev_handle s' = Some MemmapDev -> idle s' e0 e1.
Proof.
  intros [P F0 F1 _ _ _ _] S. destruct S as (Em & Ec & El). constructor; rewrite ?Em; try done. by apply (same_pool_ok s).
Qed.

(** The file [en] of the package is open with the entity [e0], at the position [pos]. *)
Definition fsess (s : io) (e0 e1 : nat) (en : fip_toc_entry) (pos : Z) : io :=
  set_fip (FipState pos en) (set_map (<[e0 := Some e0]> (entity_map s)) (entity_count s + 1)
    (set_pool (<[e0 := Entity (Some FipDev) FipFile]> (<[e1 := Entity (Some MemmapDev) InfoNull]> (entity_pool s))) s)).
Definition fclosed (s : io) (e0 e1 : nat) : io :=
  set_fip fip_zero (set_pool (<[e0 := Entity (Some FipDev) InfoNull]> (<[e1 := Entity (Some MemmapDev) InfoNull]> (entity_pool s))) s).

Lemma fclosed_idle s e0 e1 : idle s e0 e1 -> idle (fclosed s e0 e1) e0 e1.
Proof. intros I. destruct I eqn:E. apply (idle_frame s); try done. repeat split. cbn. by rewrite !length_insert. Qed.
Lemma missed_idle s e0 e1 en : idle s e0 e1 -> idle (missed s e1 en) e0 e1.
Proof. intros I. destruct I eqn:E. apply (idle_frame s); try done. repeat split. cbn. by rewrite length_insert. Qed.
Lemma mount_idle s e0 e1 : idle s e0 e1 -> idle (mount (closed s e0)) e0 e1.
Proof. intros I. destruct I eqn:E. apply (idle_frame s); try done. repeat split. cbn. by rewrite length_insert. Qed.

Lemma nested_ready s e0 e1 : idle s e0 e1 -> backend_ready (set_map (<[e0 := Some e0]> (entity_map s)) (entity_count s + 1) s) e1.
Proof.
  intros I. pose proof (backend_free _ _ (idle_ready _ _ _ I)) as E. destruct I as [P F0 F1 M _ _ _]. constructor; [|done|done].
  apply (taken_ok e0 s); [done|by apply taken_set_map].
Qed.
Lemma fsess_ready s e0 e1 en pos : idle s e0 e1 -> backend_ready (fsess s e0 e1 en pos) e1.
Proof.
  intros I. destruct (nested_ready _ _ _ I) as [P F M]. constructor; [|done|done].
  apply (same_pool_ok _ _ P). repeat split. cbn. by rewrite !length_insert.
Qed.

Lemma fip_open_eq s e0 e1 u toc : idle s e0 e1 -> mounted s -> package (memory s) fip_base toc -> length u = 16%nat -> u <> uuid_null ->
  exists en, io_open outer (Some FipDev) (Some (UuidSpec u)) s =
    match toc_find u toc with
    | Some en => Some ((0, Some e0), fsess s e0 e1 en 0)
    | None => Some ((- ENOENT, None), missed s e1 en)
    end.
Proof.
  intros I Mt P Hu Hnull. pose proof (idle_ready _ _ _ I) as R. pose proof (idle_ne _ _ _ I) as Hne. pose proof (backend_lt _ _ R) as Hlt.
  pose proof (nested_ready _ _ _ I) as R1. destruct (lookup_lt_is_Some_2 _ _ Hlt) as [x Ex].
  set (sA := set_map (<[e0 := Some e0]> (entity_map s)) (entity_count s + 1) s) in *.
  destruct (file_open_eq inner Hi sA e0 e1 u toc FipDev x R1 Hne Ex Mt (id_fip _ _ _ I) P Hu Hnull) as [en E]. exists en.
  unfold io_open. rewrite (bind_must _ (UuidSpec u)), bind_massert by (done || cbn; by rewrite Ho). rewrite (bind_must _ FipDev) by done.
  rewrite (bind_eq _ _ _ _ _ (allocate_eq s e0 R)). cbn [Z.eqb]. fold sA. rewrite (bind_must _ e0), (bind_must _ (fip_file_open inner)) by (by rewrite ?Ho).
  destruct (toc_find u toc) as [en'|]; rewrite (bind_eq _ _ _ _ _ E).
  - cbn [Z.eqb]. rewrite bind_gets. rewrite (bind_must _ (Entity (dev_handle x) FipFile)).
    2: { cbn -[insert lookup]. rewrite list_lookup_insert_ne by done. rewrite list_lookup_insert_eq by done. by rewrite Ex. }
    rewrite bind_modify. unfold mret, M_ret, fsess, closed, with_info. do 2 f_equal. subst sA. cbn -[insert lookup].
    rewrite (list_insert_insert_ne _ e0 e1) by done. by rewrite list_insert_insert_eq, (list_insert_insert_ne _ e1 e0).
  - change (- ENOENT =? 0) with false. cbn iota. assert (pool_ok (missed sA e1 en)) as P1.
    { apply (same_pool_ok sA); [apply R1|]. repeat split. cbn. by rewrite length_insert. }
    pose proof (backend_free _ _ R) as Ef. rewrite (bind_eq _ _ _ _ _ (free_entity_eq (missed sA e1 en) e0 P1
      ltac:(apply list_lookup_insert_eq; by eapply lookup_lt_Some))).
    unfold mret, M_ret, missed, closed, with_entry. do 2 f_equal. subst sA. cbn -[insert lookup].
    rewrite list_insert_insert_eq, list_insert_id by done. by replace (entity_count s + 1 - 1) with (entity_count s) by lia.
Qed.

Lemma fsess_dev s e0 e1 en pos : idle s e0 e1 -> entity_dev outer e0 (fsess s e0 e1 en pos) = Some (FipDev, fsess s e0 e1 en pos).
Proof.
  intros I. pose proof (backend_lt _ _ (idle_ready _ _ _ I)) as Hlt. unfold entity_dev. rewrite bind_gets.
  rewrite (bind_must _ (Entity (Some FipDev) FipFile)) by (apply list_lookup_insert_eq; by rewrite length_insert). cbn. by rewrite Ho.
Qed.
Lemma fsess_file s e0 e1 en pos : idle s e0 e1 -> fip_file_of e0 (fsess s e0 e1 en pos) = Some (FipState pos en, fsess s e0 e1 en pos).
Proof.
  intros I. pose proof (backend_lt _ _ (idle_ready _ _ _ I)) as Hlt. unfold fip_file_of. rewrite bind_gets.
  by rewrite (bind_must _ (Entity (Some FipDev) FipFile)) by (apply list_lookup_insert_eq; by rewrite length_insert).
Qed.
Lemma fip_size_eq s e0 e1 en pos : idle s e0 e1 -> io_size outer e0 (fsess s e0 e1 en pos) = Some ((0, Some (size en)), fsess s e0 e1 en pos).
Proof.
  intros I. unfold io_size. rewrite (bind_eq _ _ _ _ _ (fsess_dev s e0 e1 en pos I)), Ho. cbn [fip_dev_funcs f_size]. unfold fip_file_len.
  by rewrite (bind_eq _ _ _ _ _ (fsess_file s e0 e1 en pos I)).
Qed.
Lemma fip_close_eq s e0 e1 en pos : idle s e0 e1 -> offset_address en <> 0 -> io_close outer e0 (fsess s e0 e1 en pos) = Some (0, fclosed s e0 e1).
Proof.
  intros I Hoff. pose proof (idle_ready _ _ _ I) as R. pose proof (backend_lt _ _ R) as Hlt. pose proof (backend_free _ _ R) as Ef.
  unfold io_close. rewrite (bind_eq _ _ _ _ _ (fsess_dev s e0 e1 en pos I)), Ho. cbn [fip_dev_funcs f_close].
  set (s1 := set_map (<[e0 := Some e0]> (entity_map s)) (entity_count s + 1) (fclosed s e0 e1)).
  assert (fip_file_close e0 (fsess s e0 e1 en pos) = Some (0, s1)) as Ec.
  { unfold fip_file_close. rewrite bind_gets. cbn -[insert lookup]. destruct (Z.eqb_spec (offset_address en) 0); [done|]. cbn [negb].
    unfold set_info, mbind, M_bind, gets, must, modify. cbn -[insert lookup]. rewrite list_lookup_insert_eq by (by rewrite length_insert).
    cbn -[insert lookup]. by rewrite list_insert_insert_eq. }
  assert (pool_ok s1) as P1.
  { apply (same_pool_ok (set_map (<[e0 := Some e0]> (entity_map s)) (entity_count s + 1) s)); [apply (nested_ready _ _ _ I)|].
    repeat split. cbn. by rewrite !length_insert. }
  rewrite (bind_eq _ _ _ _ _ Ec), (bind_eq _ _ _ _ _ (free_entity_eq s1 e0 P1 ltac:(apply list_lookup_insert_eq; by eapply lookup_lt_Some))).
  subst s1. unfold mret, M_ret, fclosed. do 2 f_equal. cbn -[insert lookup].
  rewrite list_insert_insert_eq, list_insert_id by done. by replace (entity_count s + 1 - 1) with (entity_count s) by lia.
Qed.

(** The bytes of a file from [pos] on lie at this address. *)
Definition payload (en : fip_toc_entry) (pos : Z) : Z := fip_base + offset_address en + pos.
Lemma closed_fsess s e0 e1 en pos : idle s e0 e1 -> closed (fsess s e0 e1 en pos) e1 = fsess s e0 e1 en pos.
Proof.
  intros I. pose proof (idle_ne _ _ _ I). unfold closed, fsess. cbn -[insert lookup].
  by rewrite (list_insert_insert_ne _ e1 e0), list_insert_insert_eq by done.
Qed.
Lemma fip_read_eq s e0 e1 en pos n dst m : idle s e0 e1 -> mounted s -> not_null (Mem dst) = true -> 0 <= fip_base -> 0 <= offset_address en -> 0 <= pos -> 0 < n ->
  payload en pos + n <= 2 ^ 64 -> Fwu.memcpy (memory s) dst (payload en pos) n = Some m ->
  io_read outer e0 (Mem dst) n (fsess s e0 e1 en pos) =
    Some ((0, Some (n, bytes_at (memory s) (payload en pos) n)), fsess (set_memory m s) e0 e1 en (u32 (pos + n))).
Proof.
  intros I [Hb1 Hb2] Hnn Hb Ho' Hp Hn Hf Hc. pose proof (fsess_ready s e0 e1 en pos I) as R. pose proof (backend_lt _ _ R) as Hlt.
  pose proof (backend_lt _ _ (idle_ready _ _ _ I)) as Hlt0.
  unfold payload in *. set (fo := offset_address en + pos) in *. assert (fip_base + offset_address en + pos = fip_base + fo) as Ea by (unfold fo; lia).
  rewrite Ea in *. assert (u64 (fip_base + fo) = fip_base + fo) as Ew by (apply wrap_small; lia).
  assert (u64 (sext 64 (u64 fo)) = fo) as Es by (rewrite wrap_sext, wrap_wrap by lia; apply wrap_small; lia).
  unfold io_read. rewrite (bind_eq _ _ _ _ _ (fsess_dev s e0 e1 en pos I)), bind_massert, Ho by done. cbn [fip_dev_funcs f_read].
  unfold fip_file_read. rewrite bind_massert, bind_gets by done.
  rewrite (bind_must _ (Entity (Some FipDev) FipFile)) by (apply list_lookup_insert_eq; by rewrite length_insert).
  rewrite bind_massert, !bind_gets by done. change (backend_dev_handle (fsess s e0 e1 en pos)) with (backend_dev_handle s).
  change (backend_image_spec (fsess s e0 e1 en pos)) with (backend_image_spec s). rewrite Hb1, Hb2.
  rewrite (bind_eq _ _ _ _ _ (backend_open_eq inner Hi _ e1 R)). cbn [Z.eqb negb]. rewrite (bind_must _ e1) by done.
  assert (fip_file_of e0 (sess (fsess s e0 e1 en pos) e1 fip_base PLAT_MARVELL_FIP_MAX_SIZE 0) =
    Some (FipState pos en, sess (fsess s e0 e1 en pos) e1 fip_base PLAT_MARVELL_FIP_MAX_SIZE 0)) as Ef.
  { pose proof (idle_ne _ _ _ I). unfold fip_file_of. rewrite bind_gets. rewrite (bind_must _ (Entity (Some FipDev) FipFile)); [done|]. cbn -[insert lookup].
    rewrite list_lookup_insert_ne by done. apply list_lookup_insert_eq. by rewrite length_insert. }
  rewrite (bind_eq _ _ _ _ _ Ef). cbn [entry file_pos]. fold fo.
  rewrite (bind_eq _ _ _ _ _ (seek_eq inner Hi _ e1 _ _ _ (sext 64 (u64 fo)) Hlt)), Es. cbn [Z.eqb negb].
  rewrite bind_assoc, (bind_eq _ _ _ _ _ (read_memory_eq inner Hi (fsess s e0 e1 en pos) e1 fip_base PLAT_MARVELL_FIP_MAX_SIZE fo n dst
    (bytes_at (memory s) (fip_base + fo) n) m Hlt Hnn ltac:(rewrite Ew; by apply read_bytes_eq) ltac:(by rewrite Ew))).
  cbn [Z.eqb negb]. rewrite bind_assoc, (bind_must _ (n, bytes_at (memory s) (fip_base + fo) n)) by done. rewrite bind_assoc, bind_modify, bind_ret.
  assert (idle (set_memory m s) e0 e1) as I'.
  { destruct I eqn:E. apply (idle_frame s); done. }
  change (set_fip _ (sess _ _ _ _ _)) with (sess (fsess (set_memory m s) e0 e1 en (u32 (pos + n))) e1 fip_base PLAT_MARVELL_FIP_MAX_SIZE (u64 (fo + n))).
  rewrite (bind_eq _ _ _ _ _ (close_eq inner Hi _ e1 _ _ _ (fsess_ready _ _ _ _ _ I'))), closed_fsess by done. done.
Qed.

(** ** [plat_get_image_source] for the images of the package *)
Definition policy (image_id : Z) : option (list Z) :=
  match policies !! Z.to_nat image_id with Some (FipDev, UuidSpec u) => Some u | _ => None end.
Lemma policy_uuid image_id u : policy image_id = Some u -> policies !! Z.to_nat image_id = Some (FipDev, UuidSpec u) /\ length u = 16%nat /\ u <> uuid_null.
Proof.
  unfold policy, policies. intros E. destruct (Z.to_nat image_id) as [|[|[|[|[|[|]]]]]]; cbn in *; try done; injection E as <-; done.
Qed.
Lemma image_source_eq s e0 e1 image_id u toc : idle s e0 e1 -> package (memory s) fip_base toc -> policy image_id = Some u ->
  let s1 := mount (closed s e0) in exists en,
  (forall en, toc_find u toc = Some en -> offset_address en <> 0) ->
  plat_get_image_source outer image_id s =
    match toc_find u toc with
    | Some _ => Some ((0, Some (Some FipDev, UuidSpec u)), fclosed s1 e0 e1)
    | None => Some ((- ENOENT, None), missed s1 e1 en)
    end.
Proof.
  intros I P Hpol s1. destruct (policy_uuid _ _ Hpol) as (Ep & Hu & Hnull). pose proof (mount_idle _ _ _ I) as I1.
  destruct (fip_open_eq s1 e0 e1 u toc I1 ltac:(done) P Hu Hnull) as [en E]. exists en. intros Hoff.
  destruct (pk_fits _ _ _ P) as [Hpos Hfits]. unfold plat_get_image_source. rewrite (bind_must _ (FipDev, UuidSpec u)) by done.
  unfold open_fip. rewrite bind_assoc, bind_gets, (id_fh _ _ _ I). unfold check_open. rewrite bind_assoc.
  rewrite (bind_eq _ _ _ _ _ (dev_init_eq inner outer Hi Ho s e0 (idle_ready _ _ _ I) (id_mh _ _ _ I) Hpos ltac:(unfold sizeof_entry in *; lia))).
  rewrite (pk_header _ _ _ P). cbn [Z.eqb]. fold s1. rewrite bind_assoc. destruct (toc_find u toc) as [en'|]; rewrite (bind_eq _ _ _ _ _ E).
  - cbn [Z.eqb]. rewrite !bind_assoc, (bind_must _ e0), bind_assoc, (bind_eq _ _ _ _ _ (fip_close_eq s1 e0 e1 en' 0 I1 (Hoff _ eq_refl))) by done.
    rewrite !bind_ret. cbn [Z.eqb]. rewrite bind_gets. cbn. by rewrite (id_fh _ _ _ I).
  - change (- ENOENT =? 0) with false. cbn iota. by rewrite bind_assoc, !bind_ret.
Qed.

(** ** [load_image] *)
Definition unmounted (s : io) : io := set_backend None None s.
Lemma dev_close_eq s : io_dev_close outer (Some FipDev) s = Some (0, unmounted s).
Proof. unfold io_dev_close. rewrite bind_massert by (cbn; by rewrite Ho). by rewrite (bind_must _ FipDev), Ho. Qed.
Lemma unmounted_idle s e0 e1 : idle s e0 e1 -> idle (unmounted s) e0 e1.
Proof. intros I. destruct I eqn:E. by apply (idle_frame s). Qed.
Lemma memory_idle s m e0 e1 : idle s e0 e1 -> idle (set_memory m s) e0 e1.
Proof. intros I. destruct I eqn:E. by apply (idle_frame s). Qed.
(** The state in which [load_image] opens the file. *)
Definition located (s : io) (e0 e1 : nat) : io := fclosed (mount (closed s e0)) e0 e1.
Lemma located_idle s e0 e1 : idle s e0 e1 -> idle (located s e0 e1) e0 e1.
Proof. intros I. by apply fclosed_idle, mount_idle. Qed.

Section load.
Context (s : io) (e0 e1 : nat) (toc : list fip_toc_entry) (image_id : Z) (u : list Z).
Context (I : idle s e0 e1) (P : package (memory s) fip_base toc) (Hpol : policy image_id = Some u).

Lemma load_missing layout base data ep : version data = VERSION_1 -> toc_find u toc = None ->
  exists s', load_image outer layout image_id base data ep s = Some ((- ENOENT, layout, data, ep), s') /\ idle s' e0 e1 /\ memory s' = memory s.
Proof.
  intros Hv Hf. destruct (image_source_eq s e0 e1 image_id u toc I P Hpol) as [en E]. rewrite Hf in E. specialize (E ltac:(done)).
  eexists. split; [|split; [apply missed_idle, mount_idle, I|done]].
  unfold load_image. rewrite bind_massert by (by apply Z.eqb_eq). by rewrite (bind_eq _ _ _ _ _ E).
Qed.

Context (en : fip_toc_entry) (Hen : toc_find u toc = Some en) (Hoff : offset_address en <> 0).
(** [load_image] comes down to its part between [io_open] and [io_close]. *)
Lemma load_found layout base data ep r s1 pos : version data = VERSION_1 -> idle s1 e0 e1 ->
  (if size en =? 0 then mret (0, layout, data, ep) else load_read outer layout e0 base (size en) data ep) (fsess (located s e0 e1) e0 e1 en 0) =
    Some (r, fsess s1 e0 e1 en pos) ->
  exists s', load_image outer layout image_id base data ep s = Some (r, s') /\ idle s' e0 e1 /\ memory s' = memory s1.
Proof.
  intros Hv I1 Er. destruct (policy_uuid _ _ Hpol) as (Ep & Hu & Hnull). pose proof (located_idle _ _ _ I) as I2.
  destruct (image_source_eq s e0 e1 image_id u toc I P Hpol) as [en' E]. rewrite Hen in E. specialize (E ltac:(by intros ? [= <-])).
  destruct (fip_open_eq (located s e0 e1) e0 e1 u toc I2 ltac:(done) P Hu Hnull) as [en'' Eo]. rewrite Hen in Eo.
  exists (unmounted (fclosed s1 e0 e1)). split; [|split; [by apply unmounted_idle, fclosed_idle|done]].
  unfold load_image. rewrite bind_massert by (by apply Z.eqb_eq). rewrite (bind_eq _ _ _ _ _ E). cbn [Z.eqb negb].
  rewrite (bind_must _ (Some FipDev, UuidSpec u)) by done. fold (located s e0 e1). rewrite (bind_eq _ _ _ _ _ Eo). cbn [Z.eqb negb].
  rewrite (bind_must _ e0), (bind_eq _ _ _ _ _ (fip_size_eq _ e0 e1 en 0 I2)) by done. cbn [Z.eqb negb]. rewrite bind_assoc, (bind_must _ (size en)) by done.
  rewrite (bind_eq _ _ _ _ _ Er), (bind_eq _ _ _ _ _ (fip_close_eq s1 e0 e1 en pos I1 Hoff)), (bind_eq _ _ _ _ _ (dev_close_eq _)). done.
Qed.
Lemma load_empty layout base data ep : version data = VERSION_1 -> size en = 0 ->
  exists s', load_image outer layout image_id base data ep s = Some ((0, layout, data, ep), s') /\ idle s' e0 e1 /\ memory s' = memory s.
Proof. intros Hv Hz. apply (load_found layout base data ep _ (located s e0 e1) 0 Hv); [by apply located_idle|]. by rewrite Hz. Qed.
Lemma load_no_room layout base data ep : version data = VERSION_1 -> size en <> 0 ->
  is_mem_free (free_base layout) (free_size layout) base (size en) = false ->
  exists s', load_image outer layout image_id base data ep s = Some ((- ENOMEM, layout, data, ep), s') /\ idle s' e0 e1 /\ memory s' = memory s.
Proof.
  intros Hv Hz Hfree. apply (load_found layout base data ep _ (located s e0 e1) 0 Hv); [by apply located_idle|].
  rewrite (proj2 (Z.eqb_neq _ _)) by done. unfold load_read. by rewrite Hfree.
Qed.
(** The memory after the image has been copied. *)
Definition loaded (base : Z) : Fwu.memory_t :=
  fun a => if Fwu.in_range a base (size en) then memory s (payload en 0 + (a - base)) else memory s a.
Lemma load_success layout base data ep : version data = VERSION_1 -> 0 <= offset_address en -> 0 < size en ->
  not_null (Mem base) = true -> 0 <= base -> payload en 0 + size en <= 2 ^ 64 ->
  (base + size en <= payload en 0 \/ payload en 0 + size en <= base) ->
  is_mem_free (free_base layout) (free_size layout) base (size en) = true -> base + size en <= 2 ^ 64 ->
  forall fb fs, reserve_mem (free_base layout) (free_size layout) base (size en) = Some (fb, fs) ->
  exists s', load_image outer layout image_id base data ep s =
    Some ((0, match ep with Some _ => Meminfo (total_base layout) (total_size layout) fb fs | None => layout end,
           ImageInfo (version data) base (u32 (size en)), (fun _ => base) <$> ep), s') /\ idle s' e0 e1 /\ memory s' = loaded base.
Proof.
  intros Hv Ho' Hs Hnn Hb Hp Hd Hfree Hend fb fs Hr. destruct (pk_fits _ _ _ P) as [Hpos _].
  apply (load_found layout base data ep _ (set_memory (loaded base) (located s e0 e1)) (u32 (0 + size en)) Hv); [by apply memory_idle, located_idle|].
  rewrite (proj2 (Z.eqb_neq _ _)) by lia. unfold load_read. rewrite Hfree. cbn [negb].
  assert (Fwu.memcpy (memory (located s e0 e1)) base (payload en 0) (size en) = Some (loaded base)) as Ec.
  { unfold Fwu.memcpy. rewrite !(proj2 (Z.ltb_ge (2 ^ 64) _)) by lia. destruct Hd; [rewrite (proj2 (Z.ltb_ge (payload en 0) _)) by lia|
      rewrite (proj2 (Z.ltb_ge base _)) by lia]; by rewrite ?andb_false_r. }
  rewrite (bind_eq _ _ _ _ _ (fip_read_eq _ e0 e1 en 0 (size en) base _ (located_idle _ _ _ I) ltac:(done) Hnn ltac:(lia) Ho' ltac:(lia) Hs Hp Ec)).
  cbn [Z.eqb negb]. rewrite (bind_must _ (size en, bytes_at (memory (located s e0 e1)) (payload en 0) (size en))), Z.ltb_irrefl by done.
  destruct ep; [|done]. by rewrite (bind_must _ (fb, fs)).
Qed.
End load.
End files.
End LoadProps.
