(* ===== verification/LoadSpec.v ===== *)
(** * What the IO layer and the image loader guarantee

    Packages and their encoding, handles over every sequence of calls, free memory, loading an
    image from a package and authenticating it. *)

From Stdlib Require Import ZArith Lia.
From stdpp Require Import base option list numbers gmap sets.
From S2P Require Import Prelude CMonad BlFwu Io LoadImage IoProps IoFip LoadProps.
Import Io LoadImage IoProps IoFip LoadProps.
Open Scope Z_scope.

Module LoadSpec.

(** ** Free memory *)
Definition inside (addr size free_base free_size : Z) : Prop := free_base <= addr /\ addr + size <= free_base + free_size.
Lemma is_mem_free_ok fb fs addr size : in_u 64 fb -> in_u 64 fs -> in_u 64 addr -> in_u 64 size ->
  is_mem_free fb fs addr size = true <-> size = 0 \/ (0 < fs /\ fb + fs <= 2 ^ 64 /\ inside addr size fb fs).
Proof.
  unfold in_u, inside. intros Hfb Hfs Ha Hs. unfold is_mem_free, check_uptr_overflow, UINTPTR_MAX. destruct (Z.eqb_spec size 0); [split; [by left|done]|].
  destruct (Z.eqb_spec fs 0); [split; [done|intros; exfalso; lia]|]. rewrite !(wrap_small 64 (_ - _)) by lia. destruct (Z.ltb_spec (2 ^ 64 - 1 - (fs - 1)) fb); [split; [done|intros; exfalso; lia]|].
  rewrite (wrap_small 64 (fb + _)) by lia. destruct (Z.ltb_spec (2 ^ 64 - 1 - (size - 1)) addr); [split; [done|intros; exfalso; lia]|]. rewrite wrap_small by lia.
  rewrite andb_true_iff, !Z.leb_le. lia.
Qed.
Lemma reserve_ok fb fs addr size : in_u 64 fb -> in_u 64 fs -> in_u 64 addr -> in_u 64 size -> 0 < size -> is_mem_free fb fs addr size = true ->
  reserve_mem fb fs addr size =
    Some (if fb + fs - (addr + size) <? addr - fb then fb else u64 (addr + size), Z.max (addr - fb) (fb + fs - (addr + size))).
Proof.
  intros Hfb Hfs Ha Hs Hpos Hfree. unfold reserve_mem. rewrite Hfree. cbn [negb]. apply is_mem_free_ok in Hfree; try done. unfold in_u, inside in *.
  destruct (Z.eqb_spec size 0); [lia|]. rewrite !(wrap_small 64 (_ + (_ - 1))) by lia. unfold choose_mem_pos.
  rewrite !(proj2 (Z.leb_le _ _)) by lia. cbn [andb negb mbind option_bind].
  rewrite !(wrap_small 64 (_ - _)) by lia. replace (fb + (fs - 1) - (addr + (size - 1))) with (fb + fs - (addr + size)) by lia.
  destruct (Z.ltb_spec (fb + fs - (addr + size)) (addr - fb)); cbn [Z.eqb]; change (TOP =? BOTTOM) with false; change (BOTTOM =? BOTTOM) with true; cbn iota;
    rewrite (wrap_small 64 (size + _)) by lia; do 2 f_equal; rewrite wrap_small by lia; lia.
Qed.

(** ** Encoding packages *)
Fixpoint le_encode (n : nat) (x : Z) : list Z := match n with O => [] | S n => x mod 256 :: le_encode n (x / 256) end.
Lemma le_encode_length n x : length (le_encode n x) = n.
Proof. revert x. induction n; intros; cbn; [done|by f_equal]. Qed.
Lemma le_roundtrip n x : 0 <= x < 256 ^ Z.of_nat n -> le_decode (le_encode n x) = x.
Proof.
  revert x. induction n as [|n IH]; intros x Hx; cbn [le_encode le_decode]; [cbn in Hx; lia|].
  rewrite Nat2Z.inj_succ, Z.pow_succ_r in Hx by lia. rewrite IH; [pose proof (Z.div_mod x 256 ltac:(lia)); lia|].
  split; [apply Z.div_pos; lia|apply Z.div_lt_upper_bound; lia].
Qed.
Definition encode_header (h : fip_toc_header) : list Z := le_encode 4 (name h) ++ le_encode 4 (serial_number h) ++ le_encode 8 (header_flags h).
Definition encode_entry (e : fip_toc_entry) : list Z := uuid e ++ le_encode 8 (offset_address e) ++ le_encode 8 (size e) ++ le_encode 8 (flags e).
Record header_ok (h : fip_toc_header) : Prop := {
  ho_name : in_u 32 (name h); ho_serial : in_u 32 (serial_number h); ho_flags : in_u 64 (header_flags h) }.
Record entry_ok (e : fip_toc_entry) : Prop := {
  eo_uuid : length (uuid e) = 16%nat; eo_offset : in_u 64 (offset_address e); eo_size : in_u 64 (size e); eo_flags : in_u 64 (flags e) }.
Lemma slice_app {A} (l1 l2 l3 : list A) a b : a = zlen l1 -> b = a + zlen l2 -> slice (l1 ++ l2 ++ l3) a b = l2.
Proof.
  intros -> ->. unfold slice. rewrite drop_zlen. replace (zlen l1 + zlen l2 - zlen l1) with (zlen l2) by lia. apply take_zlen.
Qed.
Lemma slice_app_l {A} (l k : list A) b : b = zlen l -> slice (l ++ k) 0 b = l.
Proof. intros ->. rewrite slice_take. apply take_zlen. Qed.
Lemma header_roundtrip h : header_ok h -> decode_header (encode_header h) = h.
Proof.
  intros [H1 H2 H3]. unfold decode_header, encode_header. set (a := le_encode 4 (name h)). set (b := le_encode 4 (serial_number h)). set (c := le_encode 8 (header_flags h)).
  assert (zlen a = 4 /\ zlen b = 4 /\ zlen c = 8) as (La & Lb & Lc) by (unfold zlen, a, b, c; by rewrite !le_encode_length).
  rewrite (slice_app_l a _ 4), (slice_app a b c 4 8) by (done || lia). rewrite <- (app_nil_r c), (app_assoc a b), (slice_app (a ++ b) c [] 8 16) by (rewrite ?zlen_app; lia).
  unfold a, b, c. rewrite !le_roundtrip by done. by destruct h.
Qed.
Lemma entry_roundtrip e : entry_ok e -> decode_entry (encode_entry e) = e.
Proof.
  intros [H0 H1 H2 H3]. unfold decode_entry, encode_entry. set (a := le_encode 8 (offset_address e)). set (b := le_encode 8 (size e)). set (c := le_encode 8 (flags e)).
  assert (zlen (uuid e) = 16 /\ zlen a = 8 /\ zlen b = 8 /\ zlen c = 8) as (Lu & La & Lb & Lc) by (unfold zlen, a, b, c; by rewrite !le_encode_length, H0).
  rewrite (slice_app_l (uuid e) _ 16), (slice_app (uuid e) a _ 16 24) by (done || lia).
  rewrite (app_assoc (uuid e) a), (slice_app (uuid e ++ a) b c 24 32) by (rewrite ?zlen_app; lia).
  rewrite <- (app_nil_r c), (app_assoc (_ ++ a) b), (slice_app ((uuid e ++ a) ++ b) c [] 32 40) by (rewrite ?zlen_app; lia).
  unfold a, b, c. rewrite !le_roundtrip by done. by destruct e.
Qed.
(** The header, the entries and one with the null UUID. *)
Definition encode_package (h : fip_toc_header) (toc : list fip_toc_entry) (terminator : fip_toc_entry) : list Z :=
  encode_header h ++ concat (encode_entry <$> toc ++ [terminator]).
(** Memory that holds [l] at [b]. *)
Definition holds (m : Fwu.memory_t) (b : Z) (l : list Z) : Prop := forall i x, l !! i = Some x -> m (b + Z.of_nat i) = x.
Lemma holds_bytes m b pre mid post a n : holds m b (pre ++ mid ++ post) -> a = b + zlen pre -> n = zlen mid -> bytes_at m a n = mid.
Proof.
  intros Hh -> ->. unfold bytes_at, zlen. apply list_eq. intros i. change (map m) with (fmap (M := list) m).
  rewrite list_lookup_fmap. destruct (decide (i < length mid)%nat).
  - rewrite lookup_seqZ_lt by lia. destruct (lookup_lt_is_Some_2 mid i ltac:(done)) as [x Ex]. rewrite Ex. cbn. f_equal.
    rewrite <- Z.add_assoc, <- Nat2Z.inj_add. apply Hh. rewrite lookup_app_r by lia. rewrite lookup_app_l by lia. by rewrite Nat.add_comm, Nat.add_sub.
  - rewrite lookup_seqZ_ge by lia. rewrite lookup_ge_None_2 by lia. done.
Qed.
Lemma entries_length l : Forall entry_ok l -> zlen (concat (encode_entry <$> l)) = sizeof_entry * zlen l.
Proof.
  induction 1 as [|e l [Hu _ _ _] _ IH]; [done|]. rewrite fmap_cons, zlen_cons. cbn [concat]. rewrite zlen_app, IH. unfold encode_entry, sizeof_entry.
  rewrite !zlen_app. unfold zlen. rewrite !le_encode_length, Hu. lia.
Qed.
Lemma header_length h : zlen (encode_header h) = sizeof_header.
Proof. unfold encode_header, zlen. rewrite !length_app, !le_encode_length. done. Qed.
Lemma package_encode m b h toc fin : holds m b (encode_package h toc fin) -> header_ok h -> is_valid_header h = true ->
  Forall (fun e => entry_ok e /\ uuid e <> uuid_null) toc -> entry_ok fin -> uuid fin = uuid_null ->
  0 < b -> b + zlen (encode_package h toc fin) <= 2 ^ 64 -> package m b toc.
Proof.
  intros Hm Hh Hv F Of Uf Hb Hl. assert (Forall entry_ok (toc ++ [fin])) as Fo.
  { apply Forall_app. split; [|by constructor]. eapply Forall_impl; [done|]. by intros e []. }
  assert (forall i e, (toc ++ [fin]) !! i = Some e -> entry_at m b i = e) as He.
  { intros i e Ei. pose proof (lookup_lt_Some _ _ _ Ei) as Hi. unfold entry_at. rewrite <- (entry_roundtrip e) by (by eapply Forall_lookup_1). f_equal.
    eapply (holds_bytes m b (encode_header h ++ concat (encode_entry <$> take i (toc ++ [fin]))) _ (concat (encode_entry <$> drop (S i) (toc ++ [fin])))).
    - unfold encode_package in Hm. rewrite <- (take_drop_middle _ _ _ Ei) in Hm at 1. rewrite fmap_app, fmap_cons, concat_app in Hm. cbn [concat] in Hm.
      by rewrite <- app_assoc.
    - rewrite zlen_app, entries_length, header_length by (by apply Forall_take). unfold zlen. rewrite length_take. lia.
    - pose proof (entries_length [e]) as L1. cbn in L1. rewrite app_nil_r in L1. rewrite L1; [done|]. constructor; [by eapply Forall_lookup_1|done]. }
  constructor.
  - rewrite (holds_bytes m b [] (encode_header h) (concat (encode_entry <$> toc ++ [fin])) b sizeof_header);
      [by rewrite header_roundtrip|done|rewrite zlen_nil; lia|by rewrite header_length].
  - intros i e Ei. split; [|by apply (Forall_lookup_1 _ _ _ _ F Ei)]. apply He. by apply lookup_app_l_Some.
  - rewrite (He _ fin); [done|]. by apply list_lookup_middle.
  - split; [done|]. unfold encode_package in Hl. rewrite zlen_app, header_length, entries_length, zlen_app in Hl by done. unfold zlen in Hl. cbn in Hl. unfold sizeof_header, sizeof_entry in *. lia.
Qed.

(** ** Set-up *)
Lemma init_pool `{IoConfig} m : Z.of_nat MAX_IO_HANDLES < 2 ^ 32 -> pool_ok (io_init m).
Proof.
  intros Hx. constructor; cbn; rewrite ?length_replicate; try done.
  - intros i e Ei. apply lookup_replicate in Ei as [? _]. done.
  - induction MAX_IO_HANDLES; [done|]. cbn in *. apply IHn. lia.
Qed.
Lemma setup_idle `{IoConfig} m : (2 <= MAX_IO_HANDLES)%nat -> (2 <= MAX_IO_DEVICES)%nat -> Z.of_nat MAX_IO_HANDLES < 2 ^ 32 ->
  exists s, marvell_io_setup (io_init m) = Some (tt, s) /\ idle s 0 1 /\ memory s = m.
Proof.
  intros Hh Hd Hx. pose proof (init_pool m Hx) as P. unfold marvell_io_setup, register_io_dev, io_register_device, io_dev_open, dev_open.
  unfold mbind, M_bind, gets, modify, mret, M_ret, must, massert. cbn -[Nat.ltb]. destruct (Nat.ltb_spec 0 MAX_IO_DEVICES); [|lia]. cbn -[Nat.ltb].
  destruct (Nat.ltb_spec 1 MAX_IO_DEVICES); [|lia]. cbn. eexists. split; [done|]. split; [|done].
  constructor; try done; cbn.
  - by destruct P; constructor.
  - by destruct MAX_IO_HANDLES as [|[|n]]; [lia|lia|].
  - by destruct MAX_IO_HANDLES as [|[|n]]; [lia|lia|].
Qed.

(** ** Handles *)
Section handles.
Context `{IoConfig} (depth : nat).
Abbreviation funcs := (dev_funcs depth).

#[local] Hint Resolve dev_funcs_balanced : keeps.
Lemma keeps_load_read layout e base size data ep : keeps (load_read funcs layout e base size data ep).
Proof. unfold load_read. keeps. Qed.
Lemma keeps_load_image layout image_id base data ep : keeps (load_image funcs layout image_id base data ep).
Proof.
  unfold load_image. pose proof (keeps_get_image_source funcs image_id). balanced; apply keeps_load_read.
Qed.
Lemma keeps_image_size image_id : keeps (image_size_of funcs image_id).
Proof. unfold image_size_of. pose proof (keeps_get_image_source funcs image_id). balanced. Qed.

(** The calls of the IO layer, with the handles the callers hold: those returned by
    [io_open] and not closed. *)
Inductive io_step : gset nat * io -> gset nat * io -> Prop :=
| step_open held s h sp r x s' : io_open funcs h sp s = Some ((r, x), s') ->
    io_step (held, s) (held ∪ match x with Some e => {[e]} | None => ∅ end, s')
| step_close held s e r s' : e ∈ held -> io_close funcs e s = Some (r, s') -> io_step (held, s) (held ∖ {[e]}, s')
| step_seek held s e mode off r s' : io_seek funcs e mode off s = Some (r, s') -> io_step (held, s) (held, s')
| step_size held s e r s' : io_size funcs e s = Some (r, s') -> io_step (held, s) (held, s')
| step_read held s e b n r s' : io_read funcs e b n s = Some (r, s') -> io_step (held, s) (held, s')
| step_write held s e b n r s' : io_write funcs e b n s = Some (r, s') -> io_step (held, s) (held, s')
| step_init held s h p r s' : io_dev_init funcs h p s = Some (r, s') -> io_step (held, s) (held, s')
| step_dev_close held s h r s' : io_dev_close funcs h s = Some (r, s') -> io_step (held, s) (held, s')
| step_source held s image_id r s' : plat_get_image_source funcs image_id s = Some (r, s') -> io_step (held, s) (held, s')
| step_image_size held s image_id r s' : image_size_of funcs image_id s = Some (r, s') -> io_step (held, s) (held, s')
| step_load held s layout image_id base data ep r s' : load_image funcs layout image_id base data ep s = Some (r, s') -> io_step (held, s) (held, s').

Definition handles_ok (hs : gset nat * io) : Prop :=
  pool_ok (snd hs) /\ (forall e, e ∈ fst hs <-> entity_map (snd hs) !! e = Some (Some e)) /\
  entity_count (snd hs) = Z.of_nat (base.size (fst hs)).
Lemma handles_keep held s s' : handles_ok (held, s) -> same_pool s s' -> handles_ok (held, s').
Proof.
  intros (P & Hh & Hc) S. split; [by apply (same_pool_ok s)|]. destruct S as (E & Ec & _). cbn in *. split; [intros e; by rewrite E|by rewrite Ec].
Qed.
(** The state in which [e] is not yet taken. *)
Lemma untaken s e : pool_ok s -> entity_map s !! e = Some (Some e) -> exists s0, pool_ok s0 /\ taken e s0 s /\ entity_map s0 = <[e := None]> (entity_map s).
Proof.
  intros P E. exists (set_map (<[e := None]> (entity_map s)) (entity_count s - 1) s). pose proof (used_give _ _ _ E) as Hu.
  pose proof (lookup_lt_Some _ _ _ E). destruct P as [Pp Pm Po Pc Px]. split; [|split; [|done]].
  - constructor; cbn; [done|by rewrite length_insert| |lia|done].
    intros i j. rewrite list_lookup_insert_Some. intros [(? & ? & _)|[_ ?]]; [done|by apply Po].
  - repeat split; cbn; [by apply list_lookup_insert_eq| |lia]. rewrite list_insert_insert_eq. symmetry. by apply list_insert_id.
Qed.
Lemma step_handles hs hs' : io_step hs hs' -> handles_ok hs -> handles_ok hs'.
Proof.
  intros St Ok. destruct St as [held s h sp r x s' E|held s e r s' Hin E|held s e mode off r s' E|held s e r s' E|held s e b n r s' E|held s e b n r s' E|
    held s h p r s' E|held s h r s' E|held s id r s' E|held s id r s' E|held s layout id base data ep r s' E].
  - destruct Ok as (P & Hh & Hc). destruct (open_cases _ _ _ _ _ _ _ P E) as [(_ & e & -> & T)|(_ & -> & S)].
    + split; [by apply (taken_ok e s)|]. destruct T as (E0 & Em & Ec & _). cbn in *. pose proof (lookup_lt_Some _ _ _ E0) as Hlt. split.
      * intros e'. rewrite elem_of_union, elem_of_singleton, Em, Hh. destruct (decide (e' = e)) as [->|]; [rewrite list_lookup_insert_eq by done; by split; auto|].
        rewrite list_lookup_insert_ne by done. by split; [intros [?|?]|left].
      * rewrite size_union, size_singleton; [lia|]. intros e' He'%Hh ->%elem_of_singleton. congruence.
    + rewrite union_empty_r_L. by apply (handles_keep held s).
  - destruct Ok as (P & Hh & Hc). cbn in Hh, Hc. pose proof (proj1 (Hh e) Hin) as Ee. destruct (untaken s e P Ee) as (s0 & P0 & T & Em0).
    assert (same_pool s0 s') as S.
    { pose proof (gives_back_close funcs e (fun r => mret r) (fun r => keeps_ret r)) as G. apply (G s0 s r s' P0 T). by rewrite (bind_eq _ _ _ _ _ E). }
    split; [by apply (same_pool_ok s0)|]. destruct S as (Em & Ec & _), T as (_ & _ & Et & _). cbn. pose proof (lookup_lt_Some _ _ _ Ee). split.
    + intros e'. rewrite elem_of_difference, elem_of_singleton, Em, Em0, Hh. destruct (decide (e' = e)) as [->|].
      * rewrite list_lookup_insert_eq by done. split; [by intros []|done].
      * rewrite list_lookup_insert_ne by done. by split; [intros []|].
    + rewrite size_difference, size_singleton by (intros ? ->%elem_of_singleton; done).
      assert (base.size held <> 0)%nat by (apply size_non_empty_iff; intros Hs; apply (not_elem_of_empty (C := gset nat) e); by rewrite <- Hs). lia.
  - eapply handles_keep; [done|]. eapply (keeps_seek funcs e mode off); [|done]. apply Ok.
  - eapply handles_keep; [done|]. eapply (keeps_size funcs e); [|done]. apply Ok.
  - eapply handles_keep; [done|]. eapply (keeps_read funcs e b n); [|done]. apply Ok.
  - eapply handles_keep; [done|]. eapply (keeps_write funcs e b n); [|done]. apply Ok.
  - eapply handles_keep; [done|]. eapply (keeps_dev_init funcs h p); [|done]. apply Ok.
  - eapply handles_keep; [done|]. eapply (keeps_dev_close funcs h); [|done]. apply Ok.
  - eapply handles_keep; [done|]. eapply (keeps_get_image_source funcs id); [|done]. apply Ok.
  - eapply handles_keep; [done|]. eapply (keeps_image_size id); [|done]. apply Ok.
  - eapply handles_keep; [done|]. eapply (keeps_load_image layout id base data ep); [|done]. apply Ok.
Qed.
Lemma keeps_setup : keeps marvell_io_setup.
Proof. unfold marvell_io_setup, register_io_dev, io_register_device, io_dev_open, dev_open. keeps. Qed.
Lemma steps_handles m s hs : Z.of_nat MAX_IO_HANDLES < 2 ^ 32 -> marvell_io_setup (io_init m) = Some (tt, s) -> rtc io_step (∅, s) hs -> handles_ok hs.
Proof.
  intros Hx E St. assert (handles_ok (∅, s)) as Ok.
  { pose proof (init_pool m Hx) as P. apply (handles_keep ∅ (io_init m)); [|by apply (keeps_setup _ _ _ P E)]. split; [done|]. cbn. split; [|by rewrite size_empty].
    intros e. rewrite lookup_replicate. split; [by intros ?%not_elem_of_empty|by intros [? _]]. }
  clear E. remember (∅ : gset nat, s) as hs0 eqn:Eh. clear Eh. induction St as [|hs1 hs2 hs3 S1 _ IH]; [done|]. apply IH. by eapply step_handles.
Qed.
End handles.

(** ** Authentication *)
Section auth.
Context `{IoConfig} `{AuthMod} (funcs : dev -> io_dev_funcs).
(** The image [id] has been verified, after those parents in the chain of trust that the module
    asked for; the module went from [a] to [a'].  The last image verified has the given bytes,
    at the address [base]. *)
Inductive trusted : Z -> auth_state -> Z -> list Z -> auth_state -> Prop :=
| trusted_root id a rc parent base bytes a' : auth_mod_get_parent_id a id = Some (rc, parent) -> rc <> 0 ->
    auth_mod_verify_img a id base bytes = Some (0, a') -> trusted id a base bytes a'
| trusted_child id parent a base1 bytes1 a1 base bytes a' : auth_mod_get_parent_id a id = Some (0, parent) ->
    trusted parent a base1 bytes1 a1 -> auth_mod_verify_img a1 id base bytes = Some (0, a') -> trusted id a base bytes a'.

Lemma lift_some {A} (m : X A) s a r : lift m (s, a) = Some r -> exists x s', m s = Some (x, s') /\ r = (x, (s', a)).
Proof. unfold lift. destruct (m s) as [[x s']|]; [|done]. intros [= <-]. eauto. Qed.
Lemma load_auth_ok depth : TRUSTED_BOARD_BOOT = true -> forall layout id base data ep s a l d p s' a',
  load_auth_image funcs depth layout id base data ep (s, a) = Some ((0, l, d, p), (s', a')) ->
  exists bytes, Fwu.read_bytes (memory s') (image_base d) (image_size d) = Some bytes /\ trusted id a (image_base d) bytes a'.
Proof.
  intros Ht. induction depth as [|depth IH]; intros layout id base data ep s a l d p s' a' E; [done|]. cbn [load_auth_image] in E. rewrite Ht in E.
  apply bind_some in E as ([[rc l1] d1] & [s1 a1] & E1 & E). destruct (Z.eqb_spec rc 0) as [->|Hr]; cbn [negb] in E; [|by injection E as -> _ _ _ _ _].
  apply bind_some in E as ([[[rc l2] d2] p2] & [s2 a2] & E2 & E). apply lift_some in E2 as (r2 & s2' & E2 & Er). injection Er as <- <- <-.
  destruct (Z.eqb_spec rc 0) as [->|Hr]; cbn [negb] in E; [|by injection E as -> _ _ _ _ _].
  rewrite (bind_eq _ _ _ (s2, a2) (s2, a2)) in E by done. apply bind_some in E as (bytes & [s3 a3] & E3 & E).
  unfold must in E3. destruct (Fwu.read_bytes (memory s2) (image_base d2) (image_size d2)) as [bytes'|] eqn:Eb; [|done]. injection E3 as <- <- <-.
  apply bind_some in E as ([rc a4] & [s4 a5] & Ev & E). unfold must in Ev.
  destruct (auth_mod_verify_img a2 id (image_base d2) bytes') as [[rc' a6]|] eqn:Ev'; [|done]. injection Ev as <- <- <- <-.
  rewrite (bind_eq _ _ _ tt (s2, a6)) in E by done.
  destruct (Z.eqb_spec rc' 0) as [->|Hr]; cbn [negb] in E; [|by injection E]. injection E as <- <- <- <- <-. exists bytes'. split; [done|].
  rewrite (bind_eq _ _ _ (s, a) (s, a)) in E1 by done. apply bind_some in E1 as ([rc parent] & [s5 a7] & Ep & E1). unfold must in Ep.
  destruct (auth_mod_get_parent_id a id) as [[rc0 parent0]|] eqn:Ep'; [|done]. injection Ep as <- <- <- <-.
  destruct (Z.eqb_spec rc0 0) as [->|Hr].
  - apply bind_some in E1 as ([[[rc l3] d3] p3] & [s3 a3] & E1 & E4). injection E4 as -> <- <- <- <-.
    destruct (IH _ _ _ _ _ _ _ _ _ _ _ _ E1) as (bytes1 & _ & T). by eapply trusted_child.
  - injection E1 as <- <- <- <-. by eapply trusted_root.
Qed.
(** Where the load of the image itself starts: at once, if the module asks for no parent, or after the
    load of the parent it asks for. *)
Inductive parents_done (depth : nat) (layout : meminfo) (id base : Z) (data : image_info) (s : io) (a : auth_state) :
  meminfo -> image_info -> io -> auth_state -> Prop :=
| no_parent rc parent : auth_mod_get_parent_id a id = Some (rc, parent) -> rc <> 0 -> parents_done depth layout id base data s a layout data s a
| parent_loaded parent l d p s1 a1 : auth_mod_get_parent_id a id = Some (0, parent) ->
    load_auth_image funcs depth layout parent base data None (s, a) = Some ((0, l, d, p), (s1, a1)) ->
    parents_done depth layout id base data s a l d s1 a1.
Lemma load_auth_after depth layout id base data ep s a l0 d0 s1 a1 rc l d p s2 : TRUSTED_BOARD_BOOT = true ->
  parents_done depth layout id base data s a l0 d0 s1 a1 -> load_image funcs l0 id base d0 ep s1 = Some ((rc, l, d, p), s2) ->
  load_auth_image funcs (S depth) layout id base data ep (s, a) =
    (if negb (rc =? 0) then Some ((rc, l, d, p), (s2, a1))
     else bytes ← Fwu.read_bytes (memory s2) (image_base d) (image_size d);
          '(rc, a') ← auth_mod_verify_img a1 id (image_base d) bytes;
          Some (if rc =? 0 then ((0, l, d, p), (s2, a'))
                else ((- EAUTH, l, d, p), (set_memory (Fwu.memset (memory s2) (image_base d) 0 (image_size d)) s2, a')))).
Proof.
  intros Ht Hp El. cbn [load_auth_image]. rewrite Ht.
  rewrite (bind_eq _ _ _ (0, l0, d0) (s1, a1)).
  2: { destruct Hp as [rc0 parent Hp Hr0|parent l1 d1 p1 s1 a1 Hp Hl]; rewrite (bind_eq _ _ _ (s, a) (s, a)) by done; rewrite (bind_must _ _ _ _ Hp).
       - by rewrite (proj2 (Z.eqb_neq _ _) Hr0).
       - cbn [Z.eqb]. by rewrite (bind_eq _ _ _ _ _ Hl). }
  cbn [Z.eqb negb]. rewrite (bind_eq _ _ _ (rc, l, d, p) (s2, a1)) by (unfold lift; by rewrite El).
  destruct (Z.eqb_spec rc 0) as [->|]; cbn [negb]; [|done].
  rewrite (bind_eq _ _ _ (s2, a1) (s2, a1)) by done. cbn beta iota.
  destruct (Fwu.read_bytes (memory s2) (image_base d) (image_size d)) as [bytes|] eqn:Eb; [|done]. rewrite (bind_must _ bytes) by done.
  cbn [mbind option_bind]. destruct (auth_mod_verify_img a1 id (image_base d) bytes) as [[rc a']|] eqn:Ev; [|done]. unfold mbind, M_bind, must, put.
  cbn [option_bind]. by destruct (rc =? 0).
Qed.
Lemma load_auth_parent_fails depth layout id base data ep s a parent rc l d p s1 a1 : TRUSTED_BOARD_BOOT = true ->
  auth_mod_get_parent_id a id = Some (0, parent) -> rc <> 0 ->
  load_auth_image funcs depth layout parent base data None (s, a) = Some ((rc, l, d, p), (s1, a1)) ->
  load_auth_image funcs (S depth) layout id base data ep (s, a) = Some ((rc, l, d, ep), (s1, a1)).
Proof.
  intros Ht Hp Hr Hl. cbn [load_auth_image]. rewrite Ht. rewrite (bind_eq _ _ _ (rc, l, d) (s1, a1)).
  - by rewrite (proj2 (Z.eqb_neq _ _) Hr).
  - rewrite (bind_eq _ _ _ (s, a) (s, a)) by done. rewrite (bind_must _ _ _ _ Hp). cbn [Z.eqb]. by rewrite (bind_eq _ _ _ _ _ Hl).
Qed.
End auth.

(** ** An example: the Armada 8K *)
#[local] Instance a8k_io : IoConfig :=
  {| MAX_IO_HANDLES := 4; MAX_IO_DEVICES := 3; PLAT_ALLOW_ZERO_ADDR_COPY := true; PLAT_MARVELL_FIP_BASE := 0x4120000; PLAT_MARVELL_FIP_MAX_SIZE := 0x4000000 |}.
Definition a8k_header : fip_toc_header := TocHeader TOC_HEADER_NAME 0x12345678 0.
Definition a8k_bl31 : fip_toc_entry := TocEntry UUID_EL3_RUNTIME_FIRMWARE_BL31 0x100 8 0.
Definition a8k_bl33 : fip_toc_entry := TocEntry UUID_NON_TRUSTED_FIRMWARE_BL33 0x108 4 0.
(** Memory with a package that holds BL31 and BL33; the rest is 7. *)
Definition a8k_memory : Fwu.memory_t := fun a =>
  let l := encode_package a8k_header [a8k_bl31; a8k_bl33] (TocEntry uuid_null 0 0 0) in
  if a <? 0x4120000 then 7 else default 7 (l !! Z.to_nat (a - 0x4120000)).
Lemma a8k_package : package a8k_memory 0x4120000 [a8k_bl31; a8k_bl33].
Proof.
  apply (package_encode _ _ a8k_header _ (TocEntry uuid_null 0 0 0)).
  - intros i x Ei. unfold a8k_memory. rewrite (proj2 (Z.ltb_ge _ _)) by lia. replace (0x4120000 + Z.of_nat i - 0x4120000) with (Z.of_nat i) by lia.
    by rewrite Nat2Z.id, Ei.
  - by repeat split.
  - done.
  - by repeat constructor.
  - by repeat split.
  - done.
  - done.
  - by vm_compute.
Qed.
Definition a8k_state : io := default (io_init a8k_memory) (snd <$> marvell_io_setup (io_init a8k_memory)).
Lemma a8k_setup : marvell_io_setup (io_init a8k_memory) = Some (tt, a8k_state) /\ idle a8k_state 0 1 /\ memory a8k_state = a8k_memory.
Proof.
  destruct (setup_idle a8k_memory) as (s & E & I & M); [cbn; lia|cbn; lia|done|]. unfold a8k_state. by rewrite E.
Qed.
Definition a8k_idle : idle a8k_state 0 1 := proj1 (proj2 a8k_setup).
Definition a8k_layout : meminfo := Meminfo 0x4000000 0x100000 0x4001000 0x80000.

(** ** The theorems *)

(** C19: [load_image] from a package.  The platform's table names the UUID of an image.  When
    the table of contents has no such entry, the result is [-ENOENT]; when the destination is
    not free memory, [-ENOMEM]; in both cases nothing is changed.  Otherwise the bytes of the
    file are in memory at [base] and nowhere else, the image information and the entry point
    are set, and the memory is reserved if there is an entry point.  A file of size 0 is
    reported as loaded, without any effect.  Always the drivers are idle again. *)
Theorem load_image_spec `{IoConfig} s e0 e1 toc image_id u layout base data ep :
  idle s e0 e1 -> package (memory s) PLAT_MARVELL_FIP_BASE toc -> policy image_id = Some u -> version data = VERSION_1 ->
  let load := load_image (dev_funcs 1) layout image_id base data ep s in
  let yields r m := exists s', load = Some (r, s') /\ idle s' e0 e1 /\ memory s' = m in
  match toc_find u toc with
  | None => yields (- ENOENT, layout, data, ep) (memory s)
  | Some en =>
      offset_address en <> 0 ->
      (size en = 0 -> yields (0, layout, data, ep) (memory s)) /\
      (size en <> 0 -> is_mem_free (free_base layout) (free_size layout) base (size en) = false -> yields (- ENOMEM, layout, data, ep) (memory s)) /\
      (0 <= offset_address en -> 0 < size en -> in_u 64 (free_base layout) -> in_u 64 (free_size layout) -> in_u 64 base ->
       (PLAT_ALLOW_ZERO_ADDR_COPY = true \/ base <> 0) -> payload en 0 + size en <= 2 ^ 64 ->
       base + size en <= payload en 0 \/ payload en 0 + size en <= base ->
       is_mem_free (free_base layout) (free_size layout) base (size en) = true ->
       exists fb fs, reserve_mem (free_base layout) (free_size layout) base (size en) = Some (fb, fs) /\
         yields (0, match ep with Some _ => Meminfo (total_base layout) (total_size layout) fb fs | None => layout end,
               ImageInfo VERSION_1 base (u32 (size en)), (fun _ => base) <$> ep)
           (fun a => if Fwu.in_range a base (size en) then memory s (payload en 0 + (a - base)) else memory s a))
  end.
Proof.
  intros I P Hpol Hv load yields. destruct (toc_find u toc) as [en|] eqn:Ef.
  - intros Hoff. split; [|split].
    + intros Hz. by eapply (load_empty (dev_funcs 0) (dev_funcs 1)).
    + intros Hz Hfree. by eapply (load_no_room (dev_funcs 0) (dev_funcs 1)).
    + intros Ho Hs Hfb Hfs Hb Hnn Hp Hd Hfree. pose proof (pk_fits _ _ _ P) as [Hpos _]. unfold payload in Hp. unfold in_u in Hb.
      assert (in_u 64 (size en)) as Hsz by (unfold in_u; lia). assert (base + size en <= 2 ^ 64) as Hend.
      { apply is_mem_free_ok in Hfree; try done. unfold inside in Hfree. lia. }
      pose proof (reserve_ok _ _ _ _ Hfb Hfs Hb Hsz Hs Hfree) as Hr. eexists _, _. split; [done|]. rewrite <- Hv.
      eapply (load_success (dev_funcs 0) (dev_funcs 1)); try done; try lia. unfold not_null.
      destruct Hnn as [->|Hnz]; [done|]. by rewrite (proj2 (Z.eqb_neq _ _)), orb_true_r.
  - by eapply (load_missing (dev_funcs 0) (dev_funcs 1)).
Qed.
Lemma load_image_spec_witness : exists fb fs,
  reserve_mem 0x4001000 0x80000 0x4023000 8 = Some (fb, fs) /\
  exists s', load_image (dev_funcs 1) a8k_layout 3 0x4023000 (ImageInfo 1 0 0) (Some 0) a8k_state =
    Some ((0, Meminfo 0x4000000 0x100000 fb fs, ImageInfo VERSION_1 0x4023000 8, Some 0x4023000), s') /\ idle s' 0 1 /\
    memory s' = fun a => if Fwu.in_range a 0x4023000 8 then memory a8k_state (payload a8k_bl31 0 + (a - 0x4023000)) else memory a8k_state a.
Proof.
  pose proof (load_image_spec a8k_state 0 1 [a8k_bl31; a8k_bl33] 3 UUID_EL3_RUNTIME_FIRMWARE_BL31 a8k_layout 0x4023000 (ImageInfo 1 0 0) (Some 0)
    a8k_idle a8k_package eq_refl eq_refl) as T. cbn zeta in T.
  change (toc_find UUID_EL3_RUNTIME_FIRMWARE_BL31 [a8k_bl31; a8k_bl33]) with (Some a8k_bl31) in T. apply (T ltac:(done)); try done; [by left|by left].
Defined.

(** C21: Over every sequence of calls of the IO layer and the image loader, on every path of
    the drivers, errors included: the entities in use are exactly the handles that [io_open]
    returned and that have not been closed, [entity_count] is their number, and [io_open] never
    returns a handle that is in use. *)
Theorem io_handles_exact `{IoConfig} depth m s held s' :
  Z.of_nat MAX_IO_HANDLES < 2 ^ 32 -> marvell_io_setup (io_init m) = Some (tt, s) -> rtc (io_step depth) (∅, s) (held, s') ->
  (forall e, e ∈ held <-> entity_map s' !! e = Some (Some e)) /\ entity_count s' = Z.of_nat (base.size held) /\
  (base.size held <= MAX_IO_HANDLES)%nat /\
  (forall h sp r e s'', io_open (dev_funcs depth) h sp s' = Some ((r, Some e), s'') -> r = 0 /\ (e ∉ held) /\ (e < MAX_IO_HANDLES)%nat).
Proof.
  intros Hx E St. destruct (steps_handles depth m s _ Hx E St) as (P & Hh & Hc). cbn in *. split; [done|]. split; [done|]. split.
  - pose proof (used_le (entity_map s')). rewrite (po_map _ P) in *. pose proof (po_count _ P). lia.
  - intros h sp r e s'' Eo. destruct (open_cases _ _ _ _ _ _ _ P Eo) as [(-> & e' & [= <-] & E0 & _)|(_ & ? & _)]; [|done]. split; [done|].
    split; [rewrite Hh; congruence|]. apply lookup_lt_Some in E0. by rewrite (po_map _ P) in E0.
Qed.
(** The memory map device has been opened. *)
Lemma io_handles_exact_witness :
  let s := sess a8k_state 0 0x4120000 0x4000000 0 in let held := (∅ ∪ {[0%nat]} : gset nat) in
  (forall e, e ∈ held <-> entity_map s !! e = Some (Some e)) /\ entity_count s = Z.of_nat (base.size held) /\ (base.size held <= MAX_IO_HANDLES)%nat /\
  (forall h sp r e s'', io_open (dev_funcs 1) h sp s = Some ((r, Some e), s'') -> r = 0 /\ (e ∉ held) /\ (e < MAX_IO_HANDLES)%nat).
Proof.
  exact (io_handles_exact 1 a8k_memory a8k_state _ _ eq_refl (proj1 a8k_setup) (rtc_once _ _ (step_open 1 ∅ a8k_state (Some MemmapDev) (Some fip_block_spec) 0 (Some 0%nat)
    _ (open_eq (dev_funcs 1) eq_refl a8k_state 0 _ _ (idle_ready _ _ _ a8k_idle))))).
Defined.

(** C20: [load_auth_image] with trusted board boot: on success the bytes of the image in
    memory are those that the authentication module accepted, after it accepted the images
    above it in the chain of trust that it asked for.  When the parent the module asks for fails, the
    image is not loaded and the parent's error is the result.  When no parent is asked for or it has been
    loaded, an error of [load_image] is the result; and an image that could be loaded and that the
    module then rejects is overwritten with zeros and the result is [-EAUTH]. *)
Theorem load_auth_image_spec `{IoConfig} `{AuthMod} funcs depth layout id base data ep s a :
  TRUSTED_BOARD_BOOT = true ->
  (forall l d p s' a', load_auth_image funcs depth layout id base data ep (s, a) = Some ((0, l, d, p), (s', a')) ->
     exists bytes, Fwu.read_bytes (memory s') (image_base d) (image_size d) = Some bytes /\ trusted id a (image_base d) bytes a') /\
  (forall parent rc l d p s1 a1, auth_mod_get_parent_id a id = Some (0, parent) -> rc <> 0 ->
     load_auth_image funcs depth layout parent base data None (s, a) = Some ((rc, l, d, p), (s1, a1)) ->
     load_auth_image funcs (S depth) layout id base data ep (s, a) = Some ((rc, l, d, ep), (s1, a1))) /\
  (forall l0 d0 s1 a1 rc l d p s2, parents_done funcs depth layout id base data s a l0 d0 s1 a1 ->
     load_image funcs l0 id base d0 ep s1 = Some ((rc, l, d, p), s2) ->
     (rc <> 0 -> load_auth_image funcs (S depth) layout id base data ep (s, a) = Some ((rc, l, d, p), (s2, a1))) /\
     (forall bytes v a', rc = 0 -> Fwu.read_bytes (memory s2) (image_base d) (image_size d) = Some bytes ->
        auth_mod_verify_img a1 id (image_base d) bytes = Some (v, a') -> v <> 0 ->
        load_auth_image funcs (S depth) layout id base data ep (s, a) =
          Some ((- EAUTH, l, d, p), (set_memory (Fwu.memset (memory s2) (image_base d) 0 (image_size d)) s2, a')))).
Proof.
  intros Ht. split; [|split].
  - intros l d p s' a' E. by eapply load_auth_ok.
  - intros. by eapply load_auth_parent_fails.
  - intros l0 d0 s1 a1 rc l d p s2 Hp El. pose proof (load_auth_after funcs depth layout id base data ep s a _ _ _ _ _ _ _ _ _ Ht Hp El) as ->. split.
    + intros Hr. by rewrite (proj2 (Z.eqb_neq _ _) Hr).
    + intros bytes v a' -> Eb Ev Hv. cbn [Z.eqb negb mbind option_bind]. rewrite Eb. cbn [mbind option_bind]. rewrite Ev. cbn [mbind option_bind].
      by rewrite (proj2 (Z.eqb_neq _ _) Hv).
Qed.
(** A module that accepts BL31 when its first byte is 7, and nothing else. *)
#[local] Instance a8k_auth : AuthMod :=
  {| TRUSTED_BOARD_BOOT := true; auth_state := unit; auth_mod_get_parent_id := fun _ _ => Some (1, 0);
     auth_mod_verify_img := fun _ id _ bytes => Some (if (id =? 3) && bool_decide (head bytes = Some 7) then 0 else 1, tt) |}.
Lemma load_auth_image_spec_witness : exists s' (a' : @auth_state a8k_auth) bytes,
  load_auth_image (dev_funcs 1) 1 a8k_layout 3 0x4023000 (ImageInfo 1 0 0) (Some 0) (a8k_state, tt : @auth_state a8k_auth) =
    Some ((0, Meminfo 0x4000000 0x100000 0x4023008 0x5dff8, ImageInfo 1 0x4023000 8, Some 0x4023000), (s', a')) /\
  Fwu.read_bytes (memory s') 0x4023000 8 = Some bytes /\ trusted 3 (tt : @auth_state a8k_auth) 0x4023000 bytes a'.
Proof.
  destruct (load_success (dev_funcs 0) (dev_funcs 1) eq_refl eq_refl a8k_state 0 1 _ 3 _ a8k_idle a8k_package eq_refl a8k_bl31 eq_refl
    ltac:(done) a8k_layout 0x4023000 (ImageInfo 1 0 0) (Some 0) eq_refl ltac:(done) ltac:(done) eq_refl ltac:(done) ltac:(done) ltac:(by left) eq_refl ltac:(done)
    0x4023008 0x5dff8 eq_refl) as (s' & E & _ & Em).
  assert (Fwu.read_bytes (memory s') 0x4023000 8 = Some (replicate 8 7)) as Eb by (rewrite Em; by vm_compute).
  assert (load_auth_image (dev_funcs 1) 1 a8k_layout 3 0x4023000 (ImageInfo 1 0 0) (Some 0) (a8k_state, tt : @auth_state a8k_auth) =
    Some ((0, Meminfo 0x4000000 0x100000 0x4023008 0x5dff8, ImageInfo 1 0x4023000 8, Some 0x4023000), (s', tt : @auth_state a8k_auth))) as Ea.
  { rewrite (load_auth_after (dev_funcs 1) 0 _ _ _ _ _ _ (tt : @auth_state a8k_auth) _ _ _ _ _ _ _ _ _ eq_refl
      (no_parent (dev_funcs 1) 0 _ _ _ _ _ (tt : @auth_state a8k_auth) 1 0 eq_refl ltac:(done)) E).
    cbn [Z.eqb negb]. change (Fwu.read_bytes (memory s') _ _) with (Fwu.read_bytes (memory s') 0x4023000 8). rewrite Eb. reflexivity. }
  destruct (proj1 (load_auth_image_spec (dev_funcs 1) 1 a8k_layout 3 0x4023000 (ImageInfo 1 0 0) (Some 0) a8k_state (tt : @auth_state a8k_auth) eq_refl)
    _ _ _ _ _ Ea) as (bytes & Hb & T).
  exists s', tt, bytes. split; [exact Ea|]. split; [exact Hb|exact T].
Defined.

(** [is_mem_free] decides whether a region lies in the free region, without wrapping; and
    [reserve_mem] of such a region leaves the larger of the two parts around it free, which
    the region does not overlap. *)
Theorem reserve_mem_spec fb fs addr size :
  in_u 64 fb -> in_u 64 fs -> in_u 64 addr -> in_u 64 size -> 0 < size ->
  (is_mem_free fb fs addr size = true <-> fb + fs <= 2 ^ 64 /\ inside addr size fb fs) /\
  (is_mem_free fb fs addr size = false -> reserve_mem fb fs addr size = None) /\
  (is_mem_free fb fs addr size = true -> exists fb' fs', reserve_mem fb fs addr size = Some (fb', fs') /\
     fs' = Z.max (addr - fb) (fb + fs - (addr + size)) /\
     (0 < fs' -> inside fb' fs' fb fs /\ (fb' + fs' <= addr \/ addr + size <= fb'))).
Proof.
  intros Hfb Hfs Ha Hs Hp. pose proof (is_mem_free_ok _ _ _ _ Hfb Hfs Ha Hs) as Hf. split; [|split].
  - rewrite Hf. unfold in_u, inside in *. lia.
  - intros E. unfold reserve_mem. by rewrite E.
  - intros E. rewrite reserve_ok by done. eexists _, _. split; [done|]. split; [done|]. apply Hf in E. unfold in_u, inside in *.
    destruct (Z.ltb_spec (fb + fs - (addr + size)) (addr - fb)); intros ?; [lia|]. rewrite wrap_small by lia. lia.
Qed.
Lemma reserve_mem_spec_witness :
  (is_mem_free 0x4001000 0x80000 0x4023000 8 = true <-> 0x4001000 + 0x80000 <= 2 ^ 64 /\ inside 0x4023000 8 0x4001000 0x80000) /\
  (is_mem_free 0x4001000 0x80000 0x4023000 8 = false -> reserve_mem 0x4001000 0x80000 0x4023000 8 = None) /\
  (is_mem_free 0x4001000 0x80000 0x4023000 8 = true -> exists fb' fs', reserve_mem 0x4001000 0x80000 0x4023000 8 = Some (fb', fs') /\
     fs' = Z.max (0x4023000 - 0x4001000) (0x4001000 + 0x80000 - (0x4023000 + 8)) /\
     (0 < fs' -> inside fb' fs' 0x4001000 0x80000 /\ (fb' + fs' <= 0x4023000 \/ 0x4023000 + 8 <= fb'))).
Proof. by apply (reserve_mem_spec 0x4001000 0x80000 0x4023000 8). Defined.

End LoadSpec.
