(* ===== verification/Fiptool.v ===== *)
(** * The packaging tool: tools/fiptool

    The images of the tool (fiptool.c), its table of known images (tbbr_config.c) and the commands
    create, update, remove and unpack, from the contents of the files they read to the contents of the
    files they write.

    [images] is the array of pointers, each with what it points to; an image is not changed once it is
    there.  [links] are the [image] fields of [toc_entries].  [None] in a result is a program that ends
    with an error message; a failed assertion is undefined.  The command line, messages and the
    information command are not modelled; files can be opened, read and written, memory can be
    allocated, and the files to be written by unpack do not exist. *)

From Stdlib Require Import ZArith Lia String.
From stdpp Require Import base option list numbers.
From S2P Require Import Prelude CMonad Io LoadSpec.
Import Io LoadSpec.
Open Scope string_scope.
Open Scope list_scope.
Open Scope Z_scope.

Module Fiptool.

(** ** Known images *)
Definition UUID_TRUSTED_UPDATE_FIRMWARE_SCP_BL2U : list Z :=
  [0x65; 0x92; 0x27; 0x03; 0x2f; 0x74; 0xe6; 0x44; 0x8d; 0xff; 0x57; 0x9a; 0xc1; 0xff; 0x06; 0x10].
Definition UUID_TRUSTED_UPDATE_FIRMWARE_BL2U : list Z :=
  [0x60; 0xb3; 0xeb; 0x37; 0xc1; 0xe5; 0xea; 0x41; 0x9d; 0xf3; 0x19; 0xed; 0xa1; 0x1f; 0x68; 0x01].
Definition UUID_TRUSTED_UPDATE_FIRMWARE_NS_BL2U : list Z :=
  [0x4f; 0x51; 0x1d; 0x11; 0x2b; 0xe5; 0x4e; 0x49; 0xb4; 0xc5; 0x83; 0xc2; 0xf7; 0x15; 0x84; 0x0a].
Definition UUID_TRUSTED_FWU_CERT : list Z :=
  [0x71; 0x40; 0x8a; 0xb2; 0x18; 0xd6; 0x87; 0x4c; 0x8b; 0x2e; 0xc6; 0xdc; 0xcd; 0x50; 0xf0; 0x96].
Definition UUID_ROT_KEY_CERT : list Z :=
  [0x86; 0x2d; 0x1d; 0x72; 0xf8; 0x60; 0xe4; 0x11; 0x92; 0x0b; 0x8b; 0xe7; 0x62; 0x16; 0x0f; 0x24].
Definition UUID_TRUSTED_KEY_CERT : list Z :=
  [0x82; 0x7e; 0xe8; 0x90; 0xf8; 0x60; 0xe4; 0x11; 0xa1; 0xb4; 0x77; 0x7a; 0x21; 0xb4; 0xf9; 0x4c].
Definition UUID_SCP_FW_KEY_CERT : list Z :=
  [0x02; 0x42; 0x21; 0xa1; 0xf8; 0x60; 0xe4; 0x11; 0x8d; 0x9b; 0xf3; 0x3c; 0x0e; 0x15; 0xa0; 0x14].
Definition UUID_SOC_FW_KEY_CERT : list Z :=
  [0x8a; 0xb8; 0xbe; 0xcc; 0xf9; 0x60; 0xe4; 0x11; 0x9a; 0xd0; 0xeb; 0x48; 0x22; 0xd8; 0xdc; 0xf8].
Definition UUID_TRUSTED_OS_FW_KEY_CERT : list Z :=
  [0x94; 0x77; 0xd6; 0x03; 0xfb; 0x60; 0xe4; 0x11; 0x85; 0xdd; 0xb7; 0x10; 0x5b; 0x8c; 0xee; 0x04].
Definition UUID_NON_TRUSTED_FW_KEY_CERT : list Z :=
  [0x8a; 0xd5; 0x83; 0x2a; 0xfb; 0x60; 0xe4; 0x11; 0x8a; 0xaf; 0xdf; 0x30; 0xbb; 0xc4; 0x98; 0x59].
Definition UUID_TRUSTED_BOOT_FW_CERT : list Z :=
  [0xd6; 0xe2; 0x69; 0xea; 0x5d; 0x63; 0xe4; 0x11; 0x8d; 0x8c; 0x9f; 0xba; 0xbe; 0x99; 0x56; 0xa5].
Definition UUID_SCP_FW_CONTENT_CERT : list Z :=
  [0x44; 0xbe; 0x6f; 0x04; 0x5e; 0x63; 0xe4; 0x11; 0xb2; 0x8b; 0x73; 0xd8; 0xea; 0xae; 0x96; 0x56].
Definition UUID_SOC_FW_CONTENT_CERT : list Z :=
  [0xe2; 0xb2; 0x0c; 0x20; 0x5e; 0x63; 0xe4; 0x11; 0x9c; 0xe8; 0xab; 0xcc; 0xf9; 0x2b; 0xb6; 0x66].
Definition UUID_TRUSTED_OS_FW_CONTENT_CERT : list Z :=
  [0xa4; 0x9f; 0x44; 0x11; 0x5e; 0x63; 0xe4; 0x11; 0x87; 0x28; 0x3f; 0x05; 0x72; 0x2a; 0xf3; 0x3d].
Definition UUID_NON_TRUSTED_FW_CONTENT_CERT : list Z :=
  [0x8e; 0xc4; 0xc1; 0xf3; 0x5d; 0x63; 0xe4; 0x11; 0xa7; 0xa9; 0x87; 0xee; 0x40; 0xb2; 0x3f; 0xa7].
Definition TOC_HEADER_SERIAL_NUMBER := 0x12345678.
(** The name on the command line and the UUID. *)
Definition toc_entries : list (string * list Z) :=
  [("scp-fwu-cfg", UUID_TRUSTED_UPDATE_FIRMWARE_SCP_BL2U);
   ("ap-fwu-cfg", UUID_TRUSTED_UPDATE_FIRMWARE_BL2U);
   ("fwu", UUID_TRUSTED_UPDATE_FIRMWARE_NS_BL2U);
   ("fwu-cert", UUID_TRUSTED_FWU_CERT);
   ("tb-fw", UUID_TRUSTED_BOOT_FIRMWARE_BL2);
   ("scp-fw", UUID_SCP_FIRMWARE_SCP_BL2);
   ("soc-fw", UUID_EL3_RUNTIME_FIRMWARE_BL31);
   ("tos-fw", UUID_SECURE_PAYLOAD_BL32);
   ("nt-fw", UUID_NON_TRUSTED_FIRMWARE_BL33);
   ("rot-cert", UUID_ROT_KEY_CERT);
   ("trusted-key-cert", UUID_TRUSTED_KEY_CERT);
   ("scp-fw-key-cert", UUID_SCP_FW_KEY_CERT);
   ("soc-fw-key-cert", UUID_SOC_FW_KEY_CERT);
   ("tos-fw-key-cert", UUID_TRUSTED_OS_FW_KEY_CERT);
   ("nt-fw-key-cert", UUID_NON_TRUSTED_FW_KEY_CERT);
   ("tb-fw-cert", UUID_TRUSTED_BOOT_FW_CERT);
   ("scp-fw-cert", UUID_SCP_FW_CONTENT_CERT);
   ("soc-fw-cert", UUID_SOC_FW_CONTENT_CERT);
   ("tos-fw-cert", UUID_TRUSTED_OS_FW_CONTENT_CERT);
   ("nt-fw-cert", UUID_NON_TRUSTED_FW_CONTENT_CERT)].

(** ** State *)
Definition MAX_IMAGES : nat := 32.
Record image_t := Image { image_uuid : list Z; buffer : list Z }.
Definition image_size (im : image_t) : Z := zlen (buffer im).
Record tool := Tool { next : nat; images : list (nat * image_t); links : list (option nat) }.
Definition tool_init : tool := Tool 0 [] (replicate (length toc_entries) None).
(** A program that may end with an error. *)
Abbreviation T A := (M tool (option A)).
Definition log_errx {A} : T A := mret None.
Definition and_then {A B} (m : T A) (k : A -> T B) : T B := r ← m; match r with Some x => k x | None => log_errx end.

(** A new image: its address and contents. *)
Definition new_image (u l : list Z) : M tool (nat * image_t) :=
  p ← gets next;
  modify (fun t => Tool (S (next t)) (images t) (links t));;
  mret (p, Image u l).
Definition set_images (l : list (nat * image_t)) : M tool unit := modify (fun t => Tool (next t) l (links t)).
Definition set_link (i p : nat) : M tool unit := modify (fun t => Tool (next t) (images t) (<[i := Some p]> (links t))).

Definition add_image (im : nat * image_t) : T unit :=
  l ← gets images;
  if bool_decide (MAX_IMAGES < length l + 1)%nat then log_errx
  else set_images (l ++ [im]);; mret (Some tt).
(** The index of an image in the array; it must be there. *)
Definition index_of (p : nat) (l : list (nat * image_t)) : option nat := fst <$> list_find (fun im => fst im = p) l.
Definition replace_image (dst : nat) (src : nat * image_t) : M tool unit :=
  l ← gets images; i ← must (index_of dst l); set_images (<[i := src]> l).
Definition remove_image (p : nat) : M tool unit :=
  l ← gets images; i ← must (index_of p l); set_images (delete i l).
Definition get_entry_lookup_from_uuid (u : list Z) : option nat := fst <$> list_find (fun e => snd e = u) toc_entries.

(** ** Reading a package *)
Definition parse_entry (file : list Z) (e : fip_toc_entry) : T unit :=
  if 2 ^ 64 - 1 - offset_address e <? size e then log_errx
  else if zlen file <? u64 (size e + offset_address e) then log_errx
  else
    im ← new_image (uuid e) (slice file (offset_address e) (offset_address e + size e));
    match get_entry_lookup_from_uuid (uuid e) with
    | None => add_image im
    | Some i =>
        ls ← gets links;
        l ← must (ls !! i);
        massert (bool_decide (l = None));;
        set_link i (fst im);;
        add_image im
    end.
Fixpoint parse_loop (fuel : nat) (file : list Z) (pos : Z) : T unit :=
  match fuel with
  | O => must None
  | S fuel =>
      if pos + sizeof_entry - 1 <? zlen file then
        let e := decode_entry (slice file pos (pos + sizeof_entry)) in
        if bool_decide (uuid e = uuid_null) then mret (Some tt)
        else and_then (parse_entry file e) (fun _ => parse_loop fuel file (pos + sizeof_entry))
      else log_errx
  end.
Definition parse_fip (file : list Z) : T fip_toc_header :=
  if zlen file <? sizeof_header then log_errx
  else
    let toc_header := decode_header (slice file 0 sizeof_header) in
    if negb (name toc_header =? TOC_HEADER_NAME) then log_errx
    else and_then (parse_loop (S (Z.to_nat (zlen file / sizeof_entry))) file sizeof_header) (fun _ => mret (Some toc_header)).

(** ** Writing a package *)
(** The entries, and the offset behind the last file. *)
Fixpoint pack_entries (entry_offset : Z) (l : list image_t) : list fip_toc_entry * Z :=
  match l with
  | [] => ([], entry_offset)
  | im :: l =>
      let '(es, last) := pack_entries (u64 (entry_offset + image_size im)) l in
      (TocEntry (image_uuid im) entry_offset (image_size im) 0 :: es, last)
  end.
Definition packed (toc_flags : Z) (l : list image_t) : list Z :=
  let buf_size := sizeof_header + sizeof_entry * (zlen l + 1) in
  let '(es, last) := pack_entries buf_size l in
  encode_package (TocHeader TOC_HEADER_NAME TOC_HEADER_SERIAL_NUMBER toc_flags) es (TocEntry uuid_null last 0 0) ++
  concat (buffer <$> l).
Definition pack_images (toc_flags : Z) : M tool (list Z) := l ← gets images; mret (packed toc_flags (snd <$> l)).

(** ** Commands *)
(** [args] are the contents of the files to be packed, by the position in [toc_entries]. *)
Fixpoint update_loop (i : nat) (args : list (option (list Z))) : T unit :=
  match args with
  | [] => mret (Some tt)
  | None :: args => update_loop (S i) args
  | Some file :: args =>
      e ← must (toc_entries !! i);
      im ← new_image (snd e) file;
      ls ← gets links;
      l ← must (ls !! i);
      and_then (match l with
                | Some p => replace_image p im;; mret (Some tt)
                | None => add_image im
                end)
        (fun _ => set_link i (fst im);; update_loop (S i) args)
  end.
Definition update_fip (args : list (option (list Z))) : T unit := update_loop 0 args.

(** The number given as the platform's flags. *)
Definition parse_plat_toc_flags (flags toc_flags : Z) : T Z :=
  if 0xffff <? flags then log_errx else mret (Some (Z.lor toc_flags (Z.shiftl flags 32))).
Definition parse_flags (flags : option Z) : T Z :=
  match flags with Some f => parse_plat_toc_flags f 0 | None => mret (Some 0) end.

Definition create_cmd (flags : option Z) (args : list (option (list Z))) : T (list Z) :=
  and_then (parse_flags flags) (fun toc_flags =>
  and_then (update_fip args) (fun _ => f ← pack_images toc_flags; mret (Some f))).
(** [file] is the package named on the command line; it is read only if the file to be written exists
    (which is the same one without [--out]). *)
Definition update_cmd (outfile_exists : bool) (file : option (list Z)) (flags : option Z) (args : list (option (list Z))) : T (list Z) :=
  and_then (parse_flags flags) (fun toc_flags =>
  and_then (if outfile_exists then
              match file with
              | Some file => and_then (parse_fip file) (fun h => mret (Some (header_flags h)))
              | None => log_errx
              end
            else mret (Some 0)) (fun header_flags =>
  let header_flags := match flags with Some _ => Z.land header_flags (u64 (Z.lnot (Z.shiftl 0xffff 32))) | None => header_flags end in
  let toc_flags := Z.lor header_flags toc_flags in
  and_then (update_fip args) (fun _ => f ← pack_images toc_flags; mret (Some f)))).

Fixpoint remove_loop (i : nat) (which : list bool) : M tool unit :=
  match which with
  | [] => mret tt
  | false :: which => remove_loop (S i) which
  | true :: which =>
      ls ← gets links;
      l ← must (ls !! i);
      match l with Some p => remove_image p | None => mret tt end;;
      remove_loop (S i) which
  end.
Definition remove_cmd (old : list Z) (which : list bool) : T (list Z) :=
  and_then (parse_fip old) (fun toc_header =>
  remove_loop 0 which;; f ← pack_images (header_flags toc_header); mret (Some f)).

(** What is written for each known image of the package. *)
Definition image_at (l : list (nat * image_t)) (link : option nat) : option (option (list Z)) :=
  match link with
  | None => Some None
  | Some p => i ← index_of p l; im ← l !! i; Some (Some (buffer (snd im)))
  end.
Definition unpack_cmd (file : list Z) : T (list (option (list Z))) :=
  and_then (parse_fip file) (fun _ =>
  l ← gets images; ls ← gets links; r ← must (mapM (image_at l) ls); mret (Some r)).
End Fiptool.
