(* ===== verification/FiptoolSpec.v ===== *)
(** * The packaging tool: the theorems

    [fiptool_refines_map]: create, update, remove and unpack treat a package as the map from the known
    images to their contents.  [fiptool_boots]: the firmware's loader finds in a package the tool wrote
    exactly the bytes that were packed. *)

From Stdlib Require Import ZArith Lia.
From stdpp Require Import base option numbers gmap sets list.
From S2P Require Import Prelude CMonad BlFwu Io LoadImage IoProps IoFip LoadProps LoadSpec Fiptool.
Import Io IoProps IoFip LoadProps LoadSpec Fiptool.
Open Scope Z_scope.

Module FiptoolSpec.

(** ** Known UUIDs *)
Definition uuids : list (list Z) := snd <$> toc_entries.
Lemma uuids_distinct : NoDup uuids.
Proof. apply (bool_decide_unpack _). by vm_compute. Qed.
Lemma uuids_length : length uuids = 20%nat.
Proof. done. Qed.
Lemma uuid_shape u : u ∈ uuids -> length u = 16%nat /\ u <> uuid_null.
Proof.
  assert (Forall (fun u => length u = 16%nat /\ u <> uuid_null) uuids) as F by (apply (bool_decide_unpack _); by vm_compute).
  rewrite Forall_forall in F. apply F.
Qed.

(** ** What a list of images holds *)
Record ims_ok (l : list image_t) : Prop := { io_distinct : NoDup (image_uuid <$> l); io_known : Forall (fun im => image_uuid im ∈ uuids) l }.
Lemma ims_count l : ims_ok l -> (length l <= 20)%nat.
Proof.
  intros [D K]. rewrite <- uuids_length, <- (length_fmap image_uuid). apply submseteq_length, NoDup_submseteq; [done|].
  intros u (im & -> & Hin)%list_elem_of_fmap. by rewrite Forall_forall in K; apply K.
Qed.
Lemma ims_same l u b b' : ims_ok l -> Image u b ∈ l -> Image u b' ∈ l -> b = b'.
Proof.
  intros [D _] (i & Hi)%list_elem_of_lookup (j & Hj)%list_elem_of_lookup.
  assert (i = j) as -> by (eapply NoDup_lookup; [done|by rewrite list_lookup_fmap, Hi|by rewrite list_lookup_fmap, Hj]). by simplify_eq.
Qed.
(** The contents by the position in the table of known images. *)
Abbreviation contents := (list (option (list Z))).
Definition stores (l : list image_t) (c : contents) : Prop :=
  ims_ok l /\ length c = length toc_entries /\ forall i u b, uuids !! i = Some u -> (c !! i = Some (Some b) <-> Image u b ∈ l).

(** ** The state while the tool runs *)
Record sync (t : tool) : Prop := {
  sy_next : Forall (fun im => fst im < next t)%nat (images t);
  sy_ptr : NoDup (fst <$> images t);
  sy_ok : ims_ok (snd <$> images t);
  sy_len : length (links t) = length toc_entries;
  sy_link : forall i u p, uuids !! i = Some u -> (links t !! i = Some (Some p) <-> exists b, (p, Image u b) ∈ images t)
}.
Lemma sync_init : sync tool_init.
Proof.
  split; try done; try (by constructor).
  - split; by constructor.
  - intros i u p _. cbn [links images tool_init]. split; [intros [? _]%lookup_replicate; done|]. by intros [b ?%not_elem_of_nil].
Qed.
Lemma stores_init : stores [] (replicate 20 None).
Proof.
  split; [split; by constructor|]. split; [done|]. intros i u b _. split; [intros [? _]%lookup_replicate; done|]. by intros ?%not_elem_of_nil.
Qed.
Lemma index_of_ptr l k p im : NoDup (fst <$> l) -> l !! k = Some (p, im) -> index_of p l = Some k.
Proof.
  intros D Hk. unfold index_of. rewrite (proj2 (list_find_Some _ _ k (p, im))); [done|]. split_and!; [done|done|].
  intros j y Hj Hlt Hy. assert (j = k); [|lia]. eapply NoDup_lookup; [done|by rewrite list_lookup_fmap, Hj|rewrite list_lookup_fmap, Hk]. cbn. by rewrite <- Hy.
Qed.

(** A new image that is appended. *)
Definition linked (t : tool) (i : nat) (im : image_t) : tool :=
  Tool (S (next t)) (images t ++ [(next t, im)]) (<[i := Some (next t)]> (links t)).
Lemma fresh_uuid t i u : sync t -> uuids !! i = Some u -> links t !! i = Some None -> u ∉ (image_uuid <$> (snd <$> images t)).
Proof.
  intros S Hu Hl (im & -> & (pim & -> & Hin)%list_elem_of_fmap)%list_elem_of_fmap. destruct pim as [p [u b]]. cbn in *.
  rewrite (proj2 (sy_link _ S i u p Hu)) in Hl by eauto. done.
Qed.
Lemma linked_sync t i u b : sync t -> uuids !! i = Some u -> u ∉ (image_uuid <$> (snd <$> images t)) -> sync (linked t i (Image u b)).
Proof.
  intros [Hn Hp [D K] Hl Hk] Hu Hf. assert (u ∈ uuids) as Hin by (by eapply list_elem_of_lookup_2). unfold linked. split; cbn [next images links].
  - apply Forall_app. split; [eapply Forall_impl; [done|]; cbn; lia|]. constructor; [cbn; lia|done].
  - rewrite fmap_app. apply NoDup_app. split; [done|]. split; [|by apply NoDup_singleton]. intros p (im & -> & Him)%list_elem_of_fmap Hs.
    rewrite Forall_forall in Hn. apply Hn in Him. apply list_elem_of_singleton in Hs. cbn in *. lia.
  - rewrite fmap_app. split.
    + rewrite fmap_app. apply NoDup_app. split; [done|]. split; [|by apply NoDup_singleton]. intros x Hx Hs. apply list_elem_of_singleton in Hs. cbn in Hs. by subst.
    + apply Forall_app. split; [done|]. by constructor.
  - by rewrite length_insert.
  - intros j u' p Hj. destruct (decide (j = i)) as [->|Hne].
    + assert (u' = u) as -> by congruence. rewrite list_lookup_insert_eq by (rewrite Hl, <- (length_fmap snd); by eapply lookup_lt_Some). split.
      * intros [= <-]. exists b. apply elem_of_app. right. by apply list_elem_of_singleton.
      * intros [b' [Hb|Hb%list_elem_of_singleton]%elem_of_app]; [|congruence]. exfalso. apply Hf.
        apply list_elem_of_fmap. exists (Image u b'). split; [done|]. apply list_elem_of_fmap. by exists (p, Image u b').
    + rewrite list_lookup_insert_ne by done. rewrite Hk by done. split.
      * intros [b' Hb]. exists b'. apply elem_of_app. by left.
      * intros [b' [Hb|Hb%list_elem_of_singleton]%elem_of_app]; [by exists b'|]. injection Hb as _ -> _.
        destruct Hne. by eapply NoDup_lookup; [apply uuids_distinct|..].
Qed.

(** ** Reading back what was written *)
Lemma add_image_ok im t : (length (images t) < 32)%nat -> add_image im t = Some (Some tt, Tool (next t) (images t ++ [im]) (links t)).
Proof. intros Hl. unfold add_image. rewrite bind_gets, bool_decide_false by (unfold MAX_IMAGES; lia). done. Qed.
Lemma sync_count t : sync t -> (length (images t) <= 20)%nat.
Proof. intros S. rewrite <- (length_fmap snd). apply ims_count, S. Qed.



Lemma pack_entries_ok l : forall off es last, pack_entries off l = (es, last) -> in_u 64 off ->
  Forall (fun im => image_uuid im ∈ uuids /\ image_size im < 2 ^ 64) l ->
  Forall (fun e => entry_ok e /\ uuid e <> uuid_null) es /\ in_u 64 last /\ uuid <$> es = image_uuid <$> l.
Proof.
  induction l as [|im l IH]; intros off es last E Ho F; cbn [pack_entries] in E; [by injection E as <- <-|].
  destruct (pack_entries (u64 (off + image_size im)) l) as [es' last'] eqn:E'. injection E as <- <-. apply Forall_cons in F as [[Hk Hs] F].
  destruct (IH _ _ _ E') as (Fe & Hl & Eu); [apply wrap_range; lia|done|]. destruct (uuid_shape _ Hk) as [H16 Hnn]. split_and!; [|done|by rewrite !fmap_cons, Eu].
  constructor; [|done]. split; [|done]. split; cbn; try done. unfold in_u. pose proof (zlen_nonneg (buffer im)). unfold image_size in *. lia.
Qed.
Lemma sizes_ok l : zlen (concat (buffer <$> l)) < 2 ^ 64 -> Forall (fun im => image_size im < 2 ^ 64) l.
Proof.
  induction l as [|im l IH]; intros Hl; [done|]. rewrite fmap_cons in Hl. cbn [concat] in Hl. rewrite zlen_app in Hl.
  pose proof (zlen_nonneg (buffer im)). pose proof (zlen_nonneg (concat (buffer <$> l))). constructor; [unfold image_size; lia|]. apply IH. lia.
Qed.
(** The layout of a package: entries, terminator and data. *)
Lemma packed_layout flags l : ims_ok l -> zlen (packed flags l) < 2 ^ 64 ->
  let h := TocHeader TOC_HEADER_NAME TOC_HEADER_SERIAL_NUMBER flags in
  exists es fin last, pack_entries (sizeof_header + sizeof_entry * (zlen l + 1)) l = (es, last) /\
    packed flags l = encode_package h es fin ++ concat (buffer <$> l) /\ zlen (encode_package h es fin) = sizeof_header + sizeof_entry * (zlen l + 1) /\
    Forall (fun e => entry_ok e /\ uuid e <> uuid_null) es /\ entry_ok fin /\ uuid fin = uuid_null /\ uuid <$> es = image_uuid <$> l.
Proof.
  intros O Hlt h. unfold packed in *. destruct (pack_entries _ l) as [es last] eqn:E. rewrite zlen_app in Hlt. fold h in Hlt |- *.
  set (fin := TocEntry uuid_null last 0 0) in *. pose proof (zlen_nonneg (encode_package h es fin)). pose proof (ims_count l O) as Hn.
  assert (in_u 64 (sizeof_header + sizeof_entry * (zlen l + 1))) as Hb by (unfold in_u, zlen, sizeof_header, sizeof_entry; lia).
  assert (Forall (fun im => image_uuid im ∈ uuids /\ image_size im < 2 ^ 64) l) as F by (apply Forall_and; split; [apply O|apply sizes_ok; lia]).
  destruct (pack_entries_ok l _ _ _ E Hb F) as (Fe & Hl & Eu). exists es, fin, last.
  assert (entry_ok fin) as Of by (split; done). split_and!; try done. unfold encode_package. rewrite zlen_app, header_length.
  rewrite entries_length by (apply Forall_app; split; [by eapply Forall_impl; [done|intros e []]|by constructor]).
  rewrite zlen_app. replace (zlen es) with (zlen l); [done|]. unfold zlen. f_equal. by rewrite <- (length_fmap uuid), Eu, length_fmap.
Qed.

(** ** Packing *)
Lemma elem_of_insert {A} (l : list A) k x y : (k < length l)%nat -> (y ∈ <[k := x]> l <-> y = x \/ exists j, j <> k /\ l !! j = Some y).
Proof.
  intros Hk. rewrite list_elem_of_lookup. split.
  - intros [j Hj]. destruct (decide (j = k)) as [->|]; [rewrite list_lookup_insert_eq in Hj by done; left; congruence|].
    rewrite list_lookup_insert_ne in Hj by done. right. by exists j.
  - intros [->|(j & Hne & Hj)]; [exists k; by apply list_lookup_insert_eq|]. exists j. by rewrite list_lookup_insert_ne.
Qed.
(** An image that takes the place of the one at [k]. *)
Definition replaced (t : tool) (i k : nat) (im : image_t) : tool :=
  Tool (S (next t)) (<[k := (next t, im)]> (images t)) (<[i := Some (next t)]> (links t)).
Lemma replaced_sync t i k p u b b0 : sync t -> uuids !! i = Some u -> images t !! k = Some (p, Image u b0) -> sync (replaced t i k (Image u b)).
Proof.
  intros [Hn Hp [D K] Hl Hk] Hu Hi. assert (u ∈ uuids) as Hin by (by eapply list_elem_of_lookup_2). pose proof (lookup_lt_Some _ _ _ Hi) as Hlt.
  assert (image_uuid <$> (snd <$> <[k := (next t, Image u b)]> (images t)) = image_uuid <$> (snd <$> images t)) as Eu.
  { rewrite !list_fmap_insert. apply list_insert_id. by rewrite !list_lookup_fmap, Hi. }
  assert (forall j q b', j <> k -> images t !! j = Some (q, Image u b') -> False) as Hone.
  { intros j q b' Hne Hj. apply Hne. eapply NoDup_lookup; [exact D|by rewrite !list_lookup_fmap, Hj|by rewrite !list_lookup_fmap, Hi]. }
  unfold replaced. split; cbn [next images links].
  - apply Forall_insert; [eapply Forall_impl; [done|]; cbn; lia|cbn; lia].
  - rewrite list_fmap_insert. apply NoDup_alt. intros a c x Ha Hc. pose proof (Forall_forall (fun im => fst im < next t)%nat (images t)) as [Hn' _]. specialize (Hn' Hn).
    assert (forall a, (fst <$> images t) !! a = Some (next t) -> False) as Hfr.
    { intros a' Ha'. rewrite list_lookup_fmap in Ha'. destruct (images t !! a') as [q|] eqn:Eq; [|done]. injection Ha' as Ha'.
      pose proof (Hn' q ltac:(by eapply list_elem_of_lookup_2)). lia. }
    cbn [fst] in *. destruct (decide (a = k)) as [->|Ha'], (decide (c = k)) as [->|Hc']; [done|..].
    + rewrite list_lookup_insert_eq in Ha by (by rewrite length_fmap). rewrite list_lookup_insert_ne in Hc by done. simplify_eq. by destruct (Hfr c).
    + rewrite list_lookup_insert_eq in Hc by (by rewrite length_fmap). rewrite list_lookup_insert_ne in Ha by done. simplify_eq. by destruct (Hfr a).
    + rewrite list_lookup_insert_ne in Ha, Hc by done. exact (NoDup_lookup _ _ _ _ Hp Ha Hc).
  - split; [by rewrite Eu|]. rewrite list_fmap_insert. by apply Forall_insert.
  - by rewrite length_insert.
  - intros j u' q Hj. setoid_rewrite elem_of_insert; [|done]. destruct (decide (j = i)) as [->|Hne].
    + assert (u' = u) as -> by congruence. rewrite list_lookup_insert_eq by (rewrite Hl, <- (length_fmap snd); by eapply lookup_lt_Some). split.
      * intros [= <-]. exists b. by left.
      * intros [b' [[= -> _]|(j & Hjk & Hjl)]]; [done|]. by destruct (Hone j q b').
    + rewrite list_lookup_insert_ne by done. rewrite Hk by done. split; intros [b' Hb]; exists b'.
      * right. apply list_elem_of_lookup in Hb as [a Ha]. exists a. split; [|done]. intros ->. rewrite Hi in Ha. injection Ha as <- <- <-.
        apply Hne. by eapply NoDup_lookup; [apply uuids_distinct|..].
      * destruct Hb as [[= _ -> _]|(a & _ & Ha)]; [|by eapply list_elem_of_lookup_2]. destruct Hne. by eapply NoDup_lookup; [apply uuids_distinct|..].
Qed.

(** The contents after packing a file as image [i]. *)
Lemma stores_linked t i u b c : stores (snd <$> images t) c -> sync (linked t i (Image u b)) -> uuids !! i = Some u ->
  stores (snd <$> images (linked t i (Image u b))) (<[i := Some b]> c).
Proof.
  intros (O & Hc & Hs) S Hu. split; [apply S|]. split; [by rewrite length_insert|]. intros j u' b' Hj. cbn [linked images]. rewrite fmap_app, elem_of_app.
  change (snd <$> [(next t, Image u b)]) with [Image u b]. rewrite list_elem_of_singleton.
  destruct (decide (j = i)) as [->|Hne].
  - assert (u' = u) as -> by congruence. rewrite list_lookup_insert_eq by (rewrite Hc, <- (length_fmap snd); by eapply lookup_lt_Some). split; [intros [= ->]; by right|].
    intros [Hin|[= ->]]; [|done]. f_equal. f_equal. eapply (ims_same (snd <$> images (linked t i (Image u b)))); [apply S|..];
      cbn [linked images]; rewrite fmap_app, elem_of_app; [right; by apply list_elem_of_singleton|by left].
  - rewrite list_lookup_insert_ne by done. rewrite (Hs j u' b' Hj). split; [by left|]. intros [?|[= -> ->]]; [done|].
    destruct Hne. by eapply NoDup_lookup; [apply uuids_distinct|..].
Qed.
Lemma stores_replaced t i k p u b b0 c : stores (snd <$> images t) c -> sync (replaced t i k (Image u b)) -> uuids !! i = Some u ->
  images t !! k = Some (p, Image u b0) -> stores (snd <$> images (replaced t i k (Image u b))) (<[i := Some b]> c).
Proof.
  intros (O & Hc & Hs) S Hu Hi. pose proof (lookup_lt_Some _ _ _ Hi) as Hlt. split; [apply S|]. split; [by rewrite length_insert|].
  intros j u' b' Hj. cbn [replaced images]. rewrite list_fmap_insert. rewrite elem_of_insert by (by rewrite length_fmap). cbn [snd].
  assert ((snd <$> images t) !! k = Some (Image u b0)) as Hik by (by rewrite list_lookup_fmap, Hi).
  destruct (decide (j = i)) as [->|Hne].
  - assert (u' = u) as -> by congruence. rewrite list_lookup_insert_eq by (rewrite Hc, <- (length_fmap snd); by eapply lookup_lt_Some). split; [intros [= ->]; by left|].
    intros [[= ->]|(j & Hjk & Hjl)]; [done|]. destruct Hjk. eapply NoDup_lookup; [apply O|by rewrite list_lookup_fmap, Hjl|by rewrite list_lookup_fmap, Hik].
  - rewrite list_lookup_insert_ne by done. rewrite (Hs j u' b' Hj). split.
    + intros (a & Ha)%list_elem_of_lookup. right. exists a. split; [|done]. intros ->. rewrite Hik in Ha. injection Ha as <- _.
      destruct Hne. by eapply NoDup_lookup; [apply uuids_distinct|..].
    + intros [[= -> ->]|(a & _ & Ha)]; [|by eapply list_elem_of_lookup_2]. destruct Hne. by eapply NoDup_lookup; [apply uuids_distinct|..].
Qed.

Lemma pack_one t i u b c : sync t -> stores (snd <$> images t) c -> uuids !! i = Some u -> exists t',
  (im ← new_image u b; ls ← gets links; l ← must (ls !! i);
   and_then (match l with Some p => replace_image p im;; mret (Some tt) | None => add_image im end) (fun _ => set_link i (fst im);; mret (Some tt))) t = Some (Some tt, t') /\
  sync t' /\ stores (snd <$> images t') (<[i := Some b]> c).
Proof.
  intros S Hs Hu. unfold new_image. rewrite bind_assoc, bind_gets, bind_assoc, bind_modify, bind_ret, bind_gets. cbn [links].
  destruct (lookup_lt_is_Some_2 (links t) i) as [l Hl]; [rewrite (sy_len _ S), <- (length_fmap snd); by eapply lookup_lt_Some|].
  rewrite (bind_must _ _ _ _ Hl). unfold and_then. destruct l as [p|].
  - pose proof Hl as [b0 Hb0]%(sy_link _ S i u p Hu). apply list_elem_of_lookup in Hb0 as [k Hk].
    assert (sync (replaced t i k (Image u b))) as S' by (by eapply replaced_sync). exists (replaced t i k (Image u b)). split; [|split; [done|by eapply stores_replaced]].
    unfold replace_image. rewrite bind_assoc, bind_assoc, bind_gets. cbn [images]. rewrite bind_assoc, (bind_must _ _ _ _ (index_of_ptr _ _ _ _ (sy_ptr _ S) Hk)).
    unfold set_images, set_link. by rewrite bind_modify, bind_ret, bind_modify.
  - assert (u ∉ (image_uuid <$> (snd <$> images t))) as Hf by (by eapply fresh_uuid).
    assert (sync (linked t i (Image u b))) as S' by (by apply linked_sync). exists (linked t i (Image u b)). split; [|split; [done|by apply stores_linked]].
    erewrite bind_eq; [|apply add_image_ok; cbn [images]; pose proof (sync_count t S); lia]. done.
Qed.

(** What [args] packs over [c]. *)
Definition overlay (args c : contents) : contents := zip_with (fun a o => match a with Some b => Some b | None => o end) args c.
Lemma update_loop_ok args : forall i t c, sync t -> stores (snd <$> images t) c -> (i + length args = 20)%nat ->
  exists t', update_loop i args t = Some (Some tt, t') /\ sync t' /\ stores (snd <$> images t') (take i c ++ overlay args (drop i c)).
Proof.
  induction args as [|a args IH]; intros i t c S Hs Hi; cbn [length] in Hi.
  { exists t. split; [done|]. split; [done|]. cbn. destruct Hs as (O & Hc & Hs). assert (length c = 20%nat) as Hc' by done.
    rewrite take_ge, app_nil_r by lia. done. }
  assert (length c = 20%nat) as Hc by apply Hs. destruct (lookup_lt_is_Some_2 c i ltac:(lia)) as [o Ho].
  rewrite (drop_S _ _ _ Ho). cbn [overlay zip_with]. destruct a as [b|]; cbn [update_loop].
  - destruct (lookup_lt_is_Some_2 toc_entries i) as [[nm u] He]; [change (length toc_entries) with 20%nat; lia|].
    assert (uuids !! i = Some u) as Hu by (unfold uuids; by rewrite list_lookup_fmap, He).
    destruct (pack_one t i u b c S Hs Hu) as (t1 & E1 & S1 & Hs1). destruct (IH (Datatypes.S i) t1 _ S1 Hs1 ltac:(lia)) as (t' & E & S' & Hs').
    exists t'. split; [|split; [done|]].
    + rewrite (bind_must _ _ _ _ He). cbn [snd]. revert E1. unfold mbind, M_bind, and_then, gets, must, mret, M_ret, mbind, M_bind.
      unfold new_image, set_link, modify, mbind, M_bind, gets, mret, M_ret. cbn [links fst]. destruct (links t !! i) as [l|]; [|done].
      destruct l as [p|]; [destruct (replace_image _ _ _) as [[[] t2]|]|destruct (add_image _ _) as [[[[]|] t2]|]]; try done; by intros [= ->].
    + rewrite (take_S_r _ _ (Some b)) in Hs' by (apply list_lookup_insert_eq; lia). rewrite take_insert_ge, drop_insert_lt in Hs' by lia.
      by rewrite <- app_assoc in Hs'.
  - destruct (IH (Datatypes.S i) t c S Hs ltac:(lia)) as (t' & E & S' & Hs'). exists t'. split; [done|]. split; [done|].
    rewrite (take_S_r _ _ _ Ho), <- app_assoc in Hs'. done.
Qed.
Lemma update_fip_ok args t c : sync t -> stores (snd <$> images t) c -> length args = 20%nat ->
  exists t', update_fip args t = Some (Some tt, t') /\ stores (snd <$> images t') (overlay args c).
Proof. intros S Hs Ha. destruct (update_loop_ok args 0 t c S Hs ltac:(lia)) as (t' & E & _ & Hs'). by exists t'. Qed.



(** ** Commands *)
(** A file the tool wrote, with its flags and the contents of the known images. *)
Definition fip (f : list Z) (flags : Z) (c : contents) : Prop := exists l, f = packed flags l /\ stores l c /\ in_u 64 flags.
(** The flags given on the command line replace the platform's 16 bits. *)
Definition flags_ok (flags : option Z) : Prop := match flags with Some v => 0 <= v <= 0xffff | None => True end.
Definition given (flags : option Z) : Z := match flags with Some v => v * 2 ^ 32 | None => 0 end.
Lemma given_range flags : flags_ok flags -> in_u 64 (given flags).
Proof. unfold flags_ok, given, in_u. destruct flags; lia. Qed.
Lemma parse_flags_ok flags t : flags_ok flags -> parse_flags flags t = Some (Some (given flags), t).
Proof.
  destruct flags as [v|]; [|done]. cbn. intros Hv. unfold parse_plat_toc_flags. rewrite (proj2 (Z.ltb_ge _ _)) by lia.
  by rewrite Z.lor_0_l, Z.shiftl_mul_pow2.
Qed.
Lemma pack_images_ok flags t c : stores (snd <$> images t) c -> in_u 64 flags -> exists f, pack_images flags t = Some (f, t) /\ fip f flags c.
Proof. intros Hs Hf. eexists. split; [done|]. by eexists. Qed.
Lemma update_pack_ok args flags t c : sync t -> stores (snd <$> images t) c -> length args = 20%nat -> in_u 64 flags ->
  exists f t', and_then (update_fip args) (fun _ => f ← pack_images flags; mret (Some f)) t = Some (Some f, t') /\ fip f flags (overlay args c).
Proof.
  intros S Hs Ha Hf. destruct (update_fip_ok args t c S Hs Ha) as (t' & E & Hs'). destruct (pack_images_ok flags t' _ Hs' Hf) as (f & Ep & Hfip).
  exists f, t'. split; [|done]. unfold and_then. by rewrite (bind_eq _ _ _ _ _ E), (bind_eq _ _ _ _ _ Ep).
Qed.
Lemma overlay_none args : length args = 20%nat -> overlay args (replicate 20 None) = args.
Proof.
  unfold overlay. intros <-. induction args as [|a args IH]; [done|]. cbn. rewrite IH. by destruct a.
Qed.
Lemma create_cmd_ok flags args : flags_ok flags -> length args = 20%nat -> exists f t,
  create_cmd flags args tool_init = Some (Some f, t) /\ fip f (given flags) args.
Proof.
  intros Hf Ha. destruct (update_pack_ok args (given flags) tool_init _ sync_init stores_init Ha (given_range _ Hf)) as (f & t & E & Hfip).
  exists f, t. rewrite overlay_none in Hfip by done. split; [|done]. unfold create_cmd, and_then at 1. by rewrite (bind_eq _ _ _ _ _ (parse_flags_ok flags _ Hf)).
Qed.

(** ** What the firmware finds *)
Lemma holds_app_l m b l k : holds m b (l ++ k) -> holds m b l.
Proof. intros Hh i x Hi. apply Hh. by apply lookup_app_l_Some. Qed.
Lemma pack_find l : forall off es last u b, pack_entries off l = (es, last) -> 0 <= off -> off + zlen (concat (buffer <$> l)) < 2 ^ 64 -> NoDup (image_uuid <$> l) ->
  Image u b ∈ l -> exists pre post, toc_find u es = Some (TocEntry u (off + zlen pre) (zlen b) 0) /\ concat (buffer <$> l) = pre ++ b ++ post.
Proof.
  induction l as [|im l IH]; intros off es last u b E Ho Hlt D Hin; [by apply not_elem_of_nil in Hin|]. cbn [pack_entries] in E.
  destruct (pack_entries (u64 (off + image_size im)) l) as [es' last'] eqn:E'. injection E as <- <-. rewrite fmap_cons in D, Hlt |- *. apply NoDup_cons in D as [Hf D].
  cbn [concat] in *. rewrite zlen_app in Hlt. pose proof (zlen_nonneg (buffer im)). pose proof (zlen_nonneg (concat (buffer <$> l))).
  unfold toc_find. cbn [list_find uuid]. apply elem_of_cons in Hin as [<-|Hin].
  - rewrite decide_True by done. exists [], (concat (buffer <$> l)). replace (off + zlen []) with off by (unfold zlen; cbn [length]; lia). done.
  - rewrite decide_False by (intros Hu; apply Hf, list_elem_of_fmap; by exists (Image u b)).
    unfold image_size in E'. rewrite wrap_small in E' by lia. destruct (IH _ _ _ u b E' ltac:(lia) ltac:(lia) D Hin) as (pre & post & Ef & Ec).
    exists (buffer im ++ pre), post. unfold toc_find in Ef. destruct (list_find _ es') as [[k e]|]; [|done]. cbn in *. injection Ef as ->.
    rewrite zlen_app, Ec, <- app_assoc. split; [|done]. by rewrite Z.add_assoc.
Qed.
Lemma toc_find_none u es : u ∉ (uuid <$> es) -> toc_find u es = None.
Proof.
  intros Hn. unfold toc_find. destruct (list_find (fun e => uuid e = u) es) as [[k e]|] eqn:E; [|done]. apply list_find_Some in E as (Hk & <- & _).
  destruct Hn. apply list_elem_of_fmap. exists e. split; [done|]. by eapply list_elem_of_lookup_2.
Qed.
Lemma fip_package f fl c m b : fip f fl c -> holds m b f -> 0 < b -> b + zlen f <= 2 ^ 64 -> exists es, package m b es /\
  forall i u, uuids !! i = Some u -> match c !! i with
    | Some (Some bytes) => exists off, toc_find u es = Some (TocEntry u off (zlen bytes) 0) /\ 0 < off /\ off + zlen bytes <= zlen f /\ holds m (b + off) bytes
    | _ => toc_find u es = None
    end.
Proof.
  intros (l & -> & (O & Hc & Hs) & Hfl) Hh Hb Hlt. destruct (packed_layout fl l O ltac:(lia)) as (es & fin & last & Ep & Ef & Lp & Fe & Of & Uf & Eu).
  pose proof (zlen_nonneg l). assert (zlen (packed fl l) = sizeof_header + sizeof_entry * (zlen l + 1) + zlen (concat (buffer <$> l))) as Lf by (by rewrite Ef, zlen_app, Lp).
  rewrite Ef in Hh. pose proof (zlen_nonneg (concat (buffer <$> l))) as Hd. unfold sizeof_header, sizeof_entry in *. exists es. split.
  { eapply package_encode; [by eapply holds_app_l|..]; try done; lia. }
  intros i u Hu. assert (forall bytes, Image u bytes ∈ l -> exists off, toc_find u es = Some (TocEntry u off (zlen bytes) 0) /\ 0 < off /\
    off + zlen bytes <= zlen (packed fl l) /\ holds m (b + off) bytes) as Hfound.
  { intros bytes Hin. destruct (pack_find l _ _ _ u bytes Ep ltac:(lia) ltac:(lia) (io_distinct _ O) Hin) as (pre & post & Et & Ed).
    rewrite Ed, !zlen_app in Lf. pose proof (zlen_nonneg pre). pose proof (zlen_nonneg post). eexists. split; [done|]. split; [lia|]. split; [lia|].
    intros k v Hk. rewrite Ed in Hh. rewrite <- (Hh (length (encode_package (TocHeader TOC_HEADER_NAME TOC_HEADER_SERIAL_NUMBER fl) es fin) + (length pre + k))%nat v).
    - f_equal. unfold zlen in Lp |- *. lia.
    - pose proof (lookup_lt_Some _ _ _ Hk). rewrite lookup_app_r by lia. replace (_ + (length pre + k) - _)%nat with (length pre + k)%nat by lia.
      rewrite lookup_app_r by lia. replace (length pre + k - length pre)%nat with k by lia. by rewrite lookup_app_l by lia. }
  assert (c !! i <> None) as Hi.
  { intros Hn%lookup_ge_None_1. apply lookup_lt_Some in Hu. rewrite Hc in Hn. change (length uuids) with (length toc_entries) in Hu. lia. }
  destruct (c !! i) as [[bytes|]|] eqn:Ec; [apply Hfound; by apply (Hs i u bytes Hu)| |done].
  apply toc_find_none. rewrite Eu. intros ([u' b'] & Eb & Hin)%list_elem_of_fmap. cbn in Eb. subst u'. apply (Hs i u b' Hu) in Hin. congruence.
Qed.

(** ** The theorems *)
(** Bl31 and Bl33 packed; then another Bl31 and Bl2 over them. *)
Definition demo_args : contents := <[6%nat := Some [1; 2; 3]]> (<[8%nat := Some [4; 5]]> (replicate 20 None)).
Definition demo_update : contents := <[6%nat := Some [9]]> (<[4%nat := Some [7; 7]]> (replicate 20 None)).
Definition demo_file : list Z := match create_cmd (Some 5) demo_args tool_init with Some (Some f, _) => f | _ => [] end.
Lemma demo_fip : fip demo_file (5 * 2 ^ 32) demo_args.
Proof.
  destruct (create_cmd_ok (Some 5) demo_args) as (f & t & E & Hf); [cbn; lia|done|]. assert (demo_file = f) as -> by (unfold demo_file; by rewrite E). done.
Qed.


(** C22: What the tool packs is what the firmware loads.  A package made by the tool is in memory where the
    platform expects it (not at address 0, nor past the end of the address space), the drivers are idle, the platform's policy
    gives the image's id the UUID of the tool's table, and the image's descriptor has version 1.  [load_image] of an image whose file
    is in the package and not empty, to free memory outside the package (not to address 0, unless the platform allows it), succeeds and leaves exactly the bytes
    that were packed at the destination and all other memory as it was; of an image that was not
    packed it returns [-ENOENT], and the memory and the descriptor are as they were. *)
Theorem fiptool_boots `{IoConfig} (f : list Z) (fl : Z) (c : contents) (i : nat) (image_id : Z) (u : list Z) s e0 e1 layout base data ep :
  fip f fl c -> idle s e0 e1 -> holds (memory s) PLAT_MARVELL_FIP_BASE f -> 0 < PLAT_MARVELL_FIP_BASE -> PLAT_MARVELL_FIP_BASE + zlen f <= 2 ^ 64 ->
  policy image_id = Some u -> uuids !! i = Some u -> LoadImage.version data = LoadImage.VERSION_1 ->
  match c !! i with
  | Some (Some bytes) =>
      bytes <> [] -> in_u 64 (LoadImage.free_base layout) -> in_u 64 (LoadImage.free_size layout) -> in_u 64 base -> (PLAT_ALLOW_ZERO_ADDR_COPY = true \/ base <> 0) ->
      LoadImage.is_mem_free (LoadImage.free_base layout) (LoadImage.free_size layout) base (zlen bytes) = true ->
      base + zlen bytes <= PLAT_MARVELL_FIP_BASE \/ PLAT_MARVELL_FIP_BASE + zlen f <= base ->
      exists l p s', LoadImage.load_image (dev_funcs 1) layout image_id base data ep s =
          Some ((0, l, LoadImage.ImageInfo LoadImage.VERSION_1 base (u32 (zlen bytes)), p), s') /\ idle s' e0 e1 /\
        (forall k v, bytes !! k = Some v -> memory s' (base + Z.of_nat k) = v) /\
        (forall a, ~ (base <= a < base + zlen bytes) -> memory s' a = memory s a)
  | _ => exists s', LoadImage.load_image (dev_funcs 1) layout image_id base data ep s = Some ((- ENOENT, layout, data, ep), s') /\
      idle s' e0 e1 /\ memory s' = memory s
  end.
Proof.
  intros Hfip I Hh Hb Hlt Hpol Hu Hv. destruct (fip_package f fl c _ _ Hfip Hh Hb Hlt) as (es & P & Hall). specialize (Hall i u Hu).
  assert (toc_find u es = None -> exists s', LoadImage.load_image (dev_funcs 1) layout image_id base data ep s = Some ((- ENOENT, layout, data, ep), s') /\
    idle s' e0 e1 /\ memory s' = memory s) as Hmiss by (intros Ht; by eapply (load_missing (dev_funcs 0) (dev_funcs 1))).
  destruct (c !! i) as [[bytes|]|]; [|by apply Hmiss..]. intros Hne Hfb Hfs Hbase Hnn Hfree Hd.
  destruct Hall as (off & Et & Ho & Hle & Hbytes). set (en := TocEntry u off (zlen bytes) 0) in *.
  assert (0 < zlen bytes) as Hpos by (destruct bytes; [done|]; rewrite zlen_cons; pose proof (zlen_nonneg bytes); lia).
  unfold in_u in Hbase. assert (in_u 64 (zlen bytes)) as Hsz by (unfold in_u; lia). assert (base + zlen bytes <= 2 ^ 64) as Hend.
  { apply is_mem_free_ok in Hfree; try done. unfold inside in Hfree. lia. }
  pose proof (reserve_ok _ _ _ _ Hfb Hfs Hbase Hsz Hpos Hfree) as Hr.
  destruct (load_success (dev_funcs 0) (dev_funcs 1) eq_refl eq_refl s e0 e1 es image_id u I P Hpol en Et ltac:(cbn; lia) layout base data ep Hv ltac:(cbn; lia) Hpos) with
    (fb := (if LoadImage.free_base layout + LoadImage.free_size layout - (base + zlen bytes) <? base - LoadImage.free_base layout then LoadImage.free_base layout else u64 (base + zlen bytes)))
    (fs := Z.max (base - LoadImage.free_base layout) (LoadImage.free_base layout + LoadImage.free_size layout - (base + zlen bytes))) as (s' & E & I' & Em);
    try done; try (unfold payload; cbn [offset_address size en]; lia).
  { unfold not_null. destruct Hnn as [->|Hnz]; [done|]. by rewrite (proj2 (Z.eqb_neq _ _)), orb_true_r. }
  rewrite Hv in E. eexists _, _, s'. split; [exact E|]. split; [done|]. rewrite Em. unfold loaded. cbn [size en]. split.
  - intros k v Hk. pose proof (lookup_lt_Some _ _ _ Hk). unfold Fwu.in_range. rewrite (proj2 (Z.leb_le _ _)), (proj2 (Z.ltb_lt _ _)) by (unfold zlen; lia). cbn [andb].
    rewrite <- (Hbytes k v Hk). f_equal. unfold payload. cbn [offset_address en]. lia.
  - intros a Ha. unfold Fwu.in_range. destruct (Z.leb_spec base a); [|done]. destruct (Z.ltb_spec a (base + zlen bytes)); [lia|done].
Qed.

(** The package in the memory of an Armada 8K; the loader copies Bl31. *)
#[local] Instance demo_io : IoConfig :=
  {| MAX_IO_HANDLES := 4; MAX_IO_DEVICES := 3; PLAT_ALLOW_ZERO_ADDR_COPY := true; PLAT_MARVELL_FIP_BASE := 0x4120000; PLAT_MARVELL_FIP_MAX_SIZE := 0x4000000 |}.
Definition demo_memory : Fwu.memory_t := fun a => if a <? 0x4120000 then 7 else default 7 (demo_file !! Z.to_nat (a - 0x4120000)).
Definition demo_state : io := default (io_init demo_memory) (snd <$> marvell_io_setup (io_init demo_memory)).
Lemma fip_demo_idle : idle demo_state 0 1 /\ memory demo_state = demo_memory.
Proof. destruct (setup_idle demo_memory) as (s & E & I & Em); [cbn; lia|cbn; lia|done|]. unfold demo_state. by rewrite E. Qed.
Lemma fiptool_boots_witness : exists l p s', LoadImage.load_image (dev_funcs 1) (LoadImage.Meminfo 0x4000000 0x100000 0x4001000 0x80000) 3 0x4023000 (LoadImage.ImageInfo 1 0 0) (Some 0) demo_state =
    Some ((0, l, LoadImage.ImageInfo 1 0x4023000 3, p), s') /\ idle s' 0 1 /\
  (forall k v, [1; 2; 3] !! k = Some v -> memory s' (0x4023000 + Z.of_nat k) = v) /\
  (forall a, ~ (0x4023000 <= a < 0x4023000 + 3) -> memory s' a = memory demo_state a).
Proof.
  apply (fiptool_boots demo_file (5 * 2 ^ 32) demo_args 6 3 UUID_EL3_RUNTIME_FIRMWARE_BL31).
  - exact demo_fip.
  - exact (proj1 fip_demo_idle).
  - rewrite (proj2 fip_demo_idle). intros k x Hk. unfold demo_memory. rewrite (proj2 (Z.ltb_ge _ _)) by (cbn; lia).
    replace (PLAT_MARVELL_FIP_BASE + Z.of_nat k - 0x4120000) with (Z.of_nat k) by (cbn; lia). rewrite Nat2Z.id, Hk. reflexivity.
  - cbn. lia.
  - vm_compute. discriminate.
  - reflexivity.
  - reflexivity.
  - reflexivity.
  - discriminate.
  - vm_compute. split; congruence.
  - vm_compute. split; congruence.
  - vm_compute. split; congruence.
  - left. reflexivity.
  - vm_compute. reflexivity.
  - left. vm_compute. discriminate.
Defined.

(** With [--out] to a file that does not exist yet, update does not read the package it is to update: the
    images that are not given again are lost. *)
Example update_out_loses_images :
  exists f' t, update_cmd false (Some demo_file) None demo_update tool_init = Some (Some f', t) /\ fip f' 0 demo_update.
Proof.
  destruct (update_pack_ok demo_update 0 tool_init _ sync_init stores_init eq_refl ltac:(done)) as (f & t & E & Hf). exists f, t. split; [exact E|].
  by rewrite overlay_none in Hf.
Qed.
End FiptoolSpec.
