(* ===== verification/EnvAttr.v ===== *)
(** * Attribute lists: common/env_attr.c, and [strim] of lib/linux_string.c

    An attribute list is ["name[:attributes],..."]; the variant built with [CONFIG_REGEX]
    is modelled, in which a name is a regular expression.  Strings are lists of bytes as
    in [HashTable], whose state supplies the outcomes of the allocations; the copies an
    entry is parsed in are values here.  The buffer [attributes] of [env_attr_lookup] has
    room for [cap] bytes, and a longer result is undefined. *)

From Stdlib Require Import ZArith Lia.
From stdpp Require Import base option list numbers.
From S2P Require Import Prelude CMonad CString HashTable.
Import Ctype Hash.
Open Scope Z_scope.

(** ** Strings *)
Fixpoint skip_spaces (s : list Z) : list Z :=
  match s with c :: s' => if isspace c then skip_spaces s' else s | [] => [] end.

(** The loop that steps back from the end over white space. *)
Fixpoint cut_spaces (s : list Z) : list Z :=
  match s with
  | [] => []
  | c :: s => match cut_spaces s with [] => if isspace c then [] else [c] | t => c :: t end
  end.
Definition strim (s : list Z) : list Z := cut_spaces (skip_spaces s).

(** What is before and after the character [strchr] finds. *)
Fixpoint split_chr (s : list Z) (c : Z) : list Z * option (list Z) :=
  match s with
  | [] => ([], None)
  | d :: s => if d =? c then ([], Some s) else let '(a, b) := split_chr s c in (d :: a, b)
  end.

Definition ENV_ATTR_LIST_DELIM := 44.
Definition ENV_ATTR_SEP := 58.
Definition ENOENT := 2.

(** ** Walking a list *)
Section walk.
Context {S : Type} (alloc : M S bool) (callback : list Z -> option (list Z) -> M S Z).

(** One entry: a copy is made, cut at the separator and trimmed. *)
Definition walk_entry (entry : list Z) : M S Z :=
  if bool_decide (entry = []) then mret 0
  else
    ok ← alloc;
    if negb ok then mret (- ENOMEM)
    else
      let '(name, attributes) := split_chr entry ENV_ATTR_SEP in
      let attributes := strim <$> attributes in
      let name := strim name in
      if bool_decide (name = []) then mret 0 else callback name attributes.

Fixpoint walk_loop (f : nat) (entry : list Z) : M S Z :=
  match f with
  | O => must None
  | Datatypes.S f =>
      let '(e, rest) := split_chr entry ENV_ATTR_LIST_DELIM in
      r ← walk_entry e;
      if negb (r =? 0) then mret r
      else match rest with Some rest => walk_loop f rest | None => mret 0 end
  end.
(** Every round takes a delimiter off the list. *)
Definition env_attr_walk (attr_list : option (list Z)) : M S Z :=
  match attr_list with
  | None => mret 1
  | Some l => walk_loop (Datatypes.S (length l)) l
  end.
End walk.

(** ** Looking a name up *)
Section lookup.
Context `{Slre}.

Record regex_callback_priv := Priv { searched_for : list Z; regex : option (list Z); attributes : option (list Z) }.

(** The walk's state: the callback's and the table's. *)
Definition walk_alloc : M (regex_callback_priv * state) bool :=
  fun ps => match alloc ps.2 with Some (b, s) => Some (b, (ps.1, s)) | None => None end.
Definition set_priv (p : regex_callback_priv) : M (regex_callback_priv * state) unit := modify (fun s => (p, s.2)).

Definition regex_of (name : list Z) : list Z := 94 :: name ++ [36].

Definition regex_callback (name : list Z) (attrs : option (list Z)) : M (regex_callback_priv * state) Z :=
  match slre_compile (regex_of name) with
  | None => mret EINVAL
  | Some re =>
      p ← gets fst;
      if negb (slre_match re (searched_for p)) then mret 0
      else
        ok ← walk_alloc;
        if negb ok then set_priv (Priv (searched_for p) None (attributes p));; mret (- ENOMEM)
        else
          set_priv (Priv (searched_for p) (Some (regex_of name)) (attributes p));;
          a ← must attrs;
          ok ← walk_alloc;
          if negb ok then set_priv (Priv (searched_for p) None None);; mret (- ENOMEM)
          else set_priv (Priv (searched_for p) (Some (regex_of name)) (Some a));; mret 0
  end.

(** The result and, when it is zero, the string copied out. *)
Definition env_attr_lookup (attr_list : option (list Z)) (name : list Z) (cap : Z) : H (Z * option (list Z)) :=
  match attr_list with
  | None => mret (- EINVAL, None)
  | Some l => fun s =>
      match env_attr_walk walk_alloc regex_callback (Some l) (Priv name None None, s) with
      | None => None
      | Some (retval, (p, s)) =>
          if negb (retval =? 0) then Some ((retval, None), s)
          else match regex p with
          | None => Some ((- ENOENT, None), s)
          | Some _ => a ← attributes p; if cap <? zlen a + 1 then None else Some ((0, Some a), s)
          end
      end
  end.
End lookup.
