(* ===== verification/EnvFlags.v ===== *)
(** * Types and access of variables: common/env_flags.c, common/env_callback.c

    With what they use of cmd/nvedit.c and common/env_common.c: [getenv], [getenv_f],
    [envmatch] and [getenv_default].  The build is that of the Armada boards ([CONFIG_REGEX]
    and [CONFIG_CMD_NET] set, [CONFIG_ENV_ACCESS_IGNORE_FORCE] not set); the static lists,
    which boards extend, the default environment and the linker list of callbacks are
    parameters.  Messages are not modelled. *)

From Stdlib Require Import ZArith Lia String Ascii.
From stdpp Require Import base option list numbers.
From S2P Require Import Prelude CMonad CString HashTable HashText EnvAttr.
Import Ctype Hash.
Open Scope Z_scope.

(** The bytes of a literal. *)
Definition str (s : string) : list Z := map (fun a => Z.of_N (N_of_ascii a)) (list_ascii_of_string s).

Definition env_flags_vartype_string := 0.
Definition env_flags_vartype_decimal := 1.
Definition env_flags_vartype_hex := 2.
Definition env_flags_vartype_bool := 3.
Definition env_flags_vartype_ipaddr := 4.
Definition env_flags_vartype_macaddr := 5.
Definition env_flags_vartype_end := 6.

Definition env_flags_varaccess_any := 0.
Definition env_flags_varaccess_readonly := 1.
Definition env_flags_varaccess_writeonce := 2.
Definition env_flags_varaccess_changedefault := 3.

Definition ENV_FLAGS_ATTR_MAX_LEN := 2.
Definition ENV_FLAGS_VARTYPE_BIN_MASK := 0x7.
Definition ENV_FLAGS_VARACCESS_PREVENT_DELETE := 0x8.
Definition ENV_FLAGS_VARACCESS_PREVENT_CREATE := 0x10.
Definition ENV_FLAGS_VARACCESS_PREVENT_OVERWR := 0x20.
Definition ENV_FLAGS_VARACCESS_PREVENT_NONDEF_OVERWR := 0x40.
Definition ENV_FLAGS_VARACCESS_BIN_MASK := 0x78.

Definition env_flags_vartype_rep : list Z := str "sdxbim".
Definition env_flags_varaccess_rep : list Z := str "aroc".
Definition env_flags_varaccess_mask : list Z :=
  [0;
   Z.lor ENV_FLAGS_VARACCESS_PREVENT_DELETE
     (Z.lor ENV_FLAGS_VARACCESS_PREVENT_CREATE ENV_FLAGS_VARACCESS_PREVENT_OVERWR);
   Z.lor ENV_FLAGS_VARACCESS_PREVENT_DELETE ENV_FLAGS_VARACCESS_PREVENT_OVERWR;
   Z.lor ENV_FLAGS_VARACCESS_PREVENT_DELETE ENV_FLAGS_VARACCESS_PREVENT_NONDEF_OVERWR].

(** ** Flags *)
(** [strchr(s, c) - s]. *)
Fixpoint chr_index (s : list Z) (c : Z) : option Z :=
  match s with
  | [] => None
  | d :: s => if d =? c then Some 0 else Z.succ <$> chr_index s c
  end.

Definition env_flags_parse_vartype (flags : list Z) : Z :=
  match flags with
  | c :: _ => default env_flags_vartype_string (chr_index env_flags_vartype_rep c)
  | [] => env_flags_vartype_string
  end.
Definition env_flags_parse_varaccess (flags : list Z) : Z :=
  match flags with
  | _ :: c :: _ => default env_flags_varaccess_any (chr_index env_flags_varaccess_rep c)
  | _ => env_flags_varaccess_any
  end.

Fixpoint binflags_loop (masks : list Z) (i binflags : Z) : Z :=
  match masks with
  | [] => env_flags_varaccess_any
  | m :: masks =>
      if m =? Z.land binflags ENV_FLAGS_VARACCESS_BIN_MASK then i else binflags_loop masks (i + 1) binflags
  end.
Definition env_flags_parse_varaccess_from_binflags (binflags : Z) : Z :=
  binflags_loop env_flags_varaccess_mask 0 binflags.

Definition env_parse_flags_to_bin (flags : list Z) : Z :=
  Z.lor (Z.land (env_flags_parse_vartype flags) ENV_FLAGS_VARTYPE_BIN_MASK)
        (default 0 (env_flags_varaccess_mask !! Z.to_nat (env_flags_parse_varaccess flags))).

(** ** Values *)
(** A pointer into a value is the rest of the string; at its end it reads the NUL. *)
Definition at_ (i : nat) (s : list Z) : Z := default 0 (s !! i).

Definition is_hex_prefix (value : list Z) : bool :=
  (at_ 0 value =? 48) && ((at_ 1 value =? 120) || (at_ 1 value =? 88)).

(** [i] counts down to zero; a negative count never gets there. *)
Fixpoint skip_digits (hex : bool) (value : list Z) (i : Z) : list Z :=
  match value with
  | [] => []
  | c :: value' =>
      if i =? 0 then value
      else if hex && negb (isxdigit c) then value
      else if negb hex && negb (isdigit c) then value
      else skip_digits hex value' (i - 1)
  end.
Definition skip_num (hex : bool) (value : list Z) (max_digits : Z) : list Z :=
  skip_digits hex (if hex && is_hex_prefix value then drop 2 value else value) max_digits.

(** The loops over the groups of an address; [n] groups are left. *)
Fixpoint eth_groups (n : nat) (cur : list Z) : Z :=
  match n with
  | O => 0
  | S n =>
      let e := skip_num true cur 2 in
      if bool_decide (length cur = length e) then -1
      else if bool_decide (length cur = length e + 2)%nat && is_hex_prefix cur then -1
      else if negb (at_ 0 e =? match n with O => 0 | _ => 58 end) then -1
      else eth_groups n (drop 1 e)
  end.
Definition eth_validate_ethaddr_str (addr : list Z) : Z := eth_groups 6 addr.

Fixpoint ip_groups (n : nat) (cur : list Z) : Z :=
  match n with
  | O => 0
  | S n =>
      let e := skip_num false cur 3 in
      if bool_decide (length cur = length e) then -1
      else if negb (at_ 0 e =? match n with O => 0 | _ => 46 end) then -1
      else ip_groups n (drop 1 e)
  end.

Definition bool_chars : list Z := str "1ytYT0nfNF".

Definition _env_flags_validate_type (value : list Z) (type : Z) : Z :=
  if type =? env_flags_vartype_string then 0
  else if type =? env_flags_vartype_decimal then
    if negb (at_ 0 (skip_num false value (-1)) =? 0) then -1 else 0
  else if type =? env_flags_vartype_hex then
    let e := skip_num true value (-1) in
    if negb (at_ 0 e =? 0) then -1
    else if bool_decide (length value = length e + 2)%nat && is_hex_prefix value then -1 else 0
  else if type =? env_flags_vartype_bool then
    if negb (bool_decide (at_ 0 value ∈ bool_chars)) then -1
    else if negb (at_ 1 value =? 0) then -1 else 0
  else if type =? env_flags_vartype_ipaddr then
    if negb (ip_groups 4 value =? 0) then -1 else 0
  else if type =? env_flags_vartype_macaddr then
    if negb (eth_validate_ethaddr_str value =? 0) then -1 else 0
  else if type =? env_flags_vartype_end then -1
  else 0.

(** ** Reading an environment image *)
Section image.
(** The bytes [env_get_char] reads: the stored or the default environment. *)
Context (env : list Z) (CONFIG_ENV_SIZE : Z).

Definition env_get_char (i : Z) : option Z := if i <? 0 then None else env !! Z.to_nat i.

(** Both strings at their end without a ['='] would let the comparison run on: undefined. *)
Fixpoint envmatch (s1 : list Z) (i2 : Z) : option Z :=
  c ← env_get_char i2;
  match s1 with
  | [] => if c =? 0 then None else if c =? 61 then Some (i2 + 1) else Some (-1)
  | d :: s1 =>
      if d =? c then if d =? 61 then Some (i2 + 1) else envmatch s1 (i2 + 1)
      else Some (-1)
  end.

(** The end of the entry; [inl] is the early return. *)
Fixpoint entry_end (f : nat) (nxt : Z) : option (Z + Z) :=
  match f with
  | O => None
  | S f =>
      c ← env_get_char nxt;
      if c =? 0 then Some (inr nxt)
      else if CONFIG_ENV_SIZE <=? nxt then Some (inl (-1)) else entry_end f (nxt + 1)
  end.

(** The characters copied, and whether the NUL was. *)
Fixpoint copy_out (len : nat) (val : Z) : option (list Z * bool) :=
  match len with
  | O => Some ([], false)
  | S len =>
      c ← env_get_char val;
      if c =? 0 then Some ([], true) else '(s, b) ← copy_out len (val + 1); Some (c :: s, b)
  end.

(** The result and the string in the buffer of [len] bytes. *)
Fixpoint getenv_f_loop (f : nat) (name : list Z) (len : Z) (i : Z) : option (Z * list Z) :=
  match f with
  | O => None
  | S f =>
      c ← env_get_char i;
      if c =? 0 then Some (-1, [])
      else
        e ← entry_end (S (length env)) i;
        match e with
        | inl r => Some (r, [])
        | inr nxt =>
            val ← envmatch name i;
            if val <? 0 then getenv_f_loop f name len (nxt + 1)
            else
              '(s, terminated) ← copy_out (Z.to_nat len) val;
              if terminated : bool then Some (zlen s, s) else Some (len, take (Z.to_nat (len - 1)) s)
        end
  end.
Definition getenv_f (name : list Z) (len : Z) : option (Z * list Z) :=
  getenv_f_loop (S (length env)) name len 0.
End image.

(** [sizeof(gd->env_buf)]. *)
Definition env_buf_size := 32.

Section env.
Context `{Slre}.
Context (ENV_FLAGS_LIST_STATIC ENV_CALLBACK_LIST_STATIC : list Z).
Context (default_environment : list Z) (CONFIG_ENV_SIZE : Z).
Abbreviation callback_t := (list Z -> option (list Z) -> env_op -> Z -> Z).
Context (env_clbk : list (list Z * callback_t)).

Definition getenv_default (name : list Z) : option (option (list Z)) :=
  '(n, s) ← getenv_f default_environment CONFIG_ENV_SIZE name env_buf_size; Some (if 0 <? n then Some s else None).

(** ** Lookup of flags *)
(** [flags] has room for [ENV_FLAGS_ATTR_MAX_LEN + 1] bytes. *)
Definition env_flags_lookup (flags_list : option (list Z)) (name : list Z) : H (Z * option (list Z)) :=
  ret ← match flags_list with
        | Some _ => env_attr_lookup flags_list name (ENV_FLAGS_ATTR_MAX_LEN + 1)
        | None => mret (1, None)
        end;
  if negb (ret.1 =? 0) then env_attr_lookup (Some ENV_FLAGS_LIST_STATIC) name (ENV_FLAGS_ATTR_MAX_LEN + 1)
  else mret ret.

Definition set_entry_flags (e : ENTRY) (f : Z) : ENTRY := Entry (key e) (data e) (callback e) f.
Definition set_entry_callback (e : ENTRY) (c : option callback_t) : ENTRY := Entry (key e) (data e) c (flags e).

(** [flags_list] is the string the pointer cached on the first call refers to. *)
Definition env_flags_init_with (flags_list : option (list Z)) (var_entry : ENTRY) : H ENTRY :=
  var_name ← must (key var_entry);
  '(ret, f) ← env_flags_lookup flags_list var_name;
  mret (match f with
        | Some ((_ :: _) as f) => if ret =? 0 then set_entry_flags var_entry (env_parse_flags_to_bin f) else var_entry
        | _ => var_entry
        end).

(** ** Lookup of callbacks *)
Fixpoint find_env_callback (l : list (list Z * callback_t)) (name : list Z) : option callback_t :=
  match l with
  | [] => None
  | (n, c) :: l => if str_cmp name n =? 0 then Some c else find_env_callback l name
  end.

Definition env_callback_init_with (callback_list : option (list Z)) (var_entry : ENTRY) : H ENTRY :=
  var_name ← must (key var_entry);
  ret ← match callback_list with
        | Some _ => env_attr_lookup callback_list var_name 256
        | None => mret (1, None)
        end;
  ret ← (if negb (ret.1 =? 0) then env_attr_lookup (Some ENV_CALLBACK_LIST_STATIC) var_name 256 else mret ret);
  mret (match ret with
        | (0, Some ((_ :: _) as c)) =>
            match find_env_callback env_clbk c with
            | Some clbk => set_entry_callback var_entry (Some clbk)
            | None => var_entry
            end
        | _ => var_entry
        end).

(** What the hash table calls when it creates an entry, for lookups that are defined and
    whose allocations succeed. *)
Definition env_hooks (callback_list flags_list : option (list Z)) : EnvHooks :=
  {| env_callback_init h e := default e (fst <$> env_callback_init_with callback_list e (State h 0 []));
     env_flags_init h e := default e (fst <$> env_flags_init_with flags_list e (State h 0 [])) |}.

Context `{EnvHooks}.

(** ** Variables *)
(** [ready] is [GD_FLG_ENV_READY]; [env] is what is read before the import. *)
Definition getenv (ready : bool) (env : list Z) (name : list Z) : H (option (list Z)) :=
  if ready then
    '(_, ep) ← hsearch_r name None FIND 0;
    match ep with Some i => e ← slot i; mret (data (entry e)) | None => mret None end
  else
    '(n, s) ← must (getenv_f env CONFIG_ENV_SIZE name env_buf_size);
    mret (if 0 <? n then Some s else None).

(** The cached list of [env_flags_init] and [env_callback_init]. *)
Record env_static := Static { first_call : bool; cached_list : option (list Z) }.
Definition cache (ready : bool) (env : list Z) (var : list Z) (st : env_static) : H env_static :=
  if first_call st then l ← getenv ready env var; mret (Static false l) else mret st.

Definition ENV_FLAGS_VAR : list Z := str ".flags".
Definition ENV_CALLBACK_VAR : list Z := str ".callbacks".

Definition env_flags_init_first (ready : bool) (env : list Z) (st : env_static) (e : ENTRY) : H (env_static * ENTRY) :=
  st ← cache ready env ENV_FLAGS_VAR st;
  e ← env_flags_init_with (cached_list st) e;
  mret (st, e).
Definition env_callback_init_first (ready : bool) (env : list Z) (st : env_static) (e : ENTRY) : H (env_static * ENTRY) :=
  st ← cache ready env ENV_CALLBACK_VAR st;
  e ← env_callback_init_with (cached_list st) e;
  mret (st, e).

(** ** Changing the lists *)
Definition update_entry (i : Z) (f : ENTRY -> ENTRY) : H unit :=
  e ← slot i; set_slot i (_Entry (used e) (f (entry e))).

Definition clear_flags (e : ENTRY) : Z * ENTRY := (0, set_entry_flags e 0).
Definition flags_of (value : option (list Z)) : Z :=
  match value with Some ((_ :: _) as v) => env_parse_flags_to_bin v | _ => 0 end.
Definition set_flags (name : list Z) (value : option (list Z)) : H Z :=
  '(_, ep) ← hsearch_r name None FIND 0;
  match ep with
  | Some i => update_entry i (fun e => set_entry_flags e (flags_of value))
  | None => mret tt
  end;;
  mret 0.
Definition on_flags (value : option (list Z)) : H Z :=
  hwalk_r clear_flags;;
  env_attr_walk alloc set_flags (Some ENV_FLAGS_LIST_STATIC);;
  env_attr_walk alloc set_flags value;;
  mret 0.

Definition clear_callback (e : ENTRY) : Z * ENTRY := (0, set_entry_callback e None).
Definition set_callback (name : list Z) (value : option (list Z)) : H Z :=
  '(_, ep) ← hsearch_r name None FIND 0;
  match ep with
  | Some i =>
      update_entry i (fun e =>
        match value with
        | Some ((_ :: _) as v) =>
            match find_env_callback env_clbk v with Some c => set_entry_callback e (Some c) | None => e end
        | _ => set_entry_callback e None
        end)
  | None => mret tt
  end;;
  mret 0.
Definition on_callbacks (value : option (list Z)) : H Z :=
  hwalk_r clear_callback;;
  env_attr_walk alloc set_callback (Some ENV_CALLBACK_LIST_STATIC);;
  env_attr_walk alloc set_callback value;;
  mret 0.

(** ** Checking a change *)
Definition env_flags_validate (item : ENTRY) (newval : option (list Z)) (op : env_op) (flag : Z) : option Z :=
  let newval := default [] newval in
  let type := Z.land ENV_FLAGS_VARTYPE_BIN_MASK (flags item) in
  let has m := negb (Z.land (flags item) m =? 0) in
  if match op with env_op_delete => false | _ => _env_flags_validate_type newval type <? 0 end then Some (-1)
  else if negb (Z.land flag H_FORCE =? 0) then Some 0
  else match op with
  | env_op_delete => Some (if has ENV_FLAGS_VARACCESS_PREVENT_DELETE then 1 else 0)
  | env_op_overwrite =>
      if has ENV_FLAGS_VARACCESS_PREVENT_OVERWR then Some 1
      else if has ENV_FLAGS_VARACCESS_PREVENT_NONDEF_OVERWR then
        name ← key item;
        defval ← getenv_default name;
        oldval ← data item;
        Some (if negb (str_cmp oldval (default [] defval) =? 0) then 1 else 0)
      else Some 0
  | env_op_create => Some (if has ENV_FLAGS_VARACCESS_PREVENT_CREATE then 1 else 0)
  end.

(** ** The host tools' checks *)
(** [flags_list] is the value of [fw_getenv(".flags")]. *)
Definition env_flags_get_type (flags_list : option (list Z)) (name : list Z) : H Z :=
  '(r, f) ← env_flags_lookup flags_list name;
  mret (if negb (r =? 0) then env_flags_vartype_string else env_flags_parse_vartype (default [] f)).
Definition env_flags_get_varaccess (flags_list : option (list Z)) (name : list Z) : H Z :=
  '(r, f) ← env_flags_lookup flags_list name;
  mret (if negb (r =? 0) then env_flags_varaccess_any else env_flags_parse_varaccess (default [] f)).
Definition env_flags_validate_type (flags_list : option (list Z)) (name : list Z) (value : option (list Z)) : H Z :=
  match value with
  | None => mret 0
  | Some value =>
      type ← env_flags_get_type flags_list name;
      mret (if _env_flags_validate_type value type <? 0 then -1 else 0)
  end.
Definition env_flags_validate_varaccess (flags_list : option (list Z)) (name : list Z) (check_mask : Z) : H bool :=
  access ← env_flags_get_varaccess flags_list name;
  mret (negb (Z.land check_mask (default 0 (env_flags_varaccess_mask !! Z.to_nat access)) =? 0)).
Definition env_flags_validate_env_set_params (flags_list : option (list Z)) (name : list Z) (val : list (option (list Z))) : H Z :=
  match val with
  | Some v :: rest =>
      type ← env_flags_get_type flags_list name;
      if negb (type =? env_flags_vartype_string) && negb (bool_decide (rest = [])) then mret (-1)
      else env_flags_validate_type flags_list name (Some v)
  | _ => mret 0
  end.
End env.
