(* ===== verification/EnvProps.v ===== *)
(** * Properties of attribute lists, flags and callbacks of [EnvAttr] and [EnvFlags] *)

From Stdlib Require Import ZArith Lia String.
From stdpp Require Import base option list gmap numbers.
From S2P Require Import Prelude CMonad CString HashTable HashTableProps HashText EnvAttr EnvFlags.
Import Ctype Hash.
Open Scope Z_scope.

(** ** What a list declares *)
Definition declaration : Type := list Z * option (list Z).

Fixpoint split_on (c : Z) (l : list Z) : list (list Z) :=
  match l with
  | [] => [[]]
  | d :: l =>
      if d =? c then [] :: split_on c l
      else match split_on c l with e :: es => (d :: e) :: es | [] => [[d]] end
  end.

Definition parse_entry (entry : list Z) : option declaration :=
  let '(n, a) := split_chr entry ENV_ATTR_SEP in
  if bool_decide (strim n = []) then None else Some (strim n, strim <$> a).
(** The entries with a name, in order. *)
Definition declarations (l : list Z) : list declaration := omap parse_entry (split_on ENV_ATTR_LIST_DELIM l).

Lemma split_chr_length l c e r : split_chr l c = (e, Some r) -> (length r < length l)%nat.
Proof.
  revert e. induction l as [|d l IH]; intros e; cbn; [done|].
  destruct (d =? c); [intros [= <- <-]; lia|]. destruct (split_chr l c) as [a b]. intros [= <- ->].
  specialize (IH _ eq_refl). lia.
Qed.

Lemma split_on_chr l c :
  split_on c l = let '(e, r) := split_chr l c in e :: match r with Some r => split_on c r | None => [] end.
Proof.
  induction l as [|d l IH]; cbn; [done|]. destruct (d =? c); [done|]. rewrite IH.
  by destruct (split_chr l c) as [a b].
Qed.

Section walk.
Context {S : Type} (alloc : M S bool) (callback : list Z -> option (list Z) -> M S Z).
(** [I ds s]: what holds of the state after the declarations [ds]. *)
Context (I : list declaration -> S -> Prop) (Q : declaration -> Prop).
Context (alloc_ok : forall ds s, I ds s -> exists s', alloc s = Some (true, s') /\ I ds s').
Context (callback_ok : forall ds s d, I ds s -> Q d ->
  exists s', callback d.1 d.2 s = Some (0, s') /\ I (ds ++ [d]) s').

Lemma walk_entry_ok ds s e :
  I ds s -> (forall d, parse_entry e = Some d -> Q d) ->
  exists s', walk_entry alloc callback e s = Some (0, s') /\ I (ds ++ omap parse_entry [e]) s'.
Proof.
  intros HI HQ. unfold walk_entry. case_bool_decide as He.
  { subst e. exists s. cbn. by rewrite app_nil_r. }
  destruct (alloc_ok _ _ HI) as (s1 & E1 & HI1). rewrite (bind_eq _ _ _ _ _ E1). cbn [negb].
  cbn [omap list_omap]. unfold parse_entry in *. destruct (split_chr e ENV_ATTR_SEP) as [n a].
  case_bool_decide; [exists s1; by rewrite app_nil_r|].
  destruct (callback_ok ds s1 (strim n, strim <$> a)) as (s2 & E2 & HI2); auto. eauto.
Qed.

Lemma walk_loop_ok f : forall l ds s, (length l < f)%nat -> I ds s -> Forall Q (declarations l) ->
  exists s', walk_loop alloc callback f l s = Some (0, s') /\ I (ds ++ declarations l) s'.
Proof.
  induction f as [|f IH]; intros l ds s Hf HI HQ; [lia|]. cbn [walk_loop].
  unfold declarations in *. rewrite split_on_chr in HQ |- *.
  destruct (split_chr l ENV_ATTR_LIST_DELIM) as [e r] eqn:El.
  destruct (walk_entry_ok ds s e HI) as (s1 & E1 & HI1).
  { intros d Hd. cbn [omap list_omap] in HQ. rewrite Hd in HQ. by apply Forall_cons_1 in HQ as [? _]. }
  rewrite (bind_eq _ _ _ _ _ E1). cbn [negb Z.eqb].
  destruct r as [r|]; [|by exists s1].
  apply split_chr_length in El. destruct (IH r (ds ++ omap parse_entry [e]) s1) as (s2 & E2 & HI2); [lia|done|..].
  { change (e :: split_on ENV_ATTR_LIST_DELIM r) with ([e] ++ split_on ENV_ATTR_LIST_DELIM r) in HQ.
    rewrite omap_app, Forall_app in HQ. apply HQ. }
  exists s2. split; [done|]. rewrite <- app_assoc, <- omap_app in HI2. done.
Qed.

Lemma env_attr_walk_ok l ds s : I ds s -> Forall Q (declarations l) ->
  exists s', env_attr_walk alloc callback (Some l) s = Some (0, s') /\ I (ds ++ declarations l) s'.
Proof. apply walk_loop_ok. lia. Qed.
End walk.

(** ** Lookup *)
Section lookup.
Context `{Slre}.

Definition matches (name : list Z) (d : declaration) : bool :=
  match slre_compile (regex_of d.1) with Some re => slre_match re name | None => false end.
(** The pattern is a regular expression and, if the name matches it, has attributes. *)
Definition usable (name : list Z) (d : declaration) : Prop :=
  is_Some (slre_compile (regex_of d.1)) /\ (matches name d = true -> is_Some d.2).
Definition winner (name : list Z) (ds : list declaration) : option declaration :=
  list.last (filter (fun d => matches name d = true) ds).

Lemma alloc_mem_ok s : mem_ok s -> exists s', alloc s = Some (true, s') /\ mem_ok s' /\ htab s' = htab s /\ errno s' = errno s.
Proof.
  unfold mem_ok, alloc. destruct s as [h er [|b al]]; cbn; [by eexists|].
  intros [-> ?]%Forall_cons_1. by eexists.
Qed.

Definition walk_state (name : list Z) (s0 : state) (ds : list declaration) (ps : regex_callback_priv * state) : Prop :=
  mem_ok ps.2 /\ htab ps.2 = htab s0 /\ errno ps.2 = errno s0 /\
  ps.1 = match winner name ds with
         | Some d => Priv name (Some (regex_of d.1)) d.2
         | None => Priv name None None
         end.

Lemma walk_alloc_ok name s0 ds ps : walk_state name s0 ds ps ->
  exists ps', walk_alloc ps = Some (true, ps') /\ walk_state name s0 ds ps'.
Proof.
  destruct ps as [p s]. intros (Hm & Hh & He & Hp). cbn [fst snd] in *.
  destruct (alloc_mem_ok s Hm) as (s' & E & ? & Eh & Ee). exists (p, s'). unfold walk_alloc. cbn [fst snd]. rewrite E. cbn.
  split; [done|]. unfold walk_state. cbn. by rewrite Eh, Ee.
Qed.

Lemma winner_snoc name ds d :
  winner name (ds ++ [d]) = if matches name d then Some d else winner name ds.
Proof.
  unfold winner. rewrite list.filter_app, filter_cons, filter_nil. destruct (matches name d).
  - rewrite decide_True by done. by rewrite last_snoc.
  - rewrite decide_False by done. by rewrite app_nil_r.
Qed.

Lemma regex_callback_ok name s0 ds ps d : walk_state name s0 ds ps -> usable name d ->
  exists ps', regex_callback d.1 d.2 ps = Some (0, ps') /\ walk_state name s0 (ds ++ [d]) ps'.
Proof.
  intros Hw ([re Hre] & Hat). unfold regex_callback. rewrite Hre, bind_gets.
  pose proof Hw as (_ & _ & _ & Hp). assert (searched_for ps.1 = name) as Hn by (rewrite Hp; by destruct (winner name ds)).
  unfold matches in Hat. rewrite Hre in Hat. rewrite Hn. destruct (slre_match re name) eqn:Em; cbn [negb].
  - destruct Hat as [a Ha]; [done|]. destruct (walk_alloc_ok _ _ _ _ Hw) as (ps1 & E1 & Hw1).
    rewrite (bind_eq _ _ _ _ _ E1). cbn [negb]. unfold set_priv. rewrite bind_modify, Ha, (bind_must _ a) by done.
    destruct ps1 as [p1 s1]. destruct Hw1 as (Hm1 & Hh1 & He1 & _). cbn [fst snd] in *.
    destruct (alloc_mem_ok s1 Hm1) as (s2 & E2 & Hm2 & Hh2 & He2).
    erewrite bind_eq; [|unfold walk_alloc; cbn [fst snd]; rewrite E2; reflexivity].
    cbn [negb]. rewrite bind_modify. eexists. split; [reflexivity|]. unfold walk_state. cbn.
    rewrite winner_snoc. unfold matches. rewrite Hre, Em, Ha, Hh2, He2. done.
  - exists ps. split; [done|]. unfold walk_state in *. rewrite winner_snoc. unfold matches. by rewrite Hre, Em.
Qed.

Lemma env_attr_lookup_ok l name cap s :
  mem_ok s -> Forall (usable name) (declarations l) ->
  match winner name (declarations l) with
  | Some (_, Some a) => zlen a < cap
  | _ => True
  end ->
  exists s', env_attr_lookup (Some l) name cap s =
    Some (match winner name (declarations l) with
          | Some d => (0, d.2)
          | None => (- ENOENT, None)
          end, s') /\ mem_ok s' /\ htab s' = htab s /\ errno s' = errno s.
Proof.
  intros Hm Hd Hcap. unfold env_attr_lookup.
  destruct (env_attr_walk_ok walk_alloc regex_callback (walk_state name s) (usable name)
    (walk_alloc_ok name s) (regex_callback_ok name s) l [] (Priv name None None, s)) as ([p s'] & E & Hm' & Hh & He & Hp);
    [done|done|]. rewrite E. cbn [negb Z.eqb]. cbn [fst snd app] in *. subst p. exists s'.
  destruct (winner name (declarations l)) as [[n a]|] eqn:Ew; cbn; [|done].
  assert (is_Some a) as [a' ->].
  { unfold winner in Ew. apply last_Some_elem_of in Ew. apply list_elem_of_filter in Ew as [Hmt Hin].
    rewrite Forall_forall in Hd. apply list_elem_of_In in Hin. by destruct (Hd _ Hin) as [_ Hu]; apply Hu. }
  cbn. rewrite (proj2 (Z.ltb_ge _ _)) by lia. done.
Qed.
End lookup.

(** ** Types of values *)
Definition is_digit (hex : bool) (c : Z) : bool := if hex then isxdigit c else isdigit c.
Definition digits (hex : bool) (s : list Z) : Prop := Forall (fun c => is_digit hex c = true) s.
Definition no_digit (hex : bool) (s : list Z) : Prop := match s with c :: _ => is_digit hex c = false | [] => True end.

Lemma skip_digits_split hex v i :
  exists ds, v = ds ++ skip_digits hex v i /\ digits hex ds /\ (0 <= i -> zlen ds <= i) /\
    (i < 0 -> no_digit hex (skip_digits hex v i)).
Proof.
  revert i. induction v as [|c v IH]; intros i; cbn [skip_digits].
  { exists []. split; [done|]. split; [apply Forall_nil_2|done]. }
  assert (hex && negb (isxdigit c) || negb hex && negb (isdigit c) = negb (is_digit hex c)) as Hd.
  { unfold is_digit. by destruct hex, (isxdigit c), (isdigit c). }
  destruct (Z.eqb_spec i 0) as [->|Hi]; [exists []; split; [done|]; split; [apply Forall_nil_2|done]|].
  destruct (is_digit hex c) eqn:Ed; cbn [negb] in Hd.
  - apply orb_false_iff in Hd as [-> ->]. destruct (IH (i - 1)) as (ds & Ev & Hds & Hl & Hn).
    exists (c :: ds). cbn [app]. rewrite <- Ev. split; [done|]. split; [by constructor|].
    unfold zlen in *. cbn [length]. split; [|intros ?; apply Hn; lia]. intros Hi0. specialize (Hl ltac:(lia)). lia.
  - exists []. replace (if hex && negb (isxdigit c) then c :: v
      else if negb hex && negb (isdigit c) then c :: v else skip_digits hex v (i - 1)) with (c :: v).
    2: { by destruct (hex && _), (negb hex && _). }
    split; [done|]. split; [apply Forall_nil_2|]. split; [unfold zlen; cbn; lia|done].
Qed.

Lemma skip_digits_all hex ds e i :
  digits hex ds -> i < 0 \/ zlen ds <= i -> no_digit hex e -> skip_digits hex (ds ++ e) i = e.
Proof.
  intros Hds. revert i. induction Hds as [|c ds Hc Hds IH]; intros i Hi He; cbn [app].
  - destruct e as [|c e]; [done|]. cbn [skip_digits]. destruct (i =? 0); [done|]. cbn in He.
    unfold is_digit in He. destruct hex; rewrite He; done.
  - cbn [skip_digits]. unfold zlen in *. cbn [length] in Hi. rewrite (proj2 (Z.eqb_neq i 0)) by lia.
    unfold is_digit in Hc. rewrite IH by (done || lia). destruct hex; by rewrite Hc.
Qed.

Lemma at_0_nil s : chars s -> at_ 0 s = 0 <-> s = [].
Proof.
  destruct s as [|c s]; [done|]. intros [? _]%chars_cons. cbn. split; [intros; lia|done].
Qed.

(** Groups of a kind, separated by a character. *)
Fixpoint join (sep : Z) (gs : list (list Z)) : list Z :=
  match gs with [] => [] | [g] => g | g :: gs => g ++ sep :: join sep gs end.

Section groups.
Context (sep : Z) (group : list Z -> Prop) (step : list Z -> option (list Z)).
Context (Hsep : 0 < sep < 256).
Context (step_sound : forall cur e, step cur = Some e -> exists g, cur = g ++ e /\ group g).
Context (step_complete : forall g e, group g -> e = [] \/ (exists e', e = sep :: e') -> step (g ++ e) = Some e).

Fixpoint groups (n : nat) (cur : list Z) : Z :=
  match n with
  | O => 0
  | S n =>
      match step cur with
      | None => -1
      | Some e => if negb (at_ 0 e =? match n with O => 0 | _ => sep end) then -1 else groups n (drop 1 e)
      end
  end.

Lemma groups_ok n : forall cur, chars cur ->
  groups (S n) cur = 0 <-> exists gs, length gs = S n /\ cur = join sep gs /\ Forall group gs.
Proof.
  induction n as [|n IH]; intros cur Hcur; cbn [groups].
  - split.
    + destruct (step cur) as [e|] eqn:Es; [|done]. destruct (Z.eqb_spec (at_ 0 e) 0) as [E|]; [|done]. intros _.
      destruct (step_sound _ _ Es) as (g & -> & Hg). apply Forall_app in Hcur as [_ He].
      apply at_0_nil in E as ->; [|done]. exists [g]. rewrite app_nil_r. by repeat constructor.
    + intros ([|g [|]] & Hl & -> & Hg); try done. apply Forall_cons_1 in Hg as [Hg _]. cbn [join].
      rewrite <- (app_nil_r g), (step_complete g []) by auto. done.
  - fold groups. split.
    + destruct (step cur) as [e|] eqn:Es; [|done]. destruct (Z.eqb_spec (at_ 0 e) sep) as [E|]; [|done]. cbn [negb].
      destruct (step_sound _ _ Es) as (g & -> & Hg). apply Forall_app in Hcur as [_ He].
      destruct e as [|c e]; [cbn in E; lia|]. cbn in E. subst c. cbn [drop]. apply chars_cons in He as [_ He].
      change (groups (S n) e = 0 -> exists gs, length gs = S (S n) /\ g ++ sep :: e = join sep gs /\ Forall group gs).
      intros (gs & Hl & -> & Hgs)%IH; [|done]. exists (g :: gs). cbn. split; [lia|]. split; [|by constructor].
      by destruct gs.
    + intros ([|g [|g' gs]] & Hl & -> & Hg); try done. apply Forall_cons_1 in Hg as [Hg Hgs].
      change (join sep (g :: g' :: gs)) with (g ++ sep :: join sep (g' :: gs)) in *.
      rewrite step_complete by eauto. cbn [at_]. unfold at_. cbn [lookup list_lookup default drop].
      rewrite Z.eqb_refl. cbn [negb]. apply Forall_app in Hcur as [_ [_ Hc]%chars_cons].
      apply (IH _ Hc). exists (g' :: gs). cbn in *. split; [lia|done].
Qed.
End groups.

Definition hex_prefixes : list (list Z) := [[]; str "0x"; str "0X"].
Definition ip_group (g : list Z) : Prop := digits false g /\ 1 <= zlen g <= 3.
Definition mac_group (g : list Z) : Prop :=
  exists p ds, g = p ++ ds /\ p ∈ hex_prefixes /\ digits true ds /\ 1 <= zlen ds <= 2.

(** The strings a type admits. *)
Definition admits (type : Z) (v : list Z) : Prop :=
  if type =? env_flags_vartype_decimal then digits false v
  else if type =? env_flags_vartype_hex then
    exists p ds, v = p ++ ds /\ p ∈ hex_prefixes /\ digits true ds /\ (p = [] \/ ds <> [])
  else if type =? env_flags_vartype_bool then exists c, v = [c] /\ c ∈ bool_chars
  else if type =? env_flags_vartype_ipaddr then
    exists gs, length gs = 4%nat /\ v = join 46 gs /\ Forall ip_group gs
  else if type =? env_flags_vartype_macaddr then
    exists gs, length gs = 6%nat /\ v = join 58 gs /\ Forall mac_group gs
  else type <> env_flags_vartype_end.

Definition ip_step (cur : list Z) : option (list Z) :=
  let e := skip_num false cur 3 in if bool_decide (length cur = length e) then None else Some e.
Definition mac_step (cur : list Z) : option (list Z) :=
  let e := skip_num true cur 2 in
  if bool_decide (length cur = length e) then None
  else if bool_decide (length cur = length e + 2)%nat && is_hex_prefix cur then None else Some e.

Lemma ip_groups_eq n cur : ip_groups n cur = groups 46 ip_step n cur.
Proof.
  revert cur. induction n as [|n IH]; intros cur; [done|]. cbn [ip_groups groups]. unfold ip_step. cbn zeta.
  case_bool_decide; [done|]. by rewrite IH.
Qed.
Lemma eth_groups_eq n cur : eth_groups n cur = groups 58 mac_step n cur.
Proof.
  revert cur. induction n as [|n IH]; intros cur; [done|]. cbn [eth_groups groups]. unfold mac_step. cbn zeta.
  case_bool_decide; [done|]. destruct (_ && _); [done|]. by rewrite IH.
Qed.

Lemma ip_step_sound cur e : ip_step cur = Some e -> exists g, cur = g ++ e /\ ip_group g.
Proof.
  unfold ip_step, skip_num. cbn [andb]. case_bool_decide as Hl; [done|]. intros [= <-].
  destruct (skip_digits_split false cur 3) as (ds & E & Hds & Hle & _). exists ds. split; [done|]. split; [done|].
  specialize (Hle ltac:(lia)). split; [|done]. destruct ds; [by rewrite E in Hl at 1|]. unfold zlen. cbn. lia.
Qed.
Lemma ip_step_complete g e : ip_group g -> e = [] \/ (exists e', e = 46 :: e') -> ip_step (g ++ e) = Some e.
Proof.
  intros [Hd Hl] He. unfold ip_step, skip_num. cbn [andb]. cbn zeta.
  rewrite skip_digits_all; [|done|lia|destruct He as [->|[? ->]]; done].
  rewrite bool_decide_false; [done|]. rewrite length_app. unfold zlen in Hl. lia.
Qed.

(** A prefix [0x] is taken off, and nothing else. *)
Lemma hex_prefix_split v :
  exists p, p ∈ hex_prefixes /\ v = p ++ (if is_hex_prefix v then drop 2 v else v) /\
    (is_hex_prefix v = true -> length p = 2%nat) /\ (is_hex_prefix v = false -> p = []).
Proof.
  destruct (is_hex_prefix v) eqn:E; [|exists []; split; [set_solver|done]].
  unfold is_hex_prefix in E. apply andb_true_iff in E as [E0%Z.eqb_eq E1].
  destruct v as [|c [|d v]]; cbn in *; [lia|subst; done|]. subst c.
  exists [48; d]. split; [|done]. apply orb_true_iff in E1. rewrite !Z.eqb_eq in E1.
  destruct E1 as [->| ->]; cbn; set_solver.
Qed.
Lemma no_hex_prefix ds e : digits true ds -> ds <> [] -> (forall x, head e = Some x -> x <> 120 /\ x <> 88) ->
  is_hex_prefix (ds ++ e) = false.
Proof.
  intros Hds Hne He. unfold is_hex_prefix. apply andb_false_iff. right.
  assert (forall x, isxdigit x = true -> x <> 120 /\ x <> 88) as Hx by (intros x Hxx; split; intros ->; by vm_compute in Hxx).
  assert (forall x, x <> 120 /\ x <> 88 -> (x =? 120) || (x =? 88) = false) as Hor.
  { intros x [? ?]. apply orb_false_iff. by split; apply Z.eqb_neq. }
  apply Hor. destruct ds as [|c [|c' ds]]; [done|..].
  - destruct e as [|x e]; [by vm_compute|]. by apply He.
  - apply Hx. apply Forall_cons_1 in Hds as [_ Hds]. by apply Forall_cons_1 in Hds as [? _].
Qed.
Lemma with_hex_prefix p ds : p ∈ hex_prefixes -> p <> [] -> is_hex_prefix (p ++ ds) = true /\ drop 2 (p ++ ds) = ds.
Proof. unfold hex_prefixes. rewrite !elem_of_cons. intros Hp Hne. destruct Hp as [->|[->|[->|Hp]]]; [done|done|done|by apply not_elem_of_nil in Hp]. Qed.

Lemma mac_step_sound cur e : mac_step cur = Some e -> exists g, cur = g ++ e /\ mac_group g.
Proof.
  unfold mac_step, skip_num. cbn [andb]. cbn zeta. destruct (hex_prefix_split cur) as (p & Hp & E & Hp2 & Hp0).
  set (r := if is_hex_prefix cur then drop 2 cur else cur) in *.
  destruct (skip_digits_split true r 2) as (ds & Er & Hds & Hle & _). specialize (Hle ltac:(lia)).
  assert (length cur = length p + length ds + length (skip_digits true r 2))%nat as Hlen.
  { rewrite E at 1. rewrite Er at 1. rewrite !length_app. lia. }
  case_bool_decide as Hl; [done|]. destruct (_ && _) eqn:Eb; [done|]. intros [= <-].
  exists (p ++ ds). rewrite <- app_assoc, <- Er. split; [done|]. exists p, ds. split; [done|]. split; [done|]. split; [done|].
  split; [|done]. destruct ds; [exfalso|unfold zlen; cbn; lia]. cbn [length] in Hlen.
  destruct (is_hex_prefix cur); [|rewrite Hp0 in Hlen by done; cbn in Hlen; lia].
  rewrite Hp2 in Hlen by done. rewrite bool_decide_true in Eb by lia. done.
Qed.
Lemma mac_step_complete g e : mac_group g -> e = [] \/ (exists e', e = 58 :: e') -> mac_step (g ++ e) = Some e.
Proof.
  intros (p & ds & -> & Hp & Hds & Hl) He. unfold mac_step, skip_num. cbn [andb]. cbn zeta.
  assert (ds <> []) as Hne by (intros ->; unfold zlen in Hl; cbn in Hl; lia).
  assert (no_digit true e) as Hnd by (destruct He as [->|[? ->]]; done).
  assert ((if is_hex_prefix ((p ++ ds) ++ e) then drop 2 ((p ++ ds) ++ e) else (p ++ ds) ++ e) = ds ++ e) as ->.
  { rewrite <- app_assoc. destruct (decide (p = [])) as [->|Hpe].
    - cbn [app]. rewrite no_hex_prefix; [done..|]. destruct He as [->|[? ->]]; cbn; [done|]. by intros ? [= <-].
    - destruct (with_hex_prefix p (ds ++ e) Hp Hpe) as [-> ->]. done. }
  rewrite skip_digits_all by (done || lia). unfold zlen in Hl. rewrite !length_app.
  rewrite bool_decide_false by lia. destruct (bool_decide _ && _) eqn:Eb; [|done]. exfalso.
  apply andb_true_iff in Eb as [Eb Ep]. apply bool_decide_eq_true in Eb. rewrite <- app_assoc in Ep.
  assert (p = []) as ->.
  { destruct p as [|? [|? p]]; [done|..]; cbn in Eb; [|lia].
    unfold hex_prefixes in Hp. rewrite !elem_of_cons in Hp. destruct Hp as [?|[?|[?|Hp]]]; try done. by apply not_elem_of_nil in Hp. }
  cbn [app] in Ep. rewrite no_hex_prefix in Ep; [done..|]. destruct He as [->|[? ->]]; cbn; [done|]. by intros ? [= <-].
Qed.

Lemma validate_hex_ok v : chars v ->
  _env_flags_validate_type v env_flags_vartype_hex = 0 <-> admits env_flags_vartype_hex v.
Proof.
  intros Hv. change (admits env_flags_vartype_hex v) with
    (exists p ds, v = p ++ ds /\ p ∈ hex_prefixes /\ digits true ds /\ (p = [] \/ ds <> [])).
  change (_env_flags_validate_type v env_flags_vartype_hex) with
    (let e := skip_num true v (-1) in if negb (at_ 0 e =? 0) then -1
     else if bool_decide (length v = length e + 2)%nat && is_hex_prefix v then -1 else 0).
  cbn zeta. unfold skip_num. cbn [andb]. split.
  - destruct (hex_prefix_split v) as (p & Hp & E & Hp2 & Hp0).
    set (r := if is_hex_prefix v then drop 2 v else v) in *.
    destruct (skip_digits_split true r (-1)) as (ds & Er & Hds & _ & _).
    destruct (Z.eqb_spec (at_ 0 (skip_digits true r (-1))) 0) as [E0|]; [|done]. cbn [negb].
    apply at_0_nil in E0.
    2: { rewrite E, Er in Hv. apply Forall_app in Hv as [_ Hv]. by apply Forall_app in Hv as [_ Hv]. }
    rewrite E0 in *. rewrite app_nil_r in Er. intros Hb. clearbody r. subst ds. exists p, r.
    split; [done|]. split; [done|]. split; [done|]. destruct (decide (p = [])) as [|Hpe]; [by left|right].
    intros ->. rewrite app_nil_r in E. destruct (is_hex_prefix v); [|by apply Hpe, Hp0].
    rewrite bool_decide_true in Hb; [done|]. rewrite E, Hp2; done.
  - intros (p & ds & -> & Hp & Hds & Hne).
    assert (skip_digits true ds (-1) = []) as Hsk.
    { rewrite <- (app_nil_r ds). apply skip_digits_all; [done|by left|done]. }
    destruct (decide (p = [])) as [->|Hpe].
    + cbn [app] in *. assert (is_hex_prefix ds = false) as ->.
      { destruct (decide (ds = [])) as [->|]; [done|]. rewrite <- (app_nil_r ds). by apply no_hex_prefix. }
      rewrite Hsk, andb_false_r. done.
    + destruct Hne as [?|Hne]; [done|]. destruct (with_hex_prefix p ds Hp Hpe) as [-> ->]. rewrite Hsk.
      cbn [at_ negb]. rewrite bool_decide_false; [done|].
      rewrite length_app. unfold hex_prefixes in Hp. rewrite !elem_of_cons in Hp.
      destruct ds; [done|]. destruct Hp as [->|[->|[->|Hp]]]; [done|cbn; lia..|by apply not_elem_of_nil in Hp].
Qed.

Lemma validate_type_ok v type : chars v -> 0 <= type ->
  _env_flags_validate_type v type = 0 <-> admits type v.
Proof.
  intros Hv Ht. destruct (decide (type = env_flags_vartype_hex)) as [->|Hhex]; [by apply validate_hex_ok|].
  unfold _env_flags_validate_type, admits. rewrite (proj2 (Z.eqb_neq type env_flags_vartype_hex)) by done.
  destruct (Z.eqb_spec type env_flags_vartype_string) as [->|]; [done|].
  destruct (Z.eqb_spec type env_flags_vartype_decimal) as [->|].
  { unfold skip_num. cbn [andb]. split.
    - destruct (skip_digits_split false v (-1)) as (ds & E & Hds & _ & _).
      destruct (Z.eqb_spec (at_ 0 (skip_digits false v (-1))) 0) as [E0|]; [|done]. intros _.
      apply at_0_nil in E0; [rewrite E, E0, app_nil_r; done|]. rewrite E in Hv. by apply Forall_app in Hv as [_ Hv].
    - intros Hd. rewrite <- (app_nil_r v), skip_digits_all; [done|done|by left|done]. }
  destruct (Z.eqb_spec type env_flags_vartype_bool) as [->|].
  { case_bool_decide as Hin; cbn [negb].
    - destruct v as [|c v]; [by apply (bool_decide_eq_true_2 _) in Hin; vm_compute in Hin|].
      change (at_ 0 (c :: v)) with c in Hin. change (at_ 1 (c :: v)) with (at_ 0 v).
      apply chars_cons in Hv as [_ Hv]. split.
      + destruct (Z.eqb_spec (at_ 0 v) 0) as [E|]; [|done]. intros _. apply (at_0_nil v Hv) in E as ->. eauto.
      + intros (c' & [= -> ->] & _). done.
    - split; [done|]. intros (c & -> & Hc). done. }
  destruct (Z.eqb_spec type env_flags_vartype_ipaddr) as [->|].
  { rewrite <- (groups_ok 46 ip_group ip_step ltac:(lia) ip_step_sound ip_step_complete 3 v Hv), ip_groups_eq.
    by destruct (Z.eqb_spec (groups 46 ip_step 4 v) 0). }
  destruct (Z.eqb_spec type env_flags_vartype_macaddr) as [->|].
  { rewrite <- (groups_ok 58 mac_group mac_step ltac:(lia) mac_step_sound mac_step_complete 5 v Hv).
    unfold eth_validate_ethaddr_str. rewrite eth_groups_eq. by destruct (Z.eqb_spec (groups 58 mac_step 6 v) 0). }
  destruct (Z.eqb_spec type env_flags_vartype_end) as [->|]; done.
Qed.
