(* ===== verification/EnvSpec.v ===== *)
(** * What the environment's attribute lists, flags and images guarantee

    The theorems on [EnvAttr] and [EnvFlags], from the lemmas of [EnvProps]. *)

From Stdlib Require Import ZArith Lia String.
From stdpp Require Import base option list gmap numbers.
From S2P Require Import Prelude CMonad CString HashTable HashTableProps HashText EnvAttr EnvFlags EnvProps.
Import Ctype Hash.
Open Scope Z_scope.

#[global] Instance env_op_eq_dec : EqDecision env_op.
Proof. solve_decision. Defined.

(** ** Access *)
Lemma chr_index_range s c i : chr_index s c = Some i -> 0 <= i < zlen s.
Proof.
  revert i. induction s as [|d s IH]; intros i; cbn [chr_index]; [done|]. unfold zlen in *. cbn [length].
  destruct (d =? c); [intros [= <-]; lia|]. destruct (chr_index s c) as [j|]; [|done]. cbn.
  intros [= <-]. specialize (IH j eq_refl). lia.
Qed.

Lemma parse_vartype_range f : 0 <= env_flags_parse_vartype f < 6.
Proof.
  destruct f as [|c f]; [cbn; unfold env_flags_vartype_string; lia|]. unfold env_flags_parse_vartype.
  destruct (chr_index env_flags_vartype_rep c) as [i|] eqn:E; [|cbn; unfold env_flags_vartype_string; lia].
  by apply chr_index_range in E.
Qed.
Lemma parse_varaccess_range f : 0 <= env_flags_parse_varaccess f < 4.
Proof.
  unfold env_flags_parse_varaccess. destruct f as [|c [|d f]]; try (unfold env_flags_varaccess_any; lia).
  destruct (chr_index env_flags_varaccess_rep d) as [i|] eqn:E; [|cbn; unfold env_flags_varaccess_any; lia].
  by apply chr_index_range in E.
Qed.

(** What an access method allows: [old] is the value the variable has and [def] its
    default. *)
Definition permitted (access : Z) (op : env_op) (old def : list Z) : bool :=
  if access =? env_flags_varaccess_any then true
  else if access =? env_flags_varaccess_readonly then false
  else match op with
  | env_op_create => true
  | env_op_delete => false
  | env_op_overwrite =>
      if access =? env_flags_varaccess_writeonce then false else bool_decide (old = def)
  end.

Lemma validate_bin t a (item : ENTRY) newval op flag denv size name old def :
  0 <= t < 6 -> 0 <= a < 4 ->
  flags item = Z.lor (Z.land t ENV_FLAGS_VARTYPE_BIN_MASK) (default 0 (env_flags_varaccess_mask !! Z.to_nat a)) ->
  key item = Some name -> data item = Some old -> getenv_default denv size name = Some def ->
  chars old -> chars (default [] def) ->
  env_flags_validate denv size item newval op flag =
    Some (if negb (bool_decide (op = env_op_delete)) && (_env_flags_validate_type (default [] newval) t <? 0) then -1
          else if negb (Z.land flag H_FORCE =? 0) || permitted a op old (default [] def) then 0 else 1).
Proof.
  intros Ht Ha Hf Hk Hd Hdef Hco Hcd. unfold env_flags_validate. rewrite Hf, Hk, Hd.
  assert (bool_decide (old = default [] def) = (str_cmp old (default [] def) =? 0)) as Heq.
  { apply eq_true_iff_eq. by rewrite bool_decide_eq_true, Z.eqb_eq, str_cmp_eq. }
  assert (t = 0 \/ t = 1 \/ t = 2 \/ t = 3 \/ t = 4 \/ t = 5) as Ct by lia.
  assert (a = 0 \/ a = 1 \/ a = 2 \/ a = 3) as Ca by lia.
  destruct Ct as [->|[->|[->|[->|[->| ->]]]]], Ca as [->|[->|[->| ->]]].
  all: unfold permitted; rewrite Heq; cbn -[_env_flags_validate_type str_cmp getenv_default]; rewrite ?Hdef;
    destruct (Z.land flag H_FORCE =? 0), op; cbn -[_env_flags_validate_type str_cmp getenv_default]; rewrite ?Hdef; cbn -[_env_flags_validate_type str_cmp];
    destruct (_env_flags_validate_type _ _ <? 0); try done; by destruct (str_cmp _ _ =? 0).
Qed.

(** ** Lists that change the table *)
Lemma cut_spaces_chars s : chars s -> chars (cut_spaces s).
Proof.
  induction s as [|c s IH]; [done|]. intros [Hc Hs]%chars_cons. cbn. specialize (IH Hs).
  destruct (cut_spaces s); [destruct (isspace c); [apply Forall_nil_2|by apply chars_cons]|by apply chars_cons].
Qed.
Lemma strim_chars s : chars s -> chars (strim s).
Proof.
  intros Hs. apply cut_spaces_chars. induction s as [|c s IH]; [done|]. cbn.
  destruct (isspace c); [apply IH; by apply chars_cons in Hs as [_ Hs]|done].
Qed.
Lemma split_chr_chars s c : chars s -> chars (split_chr s c).1.
Proof.
  induction s as [|d s IH]; [done|]. intros [Hd Hs]%chars_cons. cbn. destruct (d =? c); [apply Forall_nil_2|].
  specialize (IH Hs). destruct (split_chr s c) as [a b]. by apply chars_cons.
Qed.
Lemma split_on_chars c s : chars s -> Forall chars (split_on c s).
Proof.
  assert (chars []) as Hnil by apply Forall_nil_2.
  induction s as [|d s IH]; [by constructor|]. intros [Hd Hs]%chars_cons. cbn. specialize (IH Hs).
  destruct (d =? c); [by constructor|]. destruct (split_on c s) as [|e es]; [constructor; [by apply chars_cons|done]|].
  apply Forall_cons_1 in IH as [? ?]. constructor; [by apply chars_cons|done].
Qed.
Lemma declarations_chars l : chars l -> Forall (fun d => chars d.1) (declarations l).
Proof.
  intros Hl%(split_on_chars ENV_ATTR_LIST_DELIM). unfold declarations. induction Hl as [|e es He Hes IH]; [apply Forall_nil_2|].
  cbn. unfold parse_entry at 1. pose proof (split_chr_chars e ENV_ATTR_SEP He) as Hn.
  destruct (split_chr e ENV_ATTR_SEP) as [n a]. case_bool_decide; [done|]. constructor; [by apply strim_chars|done].
Qed.

Section tables.
Context (sz : Z) (Hsz : 5 <= sz < 2 ^ 31) (Hprime : Z.prime sz).
Context (P : option (list Z -> option (list Z) -> env_op -> Z -> Z) -> Prop) `{EnvHooks}.
(** A field of an entry, and the value an attribute gives it. *)
Context {A : Type} (get : ENTRY -> A) (put : A -> ENTRY -> ENTRY) (blank : A) (assign : option (list Z) -> A -> A).
Context (get_put : forall a e, get (put a e) = a).
Context (put_keeps : forall a e, key (put a e) = key e /\ data (put a e) = data e).
Context (put_blank : forall e, P (callback e) -> P (callback (put blank e))).
Context (put_assign : forall v e, P (callback e) -> P (callback (put (assign v (get e)) e))).

Lemma rep_htab s s' t m : htab s' = htab s -> rep sz P s t m -> rep sz P s' t m.
Proof. intros E [H1 H2 H3 H4 H5]. split; by rewrite ?E. Qed.

Definition holds (t : list _ENTRY) (F : list Z -> A) : Prop :=
  forall i e k v, 1 <= i <= sz -> t !! Z.to_nat i = Some e -> live e k v -> get (entry e) = F k.

Lemma live_put a e k v u : live e k v -> u = used e -> live (_Entry u (put a (entry e))) k v.
Proof. intros (Hu & Hk & Hv) ->. destruct (put_keeps a (entry e)) as [Ek Ed]. by rewrite <- Ek, <- Ed in *. Qed.

(** An entry in use changes in its field alone. *)
Lemma update_ok s t m i e a :
  rep sz P s t m -> 1 <= i <= sz -> t !! Z.to_nat i = Some e -> 0 < used e -> P (callback (put a (entry e))) ->
  let t' := <[Z.to_nat i := _Entry (used e) (put a (entry e))]> t in
  set_slot i (_Entry (used e) (put a (entry e))) s = Some (tt, with_table s t' (filled (htab s))) /\
  rep sz P (with_table s t' (filled (htab s))) t' m.
Proof.
  intros [Ht Hs Hf Hi Hm] Hr He Hu HPc t'. pose proof (inv_len _ _ _ Hi) as Hlen.
  destruct (inv_slot _ _ _ Hi i e Hr He) as [?|[?|(k & d & Hl & Hk & Hd & Hused & n & Hn & Hpath & Hbusy)]]; [lia..|].
  pose proof (live_put a e k d _ Hl eq_refl) as Hl'.
  assert (forall j e' d', 1 <= j <= sz -> j <> i -> t !! Z.to_nat j = Some e' -> ~ live e' k d') as Hother.
  { intros j e' d' Hj Hne He' Hle. apply Hne. by eapply (inv_unique _ _ _ Hi j i). }
  split; [apply set_slot_eq; [done|lia]|]. split; cbn.
  - done.
  - done.
  - unfold t'. rewrite (count_insert _ _ e) by done. cbn [used]. rewrite Hf. lia.
  - eapply inv_change; try done; [cbn; lia|]. right. exists k, d, n. done.
  - replace m with (<[k := d]> m).
    2: { apply insert_id. apply Hm. eauto. }
    eapply maps_set; try done. intros k' d' (_ & Hk' & _). destruct Hl as (_ & ? & _). congruence.
Qed.

Lemma holds_update s t m i e a F k v :
  rep sz P s t m -> 1 <= i <= sz -> t !! Z.to_nat i = Some e -> live e k v -> holds t F ->
  holds (<[Z.to_nat i := _Entry (used e) (put a (entry e))]> t) (fun k' => if decide (k' = k) then a else F k').
Proof.
  intros [_ _ _ Hi _] Hr He Hl HF j e' k' v' Hj Hlk Hlive. rewrite (change_lookup sz t i e) in Hlk by done.
  destruct (decide (j = i)) as [->|Hne].
  - injection Hlk as <-. cbn. rewrite get_put. rewrite decide_True; [done|]. destruct Hlive as (_ & Hk' & _), Hl as (_ & Hk & _).
    cbn in Hk'. rewrite (proj1 (put_keeps a (entry e))) in Hk'. congruence.
  - rewrite decide_False; [by eapply HF|]. intros ->. apply Hne. by eapply (inv_unique _ _ _ Hi j i).
Qed.

(** *** Clearing *)
Lemma clear_loop_ok n : forall i s t m, i + Z.of_nat n = sz + 1 -> 1 <= i -> rep sz P s t m ->
  (forall j e k v, 1 <= j < i -> t !! Z.to_nat j = Some e -> live e k v -> get (entry e) = blank) ->
  exists t', hwalk_loop n i (fun e => (0, put blank e)) s = Some (0, with_table s t' (filled (htab s))) /\
    rep sz P (with_table s t' (filled (htab s))) t' m /\ holds t' (fun _ => blank).
Proof.
  induction n as [|n IH]; intros i s t m Hin Hi1 Hrep Hdone.
  - exists t. assert (with_table s t (filled (htab s)) = s) as ->.
    { destruct Hrep as [Ht _ _ _ _]. destruct s as [[tt' z f c] er al]. cbn in *. by subst. }
    split; [done|]. split; [done|]. intros j e k v Hj. apply Hdone. lia.
  - destruct (inv_lookup sz P t i) as [e He]; [apply Hrep|lia|]. cbn [hwalk_loop].
    rewrite (bind_eq _ _ _ e s) by (eapply slot_eq; [apply Hrep|lia|done]).
    destruct (Z.ltb_spec 0 (used e)) as [Hu|Hu].
    + destruct (update_ok s t m i e blank) as [E Hrep']; [done|lia|done|done| |].
      { apply put_blank. pose proof (inv_callbacks _ _ _ (rep_inv _ _ _ _ _ Hrep)) as Hcb.
        by apply (Forall_lookup_1 _ _ _ _ Hcb He). }
      rewrite (bind_eq _ _ _ _ _ E). cbn [negb Z.eqb].
      destruct (IH (i + 1) _ _ m ltac:(lia) ltac:(lia) Hrep') as (t' & E' & Hr' & Hh'); [|by exists t'].
      intros j e' k v Hj. rewrite (change_lookup sz t i e) by (done || lia). case_decide as Ej.
      * intros [= <-] _. cbn. apply get_put.
      * intros. eapply Hdone; [|done|done]. lia.
    + apply (IH (i + 1) s t m); [lia|lia|done|]. intros j e' k v Hj He' Hlive.
      destruct (decide (j = i)) as [->|]; [|eapply Hdone; [|done|done]; lia].
      rewrite He in He'. injection He' as <-. destruct Hlive. lia.
Qed.

Lemma clear_ok s t m : rep sz P s t m -> exists t',
  hwalk_r (fun e => (0, put blank e)) s = Some (0, with_table s t' (filled (htab s))) /\
  rep sz P (with_table s t' (filled (htab s))) t' m /\ holds t' (fun _ => blank).
Proof.
  intros Hrep. unfold hwalk_r. rewrite bind_gets, (rep_size _ _ _ _ _ Hrep).
  apply (clear_loop_ok _ 1 s t m); [lia|lia|done|]. intros. lia.
Qed.

(** *** Assigning *)
Definition set_attr (name : list Z) (value : option (list Z)) : H Z :=
  '(_, ep) ← hsearch_r name None FIND 0;
  match ep with
  | Some i => update_entry i (fun e => put (assign value (get e)) e)
  | None => mret tt
  end;;
  mret 0.

(** The value a variable has after the declarations: each for its very name counts. *)
Definition assigned (ds : list declaration) (k : list Z) : A :=
  foldl (fun a d => if decide (d.1 = k) then assign d.2 a else a) blank ds.

Definition walked (m : gmap (list Z) (list Z)) (ds : list declaration) (s : state) : Prop :=
  mem_ok s /\ exists t, rep sz P s t m /\ holds t (assigned ds).

Lemma assigned_snoc ds d k : assigned (ds ++ [d]) k = if decide (d.1 = k) then assign d.2 (assigned ds k) else assigned ds k.
Proof. unfold assigned. by rewrite foldl_snoc. Qed.

Lemma holds_ext t F F' : (forall k, F k = F' k) -> holds t F -> holds t F'.
Proof. intros E HF i e k v ? ? ?. rewrite <- E. by eapply HF. Qed.

Lemma set_attr_ok m ds s d : walked m ds s -> chars d.1 ->
  exists s', set_attr d.1 d.2 s = Some (0, s') /\ walked m (ds ++ [d]) s'.
Proof.
  intros (Hmem & t & Hrep & HF) Hc. unfold set_attr.
  pose proof (find_ok sz Hsz Hprime P s t m d.1 None 0 Hrep Hc) as Hfind. destruct (m !! d.1) as [v|] eqn:Em.
  - destruct Hfind as (i & e & Hi & He & Hl & E). rewrite (bind_eq _ _ _ _ _ E).
    unfold update_entry. rewrite bind_assoc, (bind_eq _ _ _ e s) by (eapply slot_eq; [apply Hrep|lia|done]).
    destruct (update_ok s t m i e (assign d.2 (get (entry e)))) as [Es Hrep']; [done|done|done|apply Hl| |].
    { apply put_assign. by apply (Forall_lookup_1 _ _ _ _ (inv_callbacks _ _ _ (rep_inv _ _ _ _ _ Hrep)) He). }
    rewrite (bind_eq _ _ _ _ _ Es). eexists. split; [reflexivity|]. split; [done|]. eexists. split; [exact Hrep'|].
    eapply holds_ext; [|by eapply holds_update]. intros k. cbn. rewrite assigned_snoc.
    rewrite (HF i e d.1 v) by done. repeat case_decide; congruence.
  - rewrite (bind_eq _ _ _ _ _ Hfind), bind_ret. eexists. split; [reflexivity|]. split; [done|]. exists t.
    split; [by apply (rep_htab s)|]. intros i e k v Hi He Hl. rewrite assigned_snoc.
    case_decide as E; [|by eapply HF]. subst k. exfalso. eapply (no_live sz t m d.1); [apply Hrep|exact Em|exact Hi|exact He|exact Hl].
Qed.

Lemma alloc_walked m ds s : walked m ds s -> exists s', alloc s = Some (true, s') /\ walked m ds s'.
Proof.
  intros (Hmem & t & Hrep & HF). destruct (alloc_mem_ok s Hmem) as (s' & E & Hmem' & Hh & _).
  exists s'. split; [done|]. split; [done|]. exists t. split; [by eapply rep_htab|done].
Qed.

Lemma walk_attr_ok m ds s l : walked m ds s -> chars l ->
  exists s', env_attr_walk alloc set_attr (Some l) s = Some (0, s') /\ walked m (ds ++ declarations l) s'.
Proof.
  intros Hw Hl. by apply (env_attr_walk_ok alloc set_attr (walked m) (fun d => chars d.1) (alloc_walked m)
    (fun ds s d => set_attr_ok m ds s d)); [|apply declarations_chars].
Qed.

Lemma on_attr_ok s t m static value :
  rep sz P s t m -> mem_ok s -> chars static -> chars (default [] value) ->
  exists s', (hwalk_r (fun e => (0, put blank e));; env_attr_walk alloc set_attr (Some static);;
              env_attr_walk alloc set_attr value;; mret 0) s = Some (0, s') /\
    exists t', rep sz P s' t' m /\ holds t' (assigned (declarations static ++ declarations (default [] value))).
Proof.
  intros Hrep Hmem Hst Hv. destruct (clear_ok s t m Hrep) as (t1 & E1 & Hrep1 & H1).
  rewrite (bind_eq _ _ _ _ _ E1). destruct (walk_attr_ok m [] (with_table s t1 (filled (htab s))) static) as (s2 & E2 & Hw2);
    [split; [done|by exists t1]|done|]. rewrite (bind_eq _ _ _ _ _ E2). destruct value as [l|].
  - destruct (walk_attr_ok m _ s2 l Hw2 Hv) as (s3 & E3 & _ & t3 & Hr3 & Hh3).
    rewrite (bind_eq _ _ _ _ _ E3). exists s3. split; [done|]. by exists t3.
  - destruct Hw2 as (_ & t2 & Hr2 & Hh2). exists s2. split; [done|]. exists t2. split; [done|].
    cbn. by rewrite app_nil_r.
Qed.
End tables.

(** ** Reading an image *)
Section image.
Context (size : Z).

Abbreviation var := (list Z * list Z)%type.
(** ["name=value"] entries, each closed by a NUL, and a NUL at the end. *)
Definition encode (v : var) : list Z := v.1 ++ [61] ++ v.2 ++ [0].
Definition image (vs : list var) : list Z := concat (map encode vs) ++ [0].
Definition name_ok (n : list Z) : Prop := chars n /\ 61 ∉ n.
Definition var_ok (v : var) : Prop := name_ok v.1 /\ v.1 <> [] /\ chars v.2.

(** The value as far as a buffer of [len] bytes holds it. *)
Definition fetched (v : list Z) (len : Z) : Z * list Z :=
  if zlen v <? len then (zlen v, v) else (len, take (Z.to_nat (len - 1)) v).

Lemma get_at pre c rest i : i = zlen pre -> env_get_char (pre ++ c :: rest) i = Some c.
Proof.
  intros ->. unfold env_get_char, zlen. rewrite (proj2 (Z.ltb_ge _ _)) by lia. rewrite Nat2Z.id.
  by apply list_lookup_middle.
Qed.

(** The name is compared with that of the entry at [i]. *)
Lemma envmatch_ok n k pre rest i : name_ok n -> name_ok k -> i = zlen pre ->
  envmatch (pre ++ k ++ 61 :: rest) n i = Some (if decide (n = k) then i + zlen k + 1 else -1).
Proof.
  intros Hn. revert k pre i. induction n as [|c n IH]; intros k pre i Hk Hi.
  - destruct k as [|d k]; cbn [envmatch app].
    + rewrite get_at by done. cbn. rewrite decide_True by done. unfold zlen. cbn. f_equal. lia.
    + rewrite get_at by done. cbn. destruct Hk as [[Hd _]%chars_cons Hne].
      rewrite (proj2 (Z.eqb_neq d 0)) by lia. rewrite (proj2 (Z.eqb_neq d 61)); [done|]. intros ->. apply Hne. by left.
  - destruct Hn as [[Hc Hcn]%chars_cons Hnn]. apply not_elem_of_cons in Hnn as [Hc61 Hnn].
    assert (name_ok n) as Hn' by done. specialize (IH Hn').
    destruct k as [|d k]; cbn [envmatch app].
    + rewrite get_at by done. cbn. by rewrite (proj2 (Z.eqb_neq c 61)).
    + destruct Hk as [[Hd Hdk]%chars_cons Hkn]. rewrite get_at by done. cbn [mbind option_bind].
      destruct (Z.eqb_spec c d) as [->|Hcd].
      * apply not_elem_of_cons in Hkn as [Hd61 Hkn]. rewrite (proj2 (Z.eqb_neq d 61)) by done.
        replace (pre ++ d :: k ++ 61 :: rest) with ((pre ++ [d]) ++ k ++ 61 :: rest) by (by rewrite <- app_assoc).
        rewrite IH; [|done|subst i; unfold zlen; rewrite length_app; cbn; lia].
        unfold zlen. cbn [length]. repeat case_decide; simplify_eq; try done. f_equal. lia.
      * rewrite decide_False; [done|]. congruence.
Qed.

Lemma entry_end_ok s : forall f pre rest i, chars s -> i = zlen pre -> (length s < f)%nat -> zlen pre + zlen s <= size ->
  entry_end (pre ++ s ++ 0 :: rest) size f i = Some (inr (i + zlen s)).
Proof.
  induction s as [|c s IH]; intros [|f] pre rest i Hs Hi Hf Hsz; try (cbn in Hf; lia); cbn [entry_end app].
  - rewrite get_at by done. cbn. unfold zlen. cbn. do 2 f_equal. lia.
  - apply chars_cons in Hs as [Hc Hs]. rewrite get_at by done. cbn [mbind option_bind].
    rewrite (proj2 (Z.eqb_neq c 0)) by lia. unfold zlen in Hsz. cbn [length] in Hsz, Hf.
    rewrite (proj2 (Z.leb_gt _ _)) by (unfold zlen in *; lia).
    replace (pre ++ c :: s ++ 0 :: rest) with ((pre ++ [c]) ++ s ++ 0 :: rest) by (by rewrite <- app_assoc).
    rewrite IH; [|done|subst i; unfold zlen; rewrite length_app; cbn; lia|lia|unfold zlen; rewrite length_app; cbn; lia].
    unfold zlen. cbn [length]. do 2 f_equal. lia.
Qed.

Lemma copy_out_ok v : forall len pre rest i, chars v -> i = zlen pre ->
  copy_out (pre ++ v ++ 0 :: rest) len i =
    Some (if decide (length v < len)%nat then (v, true) else (take len v, false)).
Proof.
  induction v as [|c v IH]; intros [|len] pre rest i Hv Hi; cbn [copy_out app]; try done.
  - rewrite get_at by done. cbn. by rewrite decide_True by lia.
  - apply chars_cons in Hv as [Hc Hv]. rewrite get_at by done. cbn [mbind option_bind].
    rewrite (proj2 (Z.eqb_neq c 0)) by lia.
    replace (pre ++ c :: v ++ 0 :: rest) with ((pre ++ [c]) ++ v ++ 0 :: rest) by (by rewrite <- app_assoc).
    rewrite IH; [|done|subst i; unfold zlen; rewrite length_app; cbn; lia]. cbn [mbind option_bind length take].
    repeat case_decide; (done || lia).
Qed.

Lemma getenv_f_loop_ok n len vs : forall f pre, name_ok n -> 0 < len -> Forall var_ok vs -> (length vs < f)%nat ->
  zlen (pre ++ image vs) <= size ->
  getenv_f_loop (pre ++ image vs) size f n len (zlen pre) =
    Some (match list_find (fun v => v.1 = n) vs with Some (_, v) => fetched v.2 len | None => (-1, []) end).
Proof.
  induction vs as [|v vs IH]; intros [|f] pre Hn Hlen Hvs Hf Hsz; try (cbn in Hf; lia); cbn [getenv_f_loop].
  { change (image []) with [0]. by rewrite get_at. }
  apply Forall_cons_1 in Hvs as [(Hk & Hne & Hv) Hvs]. destruct v as [k v]. cbn [fst snd] in *.
  assert (image ((k, v) :: vs) = k ++ 61 :: v ++ 0 :: image vs) as Eim.
  { unfold image, encode. cbn. rewrite <- !app_assoc. cbn. by rewrite <- !app_assoc. }
  rewrite Eim in Hsz |- *. clear Eim. destruct k as [|c k]; [done|]. pose proof Hk as [[Hc Hck]%chars_cons _].
  cbn [app]. rewrite get_at by done. cbn [mbind option_bind]. rewrite (proj2 (Z.eqb_neq c 0)) by lia.
  change (c :: k ++ 61 :: v ++ 0 :: image vs) with ((c :: k) ++ 61 :: v ++ 0 :: image vs) in *.
  assert (chars ((c :: k) ++ 61 :: v)) as Hall.
  { apply Forall_app. split; [apply Hk|]. apply chars_cons. split; [lia|done]. }
  assert ((c :: k) ++ 61 :: v ++ 0 :: image vs = ((c :: k) ++ 61 :: v) ++ 0 :: image vs) as Eall by (by rewrite <- app_assoc).
  assert (zlen (pre ++ (c :: k) ++ 61 :: v ++ 0 :: image vs) = zlen pre + zlen ((c :: k) ++ 61 :: v) + zlen (0 :: image vs)) as El.
  { unfold zlen. rewrite Eall, !length_app. lia. }
  set (W := pre ++ (c :: k) ++ 61 :: v ++ 0 :: image vs) in *.
  assert (entry_end W size (S (length W)) (zlen pre) = Some (inr (zlen pre + zlen ((c :: k) ++ 61 :: v)))) as ->.
  { unfold zlen in *. unfold W at 1. rewrite Eall. apply entry_end_ok; [done|done|lia|]. unfold zlen. cbn [length] in *. lia. }
  unfold W in *. clear W. cbn [mbind option_bind]. rewrite envmatch_ok by done. cbn [mbind option_bind list_find fst].
  destruct (decide (n = c :: k)) as [->|Hnk].
  - rewrite (decide_True (P := c :: k = c :: k)) by done. cbn [fmap option_fmap option_map].
    rewrite (proj2 (Z.ltb_ge _ 0)) by (unfold zlen; lia).
    replace (pre ++ (c :: k) ++ 61 :: v ++ 0 :: image vs) with ((pre ++ (c :: k) ++ [61]) ++ v ++ 0 :: image vs) by (rewrite <- !app_assoc; done).
    rewrite copy_out_ok; [|done|unfold zlen; rewrite !length_app; cbn; lia]. cbn [mbind option_bind snd]. unfold fetched, zlen.
    case_decide as Hl; cbn [negb]; [rewrite (proj2 (Z.ltb_lt _ _)) by lia; done|rewrite (proj2 (Z.ltb_ge _ _)) by lia].
    rewrite take_take. do 3 f_equal. lia.
  - rewrite (decide_False (P := c :: k = n)) by done. cbn [Z.ltb Z.compare].
    assert (pre ++ (c :: k) ++ 61 :: v ++ 0 :: image vs = (pre ++ ((c :: k) ++ 61 :: v) ++ [0]) ++ image vs) as E2
      by (rewrite Eall, <- !app_assoc; done).
    rewrite E2 in Hsz |- *. replace (zlen pre + zlen ((c :: k) ++ 61 :: v) + 1) with (zlen (pre ++ ((c :: k) ++ 61 :: v) ++ [0]))
      by (unfold zlen; rewrite !length_app; cbn; lia).
    cbn in Hf. rewrite (IH f); [|done|done|done|lia|done]. by destruct (list_find _ vs) as [[? ?]|].
Qed.

Lemma getenv_f_ok n len vs : name_ok n -> 0 < len -> Forall var_ok vs -> zlen (image vs) <= size ->
  getenv_f (image vs) size n len =
    Some (match list_find (fun v => v.1 = n) vs with Some (_, v) => fetched v.2 len | None => (-1, []) end).
Proof.
  intros Hn Hl Hvs Hsz. apply (getenv_f_loop_ok n len vs _ []); try done.
  assert (length vs <= length (concat (map encode vs)))%nat as Hlen.
  { clear. induction vs as [|v vs IH]; cbn [map concat length]; [lia|]. unfold encode at 1. rewrite !length_app. cbn [length]. lia. }
  unfold image. rewrite length_app. cbn [length]. lia.
Qed.
End image.

(** ** The hooks of the hash table *)
Section hooks.
Context `{Slre} (flags_static callback_static : list Z) (env_clbk : list (list Z * (list Z -> option (list Z) -> env_op -> Z -> Z))).
Context (callback_list flags_list : option (list Z)).

Lemma env_flags_init_keeps_ok e s e' s' :
  env_flags_init_with flags_static flags_list e s = Some (e', s') ->
  key e' = key e /\ data e' = data e /\ callback e' = callback e.
Proof.
  unfold env_flags_init_with. rewrite bind_some. intros (n & s1 & _ & Hm). apply bind_some in Hm as ([r f] & s2 & _ & Hm).
  injection Hm as <- _. destruct f as [[|c f]|]; [done| |done]. by destruct (r =? 0).
Qed.

Lemma env_callback_init_keeps_ok e s e' s' :
  env_callback_init_with callback_static env_clbk callback_list e s = Some (e', s') ->
  key e' = key e /\ data e' = data e /\ flags e' = flags e /\
  (callback e' = callback e \/ exists n c, (n, c) ∈ env_clbk /\ callback e' = Some c).
Proof.
  unfold env_callback_init_with. rewrite bind_some. intros (n & s1 & _ & Hm).
  apply bind_some in Hm as (r1 & s2 & _ & Hm). apply bind_some in Hm as ([r f] & s3 & _ & Hm). injection Hm as <- _.
  destruct r; [|by auto..]. destruct f as [[|c f]|]; [by auto| |by auto].
  destruct (find_env_callback env_clbk (c :: f)) as [cb|] eqn:Ef; [|by auto]. cbn. do 3 (split; [done|]). right.
  revert Ef. generalize (c :: f). clear. induction env_clbk as [|[n0 c0] l IH]; intros name; cbn; [done|].
  destruct (str_cmp name n0 =? 0); [intros [= ->]; exists n0, cb; split; [by left|done]|].
  intros (n' & c' & Hin & Ec)%IH. exists n', c'. split; [by right|done].
Qed.

(** The hooks keep the promise the table relies on. *)
Lemma env_hooks_laws : @EnvHooksLaws (env_hooks flags_static callback_static env_clbk callback_list flags_list).
Proof.
  split; intros h e; cbn.
  - destruct (env_callback_init_with _ _ _ e _) as [[e' s']|] eqn:E; [|done].
    by apply env_callback_init_keeps_ok in E as (? & ? & _).
  - destruct (env_flags_init_with _ _ e _) as [[e' s']|] eqn:E; [|done].
    by apply env_flags_init_keeps_ok in E as (? & ? & _).
Qed.
End hooks.

(** ** Flags and callbacks after a change of the lists *)
Lemma assigned_last {A} (f : option (list Z) -> A) (a : A) ds k :
  assigned a (fun v _ => f v) ds k =
    match list.last (filter (fun d => d.1 = k) ds) with Some d => f d.2 | None => a end.
Proof.
  induction ds as [|d ds IH] using rev_ind; [done|]. rewrite assigned_snoc, IH, list.filter_app, filter_cons, filter_nil.
  case_decide; [by rewrite last_snoc|by rewrite app_nil_r].
Qed.

(** The flags the lists give a variable: the last declaration for its very name. *)
Definition declared_flags (ds : list declaration) (k : list Z) : Z :=
  match list.last (filter (fun d => d.1 = k) ds) with Some d => flags_of d.2 | None => 0 end.

Section changes.
Context (sz : Z) (Hsz : 5 <= sz < 2 ^ 31) (Hprime : Z.prime sz).
Context (P : option (list Z -> option (list Z) -> env_op -> Z -> Z) -> Prop) `{EnvHooks}.

Lemma on_flags_ok s t m static value :
  rep sz P s t m -> mem_ok s -> chars static -> chars (default [] value) ->
  exists s' t', on_flags static value s = Some (0, s') /\ rep sz P s' t' m /\
    forall i e k v, 1 <= i <= sz -> t' !! Z.to_nat i = Some e -> live e k v ->
      flags (entry e) = declared_flags (declarations static ++ declarations (default [] value)) k.
Proof.
  intros Hrep Hmem Hst Hv.
  destruct (on_attr_ok sz Hsz Hprime P flags (fun f e => set_entry_flags e f) 0 (fun v _ => flags_of v)
    (fun _ _ => eq_refl) (fun _ _ => conj eq_refl eq_refl) (fun _ Hp => Hp) (fun _ _ Hp => Hp) s t m static value
    Hrep Hmem Hst Hv) as (s' & E & t' & Hrep' & Hh).
  exists s', t'. split; [exact E|]. split; [done|]. intros i e k v Hi He Hl.
  rewrite (Hh i e k v Hi He Hl). apply assigned_last.
Qed.

(** What a declaration makes of the callback: an unknown name changes nothing. *)
Definition assign_callback (clbk : list (list Z * (list Z -> option (list Z) -> env_op -> Z -> Z)))
  (v : option (list Z)) (old : option (list Z -> option (list Z) -> env_op -> Z -> Z)) :=
  match v with
  | Some ((_ :: _) as v) => match find_env_callback clbk v with Some c => Some c | None => old end
  | _ => None
  end.

Lemma set_callback_eq clbk name value s :
  set_callback clbk name value s = set_attr callback (fun c e => set_entry_callback e c) (assign_callback clbk) name value s.
Proof.
  unfold set_callback, set_attr. unfold mbind, M_bind. destruct (hsearch_r name None FIND 0 s) as [[[r ep] s']|]; [|done].
  destruct ep as [i|]; [|done]. unfold update_entry, mbind, M_bind. destruct (slot i s') as [[e s'']|]; [|done].
  do 3 f_equal. unfold assign_callback. destruct value as [[|c v]|]; [done| |done].
  destruct (find_env_callback clbk (c :: v)); [done|]. by destruct (entry e).
Qed.

Lemma walk_ext {S} (al : M S bool) cb cb' : (forall n v s, cb n v s = cb' n v s) ->
  forall l s, env_attr_walk al cb l s = env_attr_walk al cb' l s.
Proof.
  intros E [l|] s; [|done]. unfold env_attr_walk. generalize (Datatypes.S (length l)) as f. intros f. revert l s.
  induction f as [|f IH]; intros l s; [done|]. cbn [walk_loop]. destruct (split_chr l ENV_ATTR_LIST_DELIM) as [e r].
  unfold mbind, M_bind, walk_entry. assert (forall s, walk_entry al cb e s = walk_entry al cb' e s) as He.
  { intros s0. unfold walk_entry. destruct (bool_decide _); [done|]. unfold mbind, M_bind. destruct (al s0) as [[b s1]|]; [|done].
    destruct (negb b); [done|]. destruct (split_chr e ENV_ATTR_SEP). destruct (bool_decide _); [done|apply E]. }
  unfold walk_entry in He. rewrite He. destruct (_ s) as [[r0 s1]|]; [|done]. destruct (negb (r0 =? 0)); [done|].
  by destruct r.
Qed.

Lemma on_callbacks_ok s t m static clbk value :
  P None -> (forall n c, (n, c) ∈ clbk -> P (Some c)) ->
  rep sz P s t m -> mem_ok s -> chars static -> chars (default [] value) ->
  exists s' t', on_callbacks static clbk value s = Some (0, s') /\ rep sz P s' t' m /\
    forall i e k v, 1 <= i <= sz -> t' !! Z.to_nat i = Some e -> live e k v ->
      callback (entry e) =
        assigned None (assign_callback clbk) (declarations static ++ declarations (default [] value)) k.
Proof.
  intros HP0 HPc Hrep Hmem Hst Hv.
  assert (forall v e, P (callback e) -> P (callback (set_entry_callback e (assign_callback clbk v (callback e))))) as HPa.
  { intros v e HPe. cbn. unfold assign_callback. destruct v as [[|c v]|]; [done| |done].
    generalize (c :: v) as name. intros name. clear Hv. induction clbk as [|[n0 c0] l IH]; [done|]. cbn.
    destruct (str_cmp name n0 =? 0); [by apply (HPc n0); left|]. apply IH. intros n c' Hin. apply (HPc n). by right. }
  destruct (on_attr_ok sz Hsz Hprime P callback (fun c e => set_entry_callback e c) None (assign_callback clbk)
    (fun _ _ => eq_refl) (fun _ _ => conj eq_refl eq_refl) (fun _ _ => HP0) HPa s t m static value
    Hrep Hmem Hst Hv) as (s' & E & t' & Hrep' & Hh).
  exists s', t'. split; [|done]. rewrite <- E. unfold on_callbacks, mbind, M_bind. destruct (hwalk_r _ s) as [[r s1]|]; [|done].
  rewrite (walk_ext _ _ _ (set_callback_eq clbk)). destruct (env_attr_walk _ _ _ s1) as [[r2 s2]|]; [|done].
  by rewrite (walk_ext _ _ _ (set_callback_eq clbk)).
Qed.
End changes.

(** ** Theorems *)

(** Looking a name up in an attribute list, with memory available and every pattern of
    the list well formed, gives the attributes of the last declaration whose pattern,
    anchored at both ends, matches the name, and reports that there is none otherwise.
    The table is left alone.  A declaration without [":"] that matches is excluded: the
    code then takes the length of a null pointer. *)
Theorem env_attr_lookup_spec `{Slre} l name cap s :
  mem_ok s -> Forall (usable name) (declarations l) ->
  match winner name (declarations l) with
  | Some (_, Some a) => zlen a < cap
  | _ => True
  end ->
  exists s', env_attr_lookup (Some l) name cap s =
    Some (match winner name (declarations l) with
          | Some d => (0, d.2)
          | None => (- ENOENT, None)
          end, s') /\ mem_ok s' /\ htab s' = htab s /\ errno s' = errno s.
Proof. apply env_attr_lookup_ok. Qed.

(** C40: the type check of a value accepts exactly the strings the type admits: decimal and
    hexadecimal digits (with an optional [0x] that digits must follow), one character for
    a boolean, four dotted groups of one to three digits for an IP address, six groups of
    one or two hexadecimal digits, each with an optional [0x] or [0X] before it, separated by
    colons for a MAC address. *)
Theorem validate_type_spec v type :
  chars v -> 0 <= type -> (_env_flags_validate_type v type = 0 <-> admits type v).
Proof. apply validate_type_ok. Qed.

(** For a variable whose flags were parsed from a flags string, a change is refused
    with -1 if the new value does not have the declared type, and otherwise with 1 exactly
    if the access method does not permit the operation and it is not forced: read-only
    permits nothing, write-once only creation, change-default no deletion and overwriting
    only the default value. *)
Theorem env_flags_validate_spec denv size (item : ENTRY) f newval op flag name old def :
  flags item = env_parse_flags_to_bin f -> key item = Some name -> data item = Some old ->
  getenv_default denv size name = Some def -> chars old -> chars (default [] def) ->
  env_flags_validate denv size item newval op flag =
    Some (if negb (bool_decide (op = env_op_delete)) &&
             (_env_flags_validate_type (default [] newval) (env_flags_parse_vartype f) <? 0) then -1
          else if negb (Z.land flag H_FORCE =? 0) ||
                  permitted (env_flags_parse_varaccess f) op old (default [] def) then 0 else 1).
Proof.
  intros Hf Hk Hd Hdef Hco Hcd.
  apply (validate_bin _ _ item newval op flag denv size name old def);
    [apply parse_vartype_range|apply parse_varaccess_range|exact Hf|done..].
Qed.

(** C39: setting [.flags] keeps every variable and its value, and leaves each variable
    with the flags of the last declaration for its very name in the static list followed
    by the new one, and with none if there is no such declaration.  Patterns count for
    nothing here, unlike in the lookup of a new variable. *)
Theorem on_flags_spec `{EnvHooks} sz P s t m static value :
  5 <= sz < 2 ^ 31 -> Z.prime sz -> rep sz P s t m -> mem_ok s -> chars static -> chars (default [] value) ->
  exists s' t', on_flags static value s = Some (0, s') /\ rep sz P s' t' m /\
    forall i e k v, 1 <= i <= sz -> t' !! Z.to_nat i = Some e -> live e k v ->
      flags (entry e) = declared_flags (declarations static ++ declarations (default [] value)) k.
Proof. intros Hsz Hprime. by apply on_flags_ok. Qed.

(** Reading a variable from an environment image finds the first entry of that name,
    copies its value as far as the buffer holds it with its terminator, and reports -1 if
    there is none. *)
Theorem getenv_f_spec size n len vs :
  name_ok n -> 0 < len -> Forall var_ok vs -> zlen (image vs) <= size ->
  getenv_f (image vs) size n len =
    Some (match list_find (fun v => v.1 = n) vs with Some (_, v) => fetched v.2 len | None => (-1, []) end).
Proof. apply getenv_f_ok. Qed.

(** ** Witnesses *)
(** A matcher that knows literals and [\d?]. *)
Fixpoint demo_match (pat s : list Z) : bool :=
  match pat with
  | [] => bool_decide (s = [])
  | c :: pat' =>
      (match pat' with
       | 100 :: 63 :: p => (c =? 92) && (demo_match p s || match s with d :: s => isdigit d && demo_match p s | [] => false end)
       | _ => false
       end) || match s with d :: s => (c =? d) && demo_match pat' s | [] => false end
  end.
Definition demo_slre : Slre :=
  {| slre := list Z;
     slre_compile re := match re with c :: p => if c =? 94 then Some (removelast p) else None | [] => None end;
     slre_match := demo_match |}.

Lemma chars_check s : forallb (fun c => (0 <? c) && (c <? 256)) s = true -> chars s.
Proof.
  intros Hs. apply Forall_forall. intros c Hc. rewrite forallb_forall in Hs. specialize (Hs c Hc). lia.
Qed.

Definition flags_static : list Z := str "eth\d?addr:mo, ipaddr:i,serial#:so".
Lemma flags_static_chars : chars flags_static.
Proof. by apply chars_check. Qed.

Lemma env_attr_lookup_spec_witness : exists s',
  @env_attr_lookup demo_slre (Some flags_static) (str "eth1addr") 3 (demo_state None 0) = Some ((0, Some (str "mo")), s') /\
  mem_ok s' /\ htab s' = htab (demo_state None 0) /\ errno s' = 0.
Proof.
  apply (@env_attr_lookup_spec demo_slre flags_static (str "eth1addr") 3 (demo_state None 0)); [apply Forall_nil_2| |by vm_compute].
  replace (declarations flags_static) with
    [(str "eth\d?addr", Some (str "mo")); (str "ipaddr", Some (str "i")); (str "serial#", Some (str "so"))] by (by vm_compute).
  repeat (apply Forall_cons_2; [split; [by eexists|intros _; by eexists]|]). apply Forall_nil_2.
Defined.

Lemma validate_type_spec_witness : admits env_flags_vartype_macaddr (str "00:50:43:0x2:AA:ff").
Proof.
  apply validate_type_spec; [by apply chars_check|done|by vm_compute].
Defined.

(** A write-once MAC address. *)
Definition demo_item : ENTRY := Entry (Some (str "ethaddr")) (Some (str "00:50:43:02:00:01")) None (env_parse_flags_to_bin (str "mo")).
Lemma env_flags_validate_spec_witness :
  env_flags_validate [0] 1024 demo_item (Some (str "00:50:43:02:00:02")) env_op_overwrite 0 = Some 1.
Proof.
  rewrite (env_flags_validate_spec [0] 1024 demo_item (str "mo") _ env_op_overwrite 0 (str "ethaddr") (str "00:50:43:02:00:01") None);
    [by vm_compute|done|done|done|by vm_compute|by apply chars_check..].
Defined.

Lemma on_flags_spec_witness : exists s' t',
  @on_flags flags_static no_hooks (Some (str "a:dr")) (demo_state (Some demo_full) 1) = Some (0, s') /\
  rep 5 (fun _ => True) s' t' {[ [97] := [49] ]} /\
  forall i e k v, 1 <= i <= 5 -> t' !! Z.to_nat i = Some e -> live e k v ->
    flags (entry e) = declared_flags (declarations flags_static ++ declarations (str "a:dr")) k.
Proof.
  apply (@on_flags_spec no_hooks 5 (fun _ => True) (demo_state (Some demo_full) 1) demo_full {[ [97] := [49] ]} flags_static (Some (str "a:dr")));
    [lia|apply prime_5|apply demo_full_rep|apply Forall_nil_2|apply flags_static_chars|by apply chars_check].
Defined.

Lemma getenv_f_spec_witness :
  getenv_f (image [(str "a", str "1"); (str "baudrate", str "115200")]) 64 (str "baudrate") 5 = Some (5, str "1152").
Proof.
  rewrite getenv_f_spec; [by vm_compute| |lia| |by vm_compute].
  - split; [by apply chars_check|].
    by apply (bool_decide_eq_false_1 _); vm_compute.
  - repeat apply Forall_cons_2; try apply Forall_nil_2; (split; [split|split; [done|]]).
    all: try (by apply chars_check).
    all: by apply (bool_decide_eq_false_1 _); vm_compute.
Defined.

(** A MAC address declared write-once by a pattern: the flags of a new variable have it,
    and a change of [.flags] takes it away. *)
Example on_flags_drops_patterns :
  option_map fst (@env_flags_init_with demo_slre flags_static None demo_item (demo_state None 0)) = Some demo_item /\
  declared_flags (declarations flags_static) (str "ethaddr") = 0.
Proof. split; by vm_compute. Qed.

(** IP addresses are checked in form only. *)
Example ip_groups_unbounded : _env_flags_validate_type (str "999.999.999.999") env_flags_vartype_ipaddr = 0.
Proof. by vm_compute. Qed.
