(* ===== verification/Psci.v ===== *)
(** * Power management in the Trusted Firmware: lib/psci

    Data of psci_private.h and psci.h, the tree and its setup (psci_setup.c), the common
    operations (psci_common.c), CPU_ON, CPU_OFF and CPU_SUSPEND (psci_on.c, psci_off.c,
    psci_suspend.c) and the SMC front end (psci_main.c), with the default coordination of
    plat/common/plat_psci_common.c.

    Every operation takes the index [my] of the core that runs it.  Calls to the platform,
    the Secure Payload Dispatcher and the locks are recorded in a log, in order; what the
    platform and the dispatcher answer is a parameter and may depend on the log; a hook that
    panics instead stops the core that called it.  Indices
    out of an array's range and failed assertions yield [None].  Cache maintenance,
    statistics, messages and the [SCP_IMAGE] variant are not modelled.  Levels are [nat];
    node indices are 32-bit, the parent of a root is [-1]. *)

From Stdlib Require Import ZArith Lia.
From stdpp Require Import base option list numbers.
From S2P Require Import Prelude CMonad.
Open Scope Z_scope.
Open Scope cint_scope.

Module Psci.

(** ** Data *)
Inductive aff_info_state_t := AFF_STATE_ON | AFF_STATE_OFF | AFF_STATE_ON_PENDING.
#[global] Instance aff_info_state_eq_dec : EqDecision aff_info_state_t.
Proof. solve_decision. Defined.

Record non_cpu_pd_node_t := Node {
  cpu_start_idx : Z;
  ncpus : Z;
  parent_node : Z;
  local_state : Z;
  level : Z;
  lock_index : Z
}.
Record cpu_pd_node_t := CpuNode { mpidr : Z; cpu_parent_node : Z }.
Record psci_cpu_data_t := CpuData { aff_info_state : aff_info_state_t; target_pwrlvl : nat; cpu_local_state : Z }.

Record entry_point_info_t := Ep { ep_pc : Z; ep_arg0 : Z; ep_attr : Z; ep_spsr : Z }.

(** [psci_power_state_t]: the local state at each level. *)
Abbreviation psci_power_state_t := (list Z).

Inductive event :=
| LockGet (my : nat) (lock : Z) | LockRelease (my : nat) (lock : Z)
| SpinLock (cpu : nat) | SpinUnlock (cpu : nat)
| PwrDomainOn (mpidr : Z) | PwrDomainOnFinish (my : nat) (st : psci_power_state_t)
| PwrDomainOff (my : nat) (st : psci_power_state_t)
| PwrDomainSuspend (my : nat) (st : psci_power_state_t)
| PwrDomainSuspendFinish (my : nat) (st : psci_power_state_t)
| CpuStandby (my : nat) (state : Z)
| SvcOn (mpidr : Z) | SvcOnFinish | SvcOff | SvcSuspend (max_off : nat) | SvcSuspendFinish (max_off : nat)
| InitContext (cpu : nat) (ep : entry_point_info_t) | PrepareExit (my : nat)
| PowerDownWfi (my : nat) | Wfi (my : nat) | Panic (my : nat) | SvcSystemOff | SystemOff | SvcSystemReset | SystemReset.

(** The optional hooks of the Secure Payload Dispatcher. *)
Record spd_pm_ops_t := Spd {
  svc_on : bool;
  svc_off : option (list event -> Z);
  svc_suspend : bool;
  svc_on_finish : bool;
  svc_migrate : option (Z -> Z -> Z);
  svc_migrate_info : option (Z * Z);
  svc_system_off : bool;
  svc_system_reset : bool
}.

Class Plat := {
  PLAT_MAX_PWR_LVL : nat;
  PLATFORM_CORE_COUNT : nat;
  PSCI_NUM_NON_CPU_PWR_DOMAINS : nat;
  PLAT_MAX_RET_STATE : Z;
  PLAT_MAX_OFF_STATE : Z;
  plat_core_pos_by_mpidr : Z -> Z;
  read_mpidr : nat -> Z;
  (** The result and the requested state of each level; [None] is a hook that panics. *)
  pm_validate_power_state : Z -> option (Z * psci_power_state_t);
  pm_validate_ns_entrypoint : option (Z -> Z);
  pm_get_sys_suspend_power_state : psci_power_state_t;
  pm_pwr_domain_on : list event -> Z -> Z;
  (** [None] without the hook; otherwise, whether it returns or panics. *)
  pm_cpu_standby : option bool;
  pm_get_node_hw_state : Z -> Z -> Z;
  psci_spd_pm : option spd_pm_ops_t;
  (** Which of the platform's hooks exist, as far as capabilities depend on them. *)
  has_pwr_domain_off : bool;
  has_pwr_domain_on : bool;
  has_pwr_domain_suspend : bool;
  has_get_sys_suspend_power_state : bool;
  has_system_off : bool;
  has_system_reset : bool;
  has_get_node_hw_state : bool;
  (** Pending interrupts, and the registers the entry point is derived from. *)
  read_isr_el1 : list event -> Z;
  read_scr_el3 : Z;
  read_sctlr_el1 : Z;
  read_sctlr_el2 : Z
}.

Definition PSCI_E_SUCCESS := 0.
Definition PSCI_E_NOT_SUPPORTED := -1.
Definition PSCI_E_INVALID_PARAMS := -2.
Definition PSCI_E_DENIED := -3.
Definition PSCI_E_ALREADY_ON := -4.
Definition PSCI_E_ON_PENDING := -5.
Definition PSCI_E_INTERN_FAIL := -6.
Definition PSCI_E_NOT_PRESENT := -7.
Definition PSCI_E_INVALID_ADDRESS := -9.
Definition PSCI_INVALID_MPIDR := 0xFFFFFFFFFFFFFFFF.
Definition MPIDR_AFFINITY_MASK := 0xff00ffffff.
Definition PSCI_LOCAL_STATE_RUN := 0.
Definition PSCI_CPU_PWR_LVL : nat := 0.

Definition is_local_state_run (s : Z) : bool := s =? PSCI_LOCAL_STATE_RUN.

(** Arrays indexed by C integers. *)
Definition zget {A} (l : list A) (i : Z) : option A :=
  if (0 <=? i) && (i <? zlen l) then l !! Z.to_nat i else None.

Section psci.
Context `{Plat}.

Definition PSCI_INVALID_PWR_LVL : nat := S PLAT_MAX_PWR_LVL.
Definition is_local_state_off (s : Z) : bool := (PLAT_MAX_RET_STATE <? s) && (s <=? PLAT_MAX_OFF_STATE).

Record psci := Psci_ {
  psci_non_cpu_pd_nodes : list non_cpu_pd_node_t;
  psci_cpu_pd_nodes : list cpu_pd_node_t;
  psci_req_local_pwr_states : list (list Z);
  cpu_data : list psci_cpu_data_t;
  log : list event
}.
Abbreviation F := (M psci).

Definition assert (b : bool) : F unit := if b then mret tt else must None.
Definition emit (e : event) : F unit :=
  modify (fun s => Psci_ (psci_non_cpu_pd_nodes s) (psci_cpu_pd_nodes s) (psci_req_local_pwr_states s) (cpu_data s) (log s ++ [e])).
Definition node (i : Z) : F non_cpu_pd_node_t := s ← gets psci_non_cpu_pd_nodes; must (zget s i).
Definition set_node (i : Z) (n : non_cpu_pd_node_t) : F unit :=
  nodes ← gets psci_non_cpu_pd_nodes;
  assert (bool_decide (is_Some (zget nodes i)));;
  modify (fun s => Psci_ (<[Z.to_nat i := n]> (psci_non_cpu_pd_nodes s)) (psci_cpu_pd_nodes s) (psci_req_local_pwr_states s) (cpu_data s) (log s)).
Definition cpu_node (c : nat) : F cpu_pd_node_t := s ← gets psci_cpu_pd_nodes; must (s !! c).
Definition set_cpu_node (c : nat) (n : cpu_pd_node_t) : F unit :=
  nodes ← gets psci_cpu_pd_nodes;
  assert (bool_decide (is_Some (nodes !! c)));;
  modify (fun s => Psci_ (psci_non_cpu_pd_nodes s) (<[c := n]> (psci_cpu_pd_nodes s)) (psci_req_local_pwr_states s) (cpu_data s) (log s)).
Definition get_data (c : nat) : F psci_cpu_data_t := d ← gets cpu_data; must (d !! c).
Definition set_data (c : nat) (d : psci_cpu_data_t) : F unit :=
  ds ← gets cpu_data;
  assert (bool_decide (is_Some (ds !! c)));;
  modify (fun s => Psci_ (psci_non_cpu_pd_nodes s) (psci_cpu_pd_nodes s) (psci_req_local_pwr_states s) (<[c := d]> (cpu_data s)) (log s)).

Definition with_local_state (n : non_cpu_pd_node_t) (st : Z) : non_cpu_pd_node_t :=
  Node (cpu_start_idx n) (ncpus n) (parent_node n) st (level n) (lock_index n).
Definition psci_get_aff_info_state (c : nat) : F aff_info_state_t := d ← get_data c; mret (aff_info_state d).
Definition psci_set_aff_info_state (c : nat) (a : aff_info_state_t) : F unit :=
  d ← get_data c; set_data c (CpuData a (target_pwrlvl d) (cpu_local_state d)).
Definition psci_set_suspend_pwrlvl (c lvl : nat) : F unit :=
  d ← get_data c; set_data c (CpuData (aff_info_state d) lvl (cpu_local_state d)).
Definition psci_set_cpu_local_state (c : nat) (st : Z) : F unit :=
  d ← get_data c; set_data c (CpuData (aff_info_state d) (target_pwrlvl d) st).

Definition psci_lock_get (my : nat) (n : non_cpu_pd_node_t) : F unit := emit (LockGet my (lock_index n)).
Definition psci_lock_release (my : nat) (n : non_cpu_pd_node_t) : F unit := emit (LockRelease my (lock_index n)).

(** ** The power domain tree *)
Definition psci_init_pwr_domain_node (node_idx : Z) (parent_idx : Z) (lvl : nat) : F unit :=
  if bool_decide (PSCI_CPU_PWR_LVL < lvl)%nat then
    n ← node node_idx;
    set_node node_idx (Node (cpu_start_idx n) (ncpus n) parent_idx PLAT_MAX_OFF_STATE (Z.of_nat lvl) (u8 node_idx))
  else
    let c := Z.to_nat node_idx in
    set_cpu_node c (CpuNode PSCI_INVALID_MPIDR parent_idx);;
    set_data c (CpuData AFF_STATE_OFF PSCI_INVALID_PWR_LVL PLAT_MAX_OFF_STATE).

(** The children of one node: [j] runs up to [node_index + num_children]. *)
Fixpoint init_children (k : nat) (j parent_idx : Z) (lvl : nat) : F Z :=
  match k with
  | O => mret j
  | S k => psci_init_pwr_domain_node j parent_idx lvl;; init_children k (j + 1) parent_idx lvl
  end.

(** The nodes of one level: the next free index, the children and the next parent. *)
Fixpoint populate_level (topology : list Z) (n : nat) (node_index parent_node_index children : Z) (lvl : nat) : F (Z * Z * Z) :=
  match n with
  | O => mret (node_index, parent_node_index, children)
  | S n =>
      assert (parent_node_index <=? Z.of_nat PSCI_NUM_NON_CPU_PWR_DOMAINS);;
      num_children ← must (zget topology parent_node_index);
      j ← init_children (Z.to_nat num_children) node_index (parent_node_index -u32 1) lvl;
      populate_level topology n j (parent_node_index + 1) (children + num_children) lvl
  end.

(** From level [lvl] down to the cores, whose indices start afresh; the last [j]. *)
Fixpoint populate_levels (topology : list Z) (lvl : nat) (num_nodes node_index parent_node_index j : Z) : F Z :=
  '(node_index, parent_node_index, children) ← populate_level topology (Z.to_nat num_nodes) node_index parent_node_index 0 lvl;
  let j := if num_nodes =? 0 then j else node_index in
  match lvl with
  | O => mret j
  | S lvl => populate_levels topology lvl children (match lvl with O => 0 | _ => node_index end) parent_node_index j
  end.

Definition populate_power_domain_tree (topology : list Z) : F unit :=
  j ← populate_levels topology PLAT_MAX_PWR_LVL 1 0 0 0;
  assert (j =? Z.of_nat PLATFORM_CORE_COUNT).

(** The ancestors at levels 1 to [n]. *)
Fixpoint parent_nodes (n : nat) (parent : Z) : F (list Z) :=
  match n with
  | O => mret []
  | S n => nd ← node parent; rest ← parent_nodes n (parent_node nd); mret (parent :: rest)
  end.
Definition psci_get_parent_pwr_domain_nodes (cpu_idx end_lvl : nat) : F (list Z) :=
  cn ← cpu_node cpu_idx; parent_nodes end_lvl (cpu_parent_node cn).

(** The loop over the levels from the highest; [nodes_idx] is the last node met at each. *)
Fixpoint limits_levels (j : nat) (cpu_idx : nat) (temp_index nodes_idx : list Z) : F (list Z) :=
  match j with
  | O => mret nodes_idx
  | S j =>
      t ← must (temp_index !! j); n ← must (nodes_idx !! j);
      nodes_idx ←
        (if negb (t =? n) then
           nd ← node t;
           set_node t (Node (Z.of_nat cpu_idx) (ncpus nd) (parent_node nd) (local_state nd) (level nd) (lock_index nd));;
           mret (<[j := t]> nodes_idx)
         else mret nodes_idx);
      nd ← node t;
      set_node t (Node (cpu_start_idx nd) (ncpus nd + 1) (parent_node nd) (local_state nd) (level nd) (lock_index nd));;
      limits_levels j cpu_idx temp_index nodes_idx
  end.
Fixpoint limits_cpus (n : nat) (cpu_idx : nat) (nodes_idx : list Z) : F unit :=
  match n with
  | O => mret tt
  | S n =>
      temp_index ← psci_get_parent_pwr_domain_nodes cpu_idx PLAT_MAX_PWR_LVL;
      nodes_idx ← limits_levels PLAT_MAX_PWR_LVL cpu_idx temp_index nodes_idx;
      limits_cpus n (S cpu_idx) nodes_idx
  end.
Definition psci_update_pwrlvl_limits : F unit :=
  limits_cpus PLATFORM_CORE_COUNT 0 (replicate PLAT_MAX_PWR_LVL 0).

(** ** Requested and target states *)
Definition psci_set_req_local_pwr_state (pwrlvl cpu_idx : nat) (req : Z) : F unit :=
  assert (bool_decide (PSCI_CPU_PWR_LVL < pwrlvl)%nat);;
  reqs ← gets psci_req_local_pwr_states;
  row ← must (reqs !! (pwrlvl - 1)%nat);
  assert (bool_decide (is_Some (row !! cpu_idx)));;
  modify (fun s => Psci_ (psci_non_cpu_pd_nodes s) (psci_cpu_pd_nodes s)
    (<[(pwrlvl - 1)%nat := <[cpu_idx := req]> row]> reqs) (cpu_data s) (log s)).
Definition psci_init_req_local_pwr_states : F unit :=
  modify (fun s => Psci_ (psci_non_cpu_pd_nodes s) (psci_cpu_pd_nodes s)
    (replicate (S PLAT_MAX_PWR_LVL) (replicate PLATFORM_CORE_COUNT PLAT_MAX_OFF_STATE)) (cpu_data s) (log s)).
(** The [n] requests from that of core [cpu_idx] on. *)
Definition psci_get_req_local_pwr_states (pwrlvl : nat) (cpu_idx n : Z) : F (list Z) :=
  assert (bool_decide (PSCI_CPU_PWR_LVL < pwrlvl)%nat);;
  reqs ← gets psci_req_local_pwr_states;
  row ← must (reqs !! (pwrlvl - 1)%nat);
  if (0 <=? cpu_idx) && (0 <=? n) && (cpu_idx + n <=? zlen row)
  then mret (take (Z.to_nat n) (drop (Z.to_nat cpu_idx) row)) else must None.

Fixpoint get_states (n : nat) (parent : Z) : F (list Z) :=
  match n with
  | O => mret []
  | S n => nd ← node parent; rest ← get_states n (parent_node nd); mret (local_state nd :: rest)
  end.
Definition psci_get_target_local_pwr_states (my end_pwrlvl : nat) : F psci_power_state_t :=
  d ← get_data my;
  cn ← cpu_node my;
  states ← get_states end_pwrlvl (cpu_parent_node cn);
  mret (cpu_local_state d :: states ++ replicate (PLAT_MAX_PWR_LVL - end_pwrlvl) PSCI_LOCAL_STATE_RUN).

Fixpoint set_states (n : nat) (lvl : nat) (parent : Z) (target : psci_power_state_t) : F unit :=
  match n with
  | O => mret tt
  | S n =>
      nd ← node parent; st ← must (target !! lvl);
      set_node parent (with_local_state nd st);;
      set_states n (S lvl) (parent_node nd) target
  end.
Definition psci_set_target_local_pwr_states (my end_pwrlvl : nat) (target : psci_power_state_t) : F unit :=
  st ← must (target !! PSCI_CPU_PWR_LVL);
  psci_set_cpu_local_state my st;;
  cn ← cpu_node my;
  set_states end_pwrlvl 1 (cpu_parent_node cn) target.

Fixpoint run_loop (n : nat) (lvl : nat) (parent : Z) (cpu_idx : nat) : F unit :=
  match n with
  | O => mret tt
  | S n =>
      nd ← node parent;
      set_node parent (with_local_state nd PSCI_LOCAL_STATE_RUN);;
      psci_set_req_local_pwr_state lvl cpu_idx PSCI_LOCAL_STATE_RUN;;
      run_loop n (S lvl) (parent_node nd) cpu_idx
  end.
Definition psci_set_pwr_domains_to_run (my end_pwrlvl : nat) : F unit :=
  cn ← cpu_node my;
  run_loop end_pwrlvl 1 (cpu_parent_node cn) my;;
  psci_set_aff_info_state my AFF_STATE_ON;;
  psci_set_cpu_local_state my PSCI_LOCAL_STATE_RUN.

(** ** Coordination *)
(** The default: the shallowest of the requested states. *)
Definition plat_get_target_pwr_state (states : list Z) : option Z :=
  match states with
  | [] => None
  | _ => Some (foldl (fun target temp => if temp <? target then temp else target) PLAT_MAX_OFF_STATE states)
  end.

(** Up to the first level whose target is [RUN]; the level reached is returned. *)
Fixpoint coordinate (n : nat) (lvl : nat) (parent : Z) (my : nat) (st : psci_power_state_t) : F (nat * psci_power_state_t) :=
  match n with
  | O => mret (lvl, st)
  | S n =>
      req ← must (st !! lvl);
      psci_set_req_local_pwr_state lvl my req;;
      nd ← node parent;
      req_states ← psci_get_req_local_pwr_states lvl (cpu_start_idx nd) (ncpus nd);
      target ← must (plat_get_target_pwr_state req_states);
      let st := <[lvl := target]> st in
      if is_local_state_run target then mret (lvl, st)
      else coordinate n (S lvl) (parent_node nd) my st
  end.
(** The levels above it. *)
Fixpoint request_above (n : nat) (lvl : nat) (my : nat) (st : psci_power_state_t) : F psci_power_state_t :=
  match n with
  | O => mret st
  | S n =>
      req ← must (st !! lvl);
      psci_set_req_local_pwr_state lvl my req;;
      request_above n (S lvl) my (<[lvl := PSCI_LOCAL_STATE_RUN]> st)
  end.
Definition psci_do_state_coordination (my end_pwrlvl : nat) (st : psci_power_state_t) : F psci_power_state_t :=
  assert (bool_decide (end_pwrlvl <= PLAT_MAX_PWR_LVL)%nat);;
  cn ← cpu_node my;
  '(lvl, st) ← coordinate end_pwrlvl 1 (cpu_parent_node cn) my st;
  st ← request_above (end_pwrlvl - lvl) (S lvl) my st;
  psci_set_target_local_pwr_states my end_pwrlvl st;;
  mret st.

(** ** Levels and requests *)
(** The highest level up to [n] with a property. *)
Fixpoint find_lvl (p : Z -> bool) (st : psci_power_state_t) (n : nat) : option nat :=
  s ← st !! n;
  if p s then Some n else match n with O => Some PSCI_INVALID_PWR_LVL | S n => find_lvl p st n end.
Definition psci_find_max_off_lvl (st : psci_power_state_t) : option nat := find_lvl is_local_state_off st PLAT_MAX_PWR_LVL.
Definition psci_find_target_suspend_lvl (st : psci_power_state_t) : option nat :=
  find_lvl (fun s => negb (is_local_state_run s)) st PLAT_MAX_PWR_LVL.

(** [STATE_TYPE_RUN], [STATE_TYPE_RETN] and [STATE_TYPE_OFF] as 0, 1 and 2. *)
Definition find_local_state_type (s : Z) : Z :=
  if negb (s =? 0) then if PLAT_MAX_RET_STATE <? s then 2 else 1 else 0.

(** From level [i] down; [None] in the result is a state shallower than one above. *)
Fixpoint deepest (i : nat) (st : psci_power_state_t) (deepest_state_type : Z) : option (option Z) :=
  s ← st !! i;
  let t := find_local_state_type s in
  if t <? deepest_state_type then Some None
  else match i with O => Some (Some t) | S i => deepest i st t end.

Definition psci_validate_suspend_req (st : psci_power_state_t) (is_power_down_state : Z) : option Z :=
  target_lvl ← psci_find_target_suspend_lvl st;
  if bool_decide (target_lvl = PSCI_INVALID_PWR_LVL) then Some PSCI_E_INVALID_PARAMS
  else
    d ← deepest target_lvl st 0;
    match d with
    | None => Some PSCI_E_INVALID_PARAMS
    | Some _ =>
        max_off_lvl ← psci_find_max_off_lvl st;
        let max_retn_lvl := if bool_decide (target_lvl <> max_off_lvl) then target_lvl else PSCI_INVALID_PWR_LVL in
        Some (if (is_power_down_state =? 0) &&
                 (bool_decide (max_off_lvl <> PSCI_INVALID_PWR_LVL) || bool_decide (max_retn_lvl = PSCI_INVALID_PWR_LVL))
              then PSCI_E_INVALID_PARAMS else PSCI_E_SUCCESS)
    end.

(** The build without [PSCI_EXTENDED_STATE_ID]. *)
Definition PSTATE_VALID_MASK := 0xFCFE0000.
Definition psci_check_power_state (pstate : Z) : Z := Z.land pstate PSTATE_VALID_MASK.
Definition psci_get_pstate_type (pstate : Z) : Z := Z.land (Z.shiftr pstate 16) 1.
Definition psci_validate_power_state (power_state : Z) : option (Z * psci_power_state_t) :=
  if negb (psci_check_power_state power_state =? 0)
  then Some (PSCI_E_INVALID_PARAMS, replicate (S PLAT_MAX_PWR_LVL) PSCI_LOCAL_STATE_RUN)
  else pm_validate_power_state power_state.

Fixpoint last_on_loop (n : nat) (cpu_idx my : nat) : F bool :=
  match n with
  | O => mret true
  | S n =>
      a ← psci_get_aff_info_state cpu_idx;
      if bool_decide (cpu_idx = my) then
        assert (bool_decide (a = AFF_STATE_ON));; last_on_loop n (S cpu_idx) my
      else if bool_decide (a <> AFF_STATE_OFF) then mret false
      else last_on_loop n (S cpu_idx) my
  end.
Definition psci_is_last_on_cpu (my : nat) : F bool := last_on_loop PLATFORM_CORE_COUNT 0 my.

Definition get_power_on_target_pwrlvl (my : nat) : F nat :=
  d ← get_data my;
  mret (if bool_decide (target_pwrlvl d = PSCI_INVALID_PWR_LVL) then PLAT_MAX_PWR_LVL else target_pwrlvl d).

(** ** Locks *)
Fixpoint acquire (n : nat) (parent : Z) (my : nat) : F unit :=
  match n with
  | O => mret tt
  | S n => nd ← node parent; psci_lock_get my nd;; acquire n (parent_node nd) my
  end.
Definition psci_acquire_pwr_domain_locks (end_pwrlvl my : nat) : F unit :=
  cn ← cpu_node my; acquire end_pwrlvl (cpu_parent_node cn) my.
Fixpoint release (nodes : list Z) (my : nat) : F unit :=
  match nodes with
  | [] => mret tt
  | i :: nodes => nd ← node i; psci_lock_release my nd;; release nodes my
  end.
Definition psci_release_pwr_domain_locks (end_pwrlvl my : nat) : F unit :=
  nodes ← psci_get_parent_pwr_domain_nodes my end_pwrlvl;
  release (reverse nodes) my.

(** ** Entry points *)
Definition psci_validate_mpidr (m : Z) : Z :=
  if plat_core_pos_by_mpidr m <? 0 then PSCI_E_INVALID_PARAMS else PSCI_E_SUCCESS.

Definition SCR_HCE_BIT := Z.shiftl 1 8.
Definition SCR_RW_BIT := Z.shiftl 1 10.
Definition SCTLR_EE_BIT := Z.shiftl 1 25.
Definition EP_EE_BIG := 2.
Definition NON_SECURE := 1.
Definition SPSR_64 (el sp daif : Z) : Z :=
  Z.lor (Z.shiftl (Z.land el 3) 2) (Z.lor (Z.land sp 1) (Z.shiftl (Z.land daif 0xf) 6)).
Definition SPSR_MODE32 (mode isa endian aif : Z) : Z :=
  Z.lor (Z.shiftl 1 4) (Z.lor (Z.land mode 0xf)
    (Z.lor (Z.shiftl (Z.land isa 1) 5) (Z.lor (Z.shiftl (Z.land endian 1) 9) (Z.shiftl (Z.land aif 7) 6)))).

Definition psci_get_ns_ep_info (entrypoint context_id : Z) : Z * entry_point_info_t :=
  let bit r b := negb (Z.land r b =? 0) in
  let hce := bit read_scr_el3 SCR_HCE_BIT in
  let sctlr := if hce then read_sctlr_el2 else read_sctlr_el1 in
  let ee := bit sctlr SCTLR_EE_BIT in
  let attr := if ee then Z.lor NON_SECURE EP_EE_BIG else NON_SECURE in
  if bit read_scr_el3 SCR_RW_BIT then
    if bit entrypoint 1 then (PSCI_E_INVALID_ADDRESS, Ep entrypoint context_id attr 0)
    else (PSCI_E_SUCCESS, Ep entrypoint context_id attr (SPSR_64 (if hce then 2 else 1) 1 0xf))
  else (PSCI_E_SUCCESS, Ep entrypoint context_id attr
          (SPSR_MODE32 (if hce then 0xa else 3) (Z.land entrypoint 1) (if ee then 1 else 0) 7)).

Definition psci_validate_entry_point (entrypoint context_id : Z) : Z * entry_point_info_t :=
  match pm_validate_ns_entrypoint with
  | Some v =>
      if negb (v entrypoint =? PSCI_E_SUCCESS) then (PSCI_E_INVALID_ADDRESS, Ep 0 0 0 0)
      else psci_get_ns_ep_info entrypoint context_id
  | None => psci_get_ns_ep_info entrypoint context_id
  end.

(** ** CPU_ON *)
Definition cpu_on_validate_state (a : aff_info_state_t) : Z :=
  match a with
  | AFF_STATE_ON => PSCI_E_ALREADY_ON
  | AFF_STATE_ON_PENDING => PSCI_E_ON_PENDING
  | AFF_STATE_OFF => PSCI_E_SUCCESS
  end.

Definition has_svc (f : spd_pm_ops_t -> bool) : bool := match psci_spd_pm with Some o => f o | None => false end.

Definition psci_cpu_on_start (target_cpu : Z) (ep : entry_point_info_t) : F Z :=
  assert (0 <=? plat_core_pos_by_mpidr target_cpu);;
  let target_idx := Z.to_nat (plat_core_pos_by_mpidr target_cpu) in
  emit (SpinLock target_idx);;
  a ← psci_get_aff_info_state target_idx;
  rc ←
    (if negb (cpu_on_validate_state a =? PSCI_E_SUCCESS) then mret (cpu_on_validate_state a)
     else
       (if has_svc svc_on then emit (SvcOn target_cpu) else mret tt);;
       psci_set_aff_info_state target_idx AFF_STATE_ON_PENDING;;
       a ← psci_get_aff_info_state target_idx;
       (if bool_decide (a <> AFF_STATE_ON_PENDING) then
          assert (bool_decide (a = AFF_STATE_OFF));;
          psci_set_aff_info_state target_idx AFF_STATE_ON_PENDING;;
          a ← psci_get_aff_info_state target_idx;
          assert (bool_decide (a = AFF_STATE_ON_PENDING))
        else mret tt);;
       l ← gets log;
       emit (PwrDomainOn target_cpu);;
       let rc := pm_pwr_domain_on l target_cpu in
       assert ((rc =? PSCI_E_SUCCESS) || (rc =? PSCI_E_INTERN_FAIL));;
       (if rc =? PSCI_E_SUCCESS then emit (InitContext target_idx ep)
        else psci_set_aff_info_state target_idx AFF_STATE_OFF);;
       mret rc);
  emit (SpinUnlock target_idx);;
  mret rc.

Definition psci_cpu_on_finish (my : nat) (st : psci_power_state_t) : F unit :=
  emit (PwrDomainOnFinish my st);;
  emit (SpinLock my);; emit (SpinUnlock my);;
  a ← psci_get_aff_info_state my;
  assert (bool_decide (a = AFF_STATE_ON_PENDING));;
  (if has_svc svc_on_finish then emit SvcOnFinish else mret tt);;
  cn ← cpu_node my;
  set_cpu_node my (CpuNode (Z.land (read_mpidr my) MPIDR_AFFINITY_MASK) (cpu_parent_node cn));;
  emit (PrepareExit my).

(** ** CPU_OFF *)
Definition psci_set_power_off_state : psci_power_state_t := replicate (S PLAT_MAX_PWR_LVL) PLAT_MAX_OFF_STATE.

(** What is done with the locks held. *)
Definition cpu_off_locked (my end_pwrlvl : nat) : F Z :=
  psci_acquire_pwr_domain_locks end_pwrlvl my;;
  rc ← match psci_spd_pm with
       | Some o => match svc_off o with
                   | Some f => l ← gets log; emit SvcOff;; mret (f l)
                   | None => mret PSCI_E_SUCCESS
                   end
       | None => mret PSCI_E_SUCCESS
       end;
  (if negb (rc =? 0) then mret tt
   else
     st ← psci_do_state_coordination my end_pwrlvl psci_set_power_off_state;
     emit (PwrDomainOff my st));;
  psci_release_pwr_domain_locks end_pwrlvl my;;
  mret rc.
(** What follows when it succeeded: the core does not return. *)
Definition cpu_off_commit (my : nat) : F unit :=
  psci_set_aff_info_state my AFF_STATE_OFF;;
  emit (PowerDownWfi my).
(** [None] is a core that was powered down. *)
Definition psci_do_cpu_off (my end_pwrlvl : nat) : F (option Z) :=
  rc ← cpu_off_locked my end_pwrlvl;
  if rc =? PSCI_E_SUCCESS then cpu_off_commit my;; mret None else mret (Some rc).

(** ** CPU_SUSPEND *)
Definition psci_suspend_to_standby_finisher (my end_pwrlvl : nat) : F unit :=
  psci_acquire_pwr_domain_locks end_pwrlvl my;;
  st ← psci_get_target_local_pwr_states my end_pwrlvl;
  emit (PwrDomainSuspendFinish my st);;
  psci_set_pwr_domains_to_run my end_pwrlvl;;
  psci_release_pwr_domain_locks end_pwrlvl my.

Definition psci_suspend_to_pwrdown_start (my end_pwrlvl : nat) (ep : entry_point_info_t) (st : psci_power_state_t) : F unit :=
  max_off_lvl ← must (psci_find_max_off_lvl st);
  psci_set_suspend_pwrlvl my end_pwrlvl;;
  (if has_svc svc_suspend then emit (SvcSuspend max_off_lvl) else mret tt);;
  emit (InitContext my ep).

(** With the locks held; [true] if a pending interrupt ended the attempt. *)
Definition suspend_locked (my end_pwrlvl : nat) (ep : entry_point_info_t) (st : psci_power_state_t) (is_power_down_state : Z) : F bool :=
  psci_acquire_pwr_domain_locks end_pwrlvl my;;
  l ← gets log;
  skip ← (if negb (read_isr_el1 l =? 0) then mret true
          else
            st ← psci_do_state_coordination my end_pwrlvl st;
            (if negb (is_power_down_state =? 0) then psci_suspend_to_pwrdown_start my end_pwrlvl ep st else mret tt);;
            emit (PwrDomainSuspend my st);;
            mret false);
  psci_release_pwr_domain_locks end_pwrlvl my;;
  mret skip.

(** [true] if the core was powered down; a core in retention wakes up. *)
Definition psci_cpu_suspend_start (my end_pwrlvl : nat) (ep : entry_point_info_t) (st : psci_power_state_t) (is_power_down_state : Z) : F bool :=
  skip ← suspend_locked my end_pwrlvl ep st is_power_down_state;
  if skip : bool then mret false
  else if negb (is_power_down_state =? 0) then emit (PowerDownWfi my);; mret true
  else emit (Wfi my);; psci_suspend_to_standby_finisher my end_pwrlvl;; mret false.

Definition psci_cpu_suspend_finish (my : nat) (st : psci_power_state_t) : F unit :=
  a ← psci_get_aff_info_state my;
  s0 ← must (st !! PSCI_CPU_PWR_LVL);
  assert (bool_decide (a = AFF_STATE_ON) && is_local_state_off s0);;
  emit (PwrDomainSuspendFinish my st);;
  (if has_svc svc_suspend then
     max_off_lvl ← must (psci_find_max_off_lvl st);
     assert (bool_decide (max_off_lvl <> PSCI_INVALID_PWR_LVL));;
     emit (SvcSuspendFinish max_off_lvl)
   else mret tt);;
  psci_set_suspend_pwrlvl my PSCI_INVALID_PWR_LVL;;
  emit (PrepareExit my).

(** ** Warm boot *)
Definition psci_warmboot_entrypoint (my : nat) : F unit :=
  a ← psci_get_aff_info_state my;
  assert (bool_decide (a <> AFF_STATE_OFF));;
  end_pwrlvl ← get_power_on_target_pwrlvl my;
  psci_acquire_pwr_domain_locks end_pwrlvl my;;
  st ← psci_get_target_local_pwr_states my end_pwrlvl;
  a ← psci_get_aff_info_state my;
  (if bool_decide (a = AFF_STATE_ON_PENDING) then psci_cpu_on_finish my st else psci_cpu_suspend_finish my st);;
  psci_set_pwr_domains_to_run my end_pwrlvl;;
  psci_release_pwr_domain_locks end_pwrlvl my.

(** ** Setup *)
Definition psci_setup (my : nat) (topology : list Z) : F unit :=
  populate_power_domain_tree topology;;
  psci_update_pwrlvl_limits;;
  cn ← cpu_node my;
  set_cpu_node my (CpuNode (Z.land (read_mpidr my) MPIDR_AFFINITY_MASK) (cpu_parent_node cn));;
  psci_init_req_local_pwr_states;;
  psci_set_pwr_domains_to_run my PLAT_MAX_PWR_LVL.

(** The arrays before setup: zero-initialised. *)
Definition psci_bss : psci :=
  Psci_ (replicate PSCI_NUM_NON_CPU_PWR_DOMAINS (Node 0 0 0 0 0 0)) (replicate PLATFORM_CORE_COUNT (CpuNode 0 0))
    (replicate (S PLAT_MAX_PWR_LVL) (replicate PLATFORM_CORE_COUNT 0))
    (replicate PLATFORM_CORE_COUNT (CpuData AFF_STATE_ON 0 0)) [].

(** ** The front end *)
(** [None] in the result is a call that does not return: the core was powered down, the
    system shut down, or a hook of the platform panicked. *)
Definition psci_cpu_on (target_cpu entrypoint context_id : Z) : F (option Z) :=
  if negb (psci_validate_mpidr target_cpu =? PSCI_E_SUCCESS) then mret (Some PSCI_E_INVALID_PARAMS)
  else
    let '(rc, ep) := psci_validate_entry_point entrypoint context_id in
    if negb (rc =? PSCI_E_SUCCESS) then mret (Some rc)
    else rc ← psci_cpu_on_start target_cpu ep; mret (Some rc).

Definition psci_version : Z := Z.lor (Z.shiftl 1 16) 0.

Definition panic (my : nat) : F (option Z) := emit (Panic my);; mret None.

Definition psci_cpu_suspend (my : nat) (power_state entrypoint context_id : Z) : F (option Z) :=
  match psci_validate_power_state power_state with
  | None => panic my
  | Some (rc, st) =>
    if negb (rc =? PSCI_E_SUCCESS) then assert (rc =? PSCI_E_INVALID_PARAMS);; mret (Some rc)
    else
      let is_power_down_state := psci_get_pstate_type power_state in
      r ← must (psci_validate_suspend_req st is_power_down_state);
      assert (r =? PSCI_E_SUCCESS);;
      target_pwrlvl ← must (psci_find_target_suspend_lvl st);
      if bool_decide (target_pwrlvl = PSCI_INVALID_PWR_LVL) then panic my
      else if (is_power_down_state =? 0) && bool_decide (target_pwrlvl = 0%nat) then
        match pm_cpu_standby with
        | None => mret (Some PSCI_E_INVALID_PARAMS)
        | Some returns =>
            s0 ← must (st !! PSCI_CPU_PWR_LVL);
            psci_set_cpu_local_state my s0;;
            emit (CpuStandby my s0);;
            if negb returns then panic my
            else
              psci_set_cpu_local_state my PSCI_LOCAL_STATE_RUN;;
              mret (Some PSCI_E_SUCCESS)
        end
      else
        let '(rc, ep) := if negb (is_power_down_state =? 0) then psci_validate_entry_point entrypoint context_id
                         else (PSCI_E_SUCCESS, Ep 0 0 0 0) in
        if negb (rc =? PSCI_E_SUCCESS) then mret (Some rc)
        else
          down ← psci_cpu_suspend_start my target_pwrlvl ep st is_power_down_state;
          mret (if down : bool then None else Some PSCI_E_SUCCESS)
  end.

Definition psci_system_suspend (my : nat) (entrypoint context_id : Z) : F (option Z) :=
  l ← psci_is_last_on_cpu my;
  if negb l then mret (Some PSCI_E_DENIED)
  else
    let '(rc, ep) := psci_validate_entry_point entrypoint context_id in
    if negb (rc =? PSCI_E_SUCCESS) then mret (Some rc)
    else
      let st := pm_get_sys_suspend_power_state in
      t ← must (psci_find_target_suspend_lvl st);
      assert (bool_decide (t = PLAT_MAX_PWR_LVL));;
      r ← must (psci_validate_suspend_req st 1);
      assert (r =? PSCI_E_SUCCESS);;
      s ← must (st !! PLAT_MAX_PWR_LVL);
      assert (is_local_state_off s);;
      down ← psci_cpu_suspend_start my PLAT_MAX_PWR_LVL ep st 1;
      mret (if down : bool then None else Some PSCI_E_SUCCESS).

Definition psci_cpu_off (my : nat) : F (option Z) :=
  o ← psci_do_cpu_off my PLAT_MAX_PWR_LVL;
  match o with
  | None => mret None
  | Some rc => assert (rc =? PSCI_E_DENIED);; mret (Some rc)
  end.

Definition aff_value (a : aff_info_state_t) : Z :=
  match a with AFF_STATE_ON => 0 | AFF_STATE_OFF => 1 | AFF_STATE_ON_PENDING => 2 end.
Definition psci_affinity_info (target_affinity lowest_affinity_level : Z) : F (option Z) :=
  if 0 <? lowest_affinity_level then mret (Some PSCI_E_INVALID_PARAMS)
  else if plat_core_pos_by_mpidr target_affinity =? -1 then mret (Some PSCI_E_INVALID_PARAMS)
  else
    assert (0 <=? plat_core_pos_by_mpidr target_affinity);;
    a ← psci_get_aff_info_state (Z.to_nat (plat_core_pos_by_mpidr target_affinity));
    mret (Some (aff_value a)).

Definition PSCI_TOS_UP_MIG_CAP := 0.
Definition PSCI_TOS_NOT_UP_MIG_CAP := 1.
Definition PSCI_TOS_NOT_PRESENT_MP := 2.
(** The result and the core the Secure OS resides on. *)
Definition psci_spd_migrate_info : F (Z * Z) :=
  match psci_spd_pm with
  | Some o =>
      match svc_migrate_info o with
      | Some (rc, m) =>
          assert ((rc =? PSCI_TOS_UP_MIG_CAP) || (rc =? PSCI_TOS_NOT_UP_MIG_CAP)
                  || (rc =? PSCI_TOS_NOT_PRESENT_MP) || (rc =? PSCI_E_NOT_SUPPORTED));;
          mret (rc, m)
      | None => mret (PSCI_E_NOT_SUPPORTED, 0)
      end
  | None => mret (PSCI_E_NOT_SUPPORTED, 0)
  end.
Definition psci_migrate (my : nat) (target_cpu : Z) : F (option Z) :=
  '(rc, resident) ← psci_spd_migrate_info;
  if negb (rc =? PSCI_TOS_UP_MIG_CAP)
  then mret (Some (if rc =? PSCI_TOS_NOT_UP_MIG_CAP then PSCI_E_DENIED else PSCI_E_NOT_SUPPORTED))
  else if negb (resident =? read_mpidr my) then mret (Some PSCI_E_NOT_PRESENT)
  else if negb (psci_validate_mpidr target_cpu =? PSCI_E_SUCCESS) then mret (Some PSCI_E_INVALID_PARAMS)
  else
    o ← must psci_spd_pm; f ← must (svc_migrate o);
    let rc := f (read_mpidr my) target_cpu in
    assert ((rc =? PSCI_E_SUCCESS) || (rc =? PSCI_E_INTERN_FAIL));;
    mret (Some rc).
Definition psci_migrate_info_type : F (option Z) := '(rc, _) ← psci_spd_migrate_info; mret (Some rc).
Definition psci_migrate_info_up_cpu : F (option Z) :=
  '(rc, resident) ← psci_spd_migrate_info;
  mret (Some (if negb (rc =? PSCI_TOS_NOT_UP_MIG_CAP) && negb (rc =? PSCI_TOS_UP_MIG_CAP)
              then PSCI_E_INVALID_PARAMS else resident)).
Definition psci_node_hw_state (target_cpu power_level : Z) : F (option Z) :=
  if negb (psci_validate_mpidr target_cpu =? PSCI_E_SUCCESS) then mret (Some PSCI_E_INVALID_PARAMS)
  else if Z.of_nat PLAT_MAX_PWR_LVL <? power_level then mret (Some PSCI_E_INVALID_PARAMS)
  else
    let rc := pm_get_node_hw_state target_cpu power_level in
    assert (((0 <=? rc) && (rc <=? 2)) || (rc =? PSCI_E_NOT_SUPPORTED) || (rc =? PSCI_E_INVALID_PARAMS));;
    mret (Some rc).

(** ** Shutdown: these do not return *)
Definition psci_system_off : F (option Z) :=
  assert has_system_off;;
  (if has_svc svc_system_off then emit SvcSystemOff else mret tt);;
  emit SystemOff;;
  mret None.
Definition psci_system_reset : F (option Z) :=
  assert has_system_reset;;
  (if has_svc svc_system_reset then emit SvcSystemReset else mret tt);;
  emit SystemReset;;
  mret None.

(** ** Capabilities and dispatch *)
Definition PSCI_VERSION := 0x84000000.
Definition PSCI_CPU_SUSPEND_AARCH32 := 0x84000001.
Definition PSCI_CPU_SUSPEND_AARCH64 := 0xc4000001.
Definition PSCI_CPU_OFF := 0x84000002.
Definition PSCI_CPU_ON_AARCH32 := 0x84000003.
Definition PSCI_CPU_ON_AARCH64 := 0xc4000003.
Definition PSCI_AFFINITY_INFO_AARCH32 := 0x84000004.
Definition PSCI_AFFINITY_INFO_AARCH64 := 0xc4000004.
Definition PSCI_MIG_AARCH32 := 0x84000005.
Definition PSCI_MIG_AARCH64 := 0xc4000005.
Definition PSCI_MIG_INFO_TYPE := 0x84000006.
Definition PSCI_MIG_INFO_UP_CPU_AARCH32 := 0x84000007.
Definition PSCI_MIG_INFO_UP_CPU_AARCH64 := 0xc4000007.
Definition PSCI_SYSTEM_OFF := 0x84000008.
Definition PSCI_SYSTEM_RESET := 0x84000009.
Definition PSCI_FEATURES := 0x8400000A.
Definition PSCI_NODE_HW_STATE_AARCH32 := 0x8400000d.
Definition PSCI_NODE_HW_STATE_AARCH64 := 0xc400000d.
Definition PSCI_SYSTEM_SUSPEND_AARCH32 := 0x8400000E.
Definition PSCI_SYSTEM_SUSPEND_AARCH64 := 0xc400000E.
Definition SMC_UNK := 0xffffffff.

Definition define_psci_cap (x : Z) : Z := Z.shiftl 1 (Z.land x 0x1f).
Definition cap_if (b : bool) (fid : Z) : Z := if b then define_psci_cap fid else 0.
(** Without [ENABLE_PSCI_STAT]; the last two are added when the dispatcher registers. *)
Definition psci_caps : Z :=
  foldr Z.lor 0
    [define_psci_cap PSCI_VERSION; define_psci_cap PSCI_AFFINITY_INFO_AARCH64; define_psci_cap PSCI_FEATURES;
     cap_if has_pwr_domain_off PSCI_CPU_OFF; cap_if has_pwr_domain_on PSCI_CPU_ON_AARCH64;
     cap_if has_pwr_domain_suspend PSCI_CPU_SUSPEND_AARCH64;
     cap_if (has_pwr_domain_suspend && has_get_sys_suspend_power_state) PSCI_SYSTEM_SUSPEND_AARCH64;
     cap_if has_system_off PSCI_SYSTEM_OFF; cap_if has_system_reset PSCI_SYSTEM_RESET;
     cap_if has_get_node_hw_state PSCI_NODE_HW_STATE_AARCH64;
     cap_if (has_svc (fun o => bool_decide (is_Some (svc_migrate o)))) PSCI_MIG_AARCH64;
     cap_if (has_svc (fun o => bool_decide (is_Some (svc_migrate_info o)))) PSCI_MIG_INFO_UP_CPU_AARCH64;
     cap_if (has_svc (fun o => bool_decide (is_Some (svc_migrate_info o)))) PSCI_MIG_INFO_TYPE].
Definition PSCI_CAP_64BIT_MASK : Z :=
  foldr Z.lor 0 (map define_psci_cap
    [PSCI_CPU_SUSPEND_AARCH64; PSCI_CPU_ON_AARCH64; PSCI_AFFINITY_INFO_AARCH64; PSCI_MIG_AARCH64;
     PSCI_MIG_INFO_UP_CPU_AARCH64; PSCI_NODE_HW_STATE_AARCH64; PSCI_SYSTEM_SUSPEND_AARCH64; 0xc4000010; 0xc4000011]).

Definition SMC_CC (fid : Z) : Z := Z.land (Z.shiftr fid 30) 1.
Definition is_std_svc_call (fid : Z) : bool := Z.land (Z.shiftr fid 24) 0x3f =? 4.
Definition is_valid_fast_smc (fid : Z) : bool :=
  (Z.land (Z.shiftr fid 16) 0xff =? 0) && (Z.land (Z.shiftr fid 31) 1 =? 1).
Definition is_psci_fid (fid : Z) : bool := Z.land fid 0xffe0 =? 0.

Definition FF_PSTATE := 0.
Definition FF_SUPPORTS_OS_INIT_MODE := 1.
Definition psci_features (psci_fid : Z) : Z :=
  let local_caps := if SMC_CC psci_fid =? 1 then Z.land psci_caps PSCI_CAP_64BIT_MASK else psci_caps in
  if negb (is_std_svc_call psci_fid && is_valid_fast_smc psci_fid && is_psci_fid psci_fid) then PSCI_E_NOT_SUPPORTED
  else if Z.land local_caps (define_psci_cap psci_fid) =? 0 then PSCI_E_NOT_SUPPORTED
  else if (psci_fid =? PSCI_CPU_SUSPEND_AARCH32) || (psci_fid =? PSCI_CPU_SUSPEND_AARCH64)
  then Z.lor (Z.shiftl FF_PSTATE 1) (Z.shiftl (if FF_SUPPORTS_OS_INIT_MODE =? 0 then 1 else 0) 0)
  else PSCI_E_SUCCESS.

(** The dispatch of one function; the arguments of 32-bit functions are cut before. *)
Definition psci_dispatch32 (my : nat) (smc_fid x1 x2 x3 : Z) : F (option Z) :=
  if smc_fid =? PSCI_VERSION then mret (Some psci_version)
  else if smc_fid =? PSCI_CPU_OFF then psci_cpu_off my
  else if smc_fid =? PSCI_CPU_SUSPEND_AARCH32 then psci_cpu_suspend my x1 x2 x3
  else if smc_fid =? PSCI_CPU_ON_AARCH32 then psci_cpu_on x1 x2 x3
  else if smc_fid =? PSCI_AFFINITY_INFO_AARCH32 then psci_affinity_info x1 x2
  else if smc_fid =? PSCI_MIG_AARCH32 then psci_migrate my x1
  else if smc_fid =? PSCI_MIG_INFO_TYPE then psci_migrate_info_type
  else if smc_fid =? PSCI_MIG_INFO_UP_CPU_AARCH32 then psci_migrate_info_up_cpu
  else if smc_fid =? PSCI_NODE_HW_STATE_AARCH32 then psci_node_hw_state x1 x2
  else if smc_fid =? PSCI_SYSTEM_SUSPEND_AARCH32 then psci_system_suspend my x1 x2
  else if smc_fid =? PSCI_SYSTEM_OFF then psci_system_off
  else if smc_fid =? PSCI_SYSTEM_RESET then psci_system_reset
  else if smc_fid =? PSCI_FEATURES then mret (Some (psci_features x1))
  else mret (Some SMC_UNK).
Definition psci_dispatch64 (my : nat) (smc_fid x1 x2 x3 : Z) : F (option Z) :=
  if smc_fid =? PSCI_CPU_SUSPEND_AARCH64 then psci_cpu_suspend my (u32 x1) x2 x3
  else if smc_fid =? PSCI_CPU_ON_AARCH64 then psci_cpu_on x1 x2 x3
  else if smc_fid =? PSCI_AFFINITY_INFO_AARCH64 then psci_affinity_info x1 (u32 x2)
  else if smc_fid =? PSCI_MIG_AARCH64 then psci_migrate my x1
  else if smc_fid =? PSCI_MIG_INFO_UP_CPU_AARCH64 then psci_migrate_info_up_cpu
  else if smc_fid =? PSCI_NODE_HW_STATE_AARCH64 then psci_node_hw_state x1 (u32 x2)
  else if smc_fid =? PSCI_SYSTEM_SUSPEND_AARCH64 then psci_system_suspend my x1 x2
  else mret (Some SMC_UNK).

(** The results are returned in a 64-bit register. *)
Definition psci_smc_handler (my : nat) (smc_fid x1 x2 x3 flags : Z) : F (option Z) :=
  if Z.land flags 1 =? 0 then mret (Some SMC_UNK)
  else if Z.land psci_caps (define_psci_cap smc_fid) =? 0 then mret (Some SMC_UNK)
  else
    r ← (if SMC_CC smc_fid =? 0 then psci_dispatch32 my smc_fid (u32 x1) (u32 x2) (u32 x3)
         else psci_dispatch64 my smc_fid x1 x2 x3);
    mret (wrap 64 <$> r).
End psci.

End Psci.
