(* ===== verification/PsciProps.v ===== *)
(** * PSCI: the tree, the requests and the loops over a core's ancestors

    What the operations of Psci.v see of the state is projected to a static tree
    ([tree]), the requests ([rq]), the domains' states ([dm]) and the cores' data ([dt]).
    [wf] is the shape of the tree; the loops of psci_common.c are specified on these
    projections by weakest preconditions, so that defined behaviour is part of each
    specification. *)

From Stdlib Require Import ZArith Lia.
From stdpp Require Import base option list numbers.
From S2P Require Import Prelude CMonad Psci.
Import Psci.
Open Scope Z_scope.

Module PsciTree.

Section tree.
Context `{Plat}.
Abbreviation N := PLATFORM_CORE_COUNT.
Abbreviation L := PLAT_MAX_PWR_LVL.

(** ** Projections *)
Record pd_tree := Tree {
  t_nodes : list non_cpu_pd_node_t;
  t_parents : list Z;
  t_rows : list nat;
  t_cores : nat
}.
Definition tree (s : psci) : pd_tree :=
  Tree ((fun n => with_local_state n 0) <$> psci_non_cpu_pd_nodes s)
       (cpu_parent_node <$> psci_cpu_pd_nodes s)
       (length <$> psci_req_local_pwr_states s)
       (length (cpu_data s)).

Definition rq (s : psci) (l c : nat) : Z :=
  match l with
  | O => 0
  | S k => default 0 (row ← psci_req_local_pwr_states s !! k; row !! c)
  end.
Definition dm (s : psci) (i : Z) : Z := default 0 (local_state <$> zget (psci_non_cpu_pd_nodes s) i).
Definition dt (s : psci) (c : nat) : psci_cpu_data_t := default (CpuData AFF_STATE_OFF 0 0) (cpu_data s !! c).

Definition parent_of (t : pd_tree) (i : Z) : Z := default (-1) (parent_node <$> zget (t_nodes t) i).
(** The ancestor of core [c] at level [l], from level 1 on. *)
Definition anc (t : pd_tree) (c l : nat) : Z :=
  Nat.iter (l - 1) (parent_of t) (default (-1) (t_parents t !! c)).

Record wf (t : pd_tree) : Prop := {
  wf_parents : length (t_parents t) = N;
  wf_cores : t_cores t = N;
  wf_rows : forall l, (l <= L)%nat -> t_rows t !! l = Some N;
  wf_node : forall c l, (c < N)%nat -> (1 <= l <= L)%nat ->
    exists n, zget (t_nodes t) (anc t c l) = Some n /\ level n = Z.of_nat l /\
      lock_index n = anc t c l /\ 0 <= cpu_start_idx n /\ 0 < ncpus n /\
      cpu_start_idx n + ncpus n <= Z.of_nat N /\
      (forall c', (c' < N)%nat ->
         anc t c' l = anc t c l <-> cpu_start_idx n <= Z.of_nat c' < cpu_start_idx n + ncpus n)
}.

Lemma zget_fmap {A B} (f : A -> B) l i : zget (f <$> l) i = f <$> zget l i.
Proof. unfold zget, zlen. rewrite length_fmap. case_match; [apply list_lookup_fmap|done]. Qed.
Lemma zget_some {A} (l : list A) i x : zget l i = Some x -> 0 <= i < zlen l /\ l !! Z.to_nat i = Some x.
Proof. unfold zget. case_match eqn:E; [|done]. apply andb_true_iff in E as [? ?]. split; [lia|done]. Qed.
Lemma zget_insert {A} (l : list A) i j x y : zget l i = Some y ->
  zget (<[Z.to_nat i := x]> l) j = if bool_decide (j = i) then Some x else zget l j.
Proof.
  intros [Hi Hy]%zget_some. unfold zget, zlen in *. rewrite length_insert. case_bool_decide as E.
  - subst j. replace (_ && _) with true by (symmetry; apply andb_true_iff; lia).
    apply list_lookup_insert_eq. lia.
  - case_match eqn:Ej; [|done]. apply andb_true_iff in Ej as [? ?].
    apply list_lookup_insert_ne. lia.
Qed.

Lemma anc_1 t c : anc t c 1 = default (-1) (t_parents t !! c).
Proof. done. Qed.
Lemma anc_S t c l : (1 <= l)%nat -> anc t c (S l) = parent_of t (anc t c l).
Proof. intros. unfold anc. destruct l as [|k]; [lia|]. cbn [Nat.sub]. by rewrite Nat.sub_0_r. Qed.
Lemma anc_up t c c' l l' : anc t c l = anc t c' l -> (1 <= l <= l')%nat -> anc t c l' = anc t c' l'.
Proof.
  intros E [? Hl]. induction Hl as [|l' Hl IH]; [done|]. rewrite !anc_S by lia. by rewrite IH.
Qed.

Lemma anc_level t c l c' l' : wf t -> (c < N)%nat -> (1 <= l <= L)%nat -> (c' < N)%nat -> (1 <= l' <= L)%nat ->
  anc t c l = anc t c' l' -> l = l'.
Proof.
  intros W Hc Hl Hc' Hl' E.
  destruct (wf_node t W c l Hc Hl) as (n & E1 & L1 & _).
  destruct (wf_node t W c' l' Hc' Hl') as (n' & E2 & L2 & _).
  rewrite E in E1. simplify_eq. lia.
Qed.

(** The node of a state at an ancestor. *)
Lemma node_anc s c l : wf (tree s) -> (c < N)%nat -> (1 <= l <= L)%nat ->
  exists n, zget (psci_non_cpu_pd_nodes s) (anc (tree s) c l) = Some n /\
    local_state n = dm s (anc (tree s) c l) /\ parent_node n = anc (tree s) c (S l) /\
    lock_index n = anc (tree s) c l /\
    0 <= cpu_start_idx n /\ 0 < ncpus n /\ cpu_start_idx n + ncpus n <= Z.of_nat N /\
    (forall c', (c' < N)%nat ->
       anc (tree s) c' l = anc (tree s) c l <-> cpu_start_idx n <= Z.of_nat c' < cpu_start_idx n + ncpus n).
Proof.
  intros W Hc Hl. destruct (wf_node _ W c l Hc Hl) as (n & E & _ & Hi & Hrest).
  rewrite anc_S by lia. unfold parent_of. cbn [tree t_nodes] in *. rewrite E. unfold dm.
  rewrite zget_fmap in E. destruct (zget _ _) as [m|]; [|done]. simplify_eq/=. exists m. done.
Qed.

(** ** Primitives *)
(** The domains of core [c] at the levels from [lo] below [hi] are set to [f], no other is. *)
Definition doms (s s' : psci) (c lo hi : nat) (f : nat -> Z) : Prop :=
  (forall l, (lo <= l < hi)%nat -> dm s' (anc (tree s) c l) = f l) /\
  (forall i, (forall l, (lo <= l < hi)%nat -> i <> anc (tree s) c l) -> dm s' i = dm s i).
(** Likewise for the requests of core [c]. *)
Definition reqs (s s' : psci) (c lo hi : nat) (f : nat -> Z) : Prop :=
  forall l c', rq s' l c' = if bool_decide (c' = c /\ (lo <= l < hi)%nat) then f l else rq s l c'.
(** Everything but the domains and the requests. *)
Definition rest (s s' : psci) : Prop :=
  tree s' = tree s /\ psci_cpu_pd_nodes s' = psci_cpu_pd_nodes s /\ cpu_data s' = cpu_data s /\ log s' = log s.

Lemma rest_refl s : rest s s.
Proof. done. Qed.
Lemma rest_trans s1 s2 s3 : rest s1 s2 -> rest s2 s3 -> rest s1 s3.
Proof. unfold rest. intuition congruence. Qed.

Lemma wp_assert b (Q : unit -> psci -> Prop) s : b = true -> Q tt s -> wp (assert b) Q s.
Proof. by intros ->. Qed.

Lemma wp_node i n (Q : _ -> psci -> Prop) s :
  zget (psci_non_cpu_pd_nodes s) i = Some n -> Q n s -> wp (node i) Q s.
Proof. intros E HQ. unfold node. do 2 wp_step. by eapply wp_must. Qed.

Lemma wp_cpu_node c (Q : _ -> psci -> Prop) s : wf (tree s) -> (c < N)%nat ->
  (forall n, psci_cpu_pd_nodes s !! c = Some n -> cpu_parent_node n = anc (tree s) c 1 -> Q n s) ->
  wp (cpu_node c) Q s.
Proof.
  intros W Hc HQ. unfold cpu_node. do 2 wp_step.
  pose proof (wf_parents _ W) as Hl. cbn [tree t_parents] in Hl. rewrite length_fmap in Hl.
  destruct (lookup_lt_is_Some_2 (psci_cpu_pd_nodes s) c) as [n E]; [lia|].
  eapply wp_must; [done|]. apply HQ; [done|]. rewrite anc_1. cbn [tree t_parents].
  by rewrite list_lookup_fmap, E.
Qed.

Lemma wp_set_local i n st (Q : _ -> psci -> Prop) s :
  zget (psci_non_cpu_pd_nodes s) i = Some n ->
  (forall s', rest s s' -> (forall l c, rq s' l c = rq s l c) ->
     (forall j, dm s' j = if bool_decide (j = i) then st else dm s j) -> Q tt s') ->
  wp (set_node i (with_local_state n st)) Q s.
Proof.
  intros E HQ. unfold set_node. do 2 wp_step. wp_step. apply wp_assert; [rewrite E; by apply bool_decide_eq_true|].
  wp_step. apply HQ.
  - split; [|done]. unfold tree. cbn. f_equal. rewrite list_fmap_insert. apply list_insert_id.
    apply zget_some in E as [_ E]. by rewrite list_lookup_fmap, E.
  - done.
  - intros j. unfold dm. cbn. rewrite (zget_insert _ _ _ _ _ E). by case_bool_decide.
Qed.

Lemma row_lookup s l : wf (tree s) -> (l <= L)%nat ->
  exists row, psci_req_local_pwr_states s !! l = Some row /\ length row = N.
Proof.
  intros W Hl. pose proof (wf_rows _ W l Hl) as E. cbn [tree t_rows] in E.
  rewrite list_lookup_fmap in E. destruct (_ !! l) as [row|]; simplify_eq/=. eauto.
Qed.

Lemma wp_set_req l c r (Q : _ -> psci -> Prop) s :
  wf (tree s) -> (1 <= l <= L)%nat -> (c < N)%nat ->
  (forall s', rest s s' -> reqs s s' c l (S l) (fun _ => r) -> (forall j, dm s' j = dm s j) -> Q tt s') ->
  wp (psci_set_req_local_pwr_state l c r) Q s.
Proof.
  intros W Hl Hc HQ. unfold psci_set_req_local_pwr_state, PSCI_CPU_PWR_LVL.
  destruct (row_lookup s (l - 1) W ltac:(lia)) as (row & Er & Hr).
  wp_step. apply wp_assert; [apply bool_decide_eq_true; lia|].
  do 2 wp_step. wp_step. eapply wp_must; [done|]. wp_step.
  apply wp_assert; [by apply bool_decide_eq_true, lookup_lt_is_Some; rewrite Hr|].
  wp_step. apply HQ; [|intros l' c'|done].
  - split; [|done]. unfold tree. cbn. f_equal. rewrite list_fmap_insert. apply list_insert_id.
    rewrite list_lookup_fmap, Er. cbn. by rewrite length_insert.
  - destruct l' as [|k]; [by rewrite bool_decide_false by lia|]. unfold rq. cbn.
    destruct (decide (k = l - 1)%nat) as [->|Hk].
    + rewrite list_lookup_insert_eq by (by eapply lookup_lt_Some). cbn. rewrite Er. cbn.
      destruct (decide (c' = c)) as [->|Hc'].
      * rewrite bool_decide_true by lia. by rewrite list_lookup_insert_eq by lia.
      * rewrite bool_decide_false by lia. by rewrite list_lookup_insert_ne.
    + rewrite list_lookup_insert_ne by done. by rewrite bool_decide_false by lia.
Qed.

Lemma wp_get_data c (Q : _ -> psci -> Prop) s : wf (tree s) -> (c < N)%nat -> Q (dt s c) s -> wp (get_data c) Q s.
Proof.
  intros W Hc HQ. unfold get_data. do 2 wp_step. pose proof (wf_cores _ W) as Hl. cbn [tree t_cores] in Hl.
  unfold dt in HQ. destruct (lookup_lt_is_Some_2 (cpu_data s) c) as [n E]; [lia|].
  rewrite E in HQ |- *. by eapply wp_must.
Qed.
Lemma wp_set_data c d (Q : _ -> psci -> Prop) s : wf (tree s) -> (c < N)%nat ->
  (forall s', tree s' = tree s -> psci_non_cpu_pd_nodes s' = psci_non_cpu_pd_nodes s ->
     psci_cpu_pd_nodes s' = psci_cpu_pd_nodes s -> psci_req_local_pwr_states s' = psci_req_local_pwr_states s ->
     log s' = log s -> (forall c', dt s' c' = if bool_decide (c' = c) then d else dt s c') -> Q tt s') ->
  wp (set_data c d) Q s.
Proof.
  intros W Hc HQ. unfold set_data. do 2 wp_step. pose proof (wf_cores _ W) as Hl. cbn [tree t_cores] in Hl.
  wp_step. apply wp_assert; [apply bool_decide_eq_true, lookup_lt_is_Some; lia|].
  wp_step. apply HQ; try done.
  - unfold tree. cbn. by rewrite length_insert.
  - intros c'. unfold dt. cbn. case_bool_decide as E.
    + subst. by rewrite list_lookup_insert_eq by lia.
    + by rewrite list_lookup_insert_ne.
Qed.
(** ** Loops over the ancestors *)
(** The state of a level in a [psci_power_state_t]. *)
Definition lv (st : psci_power_state_t) (l : nat) : Z := default 0 (st !! l).
Lemma lv_some st l : (l < length st)%nat -> st !! l = Some (lv st l).
Proof. intros Hl. unfold lv. by destruct (lookup_lt_is_Some_2 st l Hl) as [x ->]. Qed.
Lemma lv_insert st l x j : (l < length st)%nat -> lv (<[l := x]> st) j = if bool_decide (j = l) then x else lv st j.
Proof.
  intros Hl. unfold lv. case_bool_decide; subst; [by rewrite list_lookup_insert_eq|by rewrite list_lookup_insert_ne].
Qed.

Lemma rq_same s s' : psci_req_local_pwr_states s' = psci_req_local_pwr_states s -> forall l c, rq s' l c = rq s l c.
Proof. unfold rq. by intros ->. Qed.
Lemma dm_same s s' : psci_non_cpu_pd_nodes s' = psci_non_cpu_pd_nodes s -> forall i, dm s' i = dm s i.
Proof. unfold dm. by intros ->. Qed.

Lemma doms_nil s s' c lo f : (forall j, dm s' j = dm s j) -> doms s s' c lo lo f.
Proof. intros E. split; [lia|auto]. Qed.
Lemma doms_cons s s1 s2 c lo hi f : wf (tree s) -> (c < N)%nat -> (1 <= lo)%nat -> (hi <= L)%nat -> tree s1 = tree s ->
  (forall j, dm s1 j = if bool_decide (j = anc (tree s) c lo) then f lo else dm s j) ->
  doms s1 s2 c (S lo) (S hi) f -> (lo <= hi)%nat -> doms s s2 c lo (S hi) f.
Proof.
  intros W Hc Hlo Hhi T E1 [D1 D2] Hle. rewrite T in *. split.
  - intros l Hl. destruct (decide (l = lo)) as [->|]; [|apply D1; lia].
    rewrite D2; [by rewrite E1, bool_decide_true|]. intros l Hl' Ea.
    apply (anc_level _ c lo c l W) in Ea; lia.
  - intros i Hi. rewrite D2, E1, bool_decide_false; [done|apply Hi; lia|]. intros l Hl'. apply Hi. lia.
Qed.
Lemma doms_ext s s' c lo hi f g : doms s s' c lo hi f -> (forall l, (lo <= l < hi)%nat -> f l = g l) -> doms s s' c lo hi g.
Proof. intros [D1 D2] E. split; [|done]. intros l Hl. rewrite D1 by done. by apply E. Qed.

Lemma reqs_nil s s' c lo f : (forall l c, rq s' l c = rq s l c) -> reqs s s' c lo lo f.
Proof. intros E l c'. rewrite bool_decide_false by lia. apply E. Qed.
Lemma reqs_cons s s1 s2 c lo hi f g : reqs s s1 c lo (S lo) g -> reqs s1 s2 c (S lo) hi f -> (lo < hi)%nat -> g lo = f lo ->
  reqs s s2 c lo hi f.
Proof.
  intros R1 R2 Hlt E l c'. rewrite R2, R1.
  destruct (decide (c' = c)) as [->|]; [|by rewrite !bool_decide_false by tauto].
  destruct (decide (l = lo)) as [->|].
  - rewrite bool_decide_false, !bool_decide_true by lia. done.
  - repeat case_bool_decide; try done; lia.
Qed.
Lemma reqs_ext s s' c lo hi f g : reqs s s' c lo hi f -> (forall l, (lo <= l < hi)%nat -> f l = g l) -> reqs s s' c lo hi g.
Proof. intros R E l c'. rewrite R. case_bool_decide as B; [apply E, B|done]. Qed.
Lemma reqs_keep s s1 s2 c lo hi f : (forall l c, rq s1 l c = rq s l c) -> reqs s1 s2 c lo hi f -> reqs s s2 c lo hi f.
Proof. intros E R l c'. by rewrite R, E. Qed.

Lemma wp_get_states n : forall lvl c (Q : _ -> psci -> Prop) s,
  wf (tree s) -> (c < N)%nat -> (1 <= lvl)%nat -> (lvl + n <= S L)%nat ->
  Q ((fun l => dm s (anc (tree s) c l)) <$> seq lvl n) s -> wp (get_states n (anc (tree s) c lvl)) Q s.
Proof.
  induction n as [|n IH]; intros lvl c Q s W Hc H1 Hn HQ; cbn [get_states]; [done|].
  destruct (node_anc s c lvl W Hc ltac:(lia)) as (nd & E & Es & Ep & _).
  wp_step. eapply wp_node; [done|]. cbn beta. rewrite Ep. wp_step. apply IH; [done|done|lia|lia|].
  wp_step. rewrite Es. apply HQ.
Qed.

Lemma wp_parent_nodes n : forall lvl c (Q : _ -> psci -> Prop) s,
  wf (tree s) -> (c < N)%nat -> (1 <= lvl)%nat -> (lvl + n <= S L)%nat ->
  Q (anc (tree s) c <$> seq lvl n) s -> wp (parent_nodes n (anc (tree s) c lvl)) Q s.
Proof.
  induction n as [|n IH]; intros lvl c Q s W Hc H1 Hn HQ; cbn [parent_nodes]; [done|].
  destruct (node_anc s c lvl W Hc ltac:(lia)) as (nd & E & Es & Ep & _).
  wp_step. eapply wp_node; [done|]. cbn beta. rewrite Ep. wp_step. apply IH; [done|done|lia|lia|].
  wp_step. apply HQ.
Qed.

Lemma wp_set_states n : forall lvl c target (Q : _ -> psci -> Prop) s,
  wf (tree s) -> (c < N)%nat -> (1 <= lvl)%nat -> (lvl + n <= S L)%nat -> length target = S L ->
  (forall s', rest s s' -> (forall l c, rq s' l c = rq s l c) -> doms s s' c lvl (lvl + n) (lv target) -> Q tt s') ->
  wp (set_states n lvl (anc (tree s) c lvl) target) Q s.
Proof.
  induction n as [|n IH]; intros lvl c target Q s W Hc H1 Hn Ht HQ; cbn [set_states].
  { apply HQ; [done|done|]. rewrite Nat.add_0_r. by apply doms_nil. }
  destruct (node_anc s c lvl W Hc ltac:(lia)) as (nd & E & Es & Ep & _).
  wp_step. eapply wp_node; [done|]. cbn beta. rewrite Ep.
  wp_step. eapply wp_must; [apply lv_some; lia|]. wp_step. eapply wp_set_local; [done|].
  intros s1 R1 E1 D1. rewrite <- (proj1 R1).
  apply IH; [by rewrite (proj1 R1)|done|lia|lia|done|].
  intros s2 R2 E2 D2. apply HQ.
  - by eapply rest_trans.
  - intros l' c'. by rewrite E2.
  - rewrite Nat.add_succ_r in *. eapply doms_cons; [done|done|lia|lia|apply R1|done|done|lia].
Qed.

Lemma wp_run_loop n : forall lvl c (Q : _ -> psci -> Prop) s,
  wf (tree s) -> (c < N)%nat -> (1 <= lvl)%nat -> (lvl + n <= S L)%nat ->
  (forall s', rest s s' -> reqs s s' c lvl (lvl + n) (fun _ => PSCI_LOCAL_STATE_RUN) ->
     doms s s' c lvl (lvl + n) (fun _ => PSCI_LOCAL_STATE_RUN) -> Q tt s') ->
  wp (run_loop n lvl (anc (tree s) c lvl) c) Q s.
Proof.
  induction n as [|n IH]; intros lvl c Q s W Hc H1 Hn HQ; cbn [run_loop].
  { apply HQ; [done| |]; rewrite Nat.add_0_r; [by apply reqs_nil|by apply doms_nil]. }
  destruct (node_anc s c lvl W Hc ltac:(lia)) as (nd & E & Es & Ep & _).
  wp_step. eapply wp_node; [done|]. cbn beta. rewrite Ep.
  wp_step. eapply wp_set_local; [done|]. intros s1 R1 E1 D1.
  wp_step. apply wp_set_req; [by rewrite (proj1 R1)|lia|done|]. intros s2 R2 E2 D2.
  pose proof (rest_trans _ _ _ R1 R2) as R12.
  rewrite <- (proj1 R12). apply IH; [by rewrite (proj1 R12)|done|lia|lia|].
  intros s3 R3 E3 D3. apply HQ.
  - by eapply rest_trans.
  - rewrite Nat.add_succ_r. eapply reqs_cons; [eapply reqs_keep, E2; done|exact E3|lia|done].
  - rewrite Nat.add_succ_r in *. eapply doms_cons; [done|done|lia|lia|apply R12| |done|lia].
    intros j. by rewrite D2, D1.
Qed.
(** ** Coordination *)
(** [d] is the shallowest of the states the cores below the level-[l] ancestor of [c] request. *)
Definition shallowest (s : psci) (c l : nat) (d : Z) : Prop :=
  (forall c', (c' < N)%nat -> anc (tree s) c' l = anc (tree s) c l -> d <= rq s l c') /\
  (exists c', (c' < N)%nat /\ anc (tree s) c' l = anc (tree s) c l /\ rq s l c' = d).
Definition bounded (s : psci) : Prop :=
  forall l c, (1 <= l <= L)%nat -> (c < N)%nat -> 0 <= rq s l c <= PLAT_MAX_OFF_STATE.
Definition state_ok (st : psci_power_state_t) : Prop :=
  length st = S L /\ forall l, (l <= L)%nat -> 0 <= lv st l <= PLAT_MAX_OFF_STATE.

Lemma shallowest_same s s' c l d : tree s' = tree s -> (forall c', rq s' l c' = rq s l c') ->
  shallowest s c l d -> shallowest s' c l d.
Proof.
  intros T E [S1 (c' & ? & ? & Ec)]. unfold shallowest. rewrite T. split.
  - intros c0. rewrite E. apply S1.
  - exists c'. by rewrite E.
Qed.
Lemma bounded_reqs s s' c lo hi f : bounded s -> reqs s s' c lo hi f ->
  (forall l, (1 <= l <= L)%nat -> 0 <= f l <= PLAT_MAX_OFF_STATE) -> bounded s'.
Proof. intros B R Hf l c' Hl Hc. rewrite R. case_bool_decide; auto. Qed.

Lemma foldl_min (l : list Z) : forall a,
  let m := foldl (fun target temp => if temp <? target then temp else target) a l in
  m <= a /\ (forall x, x ∈ l -> m <= x) /\ (m = a \/ m ∈ l).
Proof.
  induction l as [|x l IH]; intros a; cbn [foldl].
  - repeat split; [lia|by intros x ?%elem_of_nil|by left].
  - destruct (IH (if x <? a then x else a)) as (H1 & H2 & H3). repeat split.
    + destruct (Z.ltb_spec x a); lia.
    + intros y [->|Hy]%elem_of_cons; [|auto]. destruct (Z.ltb_spec x a); lia.
    + destruct H3 as [H3|H3]; [|right; by apply elem_of_cons; right].
      rewrite H3. destruct (Z.ltb_spec x a); [right; by apply elem_of_cons; left|by left].
Qed.

(** The platform's default answers the shallowest request. *)
Lemma plat_get_target_pwr_state_ok states :
  states <> [] -> (forall x, x ∈ states -> x <= PLAT_MAX_OFF_STATE) ->
  exists m, plat_get_target_pwr_state states = Some m /\ m ∈ states /\ forall x, x ∈ states -> m <= x.
Proof.
  intros Hne Hb. unfold plat_get_target_pwr_state. destruct states as [|x l]; [done|].
  destruct (foldl_min (x :: l) PLAT_MAX_OFF_STATE) as (H1 & H2 & H3). eexists. split; [done|].
  split; [|done]. destruct H3 as [H3|H3]; [|done].
  assert (x = PLAT_MAX_OFF_STATE) as E.
  { assert (x ∈ x :: l) as Hx by (by apply elem_of_cons; left). specialize (H2 x Hx). specialize (Hb x Hx). lia. }
  rewrite H3. apply elem_of_cons. left. done.
Qed.

Lemma wp_get_req c l n (Q : _ -> psci -> Prop) s :
  wf (tree s) -> (c < N)%nat -> (1 <= l <= L)%nat -> bounded s ->
  zget (psci_non_cpu_pd_nodes s) (anc (tree s) c l) = Some n ->
  (forall states d, plat_get_target_pwr_state states = Some d -> shallowest s c l d -> Q states s) ->
  wp (psci_get_req_local_pwr_states l (cpu_start_idx n) (ncpus n)) Q s.
Proof.
  intros W Hc Hl B En HQ. unfold psci_get_req_local_pwr_states, PSCI_CPU_PWR_LVL.
  destruct (node_anc s c l W Hc Hl) as (n' & E & _ & _ & _ & H0 & H1 & H2 & Hd). simplify_eq.
  destruct (row_lookup s (l - 1) W ltac:(lia)) as (row & Er & Hr).
  wp_step. apply wp_assert; [apply bool_decide_eq_true; lia|].
  do 2 wp_step. wp_step. eapply wp_must; [done|].
  assert ((0 <=? cpu_start_idx n) && (0 <=? ncpus n) && (cpu_start_idx n + ncpus n <=? zlen row) = true) as ->.
  { unfold zlen. rewrite Hr. repeat (apply andb_true_iff; split); lia. }
  wp_step. set (states := take _ _).
  assert (forall c', row !! c' = Some (rq s l c') \/ (N <= c')%nat) as Hrow.
  { intros c'. destruct (decide (c' < N)%nat) as [Hc'|]; [left|right; lia]. unfold rq.
    destruct l as [|k]; [lia|]. cbn [Nat.sub] in Er. rewrite Nat.sub_0_r in Er. rewrite Er. cbn.
    by destruct (lookup_lt_is_Some_2 row c' ltac:(lia)) as [x ->]. }
  assert (forall x, x ∈ states <-> exists c', (c' < N)%nat /\ anc (tree s) c' l = anc (tree s) c l /\ rq s l c' = x) as Hs.
  { intros x. rewrite list_elem_of_lookup. unfold states. split.
    - intros [i Hi]. apply lookup_take_Some in Hi as [Hi Hn]. rewrite lookup_drop in Hi.
      exists (Z.to_nat (cpu_start_idx n) + i)%nat. pose proof (lookup_lt_Some _ _ _ Hi).
      split; [lia|]. split; [apply Hd; lia|]. destruct (Hrow (Z.to_nat (cpu_start_idx n) + i)%nat); [congruence|lia].
    - intros (c' & Hc' & Ha & Ex). apply Hd in Ha; [|done]. exists (c' - Z.to_nat (cpu_start_idx n))%nat.
      rewrite lookup_take_lt by lia. rewrite lookup_drop.
      replace (_ + _)%nat with c' by lia. destruct (Hrow c'); [congruence|lia]. }
  destruct (plat_get_target_pwr_state_ok states) as (m & Em & Hm & Hle).
  - intros E0. assert (rq s l c ∈ states) as Hin by (apply Hs; eauto). rewrite E0 in Hin. by apply elem_of_nil in Hin.
  - intros x (c' & ? & ? & <-)%Hs. by apply B.
  - apply (HQ _ m); [done|]. split; [intros c' Hc' Ha; apply Hle, Hs; eauto|]. by apply Hs.
Qed.

(** What the two loops of [psci_do_state_coordination] have computed after level [k]. *)
Lemma wp_coordinate n : forall lvl c st (Q : _ -> psci -> Prop) s,
  wf (tree s) -> (c < N)%nat -> (1 <= lvl)%nat -> (lvl + n <= S L)%nat -> bounded s -> state_ok st ->
  (forall k hi st' s', rest s s' -> hi = Nat.min (S k) (lvl + n) -> (lvl <= k <= lvl + n)%nat ->
     reqs s s' c lvl hi (lv st) -> (forall j, dm s' j = dm s j) -> length st' = length st ->
     (forall j, ~ (lvl <= j < hi)%nat -> lv st' j = lv st j) ->
     (forall j, (lvl <= j < hi)%nat -> shallowest s' c j (lv st' j)) ->
     ((k < lvl + n)%nat -> lv st' k = 0) -> Q (k, st') s') ->
  wp (coordinate n lvl (anc (tree s) c lvl) c st) Q s.
Proof.
  induction n as [|n IH]; intros lvl c st Q s W Hc H1 Hn B [Hst Hb] HQ; cbn [coordinate].
  { eapply HQ; [done|done|lia| |done|done|done|lia|lia].
    rewrite Nat.min_r by lia. rewrite Nat.add_0_r. by apply reqs_nil. }
  wp_step. eapply wp_must; [apply lv_some; lia|]. wp_step.
  apply wp_set_req; [done|lia|done|]. intros s1 R1 E1 D1. pose proof (proj1 R1) as T1. rewrite <- T1.
  assert (bounded s1) as B1 by (eapply bounded_reqs; [done|exact E1|intros; apply Hb; lia]).
  destruct (node_anc s1 c lvl ltac:(by rewrite T1) Hc ltac:(lia)) as (nd & E & Es & Ep & _).
  wp_step. eapply wp_node; [done|]. cbn beta. rewrite Ep. wp_step.
  apply (wp_get_req c lvl); [by rewrite T1|done|lia|done|done|]. intros states d Ed Hd.
  wp_step. eapply wp_must; [done|]. unfold is_local_state_run, PSCI_LOCAL_STATE_RUN.
  pose proof (fun j => lv_insert st lvl d j ltac:(lia)) as Hl.
  destruct (Z.eqb_spec d 0) as [->|Hd0].
  - wp_step. eapply HQ; [done|done|lia| |done|by rewrite length_insert| | |].
    + rewrite Nat.min_l by lia. eapply reqs_ext; [done|]. intros l ?. by replace l with lvl by lia.
    + intros j Hj. rewrite Hl, bool_decide_false by lia. done.
    + intros j Hj. rewrite Hl, bool_decide_true by lia. by replace j with lvl by lia.
    + intros _. by rewrite Hl, bool_decide_true.
  - apply IH; [by rewrite T1|done|lia|lia|done| |].
    { split; [by rewrite length_insert|]. intros l Hl'. rewrite Hl. case_bool_decide; [|by apply Hb].
      destruct Hd as [_ (c' & ? & ? & <-)]. apply B1; [lia|done]. }
    intros k hi st' s' R' -> Hk E' D' Hlen Hout Hin Hz.
    eapply HQ; [by eapply rest_trans|done|lia| |intros; by rewrite D'|by rewrite Hlen, length_insert| | |].
    + replace (Nat.min (S k) (lvl + S n)) with (Nat.min (S k) (S lvl + n)) by lia.
      eapply reqs_cons; [done|eapply reqs_ext; [done|]|lia|done].
      intros l ?. rewrite Hl, bool_decide_false by lia. done.
    + intros j Hj. rewrite Hout by lia. rewrite Hl, bool_decide_false by lia. done.
    + intros j Hj. destruct (decide (j = lvl)) as [->|].
      * rewrite Hout by lia. rewrite Hl, bool_decide_true by done.
        eapply shallowest_same; [apply R'| |done]. intros c'. rewrite E', bool_decide_false by lia. done.
      * apply Hin. lia.
    + intros. apply Hz. lia.
Qed.

Lemma wp_request_above n : forall lvl c st (Q : _ -> psci -> Prop) s,
  wf (tree s) -> (c < N)%nat -> (1 <= lvl)%nat -> (lvl + n <= S L \/ n = 0)%nat -> length st = S L ->
  (forall st' s', rest s s' -> reqs s s' c lvl (lvl + n) (lv st) -> (forall j, dm s' j = dm s j) ->
     length st' = length st ->
     (forall j, lv st' j = if bool_decide (lvl <= j < lvl + n)%nat then 0 else lv st j) -> Q st' s') ->
  wp (request_above n lvl c st) Q s.
Proof.
  induction n as [|n IH]; intros lvl c st Q s W Hc H1 Hn Hst HQ; cbn [request_above].
  { apply HQ; [done|rewrite Nat.add_0_r; by apply reqs_nil|done|done|].
    intros j. rewrite bool_decide_false by lia. done. }
  wp_step. eapply wp_must; [apply lv_some; lia|]. wp_step.
  apply wp_set_req; [done|lia|done|]. intros s1 R1 E1 D1. pose proof (proj1 R1) as T1.
  pose proof (fun j => lv_insert st lvl PSCI_LOCAL_STATE_RUN j ltac:(lia)) as Hl.
  apply IH; [by rewrite T1|done|lia|lia|by rewrite length_insert|].
  intros st' s' R' E' D' Hlen Hj. apply HQ.
  - by eapply rest_trans.
  - rewrite Nat.add_succ_r. eapply reqs_cons; [done|eapply reqs_ext; [done|]|lia|done].
    intros l ?. rewrite Hl, bool_decide_false by lia. done.
  - intros j. by rewrite D'.
  - by rewrite Hlen, length_insert.
  - intros j. rewrite Hj, Hl. unfold PSCI_LOCAL_STATE_RUN. repeat case_bool_decide; try done; lia.
Qed.
(** A level that is requested to run keeps the levels above it running. *)
Definition mono_core (f : nat -> Z) : Prop := forall l, (1 <= l < L)%nat -> f l = 0 -> f (S l) = 0.
Definition mono (s : psci) : Prop := forall c, (c < N)%nat -> mono_core (fun l => rq s l c).

Lemma mono_core_le f l l' : mono_core f -> (1 <= l)%nat -> (l <= l' <= L)%nat -> f l = 0 -> f l' = 0.
Proof.
  intros M H1 [Hle HL] E. induction Hle as [|l' Hle IH]; [done|].
  apply (M l'); [lia|]. apply IH. lia.
Qed.
Lemma mono_reqs s s' c e f : mono s -> reqs s s' c 1 (S e) f -> mono_core f ->
  (forall l, (e < l <= L)%nat -> rq s l c = 0) -> mono s'.
Proof.
  intros M R Mf Hab c' Hc' l Hl. rewrite !R.
  destruct (decide (c' = c)) as [->|].
  - repeat case_bool_decide; try lia; intros E; [by apply Mf|by apply Hab; lia|apply Hab; lia].
  - rewrite !bool_decide_false by tauto. by apply M.
Qed.

(** Where a domain runs because some core below requests it, all domains above do. *)
Lemma shallowest_above s c l l' : bounded s -> mono s -> (c < N)%nat -> (1 <= l <= l')%nat -> (l' <= L)%nat ->
  shallowest s c l 0 -> shallowest s c l' 0.
Proof.
  intros B M Hc Hl HL [_ (c' & Hc' & Ha & E)]. split.
  - intros c0 Hc0 _. apply B; [lia|done].
  - exists c'. split; [done|]. split; [eapply anc_up; [done|lia]|].
    eapply (mono_core_le (fun l => rq s l c') l); [by apply M|lia|lia|done].
Qed.

Definition set_local (d : psci_cpu_data_t) (st : Z) : psci_cpu_data_t := CpuData (aff_info_state d) (target_pwrlvl d) st.

Lemma wp_coordination c e st (Q : _ -> psci -> Prop) s :
  wf (tree s) -> (c < N)%nat -> (e <= L)%nat -> bounded s -> mono s -> state_ok st -> mono_core (lv st) ->
  (forall l, (e < l <= L)%nat -> rq s l c = 0) ->
  (forall st' s', tree s' = tree s -> psci_cpu_pd_nodes s' = psci_cpu_pd_nodes s -> log s' = log s ->
     length st' = S L -> (forall j, ~ (1 <= j <= e)%nat -> lv st' j = lv st j) ->
     (forall j, (1 <= j <= e)%nat -> shallowest s' c j (lv st' j)) ->
     reqs s s' c 1 (S e) (lv st) -> doms s s' c 1 (S e) (lv st') -> mono s' -> bounded s' ->
     (forall c', dt s' c' = if bool_decide (c' = c) then set_local (dt s c') (lv st 0) else dt s c') ->
     Q st' s') ->
  wp (psci_do_state_coordination c e st) Q s.
Proof.
  intros W Hc He B M Hst Mst Hab HQ. unfold psci_do_state_coordination.
  wp_step. apply wp_assert; [by apply bool_decide_eq_true|]. wp_step. apply wp_cpu_node; [done|done|].
  intros cn Ecn ->. wp_step. apply wp_coordinate; [done|done|lia|lia|done|done|].
  intros k hi st1 s1 R1 -> Hk Q1 D1 Hl1 Hout Hin Hz. pose proof (proj1 R1) as T1. cbn beta iota.
  destruct Hst as [Hst Hb]. wp_step. apply wp_request_above; [by rewrite T1|done|lia|lia|congruence|].
  intros st2 s2 R2 Q2 D2 Hl2 Hlv. pose proof (rest_trans _ _ _ R1 R2) as (T2 & C2 & A2 & G2).
  assert (reqs s s2 c 1 (S e) (lv st)) as Q12.
  { intros l c'. rewrite Q2, Q1.
    destruct (decide (c' = c)) as [->|]; [|by rewrite !bool_decide_false by tauto].
    repeat case_bool_decide; try done; try lia. apply Hout. lia. }
  assert (mono s2) as M2 by (by eapply mono_reqs).
  assert (bounded s2) as B2 by (eapply bounded_reqs; [done|exact Q12|intros; apply Hb; lia]).
  assert (forall j, (1 <= j <= e)%nat -> shallowest s2 c j (lv st2 j)) as Hsh.
  { intros j Hj. rewrite Hlv. case_bool_decide.
    - apply (shallowest_above s2 c k); [done|done|done|lia|lia|].
      eapply shallowest_same; [apply R2| |rewrite <- Hz by lia; apply Hin; lia].
      intros c'. rewrite Q2, bool_decide_false by lia. done.
    - eapply shallowest_same; [apply R2| |apply Hin; lia].
      intros c'. rewrite Q2, bool_decide_false by lia. done. }
  wp_step. unfold psci_set_target_local_pwr_states. wp_step.
  eapply wp_must; [apply lv_some; unfold PSCI_CPU_PWR_LVL; lia|]. wp_step.
  unfold psci_set_cpu_local_state. wp_step. apply wp_get_data; [by rewrite T2|done|].
  apply wp_set_data; [by rewrite T2|done|]. intros s3 T3 N3 C3 P3 G3 A3. wp_step.
  apply wp_cpu_node; [by rewrite T3, T2|done|]. intros cn3 Ecn3 ->.
  apply wp_set_states; [by rewrite T3, T2|done|lia|lia|congruence|].
  intros s4 R4 Q4 D4. pose proof R4 as (T4 & C4 & A4 & G4). wp_step.
  assert (forall l c', rq s4 l c' = rq s2 l c') as E42.
  { intros. by rewrite Q4, (rq_same s2 s3). }
  assert (tree s4 = tree s2) as T42 by congruence.
  apply HQ.
  - congruence.
  - congruence.
  - congruence.
  - congruence.
  - intros j Hj. rewrite Hlv, bool_decide_false by lia. apply Hout. lia.
  - intros j Hj. eapply shallowest_same; [done|intros; apply E42|by apply Hsh].
  - intros l c'. rewrite E42. apply Q12.
  - destruct D4 as [D41 D42]. rewrite T3, T2 in *. split; [intros; apply D41; lia|].
    intros i Hi. rewrite D42 by (intros; apply Hi; lia). rewrite (dm_same s2 s3) by done. by rewrite D2, D1.
  - intros c' Hc' l Hl. rewrite !E42. by apply M2.
  - intros l c' Hl Hc'. rewrite E42. by apply B2.
  - intros c'. assert (forall x, dt s2 x = dt s x) as Edt by (intros; unfold dt; by rewrite A2).
    assert (dt s4 c' = dt s3 c') as -> by (unfold dt; by rewrite A4).
    rewrite A3, !Edt. case_bool_decide; [subst c'|done]. unfold set_local. f_equal.
    rewrite Hlv, bool_decide_false by (unfold PSCI_CPU_PWR_LVL; lia). apply Hout. unfold PSCI_CPU_PWR_LVL. lia.
Qed.

Lemma wp_to_run c e (Q : _ -> psci -> Prop) s :
  wf (tree s) -> (c < N)%nat -> (e <= L)%nat ->
  (forall s', tree s' = tree s -> psci_cpu_pd_nodes s' = psci_cpu_pd_nodes s -> log s' = log s ->
     reqs s s' c 1 (S e) (fun _ => 0) -> doms s s' c 1 (S e) (fun _ => 0) ->
     (forall c', dt s' c' = if bool_decide (c' = c) then CpuData AFF_STATE_ON (target_pwrlvl (dt s c)) 0 else dt s c') ->
     Q tt s') ->
  wp (psci_set_pwr_domains_to_run c e) Q s.
Proof.
  intros W Hc He HQ. unfold psci_set_pwr_domains_to_run, psci_set_aff_info_state, psci_set_cpu_local_state.
  wp_step. apply wp_cpu_node; [done|done|]. intros cn _ ->. wp_step.
  apply wp_run_loop; [done|done|lia|lia|]. intros s1 (T1 & C1 & A1 & G1) Q1 D1.
  do 2 wp_step. apply wp_get_data; [by rewrite T1|done|]. apply wp_set_data; [by rewrite T1|done|].
  intros s2 T2 N2 C2 P2 G2 A2. wp_step. apply wp_get_data; [by rewrite T2, T1|done|].
  apply wp_set_data; [by rewrite T2, T1|done|]. intros s3 T3 N3 C3 P3 G3 A3. apply HQ; try congruence.
  - intros l c'. rewrite (rq_same s2 s3), (rq_same s1 s2) by done. apply Q1.
  - destruct D1 as [D11 D12]. split.
    + intros l Hl. rewrite (dm_same s2 s3), (dm_same s1 s2) by done. apply D11. lia.
    + intros i Hi. rewrite (dm_same s2 s3), (dm_same s1 s2) by done. apply D12. intros; apply Hi. lia.
  - intros c'. rewrite A3, !A2. assert (forall x, dt s1 x = dt s x) as E by (intros; unfold dt; by rewrite A1).
    rewrite !E. case_bool_decide; [|done]. by rewrite bool_decide_true.
Qed.

Lemma wp_get_target c e (Q : _ -> psci -> Prop) s : wf (tree s) -> (c < N)%nat -> (e <= L)%nat ->
  (forall st, length st = S L -> lv st 0 = cpu_local_state (dt s c) ->
     (forall l, (1 <= l <= e)%nat -> lv st l = dm s (anc (tree s) c l)) ->
     (forall l, (e < l)%nat -> lv st l = 0) -> Q st s) ->
  wp (psci_get_target_local_pwr_states c e) Q s.
Proof.
  intros W Hc He HQ. unfold psci_get_target_local_pwr_states. wp_step. apply wp_get_data; [done|done|].
  wp_step. apply wp_cpu_node; [done|done|]. intros cn _ ->. wp_step. apply wp_get_states; [done|done|lia|lia|].
  wp_step. apply HQ.
  - cbn [length]. rewrite length_app, length_fmap, length_seq, length_replicate. lia.
  - done.
  - intros l Hl. unfold lv. destruct l as [|l]; [lia|]. rewrite lookup_cons_ne_0 by lia. cbn [Nat.pred].
    rewrite lookup_app_l by (rewrite length_fmap, length_seq; lia).
    rewrite list_lookup_fmap, lookup_seq_lt by lia. done.
  - intros l Hl. unfold lv. destruct l as [|l]; [lia|]. rewrite lookup_cons_ne_0 by lia. cbn [Nat.pred].
    rewrite lookup_app_r by (rewrite length_fmap, length_seq; lia).
    destruct (replicate _ _ !! _) as [x|] eqn:E; [|done]. by apply lookup_replicate in E as [-> _].
Qed.
(** ** Locks *)
Definition with_log (s : psci) (l : list event) : psci :=
  Psci_ (psci_non_cpu_pd_nodes s) (psci_cpu_pd_nodes s) (psci_req_local_pwr_states s) (cpu_data s) l.
(** The locks of core [c] up to level [e], in the order they are taken. *)
Definition locks (t : pd_tree) (c e : nat) : list Z := anc t c <$> seq 1 e.
Definition lock_gets (t : pd_tree) (c e : nat) : list event := LockGet c <$> locks t c e.
Definition lock_releases (t : pd_tree) (c e : nat) : list event := LockRelease c <$> reverse (locks t c e).

Lemma wp_emit e (Q : _ -> psci -> Prop) s : Q tt (with_log s (log s ++ [e])) -> wp (emit e) Q s.
Proof. done. Qed.

Lemma wp_acquire n : forall lvl c (Q : _ -> psci -> Prop) s,
  wf (tree s) -> (c < N)%nat -> (1 <= lvl)%nat -> (lvl + n <= S L)%nat ->
  Q tt (with_log s (log s ++ (LockGet c <$> (anc (tree s) c <$> seq lvl n)))) ->
  wp (acquire n (anc (tree s) c lvl) c) Q s.
Proof.
  induction n as [|n IH]; intros lvl c Q s W Hc H1 Hn HQ; cbn [acquire].
  { wp_step. cbn in HQ. rewrite app_nil_r in HQ. by destruct s. }
  destruct (node_anc s c lvl W Hc ltac:(lia)) as (nd & E & Es & Ep & El & _).
  wp_step. eapply wp_node; [done|]. cbn beta. rewrite Ep. wp_step. unfold psci_lock_get. apply wp_emit.
  set (s1 := with_log _ _). change (tree s) with (tree s1). apply IH; [done|done|lia|lia|].
  unfold s1. rewrite El. cbn [with_log log]. rewrite <- app_assoc. done.
Qed.
Lemma wp_acquire_locks c e (Q : _ -> psci -> Prop) s :
  wf (tree s) -> (c < N)%nat -> (e <= L)%nat -> Q tt (with_log s (log s ++ lock_gets (tree s) c e)) ->
  wp (psci_acquire_pwr_domain_locks e c) Q s.
Proof.
  intros W Hc He HQ. unfold psci_acquire_pwr_domain_locks. wp_step. apply wp_cpu_node; [done|done|].
  intros cn _ ->. apply wp_acquire; [done|done|lia|lia|done].
Qed.

Lemma wp_release nodes : forall c (Q : _ -> psci -> Prop) s,
  wf (tree s) -> (c < N)%nat -> (forall i, i ∈ nodes -> exists l, (1 <= l <= L)%nat /\ i = anc (tree s) c l) ->
  Q tt (with_log s (log s ++ (LockRelease c <$> nodes))) -> wp (release nodes c) Q s.
Proof.
  induction nodes as [|i nodes IH]; intros c Q s W Hc Hi HQ; cbn [release].
  { wp_step. cbn in HQ. rewrite app_nil_r in HQ. by destruct s. }
  destruct (Hi i) as (l & Hl & ->); [by apply elem_of_cons; left|].
  destruct (node_anc s c l W Hc Hl) as (nd & E & Es & Ep & El & _).
  wp_step. eapply wp_node; [done|]. cbn beta. wp_step. unfold psci_lock_release. apply wp_emit.
  apply IH; [done|done|intros j Hj; apply Hi; by apply elem_of_cons; right|].
  rewrite El. cbn [with_log log]. rewrite <- app_assoc. done.
Qed.
Lemma wp_release_locks c e (Q : _ -> psci -> Prop) s :
  wf (tree s) -> (c < N)%nat -> (e <= L)%nat -> Q tt (with_log s (log s ++ lock_releases (tree s) c e)) ->
  wp (psci_release_pwr_domain_locks e c) Q s.
Proof.
  intros W Hc He HQ. unfold psci_release_pwr_domain_locks, psci_get_parent_pwr_domain_nodes.
  do 2 wp_step. apply wp_cpu_node; [done|done|].
  intros cn _ ->. apply wp_parent_nodes; [done|done|lia|lia|]. apply wp_release; [done|done| |done].
  intros i Hi. rewrite elem_of_reverse in Hi. apply list_elem_of_fmap in Hi as (l & -> & Hl).
  apply elem_of_seq in Hl. exists l. split; [lia|done].
Qed.
End tree.
End PsciTree.
