(* ===== verification/PsciInv.v ===== *)
(** * PSCI: the invariant of the power state and the operations that keep it

    Each core is in a [phase]; [Inv] relates the phases to the cores' data, the requests
    and the states of the power domains.  Every operation that runs on a core in the right
    phase is shown defined - no assertion fails, no index is out of range - and to keep
    [Inv].  What is required of the platform is the class [PlatLaws]. *)

From Stdlib Require Import ZArith Lia.
From stdpp Require Import base option list numbers functions.
From S2P Require Import Prelude CMonad Psci PsciProps.
Import Psci PsciTree.
Open Scope Z_scope.

Module PsciInv.

Inductive phase := Up | GoingOff | Off | Pending | Down (lvl : nat) | Standby (lvl : nat).

Section inv.
Context `{Plat}.
Abbreviation N := PLATFORM_CORE_COUNT.
Abbreviation L := PLAT_MAX_PWR_LVL.

(** ** The platform's promises *)
(** A request of [psci_cpu_suspend_start]. *)
Definition request_ok (e : nat) (st : psci_power_state_t) (pd : Z) : Prop :=
  state_ok st /\ psci_find_target_suspend_lvl st = Some e /\ (e <= L)%nat /\
  psci_validate_suspend_req st pd = Some PSCI_E_SUCCESS /\
  (pd <> 0 -> is_local_state_off (lv st 0) = true).

Class PlatLaws : Prop := {
  law_states : 0 <= PLAT_MAX_RET_STATE < PLAT_MAX_OFF_STATE;
  law_core_pos : forall m, -1 <= plat_core_pos_by_mpidr m < Z.of_nat N;
  law_pwr_domain_on : forall l m, pm_pwr_domain_on l m = PSCI_E_SUCCESS \/ pm_pwr_domain_on l m = PSCI_E_INTERN_FAIL;
  law_svc_off : forall o f l, psci_spd_pm = Some o -> svc_off o = Some f -> f l = PSCI_E_SUCCESS \/ f l = PSCI_E_DENIED;
  law_validate : forall p rc st, pm_validate_power_state p = Some (rc, st) ->
    rc = PSCI_E_INVALID_PARAMS \/
    rc = PSCI_E_SUCCESS /\ state_ok st /\ psci_validate_suspend_req st (psci_get_pstate_type p) = Some PSCI_E_SUCCESS /\
    (psci_get_pstate_type p <> 0 -> is_local_state_off (lv st 0) = true);
  law_sys_suspend : request_ok L pm_get_sys_suspend_power_state 1 /\
    is_local_state_off (lv pm_get_sys_suspend_power_state L) = true;
  law_migrate : forall o m x y, psci_spd_pm = Some o -> svc_migrate_info o = Some (PSCI_TOS_UP_MIG_CAP, m) ->
    exists f, svc_migrate o = Some f /\ (f x y = PSCI_E_SUCCESS \/ f x y = PSCI_E_INTERN_FAIL);
  law_migrate_info : forall o rc m, psci_spd_pm = Some o -> svc_migrate_info o = Some (rc, m) ->
    rc = PSCI_TOS_UP_MIG_CAP \/ rc = PSCI_TOS_NOT_UP_MIG_CAP \/ rc = PSCI_TOS_NOT_PRESENT_MP \/ rc = PSCI_E_NOT_SUPPORTED;
  law_hw_state : forall m l, 0 <= pm_get_node_hw_state m l <= 2 \/
    pm_get_node_hw_state m l = PSCI_E_NOT_SUPPORTED \/ pm_get_node_hw_state m l = PSCI_E_INVALID_PARAMS
}.

(** ** The invariant *)
Definition core_ok (p : phase) (d : psci_cpu_data_t) (f : nat -> Z) : Prop :=
  match p with
  | Up => d = CpuData AFF_STATE_ON PSCI_INVALID_PWR_LVL 0 /\ forall l, (1 <= l <= L)%nat -> f l = 0
  | GoingOff => d = CpuData AFF_STATE_ON PSCI_INVALID_PWR_LVL PLAT_MAX_OFF_STATE /\
      forall l, (1 <= l <= L)%nat -> f l = PLAT_MAX_OFF_STATE
  | Off => d = CpuData AFF_STATE_OFF PSCI_INVALID_PWR_LVL PLAT_MAX_OFF_STATE /\
      forall l, (1 <= l <= L)%nat -> f l = PLAT_MAX_OFF_STATE
  | Pending => d = CpuData AFF_STATE_ON_PENDING PSCI_INVALID_PWR_LVL PLAT_MAX_OFF_STATE /\
      forall l, (1 <= l <= L)%nat -> f l = PLAT_MAX_OFF_STATE
  | Down e => (e <= L)%nat /\ (exists x, d = CpuData AFF_STATE_ON e x /\ is_local_state_off x = true) /\
              forall l, (e < l <= L)%nat -> f l = 0
  | Standby e => (e <= L)%nat /\ (exists x, d = CpuData AFF_STATE_ON PSCI_INVALID_PWR_LVL x) /\
              forall l, (e < l <= L)%nat -> f l = 0
  end.

(** Every domain is in the shallowest of the states requested for it. *)
Definition coordinated (s : psci) : Prop :=
  forall c l, (c < N)%nat -> (1 <= l <= L)%nat -> shallowest s c l (dm s (anc (tree s) c l)).

Record Inv (s : psci) (ph : nat -> phase) : Prop := {
  inv_wf : wf (tree s);
  inv_bounded : bounded s;
  inv_mono : mono s;
  inv_coordinated : coordinated s;
  inv_core : forall c, (c < N)%nat -> core_ok (ph c) (dt s c) (fun l => rq s l c)
}.

Lemma Inv_log s l ph : Inv s ph -> Inv (with_log s l) ph.
Proof. by destruct 1. Qed.

Lemma Inv_ph s ph ph' : (forall c, ph c = ph' c) -> Inv s ph -> Inv s ph'.
Proof. intros E [W B M C K]. constructor; try done. intros c Hc. rewrite <- E. by apply K. Qed.
Lemma Inv_twice s ph c p q : Inv s (<[c := p]> (<[c := q]> ph)) -> Inv s (<[c := p]> ph).
Proof.
  apply Inv_ph. intros x. destruct (decide (x = c)) as [->|].
  - by rewrite !fn_lookup_insert.
  - by rewrite !fn_lookup_insert_ne.
Qed.
Lemma Inv_id s ph c p : ph c = p -> Inv s (<[c := p]> ph) -> Inv s ph.
Proof.
  intros <-. apply Inv_ph. intros x. destruct (decide (x = c)) as [->|].
  - by rewrite fn_lookup_insert.
  - by rewrite fn_lookup_insert_ne.
Qed.

Lemma core_ok_ext p d f g : (forall l, (1 <= l <= L)%nat -> f l = g l) -> core_ok p d f -> core_ok p d g.
Proof.
  intros E. destruct p; cbn.
  1-4: intros [? Hf]; split; [done|]; intros l Hl; by rewrite <- E, Hf.
  - intros (? & ? & Hf). repeat split; [done|done|]. intros l Hl. rewrite <- E, Hf by lia. done.
  - intros (? & ? & Hf). repeat split; [done|done|]. intros l Hl. rewrite <- E, Hf by lia. done.
Qed.

Lemma coordinated_upd s s' c e f g :
  wf (tree s) -> coordinated s -> tree s' = tree s -> (c < N)%nat -> (e <= L)%nat ->
  reqs s s' c 1 (S e) f -> doms s s' c 1 (S e) g ->
  (forall j, (1 <= j <= e)%nat -> shallowest s' c j (g j)) -> coordinated s'.
Proof.
  intros W C T Hc He R [D1 D2] Hs c' l Hc' Hl. rewrite T.
  destruct (decide (l <= e /\ anc (tree s) c' l = anc (tree s) c l)%nat) as [[Hle Ea]|Hn].
  - rewrite Ea, D1 by lia. destruct (Hs l ltac:(lia)) as [S1 S2]. unfold shallowest in *. rewrite T in *.
    by rewrite Ea.
  - assert (forall j, (1 <= j < S e)%nat -> anc (tree s) c' l <> anc (tree s) c j) as Hd.
    { intros j Hj Ea. assert (l = j) as -> by (eapply (anc_level _ c' l c j); [done|lia..|done]).
      apply Hn. split; [lia|done]. }
    rewrite D2 by done. destruct (C c' l Hc' Hl) as [S1 (c0 & Hc0 & Ha & E)].
    assert (forall x, anc (tree s) x l = anc (tree s) c' l -> rq s' l x = rq s l x) as Hsame.
    { intros x Hx. rewrite R, bool_decide_false; [done|]. intros [-> Hj]. apply Hn. split; [lia|done]. }
    unfold shallowest. rewrite T. split.
    + intros x Hx Hxa. rewrite Hsame by done. by apply S1.
    + exists c0. by rewrite Hsame.
Qed.

(** After coordination, with the cores' data and phases as given. *)
Lemma Inv_upd s s' ph ph' c e f g :
  Inv s ph -> tree s' = tree s -> (c < N)%nat -> (e <= L)%nat ->
  reqs s s' c 1 (S e) f -> doms s s' c 1 (S e) g -> (forall j, (1 <= j <= e)%nat -> shallowest s' c j (g j)) ->
  mono s' -> bounded s' -> (forall c', c' <> c -> dt s' c' = dt s c' /\ ph' c' = ph c') ->
  core_ok (ph' c) (dt s' c) (fun l => rq s' l c) -> Inv s' ph'.
Proof.
  intros [W B M C K] T Hc He R D Hs M' B' Hd Hk. constructor; [by rewrite T|done|done| |].
  - by eapply coordinated_upd.
  - intros c' Hc'. destruct (decide (c' = c)) as [->|Hne]; [done|].
    destruct (Hd c' Hne) as [-> ->]. eapply core_ok_ext; [|by apply K].
    intros l _. rewrite R, bool_decide_false; [done|tauto].
Qed.

(** The cores' data only. *)
Lemma Inv_data s s' ph ph' c :
  Inv s ph -> (c < N)%nat -> tree s' = tree s -> psci_non_cpu_pd_nodes s' = psci_non_cpu_pd_nodes s ->
  psci_req_local_pwr_states s' = psci_req_local_pwr_states s ->
  (forall c', c' <> c -> dt s' c' = dt s c' /\ ph' c' = ph c') ->
  core_ok (ph' c) (dt s' c) (fun l => rq s' l c) -> Inv s' ph'.
Proof.
  intros [W B M C K] Hc T N' R' Hd Hk.
  pose proof (rq_same _ _ R') as Er. pose proof (dm_same _ _ N') as Ed.
  constructor; [by rewrite T| | | |].
  - intros l c' Hl Hc'. rewrite Er. by apply B.
  - intros c' Hc' l Hl. rewrite !Er. by apply M.
  - intros c' l Hc' Hl. rewrite Ed, T. eapply shallowest_same; [done|intros; apply Er|by apply C].
  - intros c' Hc'. destruct (decide (c' = c)) as [->|Hne]; [done|].
    destruct (Hd c' Hne) as [-> ->]. eapply core_ok_ext; [|by apply K]. intros; by rewrite Er.
Qed.

Lemma shallowest_run s c l : bounded s -> (c < N)%nat -> (1 <= l <= L)%nat -> rq s l c = 0 -> shallowest s c l 0.
Proof. intros B Hc Hl E. split; [intros; by apply B|eauto]. Qed.

(** Every power domain above a running core runs. *)
Lemma running_core_domains s ph c l : Inv s ph -> ph c = Up -> (c < N)%nat -> (1 <= l <= L)%nat ->
  dm s (anc (tree s) c l) = PSCI_LOCAL_STATE_RUN.
Proof.
  intros I Hp Hc Hl. destruct (inv_coordinated _ _ I c l Hc Hl) as [S1 (c' & Hc' & _ & E)].
  pose proof (inv_core _ _ I c Hc) as K. rewrite Hp in K. destruct K as [_ K].
  specialize (S1 c Hc eq_refl). rewrite (K l Hl) in S1.
  pose proof (inv_bounded _ _ I l c' Hl Hc'). unfold PSCI_LOCAL_STATE_RUN. lia.
Qed.

(** A domain all of whose cores are off is in the deepest state. *)
Definition is_off (p : phase) : Prop := p = GoingOff \/ p = Off \/ p = Pending.
Lemma off_domain s ph c l : Inv s ph -> (c < N)%nat -> (1 <= l <= L)%nat ->
  (forall c', (c' < N)%nat -> anc (tree s) c' l = anc (tree s) c l -> is_off (ph c')) ->
  dm s (anc (tree s) c l) = PLAT_MAX_OFF_STATE.
Proof.
  intros I Hc Hl Hoff. destruct (inv_coordinated _ _ I c l Hc Hl) as [_ (c' & Hc' & Ha & <-)].
  pose proof (inv_core _ _ I c' Hc') as K. destruct (Hoff c' Hc' Ha) as [E|[E|E]]; rewrite E in K; by apply K.
Qed.

(** ** Suspend requests *)
Lemma find_lvl_ok p st n : (n < length st)%nat ->
  exists k, find_lvl p st n = Some k /\
    ((k <= n)%nat /\ p (lv st k) = true /\ (forall j, (k < j <= n)%nat -> p (lv st j) = false) \/
     k = PSCI_INVALID_PWR_LVL /\ forall j, (j <= n)%nat -> p (lv st j) = false).
Proof.
  induction n as [|n IH]; intros Hn; cbn [find_lvl]; rewrite (lv_some _ _ Hn); cbn [mbind option_bind].
  - destruct (p (lv st 0)) eqn:E; eexists; (split; [done|]).
    + left. split; [lia|]. split; [done|lia].
    + right. split; [done|]. intros j Hj. by replace j with 0%nat by lia.
  - destruct (p (lv st (S n))) eqn:E.
    + eexists. split; [done|]. left. split; [lia|]. split; [done|lia].
    + destruct (IH ltac:(lia)) as (k & -> & [(Hk & Hp & Hj)|(-> & Hj)]); eexists; (split; [done|]).
      * left. split; [lia|]. split; [done|]. intros j ?. destruct (decide (j = S n)) as [->|]; [done|]. apply Hj. lia.
      * right. split; [done|]. intros j ?. destruct (decide (j = S n)) as [->|]; [done|]. apply Hj. lia.
Qed.

Definition deeper (st : psci_power_state_t) (n : nat) : Prop :=
  forall j, (j < n)%nat -> find_local_state_type (lv st (S j)) <= find_local_state_type (lv st j).

Lemma deeper_le st n j : deeper st n -> (j <= n)%nat ->
  find_local_state_type (lv st n) <= find_local_state_type (lv st j).
Proof.
  intros D Hj. remember (n - j)%nat as d eqn:E. revert j Hj E. induction d as [|d IH]; intros j Hj E.
  - by replace j with n by lia.
  - etrans; [apply (IH (S j)); lia|]. apply D. lia.
Qed.

Lemma deepest_ok n : forall st d, (n < length st)%nat ->
  exists o, deepest n st d = Some o /\ (is_Some o <-> d <= find_local_state_type (lv st n) /\ deeper st n).
Proof.
  induction n as [|n IH]; intros st d Hn; cbn [deepest]; rewrite (lv_some _ _ Hn); cbn [mbind option_bind].
  - destruct (Z.ltb_spec (find_local_state_type (lv st 0)) d); eexists; (split; [done|]).
    + split; [by intros [? ?]|lia].
    + split; [intros _; split; [lia|intros j; lia]|by eexists].
  - destruct (Z.ltb_spec (find_local_state_type (lv st (S n))) d) as [Hlt|Hge].
    + eexists; split; [done|]. split; [by intros [? ?]|lia].
    + destruct (IH st (find_local_state_type (lv st (S n))) ltac:(lia)) as (o & E & Ho).
      exists o. split; [done|]. rewrite Ho. split; intros [H1 H2]; (split; [|intros j Hj]).
      * done.
      * destruct (decide (j = n)) as [->|]; [done|]. apply H2. lia.
      * apply H2. lia.
      * apply H2. lia.
Qed.

Lemma type_nonneg s : 0 <= find_local_state_type s.
Proof. unfold find_local_state_type. repeat case_match; lia. Qed.
Lemma type_run s : find_local_state_type s = 0 <-> s = 0.
Proof. unfold find_local_state_type. destruct (Z.eqb_spec s 0); cbn [negb]; [by subst|]. case_match; lia. Qed.

Lemma validate_suspend_req_ok st pd : length st = S L ->
  exists r, psci_validate_suspend_req st pd = Some r /\
    (r = PSCI_E_SUCCESS \/ r = PSCI_E_INVALID_PARAMS) /\
    (r = PSCI_E_SUCCESS <->
      (exists l, (l <= L)%nat /\ lv st l <> 0) /\ deeper st L /\
      (pd = 0 -> forall l, (l <= L)%nat -> is_local_state_off (lv st l) = false)).
Proof.
  intros Hl. unfold psci_validate_suspend_req, psci_find_target_suspend_lvl, psci_find_max_off_lvl.
  destruct (find_lvl_ok (fun s => negb (is_local_state_run s)) st L ltac:(lia)) as (t & -> & Ht).
  cbn [mbind option_bind]. unfold is_local_state_run, PSCI_LOCAL_STATE_RUN in Ht.
  destruct Ht as [(Ht & Hp & Habove)|(-> & Hall)].
  2: { rewrite bool_decide_true by done. eexists. split; [done|]. split; [by right|].
       split; [done|]. intros [(l & Hle & Hne) _]. specialize (Hall l Hle). destruct (Z.eqb_spec (lv st l) 0); done. }
  rewrite bool_decide_false by (unfold PSCI_INVALID_PWR_LVL; lia).
  assert (lv st t <> 0) as Hne by (by destruct (Z.eqb_spec (lv st t) 0)).
  assert (forall j, (t < j <= L)%nat -> lv st j = 0) as Hrun.
  { intros j Hj. specialize (Habove j Hj). by destruct (Z.eqb_spec (lv st j) 0). }
  assert (deeper st L <-> deeper st t) as Hdeep.
  { split; intros D j Hj; [apply D; lia|]. destruct (decide (j < t)%nat); [by apply D|].
    rewrite (Hrun (S j)) by lia. apply type_nonneg. }
  destruct (deepest_ok t st 0 ltac:(lia)) as (o & -> & Ho). cbn [mbind option_bind]. pose proof (type_nonneg (lv st t)).
  destruct (find_lvl_ok is_local_state_off st L ltac:(lia)) as (m & -> & Hm).
  destruct o as [x|]; cycle 1.
  { eexists. split; [done|]. split; [by right|]. split; [done|]. intros (_ & D & _).
    destruct Ho as [_ Ho]. destruct Ho as [? ?]; [split; [lia|by apply Hdeep]|done]. }
  cbn [mbind option_bind]. destruct Ho as [Ho _]. specialize (Ho ltac:(by eexists)) as [_ Hd].
  eexists. split; [done|]. split; [case_match; [by right|by left]|].
  destruct (Z.eqb_spec pd 0) as [Hpd|Hpd]; cbn [andb]; cycle 1.
  { split; [|done]. intros _. split; [eauto|]. split; [by apply Hdeep|done]. }
  destruct Hm as [(Hm & Hmo & _)|(-> & Hmo)].
  - rewrite bool_decide_true by (unfold PSCI_INVALID_PWR_LVL; lia). cbn [orb]. split; [done|].
    intros (_ & _ & Hoff). rewrite Hoff in Hmo by done. done.
  - rewrite (bool_decide_false (PSCI_INVALID_PWR_LVL <> PSCI_INVALID_PWR_LVL)) by tauto. cbn [orb].
    rewrite (bool_decide_true (t <> _)) by (unfold PSCI_INVALID_PWR_LVL; lia).
    rewrite bool_decide_false by (unfold PSCI_INVALID_PWR_LVL; lia).
    split; [|done]. intros _. split; [eauto|]. split; [by apply Hdeep|]. intros _ l Hle. by apply Hmo.
Qed.

Lemma request_mono e st pd : request_ok e st pd -> mono_core (lv st).
Proof.
  intros ([Hl Hb] & _ & _ & Hv & _) l Hle E.
  destruct (validate_suspend_req_ok st pd Hl) as (r & Hr & _ & Hs). rewrite Hv in Hr. simplify_eq.
  destruct (proj1 Hs eq_refl) as (_ & D & _). specialize (D l ltac:(lia)).
  pose proof (type_nonneg (lv st (S l))). apply type_run in E. apply type_run. lia.
Qed.
Lemma request_above_run e st pd l : request_ok e st pd -> (e < l)%nat -> lv st l = 0.
Proof.
  intros ([Hl Hb] & Ht & He & _) Hel. destruct (decide (l <= L)%nat); cycle 1.
  { unfold lv. by rewrite lookup_ge_None_2 by lia. }
  destruct (find_lvl_ok (fun s => negb (is_local_state_run s)) st L ltac:(lia)) as (t & Ht' & Hc).
  unfold psci_find_target_suspend_lvl in Ht. rewrite Ht in Ht'. simplify_eq.
  destruct Hc as [(_ & _ & Hj)|(-> & _)]; [|unfold PSCI_INVALID_PWR_LVL in He; lia].
  specialize (Hj l ltac:(lia)). unfold is_local_state_run, PSCI_LOCAL_STATE_RUN in Hj.
  by destruct (Z.eqb_spec (lv st l) 0).
Qed.

Lemma off_deeper st : deeper st L -> state_ok st -> is_local_state_off (lv st L) = true -> is_local_state_off (lv st 0) = true.
Proof.
  intros D [_ Hb] Ho. pose proof (deeper_le st L 0 D ltac:(lia)) as Hle. specialize (Hb 0%nat ltac:(lia)).
  unfold is_local_state_off in *. apply andb_true_iff in Ho as [Ho _]. apply andb_true_iff.
  split; [|lia]. unfold find_local_state_type in Hle. rewrite Ho in Hle. revert Hle.
  destruct (Z.eqb_spec (lv st L) 0); cbn [negb]; repeat case_match; lia.
Qed.
(** ** Operations under the locks *)
Definition is_lock (e : event) : bool := match e with LockGet _ _ | LockRelease _ _ => true | _ => false end.
Definition no_locks (l : list event) : Prop := Forall (fun e => is_lock e = false) l.
(** The locks of core [c] up to level [e] are taken first and given back last, in reverse. *)
Definition bracketed (s s' : psci) (c e : nat) : Prop :=
  exists mid, no_locks mid /\ log s' = log s ++ lock_gets (tree s) c e ++ mid ++ lock_releases (tree s) c e.

Lemma bracket_intro s s1 s2 c e mid : no_locks mid -> tree s2 = tree s ->
  log s1 = log s ++ lock_gets (tree s) c e -> log s2 = log s1 ++ mid ->
  bracketed s (with_log s2 (log s2 ++ lock_releases (tree s2) c e)) c e.
Proof. intros Hm T E1 E2. exists mid. split; [done|]. cbn. by rewrite T, E2, E1, <- !app_assoc. Qed.

Context `{!PlatLaws}.

Lemma off_state_ok : state_ok psci_set_power_off_state /\ mono_core (lv psci_set_power_off_state) /\
  forall l, (l <= L)%nat -> lv psci_set_power_off_state l = PLAT_MAX_OFF_STATE.
Proof.
  pose proof law_states. assert (forall l, (l <= L)%nat -> lv psci_set_power_off_state l = PLAT_MAX_OFF_STATE) as E.
  { intros l Hl. unfold lv, psci_set_power_off_state. by rewrite lookup_replicate_2 by lia. }
  split; [split; [apply length_replicate|intros l Hl; rewrite E by lia; lia]|].
  split; [intros l Hl; rewrite E by lia; lia|done].
Qed.
Lemma max_off_is_off : is_local_state_off PLAT_MAX_OFF_STATE = true.
Proof. pose proof law_states. unfold is_local_state_off. apply andb_true_iff. lia. Qed.

(** A core that is up has no request pending. *)
Lemma up_requests s ph c l : Inv s ph -> ph c = Up -> (c < N)%nat -> (1 <= l <= L)%nat -> rq s l c = 0.
Proof. intros I Hp Hc Hl. pose proof (inv_core _ _ I c Hc) as K. rewrite Hp in K. by apply K. Qed.
Lemma up_data s ph c : Inv s ph -> ph c = Up -> (c < N)%nat -> dt s c = CpuData AFF_STATE_ON PSCI_INVALID_PWR_LVL 0.
Proof. intros I Hp Hc. pose proof (inv_core _ _ I c Hc) as K. rewrite Hp in K. apply K. Qed.

(** Coordination of a core that is up leaves it in phase [p], if its data fit [p]. *)
Lemma wp_coordination_inv c e st p ph (Q : _ -> psci -> Prop) s :
  Inv s ph -> ph c = Up -> (c < N)%nat -> (e <= L)%nat -> state_ok st -> mono_core (lv st) ->
  core_ok p (CpuData AFF_STATE_ON PSCI_INVALID_PWR_LVL (lv st 0))
    (fun l => if bool_decide (1 <= l < S e)%nat then lv st l else 0) ->
  (forall st' s', tree s' = tree s -> log s' = log s -> length st' = S L -> lv st' 0 = lv st 0 ->
     (forall j, (e < j)%nat -> lv st' j = lv st j) ->
     (forall j, (1 <= j <= e)%nat -> lv st' j = dm s' (anc (tree s') c j)) ->
     dt s' c = CpuData AFF_STATE_ON PSCI_INVALID_PWR_LVL (lv st 0) ->
     Inv s' (<[c := p]> ph) -> Q st' s') ->
  wp (psci_do_state_coordination c e st) Q s.
Proof.
  intros I Hp Hc He Hst Hm Hk HQ. pose proof I as [W B M C K].
  apply wp_coordination; try done.
  { intros l Hl. eapply up_requests; [done|done|done|lia]. }
  intros st' s' T P G Hl Hj Hs R D M' B' Hd. apply HQ; try done.
  - apply Hj. lia.
  - intros j Hlt. apply Hj. lia.
  - intros j Hlt. rewrite T. symmetry. apply D. lia.
  - rewrite Hd, bool_decide_true by done. by rewrite (up_data s ph c).
  - eapply Inv_upd; try done.
    + intros c' Hne. rewrite Hd, bool_decide_false, fn_lookup_insert_ne by done. done.
    + rewrite Hd, bool_decide_true, fn_lookup_insert by done.
      rewrite (up_data s ph c) by done. eapply core_ok_ext; [|exact Hk].
      intros l Hl'. cbn beta. rewrite R. destruct (decide (1 <= l < S e)%nat).
      * by rewrite !bool_decide_true by tauto.
      * rewrite !bool_decide_false by tauto. symmetry. by eapply up_requests.
Qed.

Lemma cpu_off_locked_ok c ph s : Inv s ph -> ph c = Up -> (c < N)%nat ->
  wp (cpu_off_locked c L) (fun rc s' => bracketed s s' c L /\ tree s' = tree s /\
    (rc = PSCI_E_SUCCESS /\ Inv s' (<[c := GoingOff]> ph) \/ rc = PSCI_E_DENIED /\ Inv s' ph)) s.
Proof.
  intros I Hp Hc. pose proof (inv_wf _ _ I) as W. unfold cpu_off_locked. wp_step.
  apply wp_acquire_locks; [done|done|done|]. set (s1 := with_log _ _).
  assert (Inv s1 ph) as I1 by apply (Inv_log _ _ _ I).
  wp_step. apply wp_mono with (P := fun rc s2 => exists ev, no_locks ev /\ s2 = with_log s1 (log s1 ++ ev) /\
    (rc = PSCI_E_SUCCESS \/ rc = PSCI_E_DENIED)).
  { assert (s1 = with_log s1 (log s1 ++ [])) as Hnil by (rewrite app_nil_r; by destruct s1).
    pose proof law_svc_off as LS. destruct psci_spd_pm as [o|]; [|exists []; split; [constructor|tauto]].
    destruct (svc_off o) as [f|] eqn:Ef; [|exists []; split; [constructor|tauto]].
    do 2 wp_step. wp_step. apply wp_emit. wp_step. exists [SvcOff]. split; [by repeat constructor|].
    split; [done|]. by eapply LS. }
  intros rc s2 (ev & Hev & -> & Hrc). set (s2 := with_log _ _).
  assert (Inv s2 ph) as I2 by apply (Inv_log _ _ _ I1). wp_step.
  destruct (Z.eqb_spec rc 0) as [->|Hne]; cbn [negb].
  - destruct off_state_ok as (O1 & O2 & O3).
    wp_step. apply (wp_coordination_inv c L _ GoingOff ph); try done.
    { cbn. split; [done|]. intros l Hl2. rewrite bool_decide_true by lia. apply off_state_ok. lia. }
    intros st' s3 T G Hl Hst0 _ Hd _ I3. apply wp_emit. wp_step.
    apply wp_release_locks; [apply (inv_wf _ _ I3)|done|done|]. wp_step.
    split; [|split; [exact T|left; split; [done|]; by apply Inv_log, Inv_log]].
    apply (bracket_intro s s1 (with_log s3 _) c L (ev ++ [PwrDomainOff c st'])).
    + apply Forall_app. split; [done|by repeat constructor].
    + done.
    + done.
    + cbn. rewrite G. unfold s2. cbn. by rewrite <- app_assoc.
  - wp_step. wp_step. apply wp_release_locks; [done|done|done|]. wp_step.
    split; [by apply (bracket_intro s s1 s2 c L ev)|]. split; [done|]. right.
    split; [by destruct Hrc as [->|]|]. by apply Inv_log.
Qed.
(** A core in phase [p] moves to [p'] when only its data change. *)
Lemma wp_set_data_inv c d p ph (Q : _ -> psci -> Prop) s : Inv s ph -> (c < N)%nat ->
  core_ok p d (fun l => rq s l c) ->
  (forall s', tree s' = tree s -> log s' = log s -> (forall l c', rq s' l c' = rq s l c') -> dt s' c = d ->
     Inv s' (<[c := p]> ph) -> Q tt s') ->
  wp (set_data c d) Q s.
Proof.
  intros I Hc Hk HQ. apply wp_set_data; [apply (inv_wf _ _ I)|done|].
  intros s' T N' C' R' G' D'. apply HQ; try done.
  - by apply rq_same.
  - by rewrite D', bool_decide_true.
  - eapply Inv_data; try done.
    + intros c' Hne. rewrite D', bool_decide_false, fn_lookup_insert_ne by done. done.
    + rewrite D', bool_decide_true, fn_lookup_insert by done. eapply core_ok_ext; [|done].
      intros; by rewrite (rq_same s s').
Qed.

Lemma wp_emit_inv e ph (Q : _ -> psci -> Prop) s : Inv s ph ->
  (forall s', tree s' = tree s -> log s' = log s ++ [e] -> (forall l c, rq s' l c = rq s l c) -> (forall c, dt s' c = dt s c) ->
     (forall i, dm s' i = dm s i) -> Inv s' ph -> Q tt s') ->
  wp (emit e) Q s.
Proof. intros I HQ. apply wp_emit, HQ; try done. by apply Inv_log. Qed.

Lemma cpu_off_commit_ok c ph s : Inv s ph -> ph c = GoingOff -> (c < N)%nat ->
  wp (cpu_off_commit c) (fun _ s' => tree s' = tree s /\ log s' = log s ++ [PowerDownWfi c] /\ Inv s' (<[c := Off]> ph)) s.
Proof.
  intros I Hp Hc. pose proof (inv_core _ _ I c Hc) as K. rewrite Hp in K. destruct K as [K Kf].
  unfold cpu_off_commit, psci_set_aff_info_state. do 2 wp_step.
  apply wp_get_data; [apply (inv_wf _ _ I)|done|]. rewrite K. cbn [target_pwrlvl cpu_local_state].
  eapply (wp_set_data_inv c _ Off); [done|done|done|]. intros s' T G _ _ I'.
  eapply wp_emit_inv; [done|]. intros s'' T' G' _ _ _ I''. split; [congruence|]. split; [congruence|done].
Qed.

Lemma no_locks_app l k : no_locks l -> no_locks k -> no_locks (l ++ k).
Proof. intros. by apply Forall_app. Qed.

(** The tail of a region: something logged, then the locks given back. *)
Lemma wp_release_inv s s1 c e mid ph (Q : _ -> psci -> Prop) s2 :
  Inv s2 ph -> (c < N)%nat -> (e <= L)%nat -> no_locks mid -> tree s2 = tree s ->
  log s1 = log s ++ lock_gets (tree s) c e -> log s2 = log s1 ++ mid ->
  (forall s', bracketed s s' c e -> tree s' = tree s -> Inv s' ph -> Q tt s') ->
  wp (psci_release_pwr_domain_locks e c) Q s2.
Proof.
  intros I Hc He Hm T E1 E2 HQ. apply wp_release_locks; [apply (inv_wf _ _ I)|done|done|].
  apply HQ; [by eapply bracket_intro|done|by apply Inv_log].
Qed.

Lemma find_max_off_ok st : length st = S L -> exists k, psci_find_max_off_lvl st = Some k.
Proof. intros Hl. destruct (find_lvl_ok is_local_state_off st L ltac:(lia)) as (k & E & _). by exists k. Qed.

Lemma pwrdown_start_ok c e ep st ph s : Inv s ph -> ph c = Standby e -> (c < N)%nat -> length st = S L ->
  is_local_state_off (cpu_local_state (dt s c)) = true ->
  wp (psci_suspend_to_pwrdown_start c e ep st) (fun _ s' => tree s' = tree s /\
    (exists ev, no_locks ev /\ log s' = log s ++ ev) /\ Inv s' (<[c := Down e]> ph)) s.
Proof.
  intros I Hp Hc Hl Ho. unfold psci_suspend_to_pwrdown_start.
  destruct (find_max_off_ok st Hl) as [k Ek]. wp_step. eapply wp_must; [done|].
  wp_step. unfold psci_set_suspend_pwrlvl. wp_step. apply wp_get_data; [apply (inv_wf _ _ I)|done|].
  pose proof (inv_core _ _ I c Hc) as K. rewrite Hp in K. destruct K as (He & (x & Ex) & Hz).
  rewrite Ex in Ho |- *. cbn [aff_info_state cpu_local_state] in *.
  eapply (wp_set_data_inv c _ (Down e)); [done|done|cbn; eauto|].
  intros s1 T1 G1 _ _ I1. wp_step. destruct (has_svc svc_suspend).
  - eapply wp_emit_inv; [done|]. intros s2 T2 G2 _ _ _ I2. eapply wp_emit_inv; [done|].
    intros s3 T3 G3 _ _ _ I3. split; [congruence|]. split; [|done]. eexists. split; [|by rewrite G3, G2, G1, <- app_assoc].
    by repeat constructor.
  - wp_step. eapply wp_emit_inv; [done|]. intros s3 T3 G3 _ _ _ I3. split; [congruence|]. split; [|done].
    eexists. split; [|by rewrite G3, G1]. by repeat constructor.
Qed.

Lemma suspend_locked_ok c e ep st pd ph s : Inv s ph -> ph c = Up -> (c < N)%nat -> request_ok e st pd ->
  wp (suspend_locked c e ep st pd) (fun skip s' => bracketed s s' c e /\ tree s' = tree s /\
    Inv s' (if skip : bool then ph else <[c := if pd =? 0 then Standby e else Down e]> ph)) s.
Proof.
  intros I Hp Hc Hreq. pose proof Hreq as (Hst & _ & He & _ & Hoff). unfold suspend_locked. wp_step.
  apply wp_acquire_locks; [apply (inv_wf _ _ I)|done|done|]. set (s1 := with_log _ _).
  assert (Inv s1 ph) as I1 by apply (Inv_log _ _ _ I). do 2 wp_step. wp_step.
  destruct (negb (read_isr_el1 (log s1) =? 0)).
  { wp_step. wp_step. eapply (wp_release_inv s s1 c e []); [done|done|done|by constructor|done|done|by rewrite app_nil_r|].
    intros s' Hb T' I'. wp_step. done. }
  wp_step. apply (wp_coordination_inv c e st (Standby e) ph); try done.
  { by eapply request_mono. }
  { cbn. split; [done|]. split; [eauto|]. intros l Hl. rewrite bool_decide_false by lia. done. }
  intros st' s2 T2 G2 Hl2 H02 _ _ D2 I2. wp_step.
  apply wp_mono with (P := fun _ s3 => tree s3 = tree s2 /\ (exists ev, no_locks ev /\ log s3 = log s2 ++ ev) /\
    Inv s3 (<[c := if pd =? 0 then Standby e else Down e]> ph)).
  { destruct (Z.eqb_spec pd 0) as [->|Hpd]; cbn [negb].
    - wp_step. split; [done|]. split; [|done]. exists []. split; [by constructor|by rewrite app_nil_r].
    - eapply wp_mono; [eapply (pwrdown_start_ok c e ep st'); [done|by rewrite fn_lookup_insert|done|done|]|].
      + rewrite D2. by apply Hoff.
      + intros [] s3 (T3 & E3 & I3). split; [done|]. split; [done|]. by eapply Inv_twice. }
  intros [] s3 (T3 & (ev & Hev & G3) & I3). wp_step. eapply wp_emit_inv; [done|].
  intros s4 T4 G4 _ _ _ I4. wp_step. wp_step.
  eapply (wp_release_inv s s1 c e (ev ++ [PwrDomainSuspend c st'])); [done|done|done| | |done| |].
  - apply no_locks_app; [done|by repeat constructor].
  - rewrite T4, T3, T2. done.
  - rewrite G4, G3, G2. by rewrite <- app_assoc.
  - intros s' Hb T' I'. wp_step. done.
Qed.
(** ** Waking up *)
Lemma wp_to_run_inv c e ph (Q : _ -> psci -> Prop) s : Inv s ph -> (c < N)%nat -> (e <= L)%nat ->
  target_pwrlvl (dt s c) = PSCI_INVALID_PWR_LVL -> (forall l, (e < l <= L)%nat -> rq s l c = 0) ->
  (forall s', tree s' = tree s -> log s' = log s -> Inv s' (<[c := Up]> ph) -> Q tt s') ->
  wp (psci_set_pwr_domains_to_run c e) Q s.
Proof.
  intros I Hc He Ht Hz HQ. pose proof law_states. apply wp_to_run; [apply (inv_wf _ _ I)|done|done|].
  intros s' T C G R D Hd. apply HQ; [done|done|].
  assert (bounded s') as B' by (eapply bounded_reqs; [apply (inv_bounded _ _ I)|exact R|intros; lia]).
  assert (forall l, (1 <= l <= L)%nat -> rq s' l c = 0) as H0'.
  { intros l Hl. rewrite R. case_bool_decide; [done|]. apply Hz. lia. }
  eapply Inv_upd; try done.
  - intros j Hj. apply shallowest_run; [done|done|lia|]. apply H0'. lia.
  - eapply mono_reqs; [apply (inv_mono _ _ I)|exact R| |done]. by intros l _ _.
  - intros c' Hne. rewrite Hd, bool_decide_false, fn_lookup_insert_ne by done. done.
  - rewrite fn_lookup_insert, Hd, bool_decide_true by done. cbn. rewrite Ht. done.
Qed.

Lemma standby_finisher_ok c e ph s : Inv s ph -> ph c = Standby e -> (c < N)%nat ->
  wp (psci_suspend_to_standby_finisher c e) (fun _ s' => bracketed s s' c e /\ tree s' = tree s /\
    Inv s' (<[c := Up]> ph)) s.
Proof.
  intros I Hp Hc. pose proof (inv_core _ _ I c Hc) as K. rewrite Hp in K. destruct K as (He & (x & Ex) & Hz).
  unfold psci_suspend_to_standby_finisher. wp_step.
  apply wp_acquire_locks; [apply (inv_wf _ _ I)|done|done|]. set (s1 := with_log _ _).
  assert (Inv s1 ph) as I1 by apply (Inv_log _ _ _ I). wp_step.
  apply wp_get_target; [apply (inv_wf _ _ I1)|done|done|]. intros st _ _ _ _. wp_step.
  eapply wp_emit_inv; [done|]. intros s2 T2 G2 R2 D2 _ I2. wp_step.
  eapply wp_to_run_inv; [done|done|done| | |].
  - rewrite D2. change (dt s1 c) with (dt s c). by rewrite Ex.
  - intros l Hl. rewrite R2. by apply Hz.
  - intros s3 T3 G3 I3. eapply (wp_release_inv s s1 c e [PwrDomainSuspendFinish c st]); try done.
    + by repeat constructor.
    + rewrite T3, T2. done.
    + by rewrite G3, G2.
Qed.

Lemma wp_set_mpidr c m ph (Q : _ -> psci -> Prop) s : Inv s ph -> (c < N)%nat ->
  (forall s', tree s' = tree s -> log s' = log s -> (forall l c, rq s' l c = rq s l c) -> (forall c, dt s' c = dt s c) ->
     Inv s' ph -> Q tt s') ->
  wp (cn ← cpu_node c; set_cpu_node c (CpuNode m (cpu_parent_node cn))) Q s.
Proof.
  intros I Hc HQ. wp_step. apply wp_cpu_node; [apply (inv_wf _ _ I)|done|]. intros n E _.
  unfold set_cpu_node. do 2 wp_step. wp_step. apply wp_assert; [by rewrite E; apply bool_decide_eq_true|]. wp_step.
  set (s' := Psci_ _ _ _ _ _).
  assert (tree s' = tree s) as T.
  { unfold tree, s'. cbn. f_equal. rewrite list_fmap_insert. apply list_insert_id. by rewrite list_lookup_fmap, E. }
  apply HQ; try done. destruct I as [W B M C K].
  constructor; [by rewrite T|done|done| |done].
  intros c' l Hc' Hl. rewrite T. eapply shallowest_same; [exact T|done|by apply C].
Qed.

(** A read of a core's affinity state. *)
Lemma wp_get_aff c ph (Q : _ -> psci -> Prop) s : Inv s ph -> (c < N)%nat ->
  Q (aff_info_state (dt s c)) s -> wp (psci_get_aff_info_state c) Q s.
Proof. intros I Hc HQ. unfold psci_get_aff_info_state. wp_step. by apply wp_get_data; [apply (inv_wf _ _ I)|..]. Qed.

Lemma cpu_on_finish_ok c st ph s : Inv s ph -> ph c = Pending -> (c < N)%nat ->
  wp (psci_cpu_on_finish c st) (fun _ s' => tree s' = tree s /\ dt s' c = dt s c /\
    (exists ev, no_locks ev /\ log s' = log s ++ ev) /\ Inv s' ph) s.
Proof.
  intros I Hp Hc. pose proof (inv_core _ _ I c Hc) as K. rewrite Hp in K. destruct K as [K Kf]. unfold psci_cpu_on_finish.
  wp_step. eapply wp_emit_inv; [done|]. intros s1 T1 G1 _ D1 _ I1.
  wp_step. eapply wp_emit_inv; [done|]. intros s2 T2 G2 _ D2 _ I2.
  wp_step. eapply wp_emit_inv; [done|]. intros s3 T3 G3 _ D3 _ I3.
  assert (dt s3 c = dt s c) as E3 by congruence.
  wp_step. eapply wp_get_aff; [done|done|]. rewrite E3, K. wp_step. apply wp_assert; [by apply bool_decide_eq_true|].
  assert (log s3 = log s ++ [PwrDomainOnFinish c st; SpinLock c; SpinUnlock c]) as G13.
  { by rewrite G3, G2, G1, <- !app_assoc. }
  wp_step. apply wp_mono with (P := fun _ s4 => tree s4 = tree s /\ dt s4 c = dt s c /\
    (exists ev, no_locks ev /\ log s4 = log s ++ ev) /\ Inv s4 ph).
  { destruct (has_svc svc_on_finish).
    - eapply wp_emit_inv; [done|]. intros s4 T4 G4 _ D4 _ I4. split; [congruence|]. split; [congruence|]. split; [|done].
      eexists. split; [|by rewrite G4, G13, <- app_assoc]. by repeat constructor.
    - wp_step. split; [congruence|]. split; [congruence|]. split; [|done]. eexists. split; [|done]. by repeat constructor. }
  intros [] s4 (T4 & D4 & (ev & Hev & G4) & I4).
  pose proof (wp_set_mpidr c (Z.land (read_mpidr c) MPIDR_AFFINITY_MASK) ph) as Hm.
  set (Q := fun (_ : unit) (s' : psci) => _).
  assert (wp ((cn ← cpu_node c; set_cpu_node c (CpuNode (Z.land (read_mpidr c) MPIDR_AFFINITY_MASK) (cpu_parent_node cn))) ;;
     emit (PrepareExit c)) Q s4) as Hw.
  { wp_step. apply Hm; [done|done|]. intros s5 T5 G5 _ D5 I5.
    eapply wp_emit_inv; [done|]. intros s6 T6 G6 _ D6 _ I6. split; [congruence|]. split; [congruence|]. split; [|done].
    exists (ev ++ [PrepareExit c]). split; [apply no_locks_app; [done|by repeat constructor]|].
    by rewrite G6, G5, G4, <- app_assoc. }
  unfold wp in *. by rewrite bind_assoc in Hw.
Qed.
Lemma max_off_valid st : length st = S L -> is_local_state_off (lv st 0) = true ->
  exists k, psci_find_max_off_lvl st = Some k /\ k <> PSCI_INVALID_PWR_LVL.
Proof.
  intros Hl Ho. destruct (find_lvl_ok is_local_state_off st L ltac:(lia)) as (k & E & Hk). exists k. split; [done|].
  destruct Hk as [(Hk & _)|(_ & Hall)]; [unfold PSCI_INVALID_PWR_LVL; lia|]. by rewrite Hall in Ho by lia.
Qed.

Lemma suspend_finish_ok c e st ph s : Inv s ph -> ph c = Down e -> (c < N)%nat -> length st = S L ->
  lv st 0 = cpu_local_state (dt s c) ->
  wp (psci_cpu_suspend_finish c st) (fun _ s' => tree s' = tree s /\
    (exists ev, no_locks ev /\ log s' = log s ++ ev) /\ Inv s' (<[c := Standby e]> ph)) s.
Proof.
  intros I Hp Hc Hl H0'. pose proof (inv_core _ _ I c Hc) as K. rewrite Hp in K. destruct K as (He & (x & Ex & Hx) & Hz).
  rewrite Ex in H0'. cbn in H0'. unfold psci_cpu_suspend_finish. wp_step. eapply wp_get_aff; [done|done|].
  rewrite Ex. wp_step. eapply wp_must; [apply lv_some; unfold PSCI_CPU_PWR_LVL; lia|]. wp_step.
  apply wp_assert; [unfold PSCI_CPU_PWR_LVL; rewrite H0', Hx; by rewrite bool_decide_true|].
  wp_step. eapply wp_emit_inv; [done|]. intros s1 T1 G1 R1 D1 _ I1. wp_step.
  apply wp_mono with (P := fun _ s2 => tree s2 = tree s /\ dt s2 c = dt s c /\ (forall l, rq s2 l c = rq s l c) /\
    (exists ev, no_locks ev /\ log s2 = log s ++ ev) /\ Inv s2 ph).
  { destruct (has_svc svc_suspend).
    - destruct (max_off_valid st Hl ltac:(by rewrite H0')) as (k & Ek & Hk).
      wp_step. eapply wp_must; [done|]. wp_step. apply wp_assert; [by apply bool_decide_eq_true|].
      eapply wp_emit_inv; [done|]. intros s2 T2 G2 R2 D2 _ I2. split; [congruence|]. split; [congruence|].
      split; [intros; by rewrite R2|]. split; [|done]. eexists. split; [|by rewrite G2, G1, <- app_assoc]. by repeat constructor.
    - wp_step. split; [congruence|]. split; [congruence|]. split; [done|]. split; [|done].
      eexists. split; [|done]. by repeat constructor. }
  intros [] s2 (T2 & D2 & R2 & (ev & Hev & G2) & I2). wp_step. unfold psci_set_suspend_pwrlvl. wp_step.
  apply wp_get_data; [apply (inv_wf _ _ I2)|done|]. rewrite D2, Ex. cbn [aff_info_state cpu_local_state].
  eapply (wp_set_data_inv c _ (Standby e)); [done|done| |].
  { cbn. split; [done|]. split; [eauto|]. intros. rewrite R2. by apply Hz. }
  intros s3 T3 G3 _ _ I3. eapply wp_emit_inv; [done|]. intros s4 T4 G4 _ _ _ I4.
  split; [congruence|]. split; [|done]. exists (ev ++ [PrepareExit c]).
  split; [apply no_locks_app; [done|by repeat constructor]|]. by rewrite G4, G3, G2, <- app_assoc.
Qed.

Definition woken (p : phase) : option nat := match p with Pending => Some L | Down e => Some e | _ => None end.

Lemma warmboot_ok c e ph s : Inv s ph -> woken (ph c) = Some e -> (c < N)%nat ->
  wp (psci_warmboot_entrypoint c) (fun _ s' => bracketed s s' c e /\ tree s' = tree s /\ Inv s' (<[c := Up]> ph)) s.
Proof.
  intros I Hp Hc. pose proof (inv_core _ _ I c Hc) as K. pose proof (inv_wf _ _ I) as W.
  assert (e <= L)%nat as He by (destruct (ph c); simplify_eq/=; [done|apply K]).
  assert (aff_info_state (dt s c) <> AFF_STATE_OFF) as Ha.
  { destruct (ph c); simplify_eq/=; [by rewrite (proj1 K)|]. destruct K as (_ & (x & -> & _) & _). done. }
  assert ((if bool_decide (target_pwrlvl (dt s c) = PSCI_INVALID_PWR_LVL) then L else target_pwrlvl (dt s c)) = e) as Ee.
  { destruct (ph c); simplify_eq/=; [rewrite (proj1 K); by rewrite bool_decide_true|].
    destruct K as (_ & (x & -> & _) & _). cbn. rewrite bool_decide_false; [done|]. unfold PSCI_INVALID_PWR_LVL. lia. }
  unfold psci_warmboot_entrypoint. wp_step. eapply wp_get_aff; [done|done|]. wp_step.
  apply wp_assert; [by apply bool_decide_eq_true|]. wp_step. unfold get_power_on_target_pwrlvl. wp_step.
  apply wp_get_data; [done|done|]. wp_step. rewrite Ee. clear Ee. wp_step.
  apply wp_acquire_locks; [done|done|done|]. set (s1 := with_log _ _).
  assert (Inv s1 ph) as I1 by apply (Inv_log _ _ _ I). wp_step.
  apply wp_get_target; [apply (inv_wf _ _ I1)|done|done|]. intros st Hl H0' _ _.
  wp_step. eapply wp_get_aff; [done|done|]. change (dt s1 c) with (dt s c) in *. wp_step.
  apply wp_mono with (P := fun _ s2 => tree s2 = tree s1 /\ (exists ev, no_locks ev /\ log s2 = log s1 ++ ev) /\
    target_pwrlvl (dt s2 c) = PSCI_INVALID_PWR_LVL /\ (forall l, (e < l <= L)%nat -> rq s2 l c = 0) /\
    exists p, Inv s2 (<[c := p]> ph)).
  { destruct (ph c) eqn:Ep; simplify_eq/=.
    - destruct K as [K Kf]. rewrite K. rewrite bool_decide_true by done.
      eapply wp_mono; [eapply cpu_on_finish_ok; done|]. intros [] s2 (T2 & D2 & E2 & I2).
      split; [done|]. split; [exact E2|]. split; [rewrite D2; change (dt s1 c) with (dt s c); by rewrite K|]. split; [lia|].
      exists Pending. eapply Inv_ph; [|done]. intros x. destruct (decide (x = c)) as [->|].
      + by rewrite fn_lookup_insert.
      + by rewrite fn_lookup_insert_ne.
    - pose proof K as (_ & (x & Ex & _) & _). rewrite Ex. rewrite bool_decide_false by done.
      eapply wp_mono; [eapply (suspend_finish_ok c e); done|]. intros [] s2 (T2 & E2 & I2).
      pose proof (inv_core _ _ I2 c Hc) as K2. rewrite fn_lookup_insert in K2. destruct K2 as (_ & (y & Ey) & Hz).
      split; [done|]. split; [done|]. split; [by rewrite Ey|]. split; [exact Hz|]. by eexists. }
  intros [] s2 (T2 & (ev & Hev & G2) & Ht & Hz & (p & I2)). wp_step.
  eapply wp_to_run_inv; [done|done|done|done|done|]. intros s3 T3 G3 I3. apply Inv_twice in I3.
  eapply (wp_release_inv s s1 c e ev); try done; [by rewrite T3, T2|congruence].
Qed.

(** ** Turning a core on *)
Definition phase_aff (p : phase) : aff_info_state_t :=
  match p with Off => AFF_STATE_OFF | Pending => AFF_STATE_ON_PENDING | _ => AFF_STATE_ON end.
Lemma phase_aff_ok s ph c : Inv s ph -> (c < N)%nat -> aff_info_state (dt s c) = phase_aff (ph c).
Proof.
  intros I Hc. pose proof (inv_core _ _ I c Hc) as K. destruct (ph c); cbn in *.
  1-4: by destruct K as [-> _].
  - by destruct K as (_ & (x & -> & _) & _).
  - by destruct K as (_ & (x & ->) & _).
Qed.

(** The result of CPU_ON and the phase of the target, from the answer of the platform. *)
Definition cpu_on_result (p : phase) (answer : Z) : Z * phase :=
  match p with
  | Off => (answer, if answer =? PSCI_E_SUCCESS then Pending else Off)
  | Pending => (PSCI_E_ON_PENDING, Pending)
  | p => (PSCI_E_ALREADY_ON, p)
  end.

Lemma cpu_on_start_ok t ep ph s : Inv s ph -> 0 <= plat_core_pos_by_mpidr t ->
  wp (psci_cpu_on_start t ep) (fun rc s' => exists answer,
    let c := Z.to_nat (plat_core_pos_by_mpidr t) in
    (answer = PSCI_E_SUCCESS \/ answer = PSCI_E_INTERN_FAIL) /\
    tree s' = tree s /\ (exists ev, no_locks ev /\ log s' = log s ++ ev) /\
    rc = (cpu_on_result (ph c) answer).1 /\ Inv s' (<[c := (cpu_on_result (ph c) answer).2]> ph)) s.
Proof.
  intros I Ht. pose proof (law_core_pos t). unfold psci_cpu_on_start. wp_step. apply wp_assert; [lia|].
  set (c := Z.to_nat _). assert (c < N)%nat as Hc by lia. cbn zeta.
  wp_step. eapply wp_emit_inv; [done|]. intros s1 T1 G1 _ D1 _ I1. wp_step. eapply wp_get_aff; [done|done|].
  rewrite (phase_aff_ok _ _ _ I1 Hc).
  assert (forall rc p, rc = PSCI_E_ALREADY_ON \/ rc = PSCI_E_ON_PENDING -> ph c = p -> cpu_on_result p 0 = (rc, p) ->
    wp (emit (SpinUnlock c);; mret rc) (fun rc s' => exists answer,
    (answer = PSCI_E_SUCCESS \/ answer = PSCI_E_INTERN_FAIL) /\
    tree s' = tree s /\ (exists ev, no_locks ev /\ log s' = log s ++ ev) /\
    rc = (cpu_on_result (ph c) answer).1 /\ Inv s' (<[c := (cpu_on_result (ph c) answer).2]> ph)) s1) as Hout.
  { intros rc p Hrc Ep Er. wp_step. eapply wp_emit_inv; [done|]. intros s2 T2 G2 _ _ _ I2. wp_step.
    exists 0. split; [by left|]. split; [congruence|].
    split; [eexists; split; [|by rewrite G2, G1, <- app_assoc]; by repeat constructor|].
    rewrite Ep, Er. split; [done|]. cbn. eapply Inv_ph; [|done]. intros x.
    destruct (decide (x = c)) as [->|]; [by rewrite fn_lookup_insert|by rewrite fn_lookup_insert_ne]. }
  revert Hout. destruct (ph c) eqn:Ep; intros Hout; cbn [phase_aff cpu_on_validate_state];
    try (wp_step; change (negb (PSCI_E_ALREADY_ON =? PSCI_E_SUCCESS)) with true;
      change (negb (PSCI_E_ON_PENDING =? PSCI_E_SUCCESS)) with true; cbn iota; wp_step;
      eapply Hout; [tauto|reflexivity|reflexivity]).
  clear Hout. pose proof (inv_core _ _ I1 c Hc) as K. rewrite Ep in K. destruct K as [K Kf]. cbn [Z.eqb negb].
  change (negb (PSCI_E_SUCCESS =? PSCI_E_SUCCESS)) with false. cbn iota. wp_step. wp_step.
  apply wp_mono with (P := fun _ s2 => tree s2 = tree s1 /\ dt s2 c = dt s1 c /\
    (exists ev, no_locks ev /\ log s2 = log s1 ++ ev) /\ Inv s2 ph).
  { destruct (has_svc svc_on).
    - eapply wp_emit_inv; [done|]. intros s2 T2 G2 _ D2 _ I2. split; [done|]. split; [done|]. split; [|done].
      eexists. split; [|done]. by repeat constructor.
    - wp_step. split; [done|]. split; [done|]. split; [|done]. exists []. split; [by constructor|by rewrite app_nil_r]. }
  intros [] s2 (T2 & D2 & (ev & Hev & G2) & I2). unfold psci_set_aff_info_state. do 2 wp_step.
  apply wp_get_data; [apply (inv_wf _ _ I2)|done|]. rewrite D2, K. cbn [target_pwrlvl cpu_local_state].
  eapply (wp_set_data_inv c _ Pending); [done|done| |].
  { split; [done|]. pose proof (inv_core _ _ I2 c Hc) as K2. rewrite Ep in K2. apply K2. }
  intros s3 T3 G3 _ D3 I3. wp_step.
  eapply wp_get_aff; [done|done|]. rewrite D3. cbn [aff_info_state]. rewrite bool_decide_false by tauto.
  do 2 wp_step. do 2 wp_step. wp_step. eapply wp_emit_inv; [done|]. intros s4 T4 G4 _ D4 _ I4. wp_step.
  destruct (law_pwr_domain_on (log s3) t) as [Er|Er]; rewrite Er.
  - apply wp_assert; [done|]. wp_step. change (PSCI_E_SUCCESS =? PSCI_E_SUCCESS) with true. cbn iota.
    eapply wp_emit_inv; [done|]. intros s5 T5 G5 _ _ _ I5. do 2 wp_step.
    eapply wp_emit_inv; [done|]. intros s6 T6 G6 _ _ _ I6. wp_step.
    exists PSCI_E_SUCCESS. split; [by left|]. split; [congruence|]. split; [|done].
    exists (SpinLock c :: ev ++ [PwrDomainOn t; InitContext c ep; SpinUnlock c]).
    split; [constructor; [done|]; apply no_locks_app; [done|by repeat constructor]|].
    rewrite G6, G5, G4, G3, G2, G1. by rewrite <- !app_assoc.
  - apply wp_assert; [done|]. wp_step. change (PSCI_E_INTERN_FAIL =? PSCI_E_SUCCESS) with false. cbn iota.
    wp_step. apply wp_get_data; [apply (inv_wf _ _ I4)|done|]. rewrite D4, D3. cbn [target_pwrlvl cpu_local_state].
    eapply (wp_set_data_inv c _ Off); [done|done| |].
    { split; [done|]. pose proof (inv_core _ _ I4 c Hc) as K4. rewrite fn_lookup_insert in K4. apply K4. }
    intros s5 T5 G5 _ D5 I5. do 2 wp_step.
    eapply wp_emit_inv; [done|]. intros s6 T6 G6 _ _ _ I6. wp_step. apply Inv_twice in I6.
    exists PSCI_E_INTERN_FAIL. split; [by right|]. split; [congruence|]. split; [|done].
    exists (SpinLock c :: ev ++ [PwrDomainOn t; SpinUnlock c]).
    split; [constructor; [done|]; apply no_locks_app; [done|by repeat constructor]|].
    rewrite G6, G5, G4, G3, G2, G1. by rewrite <- !app_assoc.
Qed.
End inv.
End PsciInv.
