(* ===== verification/PsciSetup.v ===== *)
(** * PSCI: setup builds the power domain tree

    The platform's topology lists, breadth first, the number of children of each domain.
    Number the domains and then the cores in that order ([own], [off]): the theorems of
    this file show that [populate_power_domain_tree] and [psci_update_pwrlvl_limits] build
    exactly that tree, for any number of levels, and that [psci_setup] establishes the
    invariant of PsciInv with the calling core up and every other core off. *)

From Stdlib Require Import ZArith Lia.
From stdpp Require Import base option list numbers functions.
From S2P Require Import Prelude CMonad Psci PsciProps PsciInv.
Import Psci PsciTree PsciInv.
Open Scope Z_scope.

Module PsciSetup.

Section setup.
Context `{Plat} (topology : list Z).
Abbreviation N := PLATFORM_CORE_COUNT.
Abbreviation L := PLAT_MAX_PWR_LVL.
Abbreviation NODES := PSCI_NUM_NON_CPU_PWR_DOMAINS.

(** ** The tree a topology describes *)
(** The number of children of entry [q]; entry 0 counts the roots, entry [S i] belongs to
    domain [i]. *)
Definition children (q : nat) : nat := Z.to_nat (default 0 (topology !! q)).
(** The entries the first ids belong to. *)
Definition owners (n : nat) : list nat := flat_map (fun q => replicate (children q) q) (seq 0 n).
Definition off (q : nat) : nat := length (owners q).
Definition own (g : nat) : nat := default 0%nat (owners (S NODES) !! g).
(** The first entry of the [d]-th level from the top. *)
Fixpoint first_entry (d : nat) : nat := match d with O => 0 | S d => S (off (first_entry d)) end.

Record topology_ok : Prop := {
  top_nonneg : Forall (fun x => 0 <= x) topology;
  top_length : (NODES < length topology)%nat;
  top_nodes : first_entry (S L) = S NODES;
  top_cores : off (S NODES) = (NODES + N)%nat;
  top_small : (NODES <= 256)%nat
}.
#[global] Instance topology_ok_dec : Decision topology_ok.
Proof.
  destruct (decide (Forall (fun x => 0 <= x) topology /\ (NODES < length topology)%nat /\
    first_entry (S L) = S NODES /\ off (S NODES) = (NODES + N)%nat /\ (NODES <= 256)%nat)) as [Hy|Hn].
  - left. destruct Hy as (? & ? & ? & ? & ?). by constructor.
  - right. intros []. apply Hn. done.
Defined.

Lemma owners_S n : owners (S n) = owners n ++ replicate (children n) n.
Proof. unfold owners. rewrite seq_S, flat_map_app. cbn. by rewrite app_nil_r. Qed.
Lemma off_S n : off (S n) = (off n + children n)%nat.
Proof. unfold off. by rewrite owners_S, length_app, length_replicate. Qed.
Lemma off_mono n m : (n <= m)%nat -> (off n <= off m)%nat.
Proof. induction 1 as [|m Hm IH]; [done|]. rewrite off_S. lia. Qed.
Lemma owners_prefix n m g : (n <= m)%nat -> (g < off n)%nat -> owners m !! g = owners n !! g.
Proof.
  induction 1 as [|m Hm IH]; [done|]. intros Hg. rewrite owners_S, lookup_app_l; [by apply IH|].
  pose proof (off_mono n m Hm). unfold off in *. lia.
Qed.
(** Domain [g] belongs to the entry whose children's ids include [g]. *)
Lemma own_iff g q : (q <= NODES)%nat -> (g < off (S NODES))%nat ->
  own g = q <-> (off q <= g < off (S q))%nat.
Proof.
  intros Hq Hg.
  assert (forall q', (q' <= NODES)%nat -> (off q' <= g < off (S q'))%nat -> own g = q') as Hown.
  { intros q' Hq' Hr. unfold own. rewrite (owners_prefix (S q')) by lia. rewrite owners_S, lookup_app_r by (unfold off in *; lia).
    rewrite lookup_replicate_2; [done|]. rewrite off_S in Hr. unfold off in *. lia. }
  split; [|by apply Hown]. intros E.
  assert (exists q', (q' <= NODES)%nat /\ (off q' <= g < off (S q'))%nat) as (q' & Hq' & Hr).
  { clear -Hg. induction NODES as [|n IH].
    - exists 0%nat. split; [done|]. split; [unfold off; cbn; lia|done].
    - destruct (decide (g < off (S n))%nat) as [Hlt|].
      + destruct (IH Hlt) as (q' & ? & ?). exists q'. split; [lia|done].
      + exists (S n). split; [done|lia]. }
  rewrite (Hown q' Hq' Hr) in E. by subst.
Qed.
Lemma own_le g : (g < off (S NODES))%nat -> (own g <= NODES)%nat /\ (off (own g) <= g < off (S (own g)))%nat.
Proof.
  intros Hg. assert (own g <= NODES)%nat as Hle.
  { unfold own. destruct (lookup_lt_is_Some_2 (owners (S NODES)) g Hg) as [x E]. rewrite E. cbn.
    apply list_elem_of_lookup_2 in E. unfold owners in E.
    apply list_elem_of_In, in_flat_map in E as (q & Hq & Hx). apply in_seq in Hq.
    apply list_elem_of_In, elem_of_replicate in Hx as [-> _]. lia. }
  split; [done|]. by apply own_iff.
Qed.
Lemma own_mono g g' : (g <= g')%nat -> (g' < off (S NODES))%nat -> (own g <= own g')%nat.
Proof.
  intros Hle Hg. destruct (own_le g ltac:(lia)) as [_ [? ?]]. destruct (own_le g' Hg) as [_ [? ?]].
  destruct (decide (own g <= own g')%nat) as [|Hn]; [done|]. pose proof (off_mono (S (own g')) (own g) ltac:(lia)). lia.
Qed.

Context (TOK : topology_ok).

Lemma first_entry_mono d : (first_entry d <= first_entry (S d))%nat.
Proof. induction d as [|d IH]; [cbn; lia|]. cbn. pose proof (off_mono _ _ IH). cbn in *. lia. Qed.
Lemma first_entry_le d d' : (d <= d')%nat -> (first_entry d <= first_entry d')%nat.
Proof. induction 1 as [|d' Hd IH]; [done|]. pose proof (first_entry_mono d'). lia. Qed.
Lemma first_entry_nodes d : (d <= S L)%nat -> (first_entry d <= S NODES)%nat.
Proof. intros Hd. rewrite <- (top_nodes TOK). by apply first_entry_le. Qed.
Lemma off_bottom : off (first_entry L) = NODES.
Proof. pose proof (top_nodes TOK) as E. cbn in E. lia. Qed.

(** The ids of level [l]; the cores come after the domains. *)
Definition of_level (l g : nat) : Prop :=
  (off (first_entry (L - l)) <= g < off (first_entry (S (L - l))))%nat.
Lemma of_level_total l g : (l <= L)%nat -> of_level l g -> (g < off (S NODES))%nat.
Proof.
  intros Hl [_ Hg]. pose proof (off_mono _ _ (first_entry_nodes (S (L - l)) ltac:(lia))). lia.
Qed.
Lemma of_level_0 g : of_level 0 g <-> (NODES <= g < NODES + N)%nat.
Proof. unfold of_level. rewrite Nat.sub_0_r, off_bottom, (top_nodes TOK), (top_cores TOK). done. Qed.
Lemma of_level_node l g : (1 <= l <= L)%nat -> of_level l g -> (g < NODES)%nat.
Proof.
  intros Hl [_ Hg]. rewrite <- off_bottom.
  pose proof (off_mono _ _ (first_entry_le (S (L - l)) L ltac:(lia))). lia.
Qed.
Lemma of_level_unique l l' g : (l <= L)%nat -> (l' <= L)%nat -> of_level l g -> of_level l' g -> l = l'.
Proof.
  intros Hl Hl' [A1 A2] [B1 B2]. destruct (Nat.lt_trichotomy l l') as [Hlt|[->|Hlt]]; [|done|].
  - pose proof (off_mono _ _ (first_entry_le (S (L - l')) (L - l) ltac:(lia))). lia.
  - pose proof (off_mono _ _ (first_entry_le (S (L - l)) (L - l') ltac:(lia))). lia.
Qed.
(** The parent of an id of level [l] is a domain of level [l + 1]. *)
Lemma of_level_parent l g : (l < L)%nat -> of_level l g -> (1 <= own g)%nat /\ of_level (S l) (own g - 1).
Proof.
  intros Hl Hg. destruct (own_le g (of_level_total l g ltac:(lia) Hg)) as [_ Ho]. destruct Hg as [G1 G2].
  replace (L - l)%nat with (S (L - S l)) in * by lia. set (d := (L - S l)%nat) in *.
  assert (first_entry (S d) <= own g < first_entry (S (S d)))%nat as Hr.
  { split.
    - destruct (decide (first_entry (S d) <= own g)%nat) as [|Hn]; [done|].
      pose proof (off_mono (S (own g)) (first_entry (S d)) ltac:(lia)). lia.
    - destruct (decide (own g < first_entry (S (S d)))%nat) as [|Hn]; [done|].
      pose proof (off_mono (first_entry (S (S d))) (own g) ltac:(lia)). lia. }
  unfold of_level. fold d. cbn [first_entry] in Hr |- *. lia.
Qed.

(** The id of the level-[l] ancestor of a core. *)
Definition up (c l : nat) : nat := Nat.iter l (fun g => own g - 1)%nat (NODES + c)%nat.
Lemma up_level c l : (c < N)%nat -> (l <= L)%nat -> of_level l (up c l).
Proof.
  intros Hc. induction l as [|l IH]; intros Hl; [apply of_level_0; cbn; lia|].
  cbn. apply of_level_parent; [lia|]. apply IH. lia.
Qed.
Lemma up_mono c c' l : (c <= c')%nat -> (c' < N)%nat -> (l <= L)%nat -> (up c l <= up c' l)%nat.
Proof.
  intros Hc Hc'. induction l as [|l IH]; intros Hl; [cbn; lia|].
  change (own (up c l) - 1 <= own (up c' l) - 1)%nat.
  pose proof (own_mono (up c l) (up c' l) (IH ltac:(lia))
    (of_level_total l _ ltac:(lia) (up_level c' l Hc' ltac:(lia)))). lia.
Qed.
Lemma up_node c l : (c < N)%nat -> (1 <= l <= L)%nat -> (up c l < NODES)%nat.
Proof. intros Hc Hl. apply (of_level_node l); [done|]. apply up_level; [done|lia]. Qed.

(** ** Populating the arrays *)
Definition node_spec (l g : nat) : non_cpu_pd_node_t :=
  Node 0 0 (u32 (Z.of_nat (own g) - 1)) PLAT_MAX_OFF_STATE (Z.of_nat l) (u8 (Z.of_nat g)).
Definition cpu_spec (c : nat) : cpu_pd_node_t := CpuNode PSCI_INVALID_MPIDR (u32 (Z.of_nat (own (NODES + c)) - 1)).
Definition data_spec : psci_cpu_data_t := CpuData AFF_STATE_OFF PSCI_INVALID_PWR_LVL PLAT_MAX_OFF_STATE.

(** The ids below [i] are initialised, the others are as they were. *)
Record pop (i : nat) (s : psci) : Prop := {
  pop_nodes_len : length (psci_non_cpu_pd_nodes s) = NODES;
  pop_cpus_len : length (psci_cpu_pd_nodes s) = N;
  pop_data_len : length (cpu_data s) = N;
  pop_log : log s = [];
  pop_node : forall l g, (1 <= l <= L)%nat -> of_level l g -> psci_non_cpu_pd_nodes s !! g =
    Some (if bool_decide (g < i)%nat then node_spec l g else Node 0 0 0 0 0 0);
  pop_cpu : forall c, (c < N)%nat -> psci_cpu_pd_nodes s !! c =
    Some (if bool_decide (NODES + c < i)%nat then cpu_spec c else CpuNode 0 0);
  pop_data : forall c, (c < N)%nat -> cpu_data s !! c =
    Some (if bool_decide (NODES + c < i)%nat then data_spec else CpuData AFF_STATE_ON 0 0)
}.
(** The array index of an id of level [l]. *)
Definition idx (l g : nat) : Z := match l with O => Z.of_nat g - Z.of_nat NODES | _ => Z.of_nat g end.

Lemma wp_set_node i n m (Q : _ -> psci -> Prop) s : zget (psci_non_cpu_pd_nodes s) i = Some m ->
  Q tt (Psci_ (<[Z.to_nat i := n]> (psci_non_cpu_pd_nodes s)) (psci_cpu_pd_nodes s) (psci_req_local_pwr_states s) (cpu_data s) (log s)) ->
  wp (set_node i n) Q s.
Proof.
  intros E HQ. unfold set_node. do 2 wp_step. wp_step. apply wp_assert; [rewrite E; by apply bool_decide_eq_true|]. by wp_step.
Qed.
Lemma zget_nat {A} (l : list A) (i : nat) : zget l (Z.of_nat i) = l !! i.
Proof.
  unfold zget, zlen. rewrite Nat2Z.id. case_match eqn:E; [done|]. symmetry. apply lookup_ge_None_2.
  apply andb_false_iff in E as [E|E]; lia.
Qed.

Lemma init_one l i s : pop i s -> (l <= L)%nat -> of_level l i ->
  wp (psci_init_pwr_domain_node (idx l i) (u32 (Z.of_nat (own i) - 1)) l) (fun _ => pop (S i)) s.
Proof.
  intros P Hl Hi. unfold psci_init_pwr_domain_node, PSCI_CPU_PWR_LVL. destruct l as [|l].
  - rewrite bool_decide_false by lia. apply of_level_0 in Hi. set (c := (i - NODES)%nat).
    assert (Z.to_nat (idx 0 i) = c) as -> by (unfold idx; lia). assert (c < N)%nat as Hc by lia.
    assert (i = NODES + c)%nat as Ei by lia. clearbody c. subst i.
    wp_step. unfold set_cpu_node. do 2 wp_step. wp_step.
    apply wp_assert; [apply bool_decide_eq_true, lookup_lt_is_Some; rewrite (pop_cpus_len _ _ P); lia|]. wp_step.
    unfold set_data. do 2 wp_step. wp_step.
    apply wp_assert; [apply bool_decide_eq_true, lookup_lt_is_Some; cbn; rewrite (pop_data_len _ _ P); lia|]. wp_step.
    constructor; cbn.
    + apply P.
    + rewrite length_insert. apply P.
    + rewrite length_insert. apply P.
    + apply P.
    + intros l g Hl' Hg. rewrite (pop_node _ _ P l g Hl' Hg). pose proof (of_level_node l g Hl' Hg).
      by rewrite !bool_decide_true by lia.
    + intros c' Hc'. destruct (decide (c' = c)) as [->|].
      * rewrite list_lookup_insert_eq by (rewrite (pop_cpus_len _ _ P); lia). by rewrite bool_decide_true by lia.
      * rewrite list_lookup_insert_ne by done. rewrite (pop_cpu _ _ P) by done. repeat case_bool_decide; try done; lia.
    + intros c' Hc'. destruct (decide (c' = c)) as [->|].
      * rewrite list_lookup_insert_eq by (rewrite (pop_data_len _ _ P); lia). by rewrite bool_decide_true by lia.
      * rewrite list_lookup_insert_ne by done. rewrite (pop_data _ _ P) by done. repeat case_bool_decide; try done; lia.
  - rewrite bool_decide_true by lia. pose proof (of_level_node (S l) i ltac:(lia) Hi) as Hn.
    pose proof (pop_node _ _ P (S l) i ltac:(lia) Hi) as En. rewrite bool_decide_false in En by lia.
    cbn [idx]. wp_step. eapply wp_node; [by rewrite zget_nat|]. eapply wp_set_node; [by rewrite zget_nat|].
    rewrite Nat2Z.id. constructor; cbn.
    + rewrite length_insert. apply P.
    + apply P.
    + apply P.
    + apply P.
    + intros l' g Hl' Hg. destruct (decide (g = i)) as [->|].
      * rewrite list_lookup_insert_eq by (rewrite (pop_nodes_len _ _ P); lia). rewrite bool_decide_true by lia.
        by rewrite (of_level_unique l' (S l) i) by (done || lia).
      * rewrite list_lookup_insert_ne by done. rewrite (pop_node _ _ P l' g) by done.
        repeat case_bool_decide; try done; lia.
    + intros c Hc. rewrite (pop_cpu _ _ P) by done. by rewrite !bool_decide_false by lia.
    + intros c Hc. rewrite (pop_data _ _ P) by done. by rewrite !bool_decide_false by lia.
Qed.

Lemma init_children_ok k : forall i l q s, pop i s -> (l <= L)%nat ->
  (forall x, (i <= x < i + k)%nat -> of_level l x /\ own x = q) ->
  wp (init_children k (idx l i) (u32 (Z.of_nat q - 1)) l) (fun j s' => j = idx l (i + k) /\ pop (i + k) s') s.
Proof.
  induction k as [|k IH]; intros i l q s P Hl Hx; cbn [init_children].
  { wp_step. by rewrite Nat.add_0_r. }
  destruct (Hx i ltac:(lia)) as [Hi <-]. wp_step. eapply wp_mono; [by apply init_one|]. intros [] s' P'.
  replace (idx l i + 1) with (idx l (S i)) by (destruct l; cbn [idx]; lia).
  eapply wp_mono; [apply IH; [done|done|intros x ?; apply Hx; lia]|].
  intros j s2 [-> P2]. by rewrite Nat.add_succ_r.
Qed.

Lemma topology_lookup q : (q <= NODES)%nat -> zget topology (Z.of_nat q) = Some (Z.of_nat (children q)).
Proof.
  intros Hq. rewrite zget_nat. pose proof (top_length TOK). destruct (lookup_lt_is_Some_2 topology q ltac:(lia)) as [x E].
  unfold children. rewrite E. cbn. pose proof (Forall_lookup_1 _ _ _ _ (top_nonneg TOK) E). f_equal. cbn in *. lia.
Qed.

Lemma populate_level_ok n : forall q l ch s, pop (off q) s -> (l <= L)%nat ->
  (first_entry (L - l) <= q)%nat -> (q + n <= first_entry (S (L - l)))%nat ->
  wp (populate_level topology n (idx l (off q)) (Z.of_nat q) ch l) (fun r s' =>
    r = (idx l (off (q + n)), Z.of_nat (q + n), ch + (Z.of_nat (off (q + n)) - Z.of_nat (off q))) /\ pop (off (q + n)) s') s.
Proof.
  induction n as [|n IH]; intros q l ch s P Hl Hq1 Hq2; cbn [populate_level].
  { wp_step. rewrite Nat.add_0_r. split; [|done]. f_equal. lia. }
  pose proof (first_entry_nodes (S (L - l)) ltac:(lia)).
  wp_step. apply wp_assert; [lia|]. wp_step. eapply wp_must; [apply topology_lookup; lia|].
  rewrite Nat2Z.id. wp_step. eapply wp_mono.
  - apply (init_children_ok (children q) (off q) l q); [done|done|]. rewrite <- off_S. intros x Hx.
    pose proof (off_mono (S q) (S NODES) ltac:(lia)). split.
    + pose proof (off_mono _ _ Hq1). pose proof (off_mono (S q) (first_entry (S (L - l))) ltac:(lia)).
      unfold of_level. lia.
    + apply own_iff; lia.
  - intros j s1 [-> P1]. rewrite <- off_S in *. replace (Z.of_nat q + 1) with (Z.of_nat (S q)) by lia.
    eapply wp_mono; [apply IH; [done|done|lia|lia]|]. intros r s2 [-> P2]. rewrite Nat.add_succ_r.
    change (S q + n)%nat with (S (q + n)) in *. split; [|done]. f_equal. rewrite (off_S q). lia.
Qed.

Lemma populate_levels_ok l : forall j s, (l <= L)%nat -> (0 < N)%nat ->
  pop (off (first_entry (L - l))) s ->
  wp (populate_levels topology l (Z.of_nat (first_entry (S (L - l)) - first_entry (L - l)))
        (idx l (off (first_entry (L - l)))) (Z.of_nat (first_entry (L - l))) j)
    (fun j s' => j = Z.of_nat N /\ pop (NODES + N) s') s.
Proof.
  induction l as [|l IH]; intros j s Hl HN P; cbn [populate_levels]; rewrite Nat2Z.id.
  - pose proof (first_entry_mono (L - 0)). wp_step. eapply wp_mono; [apply populate_level_ok; [done|lia|done|lia]|].
    intros r s1 [-> P1]. cbn beta iota.
    replace (first_entry (L - 0) + (first_entry (S (L - 0)) - first_entry (L - 0)))%nat with (first_entry (S (L - 0))) in * by lia.
    rewrite Nat.sub_0_r in *. rewrite (top_nodes TOK), (top_cores TOK) in *. wp_step. split; [|done].
    destruct (Z.eqb_spec (Z.of_nat (S NODES - first_entry L)) 0) as [E0|]; [|cbn [idx]; lia].
    pose proof off_bottom as Eb. pose proof (top_cores TOK) as Ec.
    replace (first_entry L) with (S NODES) in Eb by lia. lia.
  - pose proof (first_entry_mono (L - S l)). wp_step. eapply wp_mono; [apply populate_level_ok; [done|lia|done|lia]|].
    intros r s1 [-> P1]. cbn beta iota.
    replace (first_entry (L - S l) + (first_entry (S (L - S l)) - first_entry (L - S l)))%nat with (first_entry (S (L - S l))) in * by lia.
    replace (S (L - S l)) with (L - l)%nat in * by lia.
    replace (0 + _) with (Z.of_nat (first_entry (S (L - l)) - first_entry (L - l))).
    2: { assert (first_entry (S (L - l)) = S (off (first_entry (L - l)))) by done.
         assert (first_entry (L - l) = S (off (first_entry (L - S l)))) by (by replace (L - l)%nat with (S (L - S l)) by lia).
         pose proof (off_mono (first_entry (L - S l)) (first_entry (L - l)) ltac:(lia)). lia. }
    replace (match l with O => 0 | _ => _ end) with (idx l (off (first_entry (L - l)))).
    2: { destruct l; [|done]. cbn [idx]. rewrite Nat.sub_0_r, off_bottom. lia. }
    apply IH; [lia|done|done].
Qed.

Lemma pop_bss : pop 0 psci_bss.
Proof.
  constructor; cbn; try (by rewrite length_replicate); [done| | |].
  - intros l g Hl Hg. apply lookup_replicate_2. by apply (of_level_node l).
  - intros c Hc. by apply lookup_replicate_2.
  - intros c Hc. by apply lookup_replicate_2.
Qed.

Lemma populate_tree_ok : (0 < N)%nat -> wp (populate_power_domain_tree topology) (fun _ => pop (NODES + N)) psci_bss.
Proof.
  intros HN. unfold populate_power_domain_tree. wp_step.
  pose proof (populate_levels_ok L 0 psci_bss ltac:(lia) HN) as Hp. rewrite Nat.sub_diag in Hp.
  replace (Z.of_nat (first_entry 1 - first_entry 0)) with 1 in Hp by (cbn; lia).
  replace (idx L (off (first_entry 0))) with 0 in Hp.
  2: { pose proof off_bottom as Eb. destruct L; cbn [idx first_entry] in *; rewrite ?Eb; cbn; lia. }
  eapply wp_mono; [apply Hp, pop_bss|]. intros j s' [-> P]. apply wp_assert; [lia|done].
Qed.

(** ** The cores below each domain *)
Lemma u32_own g l : (l < L)%nat -> of_level l g -> u32 (Z.of_nat (own g) - 1) = Z.of_nat (own g - 1).
Proof.
  intros Hl Hg. destruct (of_level_parent l g Hl Hg) as [H1 Hp].
  pose proof (of_level_node (S l) _ ltac:(lia) Hp). pose proof (top_small TOK).
  rewrite wrap_small; [lia|]. change (2 ^ 32) with 4294967296. lia.
Qed.

(** What is known of a domain of level [l] after the first [k] cores. *)
Definition lim_node (k l g : nat) (n : non_cpu_pd_node_t) : Prop :=
  exists lo hi, (lo <= hi <= k)%nat /\ (forall c, (c < k)%nat -> up c l = g <-> (lo <= c < hi)%nat) /\
    n = Node (if bool_decide (lo < hi)%nat then Z.of_nat lo else 0) (Z.of_nat (hi - lo))
          (u32 (Z.of_nat (own g) - 1)) PLAT_MAX_OFF_STATE (Z.of_nat l) (u8 (Z.of_nat g)).
(** The state while level [l] has seen [kf l] cores. *)
Record lim (kf : nat -> nat) (nodes_idx : list Z) (s : psci) : Prop := {
  lim_len : length (psci_non_cpu_pd_nodes s) = NODES;
  lim_cpus_len : length (psci_cpu_pd_nodes s) = N;
  lim_cpus : forall c, (c < N)%nat -> psci_cpu_pd_nodes s !! c = Some (cpu_spec c);
  lim_data : cpu_data s = replicate N data_spec;
  lim_log : log s = [];
  lim_nodes : forall l g, (1 <= l <= L)%nat -> of_level l g ->
    exists n, psci_non_cpu_pd_nodes s !! g = Some n /\ lim_node (kf l) l g n;
  lim_idx_len : length nodes_idx = L;
  lim_idx : forall l, (1 <= l <= L)%nat ->
    nodes_idx !! (l - 1)%nat = Some (match kf l with O => 0 | S k => Z.of_nat (up k l) end)
}.

Lemma lim_start s : pop (NODES + N) s -> lim (fun _ => 0%nat) (replicate L 0) s.
Proof.
  intros P. constructor; try apply P.
  - intros c Hc. rewrite (pop_cpu _ _ P) by done. by rewrite bool_decide_true by lia.
  - apply list_eq. intros c. destruct (decide (c < N)%nat) as [Hc|Hc].
    + rewrite (pop_data _ _ P), lookup_replicate_2 by done. by rewrite bool_decide_true by lia.
    + rewrite !lookup_ge_None_2; [done|rewrite length_replicate; lia|rewrite (pop_data_len _ _ P); lia].
  - intros l g Hl Hg. eexists. split; [by apply (pop_node _ _ P)|]. pose proof (of_level_node l g Hl Hg).
    rewrite bool_decide_true by lia. exists 0%nat, 0%nat. split; [lia|]. split; [lia|]. done.
  - apply length_replicate.
  - intros l Hl. apply lookup_replicate_2. lia.
Qed.

Lemma lim_node_other k l g n : (up k l <> g)%nat -> lim_node k l g n -> lim_node (S k) l g n.
Proof.
  intros Hne (lo & hi & Hlh & Hc & ->). exists lo, hi. split; [lia|]. split; [|done].
  intros c Hck. destruct (decide (c = k)) as [->|]; [|apply Hc; lia]. split; [done|lia].
Qed.
(** The next core belongs to the domain: its range grows at the end, or starts. *)
Lemma lim_node_same k l n : (k < N)%nat -> (1 <= l <= L)%nat -> lim_node k l (up k l) n ->
  let prev := match k with O => 0 | S k => Z.of_nat (up k l) end in
  let start := if negb (Z.of_nat (up k l) =? prev) then Z.of_nat k else cpu_start_idx n in
  lim_node (S k) l (up k l) (Node start (ncpus n + 1) (parent_node n) (local_state n) (level n) (lock_index n)).
Proof.
  intros Hk Hl (lo & hi & Hlh & Hc & ->). cbn zeta. cbn [cpu_start_idx ncpus parent_node local_state level lock_index].
  destruct (decide (lo < hi)%nat) as [Hlt|Hge].
  - assert (up lo l = up k l) as Elo by (apply Hc; lia). destruct k as [|k]; [lia|].
    assert (up k l = up (S k) l) as Ek.
    { pose proof (up_mono lo k l ltac:(lia) ltac:(lia) ltac:(lia)).
      pose proof (up_mono k (S k) l ltac:(lia) ltac:(lia) ltac:(lia)). lia. }
    assert (hi = S k) as -> by (apply Hc in Ek; lia).
    rewrite Ek, Z.eqb_refl. cbn [negb]. exists lo, (S (S k)). split; [lia|]. split.
    + intros c Hck. destruct (decide (c = S k)) as [->|]; [split; [lia|done]|]. rewrite Hc by lia. lia.
    + rewrite !bool_decide_true by lia. f_equal. lia.
  - rewrite bool_decide_false by lia. exists k, (S k). split; [lia|]. split.
    + intros c Hck. destruct (decide (c = k)) as [->|]; [split; [lia|done]|]. rewrite Hc by lia. lia.
    + rewrite bool_decide_true by lia. f_equal; [|lia]. destruct k as [|k]; [by case_match|].
      destruct (Z.eqb_spec (Z.of_nat (up (S k) l)) (Z.of_nat (up k l))) as [E|]; [|done].
      assert (lo <= k < hi)%nat by (apply Hc; lia). lia.
Qed.

Lemma lim_parent s kf l l' c n : lim kf l' s -> (c < N)%nat -> (1 <= l <= L)%nat ->
  psci_non_cpu_pd_nodes s !! up c l = Some n -> (l < L)%nat -> parent_node n = Z.of_nat (up c (S l)).
Proof.
  intros P Hc Hl En Hlt. destruct (lim_nodes _ _ _ P l (up c l) Hl (up_level c l Hc ltac:(lia))) as (n' & En' & Hn).
  simplify_eq. destruct Hn as (lo & hi & _ & _ & ->). cbn [parent_node].
  apply (u32_own _ l); [lia|]. apply up_level; [done|lia].
Qed.
Lemma lim_node_ex s kf x c l : lim kf x s -> (c < N)%nat -> (1 <= l <= L)%nat ->
  exists n, psci_non_cpu_pd_nodes s !! up c l = Some n /\ lim_node (kf l) l (up c l) n.
Proof. intros P Hc Hl. apply (lim_nodes _ _ _ P); [done|]. apply up_level; [done|lia]. Qed.

Lemma lim_parent_nodes kf x c n : forall lvl par (Q : _ -> psci -> Prop) s, lim kf x s -> (c < N)%nat -> (1 <= lvl)%nat ->
  (lvl + n <= S L)%nat -> ((0 < n)%nat -> par = Z.of_nat (up c lvl)) ->
  Q ((fun l => Z.of_nat (up c l)) <$> seq lvl n) s -> wp (parent_nodes n par) Q s.
Proof.
  induction n as [|n IH]; intros lvl par Q s P Hc H1 Hn Hpar HQ; cbn [parent_nodes]; [done|].
  rewrite Hpar by lia. destruct (lim_node_ex s kf x c lvl P Hc ltac:(lia)) as (nd & En & _).
  wp_step. eapply wp_node; [by rewrite zget_nat|]. wp_step. eapply (IH (S lvl)); [done|done|lia|lia| |by wp_step].
  intros ?. eapply lim_parent; [done|done| |done|]; lia.
Qed.

Lemma limits_levels_ok k j : forall kf x s, lim kf x s -> (k < N)%nat -> (j <= L)%nat ->
  (forall l, (1 <= l <= j)%nat -> kf l = k) -> (forall l, (j < l <= L)%nat -> kf l = S k) ->
  wp (limits_levels j k ((fun l => Z.of_nat (up k l)) <$> seq 1 L) x) (fun x' s' => lim (fun _ => S k) x' s') s.
Proof.
  induction j as [|j IH]; intros kf x s P Hk Hj Hlow Hhigh; cbn [limits_levels].
  { wp_step. destruct P as [P1 P2 P3 P4 P5 P6 P7 P8]. constructor; try done.
    - intros l g Hl Hg. rewrite <- (Hhigh l) by lia. by apply P6.
    - intros l Hl. rewrite P8, Hhigh by lia. done. }
  wp_step. eapply wp_must; [rewrite list_lookup_fmap, lookup_seq_lt by lia; done|].
  wp_step. eapply wp_must; [pose proof (lim_idx _ _ _ P (S j) ltac:(lia)) as E; cbn [Nat.sub] in E; rewrite Nat.sub_0_r in E; exact E|].
  rewrite (Hlow (S j)) by lia. change (1 + j)%nat with (S j).
  destruct (lim_node_ex s kf x k (S j) P Hk ltac:(lia)) as (nd & En & Hn). rewrite (Hlow (S j)) in Hn by lia.
  pose proof (lim_node_same k (S j) nd Hk ltac:(lia) Hn) as Hn'. cbn zeta in Hn'.
  set (prev := match k with O => 0 | S k => Z.of_nat (up k (S j)) end) in *.
  pose proof (up_level k (S j) Hk ltac:(lia)) as Hlev. pose proof (up_node k (S j) Hk ltac:(lia)) as Hlt.
  set (g := up k (S j)) in *.
  assert (forall x' n' s', length x' = L -> x' !! j = Some (Z.of_nat g) ->
    (forall i, i <> j -> x' !! i = x !! i) -> psci_non_cpu_pd_nodes s' = <[g := n']> (psci_non_cpu_pd_nodes s) ->
    psci_cpu_pd_nodes s' = psci_cpu_pd_nodes s -> cpu_data s' = cpu_data s -> log s' = log s ->
    lim_node (S k) (S j) g n' ->
    wp (limits_levels j k ((fun l => Z.of_nat (up k l)) <$> seq 1 L) x') (fun x' s' => lim (fun _ => S k) x' s') s') as Hnext.
  { intros x' n' s' Hx' Hj' Hi En' Ec Ed El Hn2.
    apply (IH (fun l => if bool_decide (l = S j) then S k else kf l)); [|done|lia| |].
    - destruct P as [P1 P2 P3 P4 P5 P6 P7 P8]. constructor; try congruence.
      + rewrite En', length_insert. done.
      + intros c Hc. rewrite Ec. by apply P3.
      + intros l g' Hl Hg'. rewrite En'. case_bool_decide as El'.
        * subst l. destruct (decide (g' = g)) as [->|Hne].
          -- rewrite list_lookup_insert_eq by lia. eauto.
          -- rewrite list_lookup_insert_ne by done. destruct (P6 (S j) g' Hl Hg') as (m & Em & Hm).
             exists m. split; [done|]. rewrite (Hlow (S j)) in Hm by lia. apply lim_node_other; [fold g; congruence|done].
        * rewrite list_lookup_insert_ne; [by apply P6|]. intros <-.
          apply El'. apply (of_level_unique l (S j) g); [lia|lia|done|done].
      + intros l Hl. case_bool_decide as El'.
        * subst l. cbn [Nat.sub]. rewrite Nat.sub_0_r. done.
        * rewrite Hi by lia. by apply P8.
    - intros l Hl. rewrite bool_decide_false by lia. apply Hlow. lia.
    - intros l Hl. case_bool_decide; [done|]. apply Hhigh. lia. }
  pose proof (lim_idx_len _ _ _ P) as Hxl.
  destruct (negb (Z.of_nat g =? prev)) eqn:Eb.
  - wp_step. wp_step. eapply wp_node; [by rewrite zget_nat|]. wp_step. eapply wp_set_node; [by rewrite zget_nat|].
    wp_step. rewrite Nat2Z.id. wp_step. eapply wp_node; [rewrite zget_nat; cbn [psci_non_cpu_pd_nodes]; apply list_lookup_insert_eq; rewrite (lim_len _ _ _ P); exact Hlt|].
    wp_step. eapply wp_set_node; [rewrite zget_nat; cbn [psci_non_cpu_pd_nodes]; apply list_lookup_insert_eq; rewrite (lim_len _ _ _ P); exact Hlt|].
    cbn [cpu_start_idx ncpus parent_node local_state level lock_index psci_non_cpu_pd_nodes]. rewrite Nat2Z.id, list_insert_insert_eq.
    eapply Hnext; try done.
    + by rewrite length_insert.
    + apply list_lookup_insert_eq. lia.
    + intros i Hi. by apply list_lookup_insert_ne.
  - wp_step. wp_step. wp_step. eapply wp_node; [by rewrite zget_nat|]. wp_step. eapply wp_set_node; [by rewrite zget_nat|].
    rewrite Nat2Z.id. eapply Hnext; try done.
    pose proof (lim_idx _ _ _ P (S j) ltac:(lia)) as E. cbn [Nat.sub] in E. rewrite Nat.sub_0_r, (Hlow (S j)) in E by lia.
    rewrite E. fold prev. f_equal. apply negb_false_iff in Eb. lia.
Qed.

Lemma limits_cpus_ok n : forall k x s, lim (fun _ => k) x s -> (k + n <= N)%nat ->
  wp (limits_cpus n k x) (fun _ s' => exists x', lim (fun _ => k + n)%nat x' s') s.
Proof.
  induction n as [|n IH]; intros k x s P Hk; cbn [limits_cpus].
  { wp_step. exists x. by rewrite Nat.add_0_r. }
  wp_step. unfold psci_get_parent_pwr_domain_nodes. wp_step. unfold cpu_node. do 2 wp_step.
  eapply wp_must; [by apply (lim_cpus _ _ _ P); lia|]. eapply (lim_parent_nodes _ _ k L 1); [done|lia|lia|lia| |].
  { intros HL. apply (u32_own _ 0); [lia|]. apply of_level_0. lia. }
  wp_step. eapply wp_mono; [eapply (limits_levels_ok k L (fun _ => k)); [done|lia|done|done|lia]|].
  intros x' s' P'. eapply wp_mono; [apply (IH (S k)); [done|lia]|]. intros [] s2 (x2 & P2). exists x2.
  by rewrite Nat.add_succ_r.
Qed.

(** ** The invariant after setup *)
Lemma anc_up_eq x s s3 c l : lim (fun _ => N) x s -> psci_non_cpu_pd_nodes s3 = psci_non_cpu_pd_nodes s ->
  cpu_parent_node <$> psci_cpu_pd_nodes s3 = cpu_parent_node <$> psci_cpu_pd_nodes s ->
  (c < N)%nat -> (1 <= l <= L)%nat -> anc (tree s3) c l = Z.of_nat (up c l).
Proof.
  intros P En Ec Hc [H1 Hl]. induction H1 as [|l H1 IH].
  - rewrite anc_1. cbn [tree t_parents]. rewrite Ec, list_lookup_fmap, (lim_cpus _ _ _ P) by done. cbn [default fmap option_fmap option_map cpu_spec cpu_parent_node].
    apply (u32_own _ 0); [lia|]. apply of_level_0. lia.
  - rewrite anc_S by lia. rewrite IH by lia. unfold parent_of. cbn [tree t_nodes].
    destruct (lim_node_ex s _ x c l P Hc ltac:(lia)) as (n & Eg & Hn).
    rewrite zget_fmap, zget_nat, En, Eg. cbn [fmap option_fmap option_map default parent_node with_local_state].
    eapply lim_parent; [done|done| |done|]; lia.
Qed.

Lemma setup_inv x s s3 : PlatLaws -> lim (fun _ => N) x s ->
  psci_non_cpu_pd_nodes s3 = psci_non_cpu_pd_nodes s -> length (psci_cpu_pd_nodes s3) = N ->
  cpu_parent_node <$> psci_cpu_pd_nodes s3 = cpu_parent_node <$> psci_cpu_pd_nodes s ->
  psci_req_local_pwr_states s3 = replicate (S L) (replicate N PLAT_MAX_OFF_STATE) ->
  cpu_data s3 = cpu_data s -> Inv s3 (fun _ => Off).
Proof.
  intros PL P En Hlen Ec Er Ed. pose proof law_states.
  pose proof (fun c l => anc_up_eq x s s3 c l P En Ec) as Ea.
  assert (forall l c, (1 <= l <= L)%nat -> (c < N)%nat -> rq s3 l c = PLAT_MAX_OFF_STATE) as Hrq.
  { intros l c Hl Hc. unfold rq. destruct l as [|l]; [lia|]. rewrite Er, lookup_replicate_2 by lia.
    cbn [mbind option_bind]. by rewrite lookup_replicate_2. }
  constructor.
  - constructor.
    + cbn [tree t_parents]. by rewrite length_fmap.
    + cbn [tree t_cores]. rewrite Ed, (lim_data _ _ _ P). apply length_replicate.
    + intros l Hl. cbn [tree t_rows]. rewrite Er, list_lookup_fmap, lookup_replicate_2 by lia.
      cbn [fmap option_fmap option_map]. by rewrite length_replicate.
    + intros c l Hc Hl. rewrite Ea by done. cbn [tree t_nodes].
      destruct (lim_node_ex s _ x c l P Hc Hl) as (n & Eg & lo & hi & Hlh & Hr & ->).
      rewrite zget_fmap, zget_nat, En, Eg. eexists. split; [done|]. cbn [level lock_index cpu_start_idx ncpus with_local_state].
      assert (lo <= c < hi)%nat as Hc' by (by apply Hr). rewrite bool_decide_true by lia.
      pose proof (up_node c l Hc Hl). pose proof (top_small TOK). split; [done|].
      split; [rewrite wrap_small; [done|]; change (2 ^ 8) with 256; lia|]. split; [lia|]. split; [lia|]. split; [lia|].
      intros c2 Hc2. rewrite Ea by done. rewrite Nat2Z.inj_iff, (Hr c2 Hc2). lia.
  - intros l c Hl Hc. rewrite Hrq by done. lia.
  - intros c Hc l Hl. rewrite !Hrq by lia. lia.
  - intros c l Hc Hl. rewrite Ea by done. unfold dm. destruct (lim_node_ex s _ x c l P Hc Hl) as (n & Eg & lo & hi & _ & _ & ->).
    rewrite zget_nat, En, Eg. cbn [fmap option_fmap option_map default local_state].
    split; [intros c' Hc' _; by rewrite Hrq|]. exists c. by rewrite Hrq.
  - intros c Hc. split.
    + unfold dt. by rewrite Ed, (lim_data _ _ _ P), lookup_replicate_2.
    + intros l Hl. by apply Hrq.
Qed.

Lemma psci_setup_ok my : PlatLaws -> (my < N)%nat ->
  wp (psci_setup my topology) (fun _ s => log s = [] /\ Inv s (<[my := Up]> (fun _ => Off)) /\
    forall c l, (c < N)%nat -> (1 <= l <= L)%nat -> anc (tree s) c l = Z.of_nat (up c l)) psci_bss.
Proof.
  intros PL Hmy. unfold psci_setup. wp_step. eapply wp_mono; [apply populate_tree_ok; lia|]. intros [] s0 P0.
  wp_step. unfold psci_update_pwrlvl_limits. eapply wp_mono; [apply limits_cpus_ok; [by apply lim_start|lia]|].
  cbn [Nat.add]. intros [] s1 (x & P1). wp_step. unfold cpu_node. do 2 wp_step.
  eapply wp_must; [by apply (lim_cpus _ _ _ P1)|]. wp_step. unfold set_cpu_node. do 2 wp_step. wp_step.
  apply wp_assert; [by rewrite (lim_cpus _ _ _ P1) by done|]. wp_step.
  unfold psci_init_req_local_pwr_states. do 2 wp_step. set (s3 := Psci_ _ _ _ _ _).
  assert (length (psci_cpu_pd_nodes s3) = N) as Hlen3 by (cbn; rewrite length_insert; apply P1).
  assert (cpu_parent_node <$> psci_cpu_pd_nodes s3 = cpu_parent_node <$> psci_cpu_pd_nodes s1) as Ec3.
  { cbn. rewrite list_fmap_insert. apply list_insert_id. by rewrite list_lookup_fmap, (lim_cpus _ _ _ P1). }
  assert (Inv s3 (fun _ => Off)) as I3 by (by eapply setup_inv).
  eapply wp_to_run_inv; [done|done|done| |lia|].
  - by destruct (inv_core _ _ I3 my Hmy) as [-> _].
  - intros s4 T4 G4 I4. split; [rewrite G4; apply P1|]. split; [done|].
    intros c l Hc Hl. rewrite T4. by eapply anc_up_eq.
Qed.
End setup.
End PsciSetup.
