(* ===== verification/PsciLocks.v ===== *)
(** * PSCI: the locks of the power domains cannot deadlock

    Each core takes the locks of its ancestors upwards, one level at a time, and gives
    them back downwards ([psci_acquire_pwr_domain_locks], [psci_release_pwr_domain_locks]);
    a taken lock makes others wait.  [lstep] interleaves any number of cores that do so.
    Some core can always move, and every schedule ends with all locks free. *)

From Stdlib Require Import ZArith Lia.
From stdpp Require Import base option list numbers functions relations.
From S2P Require Import Prelude CMonad Psci PsciProps.
Import Psci PsciTree.

Module PsciLocks.

(** [held] locks are taken of the [goal] lowest; [leaving] once the work is done. *)
Record locker := Locker { held : nat; goal : nat; leaving : bool }.
Definition idle : locker := Locker 0 0 false.

Section locks.
Context `{Plat} (t : pd_tree).
Abbreviation N := PLATFORM_CORE_COUNT.
Abbreviation L := PLAT_MAX_PWR_LVL.
Abbreviation config := (nat -> locker).

(** Core [c] holds the lock [k]. *)
Definition owns (g : config) (c : nat) (k : Z) : Prop := k ∈ locks t c (held (g c)).
#[global] Instance owns_dec g c k : Decision (owns g c k).
Proof. unfold owns. apply _. Defined.
Definition free (g : config) (k : Z) : Prop := forall c, (c < N)%nat -> ~ owns g c k.

(** A core starts, takes the next lock of its path, finishes its work, gives the last
    lock taken back. *)
Inductive lstep (g : config) : config -> Prop :=
| l_take c e h k : (c < N)%nat -> g c = Locker h e false -> locks t c e !! h = Some k -> free g k ->
    lstep g (<[c := Locker (S h) e false]> g)
| l_work c e : (c < N)%nat -> g c = Locker e e false -> (0 < e)%nat -> lstep g (<[c := Locker e e true]> g)
| l_give c e h : (c < N)%nat -> g c = Locker (S h) e true ->
    lstep g (<[c := if bool_decide (h = 0)%nat then idle else Locker h e true]> g).
Inductive lstart (g : config) : config -> Prop :=
| l_start c e : (c < N)%nat -> g c = idle -> (e <= L)%nat -> lstart g (<[c := Locker 0 e false]> g).

Record linv (g : config) : Prop := {
  linv_range : forall c, (c < N)%nat -> (held (g c) <= goal (g c) <= L)%nat;
  linv_leaving : forall c, (c < N)%nat -> leaving (g c) = true -> (0 < held (g c))%nat;
  linv_excl : forall c c' k, (c < N)%nat -> (c' < N)%nat -> owns g c k -> owns g c' k -> c = c'
}.

Lemma elem_locks c e k : k ∈ locks t c e <-> exists l, (1 <= l <= e)%nat /\ k = anc t c l.
Proof.
  unfold locks. rewrite list_elem_of_fmap. setoid_rewrite elem_of_seq. split; intros (l & ? & ?); exists l; (split; [lia|done]) || split; done || lia.
Qed.
Lemma locks_lookup c e h k : locks t c e !! h = Some k -> (h < e)%nat /\ k = anc t c (S h).
Proof. unfold locks. rewrite list_lookup_fmap. intros (x & E & ->)%fmap_Some. apply lookup_seq in E as [-> ?]. done. Qed.
Lemma locks_next c e h : (h < e)%nat -> locks t c e !! h = Some (anc t c (S h)).
Proof. intros Hh. unfold locks. by rewrite list_lookup_fmap, lookup_seq_lt. Qed.

Lemma owns_insert_ne g c x c' k : c' <> c -> owns (<[c := x]> g) c' k <-> owns g c' k.
Proof. intros Hne. unfold owns. by rewrite fn_lookup_insert_ne. Qed.
Lemma owns_insert g c x k : owns (<[c := x]> g) c k <-> k ∈ locks t c (held x).
Proof. unfold owns. by rewrite fn_lookup_insert. Qed.

(** A change of one core that takes no lock anyone else holds. *)
Lemma linv_insert g c x : linv g -> (held x <= goal x <= L)%nat -> (leaving x = true -> 0 < held x)%nat ->
  (forall k, k ∈ locks t c (held x) -> owns g c k \/ free g k) -> linv (<[c := x]> g).
Proof.
  intros [R V E] Hx Hv Hk. constructor.
  - intros c' Hc'. destruct (decide (c' = c)) as [->|]; [by rewrite fn_lookup_insert|].
    rewrite fn_lookup_insert_ne by done. by apply R.
  - intros c' Hc'. destruct (decide (c' = c)) as [->|]; [by rewrite fn_lookup_insert|].
    rewrite fn_lookup_insert_ne by done. by apply V.
  - intros c1 c2 k H1 H2 O1 O2. destruct (decide (c1 = c)) as [->|N1], (decide (c2 = c)) as [->|N2].
    + done.
    + apply owns_insert in O1. apply owns_insert_ne in O2; [|done]. destruct (Hk k O1) as [O|F]; [by eapply E|].
      by destruct (F c2 H2).
    + apply owns_insert in O2. apply owns_insert_ne in O1; [|done]. destruct (Hk k O2) as [O|F]; [by eapply E|].
      by destruct (F c1 H1).
    + apply owns_insert_ne in O1, O2; [|done|done]. by eapply E.
Qed.

Lemma linv_step g g' : linv g -> lstep g g' -> linv g'.
Proof.
  intros I. destruct 1 as [c e h k Hc Hg Hk Hf|c e Hc Hg He|c e h Hc Hg].
  - pose proof (linv_range _ I c Hc) as R. rewrite Hg in R. cbn in R. destruct (locks_lookup _ _ _ _ Hk) as [Hh ->].
    apply linv_insert; cbn [held goal leaving]; [done|lia|done|]. intros k (l & Hl & ->)%elem_locks.
    destruct (decide (l = S h)) as [->|]; [by right|]. left. unfold owns. rewrite Hg. apply elem_locks. exists l. cbn. split; [lia|done].
  - pose proof (linv_range _ I c Hc) as R. rewrite Hg in R. cbn in R.
    apply linv_insert; cbn [held goal leaving]; [done|lia|done|]. intros k Hk. left. unfold owns. by rewrite Hg.
  - pose proof (linv_range _ I c Hc) as R. rewrite Hg in R. cbn in R.
    apply linv_insert; [done|case_bool_decide; cbn; lia|case_bool_decide; cbn; [done|lia]|].
    intros k Hk. left. unfold owns. rewrite Hg. apply elem_locks in Hk as (l & Hl & ->). apply elem_locks. exists l.
    split; [|done]. case_bool_decide; cbn in *; lia.
Qed.
Lemma linv_start g g' : linv g -> lstart g g' -> linv g'.
Proof.
  intros I [c e Hc Hg He]. apply linv_insert; cbn [held goal leaving]; [done|lia|done|]. intros k Hk. by apply elem_of_nil in Hk.
Qed.

(** Of the cores that wait, one that has climbed highest can take its next lock, unless
    a core that need not wait holds it. *)
Lemma some_core_moves : wf t -> forall g, linv g -> (exists c, (c < N)%nat /\ g c <> idle) -> exists g', lstep g g'.
Proof.
  intros W g I (c & Hc & Hne). pose proof (linv_range _ I) as R.
  assert (0 < goal (g c))%nat as Hgc.
  { pose proof (R c Hc). pose proof (linv_leaving _ I c Hc). destruct (g c) as [h [|e] lv]; cbn in *; [|lia].
    destruct h, lv; lia || done || (exfalso; lia). }
  clear Hne. remember (L - held (g c))%nat as d eqn:Ed. revert c Hc Hgc Ed.
  induction d as [d IH] using lt_wf_ind. intros c Hc Hgc ->. specialize (R c Hc).
  destruct (g c) as [h e lv] eqn:Hg. cbn in *. destruct lv.
  { pose proof (linv_leaving _ I c Hc) as V. rewrite Hg in V. cbn in V. specialize (V eq_refl).
    destruct h as [|h]; [lia|]. eexists. by eapply l_give. }
  destruct (decide (h = e)) as [->|Hlt]; [eexists; by eapply l_work|].
  destruct (decide (Exists (fun c' => owns g c' (anc t c (S h))) (seq 0 N))) as [Hex|Hno].
  - apply Exists_exists in Hex as (c' & Hc' & Hown). apply elem_of_seq in Hc'.
    apply elem_locks in Hown as (l & Hl & Ea). pose proof (linv_range _ I c' ltac:(lia)) as R'.
    assert (S h = l) as <- by (eapply (anc_level t c (S h) c' l W); [lia|lia|lia|lia|done]).
    apply (IH (L - held (g c'))%nat ltac:(lia) c'); [lia|lia|done].
  - eexists. eapply (l_take _ c e h); [done|done|by apply locks_next; lia|].
    intros c' Hc' Hown. apply Hno. apply Exists_exists. exists c'. split; [apply elem_of_seq; lia|done].
Qed.

(** The steps left to the cores that have started. *)
Definition work (x : locker) : nat :=
  if leaving x then held x else match goal x with O => 0 | _ => (goal x - held x) + 1 + goal x end.
Definition total (g : config) : nat := sum_list (work ∘ g <$> seq 0 N).

Lemma sum_insert g c x n : (c < n)%nat ->
  (sum_list (work ∘ (<[c := x]> g : config) <$> seq 0 n) + work (g c) = sum_list (work ∘ g <$> seq 0 n) + work x)%nat.
Proof.
  intros Hc. induction n as [|n IH]; [lia|]. rewrite seq_S, !fmap_app.
  assert (forall l k, sum_list (l ++ k) = sum_list l + sum_list k)%nat as Happ.
  { intros l k. induction l as [|y l IHl]; cbn; [done|]. rewrite IHl. lia. }
  rewrite !Happ. cbn. destruct (decide (c = n)) as [->|Hne].
  - rewrite fn_lookup_insert. assert (work ∘ (<[n := x]> g : config) <$> seq 0 n = work ∘ g <$> seq 0 n) as ->; [|lia].
    apply list_fmap_ext. intros i y Hi. apply lookup_seq in Hi as [-> Hi]. cbn. by rewrite fn_lookup_insert_ne by lia.
  - rewrite fn_lookup_insert_ne by done. specialize (IH ltac:(lia)). lia.
Qed.
Lemma step_work g g' : linv g -> lstep g g' -> (total g' < total g)%nat.
Proof.
  intros I Hs. unfold total. destruct Hs as [c e h k Hc Hg Hk Hf|c e Hc Hg He|c e h Hc Hg];
    pose proof (linv_range _ I c Hc) as R; rewrite Hg in R; cbn in R.
  - apply locks_lookup in Hk as [Hh _]. pose proof (sum_insert g c (Locker (S h) e false) N Hc) as E. rewrite Hg in E.
    unfold work at 2 4 in E. cbn in E. destruct e; lia.
  - pose proof (sum_insert g c (Locker e e true) N Hc) as E. rewrite Hg in E. unfold work at 2 4 in E. cbn in E. destruct e; lia.
  - pose proof (sum_insert g c (if bool_decide (h = 0)%nat then idle else Locker h e true) N Hc) as E. rewrite Hg in E.
    unfold work at 2 4 in E. case_bool_decide; cbn in E; lia.
Qed.

Lemma linv_idle : linv (fun _ => idle).
Proof. constructor; cbn; [lia|done|]. intros c c' k _ _ Ho. by apply elem_of_nil in Ho. Qed.
Lemma linv_rtc g g' : linv g -> rtc (fun g g' => lstep g g' \/ lstart g g') g g' -> linv g'.
Proof. intros I. induction 1 as [|g1 g2 g3 [Hs|Hs] _ IH]; [done| |]; apply IH; [by eapply linv_step|by eapply linv_start]. Qed.

Lemma steps_bounded n g g' : linv g -> nsteps lstep n g g' -> linv g' /\ (n + total g' <= total g)%nat.
Proof.
  intros I Hn. revert I. induction Hn as [|n g1 g2 g3 Hs _ IH]; intros I; [split; [done|lia]|].
  destruct (IH (linv_step _ _ I Hs)) as [I' Hle]. pose proof (step_work _ _ I Hs). split; [done|lia].
Qed.
(** Any schedule that cannot be continued has brought every core back to idle. *)
Lemma stuck_idle g : wf t -> linv g -> nf lstep g -> forall c, (c < N)%nat -> g c = idle.
Proof.
  intros W I Hnf c Hc.
  assert ({g c = idle} + {g c <> idle}) as [|Hne]; [|done|].
  { destruct (g c) as [[|h] [|e] [|]]; try (right; discriminate); by left. }
  destruct (some_core_moves W g I) as [g' Hs]; [by exists c|]. destruct Hnf. by exists g'.
Qed.
Lemma can_finish g : wf t -> linv g -> exists g', rtc lstep g g' /\ forall c, (c < N)%nat -> g' c = idle.
Proof.
  intros W. remember (total g) as n eqn:En. revert g En. induction n as [n IH] using lt_wf_ind. intros g -> I.
  destruct (decide (Forall (fun c => held (g c) = 0%nat /\ goal (g c) = 0%nat /\ leaving (g c) = false) (seq 0 N))) as [Hall|Hno].
  - exists g. split; [done|]. intros c Hc. rewrite Forall_forall in Hall.
    destruct (Hall c) as (E1 & E2 & E3); [apply elem_of_seq; lia|]. destruct (g c). cbn in *. by subst.
  - apply not_Forall_Exists in Hno; [|apply _]. apply Exists_exists in Hno as (c & Hc & Hne). apply elem_of_seq in Hc.
    destruct (some_core_moves W g I) as [g1 Hs].
    { exists c. split; [lia|]. intros E. apply Hne. by rewrite E. }
    destruct (IH (total g1) (step_work _ _ I Hs) g1 eq_refl (linv_step _ _ I Hs)) as (g2 & Hr & Hi).
    exists g2. split; [by eapply rtc_l|done].
Qed.
End locks.
End PsciLocks.
