(* ===== verification/Bakery.v ===== *)
(** * The bakery lock: lib/locks/bakery and include/lib/bakery_lock.h

    The lock below the power domain locks of PSCI, and the entry points of the two
    implementations, for coherent and for cacheable memory.  [bakery_lock_get] reads and
    writes memory other cores write too, so it is cut at its memory accesses: [pc] says where
    a core is and holds its local variables, and each step is one single-copy atomic
    access with the computation up to the next one.  Memory is one sequentially consistent
    array of 16-bit words, one per core; that the cache maintenance of the second
    implementation makes it so is assumed, and [wfe] and [sev] are left out (a wake-up without
    event is allowed, so a waiting core may always look again).  A failed assertion and an index out of range
    yield [None]. *)

From Stdlib Require Import ZArith Lia.
From stdpp Require Import base option list numbers.
From S2P Require Import Prelude.
Open Scope Z_scope.

Module Bakery.

(** ** bakery_lock.h *)
Definition PRIORITY (t pos : Z) : Z := Z.lor (u32 (Z.shiftl t 8)) pos.
Definition CHOOSING_TICKET : Z := 1.
Definition CHOSEN_TICKET : Z := 0.
Definition bakery_is_choosing (info : Z) : Z := Z.land info 1.
Definition bakery_ticket_number (info : Z) : Z := Z.land (Z.shiftr info 1) 0x7FFF.
Definition make_bakery_data (choosing number : Z) : Z :=
  Z.land (Z.lor (Z.land choosing 1) (u32 (Z.shiftl number 1))) 0xFFFF.

(** bakery_lock_coherent.c and bakery_lock_normal.c *)
Inductive variant := Coherent | Normal.

(** Where a core is, before its next access: outside; in the loop of [bakery_get_ticket]
    at entry [they]; in the first and in the second waiting loop of [bakery_lock_get] at entry
    [they]; holding the lock. *)
Inductive pc :=
| Out
| Choosing (they : nat) (my_ticket : Z)
| Waiting (they : nat) (my_ticket : Z)
| Blocked (they : nat) (my_ticket their_ticket : Z)
| Held (my_ticket : Z).
#[global] Instance pc_eq_dec : EqDecision pc.
Proof. solve_decision. Defined.

Section lock.
Context (v : variant) (BAKERY_LOCK_MAX_CPUS : nat).
Implicit Types (lock_data : list Z) (me they : nat).
Abbreviation N := BAKERY_LOCK_MAX_CPUS.

(** The head of the loop of [bakery_get_ticket]; the second implementation passes over
    the core's own entry. *)
Definition ticket_loop me they (my_ticket : Z) : pc :=
  match v with
  | Coherent => Choosing they my_ticket
  | Normal => Choosing (if (they =? me)%nat then S they else they) my_ticket
  end.
(** The head of the loop of [bakery_lock_get]. *)
Definition get_loop me they (my_ticket : Z) : pc :=
  let they := if (me =? they)%nat then S they else they in
  if (they <? N)%nat then Waiting they my_ticket else Held my_ticket.

(** [bakery_get_ticket]: up to the write that announces the choice, *)
Definition bakery_get_ticket lock_data me : option (pc * list Z) :=
  mine ← lock_data !! me;
  if bakery_ticket_number mine =? 0
  then Some (ticket_loop me 0 0, <[me := make_bakery_data CHOOSING_TICKET 0]> lock_data)
  else None.
(** one round of its loop, *)
Definition bakery_get_ticket_round lock_data me they (my_ticket : Z) : option (pc * list Z) :=
  theirs ← lock_data !! they;
  let their_ticket := bakery_ticket_number theirs in
  Some (ticket_loop me (S they) (if my_ticket <? their_ticket then their_ticket else my_ticket), lock_data).
(** and the write of the ticket, after which [bakery_lock_get] enters its loop. *)
Definition bakery_get_ticket_done lock_data me (my_ticket : Z) : option (pc * list Z) :=
  let my_ticket := u32 (my_ticket + 1) in
  Some (get_loop me 0 my_ticket, <[me := make_bakery_data CHOSEN_TICKET my_ticket]> lock_data).

(** [bakery_lock_get]: a read of the loop that waits for [they] to choose, *)
Definition bakery_lock_get_wait lock_data me they (my_ticket : Z) : option (pc * list Z) :=
  their_bakery_data ← lock_data !! they;
  if negb (bakery_is_choosing their_bakery_data =? 0) then Some (Waiting they my_ticket, lock_data)
  else
    let their_ticket := bakery_ticket_number their_bakery_data in
    if negb (their_ticket =? 0) && (PRIORITY their_ticket (Z.of_nat they) <? PRIORITY my_ticket (Z.of_nat me))
    then Some (Blocked they my_ticket their_ticket, lock_data)
    else Some (get_loop me (S they) my_ticket, lock_data).
(** and of the loop that waits for their ticket to change. *)
Definition bakery_lock_get_blocked lock_data me they (my_ticket their_ticket : Z) : option (pc * list Z) :=
  their_bakery_data ← lock_data !! they;
  if their_ticket =? bakery_ticket_number their_bakery_data
  then Some (Blocked they my_ticket their_ticket, lock_data)
  else Some (get_loop me (S they) my_ticket, lock_data).

Definition bakery_lock_release lock_data me : option (pc * list Z) :=
  mine ← lock_data !! me;
  if bakery_ticket_number mine =? 0 then None else Some (Out, <[me := 0]> lock_data).

(** The next access of core [me].  A core outside calls [bakery_lock_get], a core that
    holds the lock calls [bakery_lock_release]. *)
Definition bakery_lock_step lock_data me (p : pc) : option (pc * list Z) :=
  match p with
  | Out => bakery_get_ticket lock_data me
  | Choosing they my_ticket =>
      if (they <? N)%nat then bakery_get_ticket_round lock_data me they my_ticket
      else bakery_get_ticket_done lock_data me my_ticket
  | Waiting they my_ticket => bakery_lock_get_wait lock_data me they my_ticket
  | Blocked they my_ticket their_ticket => bakery_lock_get_blocked lock_data me they my_ticket their_ticket
  | Held _ => bakery_lock_release lock_data me
  end.
End lock.

(** ** Interleavings

    The lock's memory and the position of every core; a schedule names the core that
    moves next. *)
Record sys := Sys { lock_data : list Z; cores : list pc }.

Section sys.
Context (v : variant) (N : nat).

Definition bakery_init : sys := Sys (replicate N 0) (replicate N Out).
Definition core_step (me : nat) (s : sys) : option sys :=
  p ← cores s !! me;
  '(p', d) ← bakery_lock_step v N (lock_data s) me p;
  Some (Sys d (<[me := p']> (cores s))).
Fixpoint exec (sched : list nat) (s : sys) : option sys :=
  match sched with
  | [] => Some s
  | me :: sched => s ← core_step me s; exec sched s
  end.

(** The calls of [bakery_lock_get] in a schedule. *)
Definition is_call (me : nat) (s : sys) : nat := if decide (cores s !! me = Some Out) then 1 else 0.
Fixpoint calls (sched : list nat) (s : sys) : nat :=
  match sched with
  | [] => 0
  | me :: sched => is_call me s + match core_step me s with Some s => calls sched s | None => 0 end
  end.
End sys.
End Bakery.
