(* ===== verification/BakeryProps.v ===== *)
(** * The bakery lock: mutual exclusion, progress and order

    A ticket has 15 bits and is one more than the largest seen, so everything here is for
    executions with at most 32767 calls of [bakery_lock_get]; every execution that follows a
    moment at which nobody used the lock counts afresh, since that state is the initial
    one.  [inv] is the invariant: a core that has passed another's entry comes before
    it, whatever the other does next. *)

From Stdlib Require Import ZArith Lia.
From stdpp Require Import base option list numbers relations.
From S2P Require Import Prelude Bakery.
Import Bakery.
Open Scope Z_scope.

#[local] Arguments Nat.ltb : simpl never.

Module BakeryProps.

(** ** Words of the lock *)
Definition MAX_TICKET : Z := 0x7FFF.

Lemma make_choosing : make_bakery_data CHOOSING_TICKET 0 = 1.
Proof. done. Qed.
Lemma make_chosen t : 0 <= t <= MAX_TICKET -> make_bakery_data CHOSEN_TICKET t = 2 * t.
Proof.
  unfold MAX_TICKET. intros Ht. unfold make_bakery_data, CHOSEN_TICKET. change (Z.land 0 1) with 0. rewrite Z.lor_0_l.
  change 65535 with (Z.ones 16). rewrite Z.land_ones, Z.shiftl_mul_pow2 by lia.
  rewrite wrap_small by (cbn; lia). rewrite Z.mod_small; cbn; lia.
Qed.
Lemma ticket_chosen t : 0 <= t <= MAX_TICKET -> bakery_ticket_number (make_bakery_data CHOSEN_TICKET t) = t.
Proof.
  intros Ht. rewrite make_chosen by done. unfold bakery_ticket_number, MAX_TICKET in *. change 32767 with (Z.ones 15).
  rewrite Z.land_ones, Z.shiftr_div_pow2 by lia. change (2 ^ 1) with 2. rewrite (Z.mul_comm 2), Z.div_mul by done.
  apply Z.mod_small. cbn. lia.
Qed.
Lemma not_choosing t : 0 <= t <= MAX_TICKET -> bakery_is_choosing (make_bakery_data CHOSEN_TICKET t) = 0.
Proof.
  intros Ht. rewrite make_chosen by done. unfold bakery_is_choosing. change 1 with (Z.ones 1). rewrite Z.land_ones by done.
  rewrite Z.mul_comm. apply Z.mod_mul. done.
Qed.
Lemma PRIORITY_eq t pos : 0 <= t <= 0x8000 -> 0 <= pos < 256 -> PRIORITY t pos = 256 * t + pos.
Proof.
  intros Ht Hp. unfold PRIORITY. rewrite wrap_small by (rewrite Z.shiftl_mul_pow2 by lia; lia).
  assert (Z.land (Z.shiftl t 8) pos = 0) as E.
  { apply Z.bits_inj'. intros n Hn. rewrite Z.land_spec, Z.bits_0. destruct (Z_lt_le_dec n 8).
    - by rewrite Z.shiftl_spec_low.
    - rewrite <- (Z.mod_small pos (2 ^ 8)) by lia. by rewrite Z.mod_pow2_bits_high, andb_false_r by lia. }
  pose proof (Z.add_nocarry_lxor _ _ E) as E'. pose proof (Z.lxor_lor _ _ E) as E''.
  rewrite <- E'', <- E', Z.shiftl_mul_pow2 by lia. lia.
Qed.

(** The order of contenders. *)
Definition prec (t : Z) (i : nat) (t' : Z) (j : nat) : Prop := t < t' \/ t = t' /\ (i < j)%nat.
Lemma PRIORITY_prec t i t' j : 0 <= t <= 0x8000 -> 0 <= t' <= 0x8000 -> (i < 256)%nat -> (j < 256)%nat ->
  PRIORITY t (Z.of_nat i) < PRIORITY t' (Z.of_nat j) <-> prec t i t' j.
Proof. intros. rewrite !PRIORITY_eq by lia. unfold prec. lia. Qed.

(** ** Sums over the cores *)
Lemma sum_list_insert {A} (f : A -> nat) (l : list A) i x y : l !! i = Some y ->
  (sum_list (f <$> <[i := x]> l) + f y = sum_list (f <$> l) + f x)%nat.
Proof.
  revert i. induction l as [|z l IH]; intros [|i]; [done|done| |].
  - intros [= ->]. simpl. lia.
  - intros Hi. specialize (IH i Hi). unfold fmap in *. simpl. lia.
Qed.

(** ** The invariant *)
Definition ticket_of (p : pc) : option Z :=
  match p with
  | Out | Choosing _ _ => None
  | Waiting _ t | Blocked _ t _ | Held t => Some t
  end.
Definition published (p : pc) : Z :=
  match p with
  | Out => 0
  | Choosing _ _ => 1
  | Waiting _ t | Blocked _ t _ | Held t => make_bakery_data CHOSEN_TICKET t
  end.
(** Core [i] has looked at the entry of core [j] and need not wait for it. *)
Definition passed (p : pc) (j : nat) : Prop :=
  match p with
  | Waiting they _ | Blocked they _ _ => (j < they)%nat
  | Held _ => True
  | _ => False
  end.
(** Core [j], at [q], comes after core [i] with ticket [t]: it has the larger ticket, or
    will have when it has chosen. *)
Definition behind (i : nat) (t : Z) (j : nat) (q : pc) : Prop :=
  match q with
  | Out => True
  | Choosing they m => (they <= i)%nat \/ t <= m
  | Waiting _ t' | Blocked _ t' _ | Held t' => prec t i t' j
  end.

(** A lock as its users see it: free or held by a core. *)
Inductive lock_step (i : nat) : option nat -> option nat -> Prop :=
| lk_acquire : lock_step i None (Some i)
| lk_release : lock_step i (Some i) None
| lk_other o : lock_step i o o.
Inductive lock_run : list nat -> option nat -> option nat -> Prop :=
| run_nil o : lock_run [] o o
| run_cons i sched o1 o2 o3 : lock_step i o1 o2 -> lock_run sched o2 o3 -> lock_run (i :: sched) o1 o3.

Section bakery.
Context (v : variant) (N : nat).
Implicit Types (s : sys) (p q : pc) (c : Z).

Definition pc_ok c (i : nat) p : Prop :=
  match p with
  | Out => True
  | Choosing _ m => 0 <= m <= c
  | Waiting they t => (they < N)%nat /\ they <> i /\ 1 <= t <= c
  | Blocked they t t' => (they < N)%nat /\ they <> i /\ 1 <= t <= c /\ 1 <= t' /\ prec t' they t i
  | Held t => 1 <= t <= c
  end.

(** [c] bounds the tickets given so far. *)
Record inv c s : Prop := {
  inv_nonneg : 0 <= c;
  inv_length : length (lock_data s) = N /\ length (cores s) = N;
  inv_data : forall i p, cores s !! i = Some p -> lock_data s !! i = Some (published p);
  inv_pc : forall i p, cores s !! i = Some p -> pc_ok c i p;
  inv_passed : forall i j p q t, i <> j -> cores s !! i = Some p -> cores s !! j = Some q ->
    ticket_of p = Some t -> passed p j -> behind i t j q;
  inv_blocked : forall i j q t t', cores s !! i = Some (Blocked j t t') -> cores s !! j = Some q ->
    ticket_of q = Some t' \/ behind i t j q
}.

Lemma pc_ok_mono c c' i p : c <= c' -> pc_ok c i p -> pc_ok c' i p.
Proof. destruct p; cbn; lia || (intros; intuition lia). Qed.
Lemma ticket_ok c i p t : pc_ok c i p -> ticket_of p = Some t -> 1 <= t <= c.
Proof. destruct p; cbn; intros; simplify_eq; intuition lia. Qed.
Lemma behind_antisym c i t j q t' : pc_ok c j q -> ticket_of q = Some t' -> behind i t j q -> ~ prec t' j t i.
Proof. destruct q; cbn; intros; simplify_eq; unfold prec in *; lia. Qed.

(** What a read of another core's word shows. *)
Lemma read_ticket c i p : c <= MAX_TICKET -> pc_ok c i p ->
  bakery_ticket_number (published p) = default 0 (ticket_of p).
Proof. intros Hc Hp. destruct p; cbn; try done; apply ticket_chosen; cbn in Hp; lia. Qed.
Lemma read_choosing c i p : c <= MAX_TICKET -> pc_ok c i p ->
  (exists they m, p = Choosing they m) /\ bakery_is_choosing (published p) = 1 \/
  (forall they m, p <> Choosing they m) /\ bakery_is_choosing (published p) = 0.
Proof.
  intros Hc Hp. destruct p as [|they m| | |]; [right; done|left; by eauto|..]; right; (split; [done|]);
    cbn in Hp |- *; rewrite not_choosing; done || lia.
Qed.

(** The tickets given by a step, and the steps a core has left before it is outside. *)
Definition issue p : Z := match p with Choosing they _ => if (they <? N)%nat then 0 else 1 | _ => 0 end.
Definition work p : nat :=
  match p with
  | Out => 0
  | Choosing they _ => 2 * N + 2 + (N - they)
  | Waiting they _ => 2 * (N - they) + 1
  | Blocked they _ _ => 2 * (N - they)
  | Held _ => 1
  end.

(** Core [i] moves from [p] to [p']: what that means for the others and for itself. *)
Record move c s (i : nat) p p' : Prop := {
  mv_ok : pc_ok (c + issue p) i p';
  mv_behind : forall j q t, j <> i -> cores s !! j = Some q -> ticket_of q = Some t -> behind j t i p -> behind j t i p';
  mv_ticket : forall t, ticket_of p = Some t -> ticket_of p' = Some t \/ p' = Out /\ p = Held t;
  mv_passed : forall j q t, j <> i -> cores s !! j = Some q -> ticket_of p' = Some t -> passed p' j -> behind i t j q;
  mv_blocked : forall j q t t', cores s !! j = Some q -> p' = Blocked j t t' -> ticket_of q = Some t' \/ behind i t j q;
  mv_work : p' = p \/ p = Out \/ (work p' < work p)%nat;
  mv_issue : issue p = 1 -> is_Some (ticket_of p')
}.

Lemma inv_move c s i p p' : inv c s -> cores s !! i = Some p -> move c s i p p' ->
  inv (c + issue p) (Sys (<[i := published p']> (lock_data s)) (<[i := p']> (cores s))).
Proof.
  intros I Hi M. destruct (inv_length _ _ I) as [L1 L2]. pose proof (lookup_lt_Some _ _ _ Hi) as Hlt.
  assert (0 <= issue p) as Hc by (unfold issue; destruct p as [|they ?| | |]; try lia; destruct (they <? N)%nat; lia).
  constructor; cbn [lock_data cores].
  - pose proof (inv_nonneg _ _ I). lia.
  - by rewrite !length_insert.
  - intros j q [(-> & <- & _)|(Hne & Hq)]%list_lookup_insert_Some.
    + apply list_lookup_insert_eq. lia.
    + rewrite list_lookup_insert_ne by done. by apply (inv_data _ _ I).
  - intros j q [(-> & <- & _)|(Hne & Hq)]%list_lookup_insert_Some; [by apply (mv_ok _ _ _ _ _ M)|].
    eapply pc_ok_mono; [|by apply (inv_pc _ _ I)]. lia.
  - intros j k q r t Hjk [(-> & <- & _)|(Hne & Hq)]%list_lookup_insert_Some
      [(-> & <- & _)|(Hne' & Hr)]%list_lookup_insert_Some Ht Hp; [done|by eapply (mv_passed _ _ _ _ _ M)| |].
    + eapply (mv_behind _ _ _ _ _ M); [done|done|done|]. by eapply (inv_passed _ _ I).
    + by eapply (inv_passed _ _ I).
  - intros j k r t t' [(-> & -> & _)|(Hne & Hq)]%list_lookup_insert_Some
      [(-> & <- & _)|(Hne' & Hr)]%list_lookup_insert_Some.
    + pose proof (mv_ok _ _ _ _ _ M) as Hok. cbn in Hok. intuition.
    + by eapply (mv_blocked _ _ _ _ _ M).
    + destruct (inv_blocked _ _ I _ _ _ _ _ Hq Hi) as [E|B].
      * destruct (mv_ticket _ _ _ _ _ M _ E) as [E'|[-> _]]; [by left|by right].
      * right. by eapply (mv_behind _ _ _ _ _ M).
    + by eapply (inv_blocked _ _ I).
Qed.

(** ** The loop heads *)
Lemma get_loop_cases i k t :
  (exists they, get_loop N i k t = Waiting they t /\ (k <= they < N)%nat /\ they <> i /\ (they = k \/ k = i /\ they = S k)) \/
  get_loop N i k t = Held t /\ ((N <= k)%nat \/ k = i /\ S k = N).
Proof.
  unfold get_loop. destruct (Nat.eqb_spec i k) as [->|]; [destruct (Nat.ltb_spec (S k) N)|destruct (Nat.ltb_spec k N)].
  - left. exists (S k). intuition lia.
  - right. split; [done|lia].
  - left. exists k. intuition lia.
  - right. split; [done|lia].
Qed.
Lemma get_loop_ticket i k t : ticket_of (get_loop N i k t) = Some t.
Proof. destruct (get_loop_cases i k t) as [(they & -> & _)|[-> _]]; done. Qed.
Lemma get_loop_published i k t : published (get_loop N i k t) = make_bakery_data CHOSEN_TICKET t.
Proof. destruct (get_loop_cases i k t) as [(they & -> & _)|[-> _]]; done. Qed.
Lemma get_loop_ok c i k t : 1 <= t <= c -> pc_ok c i (get_loop N i k t).
Proof. intros Ht. destruct (get_loop_cases i k t) as [(they & -> & ?)|[-> _]]; cbn; intuition lia. Qed.
Lemma get_loop_work i k t : (work (get_loop N i k t) <= 2 * (N - k) + 1)%nat.
Proof. destruct (get_loop_cases i k t) as [(they & -> & ?)|[-> _]]; cbn; lia. Qed.
Lemma get_loop_passed i k t j : (j < N)%nat -> j <> i -> passed (get_loop N i k t) j -> (j < k)%nat.
Proof. destruct (get_loop_cases i k t) as [(they & -> & ?)|[-> ?]]; cbn; lia. Qed.
Lemma get_loop_behind i k t j t' : prec t' j t i -> behind j t' i (get_loop N i k t).
Proof. destruct (get_loop_cases i k t) as [(they & -> & _)|[-> _]]; done. Qed.

Lemma ticket_loop_cases i k m : exists they, ticket_loop v i k m = Choosing they m /\
  (they = k \/ k = i /\ they = S k).
Proof. unfold ticket_loop. destruct v; [by eauto|]. destruct (Nat.eqb_spec k i); eauto. Qed.

(** ** Each access is a move *)
Context (HN : (N <= 256)%nat).

(** The access is defined, writes the word that goes with the new position, and moves. *)
Definition steps c s (i : nat) p : Prop := exists p',
  bakery_lock_step v N (lock_data s) i p = Some (p', <[i := published p']> (lock_data s)) /\ move c s i p p'.

Lemma unwritten c s i p p' : inv c s -> cores s !! i = Some p -> published p' = published p ->
  <[i := published p']> (lock_data s) = lock_data s.
Proof. intros I Hi ->. apply list_insert_id. by apply (inv_data _ _ I). Qed.
Lemma read_word c s j : inv c s -> (j < N)%nat -> exists q, cores s !! j = Some q /\ lock_data s !! j = Some (published q) /\ pc_ok c j q.
Proof.
  intros I Hj. destruct (inv_length _ _ I) as [_ L]. destruct (lookup_lt_is_Some_2 (cores s) j) as [q Hq]; [lia|].
  exists q. split; [done|]. split; [by apply (inv_data _ _ I)|by apply (inv_pc _ _ I)].
Qed.

Lemma out_steps c s i : inv c s -> cores s !! i = Some Out -> steps c s i Out.
Proof.
  intros I Hi. destruct (ticket_loop_cases i 0 0) as (they & E & Hthey). exists (Choosing they 0). split.
  - cbn. unfold bakery_get_ticket. rewrite (inv_data _ _ I _ _ Hi). cbn. by rewrite E.
  - constructor; cbn; try done; [pose proof (inv_nonneg _ _ I); lia| |by auto]. intros j q t ? _ _ _. left. lia.
Qed.
Lemma choosing_steps c s i they m : inv c s -> cores s !! i = Some (Choosing they m) -> (they < N)%nat -> c <= MAX_TICKET ->
  steps c s i (Choosing they m).
Proof.
  intros I Hi Hthey Hc. destruct (read_word _ _ they I Hthey) as (q & Hq & Hd & Hok).
  pose proof (read_ticket _ _ _ Hc Hok) as Ht. pose proof (inv_pc _ _ I _ _ Hi) as Hm. cbn in Hm.
  set (m' := if m <? default 0 (ticket_of q) then default 0 (ticket_of q) else m).
  assert (m <= m' <= c /\ default 0 (ticket_of q) <= m') as Hm'.
  { destruct (ticket_of q) as [t|] eqn:E; [pose proof (ticket_ok _ _ _ _ Hok E)|]; subst m'; cbn; cases_bool; lia. }
  destruct (ticket_loop_cases i (S they) m') as (they' & E & Hthey'). exists (Choosing they' m').
  split.
  - rewrite (unwritten _ _ _ _ _ I Hi) by done. cbn. destruct (Nat.ltb_spec they N); [|lia].
    unfold bakery_get_ticket_round. rewrite Hd. cbn. rewrite Ht. fold m'. by rewrite E.
  - constructor; cbn; try done.
    + destruct (Nat.ltb_spec they N); lia.
    + intros j r t Hne Hj Hr [Hle|Hle]; [|right; lia]. destruct (decide (j = they)) as [->|]; [|left; lia].
      simplify_eq. rewrite Hr in Hm'. cbn in Hm'. right. lia.
    + right. right. lia.
    + destruct (Nat.ltb_spec they N); lia.
Qed.
Lemma done_steps c s i they m : inv c s -> cores s !! i = Some (Choosing they m) -> (N <= they)%nat -> c < MAX_TICKET ->
  steps c s i (Choosing they m).
Proof.
  intros I Hi Hthey Hc. pose proof (inv_pc _ _ I _ _ Hi) as Hm. cbn in Hm. unfold MAX_TICKET in Hc. exists (get_loop N i 0 (m + 1)).
  assert ((they <? N)%nat = false) as El by (by apply Nat.ltb_ge). split.
  - cbn. rewrite El. unfold bakery_get_ticket_done. rewrite wrap_small by lia. by rewrite get_loop_published.
  - constructor.
    + apply get_loop_ok. cbn. rewrite El. lia.
    + intros j q t _ Hq _ B. apply get_loop_behind. cbn in B. apply lookup_lt_Some in Hq.
      destruct (inv_length _ _ I) as [_ L]. left. lia.
    + done.
    + intros j q t Hne Hq _ Hp. apply get_loop_passed in Hp; [lia| |done]. apply lookup_lt_Some in Hq.
      destruct (inv_length _ _ I) as [_ L]. lia.
    + intros j q t t' _ E. pose proof (get_loop_cases i 0 (m + 1)) as [(? & E' & _)|[E' _]]; congruence.
    + right. right. pose proof (get_loop_work i 0 (m + 1)). cbn. lia.
    + rewrite get_loop_ticket. by eauto.
Qed.

(** Core [i] goes on to the next entry. *)
Lemma next_move c s i p they t : inv c s -> cores s !! i = Some p -> ticket_of p = Some t -> issue p = 0 -> 1 <= t <= c ->
  (2 * (N - they) <= work p)%nat -> (they < N)%nat ->
  (forall j q, j <> i -> cores s !! j = Some q -> (j <= they)%nat -> behind i t j q) ->
  move c s i p (get_loop N i (S they) t).
Proof.
  intros I Hi Ht H0 Hc Hw Hthey Hb. rewrite <- (Z.add_0_r c), <- H0 in Hc. constructor.
  - by apply get_loop_ok.
  - intros j q t' _ _ _ B. apply get_loop_behind. destruct p; cbn in *; by simplify_eq.
  - intros t' Ht'. left. rewrite get_loop_ticket. congruence.
  - intros j q t' Hne Hq Ht' Hp. rewrite get_loop_ticket in Ht'. simplify_eq. apply (Hb j q); [done|done|].
    apply get_loop_passed in Hp; [lia| |done]. apply lookup_lt_Some in Hq. destruct (inv_length _ _ I) as [_ L]. lia.
  - intros j q t1 t' _ E. pose proof (get_loop_cases i (S they) t) as [(? & E' & _)|[E' _]]; congruence.
  - right. right. pose proof (get_loop_work i (S they) t). lia.
  - lia.
Qed.
Lemma waiting_steps c s i they t : inv c s -> cores s !! i = Some (Waiting they t) -> c <= MAX_TICKET ->
  steps c s i (Waiting they t).
Proof.
  intros I Hi Hc. pose proof (inv_pc _ _ I _ _ Hi) as (Hthey & Hne & Ht). destruct (inv_length _ _ I) as [_ L].
  pose proof (lookup_lt_Some _ _ _ Hi) as Hlt. destruct (read_word _ _ they I Hthey) as (q & Hq & Hd & Hok).
  unfold steps. cbn. unfold bakery_lock_get_wait. rewrite Hd. cbn.
  destruct (read_choosing _ _ _ Hc Hok) as [(_ & ->)|(Hnc & ->)]; cbn.
  { exists (Waiting they t). split; [by rewrite (unwritten _ _ _ _ _ I Hi) by done|].
    constructor; cbn; try done; [by rewrite Z.add_0_r|by auto| |by auto]. intros j r t' Hj Hr [= <-] Hp.
    by eapply (inv_passed _ _ I i j). }
  assert (forall j r, j <> i -> cores s !! j = Some r -> (j < they)%nat -> behind i t j r) as Hpass.
  { intros j r Hj Hr Hlt'. by eapply (inv_passed _ _ I i j). }
  rewrite (read_ticket _ _ _ Hc Hok). destruct (ticket_of q) as [t'|] eqn:Eq; cbn.
  - pose proof (ticket_ok _ _ _ _ Hok Eq) as Ht'. destruct (Z.eqb_spec t' 0); [lia|]. cbn. unfold MAX_TICKET in Hc.
    destruct (Z.ltb_spec (PRIORITY t' (Z.of_nat they)) (PRIORITY t (Z.of_nat i))) as [Hp|Hp].
    + apply PRIORITY_prec in Hp; [|lia..]. exists (Blocked they t t').
      split; [by rewrite (unwritten _ _ _ _ _ I Hi) by done|].
      constructor; cbn; try done; [by rewrite Z.add_0_r; intuition lia|by auto| | |lia].
      * intros j r t1 Hj Hr [= <-] Hp1. by apply Hpass.
      * intros j r t1 t2 Hr [= -> <- <-]. left. congruence.
    + exists (get_loop N i (S they) t). split; [rewrite (unwritten _ _ _ _ _ I Hi); [done|by rewrite get_loop_published]|].
      apply next_move; cbn; try done; [lia|]. intros j r Hj Hr Hle. destruct (decide (j = they)) as [->|]; [|apply Hpass; done || lia].
      assert (r = q) as -> by congruence. assert (prec t i t' they) as Hpr.
      { assert (~ prec t' they t i) as Hn by (rewrite <- PRIORITY_prec by lia; lia). unfold prec in *. lia. }
      destruct q; cbn in *; by simplify_eq.
  - exists (get_loop N i (S they) t). split; [rewrite (unwritten _ _ _ _ _ I Hi); [done|by rewrite get_loop_published]|].
    apply next_move; cbn; try done; [lia|]. intros j r Hj Hr Hle. destruct (decide (j = they)) as [->|]; [|apply Hpass; done || lia].
    assert (r = q) as -> by congruence. destruct q; cbn in *; try done. by destruct (Hnc they0 my_ticket).
Qed.
Lemma blocked_steps c s i they t t' : inv c s -> cores s !! i = Some (Blocked they t t') -> c <= MAX_TICKET ->
  steps c s i (Blocked they t t').
Proof.
  intros I Hi Hc. pose proof (inv_pc _ _ I _ _ Hi) as (Hthey & Hne & Ht & Ht' & Hp).
  destruct (read_word _ _ they I Hthey) as (q & Hq & Hd & Hok).
  unfold steps. cbn. unfold bakery_lock_get_blocked. rewrite Hd. cbn. rewrite (read_ticket _ _ _ Hc Hok).
  assert (forall j r, j <> i -> cores s !! j = Some r -> (j < they)%nat -> behind i t j r) as Hpass.
  { intros j r Hj Hr Hlt'. by eapply (inv_passed _ _ I i j). }
  destruct (Z.eqb_spec t' (default 0 (ticket_of q))) as [E|E].
  - exists (Blocked they t t'). split; [by rewrite (unwritten _ _ _ _ _ I Hi) by done|].
    constructor; cbn; try done; [by rewrite Z.add_0_r|by auto| | |by auto].
    + intros j r t1 Hj Hr [= <-] Hp1. by apply Hpass.
    + intros j r t1 t2 Hr [= -> <- <-]. by eapply (inv_blocked _ _ I i).
  - exists (get_loop N i (S they) t). split; [rewrite (unwritten _ _ _ _ _ I Hi); [done|by rewrite get_loop_published]|].
    apply next_move; cbn; try done. intros j r Hj Hr Hle. destruct (decide (j = they)) as [->|]; [|apply Hpass; done || lia].
    assert (r = q) as -> by congruence. destruct (inv_blocked _ _ I _ _ _ _ _ Hi Hq) as [E'|]; [|done]. by rewrite E' in E.
Qed.
Lemma held_steps c s i t : inv c s -> cores s !! i = Some (Held t) -> c <= MAX_TICKET -> steps c s i (Held t).
Proof.
  intros I Hi Hc. pose proof (inv_pc _ _ I _ _ Hi) as Ht. cbn in Ht. exists Out. split.
  - cbn. unfold bakery_lock_release. rewrite (inv_data _ _ I _ _ Hi). cbn. rewrite ticket_chosen by lia.
    destruct (Z.eqb_spec t 0); [lia|done].
  - constructor; cbn; try done; [|right; right; lia]. intros t' [= ->]. by right.
Qed.

Lemma core_steps c s i p : inv c s -> cores s !! i = Some p -> c + issue p <= MAX_TICKET -> steps c s i p.
Proof.
  intros I Hi Hc. destruct p as [|they m|they t|they t t'|t]; cbn in Hc; rewrite ?Z.add_0_r in Hc.
  - by apply out_steps.
  - destruct (Nat.ltb_spec they N); [apply choosing_steps|apply done_steps]; done || lia.
  - by apply waiting_steps.
  - by apply blocked_steps.
  - by apply held_steps.
Qed.
Lemma core_step_inv c s i p : inv c s -> cores s !! i = Some p -> c + issue p <= MAX_TICKET ->
  exists p' d, core_step v N i s = Some (Sys d (<[i := p']> (cores s))) /\ move c s i p p' /\
    inv (c + issue p) (Sys d (<[i := p']> (cores s))).
Proof.
  intros I Hi Hc. destruct (core_steps c s i p I Hi Hc) as (p' & E & M). eexists p', _. split.
  - unfold core_step. rewrite Hi. cbn. by rewrite E.
  - split; [done|]. by apply inv_move.
Qed.

(** ** Executions *)
Definition in_doorway p : nat := match p with Choosing _ _ => 1 | _ => 0 end.
Definition doorway s : nat := sum_list (in_doorway <$> cores s).
Definition total s : nat := sum_list (work <$> cores s).

(** After [k] calls of [bakery_lock_get]. *)
Definition binv (k : Z) s : Prop := exists c, inv c s /\ c + Z.of_nat (doorway s) <= k.

Lemma inv_init : inv 0 (bakery_init N).
Proof.
  constructor; cbn.
  - done.
  - by rewrite !length_replicate.
  - intros i p [-> Hi]%lookup_replicate. by apply lookup_replicate.
  - by intros i p [-> Hi]%lookup_replicate.
  - intros i j p q t _ _ [-> _]%lookup_replicate. done.
  - intros i j q t t' [? _]%lookup_replicate. done.
Qed.
Lemma binv_init : binv 0 (bakery_init N).
Proof.
  exists 0. split; [by apply inv_init|]. unfold doorway. cbn. induction N as [|n IH]; [done|]. cbn. apply IH. lia.
Qed.

Lemma core_step_binv k s i : binv k s -> (i < N)%nat -> k + Z.of_nat (is_call i s) <= MAX_TICKET ->
  exists p p' d c, inv c s /\ cores s !! i = Some p /\ core_step v N i s = Some (Sys d (<[i := p']> (cores s))) /\ move c s i p p' /\
    binv (k + Z.of_nat (is_call i s)) (Sys d (<[i := p']> (cores s))).
Proof.
  intros (c & I & Hc) Hlt Hk. destruct (read_word _ _ i I Hlt) as (p & Hi & _).
  unfold is_call in *. pose proof (fun p' => sum_list_insert in_doorway _ _ p' _ Hi) as Hs.
  assert (issue p <= Z.of_nat (in_doorway p) /\ 0 <= issue p /\ (p = Out -> issue p = 0)) as (Hp1 & Hp2 & Hp3).
  { destruct p as [|they ?| | |]; cbn; try done. destruct (they <? N)%nat; done. }
  assert (in_doorway p <= doorway s)%nat as Hd.
  { specialize (Hs Out). cbn in Hs. unfold doorway. lia. }
  destruct (core_step_inv c s i p I Hi) as (p' & d & E & M & I').
  { destruct (decide _); lia. }
  exists p, p', d, c. split; [done|]. split; [done|]. split; [done|]. split; [done|].
  exists (c + issue p). split; [done|]. unfold doorway in *. cbn. specialize (Hs p').
  assert (issue p + Z.of_nat (in_doorway p') <= Z.of_nat (in_doorway p) + Z.of_nat (if decide (cores s !! i = Some Out) then 1 else 0)); [|lia].
  assert (in_doorway p' <= 1)%nat by (destruct p'; cbn; lia).
  destruct (decide (cores s !! i = Some Out)) as [E0|Hne]; [rewrite Hp3 by congruence; lia|].
  destruct (decide (issue p = 1)) as [E1|E1].
  { destruct (mv_issue _ _ _ _ _ M E1) as [t Ht]. assert (in_doorway p' = 0)%nat as -> by (destruct p'; done). lia. }
  assert (issue p = 0) as E0 by (destruct p; cbn in *; lia). rewrite E0.
  destruct p as [|they m|they t|they t t'|t]; [done|cbn; lia|..];
    destruct (mv_ticket _ _ _ _ _ M t eq_refl) as [Ht|[-> _]]; try (cbn; lia); destruct p'; cbn; done || lia.
Qed.

Lemma exec_binv k sched s : binv k s -> Forall (fun i => i < N)%nat sched -> k + Z.of_nat (calls v N sched s) <= MAX_TICKET ->
  exists s', exec v N sched s = Some s' /\ binv (k + Z.of_nat (calls v N sched s)) s'.
Proof.
  intros I Hf. revert k s I. induction Hf as [|i sched Hi _ IH]; intros k s I Hk; cbn in *.
  { exists s. split; [done|]. by rewrite Z.add_0_r. }
  destruct (core_step_binv k s i I Hi) as (p & p' & d & c & _ & _ & E & _ & I'); [lia|].
  rewrite E in *. cbn in *. destruct (IH _ _ I') as (s' & E' & I''); [lia|]. exists s'. split; [done|].
  by rewrite Nat2Z.inj_add, Z.add_assoc.
Qed.

(** ** The abstract lock *)
Definition holds s (i : nat) : Prop := exists t, cores s !! i = Some (Held t).
Definition held_by s (o : option nat) : Prop := forall i, holds s i <-> o = Some i.

Lemma inv_exclusive c s i j : inv c s -> holds s i -> holds s j -> i = j.
Proof.
  intros I [t Hi] [t' Hj]. destruct (decide (i = j)) as [|Hne]; [done|].
  pose proof (inv_passed _ _ I i j _ _ t Hne Hi Hj eq_refl Logic.I) as B1.
  pose proof (inv_passed _ _ I j i _ _ t' (not_eq_sym Hne) Hj Hi eq_refl Logic.I) as B2.
  cbn in B1, B2. unfold prec in *. lia.
Qed.
Lemma held_by_step c s d o i p p' : inv c (Sys d (<[i := p']> (cores s))) -> cores s !! i = Some p -> held_by s o ->
  exists o', lock_step i o o' /\ held_by (Sys d (<[i := p']> (cores s))) o'.
Proof.
  intros I Hi Ho. pose proof (lookup_lt_Some _ _ _ Hi) as Hlt.
  assert (forall j, j <> i -> holds (Sys d (<[i := p']> (cores s))) j <-> holds s j) as Hoth.
  { intros j Hne. unfold holds. cbn. by rewrite list_lookup_insert_ne by done. }
  assert (holds s i <-> exists t, p = Held t) as Hp by (unfold holds; rewrite Hi; split; intros [t ?]; exists t; congruence).
  assert (holds (Sys d (<[i := p']> (cores s))) i <-> exists t, p' = Held t) as Hp'.
  { unfold holds. cbn. rewrite list_lookup_insert_eq by done. split; intros [t ?]; exists t; congruence. }
  assert (forall p, Decision (exists t, p = Held t)) as D by (intros [| | | |]; (right; by intros [? ?]) || (left; by eauto)).
  destruct (D p) as [H1|H1], (D p') as [H2|H2].
  - exists o. split; [constructor|]. intros j. destruct (decide (j = i)) as [->|]; [|by rewrite Hoth]. rewrite <- (Ho i). tauto.
  - apply Hp, Ho in H1 as ->. exists None. split; [constructor|]. intros j. destruct (decide (j = i)) as [->|]; [|rewrite Hoth, (Ho j) by done]; intuition congruence.
  - assert (o = None) as ->.
    { destruct o as [j|]; [|done]. assert (holds s j) as Hj by (by apply Ho). destruct (decide (j = i)) as [->|Hne]; [tauto|].
      exfalso. apply Hne. eapply (inv_exclusive _ _ _ _ I); [by apply Hoth|by apply Hp']. }
    exists (Some i). split; [constructor|]. intros j. destruct (decide (j = i)) as [->|]; [tauto|].
    rewrite Hoth, (Ho j) by done. intuition congruence.
  - exists o. split; [constructor|]. intros j. destruct (decide (j = i)) as [->|]; [|by rewrite Hoth]. rewrite <- (Ho i). tauto.
Qed.

Lemma exec_refines k sched s o : binv k s -> held_by s o -> Forall (fun i => i < N)%nat sched ->
  k + Z.of_nat (calls v N sched s) <= MAX_TICKET ->
  exists s' o', exec v N sched s = Some s' /\ lock_run sched o o' /\ held_by s' o'.
Proof.
  intros I Ho Hf. revert k s o I Ho. induction Hf as [|i sched Hi _ IH]; intros k s o I Ho Hk; cbn in *.
  { exists s, o. split; [done|]. split; [constructor|done]. }
  destruct (core_step_binv k s i I Hi) as (p & p' & d & c & _ & Hp & E & _ & I'); [lia|].
  rewrite E in *. cbn in *. destruct I' as (c' & I1 & I2). destruct (held_by_step _ _ _ _ _ _ _ I1 Hp Ho) as (o1 & H1 & Ho1).
  destruct (IH _ _ _ (ex_intro _ c' (conj I1 I2)) Ho1) as (s' & o' & E' & Hr & Ho'); [lia|].
  exists s', o'. split; [done|]. split; [by econstructor|done].
Qed.

(** ** Progress *)
Definition advance s s' : Prop := exists i p, cores s !! i = Some p /\ p <> Out /\ core_step v N i s = Some s' /\ cores s' <> cores s.

Lemma advance_total k s s' : k <= MAX_TICKET -> binv k s -> advance s s' -> binv k s' /\ (total s' < total s)%nat.
Proof.
  intros Hk I (i & p & Hi & Hne & E & Hch). destruct I as (c0 & I0 & Hc0). destruct (inv_length _ _ I0) as [_ L].
  pose proof (lookup_lt_Some _ _ _ Hi) as Hlt. rewrite L in Hlt.
  assert (is_call i s = 0)%nat as H0 by (unfold is_call; rewrite decide_False; congruence).
  destruct (core_step_binv k s i (ex_intro _ c0 (conj I0 Hc0)) Hlt) as (p0 & p' & d & c & _ & Hp & E' & M & I').
  { rewrite H0. lia. }
  rewrite H0, Z.add_0_r in I'. simplify_eq. split; [done|]. unfold total. cbn.
  pose proof (sum_list_insert work _ _ p' _ Hi). destruct (mv_work _ _ _ _ _ M) as [->|[->|]]; [|done|lia].
  destruct Hch. cbn. by apply list_insert_id.
Qed.

Lemma advances c s i p : inv c s -> c + issue p <= MAX_TICKET -> cores s !! i = Some p -> p <> Out ->
  (exists s', advance s s') \/ bakery_lock_step v N (lock_data s) i p = Some (p, lock_data s).
Proof.
  intros I Hc Hi Hne. destruct (core_steps c s i p I Hi Hc) as (p' & E & M). destruct (decide (p' = p)) as [->|Hch].
  - right. rewrite E. by rewrite (unwritten _ _ _ _ _ I Hi).
  - left. eexists. exists i, p. split; [done|]. split; [done|]. split.
    + unfold core_step. rewrite Hi. cbn. by rewrite E.
    + cbn. intros E'. apply (f_equal (.!! i)) in E'. rewrite list_lookup_insert_eq in E' by (by eapply lookup_lt_Some). congruence.
Qed.

(** A core that spins waits for one that has not chosen yet or that comes before it. *)
Lemma spins_on c s i p : inv c s -> c <= MAX_TICKET -> cores s !! i = Some p -> p <> Out ->
  bakery_lock_step v N (lock_data s) i p = Some (p, lock_data s) ->
  exists j q t, cores s !! j = Some q /\ ticket_of p = Some t /\
    (in_doorway q = 1%nat \/ exists t', ticket_of q = Some t' /\ prec t' j t i).
Proof.
  intros I Hc Hi Hne E. pose proof (inv_pc _ _ I _ _ Hi) as Hok. destruct p as [|they m|they t|they t t'|t]; cbn in *.
  - done.
  - exfalso. destruct (they <? N)%nat eqn:El.
    + apply Nat.ltb_lt in El. unfold bakery_get_ticket_round in E. destruct (_ !! they) as [w|]; cbn in E; [|done].
      destruct (ticket_loop_cases i (S they) (if m <? bakery_ticket_number w then bakery_ticket_number w else m)) as (they' & E' & ?).
      rewrite E' in E. simplify_eq. lia.
    + unfold bakery_get_ticket_done in E. pose proof (get_loop_ticket i 0 (u32 (m + 1))) as Ht.
      injection E as E _. by rewrite E in Ht.
  - destruct Hok as (Hthey & Hn & Ht). destruct (read_word _ _ they I Hthey) as (q & Hq & Hd & Hqok).
    unfold bakery_lock_get_wait in E. rewrite Hd in E. cbn in E.
    destruct (read_choosing _ _ _ Hc Hqok) as [((? & ? & ->) & E1)|(_ & E1)].
    + eexists they, _, t. split; [done|]. split; [done|]. by left.
    + exfalso. rewrite E1 in E. cbn in E. step_in E. pose proof (get_loop_work i (S they) t) as Hw.
      assert (get_loop N i (S they) t = Waiting they t) as Eg by congruence. rewrite Eg in Hw. cbn in Hw. lia.
  - destruct Hok as (Hthey & Hn & Ht & Ht' & Hp). destruct (read_word _ _ they I Hthey) as (q & Hq & Hd & Hqok).
    unfold bakery_lock_get_blocked in E. rewrite Hd in E. cbn in E. rewrite (read_ticket _ _ _ Hc Hqok) in E.
    destruct (Z.eqb_spec t' (default 0 (ticket_of q))) as [E1|_].
    + exists they, q, t. split; [done|]. split; [done|]. right. exists t'. split; [|done]. destruct (ticket_of q); cbn in E1; [congruence|lia].
    + exfalso. pose proof (get_loop_cases i (S they) t) as [(? & E' & _)|[E' _]]; congruence.
  - exfalso. unfold bakery_lock_release in E. apply bind_Some in E as (w & _ & E).
    destruct (bakery_ticket_number w =? 0); congruence.
Qed.

Lemma binv_issue k s i p : binv k s -> cores s !! i = Some p -> exists c, inv c s /\ c + issue p <= k.
Proof.
  intros (c & I & Hc) Hi. exists c. split; [done|]. pose proof (sum_list_insert in_doorway _ _ Out _ Hi) as Hs. cbn in Hs.
  unfold doorway in Hc. assert (issue p <= Z.of_nat (in_doorway p)); [|lia].
  destruct p as [|they ?| | |]; cbn; try done. by destruct (they <? N)%nat.
Qed.
Lemma issue_nonneg p : 0 <= issue p.
Proof. destruct p as [|they ?| | |]; cbn; try done. by destruct (they <? N)%nat. Qed.

Lemma some_core_advances k s i p : binv k s -> k <= MAX_TICKET -> cores s !! i = Some p -> p <> Out -> exists s', advance s s'.
Proof.
  intros I Hk.
  assert (forall j q, cores s !! j = Some q -> in_doorway q = 1%nat -> exists s', advance s s') as Hdoor.
  { intros j q Hj Hq. destruct (binv_issue _ _ _ _ I Hj) as (c & Ic & Hc). pose proof (issue_nonneg q).
    assert (q <> Out) as Hq' by (by intros ->). destruct (advances c s j q Ic) as [|E]; [lia|done|done|done|].
    destruct (spins_on c s j q Ic) as (? & ? & t & _ & Ht & _); [lia|done|done|done|]. by destruct q. }
  remember (match ticket_of p with Some t => Z.to_nat (256 * t) + i | None => 0 end)%nat as n eqn:En.
  revert i p En. induction n as [n IH] using lt_wf_ind. intros i p -> Hi Hp.
  destruct (binv_issue _ _ _ _ I Hi) as (c & Ic & Hc). pose proof (issue_nonneg p).
  destruct (advances c s i p Ic) as [|E]; [lia|done|done|done|].
  destruct (spins_on c s i p Ic) as (j & q & t & Hj & Ht & [Hq|(t' & Ht' & Hpr)]); [lia|done|done|done|by eapply Hdoor|].
  pose proof (ticket_ok _ _ _ _ (inv_pc _ _ Ic _ _ Hj) Ht') as R'. destruct (inv_length _ _ Ic) as [_ L].
  pose proof (lookup_lt_Some _ _ _ Hj). eapply (IH _); [|done|done|by intros ->].
  rewrite Ht, Ht'. unfold prec in Hpr. lia.
Qed.

Lemma advance_steps k n s s' : k <= MAX_TICKET -> binv k s -> nsteps advance n s s' -> binv k s' /\ (n + total s' <= total s)%nat.
Proof.
  intros Hk I Hn. revert I. induction Hn as [|n s1 s2 s3 Hs _ IH]; intros I; [split; [done|lia]|].
  destruct (advance_total _ _ _ Hk I Hs) as [I2 Hlt]. destruct (IH I2). split; [done|lia].
Qed.
Lemma work_bound c i p : pc_ok c i p -> (work p <= 3 * N + 2)%nat.
Proof. destruct p; cbn; intuition lia. Qed.
Lemma total_bound k s : binv k s -> (total s <= N * (3 * N + 2))%nat.
Proof.
  intros (c & I & _). unfold total. destruct (inv_length _ _ I) as [_ L]. pose proof (inv_pc _ _ I) as Hpc.
  assert (forall i p, cores s !! i = Some p -> work p <= 3 * N + 2)%nat as Hw by (intros; eapply work_bound; eauto).
  revert Hw. generalize (3 * N + 2)%nat as b. intros b. rewrite <- L. clear. induction (cores s) as [|p l IH]; intros Hw; [cbn; lia|].
  specialize (IH (fun i => Hw (S i))). pose proof (Hw 0%nat p eq_refl). unfold fmap in *. simpl. lia.
Qed.
Lemma stuck_out k s : k <= MAX_TICKET -> binv k s -> nf advance s -> cores s = replicate N Out.
Proof.
  intros Hk I Hnf. pose proof I as (c & Ic & _). destruct (inv_length _ _ Ic) as [_ L]. symmetry. apply replicate_as_Forall_2; [done|].
  apply Forall_forall. intros p (i & Hi)%list_elem_of_lookup. destruct (decide (p = Out)) as [->|Hne]; [done|].
  destruct Hnf. by eapply some_core_advances.
Qed.
Lemma can_leave k s : k <= MAX_TICKET -> binv k s -> exists s', rtc advance s s' /\ cores s' = replicate N Out.
Proof.
  intros Hk. remember (total s) as n eqn:En. revert s En. induction n as [n IH] using lt_wf_ind. intros s -> I.
  destruct (decide (Forall (eq Out) (cores s))) as [Hall|Hno].
  - exists s. split; [done|]. destruct I as (c & Ic & _). destruct (inv_length _ _ Ic) as [_ L]. symmetry. by apply replicate_as_Forall_2.
  - apply not_Forall_Exists in Hno; [|apply _]. apply Exists_exists in Hno as (p & (i & Hi)%list_elem_of_lookup & Hne).
    destruct (some_core_advances k s i p I Hk Hi (not_eq_sym Hne)) as (s1 & Hs). destruct (advance_total _ _ _ Hk I Hs) as [I1 Hlt].
    destruct (IH _ Hlt s1 eq_refl I1) as (s2 & Hr & H2). exists s2. split; [by eapply rtc_l|done].
Qed.

(** ** Order *)

(** A core with a ticket goes before one that has yet to ask for its own. *)
Lemma exec_order k sched s s' i j p q t : binv k s -> Forall (fun i => i < N)%nat sched ->
  k + Z.of_nat (calls v N sched s) <= MAX_TICKET ->
  i <> j -> cores s !! i = Some p -> ticket_of p = Some t -> cores s !! j = Some q -> behind i t j q ->
  exec v N sched s = Some s' -> holds s' j ->
  exists sched1 sched2 s1, sched = sched1 ++ i :: sched2 /\ exec v N sched1 s = Some s1 /\ cores s1 !! i = Some (Held t).
Proof.
  intros I Hf Hk Hij Hi Ht Hj B E Hh. revert k s p q I Hk Hi Ht Hj B E. induction Hf as [|a sched Ha _ IH];
    intros k s p q I Hk Hi Ht Hj B E; cbn in Hk, E.
  { injection E as <-. destruct Hh as [t' Hj']. assert (q = Held t') as -> by congruence. destruct I as (c & Ic & _). exfalso.
    pose proof (inv_passed _ _ Ic j i _ _ t' (not_eq_sym Hij) Hj Hi eq_refl Logic.I) as B'.
    eapply (behind_antisym c j t' i p t); [by apply (inv_pc _ _ Ic)|done|done|done]. }
  destruct (core_step_binv k s a I Ha) as (pa & pa' & d & c & _ & Hpa & E1 & M & I'); [lia|]. rewrite E1 in *. cbn in Hk, E.
  destruct (decide (a = i /\ pa = Held t)) as [[-> ->]|Hn]; [by exists [], sched, s|].
  assert (exists p1, <[a := pa']> (cores s) !! i = Some p1 /\ ticket_of p1 = Some t) as (p1 & Hp1 & Ht1).
  { destruct (decide (a = i)) as [->|Hne]; [|rewrite list_lookup_insert_ne by done; by exists p].
    rewrite list_lookup_insert_eq by (by eapply lookup_lt_Some). exists pa'. split; [done|]. simplify_eq.
    destruct (mv_ticket _ _ _ _ _ M t Ht) as [|[_ ->]]; [done|]. by destruct Hn. }
  assert (exists q1, <[a := pa']> (cores s) !! j = Some q1 /\ behind i t j q1) as (q1 & Hq1 & B1).
  { destruct (decide (a = j)) as [->|Hne]; [|rewrite list_lookup_insert_ne by done; by exists q].
    rewrite list_lookup_insert_eq by (by eapply lookup_lt_Some). exists pa'. split; [done|]. simplify_eq.
    by eapply (mv_behind _ _ _ _ _ M). }
  destruct (IH _ _ _ _ I' ltac:(lia) Hp1 Ht1 Hq1 B1 E) as (l1 & l2 & s1 & -> & E2 & H2).
  exists (a :: l1), l2, s1. split; [done|]. split; [|done]. cbn. by rewrite E1.
Qed.
End bakery.
End BakeryProps.
