(* ===== verification/BakerySpec.v ===== *)
(** * What the bakery lock guarantees

    The theorems on [Bakery], from the lemmas of [BakeryProps], and the execution that
    breaks mutual exclusion once the 15-bit tickets wrap. *)

From Stdlib Require Import ZArith Lia.
From stdpp Require Import base option list numbers relations.
From S2P Require Import Prelude Bakery BakeryProps.
Import Bakery BakeryProps.
Open Scope Z_scope.

Module BakerySpec.

Section executions.
Context (v : variant) (N : nat).

Lemma exec_app l k s : exec v N (l ++ k) s = exec v N l s ≫= exec v N k.
Proof. revert s. induction l as [|i l IH]; intros s; [done|]. cbn. destruct (core_step v N i s); cbn; [apply IH|done]. Qed.
Lemma calls_app l k s s' : exec v N l s = Some s' -> calls v N (l ++ k) s = (calls v N l s + calls v N k s')%nat.
Proof.
  revert s. induction l as [|i l IH]; intros s E; cbn in *; [by simplify_eq|].
  destruct (core_step v N i s); cbn in *; [|done]. rewrite IH by done. lia.
Qed.
Lemma held_by_init : held_by (bakery_init N) None.
Proof. intros i. split; [|done]. intros (t & Ht). by apply lookup_replicate in Ht as [? _]. Qed.
End executions.

(** ** The wrap-around

    Two cores that keep asking for the lock: [a] holds it with ticket [t] while the other
    waits with ticket [t + 1]. *)
Definition other (a : nat) : nat := (1 - a)%nat.
Definition contended (a : nat) (t : Z) : sys :=
  let d := make_bakery_data CHOSEN_TICKET in
  if (a =? 0)%nat then Sys [d t; d (t + 1)] [Held t; Blocked 0 (t + 1) t]
  else Sys [d (t + 1); d t] [Blocked 1 (t + 1) t; Held t].
(** The accesses from a release to the wait on the other's ticket. *)
Definition again (v : variant) (a : nat) : list nat := replicate (match v with Coherent => 6 | Normal => 5 end) a.
Definition round (v : variant) (a : nat) : list nat := again v a ++ [other a].

#[local] Arguments bakery_ticket_number : simpl never.
#[local] Arguments bakery_is_choosing : simpl never.
#[local] Arguments make_bakery_data : simpl never.
#[local] Arguments PRIORITY : simpl never.
#[local] Arguments wrap : simpl never.
#[local] Arguments Z.add : simpl never.
#[local] Arguments Z.of_nat : simpl never.

(** Evaluate an execution with symbolic tickets. *)
Ltac run := repeat first
  [ rewrite ticket_chosen by (unfold MAX_TICKET; lia)
  | rewrite not_choosing by (unfold MAX_TICKET; lia)
  | rewrite wrap_small by lia
  | rewrite PRIORITY_eq by lia
  | progress change (bakery_ticket_number 0) with 0
  | progress change (0 <? 0) with false
  | progress change (bakery_ticket_number (make_bakery_data CHOOSING_TICKET 0)) with 0
  | match goal with
    | |- context [Z.eqb ?a ?b] => destruct (Z.eqb_spec a b); [try lia|try lia]
    | |- context [Z.ltb ?a ?b] =>
        lazymatch a with context [Z.ltb _ _] => fail | _ => destruct (Z.ltb_spec a b); [try lia|try lia] end
    end
  | progress cbn ].

Lemma round_exec v a t : (a < 2)%nat -> 1 <= t -> t + 2 <= MAX_TICKET ->
  exec v 2 (round v a) (contended a t) = Some (contended (other a) (t + 1)).
Proof.
  unfold MAX_TICKET. intros Ha Ht Hm. assert (a = 0 \/ a = 1)%nat as [-> | ->] by lia; destruct v; cbn; run; done.
Qed.
Lemma round_calls v a t : (a < 2)%nat -> 1 <= t -> t + 2 <= MAX_TICKET -> calls v 2 (round v a) (contended a t) = 1%nat.
Proof.
  unfold MAX_TICKET. intros Ha Ht Hm. assert (a = 0 \/ a = 1)%nat as [-> | ->] by lia; destruct v; cbn; run; done.
Qed.
Fixpoint rounds (v : variant) (n a : nat) : list nat :=
  match n with O => [] | S n => round v a ++ rounds v n (other a) end.
Lemma rounds_exec v n : forall a t, (a < 2)%nat -> 1 <= t -> t + Z.of_nat n + 1 <= MAX_TICKET ->
  exec v 2 (rounds v n a) (contended a t) = Some (contended (if Nat.even n then a else other a) (t + Z.of_nat n)) /\
  calls v 2 (rounds v n a) (contended a t) = n.
Proof.
  induction n as [|n IH]; intros a t Ha Ht Hm; cbn [rounds].
  { split; [|done]. cbn. by rewrite Z.add_0_r. }
  pose proof (round_exec v a t Ha Ht ltac:(lia)) as E. pose proof (round_calls v a t Ha Ht ltac:(lia)) as C.
  destruct (IH (other a) (t + 1)) as [E' C']; [unfold other; lia|lia|lia|].
  rewrite exec_app, (calls_app _ _ _ _ _ _ E), E, C, C'. split; [|done]. cbn [mbind option_bind]. rewrite E'. f_equal.
  rewrite Nat.even_succ, <- Nat.negb_even. assert (other (other a) = a) as -> by (unfold other; lia).
  replace (t + 1 + Z.of_nat n) with (t + Z.of_nat (S n)) by lia. by destruct (Nat.even n).
Qed.
Lemma rounds_lt v n : forall a, (a < 2)%nat -> Forall (fun i => i < 2)%nat (rounds v n a).
Proof.
  induction n as [|n IH]; intros a Ha; [constructor|]. cbn [rounds]. unfold round, again. rewrite !Forall_app. repeat split.
  - by apply Forall_replicate.
  - constructor; [unfold other; lia|constructor].
  - apply IH. unfold other. lia.
Qed.

(** The first two calls, and what happens around the ticket 0x8000, which is stored as 0. *)
Definition overflow_start (v : variant) : list nat :=
  match v with Coherent => [0;0;0;0;0; 1;1;1;1;1]%nat | Normal => [0;0;0;0; 1;1;1;1]%nat end.
Definition overflow_end (v : variant) : list nat := round v 1 ++ [0; 1]%nat ++ replicate (match v with Coherent => 5 | Normal => 4 end) 0%nat.

Lemma overflow_start_ok v : exec v 2 (overflow_start v) (bakery_init 2) = Some (contended 0 1) /\
  calls v 2 (overflow_start v) (bakery_init 2) = 2%nat.
Proof. destruct v; split; vm_compute; done. Qed.
Lemma overflow_end_ok v :
  exec v 2 (overflow_end v) (contended 1 32766) = Some (Sys [2; 0] [Held 1; Held 32768]) /\
  calls v 2 (overflow_end v) (contended 1 32766) = 2%nat.
Proof. destruct v; split; vm_compute; done. Qed.

Lemma overflow_ok v :
  exists sched s, Forall (fun i => i < 2)%nat sched /\ exec v 2 sched (bakery_init 2) = Some s /\
    Z.of_nat (calls v 2 sched (bakery_init 2)) = 32769 /\
    holds s 0 /\ holds s 1 /\ core_step v 2 1 s = None.
Proof.
  destruct (overflow_start_ok v) as [E1 C1]. destruct (overflow_end_ok v) as [E3 C3].
  destruct (rounds_exec v (Z.to_nat 32765) 0 1) as [E2 C2]; [lia|lia|unfold MAX_TICKET; lia|].
  assert (Nat.even (Z.to_nat 32765) = false) as Ev by (by vm_compute). rewrite Ev in E2.
  rewrite Z2Nat.id in E2 by lia. change (other 0) with 1%nat in E2. change (1 + 32765) with 32766 in E2.
  assert (Forall (fun i => i < 2)%nat (rounds v (Z.to_nat 32765) 0)) as F2 by (apply rounds_lt; lia).
  revert E2 C2 F2. generalize (rounds v (Z.to_nat 32765) 0) as l. intros l E2 C2 F2.
  exists (overflow_start v ++ l ++ overflow_end v). eexists.
  rewrite (calls_app _ _ _ _ _ _ E1), (calls_app _ _ _ _ _ _ E2), C1, C2, C3, !exec_app, E1.
  cbn [mbind option_bind]. rewrite exec_app, E2. cbn [mbind option_bind]. rewrite E3.
  split; [|split; [done|split; [lia|split; [by exists 1|split; [by exists 32768|by vm_compute]]]]].
  apply Forall_app; split; [|apply Forall_app; split; [done|]]; destruct v; repeat constructor.
Qed.

(** ** The theorems *)

(** C14: [bakery_lock_get] and [bakery_lock_release] implement a lock.  However the accesses of
    up to 256 cores interleave, with at most 32767 calls since the lock was last unused, no
    assertion fails and the execution is one of the abstract lock: a core comes to hold the
    lock only when it is free, and at every moment at most one core holds it. *)
Theorem bakery_refines_lock v N sched :
  (N <= 256)%nat -> Forall (fun i => i < N)%nat sched -> Z.of_nat (calls v N sched (bakery_init N)) <= MAX_TICKET ->
  exists s o, exec v N sched (bakery_init N) = Some s /\ lock_run sched None o /\ held_by s o.
Proof.
  intros HN Hf Hc. apply (exec_refines v N HN 0); [by apply binv_init|apply held_by_init|done|done].
Qed.

Lemma bakery_refines_lock_witness :
  exists s o, exec Coherent 2 [0;1;0;0;0;1;0;1;1;1;0;1]%nat (bakery_init 2) = Some s /\
    lock_run [0;1;0;0;0;1;0;1;1;1;0;1]%nat None o /\ held_by s o.
Proof. apply (bakery_refines_lock Coherent 2); [lia|repeat constructor|vm_compute; discriminate]. Defined.

(** C15: The lock makes progress, for up to 256 cores and at most 32767 calls since the lock was
    last unused (with more, tickets wrap and the lock is lost: [bakery_ticket_wraps]).  From every
    state reached within these bounds, the cores that have called [bakery_lock_get] can take only boundedly many steps other than rereading an unchanged
    word, and while one of them has not yet got and released the lock, such a step exists: an
    execution that does not spin for ever ends with the lock served to all of them. *)
Theorem bakery_lock_liveness v N sched s :
  (N <= 256)%nat -> Forall (fun i => i < N)%nat sched -> Z.of_nat (calls v N sched (bakery_init N)) <= MAX_TICKET ->
  exec v N sched (bakery_init N) = Some s ->
  (forall n s', nsteps (advance v N) n s s' -> (n <= N * (3 * N + 2))%nat) /\
  (forall s', rtc (advance v N) s s' -> nf (advance v N) s' -> cores s' = replicate N Out) /\
  exists s', rtc (advance v N) s s' /\ cores s' = replicate N Out.
Proof.
  intros HN Hf Hc E. destruct (exec_binv v N HN 0 sched (bakery_init N)) as (s0 & E0 & I); [by apply binv_init|done|done|].
  rewrite Z.add_0_l in I. simplify_eq. split; [|split].
  - intros n s' Hn. pose proof (total_bound N HN _ _ I). destruct (advance_steps v N HN _ n s s' Hc I Hn). lia.
  - intros s' [n Hn]%rtc_nsteps Hnf. destruct (advance_steps v N HN _ n s s' Hc I Hn) as [I' _]. by eapply stuck_out.
  - by eapply can_leave.
Qed.

Lemma bakery_lock_liveness_witness :
  let s := Sys [1; 2] [Choosing 1 0; Held 1] in
  exec Normal 2 [1;1;1;1;0]%nat (bakery_init 2) = Some s /\
  (forall n s', nsteps (advance Normal 2) n s s' -> (n <= 16)%nat) /\
  (forall s', rtc (advance Normal 2) s s' -> nf (advance Normal 2) s' -> cores s' = [Out; Out]) /\
  exists s', rtc (advance Normal 2) s s' /\ cores s' = [Out; Out].
Proof.
  cbv zeta. split; [by vm_compute|].
  apply (bakery_lock_liveness Normal 2 [1;1;1;1;0]%nat); [lia|repeat constructor|vm_compute; discriminate|by vm_compute].
Defined.

(** C16: The lock is first come, first served, for up to 256 cores and at most 32767 calls since
    the lock was last unused (with more, tickets wrap: [bakery_ticket_wraps]).  If core [i] has its ticket when core [j] has
    not yet called [bakery_lock_get], then [j] holds the lock only after [i] held and
    released it. *)
Theorem bakery_first_come v N sched0 sched s s' i j p t :
  (N <= 256)%nat -> Forall (fun i => i < N)%nat (sched0 ++ sched) ->
  Z.of_nat (calls v N (sched0 ++ sched) (bakery_init N)) <= MAX_TICKET ->
  exec v N sched0 (bakery_init N) = Some s -> cores s !! i = Some p -> ticket_of p = Some t -> cores s !! j = Some Out ->
  exec v N sched s = Some s' -> holds s' j ->
  exists sched1 sched2 s1, sched = sched1 ++ i :: sched2 /\ exec v N sched1 s = Some s1 /\ cores s1 !! i = Some (Held t).
Proof.
  intros HN [Hf0 Hf]%Forall_app Hc E0 Hi Ht Hj E Hh. rewrite (calls_app _ _ _ _ _ _ E0) in Hc.
  destruct (exec_binv v N HN 0 sched0 (bakery_init N)) as (s0 & E0' & I); [by apply binv_init|done|lia|].
  simplify_eq. eapply (exec_order v N HN _ sched s s' i j); [done|done|lia| |done|done|done|done|done|done].
  intros ->. simplify_eq.
Qed.

Lemma bakery_first_come_witness :
  exists sched1 sched2 s1, [1; 1; 0; 0; 0; 0]%nat = sched1 ++ 1%nat :: sched2 /\
    exec Normal 2 sched1 (Sys [0; 2] [Out; Waiting 0 1]) = Some s1 /\ cores s1 !! 1%nat = Some (Held 1).
Proof.
  apply (bakery_first_come Normal 2 [1;1;1]%nat [1; 1; 0; 0; 0; 0]%nat (Sys [0; 2] [Out; Waiting 0 1])
    (Sys [2; 0] [Held 1; Out]) 1 0 (Waiting 0 1) 1);
    [lia|repeat constructor|vm_compute; discriminate|by vm_compute|done|done|done| |by exists 1].
  by vm_compute.
Defined.

(** The tickets wrap.  Two cores that keep asking for the lock so that it is never
    unused reach, with the 32769th call, a state in which both hold it; the release of the
    core whose ticket wrapped to 0 then fails its assertion. *)
Theorem bakery_ticket_wraps v :
  exists sched s, Forall (fun i => i < 2)%nat sched /\ exec v 2 sched (bakery_init 2) = Some s /\
    Z.of_nat (calls v 2 sched (bakery_init 2)) = 32769 /\
    holds s 0 /\ holds s 1 /\ core_step v 2 1 s = None.
Proof. apply overflow_ok. Qed.
End BakerySpec.
