(* ===== verification/MarvellPlat.v ===== *)
(** * The PSCI platform layer of the Marvell Armada 7K/8K

    Topology and MPIDR decoding (plat/marvell/common/marvell_topology.c and
    marvell_helpers.S) and the PSCI hooks that decide something
    (plat/marvell/a8k/common/plat_pm.c), as an instance of the interface of Psci.v.  The
    hooks that only drive hardware are events of the log there. *)

From Stdlib Require Import ZArith Lia.
From stdpp Require Import base option list numbers.
From S2P Require Import Prelude CMonad Psci PsciProps PsciInv PsciSetup.
Import Psci PsciTree PsciInv.
Open Scope Z_scope.

Module MarvellPlat.

(** ** Topology *)
Definition MPIDR_AFFLVL_MASK := 0xff.
Definition MPIDR_CPU_MASK := MPIDR_AFFLVL_MASK.
Definition MPIDR_CLUSTER_MASK := Z.shiftl MPIDR_AFFLVL_MASK 8.
Definition MPIDR_AFFLVL0_VAL (m : Z) : Z := Z.land m MPIDR_AFFLVL_MASK.
Definition MPIDR_AFFLVL1_VAL (m : Z) : Z := Z.land (Z.shiftr m 8) MPIDR_AFFLVL_MASK.
Definition MPIDR_AFFLVL2_VAL (m : Z) : Z := Z.land (Z.shiftr m 16) MPIDR_AFFLVL_MASK.
Definition MPIDR_AFFLVL3_VAL (m : Z) : Z := Z.land (Z.shiftr m 32) MPIDR_AFFLVL_MASK.

Section topology.
Context (PLAT_MARVELL_CLUSTER_COUNT PLAT_MARVELL_CLUSTER_CORE_COUNT : nat).

Definition plat_get_power_domain_tree_desc : list Z :=
  Z.of_nat PLAT_MARVELL_CLUSTER_COUNT :: replicate PLAT_MARVELL_CLUSTER_COUNT (Z.of_nat PLAT_MARVELL_CLUSTER_CORE_COUNT).

Definition marvell_check_mpidr (m : Z) : Z :=
  let m := Z.land m MPIDR_AFFINITY_MASK in
  if negb (Z.land m (Z.lnot (Z.lor (Z.lor MPIDR_CLUSTER_MASK MPIDR_CPU_MASK) (Z.shiftl MPIDR_AFFLVL_MASK 16))) =? 0) then -1
  else if Z.of_nat PLAT_MARVELL_CLUSTER_COUNT <=? MPIDR_AFFLVL3_VAL m then -1
  else if Z.of_nat PLAT_MARVELL_CLUSTER_COUNT <=? MPIDR_AFFLVL1_VAL m then -1
  else if Z.of_nat PLAT_MARVELL_CLUSTER_CORE_COUNT <=? MPIDR_AFFLVL0_VAL m then -1
  else 0.

Definition plat_marvell_calc_core_pos (m : Z) : Z :=
  Z.land m MPIDR_CPU_MASK + Z.shiftr (Z.land m MPIDR_CLUSTER_MASK) 7.
Definition marvell_core_pos_by_mpidr (m : Z) : Z :=
  if marvell_check_mpidr m =? -1 then -1 else plat_marvell_calc_core_pos m.
End topology.

(** ** Power states *)
Definition MARVELL_LOCAL_STATE_RUN := 0.
Definition MARVELL_LOCAL_STATE_RET := 1.
Definition MARVELL_LOCAL_STATE_OFF := 2.
Definition psci_get_pstate_pwrlvl (pstate : Z) : Z := Z.land (Z.shiftr pstate 24) 3.
Definition psci_get_pstate_id (pstate : Z) : Z := Z.land pstate 0xffff.

(** Levels that are not written keep the caller's [RUN]. *)
Definition a8k_validate_power_state (power_state : Z) : Z * psci_power_state_t :=
  let pstate := psci_get_pstate_type power_state in
  let pwr_lvl := psci_get_pstate_pwrlvl power_state in
  let finish st := if negb (psci_get_pstate_id power_state =? 0) then (PSCI_E_INVALID_PARAMS, st) else (PSCI_E_SUCCESS, st) in
  let run := [MARVELL_LOCAL_STATE_RUN; MARVELL_LOCAL_STATE_RUN] in
  if 1 <? pwr_lvl then (PSCI_E_INVALID_PARAMS, run)
  else if pstate =? 0 then
    if negb (pwr_lvl =? 0) then (PSCI_E_INVALID_PARAMS, run)
    else finish (<[0%nat := MARVELL_LOCAL_STATE_RET]> run)
  else finish (foldl (fun st i => <[i := MARVELL_LOCAL_STATE_OFF]> st) run (seq 0 (Z.to_nat (pwr_lvl + 1)))).

Definition a8k_get_sys_suspend_power_state : psci_power_state_t :=
  foldl (fun st i => <[i := MARVELL_LOCAL_STATE_OFF]> st) [0; 0] (seq 0 2).
(** The hook exists, and panics: it does not return. *)
Definition a8k_cpu_standby : option bool := Some false.
Definition a8k_pwr_domain_on (l : list event) (m : Z) : Z := 0.
Definition a8k_validate_ns_entrypoint (entrypoint : Z) : Z := PSCI_E_SUCCESS.

Section a8k.
(** The identification and configuration registers, and the pending interrupts. *)
Context (mpidr_el1 : nat -> Z) (isr : list event -> Z) (scr sctlr1 sctlr2 : Z).

(** Two clusters of two cores, built without a Secure Payload Dispatcher. *)
Definition a8k : Plat := {|
  PLAT_MAX_PWR_LVL := 1;
  PLATFORM_CORE_COUNT := 4;
  PSCI_NUM_NON_CPU_PWR_DOMAINS := 2;
  PLAT_MAX_RET_STATE := MARVELL_LOCAL_STATE_RET;
  PLAT_MAX_OFF_STATE := MARVELL_LOCAL_STATE_OFF;
  plat_core_pos_by_mpidr := marvell_core_pos_by_mpidr 2 2;
  read_mpidr := mpidr_el1;
  pm_validate_power_state := fun p => Some (a8k_validate_power_state p);
  pm_validate_ns_entrypoint := Some a8k_validate_ns_entrypoint;
  pm_get_sys_suspend_power_state := a8k_get_sys_suspend_power_state;
  pm_pwr_domain_on := a8k_pwr_domain_on;
  pm_cpu_standby := a8k_cpu_standby;
  pm_get_node_hw_state := fun _ _ => PSCI_E_NOT_SUPPORTED;
  psci_spd_pm := None;
  has_pwr_domain_off := true;
  has_pwr_domain_on := true;
  has_pwr_domain_suspend := true;
  has_get_sys_suspend_power_state := true;
  has_system_off := true;
  has_system_reset := true;
  has_get_node_hw_state := false;
  read_isr_el1 := isr;
  read_scr_el3 := scr;
  read_sctlr_el1 := sctlr1;
  read_sctlr_el2 := sctlr2
|}.
End a8k.

(** ** MPIDR decoding *)
Abbreviation aff_mask := (Z.lor (Z.shiftl (Z.ones 8) 32) (Z.ones 24)).
Lemma aff3_bits m : Z.land (Z.land m aff_mask) (Z.lnot (Z.ones 24)) = Z.shiftl (Z.land (Z.shiftr m 32) (Z.ones 8)) 32.
Proof. bits. Qed.
Lemma aff_field m k : 0 <= k -> k + 8 <= 24 \/ k = 32 ->
  Z.land (Z.shiftr (Z.land m aff_mask) k) (Z.ones 8) = Z.land (Z.shiftr m k) (Z.ones 8).
Proof. intros Hk Hr. bits. Qed.
Lemma cluster_bits m : Z.shiftr (Z.land m (Z.shiftl (Z.ones 8) 8)) 7 = Z.shiftl (Z.land (Z.shiftr m 8) (Z.ones 8)) 1.
Proof. bits. Qed.

(** What is accepted and what it decodes to; affinity level 2 is not looked at. *)
Lemma marvell_core_pos_ok clusters cores m : (0 < clusters)%nat ->
  marvell_core_pos_by_mpidr clusters cores m =
  if (MPIDR_AFFLVL3_VAL m =? 0) && (MPIDR_AFFLVL1_VAL m <? Z.of_nat clusters) && (MPIDR_AFFLVL0_VAL m <? Z.of_nat cores)
  then MPIDR_AFFLVL0_VAL m + 2 * MPIDR_AFFLVL1_VAL m else -1.
Proof.
  intros Hc. unfold marvell_core_pos_by_mpidr, marvell_check_mpidr, plat_marvell_calc_core_pos,
    MPIDR_AFFLVL0_VAL, MPIDR_AFFLVL1_VAL, MPIDR_AFFLVL3_VAL, MPIDR_CLUSTER_MASK, MPIDR_CPU_MASK, MPIDR_AFFLVL_MASK.
  change MPIDR_AFFINITY_MASK with aff_mask. change 0xff with (Z.ones 8).
  change (Z.lor (Z.lor (Z.shiftl (Z.ones 8) 8) (Z.ones 8)) (Z.shiftl (Z.ones 8) 16)) with (Z.ones 24).
  rewrite aff3_bits, cluster_bits, !aff_field by lia.
  pose proof (aff_field m 0 ltac:(lia) ltac:(lia)) as E0. rewrite !Z.shiftr_0_r in E0. rewrite E0.
  pose proof (Z.shiftl_mul_pow2 (Z.land (Z.shiftr m 8) (Z.ones 8)) 1 ltac:(lia)) as ->.
  set (a3 := Z.land (Z.shiftr m 32) (Z.ones 8)). rewrite (Z.shiftl_mul_pow2 a3 32) by lia.
  set (a1 := Z.land (Z.shiftr m 8) (Z.ones 8)). set (a0 := Z.land m (Z.ones 8)).
  destruct (Z.eqb_spec a3 0) as [->|H3].
  - cbn [Z.mul Z.eqb negb andb]. destruct (Z.leb_spec (Z.of_nat clusters) 0); [lia|].
    destruct (Z.leb_spec (Z.of_nat clusters) a1), (Z.ltb_spec a1 (Z.of_nat clusters)); try lia; [done|].
    destruct (Z.leb_spec (Z.of_nat cores) a0), (Z.ltb_spec a0 (Z.of_nat cores)); try lia; [done|].
    change (0 * 2 ^ 32 =? 0) with true. cbn [negb andb]. change (0 =? -1) with false. cbn iota. lia.
  - destruct (Z.eqb_spec (a3 * 2 ^ 32) 0); [lia|]. done.
Qed.

Lemma aff_range m k : 0 <= Z.land (Z.shiftr m k) MPIDR_AFFLVL_MASK < 256.
Proof.
  unfold MPIDR_AFFLVL_MASK. change 0xff with (Z.ones 8). rewrite Z.land_ones by lia.
  apply Z.mod_pos_bound. lia.
Qed.

(** ** The platform keeps its promises *)
Lemma a8k_validate_ok `{P : Plat} p rc st : PLAT_MAX_PWR_LVL = 1%nat -> PLAT_MAX_RET_STATE = 1 -> PLAT_MAX_OFF_STATE = 2 ->
  a8k_validate_power_state p = (rc, st) ->
  rc = PSCI_E_INVALID_PARAMS \/
  rc = PSCI_E_SUCCESS /\ state_ok st /\ psci_validate_suspend_req st (psci_get_pstate_type p) = Some PSCI_E_SUCCESS /\
  (psci_get_pstate_type p <> 0 -> is_local_state_off (lv st 0) = true).
Proof.
  intros EL ER EO. unfold a8k_validate_power_state.
  assert (0 <= psci_get_pstate_pwrlvl p) as Hl by (apply Z.land_nonneg; right; lia).
  assert (forall st d, st = [1; 0] /\ d = 0 \/ (st = [2; 0] \/ st = [2; 2]) /\ d <> 0 ->
    state_ok st /\ psci_validate_suspend_req st d = Some PSCI_E_SUCCESS /\ (d <> 0 -> is_local_state_off (lv st 0) = true)) as Hst.
  { intros st' d Hd. assert (st' = [1; 0] \/ st' = [2; 0] \/ st' = [2; 2]) as Hst' by tauto.
    assert (length st' = S PLAT_MAX_PWR_LVL) as Hlen by (rewrite EL; by destruct Hst' as [->|[->| ->]]).
    destruct (validate_suspend_req_ok st' d Hlen) as (r & Er & _ & Hr).
    unfold is_local_state_off in *. rewrite EL, EO, ER in Hr. rewrite EO, ER.
    split; [split; [exact Hlen|]|split].
    - rewrite EL, EO. intros l Hl'. destruct l as [|[|l]]; [| |lia]; destruct Hst' as [->|[->| ->]]; cbn; lia.
    - rewrite Er. f_equal. apply Hr. split; [exists 0%nat; split; [lia|]; destruct Hst' as [->|[->| ->]]; cbn; lia|].
      unfold deeper, find_local_state_type. rewrite ER. split.
      + intros j Hj. assert (j = 0%nat) as -> by lia. destruct Hst' as [->|[->| ->]]; cbn; lia.
      + intros -> l Hl'. destruct Hd as [[-> _]|[_ Hd]]; [|done]. destruct l as [|[|l]]; [done|done|lia].
    - intros Hd'. destruct Hd as [[_ ->]|[[->| ->] _]]; done. }
  set (lvl := psci_get_pstate_pwrlvl p) in *. set (ty := psci_get_pstate_type p) in *. clearbody lvl ty.
  destruct (Z.ltb_spec 1 lvl) as [|Hl1]; [intros [= <- <-]; by left|].
  destruct (Z.eqb_spec ty 0) as [->|Hty].
  - destruct (Z.eqb_spec lvl 0); cbn [negb]; [|intros [= <- <-]; by left].
    destruct (psci_get_pstate_id p =? 0); cbn [negb]; intros [= <- <-]; [|by left]. right. split; [done|].
    apply Hst. left. done.
  - destruct (psci_get_pstate_id p =? 0); cbn [negb]; intros [= <- <-]; [|by left]. right. split; [done|].
    apply Hst. right. split; [|done]. assert (lvl = 0 \/ lvl = 1) as [->| ->] by lia; cbn; auto.
Qed.

Section a8k_laws.
Context (mpidr_el1 : nat -> Z) (isr : list event -> Z) (scr sctlr1 sctlr2 : Z).
#[local] Instance plat : Plat := a8k mpidr_el1 isr scr sctlr1 sctlr2.

#[export] Instance a8k_laws : PlatLaws.
Proof.
  constructor.
  - cbn. unfold MARVELL_LOCAL_STATE_RET, MARVELL_LOCAL_STATE_OFF. lia.
  - intros m. change (-1 <= marvell_core_pos_by_mpidr 2 2 m < 4). rewrite marvell_core_pos_ok by lia.
    pose proof (aff_range m 0) as R0. rewrite Z.shiftr_0_r in R0. pose proof (aff_range m 8) as R1.
    unfold MPIDR_AFFLVL0_VAL, MPIDR_AFFLVL1_VAL in *.
    destruct ((_ && _) && _) eqn:E; [|lia]. apply andb_true_iff in E as [[_ B1%Z.ltb_lt]%andb_true_iff B0%Z.ltb_lt].
    revert R0 R1 B0 B1. generalize (Z.land m MPIDR_AFFLVL_MASK), (Z.land (m ≫ 8) MPIDR_AFFLVL_MASK). lia.
  - intros l m. by left.
  - done.
  - intros p rc st [= E]. by apply a8k_validate_ok.
  - split; [|done]. split; [split; [done|intros l Hl; change (l <= 1)%nat in Hl; destruct l as [|[|l]]; [split; vm_compute; discriminate..|lia]]|].
    split; [done|]. split; [done|]. split; [done|]. done.
  - done.
  - done.
  - intros m l. right. left. done.
Qed.

Lemma a8k_topology_ok : PsciSetup.topology_ok (plat_get_power_domain_tree_desc 2 2).
Proof. by apply (bool_decide_unpack _). Qed.
End a8k_laws.

(** An MPIDR is accepted exactly if affinity level 3 is zero and levels 1 and 0 are below the
    numbers of clusters and of cores of a cluster; with two cores to a cluster the position
    determines cluster and core.  Level 2 is ignored, so that distinct MPIDRs name one core. *)
Theorem marvell_core_pos_spec (clusters cores : nat) (m : Z) : (0 < clusters)%nat -> (cores <= 2)%nat ->
  marvell_core_pos_by_mpidr clusters cores m =
    (if (MPIDR_AFFLVL3_VAL m =? 0) && (MPIDR_AFFLVL1_VAL m <? Z.of_nat clusters) && (MPIDR_AFFLVL0_VAL m <? Z.of_nat cores)
     then MPIDR_AFFLVL0_VAL m + 2 * MPIDR_AFFLVL1_VAL m else -1) /\
  (0 <= marvell_core_pos_by_mpidr clusters cores m ->
    MPIDR_AFFLVL1_VAL m = marvell_core_pos_by_mpidr clusters cores m / 2 /\
    MPIDR_AFFLVL0_VAL m = marvell_core_pos_by_mpidr clusters cores m mod 2) /\
  (forall m', MPIDR_AFFLVL0_VAL m' = MPIDR_AFFLVL0_VAL m -> MPIDR_AFFLVL1_VAL m' = MPIDR_AFFLVL1_VAL m ->
    MPIDR_AFFLVL3_VAL m' = MPIDR_AFFLVL3_VAL m ->
    marvell_core_pos_by_mpidr clusters cores m' = marvell_core_pos_by_mpidr clusters cores m).
Proof.
  intros Hcl Hco. split; [by apply marvell_core_pos_ok|]. split.
  - rewrite marvell_core_pos_ok by done. destruct ((_ && _) && _) eqn:E; [|lia]. intros _.
    apply andb_true_iff in E as [[_ B1%Z.ltb_lt]%andb_true_iff B0%Z.ltb_lt].
    pose proof (aff_range m 0) as R0. rewrite Z.shiftr_0_r in R0. fold (MPIDR_AFFLVL0_VAL m) in R0.
    revert R0 B0. generalize (MPIDR_AFFLVL0_VAL m), (MPIDR_AFFLVL1_VAL m). intros a b R0 B0. dlia.
  - intros m' E0 E1 E3. rewrite !marvell_core_pos_ok by done. by rewrite E0, E1, E3.
Qed.

Lemma marvell_core_pos_spec_witness :
  marvell_core_pos_by_mpidr 2 2 0x10101 = marvell_core_pos_by_mpidr 2 2 0x101 /\ marvell_core_pos_by_mpidr 2 2 0x101 = 3.
Proof.
  split; [|reflexivity]. apply (marvell_core_pos_spec 2 2 0x101); [lia|lia|reflexivity..].
Defined.
End MarvellPlat.
