(* ===== verification/PsciSpec.v ===== *)
(** * PSCI: the SMC handler, interleaved executions and the locks

    [smc_handler_ok]: every call made by a running core is defined and keeps the
    invariant.  [reachable] are the states of executions in which the cores' critical
    regions interleave, from the state [psci_setup] builds.  The theorems on PSCI follow,
    each with the Armada 8K as the platform of its witness. *)

From Stdlib Require Import ZArith Lia.
From stdpp Require Import base option list numbers functions.
From stdpp Require Import relations.
From S2P Require Import Prelude CMonad Psci PsciProps PsciInv PsciSetup PsciLocks MarvellPlat.
Import Psci PsciTree PsciInv PsciSetup PsciLocks.
Open Scope Z_scope.

Module PsciSpec.

Section smc.
Context `{!Plat, !PlatLaws}.
Abbreviation N := PLATFORM_CORE_COUNT.
Abbreviation L := PLAT_MAX_PWR_LVL.

(** ** One call *)
Definition is_cpu_on (fid : Z) : Prop := fid = PSCI_CPU_ON_AARCH32 \/ fid = PSCI_CPU_ON_AARCH64.
Definition is_cpu_suspend (fid : Z) : Prop := fid = PSCI_CPU_SUSPEND_AARCH32 \/ fid = PSCI_CPU_SUSPEND_AARCH64.
Definition is_system_suspend (fid : Z) : Prop := fid = PSCI_SYSTEM_SUSPEND_AARCH32 \/ fid = PSCI_SYSTEM_SUSPEND_AARCH64.
(** The first argument, as wide as the calling convention makes it. *)
Definition smc_arg1 (fid x1 : Z) : Z := if SMC_CC fid =? 0 then u32 x1 else x1.
(** The calls from the normal world to functions the platform supports; others are refused. *)
Definition smc_supported (fid flags : Z) : bool :=
  negb (Z.land flags 1 =? 0) && negb (Z.land psci_caps (define_psci_cap fid) =? 0).

(** What function [fid] with first argument [a], called by core [my], returns, and the phases
    after it; [None] is a call that does not return.  A call that returns changes no phase,
    except that a CPU_ON that succeeds makes its target, which was off, pending. *)
Inductive smc_effect (my : nat) (fid a : Z) (ph : nat -> phase) : option Z -> (nat -> phase) -> Prop :=
| effect_returns rc :
    (is_cpu_on fid -> rc <> PSCI_E_SUCCESS) -> (fid = PSCI_CPU_OFF -> rc = PSCI_E_DENIED) ->
    fid <> PSCI_SYSTEM_OFF -> fid <> PSCI_SYSTEM_RESET ->
    smc_effect my fid a ph (Some rc) ph
| effect_cpu_on : is_cpu_on fid -> 0 <= plat_core_pos_by_mpidr a -> ph (Z.to_nat (plat_core_pos_by_mpidr a)) = Off ->
    smc_effect my fid a ph (Some PSCI_E_SUCCESS) (<[Z.to_nat (plat_core_pos_by_mpidr a) := Pending]> ph)
| effect_cpu_off : fid = PSCI_CPU_OFF -> smc_effect my fid a ph None (<[my := Off]> ph)
| effect_cpu_suspend st e : is_cpu_suspend fid -> psci_get_pstate_type (u32 a) <> 0 ->
    psci_validate_power_state (u32 a) = Some (PSCI_E_SUCCESS, st) -> psci_find_target_suspend_lvl st = Some e -> (e <= L)%nat ->
    smc_effect my fid a ph None (<[my := Down e]> ph)
| effect_standby_panics : is_cpu_suspend fid -> psci_get_pstate_type (u32 a) = 0 -> pm_cpu_standby = Some false ->
    smc_effect my fid a ph None (<[my := Standby 0]> ph)
| effect_validate_panics : is_cpu_suspend fid -> pm_validate_power_state (u32 a) = None -> smc_effect my fid a ph None ph
| effect_system_suspend : is_system_suspend fid -> (forall c, (c < N)%nat -> c <> my -> ph c = Off) ->
    smc_effect my fid a ph None (<[my := Down L]> ph)
| effect_shutdown : fid = PSCI_SYSTEM_OFF \/ fid = PSCI_SYSTEM_RESET -> smc_effect my fid a ph None ph.

Definition smc_post (my : nat) (fid a : Z) (s : psci) (ph : nat -> phase) (r : option Z) (s' : psci) : Prop :=
  exists ph', tree s' = tree s /\ Inv s' ph' /\ smc_effect my fid a ph r ph'.
(** The whole of a call: the result register holds the result modulo [2 ^ 64]. *)
Definition smc_outcome (my : nat) (fid x1 flags : Z) (s s' : psci) (ph ph' : nat -> phase) (r : option Z) : Prop :=
  if smc_supported fid flags then exists r0, r = wrap 64 <$> r0 /\ smc_effect my fid (smc_arg1 fid x1) ph r0 ph'
  else r = Some SMC_UNK /\ s' = s /\ ph' = ph.

(** Function identifiers with no effect of their own. *)
Definition returning (fid : Z) : Prop :=
  ~ is_cpu_on fid /\ fid <> PSCI_CPU_OFF /\ fid <> PSCI_SYSTEM_OFF /\ fid <> PSCI_SYSTEM_RESET.
Lemma effect_ret my fid a ph rc : returning fid -> smc_effect my fid a ph (Some rc) ph.
Proof. intros (? & ? & ? & ?). by constructor. Qed.
Lemma suspend_returning fid : is_cpu_suspend fid -> returning fid.
Proof. intros [->| ->]; split_and!; try done; by intros []. Qed.
Lemma system_suspend_returning fid : is_system_suspend fid -> returning fid.
Proof. intros [->| ->]; split_and!; try done; by intros []. Qed.
Lemma smc_same my fid a s s' ph rc : returning fid -> tree s' = tree s -> Inv s' ph -> smc_post my fid a s ph (Some rc) s'.
Proof. intros Hf T I. exists ph. split; [done|]. split; [done|]. by apply effect_ret. Qed.
#[local] Hint Resolve smc_same : core.

Lemma psci_cpu_off_ok my a s ph : Inv s ph -> ph my = Up -> (my < N)%nat ->
  wp (psci_cpu_off my) (smc_post my PSCI_CPU_OFF a s ph) s.
Proof.
  intros I Hp Hc. unfold psci_cpu_off, psci_do_cpu_off. do 2 wp_step.
  eapply wp_mono; [by apply cpu_off_locked_ok|]. intros rc s1 (_ & T1 & [[-> I1]|[-> I1]]).
  - change (PSCI_E_SUCCESS =? PSCI_E_SUCCESS) with true. cbn iota. wp_step.
    eapply wp_mono; [eapply cpu_off_commit_ok; [done|by rewrite fn_lookup_insert|done]|].
    intros [] s2 (T2 & _ & I2). do 2 wp_step. eexists. split; [congruence|].
    split; [by eapply Inv_twice|by apply effect_cpu_off].
  - change (PSCI_E_DENIED =? PSCI_E_SUCCESS) with false. cbn iota. wp_step.
    wp_step. apply wp_assert; [done|]. wp_step. exists ph. split; [done|]. split; [done|].
    by apply effect_returns.
Qed.

(** A suspend that was entered: back from standby, or down. *)
Lemma psci_cpu_suspend_start_ok my e ep st pd s ph : Inv s ph -> ph my = Up -> (my < N)%nat -> request_ok e st pd ->
  wp (psci_cpu_suspend_start my e ep st pd) (fun down s' => tree s' = tree s /\
    if down : bool then pd <> 0 /\ Inv s' (<[my := Down e]> ph) else Inv s' ph) s.
Proof.
  intros I Hp Hc Hreq. unfold psci_cpu_suspend_start. wp_step.
  eapply wp_mono; [by apply suspend_locked_ok|]. intros skip s1 (_ & T1 & I1).
  destruct skip; [by wp_step|]. destruct (Z.eqb_spec pd 0) as [->|Hpd]; cbn [negb].
  - wp_step. eapply wp_emit_inv; [done|]. intros s2 T2 _ _ _ _ I2. wp_step.
    eapply wp_mono; [eapply standby_finisher_ok; [done|by rewrite fn_lookup_insert|done]|].
    intros [] s3 (_ & T3 & I3). wp_step. split; [congruence|]. eapply Inv_id; [done|by eapply Inv_twice].
  - wp_step. eapply wp_emit_inv; [done|]. intros s2 T2 _ _ _ _ I2. wp_step. split; [congruence|done].
Qed.

(** What the platform accepts is a request whose target level exists. *)
Lemma validated_request st pd : state_ok st -> psci_validate_suspend_req st pd = Some PSCI_E_SUCCESS ->
  (pd <> 0 -> is_local_state_off (lv st 0) = true) ->
  exists e, psci_find_target_suspend_lvl st = Some e /\ e <> PSCI_INVALID_PWR_LVL /\ request_ok e st pd.
Proof.
  intros Hst Hv Ho. destruct (find_lvl_ok (fun s => negb (is_local_state_run s)) st L ltac:(destruct Hst; lia))
    as (k & E & Hk). exists k. split; [done|].
  destruct Hk as [(Hk & _)|(-> & _)].
  - split; [unfold PSCI_INVALID_PWR_LVL; lia|]. by repeat (split; [done|]).
  - exfalso. unfold psci_validate_suspend_req in Hv. unfold psci_find_target_suspend_lvl in *. rewrite E in Hv.
    cbn [mbind option_bind] in Hv. by rewrite bool_decide_true in Hv.
Qed.

(** Standby of the core alone: the hook returns, or it panics with the core in standby. *)
Lemma standby_ok my (returns : bool) st s ph : Inv s ph -> ph my = Up -> (my < N)%nat -> state_ok st ->
  wp (s0 ← must (st !! PSCI_CPU_PWR_LVL); psci_set_cpu_local_state my s0;; emit (CpuStandby my s0);;
      if negb returns then panic my else psci_set_cpu_local_state my PSCI_LOCAL_STATE_RUN;; mret (Some PSCI_E_SUCCESS))
    (fun r s' => tree s' = tree s /\ if returns then r = Some PSCI_E_SUCCESS /\ Inv s' ph
                                     else r = None /\ Inv s' (<[my := Standby 0]> ph)) s.
Proof.
  intros I Hp Hc Hst. wp_step. eapply wp_must; [apply lv_some; unfold PSCI_CPU_PWR_LVL; destruct Hst; lia|].
  wp_step. unfold psci_set_cpu_local_state. wp_step. apply wp_get_data; [apply (inv_wf _ _ I)|done|].
  rewrite (up_data _ _ _ I Hp Hc). cbn [aff_info_state target_pwrlvl].
  eapply (wp_set_data_inv my _ (Standby 0)); [done|done| |].
  { cbn. split; [lia|]. split; [eauto|]. intros l Hl. eapply up_requests; [done|done|done|lia]. }
  intros s1 T1 _ R1 D1 I1. wp_step. eapply wp_emit_inv; [done|]. intros s2 T2 _ R2 D2 _ I2. destruct returns; cbn [negb].
  - do 2 wp_step. apply wp_get_data; [apply (inv_wf _ _ I2)|done|]. rewrite D2, D1. cbn [aff_info_state target_pwrlvl].
    eapply (wp_set_data_inv my _ Up); [done|done| |].
    { cbn. split; [done|]. intros l Hl. rewrite R2, R1. by eapply up_requests. }
    intros s3 T3 _ _ _ I3. wp_step. split; [congruence|]. split; [done|]. eapply Inv_id; [done|by eapply Inv_twice].
  - unfold panic. wp_step. eapply wp_emit_inv; [done|]. intros s3 T3 _ _ _ _ I3. wp_step. split; [congruence|done].
Qed.

Lemma psci_cpu_suspend_ok my fid a entry ctx s ph : Inv s ph -> ph my = Up -> (my < N)%nat -> is_cpu_suspend fid ->
  wp (psci_cpu_suspend my (u32 a) entry ctx) (smc_post my fid a s ph) s.
Proof.
  intros I Hp Hc Hf. pose proof (suspend_returning _ Hf) as Hr. unfold psci_cpu_suspend.
  destruct (psci_validate_power_state (u32 a)) as [[rc st]|] eqn:Ev.
  2: { unfold panic. wp_step. eapply wp_emit_inv; [done|]. intros s1 T1 _ _ _ _ I1. wp_step. exists ph. split; [done|]. split; [done|].
       apply effect_validate_panics; [done|]. unfold psci_validate_power_state in Ev. by case_match. }
  assert (rc = PSCI_E_INVALID_PARAMS \/ rc = PSCI_E_SUCCESS /\ state_ok st /\
    psci_validate_suspend_req st (psci_get_pstate_type (u32 a)) = Some PSCI_E_SUCCESS /\
    (psci_get_pstate_type (u32 a) <> 0 -> is_local_state_off (lv st 0) = true)) as [->|(-> & Hst & Hv & Ho)].
  { unfold psci_validate_power_state in Ev. case_match; [by simplify_eq; left|]. by apply law_validate. }
  - change (negb (PSCI_E_INVALID_PARAMS =? PSCI_E_SUCCESS)) with true. cbn iota.
    wp_step. apply wp_assert; [done|]. wp_step. eauto.
  - change (negb (PSCI_E_SUCCESS =? PSCI_E_SUCCESS)) with false. cbn iota.
    destruct (validated_request st _ Hst Hv Ho) as (e & Ee & Hne & Hreq).
    wp_step. eapply wp_must; [done|]. wp_step. apply wp_assert; [done|].
    wp_step. eapply wp_must; [done|]. rewrite bool_decide_false by done.
    destruct ((psci_get_pstate_type (u32 a) =? 0) && bool_decide (e = 0%nat)) eqn:Es.
    + apply andb_true_iff in Es as [Et%Z.eqb_eq _]. destruct pm_cpu_standby as [returns|] eqn:Eh; [|wp_step; eauto].
      eapply wp_mono; [by apply standby_ok|]. intros r s1 [T1 Hs]. destruct returns; destruct Hs as [-> I1]; [eauto|].
      eexists. split; [done|]. split; [done|]. by apply effect_standby_panics.
    + destruct (if negb (psci_get_pstate_type (u32 a) =? 0) then _ else _) as [rc ep].
      destruct (negb (rc =? PSCI_E_SUCCESS)); [wp_step; eauto|].
      wp_step. eapply wp_mono; [by apply psci_cpu_suspend_start_ok|]. intros [] s1 [T1 Hs]; wp_step; [|eauto].
      destruct Hs as [Hpd I1]. eexists. split; [done|]. split; [done|]. eapply effect_cpu_suspend; try done. apply Hreq.
Qed.

Lemma last_on_loop_ok n : forall cpu my ph s, Inv s ph -> ph my = Up -> (cpu + n <= N)%nat ->
  wp (last_on_loop n cpu my) (fun b s' => s' = s /\
    (b = true <-> forall c, (cpu <= c < cpu + n)%nat -> c <> my -> ph c = Off)) s.
Proof.
  induction n as [|n IH]; intros cpu my ph s I Hp Hn; cbn [last_on_loop].
  { wp_step. split; [done|]. split; [intros _ c Hc; lia|done]. }
  wp_step. eapply wp_get_aff; [done|lia|]. rewrite (phase_aff_ok _ _ _ I) by lia.
  case_bool_decide as Hm.
  - subst cpu. rewrite Hp. wp_step. apply wp_assert; [done|]. eapply wp_mono; [by apply (IH (S my) my ph); [..|lia]|].
    intros b s' [-> Hb]. split; [done|]. rewrite Hb. split; intros Hall c Hc Hne; apply Hall; [lia|done|lia|done].
  - case_bool_decide as Ha.
    + wp_step. split; [done|]. split; [done|]. intros Hall. specialize (Hall cpu ltac:(lia) Hm).
      rewrite Hall in Ha. done.
    + eapply wp_mono; [by apply (IH (S cpu) my ph); [..|lia]|].
      intros b s' [-> Hb]. split; [done|]. rewrite Hb. split; intros Hall c Hc Hne; [|apply Hall; [lia|done]].
      destruct (decide (c = cpu)) as [->|]; [|apply Hall; [lia|done]].
      destruct (ph cpu); cbn in Ha; try done; by destruct Ha.
Qed.

Lemma psci_system_suspend_ok my fid a entry ctx s ph : Inv s ph -> ph my = Up -> (my < N)%nat -> is_system_suspend fid ->
  wp (psci_system_suspend my entry ctx) (smc_post my fid a s ph) s.
Proof.
  intros I Hp Hc Hf. pose proof (system_suspend_returning _ Hf) as Hr. unfold psci_system_suspend, psci_is_last_on_cpu. wp_step.
  eapply wp_mono; [by apply (last_on_loop_ok N 0 my ph)|]. intros b s0 [-> Hb].
  destruct b; cbn [negb]; [|wp_step; eauto].
  destruct (psci_validate_entry_point entry ctx) as [rc ep].
  destruct (negb (rc =? PSCI_E_SUCCESS)); [wp_step; eauto|].
  destruct law_sys_suspend as [Hreq Htop]. pose proof Hreq as (Hst & Ht & _ & Hv & _).
  wp_step. eapply wp_must; [done|]. wp_step. apply wp_assert; [by apply bool_decide_eq_true|].
  wp_step. eapply wp_must; [done|]. wp_step. apply wp_assert; [done|].
  wp_step. eapply wp_must; [apply lv_some; destruct Hst; lia|]. wp_step. apply wp_assert; [done|].
  wp_step. eapply wp_mono; [by apply psci_cpu_suspend_start_ok|]. intros [] s1 [T1 Hs]; wp_step; [|eauto].
  destruct Hs as [_ I1]. eexists. split; [done|]. split; [done|]. apply effect_system_suspend; [done|].
  intros c Hcn Hne. apply Hb; [done|lia|done].
Qed.

Lemma psci_cpu_on_ok my fid t entry ctx s ph : Inv s ph -> is_cpu_on fid ->
  wp (psci_cpu_on t entry ctx) (smc_post my fid t s ph) s.
Proof.
  intros I Hf.
  assert (forall rc s', rc <> PSCI_E_SUCCESS -> tree s' = tree s -> Inv s' ph -> smc_post my fid t s ph (Some rc) s') as Hret.
  { intros rc s' Hrc T I'. exists ph. split; [done|]. split; [done|]. apply effect_returns; [done|..]; by destruct Hf as [->| ->]. }
  unfold psci_cpu_on, psci_validate_mpidr.
  destruct (Z.ltb_spec (plat_core_pos_by_mpidr t) 0) as [Hlt|Hge]; [by apply wp_ret, Hret|].
  change (negb (PSCI_E_SUCCESS =? PSCI_E_SUCCESS)) with false. cbn iota.
  destruct (psci_validate_entry_point entry ctx) as [rc ep].
  destruct (Z.eqb_spec rc PSCI_E_SUCCESS); cbn [negb]; [|wp_step; by apply Hret].
  wp_step. eapply wp_mono; [by apply cpu_on_start_ok|]. intros r s1 (answer & Ha & T1 & _ & Hr & I1).
  set (c := Z.to_nat (plat_core_pos_by_mpidr t)) in *. wp_step. subst r.
  destruct (ph c) eqn:Ep; cbn [cpu_on_result fst snd] in *.
  3: { destruct Ha as [->| ->].
       - eexists. split; [done|]. split; [done|]. by apply effect_cpu_on.
       - apply Hret; [done|done|by eapply Inv_id]. }
  all: apply Hret; [done|done|by eapply Inv_id].
Qed.

(** The calls that only read the state. *)
Definition reads (m : M psci (option Z)) (s : psci) : Prop := wp m (fun r s' => s' = s /\ is_Some r) s.

Lemma psci_affinity_info_ok t lvl s ph : Inv s ph ->
  wp (psci_affinity_info t lvl) (fun r s' => s' = s /\
    r = Some (if (0 <? lvl) || (plat_core_pos_by_mpidr t <? 0) then PSCI_E_INVALID_PARAMS
              else aff_value (phase_aff (ph (Z.to_nat (plat_core_pos_by_mpidr t)))))) s.
Proof.
  intros I. unfold psci_affinity_info. pose proof (law_core_pos t) as Hl.
  destruct (0 <? lvl); [done|]. cbn [orb].
  destruct (Z.eqb_spec (plat_core_pos_by_mpidr t) (-1)) as [->|Hne]; [done|].
  destruct (Z.ltb_spec (plat_core_pos_by_mpidr t) 0); [lia|].
  wp_step. apply wp_assert; [lia|]. wp_step. eapply wp_get_aff; [done|lia|].
  rewrite (phase_aff_ok _ _ _ I) by lia. done.
Qed.

Lemma psci_spd_migrate_info_ok s :
  wp psci_spd_migrate_info (fun p s' => s' = s /\
    (p.1 = PSCI_TOS_UP_MIG_CAP -> exists o m, psci_spd_pm = Some o /\ svc_migrate_info o = Some (PSCI_TOS_UP_MIG_CAP, m))) s.
Proof.
  unfold psci_spd_migrate_info. pose proof law_migrate_info as LM. destruct psci_spd_pm as [o|]; [|done].
  destruct (svc_migrate_info o) as [[rc m]|] eqn:E; [|done].
  wp_step. apply wp_assert.
  - destruct (LM o rc m) as [->|[->|[->| ->]]]; done.
  - wp_step. split; [done|]. cbn. intros ->. eauto.
Qed.
Lemma psci_migrate_info_type_ok s : reads psci_migrate_info_type s.
Proof.
  unfold reads, psci_migrate_info_type. wp_step. eapply wp_mono; [apply psci_spd_migrate_info_ok|]. by intros [rc m] s' [-> _].
Qed.
Lemma psci_migrate_info_up_cpu_ok s : reads psci_migrate_info_up_cpu s.
Proof.
  unfold reads, psci_migrate_info_up_cpu. wp_step. eapply wp_mono; [apply psci_spd_migrate_info_ok|]. by intros [rc m] s' [-> _].
Qed.
Lemma psci_migrate_ok my t s : reads (psci_migrate my t) s.
Proof.
  unfold reads, psci_migrate. wp_step. eapply wp_mono; [apply psci_spd_migrate_info_ok|]. intros [rc m] s' [-> Hm].
  cbn beta iota. cbn [fst] in Hm. destruct (Z.eqb_spec rc PSCI_TOS_UP_MIG_CAP) as [->|]; cbn [negb]; [|done].
  destruct (negb (m =? read_mpidr my)); [done|]. destruct (negb (psci_validate_mpidr t =? PSCI_E_SUCCESS)); [done|].
  destruct (Hm eq_refl) as (o & m' & Eo & Em). destruct (law_migrate o m' (read_mpidr my) t Eo Em) as (f & Ef & Hf).
  wp_step. eapply wp_must; [done|]. wp_step. eapply wp_must; [done|]. wp_step.
  apply wp_assert; [by destruct Hf as [->| ->]|done].
Qed.
Lemma psci_node_hw_state_ok t l s : reads (psci_node_hw_state t l) s.
Proof.
  unfold reads, psci_node_hw_state. destruct (negb _); [done|]. destruct (_ <? l); [done|]. wp_step.
  apply wp_assert; [|done]. destruct (law_hw_state t l) as [Hh|[->| ->]]; [|done|done].
  apply orb_true_iff. left. apply orb_true_iff. left. apply andb_true_iff. lia.
Qed.

Lemma smc_reads my fid a (m : M psci (option Z)) s ph : Inv s ph -> returning fid -> reads m s ->
  wp m (smc_post my fid a s ph) s.
Proof. intros I Hf Hr. eapply wp_mono; [done|]. intros r s' [-> [rc ->]]. eauto. Qed.
(** A shutdown that is among the capabilities has its hook. *)
Lemma smc_shutdown my fid a (b svc : bool) e1 e2 s ph : Inv s ph -> b = true -> fid = PSCI_SYSTEM_OFF \/ fid = PSCI_SYSTEM_RESET ->
  wp (assert b;; (if svc then emit e1 else mret tt);; emit e2;; mret None) (smc_post my fid a s ph) s.
Proof.
  intros I -> Hf. wp_step. apply wp_assert; [done|]. wp_step.
  apply wp_mono with (P := fun _ s1 => tree s1 = tree s /\ Inv s1 ph).
  { destruct svc; [|done]. eapply wp_emit_inv; [done|]. intros s1 T1 _ _ _ _ I1. done. }
  intros [] s1 [T1 I1]. wp_step. eapply wp_emit_inv; [done|]. intros s2 T2 _ _ _ _ I2. wp_step.
  exists ph. split; [congruence|]. split; [done|]. by apply effect_shutdown.
Qed.
Lemma cap_system_off : Z.land psci_caps (define_psci_cap PSCI_SYSTEM_OFF) <> 0 -> has_system_off = true.
Proof.
  unfold psci_caps. destruct has_system_off; [done|]. intros Hc. exfalso. apply Hc. clear Hc.
  destruct has_pwr_domain_off, has_pwr_domain_on, has_pwr_domain_suspend, has_get_sys_suspend_power_state, has_system_reset,
    has_get_node_hw_state, (has_svc _), (has_svc _); reflexivity.
Qed.
Lemma cap_system_reset : Z.land psci_caps (define_psci_cap PSCI_SYSTEM_RESET) <> 0 -> has_system_reset = true.
Proof.
  unfold psci_caps. destruct has_system_reset; [done|]. intros Hc. exfalso. apply Hc. clear Hc.
  destruct has_pwr_domain_off, has_pwr_domain_on, has_pwr_domain_suspend, has_get_sys_suspend_power_state, has_system_off,
    has_get_node_hw_state, (has_svc _), (has_svc _); reflexivity.
Qed.
Lemma smc_ret my fid a x s ph : Inv s ph -> returning fid -> wp (mret (Some x)) (smc_post my fid a s ph) s.
Proof. intros I Hf. wp_step. eauto. Qed.
Lemma smc_affinity my fid a t lvl s ph : Inv s ph -> returning fid -> wp (psci_affinity_info t lvl) (smc_post my fid a s ph) s.
Proof. intros I Hf. eapply wp_mono; [by apply psci_affinity_info_ok|]. intros r s' [-> ->]. eauto. Qed.

Create HintDb smc.
#[local] Hint Resolve psci_cpu_off_ok psci_cpu_suspend_ok psci_cpu_on_ok psci_system_suspend_ok smc_affinity smc_ret : smc.
#[local] Hint Resolve smc_reads psci_migrate_ok psci_migrate_info_type_ok psci_migrate_info_up_cpu_ok psci_node_hw_state_ok : smc.
#[local] Hint Extern 2 (is_cpu_suspend _) => solve [left; reflexivity | right; reflexivity] : smc.
#[local] Hint Extern 2 (is_cpu_on _) => solve [left; reflexivity | right; reflexivity] : smc.
#[local] Hint Extern 2 (is_system_suspend _) => solve [left; reflexivity | right; reflexivity] : smc.
#[local] Hint Extern 2 (returning _) => solve [split_and!; try done; intros []; done] : smc.

Lemma psci_dispatch_ok my fid x1 x2 x3 s ph : Inv s ph -> ph my = Up -> (my < N)%nat -> Z.land psci_caps (define_psci_cap fid) <> 0 ->
  wp (if SMC_CC fid =? 0 then psci_dispatch32 my fid (u32 x1) (u32 x2) (u32 x3) else psci_dispatch64 my fid x1 x2 x3)
    (smc_post my fid (smc_arg1 fid x1) s ph) s.
Proof.
  intros I Hp Hc Hcap. unfold smc_arg1. destruct (SMC_CC fid =? 0) eqn:Ecc.
  - unfold psci_dispatch32, psci_system_off, psci_system_reset.
    repeat match goal with
    | |- wp (if (?a =? ?b)%Z then _ else _) _ _ => destruct (Z.eqb_spec a b) as [->|]
    end; try (by eauto 4 with smc).
    + pose proof (wrap_wrap 32 x1) as E. rewrite <- E at 1. eauto with smc.
    + apply smc_shutdown; [done| |by left]. by apply cap_system_off.
    + apply smc_shutdown; [done| |by right]. by apply cap_system_reset.
    + apply smc_ret; [done|]. split_and!; try done. by intros [->| ->].
  - unfold psci_dispatch64.
    repeat match goal with
    | |- wp (if (?a =? ?b)%Z then _ else _) _ _ => destruct (Z.eqb_spec a b) as [->|]
    end; try (by eauto 4 with smc).
    apply smc_ret; [done|]. split_and!; [by intros [->| ->]|..]; by intros ->.
Qed.

Lemma smc_handler_ok my fid x1 x2 x3 flags s ph : Inv s ph -> ph my = Up -> (my < N)%nat ->
  wp (psci_smc_handler my fid x1 x2 x3 flags) (fun r s' => exists ph', Inv s' ph' /\ smc_outcome my fid x1 flags s s' ph ph' r) s.
Proof.
  intros I Hp Hc. unfold psci_smc_handler, smc_outcome, smc_supported.
  destruct (Z.land flags 1 =? 0); [by exists ph|].
  destruct (Z.eqb_spec (Z.land psci_caps (define_psci_cap fid)) 0) as [|Hcap]; [by exists ph|]. cbn [negb andb].
  wp_step. eapply wp_mono; [by apply psci_dispatch_ok|]. intros r s' (ph' & _ & I' & He). wp_step. exists ph'. eauto.
Qed.

(** ** Interleaved executions *)
(** The critical regions of the cores, in the order a core runs them: CPU_ON of a target;
    CPU_OFF up to the release of the locks and the write that follows it; CPU_SUSPEND up
    to the release of the locks and the return from standby; the warm boot of a core that
    was turned on or powered down. *)
Inductive action :=
| CpuOn (my : nat) (target entry ctx : Z)
| CpuOff (my : nat)
| CpuOffCommit (my : nat)
| CpuSuspend (my e : nat) (ep : entry_point_info_t) (st : psci_power_state_t) (pd : Z)
| StandbyWake (my e : nat)
| WarmBoot (my : nat).
Definition who (a : action) : nat :=
  match a with
  | CpuOn my _ _ _ | CpuOff my | CpuOffCommit my | CpuSuspend my _ _ _ _ | StandbyWake my _ | WarmBoot my => my
  end.

Definition enabled (ph : nat -> phase) (a : action) : Prop :=
  (who a < N)%nat /\
  match a with
  | CpuOn my _ _ _ | CpuOff my => ph my = Up
  | CpuOffCommit my => ph my = GoingOff
  | CpuSuspend my e _ st pd => ph my = Up /\ request_ok e st pd
  | StandbyWake my e => ph my = Standby e
  | WarmBoot my => is_Some (woken (ph my))
  end.

(** The code of an action, and the phases after it. *)
Definition run (a : action) (ph : nat -> phase) : M psci (nat -> phase) :=
  match a with
  | CpuOn _ t entry ctx =>
      r ← psci_cpu_on t entry ctx;
      mret (if bool_decide (r = Some PSCI_E_SUCCESS) then <[Z.to_nat (plat_core_pos_by_mpidr t) := Pending]> ph else ph)
  | CpuOff my => rc ← cpu_off_locked my L; mret (if rc =? PSCI_E_SUCCESS then <[my := GoingOff]> ph else ph)
  | CpuOffCommit my => cpu_off_commit my;; mret (<[my := Off]> ph)
  | CpuSuspend my e ep st pd =>
      skip ← suspend_locked my e ep st pd;
      mret (if skip : bool then ph else <[my := if pd =? 0 then Standby e else Down e]> ph)
  | StandbyWake my e => psci_suspend_to_standby_finisher my e;; mret (<[my := Up]> ph)
  | WarmBoot my => psci_warmboot_entrypoint my;; mret (<[my := Up]> ph)
  end.

(** The level up to which an action holds locks. *)
Definition lock_level (ph : nat -> phase) (a : action) : option nat :=
  match a with
  | CpuOn _ _ _ _ | CpuOffCommit _ => None
  | CpuOff _ => Some L
  | CpuSuspend _ e _ _ _ | StandbyWake _ e => Some e
  | WarmBoot my => woken (ph my)
  end.
Definition locking (s s' : psci) (c : nat) (o : option nat) : Prop :=
  match o with
  | Some e => bracketed s s' c e
  | None => exists ev, no_locks ev /\ log s' = log s ++ ev
  end.

Lemma psci_cpu_on_system t entry ctx ph s : Inv s ph ->
  wp (psci_cpu_on t entry ctx) (fun r s' => tree s' = tree s /\ (exists ev, no_locks ev /\ log s' = log s ++ ev) /\
    Inv s' (if bool_decide (r = Some PSCI_E_SUCCESS) then <[Z.to_nat (plat_core_pos_by_mpidr t) := Pending]> ph else ph)) s.
Proof.
  intros I.
  assert (forall rc, rc <> PSCI_E_SUCCESS -> wp (mret (Some rc)) (fun r s' => tree s' = tree s /\ (exists ev, no_locks ev /\ log s' = log s ++ ev) /\
    Inv s' (if bool_decide (r = Some PSCI_E_SUCCESS) then <[Z.to_nat (plat_core_pos_by_mpidr t) := Pending]> ph else ph)) s) as Hret.
  { intros rc Hrc. wp_step. rewrite bool_decide_false by congruence. split; [done|]. split; [|done].
    exists []. split; [by constructor|by rewrite app_nil_r]. }
  unfold psci_cpu_on, psci_validate_mpidr. destruct (Z.ltb_spec (plat_core_pos_by_mpidr t) 0) as [|Hge]; [by apply Hret|].
  change (negb (PSCI_E_SUCCESS =? PSCI_E_SUCCESS)) with false. cbn iota.
  destruct (psci_validate_entry_point entry ctx) as [rc ep]. destruct (Z.eqb_spec rc PSCI_E_SUCCESS); cbn [negb]; [|by apply Hret].
  wp_step. eapply wp_mono; [by apply cpu_on_start_ok|]. intros r s1 (answer & Ha & T1 & G1 & Hr & I1). cbn zeta in *.
  set (c := Z.to_nat (plat_core_pos_by_mpidr t)) in *. wp_step. split; [done|]. split; [done|]. subst r.
  destruct (ph c) eqn:Ep; cbn [cpu_on_result fst snd] in *.
  3: { destruct Ha as [->| ->].
       - rewrite bool_decide_true by done. done.
       - rewrite bool_decide_false by done. by eapply Inv_id. }
  all: rewrite bool_decide_false by done; by eapply Inv_id.
Qed.

Lemma run_ok a ph s : Inv s ph -> enabled ph a ->
  wp (run a ph) (fun ph' s' => tree s' = tree s /\ locking s s' (who a) (lock_level ph a) /\ Inv s' ph') s.
Proof.
  intros I [Hw He]. destruct a as [my t entry ctx|my|my|my e ep st pd|my e|my]; cbn [run who lock_level locking] in *.
  - wp_step. eapply wp_mono; [by apply psci_cpu_on_system|]. intros r s1 (T & G & I1). by wp_step.
  - wp_step. eapply wp_mono; [by apply cpu_off_locked_ok|]. intros rc s1 (B & T & [[-> I1]|[-> I1]]); by wp_step.
  - wp_step. eapply wp_mono; [by apply cpu_off_commit_ok|]. intros [] s1 (T & G & I1). wp_step.
    split; [done|]. split; [|done]. exists [PowerDownWfi my]. split; [by repeat constructor|done].
  - destruct He as [Hp Hreq]. wp_step. eapply wp_mono; [by apply suspend_locked_ok|]. intros skip s1 (B & T & I1).
    wp_step. split; [done|]. split; [done|]. by destruct skip.
  - wp_step. eapply wp_mono; [by apply standby_finisher_ok|]. intros [] s1 (B & T & I1). by wp_step.
  - destruct He as [e Ee]. rewrite Ee. wp_step. eapply wp_mono; [by apply (warmboot_ok my e)|].
    intros [] s1 (B & T & I1). by wp_step.
Qed.

(** The states reached from [s0] by cores that act in any order. *)
Inductive reachable (s0 : psci) (ph0 : nat -> phase) : psci -> (nat -> phase) -> Prop :=
| reach_init : reachable s0 ph0 s0 ph0
| reach_step a s ph s' ph' : reachable s0 ph0 s ph -> enabled ph a -> run a ph s = Some (ph', s') ->
    reachable s0 ph0 s' ph'.

Lemma reachable_inv s0 ph0 s ph : Inv s0 ph0 -> reachable s0 ph0 s ph -> Inv s ph /\ tree s = tree s0.
Proof.
  intros I0. induction 1 as [|a s ph s' ph' _ [I T] He Er]; [done|].
  pose proof (wp_some _ _ _ _ _ Er (run_ok a ph s I He)) as (T' & _ & I'). split; [done|congruence].
Qed.

Definition boot_phases (boot : nat) : nat -> phase := <[boot := Up]> (fun _ => Off).
(** A state of a system that was set up by core [boot] on a well-formed topology. *)
Definition running_system (topology : list Z) (boot : nat) (s : psci) (ph : nat -> phase) : Prop :=
  exists s0, psci_setup boot topology psci_bss = Some (tt, s0) /\ reachable s0 (boot_phases boot) s ph.

Lemma running_system_inv topology boot s ph : topology_ok topology -> (boot < N)%nat ->
  running_system topology boot s ph -> Inv s ph.
Proof.
  intros TOK Hb (s0 & E0 & Hr). pose proof (wp_some _ _ _ _ _ E0 (psci_setup_ok topology TOK boot _ Hb)) as (_ & I0 & _).
  by apply (reachable_inv s0 (boot_phases boot)).
Qed.
End smc.

(** ** The platform of the witnesses: an Armada 8K *)
Definition a8k_mpidr (c : nat) : Z := Z.of_nat (c / 2) * 256 + Z.of_nat (c `mod` 2).
Definition a8k_demo : Plat := MarvellPlat.a8k a8k_mpidr (fun _ => 0) 0x400 0 0.
Definition a8k_topology : list Z := MarvellPlat.plat_get_power_domain_tree_desc 2 2.
(** After setup by core 0. *)
Definition a8k_booted : psci :=
  match @psci_setup a8k_demo 0 a8k_topology (@psci_bss a8k_demo) with Some (_, s) => s | None => @psci_bss a8k_demo end.

Lemma a8k_demo_laws : @PlatLaws a8k_demo.
Proof. apply MarvellPlat.a8k_laws. Qed.
Lemma a8k_booted_eq : @psci_setup a8k_demo 0 a8k_topology (@psci_bss a8k_demo) = Some (tt, a8k_booted).
Proof. vm_compute. reflexivity. Qed.
Lemma a8k_running : @running_system a8k_demo a8k_topology 0 a8k_booted (boot_phases 0).
Proof. exists a8k_booted. split; [apply a8k_booted_eq|apply reach_init]. Qed.

Lemma a8k_demo_topology : @topology_ok a8k_demo a8k_topology.
Proof. apply (bool_decide_unpack _). vm_compute. exact Logic.I. Qed.
Lemma a8k_demo_core c : (c < 4)%nat -> (c < @PLATFORM_CORE_COUNT a8k_demo)%nat.
Proof. done. Qed.
Lemma a8k_demo_inv : @Inv a8k_demo a8k_booted (boot_phases 0).
Proof.
  apply (@running_system_inv a8k_demo a8k_demo_laws a8k_topology 0);
    [apply a8k_demo_topology|apply a8k_demo_core; lia|apply a8k_running].
Qed.

(** ** Theorems *)
(** C5: From zeroed memory and a well-formed topology of any number of levels, setup succeeds and
    builds the tree the topology describes: core [c]'s ancestor at each level is the domain the
    breadth-first numbering gives it, and the recorded range of cores of that domain holds
    exactly the cores below it.  The invariant holds with the booting core up and all others
    off. *)
Theorem psci_setup_spec (P : Plat) (topology : list Z) (boot : nat) :
  PlatLaws -> topology_ok topology -> (boot < PLATFORM_CORE_COUNT)%nat ->
  exists s, psci_setup boot topology psci_bss = Some (tt, s) /\ Inv s (boot_phases boot) /\
    forall c l, (c < PLATFORM_CORE_COUNT)%nat -> (1 <= l <= PLAT_MAX_PWR_LVL)%nat ->
      anc (tree s) c l = Z.of_nat (up topology c l) /\
      exists n, zget (psci_non_cpu_pd_nodes s) (Z.of_nat (up topology c l)) = Some n /\
        forall c', (c' < PLATFORM_CORE_COUNT)%nat ->
          up topology c' l = up topology c l <-> cpu_start_idx n <= Z.of_nat c' < cpu_start_idx n + ncpus n.
Proof.
  intros PL TOK Hb. destruct (wp_inv _ _ _ (psci_setup_ok topology TOK boot PL Hb)) as ([] & s & E & _ & I & Ha).
  exists s. split; [done|]. split; [done|]. intros c l Hc Hl. split; [by apply Ha|].
  destruct (node_anc s c l (inv_wf _ _ I) Hc Hl) as (n & En & _ & _ & _ & _ & _ & _ & Hd).
  rewrite Ha in En by done. exists n. split; [done|]. intros c' Hc'. rewrite <- (Hd c' Hc'), !Ha by done. lia.
Qed.

Lemma psci_setup_spec_witness : exists s, @psci_setup a8k_demo 0 a8k_topology (@psci_bss a8k_demo) = Some (tt, s) /\
  @Inv a8k_demo s (boot_phases 0) /\ anc (tree s) 3 1 = 1.
Proof.
  destruct (psci_setup_spec a8k_demo a8k_topology 0 a8k_demo_laws) as (s & E & I & Ha).
  - exact a8k_demo_topology.
  - vm_compute. lia.
  - exists s. split; [exact E|]. split; [exact I|]. destruct (Ha 3%nat 1%nat) as [-> _]; [vm_compute; lia..|]. reflexivity.
Defined.

(** C3: In every state reached by cores that turn each other on, turn off, suspend, wake up and
    boot in any interleaving of their critical regions, whatever a core may do next is
    defined: no assertion of the code fails and no array is accessed out of range.  A region
    takes the locks of the core's ancestors in increasing level first and gives them back in
    the reverse order last; CPU_ON and the final write of CPU_OFF take none. *)
Theorem psci_regions_defined (P : Plat) (topology : list Z) (boot : nat) (s : psci) (ph : nat -> phase) (a : action) :
  PlatLaws -> topology_ok topology -> (boot < PLATFORM_CORE_COUNT)%nat ->
  running_system topology boot s ph -> enabled ph a ->
  exists ph' s', run a ph s = Some (ph', s') /\ running_system topology boot s' ph' /\
    locking s s' (who a) (lock_level ph a).
Proof.
  intros PL TOK Hb Hr He. pose proof (running_system_inv topology boot s ph TOK Hb Hr) as I.
  destruct (wp_inv _ _ _ (run_ok a ph s I He)) as (ph' & s' & E & _ & Hk & _). exists ph', s'.
  split; [done|]. split; [|done]. destruct Hr as (s0 & E0 & Hr). exists s0. split; [done|]. by eapply reach_step.
Qed.

Lemma psci_regions_defined_witness : exists ph' s',
  @run a8k_demo (CpuOff 0) (boot_phases 0) a8k_booted = Some (ph', s').
Proof.
  destruct (psci_regions_defined a8k_demo a8k_topology 0 a8k_booted (boot_phases 0) (CpuOff 0))
    as (ph' & s' & E & _).
  - exact a8k_demo_laws.
  - exact a8k_demo_topology.
  - vm_compute. lia.
  - exact a8k_running.
  - split; [vm_compute; lia|reflexivity].
  - exists ph', s'. exact E.
Defined.

(** C1: While a core runs, none of the power domains above it is in retention or off, whatever
    the other cores have requested; the core's own state is RUN and its affinity state ON. *)
Theorem psci_running_core_powered (P : Plat) (topology : list Z) (boot c : nat) (s : psci) (ph : nat -> phase) :
  PlatLaws -> topology_ok topology -> (boot < PLATFORM_CORE_COUNT)%nat ->
  running_system topology boot s ph -> (c < PLATFORM_CORE_COUNT)%nat -> ph c = Up ->
  aff_info_state (dt s c) = AFF_STATE_ON /\ cpu_local_state (dt s c) = PSCI_LOCAL_STATE_RUN /\
  forall l, (1 <= l <= PLAT_MAX_PWR_LVL)%nat -> dm s (anc (tree s) c l) = PSCI_LOCAL_STATE_RUN.
Proof.
  intros PL TOK Hb Hr Hc Hp. pose proof (running_system_inv topology boot s ph TOK Hb Hr) as I.
  rewrite (up_data s ph c) by done. split; [done|]. split; [done|]. intros l Hl. by eapply running_core_domains.
Qed.

Lemma psci_running_core_powered_witness : dm a8k_booted (anc (tree a8k_booted) 0 1) = PSCI_LOCAL_STATE_RUN.
Proof.
  apply (psci_running_core_powered a8k_demo a8k_topology 0 0 a8k_booted (boot_phases 0)).
  - exact a8k_demo_laws.
  - exact a8k_demo_topology.
  - vm_compute. lia.
  - exact a8k_running.
  - vm_compute. lia.
  - reflexivity.
  - vm_compute. lia.
Defined.

(** C2: In every reachable state each power domain is in the shallowest of the states that the
    cores below it request, and a domain all of whose cores are off is in the deepest state:
    power is neither cut too early nor kept for no core. *)
Theorem psci_domains_coordinated (P : Plat) (topology : list Z) (boot c l : nat) (s : psci) (ph : nat -> phase) :
  PlatLaws -> topology_ok topology -> (boot < PLATFORM_CORE_COUNT)%nat ->
  running_system topology boot s ph -> (c < PLATFORM_CORE_COUNT)%nat -> (1 <= l <= PLAT_MAX_PWR_LVL)%nat ->
  shallowest s c l (dm s (anc (tree s) c l)) /\
  ((forall c', (c' < PLATFORM_CORE_COUNT)%nat -> anc (tree s) c' l = anc (tree s) c l -> is_off (ph c')) ->
   dm s (anc (tree s) c l) = PLAT_MAX_OFF_STATE).
Proof.
  intros PL TOK Hb Hr Hc Hl. pose proof (running_system_inv topology boot s ph TOK Hb Hr) as I.
  split; [by apply (inv_coordinated _ _ I)|]. by eapply off_domain.
Qed.

Lemma psci_domains_coordinated_witness : dm a8k_booted (anc (tree a8k_booted) 3 1) = 2.
Proof.
  apply (psci_domains_coordinated a8k_demo a8k_topology 0 3 1 a8k_booted (boot_phases 0)).
  - exact a8k_demo_laws.
  - exact a8k_demo_topology.
  - vm_compute. lia.
  - exact a8k_running.
  - vm_compute. lia.
  - vm_compute. lia.
  - intros c' Hc' Ha. destruct c' as [|c']; [vm_compute in Ha; discriminate|]. right. left. reflexivity.
Defined.

(** C4: Every PSCI call a running core can make, with any function identifier and arguments, is
    defined and keeps the invariant.  A secure caller, or a function that is not among the
    platform's capabilities, gets SMC_UNK and nothing changes.  Otherwise a call that returns
    changes the phase of no core, except that a CPU_ON returns SUCCESS exactly when its target
    was off and is pending now (only the target of a CPU_ON is ever touched among the other
    cores).  The calls that may not return are: CPU_OFF, which leaves the caller off (it
    returns DENIED otherwise); a CPU_SUSPEND to a power-down state, which leaves the caller
    down at the level it asked for; SYSTEM_SUSPEND, if all other cores are off;
    SYSTEM_OFF and SYSTEM_RESET, which never return; and a CPU_SUSPEND for which the
    platform's standby or validation hook panics. *)
Theorem psci_smc_handler_spec (P : Plat) (topology : list Z) (boot my : nat) (fid x1 x2 x3 flags : Z) (s : psci) (ph : nat -> phase) :
  PlatLaws -> topology_ok topology -> (boot < PLATFORM_CORE_COUNT)%nat ->
  running_system topology boot s ph -> (my < PLATFORM_CORE_COUNT)%nat -> ph my = Up ->
  exists r s' ph', psci_smc_handler my fid x1 x2 x3 flags s = Some (r, s') /\ Inv s' ph' /\
    smc_outcome my fid x1 flags s s' ph ph' r.
Proof.
  intros PL TOK Hb Hr Hc Hp. pose proof (running_system_inv topology boot s ph TOK Hb Hr) as I.
  destruct (wp_inv _ _ _ (smc_handler_ok my fid x1 x2 x3 flags s ph I Hp Hc)) as (r & s' & E & ph' & I' & Hph). by exists r, s', ph'.
Qed.

Lemma psci_smc_handler_spec_witness : exists r s' ph',
  @psci_smc_handler a8k_demo 0 PSCI_CPU_ON_AARCH64 0x101 0x80000 7 1 a8k_booted = Some (r, s') /\
  @smc_outcome a8k_demo 0 PSCI_CPU_ON_AARCH64 0x101 1 a8k_booted s' (boot_phases 0) ph' r.
Proof.
  destruct (psci_smc_handler_spec a8k_demo a8k_topology 0 0 PSCI_CPU_ON_AARCH64 0x101 0x80000 7 1 a8k_booted
    (boot_phases 0)) as (r & s' & ph' & E & _ & Hph).
  - exact a8k_demo_laws.
  - exact a8k_demo_topology.
  - vm_compute. lia.
  - exact a8k_running.
  - vm_compute. lia.
  - reflexivity.
  - exists r, s', ph'. split; [exact E|exact Hph].
Defined.

(** A standby request of the normal world passes the checks of the Armada 8K and stops the core
    that makes it: the standby hook panics. *)
Example a8k_standby_panics : exists s', @psci_smc_handler a8k_demo 0 PSCI_CPU_SUSPEND_AARCH64 0 0x80000 7 1 a8k_booted = Some (None, s') /\
  last (log s') = Some (Panic 0).
Proof. eexists. split; vm_compute; reflexivity. Qed.

(** CPU_ON of a core: one that is up, going down or suspended is ALREADY_ON, one that was
    turned on and has not arrived is ON_PENDING; an off core becomes pending if the platform
    powers it up, and is off again with the platform's error otherwise. *)
Theorem psci_cpu_on_spec (P : Plat) (t : Z) (ep : entry_point_info_t) (s : psci) (ph : nat -> phase) :
  PlatLaws -> Inv s ph -> 0 <= plat_core_pos_by_mpidr t ->
  let c := Z.to_nat (plat_core_pos_by_mpidr t) in
  exists answer rc s', (answer = PSCI_E_SUCCESS \/ answer = PSCI_E_INTERN_FAIL) /\
    psci_cpu_on_start t ep s = Some (rc, s') /\
    (rc, (<[c := (cpu_on_result (ph c) answer).2]> ph) c) = cpu_on_result (ph c) answer /\
    Inv s' (<[c := (cpu_on_result (ph c) answer).2]> ph).
Proof.
  intros PL I Ht c. destruct (wp_inv _ _ _ (cpu_on_start_ok t ep ph s I Ht)) as (rc & s' & E & answer & Ha & _ & _ & Hrc & I').
  exists answer, rc, s'. split; [done|]. split; [done|]. split; [|done]. rewrite fn_lookup_insert, Hrc. by destruct (cpu_on_result _ _).
Qed.

Lemma psci_cpu_on_spec_witness : exists rc s', @psci_cpu_on_start a8k_demo 0x101 (Ep 0 0 0 0) a8k_booted = Some (rc, s').
Proof.
  destruct (psci_cpu_on_spec a8k_demo 0x101 (Ep 0 0 0 0) a8k_booted (boot_phases 0)) as (answer & rc & s' & _ & E & _).
  - exact a8k_demo_laws.
  - exact a8k_demo_inv.
  - vm_compute. discriminate.
  - exists rc, s'. exact E.
Defined.

(** A suspend request is accepted exactly if some level leaves RUN, no level is asked to be
    shallower than the one above it, and a standby request turns nothing off; otherwise the
    answer is INVALID_PARAMS. *)
Theorem psci_validate_suspend_req_spec (P : Plat) (st : psci_power_state_t) (is_power_down_state : Z) :
  length st = S PLAT_MAX_PWR_LVL ->
  exists r, psci_validate_suspend_req st is_power_down_state = Some r /\
    (r = PSCI_E_SUCCESS \/ r = PSCI_E_INVALID_PARAMS) /\
    (r = PSCI_E_SUCCESS <->
      (exists l, (l <= PLAT_MAX_PWR_LVL)%nat /\ lv st l <> PSCI_LOCAL_STATE_RUN) /\
      (forall l, (l < PLAT_MAX_PWR_LVL)%nat -> find_local_state_type (lv st (S l)) <= find_local_state_type (lv st l)) /\
      (is_power_down_state = 0 -> forall l, (l <= PLAT_MAX_PWR_LVL)%nat -> is_local_state_off (lv st l) = false)).
Proof. apply validate_suspend_req_ok. Qed.

Lemma psci_validate_suspend_req_spec_witness : exists r, @psci_validate_suspend_req a8k_demo [1; 0] 0 = Some r /\ r <> PSCI_E_INVALID_PARAMS.
Proof.
  destruct (psci_validate_suspend_req_spec a8k_demo [1; 0] 0) as (r & E & _ & Hr); [reflexivity|].
  exists r. split; [exact E|]. rewrite (proj2 Hr); [discriminate|]. split.
  - exists 0%nat. split; [vm_compute; lia|vm_compute; discriminate].
  - split; [intros l Hl; change (l < 1)%nat in Hl|intros _ l Hl; change (l <= 1)%nat in Hl]; destruct l as [|[|l]]; try lia;
      vm_compute; try reflexivity; discriminate.
Defined.

(** Coordination records this core's requests, sets every domain above it up to the end level
    to the shallowest state requested for it and reports those states; nothing else about
    domains and requests changes. *)
Theorem psci_state_coordination_spec (P : Plat) (c e : nat) (st : psci_power_state_t) (s : psci) :
  wf (tree s) -> (c < PLATFORM_CORE_COUNT)%nat -> (e <= PLAT_MAX_PWR_LVL)%nat -> bounded s -> mono s ->
  state_ok st -> mono_core (lv st) -> (forall l, (e < l <= PLAT_MAX_PWR_LVL)%nat -> rq s l c = PSCI_LOCAL_STATE_RUN) ->
  exists st' s', psci_do_state_coordination c e st s = Some (st', s') /\
    (forall l c', rq s' l c' = if bool_decide (c' = c /\ (1 <= l <= e)%nat) then lv st l else rq s l c') /\
    (forall l, (1 <= l <= e)%nat -> shallowest s' c l (lv st' l) /\ dm s' (anc (tree s) c l) = lv st' l) /\
    (forall l, ~ (1 <= l <= e)%nat -> lv st' l = lv st l) /\
    (forall i, (forall l, (1 <= l <= e)%nat -> i <> anc (tree s) c l) -> dm s' i = dm s i) /\
    (forall c', dt s' c' = if bool_decide (c' = c) then set_local (dt s c') (lv st 0) else dt s c').
Proof.
  intros W Hc He B M Hst Mst Hab.
  assert (wp (psci_do_state_coordination c e st) (fun st' s' =>
    (forall l c', rq s' l c' = if bool_decide (c' = c /\ (1 <= l <= e)%nat) then lv st l else rq s l c') /\
    (forall l, (1 <= l <= e)%nat -> shallowest s' c l (lv st' l) /\ dm s' (anc (tree s) c l) = lv st' l) /\
    (forall l, ~ (1 <= l <= e)%nat -> lv st' l = lv st l) /\
    (forall i, (forall l, (1 <= l <= e)%nat -> i <> anc (tree s) c l) -> dm s' i = dm s i) /\
    (forall c', dt s' c' = if bool_decide (c' = c) then set_local (dt s c') (lv st 0) else dt s c')) s) as Hw.
  { apply wp_coordination; try done. intros st' s' _ _ _ _ Hj Hs R [D1 D2] _ _ Hd.
    split; [|split; [|split; [done|split; [|done]]]].
    - intros l c'. rewrite R. by repeat case_bool_decide; try lia.
    - intros l Hl. split; [by apply Hs|]. apply D1. lia.
    - intros i Hi. apply D2. intros l Hl. apply Hi. lia. }
  destruct (wp_inv _ _ _ Hw) as (st' & s' & E & Hpost). exists st', s'. split; [exact E|exact Hpost].
Qed.

Lemma psci_state_coordination_spec_witness : exists st' s',
  @psci_do_state_coordination a8k_demo 0 1 [2; 2] a8k_booted = Some (st', s').
Proof.
  pose proof a8k_demo_inv as I.
  destruct (psci_state_coordination_spec a8k_demo 0 1 [2; 2] a8k_booted) as (st' & s' & E & _).
  - apply I.
  - vm_compute. lia.
  - vm_compute. lia.
  - apply I.
  - apply I.
  - split; [reflexivity|]. intros l Hl. change (l <= 1)%nat in Hl. destruct l as [|[|l]]; [split; vm_compute; discriminate..|lia].
  - intros l Hl. change (1 <= l < 1)%nat in Hl. lia.
  - intros l Hl. change (1 < l <= 1)%nat in Hl. lia.
  - exists st', s'. exact E.
Defined.

(** C13: The code takes and gives back the locks of a core's ancestors in the order of [locks] and
    its reverse, and cores that do so in any interleaving cannot deadlock: from every state
    reached while operations start at any time, no schedule of the operations under way is
    longer than the work they have left, and one that cannot be continued has released every
    lock and finished every operation. *)
Theorem psci_locks_liveness (P : Plat) (s : psci) (g : nat -> locker) :
  wf (tree s) -> rtc (fun g g' => lstep (tree s) g g' \/ lstart g g') (fun _ => idle) g ->
  (forall c e, (c < PLATFORM_CORE_COUNT)%nat -> (e <= PLAT_MAX_PWR_LVL)%nat ->
     psci_acquire_pwr_domain_locks e c s = Some (tt, with_log s (log s ++ (LockGet c <$> locks (tree s) c e))) /\
     psci_release_pwr_domain_locks e c s = Some (tt, with_log s (log s ++ (LockRelease c <$> reverse (locks (tree s) c e))))) /\
  (forall n g', nsteps (lstep (tree s)) n g g' -> (n <= total g)%nat /\
     (nf (lstep (tree s)) g' -> forall c, (c < PLATFORM_CORE_COUNT)%nat -> g' c = idle)) /\
  (exists g', rtc (lstep (tree s)) g g' /\ forall c, (c < PLATFORM_CORE_COUNT)%nat -> g' c = idle).
Proof.
  intros W Hr. assert (linv (tree s) g) as I by (eapply linv_rtc; [apply linv_idle|exact Hr]).
  split; [|split; [|by apply can_finish]].
  - intros c e Hc He.
    assert (forall (m : M psci unit) s', wp m (fun _ x => x = s') s -> m s = Some (tt, s')) as Hm.
    { intros m s' Hw. destruct (wp_inv _ _ _ Hw) as ([] & x & -> & ->). done. }
    split; apply Hm; [by apply wp_acquire_locks|by apply wp_release_locks].
  - intros n g' Hn. destruct (steps_bounded _ n g g' I Hn) as [I' Hle]. split; [lia|]. intros Hnf. by apply (stuck_idle (tree s)).
Qed.

Lemma psci_locks_liveness_witness : exists g',
  rtc (@lstep a8k_demo (tree a8k_booted)) (<[0%nat := Locker 0 1 false]> (fun _ => idle)) g' /\
  forall c, (c < 4)%nat -> g' c = idle.
Proof.
  apply (psci_locks_liveness a8k_demo a8k_booted (<[0%nat := Locker 0 1 false]> (fun _ => idle))).
  - apply a8k_demo_inv.
  - eapply rtc_l; [right; apply (@l_start a8k_demo _ 0 1); [vm_compute; lia|reflexivity|vm_compute; lia]|apply rtc_refl].
Defined.
End PsciSpec.
