(* ===== verification/AddrDec.v ===== *)
(** * Address decoding windows of the Armada 7K/8K

    The register windows that route a physical address from the cores to a device, as
    drivers/marvell programs them: ccu.c (cores to DRAM, SRAM or the IO crossbar), io_win.c (the
    crossbar to a chip-to-chip link), iob.c (the bridge of a CP110 to its PCIe units) and amb_adec.c
    (its peripheral bus); the windows the boot loader extension opens while it trains the DRAM
    (plat_ble_setup.c), and those BL2 opens for the coprocessor firmware (mss_bl2_setup.c).

    A register is a 32-bit cell that keeps what was last written; the order of the writes is
    kept too, newest first.  The arrays of windows are part of the state, since the
    drivers store the addresses they align.  Messages are left out, except for
    the lookups the dump functions make to print a name.  [None] is undefined behaviour. *)

From Stdlib Require Import ZArith Lia String.
From stdpp Require Import base option list gmap numbers strings.
From S2P Require Import Prelude.
Open Scope Z_scope.
Open Scope cint_scope.

(** ** Registers: include/lib/mmio.h *)
Record hw := Hw { regs : gmap Z Z; writes : list (Z * Z) }.
Definition mmio_read_32 (h : hw) (addr : Z) : Z := default 0 (regs h !! addr).
Definition mmio_write_32 (addr value : Z) (h : hw) : hw :=
  Hw (<[addr := value]> (regs h)) ((addr, value) :: writes h).

(** Register [off] of window [win], for windows [stride] bytes apart. *)
Definition win_reg (base off stride win : Z) : Z := u64 (base + off + u32 (stride * win)).

(** ** Alignment: include/plat/marvell/common/mvebu.h

    [inv] is the mask [~(align - 1)], which has the type of [align]: sign-extended from an
    [int], or zero-extended from a [uint32_t]. *)
Definition IS_NOT_ALIGN (number align : Z) : bool := negb (Z.land number (align - 1) =? 0).
Definition inv_int (align : Z) : Z := u64 (Z.lnot (align - 1)).
Definition inv_u32 (align : Z) : Z := u32 (Z.lnot (align - 1)).
Definition ALIGN_UP (w number align inv : Z) : Z :=
  if IS_NOT_ALIGN number align then Z.land (wrap w (number + align)) inv else number.
Definition IS_POWER_OF_2 (number : Z) : bool :=
  negb (number =? 0) && (Z.land number (u32 (number - 1)) =? 0).
(** [1 << (32 - __builtin_clz(number - 1))]: the shift counts the bits of [number - 1]; [1]
    is an [int], which has no room for a shift by 31 or more. *)
Definition bit_length (n : Z) : Z := if n =? 0 then 0 else Z.log2 n + 1.
Definition ROUND_UP_TO_POW_OF_2 (number : Z) : option Z :=
  let shift := bit_length (u32 (number - 1)) in
  if (u32 (number - 1) =? 0) || (31 <=? shift) then None else Some (Z.shiftl 1 shift).

(** [struct ccu_win], [struct io_win] and [struct iob_win] have the same members. *)
Record win := Win {
  base_addr_high : Z; base_addr_low : Z; win_size_high : Z; win_size_low : Z; target_id : Z }.
#[global] Instance win_eq_dec : EqDecision win.
Proof. solve_decision. Defined.

Definition win_base (w : win) : Z := Z.shiftl (base_addr_high w) 32 +u64 base_addr_low w.
Definition win_size (w : win) : Z := Z.shiftl (win_size_high w) 32 +u64 win_size_low w.
Definition set_win_base (a : Z) (w : win) : win :=
  Win (u32 (Z.shiftr a 32)) (u32 a) (win_size_high w) (win_size_low w) (target_id w).
Definition set_win_size (a : Z) (w : win) : win :=
  Win (base_addr_high w) (base_addr_low w) (u32 (Z.shiftr a 32)) (u32 a) (target_id w).

Definition WIN_ENABLE_BIT : Z := 0x1.
Definition ADDRESS_SHIFT : Z := 20 - 4.
Definition ADDRESS_MASK : Z := 0xFFFFFFF0.
Definition addr_reg (a : Z) : Z := u32 (Z.land (Z.shiftr a ADDRESS_SHIFT) ADDRESS_MASK).
Definition win_enabled (reg : Z) : bool := negb (Z.land reg WIN_ENABLE_BIT =? 0).
Definition clear_enable (reg : Z) : Z := Z.land reg (u32 (Z.lnot WIN_ENABLE_BIT)).

(** A window as the dump functions print it: its target, its first byte, and the byte
    after its last. *)
Record range := Range { rtarget : Z; rstart : Z; rend : Z }.
#[global] Instance range_eq_dec : EqDecision range.
Proof. solve_decision. Defined.
Definition alr_start (alr : Z) : Z := u64 (Z.shiftl alr ADDRESS_SHIFT).
Definition ahr_end (ahr : Z) : Z := u64 (Z.shiftl (ahr +u64 0x10) ADDRESS_SHIFT).

(** What a board defines in its marvell_plat_config.c and plat_def.h.  The windows of the
    bridges are arrays of their own; [iob_map_index] says which array a CP110 has. *)
Class Board := {
  marvell_get_ccu_reg_offs : Z -> Z;
  marvell_get_ccu_max_win : Z;
  marvell_get_ccu_gcr_target : Z -> Z;
  marvell_get_io_win_reg_offs : Z -> Z;
  marvell_get_io_win_gcr_target : Z -> Z;
  marvell_get_iob_reg_offs : Z -> Z;
  marvell_get_iob_max_win : Z;
  iob_map_index : Z -> option nat;
  marvell_get_amb_reg_offs : Z -> Z;
  CP_COUNT : Z;
}.

Record amb_win := AmbWin { amb_base_addr : Z; amb_win_size : Z; attribute : Z }.
#[global] Instance amb_win_eq_dec : EqDecision amb_win.
Proof. solve_decision. Defined.

(** The globals of the four drivers, the arrays of windows and the registers. *)
Record adec := Adec {
  ccu_base : Z; ccu_max_win : Z;
  io_win_base : Z;
  iob_base : Z; iob_max_win : Z;
  amb_base : Z;
  ccu_memory_map : list win; io_win_memory_map : list win;
  iob_memory_maps : list (list win); amb_memory_map : list amb_win;
  mmio : hw;
}.

(** Registers of the windows [win_id, win_id + 1, ...], changed one after the other. *)
Fixpoint each_win (f : Z -> hw -> hw) (win_id : Z) (n : nat) (h : hw) : hw :=
  match n with O => h | S n => each_win f (win_id + 1) n (f win_id h) end.

(** ** drivers/marvell/ccu.c *)
Module Ccu.
Definition CCU_WIN_ALIGNMENT : Z := 0x100000.
Definition CCU_MAX_WIN_NUM : Z := 8.
Definition CCU_WIN_CR_OFFSET (base win : Z) : Z := win_reg base 0x0 0x10 win.
Definition CCU_TARGET_ID_OFFSET : Z := 8.
Definition CCU_TARGET_ID_MASK : Z := 0x7F.
Definition CCU_WIN_SCR_OFFSET (base win : Z) : Z := win_reg base 0x4 0x10 win.
Definition CCU_WIN_ENA_WRITE_SECURE : Z := 0x1.
Definition CCU_WIN_ALR_OFFSET (base win : Z) : Z := win_reg base 0x8 0x10 win.
Definition CCU_WIN_AHR_OFFSET (base win : Z) : Z := win_reg base 0xC 0x10 win.
Definition CCU_WIN_GCR_OFFSET (base : Z) : Z := u64 (base + 0xD0).
Definition CCU_GCR_TARGET_OFFSET : Z := 8.
Definition CCU_GCR_TARGET_MASK : Z := 0xF.

Definition IO_0_TID : Z := 0x00.
Definition DRAM_0_TID : Z := 0x03.
Definition IO_1_TID : Z := 0x0F.
Definition CFG_REG_TID : Z := 0x10.
Definition RAR_TID : Z := 0x20.
Definition SRAM_TID : Z := 0x40.
Definition DRAM_1_TID : Z := 0xC0.
Definition CCU_MAX_TID : Z := 0xC1.
Definition INVALID_TID : Z := 0xFF.

Definition ccu_win_check (w : win) : win :=
  let start_addr := win_base w in
  let w := if IS_NOT_ALIGN start_addr CCU_WIN_ALIGNMENT
           then set_win_base (ALIGN_UP 64 start_addr CCU_WIN_ALIGNMENT (inv_int CCU_WIN_ALIGNMENT)) w
           else w in
  let win_size := win_size w in
  if IS_NOT_ALIGN win_size CCU_WIN_ALIGNMENT
  then set_win_size (ALIGN_UP 64 win_size CCU_WIN_ALIGNMENT (inv_int CCU_WIN_ALIGNMENT)) w
  else w.

Definition ccu_enable_win (base : Z) (w : win) (win_id : Z) (h : hw) : hw :=
  let start_addr := win_base w in
  let end_addr := start_addr + win_size w -u64 1 in
  let alr := addr_reg start_addr in
  let ahr := addr_reg end_addr in
  let h := mmio_write_32 (CCU_WIN_ALR_OFFSET base win_id) alr h in
  let h := mmio_write_32 (CCU_WIN_AHR_OFFSET base win_id) ahr h in
  let ccu_win_reg := Z.lor WIN_ENABLE_BIT
                       (Z.shiftl (Z.land (target_id w) CCU_TARGET_ID_MASK) CCU_TARGET_ID_OFFSET) in
  mmio_write_32 (CCU_WIN_CR_OFFSET base win_id) ccu_win_reg h.

Definition ccu_disable_win (base win_id : Z) (h : hw) : hw :=
  let win_reg := clear_enable (mmio_read_32 h (CCU_WIN_CR_OFFSET base win_id)) in
  let h := mmio_write_32 (CCU_WIN_CR_OFFSET base win_id) win_reg h in
  mmio_write_32 (CCU_WIN_SCR_OFFSET base win_id) CCU_WIN_ENA_WRITE_SECURE h.

(** The loop that fills the windows: it stops at the last window or the last entry. *)
Fixpoint ccu_enable_wins (base max_win : Z) (wins : list win) (win_id : Z) (h : hw) : list win * hw :=
  match wins with
  | [] => ([], h)
  | w :: rest =>
      if win_id <? max_win then
        let w := ccu_win_check w in
        let '(rest, h) := ccu_enable_wins base max_win rest (win_id + 1) (ccu_enable_win base w win_id h) in
        (w :: rest, h)
      else (wins, h)
  end.

Definition ccu_max (n : Z) : Z := if (n =? 0) || (CCU_MAX_WIN_NUM <? n) then CCU_MAX_WIN_NUM else n.

Section init.
Context `{Board}.
Definition init_ccu (ap_index : Z) (s : adec) : Z * adec :=
  let base := marvell_get_ccu_reg_offs ap_index in
  let max_win := ccu_max (u32 marvell_get_ccu_max_win) in
  let with_map map h := Adec base max_win (io_win_base s) (iob_base s) (iob_max_win s) (amb_base s)
                          map (io_win_memory_map s) (iob_memory_maps s) (amb_memory_map s) h in
  if zlen (ccu_memory_map s) <=? 0 then (0, with_map (ccu_memory_map s) (mmio s))
  else
    let win_reg := Z.shiftl (Z.land (marvell_get_ccu_gcr_target ap_index) CCU_GCR_TARGET_MASK)
                            CCU_GCR_TARGET_OFFSET in
    let h := mmio_write_32 (CCU_WIN_GCR_OFFSET base) win_reg (mmio s) in
    let h := each_win (ccu_disable_win base) 1 (Z.to_nat (max_win - 1)) h in
    let '(map, h) := ccu_enable_wins base max_win (ccu_memory_map s) 1 h in
    (0, with_map map h).
End init.

(** What [dump_ccu] prints of a window, and of all other addresses. *)
Definition ccu_range (h : hw) (base win_id : Z) : option range :=
  let win_cr := mmio_read_32 h (CCU_WIN_CR_OFFSET base win_id) in
  if win_enabled win_cr then
    let target_id := Z.land (Z.shiftr win_cr CCU_TARGET_ID_OFFSET) CCU_TARGET_ID_MASK in
    let alr := mmio_read_32 h (CCU_WIN_ALR_OFFSET base win_id) in
    let ahr := mmio_read_32 h (CCU_WIN_AHR_OFFSET base win_id) in
    Some (Range target_id (alr_start alr) (ahr_end ahr))
  else None.
Definition ccu_default (h : hw) (base : Z) : Z :=
  Z.land (Z.shiftr (mmio_read_32 h (CCU_WIN_GCR_OFFSET base)) CCU_GCR_TARGET_OFFSET) CCU_GCR_TARGET_MASK.

Definition ccu_target_name_table : list (Z * string) :=
  [(IO_0_TID, "IO-0"); (DRAM_0_TID, "DRAM-0"); (IO_1_TID, "IO-1"); (CFG_REG_TID, "CFG-REG");
   (RAR_TID, "RAR"); (SRAM_TID, "SRAM"); (DRAM_1_TID, "DRAM-1"); (INVALID_TID, "INVALID")]%string.
(** [None]: the loop read an entry the table does not have. *)
Fixpoint ccu_name_loop (n : nat) (i : nat) (trgt_id : Z) : option (option string) :=
  match n with
  | O => Some None
  | S n => '(tid, name) ← ccu_target_name_table !! i;
           if tid =? trgt_id then Some (Some name) else ccu_name_loop n (S i) trgt_id
  end.
Definition ccu_target_name_get (trgt_id : Z) : option string :=
  r ← ccu_name_loop (Z.to_nat CCU_MAX_TID) 0 trgt_id;
  match r with
  | Some name => Some name
  | None => mjoin (ccu_name_loop (Z.to_nat CCU_MAX_TID) 0 INVALID_TID)
  end.
Definition dump_ccu (h : hw) (base max_win : Z) : option (list (Z * string * Z * Z) * string) :=
  rows ← mapM (fun win_id => match ccu_range h base win_id with
                             | Some r => name ← ccu_target_name_get (rtarget r);
                                         Some [(win_id, name, rstart r, rend r)]
                             | None => Some []
                             end) (seqZ 0 max_win);
  name ← ccu_target_name_get (ccu_default h base);
  Some (concat rows, name).
End Ccu.

(** ** drivers/marvell/io_win.c *)
Module IoWin.
Definition IO_WIN_ALIGNMENT_1M : Z := 0x100000.
Definition IO_WIN_ALR_OFFSET (base win : Z) : Z := win_reg base 0x0 0x10 win.
Definition IO_WIN_AHR_OFFSET (base win : Z) : Z := win_reg base 0x8 0x10 win.
Definition IO_WIN_CR_OFFSET (base win : Z) : Z := win_reg base 0xC 0x10 win.
Definition MVEBU_IO_WIN_GCR_OFFSET : Z := 0x70.
Definition IO_WIN_MAX_NUM : Z := 7.

Definition MCI_0_TID : Z := 0x0.
Definition MCI_1_TID : Z := 0x1.
Definition MCI_2_TID : Z := 0x2.
Definition PIDI_TID : Z := 0x3.
Definition SPI_TID : Z := 0x4.
Definition STM_TID : Z := 0x5.
Definition BOOTROM_TID : Z := 0x6.
Definition IO_WIN_MAX_TID : Z := 7.

(** The size is aligned to a [uint32_t], the base to an [int]. *)
Definition io_win_check (w : win) : win :=
  let base_addr := win_base w in
  let w := if IS_NOT_ALIGN base_addr IO_WIN_ALIGNMENT_1M
           then set_win_base (ALIGN_UP 64 base_addr IO_WIN_ALIGNMENT_1M (inv_int IO_WIN_ALIGNMENT_1M)) w
           else w in
  let win_size := win_size w in
  if IS_NOT_ALIGN win_size IO_WIN_ALIGNMENT_1M
  then set_win_size (ALIGN_UP 64 win_size IO_WIN_ALIGNMENT_1M (inv_u32 IO_WIN_ALIGNMENT_1M)) w
  else w.

Definition io_win_enable_window (base : Z) (w : win) (win_num : Z) (h : hw) : hw :=
  if (target_id w <? 0) || (IO_WIN_MAX_NUM <=? target_id w) then h
  else
    let start_addr := win_base w in
    let end_addr := start_addr + win_size w -u64 1 in
    let alr := Z.lor (addr_reg start_addr) WIN_ENABLE_BIT in
    let ahr := addr_reg end_addr in
    let h := mmio_write_32 (IO_WIN_ALR_OFFSET base win_num) alr h in
    let h := mmio_write_32 (IO_WIN_AHR_OFFSET base win_num) ahr h in
    mmio_write_32 (IO_WIN_CR_OFFSET base win_num) (target_id w) h.

Definition io_win_disable (base win_id : Z) (h : hw) : hw :=
  let win_reg := clear_enable (mmio_read_32 h (IO_WIN_ALR_OFFSET base win_id)) in
  mmio_write_32 (IO_WIN_ALR_OFFSET base win_id) win_reg h.

Fixpoint io_win_enable_wins (base : Z) (wins : list win) (win_id : Z) (h : hw) : list win * hw :=
  match wins with
  | [] => ([], h)
  | w :: rest =>
      let w := io_win_check w in
      let '(rest, h) := io_win_enable_wins base rest (win_id + 1) (io_win_enable_window base w win_id h) in
      (w :: rest, h)
  end.

Section init.
Context `{Board}.
Definition init_io_win (ap_index : Z) (s : adec) : Z * adec :=
  let base := marvell_get_io_win_reg_offs ap_index in
  let with_map map h := Adec (ccu_base s) (ccu_max_win s) base (iob_base s) (iob_max_win s) (amb_base s)
                          (ccu_memory_map s) map (iob_memory_maps s) (amb_memory_map s) h in
  if IO_WIN_MAX_NUM <? zlen (io_win_memory_map s) then (0, with_map (io_win_memory_map s) (mmio s))
  else
    let win_reg := marvell_get_io_win_gcr_target ap_index in
    let h := mmio_write_32 (u64 (base + MVEBU_IO_WIN_GCR_OFFSET)) win_reg (mmio s) in
    let h := each_win (io_win_disable base) 0 (Z.to_nat IO_WIN_MAX_NUM) h in
    let '(map, h) := io_win_enable_wins base (io_win_memory_map s) 1 h in
    (0, with_map map h).
End init.

(** What [dump_io_win] prints of a window: window 0 belongs to the boot ROM. *)
Definition io_win_range (h : hw) (base win_id : Z) : option range :=
  let alr := mmio_read_32 h (IO_WIN_ALR_OFFSET base win_id) in
  if win_enabled alr then
    let alr := clear_enable alr in
    let '(ahr, trgt_id) :=
      if win_id =? 0 then (alr, BOOTROM_TID)
      else (mmio_read_32 h (IO_WIN_AHR_OFFSET base win_id), mmio_read_32 h (IO_WIN_CR_OFFSET base win_id)) in
    Some (Range trgt_id (alr_start alr) (ahr_end ahr))
  else None.
Definition io_win_default (h : hw) (base : Z) : Z := mmio_read_32 h (u64 (base + MVEBU_IO_WIN_GCR_OFFSET)).
End IoWin.

(** ** drivers/marvell/iob.c *)
Module Iob.
Definition IOB_WIN_ALIGNMENT : Z := 0x100000.
Definition IOB_MAX_WIN_NUM : Z := 24.
Definition IOB_WIN_CR_OFFSET (base win : Z) : Z := win_reg base 0x0 0x20 win.
Definition IOB_TARGET_ID_OFFSET : Z := 8.
Definition IOB_TARGET_ID_MASK : Z := 0xF.
Definition IOB_WIN_SCR_OFFSET (base win : Z) : Z := win_reg base 0x4 0x20 win.
Definition IOB_WIN_ENA_CTRL_WRITE_SECURE : Z := 0x1.
Definition IOB_WIN_ENA_CTRL_READ_SECURE : Z := 0x2.
Definition IOB_WIN_ENA_WRITE_SECURE : Z := 0x4.
Definition IOB_WIN_ENA_READ_SECURE : Z := 0x8.
Definition IOB_WIN_ALR_OFFSET (base win : Z) : Z := win_reg base 0x8 0x20 win.
Definition IOB_WIN_AHR_OFFSET (base win : Z) : Z := win_reg base 0xC 0x20 win.

Definition INTERNAL_TID : Z := 0x0.
Definition MCI0_TID : Z := 0x1.
Definition PEX1_TID : Z := 0x2.
Definition PEX2_TID : Z := 0x3.
Definition PEX0_TID : Z := 0x4.
Definition NAND_TID : Z := 0x5.
Definition RUNIT_TID : Z := 0x6.
Definition MCI1_TID : Z := 0x7.

Definition iob_win_check (w : win) : win :=
  let base_addr := win_base w in
  let w := if IS_NOT_ALIGN base_addr IOB_WIN_ALIGNMENT
           then set_win_base (ALIGN_UP 64 base_addr IOB_WIN_ALIGNMENT (inv_int IOB_WIN_ALIGNMENT)) w
           else w in
  let win_size := win_size w in
  if IS_NOT_ALIGN win_size IOB_WIN_ALIGNMENT
  then set_win_size (ALIGN_UP 64 win_size IOB_WIN_ALIGNMENT (inv_int IOB_WIN_ALIGNMENT)) w
  else w.

Definition iob_enable_win (base : Z) (w : win) (win_id : Z) (h : hw) : hw :=
  let iob_win_reg := Z.lor WIN_ENABLE_BIT
                       (Z.shiftl (Z.land (target_id w) IOB_TARGET_ID_MASK) IOB_TARGET_ID_OFFSET) in
  let h := mmio_write_32 (IOB_WIN_CR_OFFSET base win_id) iob_win_reg h in
  let start_addr := win_base w in
  let end_addr := start_addr + win_size w -u64 1 in
  let alr := addr_reg start_addr in
  let ahr := addr_reg end_addr in
  let h := mmio_write_32 (IOB_WIN_ALR_OFFSET base win_id) alr h in
  mmio_write_32 (IOB_WIN_AHR_OFFSET base win_id) ahr h.

Definition iob_not_secure : Z :=
  let win_reg := u32 (Z.lnot IOB_WIN_ENA_CTRL_WRITE_SECURE) in
  let win_reg := Z.land win_reg (Z.lnot IOB_WIN_ENA_CTRL_READ_SECURE) in
  let win_reg := Z.land win_reg (Z.lnot IOB_WIN_ENA_WRITE_SECURE) in
  Z.land win_reg (Z.lnot IOB_WIN_ENA_READ_SECURE).
Definition iob_disable_win (base win_id : Z) (h : hw) : hw :=
  let win_reg := clear_enable (mmio_read_32 h (IOB_WIN_CR_OFFSET base win_id)) in
  let h := mmio_write_32 (IOB_WIN_CR_OFFSET base win_id) win_reg h in
  mmio_write_32 (IOB_WIN_SCR_OFFSET base win_id) iob_not_secure h.

Fixpoint iob_enable_wins (base : Z) (wins : list win) (win_id : Z) (h : hw) : list win * hw :=
  match wins with
  | [] => ([], h)
  | w :: rest =>
      let w := iob_win_check w in
      let '(rest, h) := iob_enable_wins base rest (win_id + 1) (iob_enable_win base w win_id h) in
      (w :: rest, h)
  end.

Section init.
Context `{Board}.
(** The array of a CP110; a CP110 the board does not know has none. *)
Definition marvell_get_iob_memory_map (maps : list (list win)) (cp_index : Z) : list win :=
  match iob_map_index cp_index with Some i => default [] (maps !! i) | None => [] end.
Definition set_iob_memory_map (maps : list (list win)) (cp_index : Z) (map : list win) : list (list win) :=
  match iob_map_index cp_index with Some i => <[i := map]> maps | None => maps end.

Definition init_iob (cp_index : Z) (s : adec) : Z * adec :=
  let base := marvell_get_iob_reg_offs cp_index in
  let max_win := if u32 marvell_get_iob_max_win =? 0 then IOB_MAX_WIN_NUM else u32 marvell_get_iob_max_win in
  let with_maps maps h := Adec (ccu_base s) (ccu_max_win s) (io_win_base s) base max_win (amb_base s)
                            (ccu_memory_map s) (io_win_memory_map s) maps (amb_memory_map s) h in
  let win := marvell_get_iob_memory_map (iob_memory_maps s) cp_index in
  if zlen win <=? 0 then (0, with_maps (iob_memory_maps s) (mmio s))
  else
    let h := each_win (iob_disable_win base) 1 (Z.to_nat (max_win - 1)) (mmio s) in
    let '(map, h) := iob_enable_wins base win 1 h in
    (0, with_maps (set_iob_memory_map (iob_memory_maps s) cp_index map) h).
End init.

(** What [dump_iob] prints of a window: window 0, the configuration space, has a fixed size. *)
Definition iob_range (h : hw) (base win_id : Z) : option range :=
  let win_cr := mmio_read_32 h (IOB_WIN_CR_OFFSET base win_id) in
  if win_enabled win_cr then
    let target_id := Z.land (Z.shiftr win_cr IOB_TARGET_ID_OFFSET) IOB_TARGET_ID_MASK in
    let start := alr_start (mmio_read_32 h (IOB_WIN_ALR_OFFSET base win_id)) in
    let stop := if negb (win_id =? 0) then ahr_end (mmio_read_32 h (IOB_WIN_AHR_OFFSET base win_id))
                else start +u64 Z.shiftl 16 20 in
    Some (Range target_id start stop)
  else None.
End Iob.

(** ** drivers/marvell/amb_adec.c *)
Module Amb.
Definition AMB_WIN_CR_OFFSET (base win : Z) : Z := win_reg base 0x0 0x8 win.
Definition AMB_ATTR_OFFSET : Z := 8.
Definition AMB_ATTR_MASK : Z := 0xFF.
Definition AMB_SIZE_OFFSET : Z := 16.
Definition AMB_SIZE_MASK : Z := 0xFF.
Definition AMB_WIN_BASE_OFFSET (base win : Z) : Z := win_reg base 0x4 0x8 win.
Definition AMB_BASE_OFFSET : Z := 16.
Definition AMB_WIN_ALIGNMENT_64K : Z := 0x10000.
Definition AMB_WIN_ALIGNMENT_1M : Z := 0x100000.
Definition AMB_MAX_WIN_ID : Z := 7.
Definition AMB_SPI1_CS0_ID : Z := 0x1A.
Definition AMB_DEV_CS0_ID : Z := 0x3E.

Definition amb_check_win (w : amb_win) : option amb_win :=
  let alignment_value := AMB_WIN_ALIGNMENT_1M in
  let base_addr := u32 (Z.shiftl (amb_base_addr w) AMB_BASE_OFFSET) in
  let w := if IS_NOT_ALIGN base_addr alignment_value
           then AmbWin (ALIGN_UP 32 base_addr alignment_value (inv_u32 alignment_value))
                       (amb_win_size w) (attribute w)
           else w in
  if negb (IS_POWER_OF_2 (amb_win_size w)) then
    size ← ROUND_UP_TO_POW_OF_2 (amb_win_size w);
    Some (AmbWin (amb_base_addr w) size (attribute w))
  else Some w.

Definition amb_enable_win (base : Z) (w : amb_win) (win_num : Z) (h : hw) : hw :=
  let size := amb_win_size w `quot` AMB_WIN_ALIGNMENT_64K -u32 1 in
  let ctrl := Z.lor (u32 (Z.shiftl size AMB_SIZE_OFFSET)) (u32 (Z.shiftl (attribute w) AMB_ATTR_OFFSET)) in
  let base_reg := u32 (Z.shiftl (amb_base_addr w) AMB_BASE_OFFSET) in
  let h := mmio_write_32 (AMB_WIN_BASE_OFFSET base win_num) base_reg h in
  let h := mmio_write_32 (AMB_WIN_CR_OFFSET base win_num) ctrl h in
  let ctrl := Z.lor ctrl WIN_ENABLE_BIT in
  mmio_write_32 (AMB_WIN_CR_OFFSET base win_num) ctrl h.

Definition amb_disable_win (base win_id : Z) (h : hw) : hw :=
  let win_reg := clear_enable (mmio_read_32 h (AMB_WIN_CR_OFFSET base win_id)) in
  mmio_write_32 (AMB_WIN_CR_OFFSET base win_id) win_reg h.

Fixpoint amb_enable_wins (base : Z) (wins : list amb_win) (win_id : Z) (h : hw) : option (list amb_win * hw) :=
  match wins with
  | [] => Some ([], h)
  | w :: rest =>
      w ← amb_check_win w;
      '(rest, h) ← amb_enable_wins base rest (win_id + 1) (amb_enable_win base w win_id h);
      Some (w :: rest, h)
  end.

Section init.
Context `{Board}.
Definition init_amb_adec (cp_index : Z) (s : adec) : option (Z * adec) :=
  let base := marvell_get_amb_reg_offs cp_index in
  let with_map map h := Adec (ccu_base s) (ccu_max_win s) (io_win_base s) (iob_base s) (iob_max_win s) base
                          (ccu_memory_map s) (io_win_memory_map s) (iob_memory_maps s) map h in
  if AMB_MAX_WIN_ID <? zlen (amb_memory_map s) then Some (0, with_map (amb_memory_map s) (mmio s))
  else
    let h := each_win (amb_disable_win base) 0 (Z.to_nat AMB_MAX_WIN_ID) (mmio s) in
    '(map, h) ← amb_enable_wins base (amb_memory_map s) 0 h;
    Some (0, with_map map h).
End init.

(** What [dump_amb_adec] prints of a window. *)
Definition amb_range (h : hw) (base win_id : Z) : option range :=
  let ctrl := mmio_read_32 h (AMB_WIN_CR_OFFSET base win_id) in
  if win_enabled ctrl then
    let start := mmio_read_32 h (AMB_WIN_BASE_OFFSET base win_id) in
    let attr := Z.land (Z.shiftr ctrl AMB_ATTR_OFFSET) AMB_ATTR_MASK in
    let size_count := Z.land (Z.shiftr ctrl AMB_SIZE_OFFSET) AMB_SIZE_MASK in
    let size := (size_count + 1) *u32 AMB_WIN_ALIGNMENT_64K in
    Some (Range attr start (start + size))
  else None.
End Amb.
