(* ===== verification/AddrDecProps.v ===== *)
(** * Lemmas on the address decoding windows

    A window occupies one block of registers, and every step of the drivers stays within the
    block of its window ([WinStep]), so a sequence of steps over windows amounts to each step
    in its own block ([each_win_block], [each_win_frame]).  Then what the registers of a
    programmed window decode to, and the loops of the drivers as such sequences. *)

From Stdlib Require Import ZArith Lia String.
From stdpp Require Import base option list gmap numbers strings.
From S2P Require Import Prelude AddrDec.
Open Scope Z_scope.
Open Scope cint_scope.

Lemma read_write h a b v :
  mmio_read_32 (mmio_write_32 b v h) a = if a =? b then v else mmio_read_32 h a.
Proof.
  unfold mmio_read_32, mmio_write_32; cbn. destruct (Z.eqb_spec a b) as [->|].
  - by rewrite lookup_insert_eq.
  - by rewrite lookup_insert_ne.
Qed.

(** The registers in [[lo, hi)] are the same; those outside are. *)
Definition agree (lo hi : Z) (h h' : hw) : Prop :=
  forall a, lo <= a < hi -> mmio_read_32 h a = mmio_read_32 h' a.
Definition same_outside (lo hi : Z) (h h' : hw) : Prop :=
  forall a, a < lo \/ hi <= a -> mmio_read_32 h' a = mmio_read_32 h a.

Lemma same_outside_refl lo hi h : same_outside lo hi h h.
Proof. by intros a. Qed.
Lemma same_outside_trans lo hi h1 h2 h3 :
  same_outside lo hi h1 h2 -> same_outside lo hi h2 h3 -> same_outside lo hi h1 h3.
Proof. intros H1 H2 a Ha. rewrite H2, H1; done. Qed.
Lemma same_outside_mono lo hi lo' hi' h h' :
  lo' <= lo -> hi <= hi' -> same_outside lo hi h h' -> same_outside lo' hi' h h'.
Proof. intros ? ? H a Ha. apply H. lia. Qed.
Lemma same_outside_write lo hi a v h : lo <= a < hi -> same_outside lo hi h (mmio_write_32 a v h).
Proof. intros Ha b Hb. rewrite read_write. destruct (Z.eqb_spec b a); [lia|done]. Qed.
Lemma same_outside_agree lo hi lo' hi' h h' :
  same_outside lo hi h h' -> hi <= lo' \/ hi' <= lo -> agree lo' hi' h' h.
Proof. intros H ? a ?. apply H. lia. Qed.
Lemma agree_refl lo hi h : agree lo hi h h.
Proof. by intros a. Qed.
Lemma agree_sym lo hi h h' : agree lo hi h h' -> agree lo hi h' h.
Proof. intros H a Ha. symmetry. by apply H. Qed.
Lemma agree_trans lo hi h1 h2 h3 : agree lo hi h1 h2 -> agree lo hi h2 h3 -> agree lo hi h1 h3.
Proof. intros H1 H2 a Ha. rewrite H1, H2; done. Qed.
Lemma agree_mono lo hi lo' hi' h h' : lo <= lo' -> hi' <= hi -> agree lo hi h h' -> agree lo' hi' h h'.
Proof. intros ? ? H a Ha. apply H. lia. Qed.
Lemma agree_write lo hi a v h h' :
  agree lo hi h h' -> agree lo hi (mmio_write_32 a v h) (mmio_write_32 a v h').
Proof. intros H b Hb. rewrite !read_write. destruct (b =? a); auto. Qed.

Create HintDb adec.
#[export] Hint Resolve same_outside_refl same_outside_trans same_outside_write agree_refl
  agree_write : adec.

(** ** Steps on the block of a window *)
Section blocks.
Context (base stride : Z).

(** [f] at a window below [bound] reads and writes the registers of that window only. *)
Record WinStep (bound : Z) (f : Z -> hw -> hw) : Prop := {
  step_frame id h : 0 <= id < bound -> same_outside (base + stride * id) (base + stride * (id + 1)) h (f id h);
  step_local id h h' : 0 <= id < bound ->
    agree (base + stride * id) (base + stride * (id + 1)) h h' ->
    agree (base + stride * id) (base + stride * (id + 1)) (f id h) (f id h');
}.

(** The steps [f x], for the entries [x] of a list, on windows [i, i + 1, ...]. *)
Fixpoint wins_loop {A} (f : A -> Z -> hw -> hw) (l : list A) (i : Z) (h : hw) : hw :=
  match l with [] => h | x :: l => wins_loop f l (i + 1) (f x i h) end.

Context {A : Type} (bound : Z) (f : A -> Z -> hw -> hw) (Hstride : 0 < stride) (Hf : forall x, WinStep bound (f x)).

Lemma wins_loop_frame l : forall i h, 0 <= i -> i + zlen l <= bound ->
  same_outside (base + stride * i) (base + stride * (i + zlen l)) h (wins_loop f l i h).
Proof.
  induction l as [|x l IH]; intros i h Hi Hn; cbn [wins_loop]; [apply same_outside_refl|].
  rewrite zlen_cons in *. pose proof (zlen_nonneg l). apply (same_outside_trans _ _ _ (f x i h)).
  - eapply same_outside_mono; [| |eapply step_frame; [exact (Hf x)|lia]]; nia.
  - eapply same_outside_mono; [| |apply IH; lia]; nia.
Qed.

Lemma wins_loop_block l : forall i h x id, 0 <= i -> i + zlen l <= bound -> i <= id -> l !! Z.to_nat (id - i) = Some x ->
  agree (base + stride * id) (base + stride * (id + 1)) (wins_loop f l i h) (f x id h).
Proof.
  induction l as [|y l IH]; intros i h x id Hi Hn Hid Hx; [done|]. cbn [wins_loop].
  rewrite zlen_cons in Hn. pose proof (zlen_nonneg l). destruct (decide (id = i)) as [->|].
  - replace (Z.to_nat (i - i)) with 0%nat in Hx by lia. injection Hx as ->.
    eapply same_outside_agree; [apply wins_loop_frame; lia|]. right. nia.
  - replace (Z.to_nat (id - i)) with (S (Z.to_nat (id - (i + 1)))) in Hx by lia.
    apply lookup_lt_Some in Hx as ?. cbn in *.
    eapply agree_trans; [apply (IH (i + 1) _ x); auto; lia|].
    eapply step_local; [exact (Hf x)|unfold zlen in *; lia|].
    eapply same_outside_agree; [eapply step_frame; [exact (Hf y)|lia]|]. nia.
Qed.
End blocks.

Lemma each_win_loop f n : forall i h, each_win f i n h = wins_loop (fun _ : unit => f) (replicate n tt) i h.
Proof. induction n as [|n IH]; intros i h; [done|]. cbn. apply IH. Qed.

Section each.
Context (base stride bound : Z) (f : Z -> hw -> hw) (Hstride : 0 < stride) (Hf : WinStep base stride bound f).
Lemma each_win_frame n i h : 0 <= i -> i + Z.of_nat n <= bound ->
  same_outside (base + stride * i) (base + stride * (i + Z.of_nat n)) h (each_win f i n h).
Proof.
  intros. rewrite each_win_loop. replace (Z.of_nat n) with (zlen (replicate n tt)) in *
    by (unfold zlen; by rewrite length_replicate). by eapply wins_loop_frame.
Qed.
Lemma each_win_block n i h id : 0 <= i -> i + Z.of_nat n <= bound -> i <= id < i + Z.of_nat n ->
  agree (base + stride * id) (base + stride * (id + 1)) (each_win f i n h) (f id h).
Proof.
  intros. rewrite each_win_loop. apply (wins_loop_block base stride bound (fun _ : unit => f) Hstride (fun _ => Hf) _ _ _ tt); [lia| |lia|].
  - unfold zlen. rewrite length_replicate. lia.
  - apply lookup_replicate_2. lia.
Qed.
End each.

Lemma win_reg_eq base off stride w : 0 <= base < 2 ^ 62 -> 0 <= off < 2 ^ 32 -> 0 <= stride * w < 2 ^ 32 ->
  win_reg base off stride w = base + off + stride * w.
Proof. intros. unfold win_reg. rewrite (wrap_small 32) by done. apply wrap_small. lia. Qed.

(** ** Values of the registers *)
Lemma clear_enable_off r : win_enabled (clear_enable r) = false.
Proof.
  unfold win_enabled, clear_enable. rewrite <- Z.land_assoc. change (Z.land _ WIN_ENABLE_BIT) with 0.
  by rewrite Z.land_0_r.
Qed.

Definition MB : Z := 0x100000.
(** The next multiple of 1 MB. *)
Definition up (a : Z) : Z := (a + (MB - 1)) / MB * MB.

Lemma land_mb a : Z.land a (MB - 1) = a mod MB.
Proof. change (MB - 1) with (Z.ones 20). change MB with (2 ^ 20). by apply Z.land_ones. Qed.
Lemma up_mult a : exists k, up a = MB * k.
Proof. exists ((a + (MB - 1)) / MB). unfold up. lia. Qed.
Lemma up_aligned a : a mod MB = 0 -> up a = a.
Proof. intros E. unfold up, MB in *. dlia. Qed.
Lemma up_bounds a : a <= up a < a + MB.
Proof. unfold up, MB. dlia. Qed.
Lemma up_up a : up (up a) = up a.
Proof. unfold up, MB. dlia. Qed.

Lemma IS_NOT_ALIGN_mb a : IS_NOT_ALIGN a MB = negb (a mod MB =? 0).
Proof. unfold IS_NOT_ALIGN. by rewrite land_mb. Qed.

Lemma land_inv_int a : 0 <= a < 2 ^ 64 -> Z.land a (inv_int MB) = a / MB * MB.
Proof.
  intros Ha. change (inv_int MB) with (Z.shiftl (Z.ones 44) 20).
  transitivity (Z.shiftl (Z.shiftr a 20) 20); [|by rewrite Z.shiftl_mul_pow2, Z.shiftr_div_pow2].
  replace a with (Z.land a (Z.ones 64)) by (rewrite Z.land_ones by lia; by apply Z.mod_small).
  bits.
Qed.
Lemma land_inv_u32 a : 0 <= a < 2 ^ 64 -> Z.land a (inv_u32 MB) = (a / MB * MB) mod 2 ^ 32.
Proof.
  intros Ha. change (inv_u32 MB) with (Z.shiftl (Z.ones 12) 20).
  transitivity (Z.land (Z.shiftl (Z.shiftr a 20) 20) (Z.ones 32)).
  - bits.
  - rewrite Z.land_ones by lia. by rewrite Z.shiftl_mul_pow2, Z.shiftr_div_pow2.
Qed.
Lemma ALIGN_UP_int a : 0 <= a -> a + MB <= 2 ^ 64 -> ALIGN_UP 64 a MB (inv_int MB) = up a.
Proof.
  intros ? ?. unfold ALIGN_UP. rewrite IS_NOT_ALIGN_mb. destruct (Z.eqb_spec (a mod MB) 0) as [E|E]; cbn [negb].
  - by rewrite up_aligned.
  - rewrite wrap_small, land_inv_int; unfold up, MB in *; dlia.
Qed.

(** ** Windows *)
Definition win_ok (w : win) : Prop :=
  in_u 32 (base_addr_high w) /\ in_u 32 (base_addr_low w) /\
  in_u 32 (win_size_high w) /\ in_u 32 (win_size_low w) /\ in_u 32 (target_id w).

Lemma hi_lo hi lo : in_u 32 hi -> in_u 32 lo ->
  Z.shiftl hi 32 +u64 lo = hi * 2 ^ 32 + lo /\ 0 <= hi * 2 ^ 32 + lo < 2 ^ 64.
Proof.
  unfold in_u. intros ? ?. rewrite Z.shiftl_mul_pow2 by lia. split; [apply wrap_small|]; lia.
Qed.
Lemma split_hi_lo a : 0 <= a < 2 ^ 64 -> Z.shiftl (u32 (Z.shiftr a 32)) 32 +u64 u32 a = a.
Proof.
  intros Ha. rewrite Z.shiftr_div_pow2 by lia.
  destruct (hi_lo (u32 (a / 2 ^ 32)) (u32 a)) as [-> _];
    [unfold in_u; apply wrap_range; lia..|]. unfold wrap. dlia.
Qed.
Lemma win_base_range w : win_ok w -> 0 <= win_base w < 2 ^ 64.
Proof. intros (H1 & H2 & _). destruct (hi_lo _ _ H1 H2) as [E ?]. unfold win_base. by rewrite E. Qed.
Lemma win_size_range w : win_ok w -> 0 <= win_size w < 2 ^ 64.
Proof. intros (_ & _ & H1 & H2 & _). destruct (hi_lo _ _ H1 H2) as [E ?]. unfold win_size. by rewrite E. Qed.
Lemma set_win_base_ok a w : win_ok w -> win_ok (set_win_base a w).
Proof. intros (? & ? & ? & ? & ?). split_and!; cbn; auto; apply wrap_range; lia. Qed.
Lemma set_win_size_ok a w : win_ok w -> win_ok (set_win_size a w).
Proof. intros (? & ? & ? & ? & ?). split_and!; cbn; auto; apply wrap_range; lia. Qed.

(** The window a driver programs for [w]: rounded up to whole megabytes. *)
Definition win_fits (w : win) : Prop :=
  win_ok w /\ 0 < win_size w /\ up (win_base w) + up (win_size w) <= 2 ^ 48.
Definition win_range (mask : Z) (w : win) : range :=
  Range (Z.land (target_id w) mask) (up (win_base w)) (up (win_base w) + up (win_size w)).
#[global] Instance win_fits_dec w : Decision (win_fits w).
Proof. unfold win_fits, win_ok. apply _. Defined.

Lemma ccu_win_check_spec w : win_ok w -> win_base w + MB <= 2 ^ 64 -> win_size w + MB <= 2 ^ 64 ->
  win_base (Ccu.ccu_win_check w) = up (win_base w) /\ win_size (Ccu.ccu_win_check w) = up (win_size w) /\
  target_id (Ccu.ccu_win_check w) = target_id w.
Proof.
  intros Hw Hb Hs. pose proof (win_base_range w Hw). pose proof (win_size_range w Hw).
  pose proof (up_bounds (win_base w)). pose proof (up_bounds (win_size w)). unfold Ccu.ccu_win_check.
  change Ccu.CCU_WIN_ALIGNMENT with MB. rewrite !IS_NOT_ALIGN_mb.
  destruct (Z.eqb_spec (win_base w mod MB) 0) as [Eb|Eb]; cbn [negb].
  - destruct (Z.eqb_spec (win_size w mod MB) 0) as [Es|Es]; cbn [negb].
    + by rewrite !up_aligned.
    + rewrite ALIGN_UP_int by lia. split_and!; [by rewrite (up_aligned (win_base w))|apply split_hi_lo; lia|done].
  - rewrite ALIGN_UP_int by lia. change (win_size (set_win_base _ w)) with (win_size w).
    destruct (Z.eqb_spec (win_size w mod MB) 0) as [Es|Es]; cbn [negb].
    + split_and!; [apply split_hi_lo; lia|by rewrite (up_aligned (win_size w))|done].
    + rewrite ALIGN_UP_int by lia. split_and!; [apply split_hi_lo; lia..|done].
Qed.

(** The other checks: the bridge has the same one; the crossbar's loses the high word of a
    size it rounds. *)
Lemma iob_win_check_eq w : Iob.iob_win_check w = Ccu.ccu_win_check w.
Proof. done. Qed.
Lemma io_win_check_aligned w : win_size w mod MB = 0 -> IoWin.io_win_check w = Ccu.ccu_win_check w.
Proof.
  intros Es. unfold IoWin.io_win_check, Ccu.ccu_win_check.
  change IoWin.IO_WIN_ALIGNMENT_1M with MB. change Ccu.CCU_WIN_ALIGNMENT with MB.
  set (w1 := if IS_NOT_ALIGN (win_base w) MB then _ else w).
  assert (win_size w1 = win_size w) as -> by (unfold w1; by destruct (IS_NOT_ALIGN _ _)).
  by rewrite IS_NOT_ALIGN_mb, Es.
Qed.
Lemma io_win_check_size w : win_ok w -> win_size w + MB <= 2 ^ 64 -> win_size w mod MB <> 0 ->
  win_size (IoWin.io_win_check w) = up (win_size w) mod 2 ^ 32.
Proof.
  intros Hw Hs Es. pose proof (win_size_range w Hw). unfold IoWin.io_win_check.
  change IoWin.IO_WIN_ALIGNMENT_1M with MB.
  set (w1 := if IS_NOT_ALIGN (win_base w) MB then _ else w).
  assert (win_size w1 = win_size w) as -> by (unfold w1; by destruct (IS_NOT_ALIGN _ _)).
  rewrite IS_NOT_ALIGN_mb. apply Z.eqb_neq in Es as Es'. rewrite Es'. cbn [negb].
  unfold ALIGN_UP. rewrite IS_NOT_ALIGN_mb, Es'. cbn [negb].
  assert (win_size w + MB < 2 ^ 64) by (unfold MB in *; dlia).
  rewrite wrap_small by (unfold MB in *; lia). rewrite land_inv_u32 by (unfold MB in *; lia).
  assert ((win_size w + MB) / MB * MB = up (win_size w)) as -> by (unfold up, MB in *; dlia).
  apply (split_hi_lo (up (win_size w) mod 2 ^ 32)). pose proof (Z.mod_pos_bound (up (win_size w)) (2 ^ 32) ltac:(lia)). lia.
Qed.

(** ** Address registers *)
Lemma addr_reg_eq a : 0 <= a < 2 ^ 48 -> addr_reg a = a / MB * 16.
Proof.
  intros Ha. unfold addr_reg, ADDRESS_SHIFT. change (20 - 4) with 16.
  assert (Z.land (Z.shiftr a 16) ADDRESS_MASK = Z.shiftl (Z.shiftr a 20) 4) as ->.
  { change ADDRESS_MASK with (Z.shiftl (Z.ones 28) 4).
    replace a with (Z.land a (Z.ones 48)) by (rewrite Z.land_ones by lia; by apply Z.mod_small). bits. }
  rewrite Z.shiftl_mul_pow2, Z.shiftr_div_pow2 by lia. apply wrap_small. unfold MB. dlia.
Qed.
Lemma start_roundtrip a : a mod MB = 0 -> 0 <= a < 2 ^ 48 -> alr_start (addr_reg a) = a.
Proof.
  intros Ea Ha. rewrite addr_reg_eq by done. unfold alr_start, ADDRESS_SHIFT.
  rewrite Z.shiftl_mul_pow2 by lia. rewrite wrap_small; unfold MB in *; dlia.
Qed.
Lemma end_roundtrip a : a mod MB = 0 -> 0 < a <= 2 ^ 48 -> ahr_end (addr_reg (a - 1)) = a.
Proof.
  intros Ea Ha. rewrite addr_reg_eq by lia. unfold ahr_end, ADDRESS_SHIFT.
  rewrite (wrap_small 64 (_ + 0x10)) by (unfold MB; dlia).
  rewrite Z.shiftl_mul_pow2 by lia. rewrite wrap_small; unfold MB in *; dlia.
Qed.
Lemma addr_reg_clear a : 0 <= a < 2 ^ 48 ->
  win_enabled (Z.lor (addr_reg a) WIN_ENABLE_BIT) = true /\
  clear_enable (Z.lor (addr_reg a) WIN_ENABLE_BIT) = addr_reg a.
Proof.
  intros Ha. rewrite addr_reg_eq by done. set (x := a / MB).
  assert (0 <= x < 2 ^ 28) as Hx by (unfold x, MB; dlia).
  replace (x * 16) with (Z.shiftl (Z.land x (Z.ones 28)) 4)
    by (rewrite Z.shiftl_mul_pow2, Z.land_ones by lia; rewrite Z.mod_small; lia).
  change WIN_ENABLE_BIT with (Z.ones 1). split.
  - unfold win_enabled. change WIN_ENABLE_BIT with (Z.ones 1).
    assert (Z.land (Z.lor (Z.shiftl (Z.land x (Z.ones 28)) 4) (Z.ones 1)) (Z.ones 1) = Z.ones 1) as -> by bits.
    done.
  - unfold clear_enable. change (u32 (Z.lnot WIN_ENABLE_BIT)) with (Z.shiftl (Z.ones 31) 1). bits. apply orb_false_r.
Qed.
(** Control registers of the core and bridge windows. *)
Lemma control_reg t k : 0 <= k ->
  win_enabled (Z.lor WIN_ENABLE_BIT (Z.shiftl (Z.land t (Z.ones k)) 8)) = true /\
  Z.land (Z.shiftr (Z.lor WIN_ENABLE_BIT (Z.shiftl (Z.land t (Z.ones k)) 8)) 8) (Z.ones k) = Z.land t (Z.ones k).
Proof.
  intros Hk. unfold win_enabled. change WIN_ENABLE_BIT with (Z.ones 1). split.
  - assert (Z.land (Z.lor (Z.ones 1) (Z.shiftl (Z.land t (Z.ones k)) 8)) (Z.ones 1) = Z.ones 1) as -> by bits.
    done.
  - bits.
Qed.

(** ** The drivers, window by window

    [regs_at] turns register names into addresses; [win_step] proves that a sequence of writes to
    the registers of one window is a step. *)
Create HintDb adec_regs.
#[export] Hint Unfold Ccu.CCU_WIN_CR_OFFSET Ccu.CCU_WIN_SCR_OFFSET Ccu.CCU_WIN_ALR_OFFSET Ccu.CCU_WIN_AHR_OFFSET
  Ccu.CCU_WIN_GCR_OFFSET IoWin.IO_WIN_ALR_OFFSET IoWin.IO_WIN_AHR_OFFSET IoWin.IO_WIN_CR_OFFSET
  Iob.IOB_WIN_CR_OFFSET Iob.IOB_WIN_SCR_OFFSET Iob.IOB_WIN_ALR_OFFSET Iob.IOB_WIN_AHR_OFFSET
  Amb.AMB_WIN_CR_OFFSET Amb.AMB_WIN_BASE_OFFSET : adec_regs.
Ltac regs_at := autounfold with adec_regs in *; rewrite ?win_reg_eq in * by lia.
Ltac win_step :=
  split; intros id h; [intros Hid|intros h' Hid Hag];
  [ autounfold with adec_regs;
    repeat (eapply same_outside_trans; [|apply same_outside_write; rewrite win_reg_eq; lia]);
    try apply same_outside_refl
  | try match goal with H : agree _ _ _ _ |- _ => rewrite H by (regs_at; lia) end; auto with adec ].

(** What is read back after writes to other registers, or to this one. *)
Ltac read_back :=
  regs_at; rewrite ?read_write; rewrite ?Z.eqb_refl;
  repeat match goal with
         | |- context [?a =? ?b] => rewrite (proj2 (Z.eqb_neq a b)) by lia
         end.

Section drivers.
Context (base : Z) (Hbase : 0 <= base < 2 ^ 62).

Lemma ccu_enable_step w : WinStep base 0x10 0x1000 (Ccu.ccu_enable_win base w).
Proof. unfold Ccu.ccu_enable_win. win_step. Qed.
Lemma ccu_disable_step : WinStep base 0x10 0x1000 (Ccu.ccu_disable_win base).
Proof. unfold Ccu.ccu_disable_win. win_step. Qed.
Lemma io_win_enable_step w : WinStep base 0x10 0x1000 (IoWin.io_win_enable_window base w).
Proof. unfold IoWin.io_win_enable_window. destruct (_ || _); win_step. Qed.
Lemma io_win_disable_step : WinStep base 0x10 0x1000 (IoWin.io_win_disable base).
Proof. unfold IoWin.io_win_disable. win_step. Qed.
Lemma iob_enable_step w : WinStep base 0x20 0x1000 (Iob.iob_enable_win base w).
Proof. unfold Iob.iob_enable_win. win_step. Qed.
Lemma iob_disable_step : WinStep base 0x20 0x1000 (Iob.iob_disable_win base).
Proof. unfold Iob.iob_disable_win. win_step. Qed.
Lemma amb_enable_step w : WinStep base 0x8 0x1000 (Amb.amb_enable_win base w).
Proof. unfold Amb.amb_enable_win. win_step. Qed.
Lemma amb_disable_step : WinStep base 0x8 0x1000 (Amb.amb_disable_win base).
Proof. unfold Amb.amb_disable_win. win_step. Qed.

(** What the dump functions print of a window depends on its block only. *)
Lemma ccu_range_block id h h' : 0 <= id < 0x1000 ->
  agree (base + 0x10 * id) (base + 0x10 * (id + 1)) h h' -> Ccu.ccu_range h base id = Ccu.ccu_range h' base id.
Proof. intros Hid Hag. unfold Ccu.ccu_range. rewrite !Hag by (regs_at; lia). done. Qed.
Lemma io_win_range_block id h h' : 0 <= id < 0x1000 ->
  agree (base + 0x10 * id) (base + 0x10 * (id + 1)) h h' -> IoWin.io_win_range h base id = IoWin.io_win_range h' base id.
Proof. intros Hid Hag. unfold IoWin.io_win_range. rewrite !Hag by (regs_at; lia). done. Qed.
Lemma iob_range_block id h h' : 0 <= id < 0x1000 ->
  agree (base + 0x20 * id) (base + 0x20 * (id + 1)) h h' -> Iob.iob_range h base id = Iob.iob_range h' base id.
Proof. intros Hid Hag. unfold Iob.iob_range. rewrite !Hag by (regs_at; lia). done. Qed.
Lemma amb_range_block id h h' : 0 <= id < 0x1000 ->
  agree (base + 0x8 * id) (base + 0x8 * (id + 1)) h h' -> Amb.amb_range h base id = Amb.amb_range h' base id.
Proof. intros Hid Hag. unfold Amb.amb_range. rewrite !Hag by (regs_at; lia). done. Qed.

(** What they print of a window just programmed or disabled. *)
Lemma fits_bounds w : win_fits w ->
  win_ok w /\ win_base w + MB <= 2 ^ 64 /\ win_size w + MB <= 2 ^ 64 /\ 0 <= up (win_base w) < 2 ^ 48 /\
  0 < up (win_base w) + up (win_size w) <= 2 ^ 48 /\
  up (win_base w) mod MB = 0 /\ (up (win_base w) + up (win_size w)) mod MB = 0.
Proof.
  intros (Hok & Hs & Hf). pose proof (win_base_range w Hok). pose proof (win_size_range w Hok).
  pose proof (up_bounds (win_base w)). pose proof (up_bounds (win_size w)).
  split; [done|]. unfold MB in *. split_and!; try lia; unfold up; fold MB.
  - apply Z.mod_mul. unfold MB. lia.
  - rewrite <- Z.mul_add_distr_r. apply Z.mod_mul. unfold MB. lia.
Qed.

Lemma ccu_enable_range w id h : 0 <= id < 0x1000 -> win_fits w ->
  Ccu.ccu_range (Ccu.ccu_enable_win base (Ccu.ccu_win_check w) id h) base id = Some (win_range 0x7F w).
Proof.
  intros Hid (Hok & Hb & Hs & Hr & He & Ab & Ae)%fits_bounds.
  destruct (ccu_win_check_spec w Hok Hb Hs) as (E1 & E2 & E3).
  unfold Ccu.ccu_range, Ccu.ccu_enable_win. rewrite E1, E2, E3. read_back.
  destruct (control_reg (target_id w) 7 ltac:(lia)) as [C1 C2].
  change (Z.ones 7) with Ccu.CCU_TARGET_ID_MASK in *. change 8 with Ccu.CCU_TARGET_ID_OFFSET in *.
  rewrite C1, C2, start_roundtrip by done. rewrite wrap_small by lia. by rewrite end_roundtrip.
Qed.
Lemma ccu_disable_range id h : 0 <= id < 0x1000 -> Ccu.ccu_range (Ccu.ccu_disable_win base id h) base id = None.
Proof. intros. unfold Ccu.ccu_range, Ccu.ccu_disable_win. read_back. by rewrite clear_enable_off. Qed.

Lemma iob_enable_range w id h : 0 < id < 0x1000 -> win_fits w ->
  Iob.iob_range (Iob.iob_enable_win base (Iob.iob_win_check w) id h) base id = Some (win_range 0xF w).
Proof.
  intros Hid (Hok & Hb & Hs & Hr & He & Ab & Ae)%fits_bounds.
  destruct (ccu_win_check_spec w Hok Hb Hs) as (E1 & E2 & E3). rewrite iob_win_check_eq.
  unfold Iob.iob_range, Iob.iob_enable_win. rewrite E1, E2, E3. read_back.
  destruct (control_reg (target_id w) 4 ltac:(lia)) as [C1 C2].
  change (Z.ones 4) with Iob.IOB_TARGET_ID_MASK in *. change 8 with Iob.IOB_TARGET_ID_OFFSET in *.
  rewrite C1, C2, start_roundtrip by done. rewrite wrap_small by lia. by rewrite end_roundtrip.
Qed.
Lemma iob_disable_range id h : 0 <= id < 0x1000 -> Iob.iob_range (Iob.iob_disable_win base id h) base id = None.
Proof. intros. unfold Iob.iob_range, Iob.iob_disable_win. read_back. by rewrite clear_enable_off. Qed.

(** The crossbar takes a size that is whole megabytes, or one below 4 GB when rounded. *)
Definition io_win_fits (w : win) : Prop := win_fits w /\ (win_size w mod MB = 0 \/ up (win_size w) < 2 ^ 32).
Lemma io_win_check_spec w : io_win_fits w ->
  win_base (IoWin.io_win_check w) = up (win_base w) /\ win_size (IoWin.io_win_check w) = up (win_size w) /\
  target_id (IoWin.io_win_check w) = target_id w.
Proof.
  intros [Hf Hs]. apply fits_bounds in Hf as (Hok & Hb & Hz & _).
  destruct (decide (win_size w mod MB = 0)) as [E|E].
  - rewrite io_win_check_aligned by done. by apply ccu_win_check_spec.
  - destruct (ccu_win_check_spec w Hok Hb Hz) as (E1 & _ & _).
    pose proof (up_bounds (win_size w)). pose proof (win_size_range w Hok).
    split_and!.
    + rewrite <- E1. unfold IoWin.io_win_check, Ccu.ccu_win_check.
      change IoWin.IO_WIN_ALIGNMENT_1M with MB. change Ccu.CCU_WIN_ALIGNMENT with MB.
      repeat (case_match; try done).
    + rewrite io_win_check_size by done. apply Z.mod_small. lia.
    + unfold IoWin.io_win_check. repeat (case_match; try done).
Qed.
Lemma io_win_enable_range w id h : 0 < id < 0x1000 -> io_win_fits w -> target_id w < 7 ->
  IoWin.io_win_range (IoWin.io_win_enable_window base (IoWin.io_win_check w) id h) base id =
  Some (Range (target_id w) (up (win_base w)) (up (win_base w) + up (win_size w))).
Proof.
  intros Hid Hio Ht. destruct (io_win_check_spec w Hio) as (E1 & E2 & E3). destruct Hio as [Hf _].
  apply fits_bounds in Hf as (Hok & Hb & Hs & Hr & He & Ab & Ae).
  assert (0 <= target_id w) by apply Hok.
  unfold IoWin.io_win_range, IoWin.io_win_enable_window. rewrite E1, E2, E3.
  rewrite (proj2 (Z.ltb_ge _ _)), (proj2 (Z.leb_gt _ _)) by (unfold IoWin.IO_WIN_MAX_NUM; lia).
  cbn [orb]. read_back. destruct (addr_reg_clear (up (win_base w)) Hr) as [C1 C2].
  rewrite C1, C2, start_roundtrip by done. cbv beta iota.
  rewrite wrap_small by lia. by rewrite end_roundtrip.
Qed.
Lemma io_win_enable_refused w id h : 7 <= target_id (IoWin.io_win_check w) ->
  IoWin.io_win_enable_window base (IoWin.io_win_check w) id h = h.
Proof.
  intros Ht. unfold IoWin.io_win_enable_window.
  rewrite (proj2 (Z.leb_le IoWin.IO_WIN_MAX_NUM _)) by (unfold IoWin.IO_WIN_MAX_NUM; lia). by rewrite orb_true_r.
Qed.
Lemma io_win_disable_range id h : 0 <= id < 0x1000 -> IoWin.io_win_range (IoWin.io_win_disable base id h) base id = None.
Proof. intros. unfold IoWin.io_win_range, IoWin.io_win_disable. read_back. by rewrite clear_enable_off. Qed.
Lemma amb_disable_range id h : 0 <= id < 0x1000 -> Amb.amb_range (Amb.amb_disable_win base id h) base id = None.
Proof. intros. unfold Amb.amb_range, Amb.amb_disable_win. read_back. by rewrite clear_enable_off. Qed.
End drivers.

(** ** The loops of the drivers *)
Lemma ccu_enable_wins_eq base max_win wins : forall id h,
  let k := Z.to_nat (max_win - id) in
  Ccu.ccu_enable_wins base max_win wins id h =
  ((Ccu.ccu_win_check <$> take k wins) ++ drop k wins,
   wins_loop (fun w => Ccu.ccu_enable_win base (Ccu.ccu_win_check w)) (take k wins) id h).
Proof.
  induction wins as [|w wins IH]; intros id h k; [unfold k; by rewrite take_nil, drop_nil|].
  cbn [Ccu.ccu_enable_wins]. unfold k. destruct (Z.ltb_spec id max_win).
  - replace (Z.to_nat (max_win - id)) with (S (Z.to_nat (max_win - (id + 1)))) by lia.
    rewrite IH. done.
  - by replace (Z.to_nat (max_win - id)) with 0%nat by lia.
Qed.
Lemma io_win_enable_wins_eq base wins : forall id h,
  IoWin.io_win_enable_wins base wins id h =
  (IoWin.io_win_check <$> wins, wins_loop (fun w => IoWin.io_win_enable_window base (IoWin.io_win_check w)) wins id h).
Proof. induction wins as [|w wins IH]; intros id h; [done|]. cbn. by rewrite IH. Qed.
Lemma iob_enable_wins_eq base wins : forall id h,
  Iob.iob_enable_wins base wins id h =
  (Iob.iob_win_check <$> wins, wins_loop (fun w => Iob.iob_enable_win base (Iob.iob_win_check w)) wins id h).
Proof. induction wins as [|w wins IH]; intros id h; [done|]. cbn. by rewrite IH. Qed.
Lemma amb_enable_wins_eq base wins wins' : mapM Amb.amb_check_win wins = Some wins' -> forall id h,
  Amb.amb_enable_wins base wins id h = Some (wins', wins_loop (Amb.amb_enable_win base) wins' id h).
Proof.
  revert wins'. induction wins as [|w wins IH]; intros wins'; cbn [mapM].
  - by intros [= <-].
  - intros (w' & Ew & (r & Er & [= <-])%bind_Some)%bind_Some id h. cbn. rewrite Ew. cbn. by rewrite (IH _ Er).
Qed.

(** A unit of windows: the step that disables a window, the one that programs it from an entry
    of the array, and what the window shows, all confined to the window's registers. *)
Record WinUnit {A R} (base stride : Z) (rng : hw -> Z -> option R) (off : Z -> hw -> hw)
    (on : A -> Z -> hw -> hw) : Prop := {
  unit_stride : 0 < stride;
  unit_off : WinStep base stride 0x1000 off;
  unit_on x : WinStep base stride 0x1000 (on x);
  unit_range id h h' : 0 <= id < 0x1000 ->
    agree (base + stride * id) (base + stride * (id + 1)) h h' -> rng h id = rng h' id;
  unit_none id h : 0 <= id < 0x1000 -> rng (off id h) id = None;
}.
Arguments unit_stride {A R base stride rng off on}.
Arguments unit_off {A R base stride rng off on}.
Arguments unit_on {A R base stride rng off on}.
Arguments unit_range {A R base stride rng off on}.
Arguments unit_none {A R base stride rng off on}.

(** Disable the windows [lo .. lo + n - 1], then program those of a list from [i >= lo] on. *)
Section disable_enable.
Context {A R : Type} {base stride : Z} {rng : hw -> Z -> option R} {off : Z -> hw -> hw} {on : A -> Z -> hw -> hw}.
Context (U : WinUnit base stride rng off on) (lo i : Z) (n : nat) (l : list A).
Context (Hlo : 0 <= lo <= i) (Hn : lo + Z.of_nat n <= 0x1000) (Hl : i + zlen l <= 0x1000).

Let final (h : hw) : hw := wins_loop on l i (each_win off lo n h).

Lemma final_frame h : same_outside (base + stride * lo)
  (base + stride * Z.max (lo + Z.of_nat n) (i + zlen l)) h (final h).
Proof.
  pose proof (zlen_nonneg l). pose proof (unit_stride U). apply (same_outside_trans _ _ _ (each_win off lo n h)).
  - eapply same_outside_mono; [| |eapply (each_win_frame base stride 0x1000 off); [done|apply U|lia..]]; nia.
  - eapply same_outside_mono; [| |eapply (wins_loop_frame base stride 0x1000 on); [done|apply U|lia..]]; nia.
Qed.
Lemma final_block h k x : l !! k = Some x ->
  agree (base + stride * (i + Z.of_nat k)) (base + stride * (i + Z.of_nat k + 1)) (final h)
    (on x (i + Z.of_nat k) (each_win off lo n h)).
Proof.
  intros Hk. apply lookup_lt_Some in Hk as Hlt. eapply wins_loop_block; [apply U|apply U|lia|exact Hl|lia|].
  by replace (Z.to_nat (i + Z.of_nat k - i)) with k by lia.
Qed.
Lemma final_on h k x r : l !! k = Some x ->
  (forall h', rng (on x (i + Z.of_nat k) h') (i + Z.of_nat k) = r) -> rng (final h) (i + Z.of_nat k) = r.
Proof.
  intros Hk E. apply lookup_lt_Some in Hk as Hlt.
  rewrite <- (E (each_win off lo n h)). apply (unit_range U); [unfold zlen in *; lia|by apply final_block].
Qed.
(** A window the list does not reach is disabled. *)
Lemma final_off h id : lo <= id < lo + Z.of_nat n -> id < i \/ i + zlen l <= id -> rng (final h) id = None.
Proof.
  intros Hid Hout. pose proof (zlen_nonneg l). pose proof (unit_stride U).
  rewrite <- (unit_none U id h) by lia. apply (unit_range U); [lia|].
  eapply agree_trans; [|apply (each_win_block base stride 0x1000 off (unit_stride U) (unit_off U) n lo h id); lia].
  eapply same_outside_agree; [eapply (wins_loop_frame base stride 0x1000 on); [done|apply U|lia..]|]. nia.
Qed.
(** An entry of the list that its step refuses leaves the window disabled. *)
Lemma final_refused h k x : l !! k = Some x -> i + Z.of_nat k < lo + Z.of_nat n ->
  (forall h', on x (i + Z.of_nat k) h' = h') -> rng (final h) (i + Z.of_nat k) = None.
Proof.
  intros Hk Hkn E. apply lookup_lt_Some in Hk as Hlt.
  rewrite <- (unit_none U (i + Z.of_nat k) h) by (unfold zlen in *; lia).
  apply (unit_range U); [unfold zlen in *; lia|].
  eapply agree_trans; [by apply final_block|]. rewrite E. eapply each_win_block; [apply U|apply U|lia..].
Qed.
End disable_enable.

Section units.
Context (base : Z) (Hbase : 0 <= base < 2 ^ 62).
Lemma ccu_unit : WinUnit base 0x10 (fun h => Ccu.ccu_range h base) (Ccu.ccu_disable_win base)
  (fun w => Ccu.ccu_enable_win base (Ccu.ccu_win_check w)).
Proof.
  split; intros; [lia|by apply ccu_disable_step|by apply ccu_enable_step|by apply ccu_range_block|
    by apply ccu_disable_range].
Qed.
Lemma io_win_unit : WinUnit base 0x10 (fun h => IoWin.io_win_range h base) (IoWin.io_win_disable base)
  (fun w => IoWin.io_win_enable_window base (IoWin.io_win_check w)).
Proof.
  split; intros; [lia|by apply io_win_disable_step|by apply io_win_enable_step|by apply io_win_range_block|
    by apply io_win_disable_range].
Qed.
Lemma iob_unit : WinUnit base 0x20 (fun h => Iob.iob_range h base) (Iob.iob_disable_win base)
  (fun w => Iob.iob_enable_win base (Iob.iob_win_check w)).
Proof.
  split; intros; [lia|by apply iob_disable_step|by apply iob_enable_step|by apply iob_range_block|
    by apply iob_disable_range].
Qed.
Lemma amb_unit : WinUnit base 0x8 (fun h => Amb.amb_range h base) (Amb.amb_disable_win base) (Amb.amb_enable_win base).
Proof.
  split; intros; [lia|by apply amb_disable_step|by apply amb_enable_step|by apply amb_range_block|
    by apply amb_disable_range].
Qed.
End units.

(** ** The peripheral bus bridge *)
Definition amb_fits (w : amb_win) : Prop :=
  in_u 16 (amb_base_addr w) /\ amb_base_addr w mod 16 = 0 /\ in_u 8 (attribute w) /\
  exists k, 16 <= k <= 24 /\ amb_win_size w = 2 ^ k.

Lemma amb_base_at a : in_u 16 a -> u32 (Z.shiftl a 16) = a * 2 ^ 16.
Proof. unfold in_u. intros. rewrite Z.shiftl_mul_pow2 by lia. apply wrap_small. lia. Qed.
Lemma amb_aligned a : in_u 16 a -> IS_NOT_ALIGN (u32 (Z.shiftl a 16)) MB = negb (a mod 16 =? 0).
Proof.
  intros Ha. rewrite amb_base_at, IS_NOT_ALIGN_mb by done. f_equal. unfold in_u, MB in *.
  destruct (Z.eqb_spec (a mod 16) 0), (Z.eqb_spec ((a * 2 ^ 16) mod 0x100000) 0); try done; dlia.
Qed.
Lemma power_of_2 k : 0 <= k < 32 -> IS_POWER_OF_2 (2 ^ k) = true.
Proof.
  intros Hk. unfold IS_POWER_OF_2. assert (0 < 2 ^ k < 2 ^ 32) by (split; [lia|apply Z.pow_lt_mono_r; lia]).
  rewrite (proj2 (Z.eqb_neq _ _)), wrap_small by lia. cbn [negb andb].
  replace (2 ^ k - 1) with (Z.ones k) by (rewrite Z.ones_equiv; lia). rewrite Z.land_ones by lia.
  by rewrite Z.mod_same by lia.
Qed.
Lemma amb_check_fits w : amb_fits w -> Amb.amb_check_win w = Some w.
Proof.
  intros (Hb & Ha & _ & k & Hk & Es). unfold Amb.amb_check_win.
  change Amb.AMB_WIN_ALIGNMENT_1M with MB. change Amb.AMB_BASE_OFFSET with 16.
  rewrite amb_aligned, Ha by done. cbn [Z.eqb negb]. rewrite Es, power_of_2 by lia. done.
Qed.
(** A base that is not a multiple of 1 MB: the rounded address is stored in place of its upper
    half, and its own upper half has nothing left. *)
Lemma amb_check_unaligned w : in_u 16 (amb_base_addr w) -> amb_base_addr w mod 16 <> 0 ->
  (exists k, 0 <= k < 32 /\ amb_win_size w = 2 ^ k) ->
  exists w', Amb.amb_check_win w = Some w' /\ u32 (Z.shiftl (amb_base_addr w') 16) = 0.
Proof.
  intros Hb Ha (k & Hk & Es). unfold Amb.amb_check_win.
  change Amb.AMB_WIN_ALIGNMENT_1M with MB. change Amb.AMB_BASE_OFFSET with 16.
  rewrite amb_aligned by done. rewrite (proj2 (Z.eqb_neq _ _) Ha). cbn [negb amb_win_size]. rewrite Es, power_of_2 by done.
  eexists. split; [done|]. cbn [amb_base_addr]. unfold ALIGN_UP. rewrite amb_aligned by done.
  rewrite (proj2 (Z.eqb_neq _ _) Ha). cbn [negb]. pose proof (wrap_range 32 (u32 (Z.shiftl (amb_base_addr w) 16) + MB)).
  rewrite land_inv_u32 by lia. rewrite Z.shiftl_mul_pow2 by lia. unfold wrap, MB. dlia.
Qed.
Lemma amb_ctrl sz at_ : in_u 8 sz -> in_u 8 at_ ->
  let ctrl := Z.lor (Z.lor (u32 (Z.shiftl sz 16)) (u32 (Z.shiftl at_ 8))) WIN_ENABLE_BIT in
  win_enabled ctrl = true /\ Z.land (Z.shiftr ctrl 8) 0xFF = at_ /\ Z.land (Z.shiftr ctrl 16) 0xFF = sz.
Proof.
  assert (forall z, in_u 8 z -> z = Z.land z (Z.ones 8)) as Ez.
  { intros z Hz. rewrite Z.land_ones by lia. by rewrite Z.mod_small. }
  assert (forall z k, 0 <= k <= 16 -> in_u 8 z -> u32 (Z.shiftl z k) = Z.shiftl z k) as E.
  { unfold in_u. intros z k Hk Hz. rewrite Z.shiftl_mul_pow2 by lia. apply wrap_small.
    assert (0 < 2 ^ k <= 2 ^ 16) by (split; [lia|apply Z.pow_le_mono_r; lia]). nia. }
  intros Hs Ha. rewrite !E by (done || lia). cbv zeta. change 0xFF with (Z.ones 8). unfold win_enabled.
  change WIN_ENABLE_BIT with (Z.ones 1). split_and!.
  - assert (forall x, Z.land (Z.lor x (Z.ones 1)) (Z.ones 1) = Z.ones 1) as ->; [|done]. intros x. bits.
  - rewrite (Ez at_ Ha) at 2. rewrite (Ez sz Hs). bits. rewrite orb_false_r. f_equal. lia.
  - rewrite (Ez sz Hs) at 2. rewrite (Ez at_ Ha). bits; rewrite ?orb_false_r; f_equal; lia.
Qed.
Lemma amb_enable_range base w id h : 0 <= base < 2 ^ 62 -> 0 <= id < 0x1000 -> amb_fits w ->
  Amb.amb_range (Amb.amb_enable_win base w id h) base id =
  Some (Range (attribute w) (amb_base_addr w * 2 ^ 16) (amb_base_addr w * 2 ^ 16 + amb_win_size w)).
Proof.
  intros Hbase Hid (Hb & Ha & Ht & k & Hk & Es). unfold Amb.amb_range, Amb.amb_enable_win. read_back.
  change Amb.AMB_BASE_OFFSET with 16. rewrite (amb_base_at _ Hb).
  assert (amb_win_size w `quot` Amb.AMB_WIN_ALIGNMENT_64K = 2 ^ (k - 16)) as ->.
  { rewrite Es. change Amb.AMB_WIN_ALIGNMENT_64K with (2 ^ 16). rewrite Z.quot_div_nonneg by lia.
    replace k with ((k - 16) + 16) at 1 by lia. rewrite Z.pow_add_r by lia. by rewrite Z.div_mul by lia. }
  assert (1 <= 2 ^ (k - 16) <= 2 ^ 8) by (split; [lia|apply Z.pow_le_mono_r; lia]).
  rewrite (wrap_small 32 (_ - 1)) by lia.
  destruct (amb_ctrl (2 ^ (k - 16) - 1) (attribute w)) as (C1 & C2 & C3); [unfold in_u; lia|done|].
  unfold Amb.AMB_SIZE_OFFSET, Amb.AMB_ATTR_OFFSET, Amb.AMB_ATTR_MASK, Amb.AMB_SIZE_MASK. rewrite C1, C2, C3.
  rewrite Z.sub_add. do 2 f_equal. rewrite Es. change Amb.AMB_WIN_ALIGNMENT_64K with (2 ^ 16).
  rewrite <- Z.pow_add_r by lia. replace (k - 16 + 16) with k by lia. f_equal. apply wrap_small.
  split; [lia|]. apply Z.pow_lt_mono_r; lia.
Qed.
