(* ===== verification/AddrBoards.v ===== *)
(** * Boards with an Armada 7K/8K, and the stages that open windows

    The windows of the eight boards of plat/marvell/a8k; the order in which BL31 programs the
    units ([bl31_windows]); the windows of the boot loader extension, saved and restored by
    plat_ble_setup.c, and those BL2 opens for the coprocessors (mss_bl2_setup.c). *)

From Stdlib Require Import ZArith Lia String.
From stdpp Require Import base option list gmap numbers strings.
From S2P Require Import Prelude AddrDec.
Open Scope Z_scope.
Open Scope cint_scope.

(** ** Register blocks: plat/marvell/a8k/common/include/a8k_plat_def.h *)
Definition MVEBU_REGS_BASE : Z := 0xF0000000.
Definition MVEBU_CP_REGS_BASE (cp_index : Z) : Z := 0xF2000000 +u32 cp_index * 0x2000000.
Definition MVEBU_RFU_BASE : Z := MVEBU_REGS_BASE +u32 0x6F0000.
Definition MVEBU_IO_WIN_BASE : Z := MVEBU_RFU_BASE.
Definition MVEBU_CCU_BASE : Z := MVEBU_REGS_BASE +u32 0x4000.
Definition MVEBU_IOB_BASE (cp_index : Z) : Z := MVEBU_CP_REGS_BASE cp_index +u32 0x190000.
Definition MVEBU_AMB_ADEC_BASE (cp_index : Z) : Z := MVEBU_CP_REGS_BASE cp_index +u32 0x70ff00.
Definition MVEBU_MCI_REG_BASE_REMAP (index : Z) : Z := 0xFD000000 +u32 index * 0x1000000.
Definition MARVELL_IOB_MAX_WIN : Z := 16.
Definition MARVELL_CCU_MAX_WIN : Z := 8.

Import Ccu IoWin Iob Amb.

(** The functions all boards define alike. *)
Definition a8k_board (iob_index : Z -> option nat) (cp_count : Z) : Board := {|
  marvell_get_ccu_reg_offs := fun _ => MVEBU_CCU_BASE;
  marvell_get_ccu_max_win := MARVELL_CCU_MAX_WIN;
  marvell_get_ccu_gcr_target := fun _ => DRAM_0_TID;
  marvell_get_io_win_reg_offs := fun _ => MVEBU_IO_WIN_BASE;
  marvell_get_io_win_gcr_target := fun _ => PIDI_TID;
  marvell_get_iob_reg_offs := MVEBU_IOB_BASE;
  marvell_get_iob_max_win := MARVELL_IOB_MAX_WIN;
  iob_map_index := iob_index;
  marvell_get_amb_reg_offs := MVEBU_AMB_ADEC_BASE;
  CP_COUNT := cp_count |}.
(** Before the drivers run: their globals are zero, the registers as [h] has them. *)
Definition unset (ccu io : list win) (iob : list (list win)) (amb : list amb_win) (h : hw) : adec :=
  Adec 0 0 0 0 0 0 ccu io iob amb h.

(** ** plat/marvell/a8k/a80x0 *)
Definition a80x0_amb_memory_map : list amb_win := [AmbWin 0xf900 0x1000000 AMB_SPI1_CS0_ID].
Definition a80x0_io_win_memory_map : list win :=
  [Win 0x0 0xf4000000 0x0 0x2000000 MCI_0_TID; Win 0x0 0xf9000000 0x0 0x2000000 MCI_0_TID;
   Win 0x0 0xfb000000 0x0 0x1000000 MCI_0_TID; Win 0x0 0xfc000000 0x0 0x1000000 MCI_0_TID;
   Win 0x0 (MVEBU_MCI_REG_BASE_REMAP 0) 0x0 0x100000 MCI_0_TID;
   Win 0x0 (MVEBU_MCI_REG_BASE_REMAP 1) 0x0 0x100000 MCI_1_TID].
Definition a80x0_iob_memory_map_cp0 : list win :=
  [Win 0x0 0xf7000000 0x0 0x1000000 PEX1_TID; Win 0x0 0xf8000000 0x0 0x1000000 PEX2_TID;
   Win 0x0 0xf6000000 0x0 0x1000000 PEX0_TID].
Definition a80x0_iob_memory_map_cp1 : list win :=
  [Win 0x0 0xf9000000 0x0 0x1000000 RUNIT_TID; Win 0x0 0xfb000000 0x0 0x1000000 PEX1_TID;
   Win 0x0 0xfc000000 0x0 0x1000000 PEX2_TID; Win 0x0 0xfa000000 0x0 0x1000000 PEX0_TID].
Definition a80x0_ccu_memory_map : list win := [Win 0x0 0xf2000000 0x0 0xe000000 IO_0_TID].
Definition a80x0_iob_map_index (cp_index : Z) : option nat :=
  if cp_index =? 0 then Some 0%nat else if cp_index =? 1 then Some 1%nat else None.
Definition a80x0 : Board := a8k_board a80x0_iob_map_index 2.
Definition a80x0_maps : hw -> adec :=
  unset a80x0_ccu_memory_map a80x0_io_win_memory_map [a80x0_iob_memory_map_cp0; a80x0_iob_memory_map_cp1] a80x0_amb_memory_map.

(** ** plat/marvell/a8k/a80x0_mcbin *)
Definition a80x0_mcbin_amb_memory_map : list amb_win := [AmbWin 0xf900 0x1000000 AMB_SPI1_CS0_ID].
Definition a80x0_mcbin_io_win_memory_map : list win :=
  [Win 0x0 0xf4000000 0x0 0x2000000 MCI_0_TID; Win 0x0 0xf9000000 0x0 0x2000000 MCI_0_TID;
   Win 0x0 0xfb000000 0x0 0x1000000 MCI_0_TID; Win 0x0 0xfc000000 0x0 0x1000000 MCI_0_TID;
   Win 0x0 (MVEBU_MCI_REG_BASE_REMAP 0) 0x0 0x100000 MCI_0_TID;
   Win 0x0 (MVEBU_MCI_REG_BASE_REMAP 1) 0x0 0x100000 MCI_1_TID].
Definition a80x0_mcbin_iob_memory_map_cp0 : list win :=
  [Win 0x0 0xf7000000 0x0 0x1000000 PEX1_TID; Win 0x0 0xf8000000 0x0 0x1000000 PEX2_TID;
   Win 0x0 0xf6000000 0x0 0x1000000 PEX0_TID; Win 0x0 0xc0000000 0x0 0x30000000 PEX0_TID;
   Win 0x8 0x00000000 0x1 0x00000000 PEX0_TID].
Definition a80x0_mcbin_iob_memory_map_cp1 : list win :=
  [Win 0x0 0xf9000000 0x0 0x1000000 RUNIT_TID; Win 0x0 0xfb000000 0x0 0x1000000 PEX1_TID;
   Win 0x0 0xfc000000 0x0 0x1000000 PEX2_TID; Win 0x0 0xfa000000 0x0 0x1000000 PEX0_TID].
Definition a80x0_mcbin_ccu_memory_map : list win :=
  [Win 0x0 0xf2000000 0x0 0xe000000 IO_0_TID; Win 0x0 0xc0000000 0x0 0x30000000 IO_0_TID;
   Win 0x8 0x00000000 0x1 0x00000000 IO_0_TID].
Definition a80x0_mcbin_iob_map_index (cp_index : Z) : option nat :=
  if cp_index =? 0 then Some 0%nat else if cp_index =? 1 then Some 1%nat else None.
Definition a80x0_mcbin : Board := a8k_board a80x0_mcbin_iob_map_index 2.
Definition a80x0_mcbin_maps : hw -> adec :=
  unset a80x0_mcbin_ccu_memory_map a80x0_mcbin_io_win_memory_map [a80x0_mcbin_iob_memory_map_cp0; a80x0_mcbin_iob_memory_map_cp1] a80x0_mcbin_amb_memory_map.

(** ** plat/marvell/a8k/a80x0_ocp *)
Definition a80x0_ocp_amb_memory_map : list amb_win := [].
Definition a80x0_ocp_io_win_memory_map : list win :=
  [Win 0x0 0xf4000000 0x0 0x2000000 MCI_0_TID;
   Win 0x0 (MVEBU_MCI_REG_BASE_REMAP 0) 0x0 0x100000 MCI_0_TID;
   Win 0x0 (MVEBU_MCI_REG_BASE_REMAP 1) 0x0 0x100000 MCI_1_TID].
Definition a80x0_ocp_iob_memory_map_cp0 : list win := [Win 0x80 0x00000000 0x80 0x0000000 PEX0_TID].
Definition a80x0_ocp_ccu_memory_map : list win :=
  [Win 0x0 0xf2000000 0x0 0xe000000 IO_0_TID; Win 0x80 0x00000000 0x80 0x0000000 IO_0_TID].
Definition a80x0_ocp_iob_map_index (cp_index : Z) : option nat := if cp_index =? 0 then Some 0%nat else None.
Definition a80x0_ocp : Board := a8k_board a80x0_ocp_iob_map_index 2.
Definition a80x0_ocp_maps : hw -> adec :=
  unset a80x0_ocp_ccu_memory_map a80x0_ocp_io_win_memory_map [a80x0_ocp_iob_memory_map_cp0] a80x0_ocp_amb_memory_map.

(** ** plat/marvell/a8k/a70x0 *)
Definition a70x0_amb_memory_map : list amb_win := [AmbWin 0xf900 0x1000000 AMB_SPI1_CS0_ID].
Definition a70x0_io_win_memory_map : list win :=
  [Win 0x0 (MVEBU_MCI_REG_BASE_REMAP 0) 0x0 0x100000 MCI_0_TID;
   Win 0x0 (MVEBU_MCI_REG_BASE_REMAP 1) 0x0 0x100000 MCI_1_TID].
Definition a70x0_iob_memory_map : list win :=
  [Win 0x0 0xf7000000 0x0 0x1000000 PEX1_TID; Win 0x0 0xf8000000 0x0 0x1000000 PEX2_TID;
   Win 0x0 0xf6000000 0x0 0x1000000 PEX0_TID; Win 0x0 0xf9000000 0x0 0x1000000 RUNIT_TID].
Definition a70x0_ccu_memory_map : list win := [Win 0x0 0xf2000000 0x0 0xe000000 IO_0_TID].
Definition a70x0_iob_map_index (cp_index : Z) : option nat := Some 0%nat.
Definition a70x0 : Board := a8k_board a70x0_iob_map_index 1.
Definition a70x0_maps : hw -> adec :=
  unset a70x0_ccu_memory_map a70x0_io_win_memory_map [a70x0_iob_memory_map] a70x0_amb_memory_map.

(** ** plat/marvell/a8k/a70x0_amc *)
Definition a70x0_amc_amb_memory_map : list amb_win := [].
Definition a70x0_amc_io_win_memory_map : list win :=
  [Win 0x0 (MVEBU_MCI_REG_BASE_REMAP 0) 0x0 0x100000 MCI_0_TID;
   Win 0x0 (MVEBU_MCI_REG_BASE_REMAP 1) 0x0 0x100000 MCI_1_TID].
Definition a70x0_amc_iob_memory_map : list win := [Win 0x0 0xf6000000 0x0 0x6000000 PEX0_TID].
Definition a70x0_amc_ccu_memory_map : list win := [Win 0x0 0xf2000000 0x0 0xe000000 IO_0_TID].
Definition a70x0_amc_iob_map_index (cp_index : Z) : option nat := Some 0%nat.
Definition a70x0_amc : Board := a8k_board a70x0_amc_iob_map_index 1.
Definition a70x0_amc_maps : hw -> adec :=
  unset a70x0_amc_ccu_memory_map a70x0_amc_io_win_memory_map [a70x0_amc_iob_memory_map] a70x0_amc_amb_memory_map.

(** ** plat/marvell/a8k/a70x0_cust *)
Definition a70x0_cust_amb_memory_map : list amb_win := [AmbWin 0xf900 0x1000000 AMB_DEV_CS0_ID].
Definition a70x0_cust_io_win_memory_map : list win :=
  [Win 0x0 (MVEBU_MCI_REG_BASE_REMAP 0) 0x0 0x100000 MCI_0_TID;
   Win 0x0 (MVEBU_MCI_REG_BASE_REMAP 1) 0x0 0x100000 MCI_1_TID].
Definition a70x0_cust_iob_memory_map : list win :=
  [Win 0x0 0xf7000000 0x0 0x1000000 PEX1_TID; Win 0x0 0xf8000000 0x0 0x1000000 PEX2_TID;
   Win 0x0 0xf6000000 0x0 0x1000000 PEX0_TID].
Definition a70x0_cust_ccu_memory_map : list win := [Win 0x0 0xf2000000 0x0 0xe000000 IO_0_TID].
Definition a70x0_cust_iob_map_index (cp_index : Z) : option nat := Some 0%nat.
Definition a70x0_cust : Board := a8k_board a70x0_cust_iob_map_index 1.
Definition a70x0_cust_maps : hw -> adec :=
  unset a70x0_cust_ccu_memory_map a70x0_cust_io_win_memory_map [a70x0_cust_iob_memory_map] a70x0_cust_amb_memory_map.

(** ** plat/marvell/a8k/a70x0_pcac *)
Definition a70x0_pcac_amb_memory_map : list amb_win := [].
Definition a70x0_pcac_io_win_memory_map : list win :=
  [Win 0x0 (MVEBU_MCI_REG_BASE_REMAP 0) 0x0 0x100000 MCI_0_TID;
   Win 0x0 (MVEBU_MCI_REG_BASE_REMAP 1) 0x0 0x100000 MCI_1_TID].
Definition a70x0_pcac_iob_memory_map : list win :=
  [Win 0x0 0xf7000000 0x0 0x1000000 PEX1_TID; Win 0x0 0xf8000000 0x0 0x1000000 PEX2_TID;
   Win 0x80 0x00000000 0x80 0x0000000 PEX0_TID].
Definition a70x0_pcac_ccu_memory_map : list win :=
  [Win 0x0 0xf2000000 0x0 0xe000000 IO_0_TID; Win 0x80 0x00000000 0x80 0x0000000 IO_0_TID].
Definition a70x0_pcac_iob_map_index (cp_index : Z) : option nat := Some 0%nat.
Definition a70x0_pcac : Board := a8k_board a70x0_pcac_iob_map_index 1.
Definition a70x0_pcac_maps : hw -> adec :=
  unset a70x0_pcac_ccu_memory_map a70x0_pcac_io_win_memory_map [a70x0_pcac_iob_memory_map] a70x0_pcac_amb_memory_map.

(** ** plat/marvell/a8k/a3900 *)
Definition a3900_amb_memory_map : list amb_win := [].
Definition a3900_io_win_memory_map : list win :=
  [Win 0x0 0xf9000000 0x0 0x1000000 MCI_0_TID;
   Win 0x0 (MVEBU_MCI_REG_BASE_REMAP 0) 0x0 0x100000 MCI_0_TID;
   Win 0x0 (MVEBU_MCI_REG_BASE_REMAP 1) 0x0 0x100000 MCI_1_TID].
Definition a3900_iob_memory_map : list win :=
  [Win 0x0 0xf8000000 0x0 0x1000000 PEX2_TID; Win 0x0 0xf6000000 0x0 0x1000000 PEX0_TID].
Definition a3900_ccu_memory_map : list win := [Win 0x0 0xf2000000 0x0 0xe000000 IO_0_TID].
Definition a3900_iob_map_index (cp_index : Z) : option nat := Some 0%nat.
Definition a3900 : Board := a8k_board a3900_iob_map_index 1.
Definition a3900_maps : hw -> adec :=
  unset a3900_ccu_memory_map a3900_io_win_memory_map [a3900_iob_memory_map] a3900_amb_memory_map.

(** ** The sequence of BL31

    [apn806_init] (drivers/marvell/mochi/apn806_setup.c) and [cp110_init] (cp110_setup.c), of
    which the calls that program windows are modelled, as plat_bl31_setup.c calls them; [mci_link]
    is the result of [mci_initialize]. *)
Section bl31.
Context `{Board}.
Definition apn806_windows (s : adec) : adec := (init_ccu 0 (init_io_win 0 s).2).2.
Definition cp110_windows (cp_index : Z) (s : adec) : option adec :=
  '(_, s) ← init_amb_adec cp_index s; Some (init_iob cp_index s).2.
Definition bl31_windows (mci_link : bool) (s : adec) : option adec :=
  let s := apn806_windows s in
  s ← cp110_windows 0 s;
  if (CP_COUNT =? 2) && mci_link then cp110_windows 1 s else Some s.
End bl31.

(** ** BL2: plat/marvell/a8k/common/mss/mss_bl2_setup.c

    [ccu_enable_win] takes the register base from the global that only [init_ccu] sets. *)
Definition IOW_GCR_OFFSET : Z := 0x70.
Definition mem_map : list win :=
  [Win 0x0 (MVEBU_CP_REGS_BASE 0) 0x0 0x2000000 IO_0_TID; Win 0x0 (MVEBU_CP_REGS_BASE 1) 0x0 0x2000000 IO_0_TID].
Fixpoint bl2_enable_wins (base : Z) (wins : list win) (win_id : Z) (h : hw) : list win * hw :=
  match wins with
  | [] => ([], h)
  | w :: rest =>
      let w := ccu_win_check w in
      let '(rest, h) := bl2_enable_wins base rest (win_id + 1) (ccu_enable_win base w win_id h) in
      (w :: rest, h)
  end.
Definition bl2_plat_mmap_init `{Board} (map : list win) (s : adec) : Z * list win * hw :=
  let win_nr := zlen map in
  if u64 marvell_get_ccu_max_win <? win_nr then (-1, map, mmio s)
  else
    let '(map, h) := bl2_enable_wins (ccu_base s) map 0 (mmio s) in
    (0, map, mmio_write_32 (u64 (MVEBU_IO_WIN_BASE + IOW_GCR_OFFSET)) PIDI_TID h).

(** ** The boot loader extension: plat/marvell/a8k/common/plat_ble_setup.c

    The function keeps the saved registers in statics. *)
Module Ble.
Definition CCU_CFG_IO_WIN_NUM : Z := 3.
Definition CCU_WIN_TARGET_OFFSET : Z := 8.
Definition CCU_WIN_TARGET_MASK : Z := 0xf.
Definition CCU_WIN_ADDR_SHIFT : Z := 20.
Definition CCU_WIN_ADDR_OFFSET : Z := 4.
Definition CCU_WIN_CR (w : Z) : Z := MVEBU_CCU_BASE + (0x0 + w * 0x10).
Definition CCU_WIN_SCR (w : Z) : Z := MVEBU_CCU_BASE + (0x4 + w * 0x10).
Definition CCU_WIN_ALR (w : Z) : Z := MVEBU_CCU_BASE + (0x8 + w * 0x10).
Definition CCU_WIN_AHR (w : Z) : Z := MVEBU_CCU_BASE + (0xC + w * 0x10).
Definition CCU_WIN_GCR : Z := MVEBU_CCU_BASE + 0xD0.
Definition IOW_CFG_IO_WIN_NUM_ST : Z := 2.
Definition IOW_CFG_IO_WIN_NUM_END (cp_count : Z) : Z := IOW_CFG_IO_WIN_NUM_ST + cp_count - 1.
Definition IOW_GCR : Z := MVEBU_IO_WIN_BASE + 0x70.
Definition IOW_WIN_ALR (w : Z) : Z := MVEBU_IO_WIN_BASE + (0x10 + 0x10 * w).
Definition MMAP_SAVE_AND_CONFIG : Z := 0.
Definition MMAP_RESTORE_SAVED : Z := 1.

Record saved := Saved { ccu_win_regs : list Z; io_win_regs : list Z; ccu_gcr : Z; iow_gcr : Z }.
Definition no_saved : saved := Saved [0; 0; 0; 0] [0] 0 0.

(** The crossbar windows of the other CP110s, whose settings the hardware has. *)
Definition iow_wins (cp_count : Z) : list Z :=
  seqZ IOW_CFG_IO_WIN_NUM_ST (IOW_CFG_IO_WIN_NUM_END cp_count - IOW_CFG_IO_WIN_NUM_ST).

Definition ble_save (cp_count : Z) (h : hw) : saved :=
  let w := CCU_CFG_IO_WIN_NUM in
  Saved [mmio_read_32 h (CCU_WIN_CR w); mmio_read_32 h (CCU_WIN_SCR w);
         mmio_read_32 h (CCU_WIN_ALR w); mmio_read_32 h (CCU_WIN_AHR w)]
        ((fun win_num => mmio_read_32 h (IOW_WIN_ALR win_num)) <$> iow_wins cp_count)
        (mmio_read_32 h CCU_WIN_GCR) (mmio_read_32 h IOW_GCR).

Definition ble_restore (cp_count : Z) (sv : saved) (h : hw) : hw :=
  let w := CCU_CFG_IO_WIN_NUM in
  let r i := nth i (ccu_win_regs sv) 0 in
  let h := mmio_write_32 (CCU_WIN_CR w) (r 0%nat) h in
  let h := mmio_write_32 (CCU_WIN_SCR w) (r 1%nat) h in
  let h := mmio_write_32 (CCU_WIN_ALR w) (r 2%nat) h in
  let h := mmio_write_32 (CCU_WIN_AHR w) (r 3%nat) h in
  let h := mmio_write_32 CCU_WIN_GCR (ccu_gcr sv) h in
  let h := foldl (fun h win_num =>
             mmio_write_32 (IOW_WIN_ALR win_num)
               (nth (Z.to_nat (win_num - IOW_CFG_IO_WIN_NUM_ST)) (io_win_regs sv) 0) h) h (iow_wins cp_count) in
  mmio_write_32 IOW_GCR (iow_gcr sv) h.

Definition ble_config (cp_count : Z) (sv : saved) (h : hw) : hw :=
  let w := CCU_CFG_IO_WIN_NUM in
  let reg_val := Z.land (ccu_gcr sv) (u32 (Z.lnot (Z.shiftl CCU_WIN_TARGET_MASK CCU_WIN_TARGET_OFFSET))) in
  let reg_val := Z.lor reg_val (Z.shiftl (Z.land DRAM_0_TID CCU_WIN_TARGET_MASK) CCU_WIN_TARGET_OFFSET) in
  let h := mmio_write_32 CCU_WIN_GCR reg_val h in
  let h := mmio_write_32 (CCU_WIN_CR w) 0 h in
  let reg_val := u32 (Z.shiftl (Z.shiftr (MVEBU_CP_REGS_BASE 0) CCU_WIN_ADDR_SHIFT) CCU_WIN_ADDR_OFFSET) in
  let h := mmio_write_32 (CCU_WIN_ALR w) reg_val h in
  let reg_val := u32 (Z.shiftl (Z.shiftr (MVEBU_CP_REGS_BASE (cp_count - 1)) CCU_WIN_ADDR_SHIFT) CCU_WIN_ADDR_OFFSET) in
  let reg_val := Z.lor reg_val (Z.shiftl 0xF CCU_WIN_ADDR_OFFSET) in
  let h := mmio_write_32 (CCU_WIN_AHR w) reg_val h in
  let reg_val := Z.lor (Z.shiftl IO_0_TID CCU_WIN_TARGET_OFFSET) 0x1 in
  let h := mmio_write_32 (CCU_WIN_CR w) reg_val h in
  let h := mmio_write_32 IOW_GCR PIDI_TID h in
  foldl (fun h win_num =>
    mmio_write_32 (IOW_WIN_ALR win_num) (Z.lor (mmio_read_32 h (IOW_WIN_ALR win_num)) 0x1) h) h (iow_wins cp_count).

Definition ble_plat_mmap_config `{Board} (restore : Z) (s : saved * hw) : saved * hw :=
  let '(sv, h) := s in
  if restore =? MMAP_RESTORE_SAVED then (sv, ble_restore CP_COUNT sv h)
  else let sv := ble_save CP_COUNT h in (sv, ble_config CP_COUNT sv h).
End Ble.
