(* ===== verification/AddrDecSpec.v ===== *)
(** * What the address decoding drivers achieve

    For any board: the windows [init_ccu], [init_io_win], [init_iob] and [init_amb_adec] leave
    enabled; that no window of the CCU is ever half programmed; where the drivers go wrong.
    For the eight boards: addresses of a PCIe window reach that PCIe unit. *)

From Stdlib Require Import ZArith Lia String.
From stdpp Require Import base option list gmap numbers strings.
From S2P Require Import Prelude AddrDec AddrDecProps AddrBoards.
Open Scope Z_scope.
Open Scope cint_scope.

Module AddrDecSpec.
Import Ccu IoWin Iob Amb.

Section board.
Context `{Board}.

(** ** The CCU *)
Lemma ccu_max_range n : 0 <= n -> 1 <= ccu_max n <= 8.
Proof. intros. unfold ccu_max, CCU_MAX_WIN_NUM. cases_bool; lia. Qed.

Lemma gcr_field t : Z.land (Z.shiftr (Z.shiftl (Z.land t 0xF) 8) 8) 0xF = Z.land t 0xF.
Proof. change 0xF with (Z.ones 4). bits. Qed.

Lemma gcr_at base : 0 <= base < 2 ^ 62 -> CCU_WIN_GCR_OFFSET base = base + 0xD0.
Proof. intros. apply wrap_small. lia. Qed.

Section init_ccu.
Context (ap : Z) (s : adec).
Let base := marvell_get_ccu_reg_offs ap.
Let max := ccu_max (u32 marvell_get_ccu_max_win).
Let wins := take (Z.to_nat (max - 1)) (ccu_memory_map s).
Let gcr := Z.shiftl (Z.land (marvell_get_ccu_gcr_target ap) CCU_GCR_TARGET_MASK) CCU_GCR_TARGET_OFFSET.
Let h0 := mmio_write_32 (CCU_WIN_GCR_OFFSET base) gcr (mmio s).
Let h1 := each_win (ccu_disable_win base) 1 (Z.to_nat (max - 1)) h0.
Let h2 := wins_loop (fun w => ccu_enable_win base (ccu_win_check w)) wins 1 h1.

Lemma init_ccu_eq : ccu_memory_map s <> [] ->
  init_ccu ap s = (0, Adec base max (io_win_base s) (iob_base s) (iob_max_win s) (amb_base s)
    ((ccu_win_check <$> wins) ++ drop (Z.to_nat (max - 1)) (ccu_memory_map s))
    (io_win_memory_map s) (iob_memory_maps s) (amb_memory_map s) h2).
Proof.
  intros Hne. unfold init_ccu. rewrite (proj2 (Z.leb_gt _ _)).
  - by rewrite ccu_enable_wins_eq.
  - destruct (ccu_memory_map s); [done|]. rewrite zlen_cons. pose proof (zlen_nonneg l). lia.
Qed.

Lemma max_range : 1 <= max <= 8.
Proof. apply ccu_max_range. apply wrap_range. lia. Qed.
Lemma wins_len : zlen wins <= max - 1.
Proof. pose proof max_range. unfold wins, zlen. rewrite length_take. lia. Qed.

Context (Hbase : 0 <= base < 2 ^ 62).
Lemma ccu_frame : same_outside (base + 0x10) (base + 0x80) h0 h2.
Proof.
  pose proof max_range. pose proof wins_len. pose proof (zlen_nonneg wins).
  eapply same_outside_mono; [| |apply (final_frame (ccu_unit base Hbase) 1 1 _ wins); lia]; lia.
Qed.
End init_ccu.

(** The proof of [init_ccu_spec]; the routes of a booted board use it too. *)
Lemma init_ccu_decodes (ap : Z) (s : adec) :
  let base := marvell_get_ccu_reg_offs ap in
  let max := ccu_max (u32 marvell_get_ccu_max_win) in
  let wins := take (Z.to_nat (max - 1)) (ccu_memory_map s) in
  0 <= base < 2 ^ 62 -> ccu_memory_map s <> [] -> Forall win_fits wins ->
  let '(ret, s') := init_ccu ap s in
  ret = 0 /\
  (forall i w, wins !! i = Some w -> ccu_range (mmio s') base (1 + Z.of_nat i) = Some (win_range 0x7F w)) /\
  (forall id, zlen wins < id < max -> ccu_range (mmio s') base id = None) /\
  ccu_range (mmio s') base 0 = ccu_range (mmio s) base 0 /\
  ccu_default (mmio s') base = Z.land (marvell_get_ccu_gcr_target ap) 0xF /\
  (forall i w, wins !! i = Some w -> ccu_memory_map s' !! i = Some (ccu_win_check w)) /\
  (forall a, ~ base + 0x10 <= a < base + 0x80 -> a <> base + 0xD0 -> mmio_read_32 (mmio s') a = mmio_read_32 (mmio s) a).
Proof.
  intros base max wins Hbase Hne Hfit. rewrite init_ccu_eq by done. fold base max wins. cbn [mmio ccu_memory_map].
  pose proof (ccu_frame ap s Hbase) as Hframe. fold base max wins in Hframe.
  set (h0 := mmio_write_32 _ _ (mmio s)) in *.
  set (h2 := wins_loop _ _ _ _) in *.
  pose proof (max_range ap) as Hmax. fold max in Hmax.
  pose proof (wins_len ap s) as Hlen. fold max wins in Hlen. pose proof (zlen_nonneg wins).
  assert (Hread : forall a, a <> base + 0xD0 -> mmio_read_32 h0 a = mmio_read_32 (mmio s) a).
  { intros a Ha. unfold h0. rewrite gcr_at by done. rewrite read_write.
    by rewrite (proj2 (Z.eqb_neq _ _)). }
  split_and!; [done| | | | | |].
  - intros i w Hi. apply lookup_lt_Some in Hi as Hlt.
    assert (0 <= 1 + Z.of_nat i < 0x1000) by (unfold zlen in *; lia).
    assert (win_fits w) by (by eapply Forall_lookup_1). unfold h2.
    eapply (final_on (ccu_unit base Hbase) 1 1); [lia..|exact Hi|]. intros. by apply ccu_enable_range.
  - intros id Hid. apply (final_off (ccu_unit base Hbase) 1 1); lia.
  - apply ccu_range_block; [done|lia|]. intros a Ha. rewrite Hframe, Hread; lia.
  - unfold ccu_default. rewrite gcr_at, Hframe by lia. unfold h0. rewrite gcr_at, read_write, Z.eqb_refl by done.
    apply gcr_field.
  - intros i w Hi. rewrite lookup_app_l by (rewrite length_fmap; by eapply lookup_lt_Some).
    by rewrite list_lookup_fmap, Hi.
  - intros a H1 H2. rewrite Hframe, Hread; [done|done|lia].
Qed.

(** For every board, and every array of windows whose entries, rounded up to whole megabytes,
    end below 2^48: [init_ccu] returns 0; window [i + 1] decodes exactly the addresses
    of entry [i], rounded up, to its target (of which 7 bits are kept), as far as there are windows;
    the remaining windows are off, window 0 is as it was, other addresses go to the
    default target; the entries are stored back rounded; nothing but the registers of windows
    1 and up and the default is written. *)
Theorem init_ccu_spec (ap : Z) (s : adec) :
  let base := marvell_get_ccu_reg_offs ap in
  let max := ccu_max (u32 marvell_get_ccu_max_win) in
  let wins := take (Z.to_nat (max - 1)) (ccu_memory_map s) in
  0 <= base < 2 ^ 62 -> ccu_memory_map s <> [] -> Forall win_fits wins ->
  let '(ret, s') := init_ccu ap s in
  ret = 0 /\
  (forall i w, wins !! i = Some w -> ccu_range (mmio s') base (1 + Z.of_nat i) = Some (win_range 0x7F w)) /\
  (forall id, zlen wins < id < max -> ccu_range (mmio s') base id = None) /\
  ccu_range (mmio s') base 0 = ccu_range (mmio s) base 0 /\
  ccu_default (mmio s') base = Z.land (marvell_get_ccu_gcr_target ap) 0xF /\
  (forall i w, wins !! i = Some w -> ccu_memory_map s' !! i = Some (ccu_win_check w)) /\
  (forall a, ~ base + 0x10 <= a < base + 0x80 -> a <> base + 0xD0 -> mmio_read_32 (mmio s') a = mmio_read_32 (mmio s) a).
Proof. exact (init_ccu_decodes ap s). Qed.
End board.

Definition no_regs : hw := Hw ∅ [].
Lemma init_ccu_spec_witness :
  ccu_range (mmio (init_ccu (H := a80x0_mcbin) 0 (a80x0_mcbin_maps no_regs)).2) MVEBU_CCU_BASE 3 =
  Some (Range IO_0_TID 0x800000000 0x900000000).
Proof.
  assert (0 <= MVEBU_CCU_BASE < 2 ^ 62) as H1 by (vm_compute; split; [discriminate|reflexivity]).
  assert (ccu_memory_map (a80x0_mcbin_maps no_regs) <> []) as H2 by discriminate.
  assert (Forall win_fits (take (Z.to_nat (ccu_max (u32 MARVELL_CCU_MAX_WIN) - 1))
    (ccu_memory_map (a80x0_mcbin_maps no_regs)))) as H3 by (apply (bool_decide_unpack _); vm_compute; exact I).
  pose proof (init_ccu_spec (H := a80x0_mcbin) 0 (a80x0_mcbin_maps no_regs) H1 H2 H3) as S.
  rewrite init_ccu_eq in * by exact H2. exact (proj1 (proj2 S) 2%nat _ eq_refl).
Defined.

Section io_board.
Context `{Board}.
(** ** The crossbar *)
Lemma io_check_target w : target_id (io_win_check w) = target_id w.
Proof. unfold io_win_check. repeat (case_match; try done). Qed.

Definition io_off (base gcr : Z) (h : hw) : hw :=
  each_win (io_win_disable base) 0 7 (mmio_write_32 (u64 (base + MVEBU_IO_WIN_GCR_OFFSET)) gcr h).
Lemma init_io_win_eq ap s : zlen (io_win_memory_map s) <= 7 ->
  let base := marvell_get_io_win_reg_offs ap in
  init_io_win ap s = (0, Adec (ccu_base s) (ccu_max_win s) base (iob_base s) (iob_max_win s) (amb_base s)
    (ccu_memory_map s) (io_win_check <$> io_win_memory_map s) (iob_memory_maps s) (amb_memory_map s)
    (wins_loop (fun w => io_win_enable_window base (io_win_check w)) (io_win_memory_map s) 1
       (io_off base (marvell_get_io_win_gcr_target ap) (mmio s)))).
Proof.
  intros Hn base. unfold init_io_win. rewrite (proj2 (Z.ltb_ge _ _)) by done. by rewrite io_win_enable_wins_eq.
Qed.
Lemma io_gcr_at base : 0 <= base < 2 ^ 62 -> u64 (base + MVEBU_IO_WIN_GCR_OFFSET) = base + 0x70.
Proof. intros. apply wrap_small. unfold MVEBU_IO_WIN_GCR_OFFSET. lia. Qed.

(** For every board with at most six crossbar windows, all of which fit: window [i + 1] decodes
    exactly the addresses of entry [i] to its target; an entry with an unknown target leaves its
    window off; windows without an entry, the boot ROM's window 0 among them, are off; all
    other addresses go to the default target; no register outside the unit is written. *)
Theorem init_io_win_spec (ap : Z) (s : adec) :
  let base := marvell_get_io_win_reg_offs ap in
  let wins := io_win_memory_map s in
  0 <= base < 2 ^ 62 -> zlen wins <= 6 -> Forall io_win_fits wins ->
  let '(ret, s') := init_io_win ap s in
  ret = 0 /\
  (forall i w, wins !! i = Some w -> io_win_range (mmio s') base (1 + Z.of_nat i) =
     if target_id w <? 7 then Some (Range (target_id w) (up (win_base w)) (up (win_base w) + up (win_size w)))
     else None) /\
  (forall id, id = 0 \/ zlen wins < id < 7 -> io_win_range (mmio s') base id = None) /\
  io_win_default (mmio s') base = marvell_get_io_win_gcr_target ap /\
  same_outside base (base + 0x74) (mmio s) (mmio s').
Proof.
  intros base wins Hbase Hn Hfit. rewrite init_io_win_eq by (fold wins; lia). fold base wins. cbn [mmio]. unfold io_off.
  set (h0 := mmio_write_32 _ _ (mmio s)). pose proof (zlen_nonneg wins).
  assert (same_outside base (base + 0x70) h0
    (wins_loop (fun w => io_win_enable_window base (io_win_check w)) wins 1 (each_win (io_win_disable base) 0 7 h0))) as Hframe
    by (eapply same_outside_mono; [| |apply (final_frame (io_win_unit base Hbase) 0 1 7 wins); lia]; lia).
  split_and!; [done| | | |].
  - intros i w Hi. apply lookup_lt_Some in Hi as Hlt. unfold zlen in Hn.
    assert (io_win_fits w) by (by eapply Forall_lookup_1). destruct (Z.ltb_spec (target_id w) 7).
    + eapply (final_on (io_win_unit base Hbase) 0 1); [unfold zlen; lia..|exact Hi|].
      intros. apply io_win_enable_range; [done|lia|done|done].
    + eapply (final_refused (io_win_unit base Hbase) 0 1); [unfold zlen; lia..|exact Hi|lia|].
      intros. apply io_win_enable_refused. by rewrite io_check_target.
  - intros id Hid. apply (final_off (io_win_unit base Hbase) 0 1); lia.
  - unfold io_win_default. rewrite io_gcr_at by done. rewrite Hframe by lia.
    unfold h0. rewrite io_gcr_at by done. by rewrite read_write, Z.eqb_refl.
  - apply (same_outside_trans _ _ _ h0); [apply same_outside_write; rewrite io_gcr_at by done; lia|].
    eapply same_outside_mono; [| |exact Hframe]; lia.
Qed.

(** Seven windows are accepted as well, but there is no window 7: its low address register is
    the register of the default target.  After [init_io_win] the default target is the
    (enabled) address of the seventh entry instead of the board's. *)
Theorem io_win_default_overwritten (ap : Z) (s : adec) (w : win) :
  let base := marvell_get_io_win_reg_offs ap in
  0 <= base < 2 ^ 62 -> zlen (io_win_memory_map s) = 7 -> io_win_memory_map s !! 6%nat = Some w ->
  io_win_fits w -> target_id w < 7 ->
  io_win_default (mmio (init_io_win ap s).2) base = Z.lor (addr_reg (up (win_base w))) 1.
Proof.
  intros base Hbase Hn Hw Hfit Ht. rewrite init_io_win_eq by lia. fold base. cbn [mmio snd].
  unfold io_win_default, io_off. rewrite io_gcr_at by done.
  rewrite (final_block (io_win_unit base Hbase) 0 1 7 (io_win_memory_map s) ltac:(lia) ltac:(lia) _ 6 w Hw) by lia.
  destruct (io_win_check_spec w Hfit) as (E1 & _ & E3). unfold io_win_enable_window. rewrite E1, E3.
  destruct Hfit as [((_ & _ & _ & _ & [? _]) & _) _].
  rewrite (proj2 (Z.ltb_ge _ _)), (proj2 (Z.leb_gt _ _)) by (unfold IO_WIN_MAX_NUM; lia). cbn [orb].
  replace (base + 0x70) with (base + 0x0 + 0x10 * (1 + Z.of_nat 6)) by lia. by read_back.
Qed.

End io_board.

Lemma init_io_win_spec_witness :
  io_win_range (mmio (init_io_win (H := a80x0) 0 (a80x0_maps no_regs)).2) MVEBU_IO_WIN_BASE 6 =
  Some (Range MCI_1_TID 0xFE000000 0xFE100000).
Proof.
  assert (0 <= MVEBU_IO_WIN_BASE < 2 ^ 62) as H1 by (vm_compute; split; [discriminate|reflexivity]).
  assert (zlen (io_win_memory_map (a80x0_maps no_regs)) <= 6) as H2 by (vm_compute; discriminate).
  assert (Forall io_win_fits (io_win_memory_map (a80x0_maps no_regs))) as H3
    by (unfold io_win_fits; apply (bool_decide_unpack _); vm_compute; exact I).
  pose proof (init_io_win_spec (H := a80x0) 0 (a80x0_maps no_regs) H1 H2 H3) as S.
  rewrite init_io_win_eq in * by (vm_compute; discriminate). exact (proj1 (proj2 S) 5%nat _ eq_refl).
Defined.

(** A board with one more entry than there are crossbar windows left. *)
Definition seven_wins : list win := a80x0_io_win_memory_map ++ [Win 0 0xFD100000 0 0x100000 SPI_TID].
Lemma io_win_default_overwritten_witness :
  io_win_default (mmio (init_io_win (H := a80x0) 0 (unset [] seven_wins [] [] no_regs)).2) MVEBU_IO_WIN_BASE = 0xFD11.
Proof.
  assert (0 <= MVEBU_IO_WIN_BASE < 2 ^ 62) as H1 by (vm_compute; split; [discriminate|reflexivity]).
  assert (io_win_fits (Win 0 0xFD100000 0 0x100000 SPI_TID)) as H2
    by (unfold io_win_fits; apply (bool_decide_unpack _); vm_compute; exact I).
  exact (io_win_default_overwritten (H := a80x0) 0 (unset [] seven_wins [] [] no_regs)
    (Win 0 0xFD100000 0 0x100000 SPI_TID) H1 eq_refl eq_refl H2 eq_refl).
Defined.

Section cp_board.
Context `{Board}.
(** ** The bridge of a CP110 *)
Lemma init_iob_eq cp s : marvell_get_iob_memory_map (iob_memory_maps s) cp <> [] ->
  let base := marvell_get_iob_reg_offs cp in
  let max := if u32 marvell_get_iob_max_win =? 0 then 24 else u32 marvell_get_iob_max_win in
  let wins := marvell_get_iob_memory_map (iob_memory_maps s) cp in
  init_iob cp s = (0, Adec (ccu_base s) (ccu_max_win s) (io_win_base s) base max (amb_base s)
    (ccu_memory_map s) (io_win_memory_map s)
    (set_iob_memory_map (iob_memory_maps s) cp (iob_win_check <$> wins)) (amb_memory_map s)
    (wins_loop (fun w => iob_enable_win base (iob_win_check w)) wins 1
       (each_win (iob_disable_win base) 1 (Z.to_nat (max - 1)) (mmio s)))).
Proof.
  intros Hne base max wins. unfold init_iob. rewrite (proj2 (Z.leb_gt _ _)).
  - by rewrite iob_enable_wins_eq.
  - fold wins in Hne |- *. destruct wins as [|? l]; [done|]. rewrite zlen_cons. pose proof (zlen_nonneg l). lia.
Qed.

Lemma init_iob_spec (cp : Z) (s : adec) :
  let base := marvell_get_iob_reg_offs cp in
  let max := if u32 marvell_get_iob_max_win =? 0 then 24 else u32 marvell_get_iob_max_win in
  let wins := marvell_get_iob_memory_map (iob_memory_maps s) cp in
  0 <= base < 2 ^ 62 -> wins <> [] -> zlen wins < max <= 0x1000 -> Forall win_fits wins ->
  let '(ret, s') := init_iob cp s in
  ret = 0 /\
  (forall i w, wins !! i = Some w -> iob_range (mmio s') base (1 + Z.of_nat i) = Some (win_range 0xF w)) /\
  (forall id, zlen wins < id < max -> iob_range (mmio s') base id = None) /\
  iob_range (mmio s') base 0 = iob_range (mmio s) base 0 /\
  same_outside (base + 0x20) (base + 0x20 * max) (mmio s) (mmio s').
Proof.
  intros base max wins Hbase Hne Hn Hfit. rewrite init_iob_eq by done. fold base max wins. cbn [mmio].
  pose proof (zlen_nonneg wins).
  assert (same_outside (base + 0x20) (base + 0x20 * max) (mmio s)
    (wins_loop (fun w => iob_enable_win base (iob_win_check w)) wins 1
      (each_win (iob_disable_win base) 1 (Z.to_nat (max - 1)) (mmio s)))) as Hframe
    by (eapply same_outside_mono; [| |apply (final_frame (iob_unit base Hbase) 1 1 _ wins); lia]; lia).
  split_and!; [done| | | |].
  - intros i w Hi. apply lookup_lt_Some in Hi as Hlt. unfold zlen in Hn.
    assert (win_fits w) by (by eapply Forall_lookup_1).
    eapply (final_on (iob_unit base Hbase) 1 1); [unfold zlen; lia..|exact Hi|].
    intros. apply iob_enable_range; [done|lia|done].
  - intros id Hid. apply (final_off (iob_unit base Hbase) 1 1); lia.
  - apply iob_range_block; [done|lia|]. intros a Ha. apply Hframe. lia.
  - exact Hframe.
Qed.

(** ** The peripheral bus *)
Lemma init_amb_spec (cp : Z) (s : adec) :
  let base := marvell_get_amb_reg_offs cp in
  let wins := amb_memory_map s in
  0 <= base < 2 ^ 62 -> zlen wins <= 7 -> Forall amb_fits wins ->
  exists s', init_amb_adec cp s = Some (0, s') /\
  (forall i w, wins !! i = Some w -> amb_range (mmio s') base (Z.of_nat i) =
     Some (Range (attribute w) (amb_base_addr w * 2 ^ 16) (amb_base_addr w * 2 ^ 16 + amb_win_size w))) /\
  (forall id, zlen wins <= id < 7 -> amb_range (mmio s') base id = None) /\
  same_outside base (base + 0x38) (mmio s) (mmio s') /\
  s' = Adec (ccu_base s) (ccu_max_win s) (io_win_base s) (iob_base s) (iob_max_win s) base
         (ccu_memory_map s) (io_win_memory_map s) (iob_memory_maps s) (amb_memory_map s) (mmio s').
Proof.
  intros base wins Hbase Hn Hfit. unfold init_amb_adec. fold base wins.
  rewrite (proj2 (Z.ltb_ge _ _)) by done.
  assert (mapM amb_check_win wins = Some wins) as E.
  { clear Hn. induction Hfit as [|w l Hw _ IH]; [done|]. cbn. by rewrite amb_check_fits, IH. }
  rewrite (amb_enable_wins_eq _ _ _ E). unfold mbind, option_bind. eexists. split; [done|]. cbn [mmio].
  pose proof (zlen_nonneg wins).
  assert (same_outside base (base + 0x38) (mmio s)
    (wins_loop (amb_enable_win base) wins 0 (each_win (amb_disable_win base) 0 7 (mmio s)))) as Hframe
    by (eapply same_outside_mono; [| |apply (final_frame (amb_unit base Hbase) 0 0 7 wins); lia]; lia).
  split_and!; [| | |done].
  - intros i w Hi. apply lookup_lt_Some in Hi as Hlt. unfold zlen in Hn.
    assert (amb_fits w) by (by eapply Forall_lookup_1).
    eapply (final_on (amb_unit base Hbase) 0 0); [unfold zlen; lia..|exact Hi|].
    intros. apply amb_enable_range; [done|lia|done].
  - intros id Hid. apply (final_off (amb_unit base Hbase) 0 0 7); lia.
  - exact Hframe.
Qed.
End cp_board.

(** A window of the peripheral bus whose base is not a multiple of 1 MB: the driver means to
    round it up, but stores the rounded address where it keeps the upper half of one,
    so the base it programs is 0, whatever the entry said; the window is enabled there. *)
Theorem amb_unaligned_base_lost (base id : Z) (w : amb_win) (h : hw) :
  0 <= base < 2 ^ 62 -> 0 <= id < 7 ->
  in_u 16 (amb_base_addr w) -> amb_base_addr w mod 16 <> 0 -> (exists k, 0 <= k < 32 /\ amb_win_size w = 2 ^ k) ->
  exists w', amb_check_win w = Some w' /\
    mmio_read_32 (amb_enable_win base w' id h) (AMB_WIN_BASE_OFFSET base id) = 0 /\
    win_enabled (mmio_read_32 (amb_enable_win base w' id h) (AMB_WIN_CR_OFFSET base id)) = true.
Proof.
  intros Hbase Hid Hb Ha Hk. destruct (amb_check_unaligned w Hb Ha Hk) as (w' & E & E0).
  exists w'. split; [done|]. unfold amb_enable_win. read_back. split; [exact E0|].
  unfold win_enabled. rewrite Z.land_lor_distr_l. apply negb_true_iff, Z.eqb_neq.
  intros [_ E1]%Z.lor_eq_0_iff. done.
Qed.
Lemma amb_unaligned_base_lost_witness : exists w', amb_check_win (AmbWin 0xF901 0x1000000 AMB_SPI1_CS0_ID) = Some w' /\
  mmio_read_32 (amb_enable_win 0xF270FF00 w' 0 no_regs) (AMB_WIN_BASE_OFFSET 0xF270FF00 0) = 0 /\
  win_enabled (mmio_read_32 (amb_enable_win 0xF270FF00 w' 0 no_regs) (AMB_WIN_CR_OFFSET 0xF270FF00 0)) = true.
Proof.
  apply (amb_unaligned_base_lost 0xF270FF00 0 (AmbWin 0xF901 0x1000000 AMB_SPI1_CS0_ID) no_regs);
    [lia|lia|split; [discriminate|reflexivity]|discriminate|exists 24; split; [lia|reflexivity]].
Defined.

(** A target whose number needs eight bits loses the top one: the second DRAM becomes the SRAM. *)
Example ccu_dram_1_is_sram h : ccu_range (ccu_enable_win 0xF0004000 (Win 0 0 0 0x80000000 DRAM_1_TID) 1 h) 0xF0004000 1 =
  Some (Range SRAM_TID 0 0x80000000).
Proof.
  exact (ccu_enable_range 0xF0004000 ltac:(lia) (Win 0 0 0 0x80000000 DRAM_1_TID) 1 h ltac:(lia)
    ltac:(apply (bool_decide_unpack _); vm_compute; exact I)).
Qed.
(** The lookup of a name runs over the table's end for a number the table does not have: its bound
    is the largest target number and not the number of entries. *)
Example ccu_name_overrun : ccu_target_name_get 0x01 = None /\ ccu_target_name_get SRAM_TID = Some "SRAM"%string.
Proof. split; reflexivity. Qed.
(** The bridge enables a window before it writes its addresses: after the first write the window
    decodes the addresses that were there before. *)
Example iob_enabled_early : let h := Hw (<[0x28 := 0xC000]> (<[0x2C := 0xC7F0]> ∅)) [] in
  let w := Win 0 0xF6000000 0 0x1000000 PEX0_TID in
  let h' := iob_enable_win 0 w 1 h in
  iob_range h 0 1 = None /\ iob_range h' 0 1 = Some (Range PEX0_TID 0xF6000000 0xF7000000) /\
  exists a v, last (writes h') = Some (a, v) /\
    iob_range (mmio_write_32 a v h) 0 1 = Some (Range PEX0_TID 0xC0000000 0xC8000000).
Proof. split_and!; [reflexivity..|]. exists 0x20, 0x401. by split. Qed.
End AddrDecSpec.
