(* ===== verification/AddrQuiet.v ===== *)
(** * No half-programmed window

    Registers are written one at a time while other masters use the windows.  [during P h h'] says
    that [P] holds of every intermediate state of the registers from [h] to [h'].  The CCU driver
    disables a window before it changes its addresses and enables it last, so at
    any moment a window decodes what it did before, nothing, or what it will decode. *)

From Stdlib Require Import ZArith Lia String.
From stdpp Require Import base option list gmap numbers strings.
From S2P Require Import Prelude AddrDec AddrDecProps AddrBoards AddrDecSpec.
Open Scope Z_scope.
Open Scope cint_scope.

Module AddrQuiet.
Import Ccu Iob AddrDecSpec.

(** The registers after the writes [ws], newest first. *)
Definition replay (h : hw) (ws : list (Z * Z)) : hw := foldr (fun '(a, v) h => mmio_write_32 a v h) h ws.
Definition during (P : hw -> Prop) (h h' : hw) : Prop :=
  exists ws, h' = replay h ws /\ forall newer older, ws = newer ++ older -> P (replay h older).

Lemma replay_app h ws1 ws2 : replay h (ws2 ++ ws1) = replay (replay h ws1) ws2.
Proof. unfold replay. by rewrite foldr_app. Qed.
Lemma replay_writes h ws : writes (replay h ws) = ws ++ writes h.
Proof. induction ws as [|[a v] ws IH]; [done|]. cbn. f_equal. exact IH. Qed.

Lemma during_refl (P : hw -> Prop) h : P h -> during P h h.
Proof. intros HP. exists []. split; [done|]. by intros newer older [_ ->]%eq_sym%app_eq_nil. Qed.
Lemma during_trans P h1 h2 h3 : during P h1 h2 -> during P h2 h3 -> during P h1 h3.
Proof.
  intros (ws1 & -> & H1) (ws2 & -> & H2). exists (ws2 ++ ws1). split; [by rewrite replay_app|].
  intros newer older E. apply app_eq_inv in E as [(k & -> & ->)|(k & -> & ->)].
  - rewrite replay_app. by eapply H2.
  - by eapply H1.
Qed.
Lemma during_write (P : hw -> Prop) h a v : P h -> P (mmio_write_32 a v h) -> during P h (mmio_write_32 a v h).
Proof.
  intros H1 H2. exists [(a, v)]. split; [done|]. intros [|x [|y newer]] [|z older] E; simplify_list_eq; done.
Qed.
Lemma during_mono (P Q : hw -> Prop) h h' : (forall t, P t -> Q t) -> during P h h' -> during Q h h'.
Proof. intros HPQ (ws & -> & H). exists ws. split; [done|]. intros. eapply HPQ, H. done. Qed.
Lemma during_end (P : hw -> Prop) h h' : during P h h' -> P h'.
Proof. intros (ws & -> & H). by apply (H []). Qed.

(** ** Loops over windows *)
Section quiet.
Context {A R : Type} {base stride : Z} {rng : hw -> Z -> option R} {off : Z -> hw -> hw} {on : A -> Z -> hw -> hw}.
Context (U : WinUnit base stride rng off on).
(** While a window is switched off or programmed, the others keep their registers. *)
Definition within (id : Z) (h : hw) (P : option R -> Prop) (t : hw) : Prop :=
  same_outside (base + stride * id) (base + stride * (id + 1)) h t /\ P (rng t id).
Context (Qoff : forall id h, 0 <= id < 0x1000 ->
  during (within id h (fun r => r = rng h id \/ r = None)) h (off id h)).
Context (Qon : forall x id h, 0 <= id < 0x1000 -> rng h id = None ->
  during (within id h (fun r => r = None \/ r = rng (on x id h) id)) h (on x id h)).

Lemma within_other id j h P t : within j h P t -> 0 <= id < 0x1000 -> id <> j -> rng t id = rng h id.
Proof.
  intros [Hs _] Hid Hne. pose proof (unit_stride U). apply (unit_range U); [done|].
  eapply same_outside_agree; [exact Hs|]. nia.
Qed.

Lemma each_quiet n : forall i h, 0 <= i -> i + Z.of_nat n <= 0x1000 ->
  during (fun t => forall id, 0 <= id < 0x1000 -> rng t id = rng h id \/ rng t id = None) h (each_win off i n h).
Proof.
  induction n as [|n IH]; intros i h Hi Hn; [apply during_refl; by left|]. cbn [each_win].
  assert (D : during (fun t => forall id, 0 <= id < 0x1000 -> rng t id = rng h id \/ rng t id = None) h (off i h)).
  { eapply during_mono; [|apply Qoff; lia]. intros t Ht id Hid.
    destruct (decide (id = i)) as [->|Hne]; [apply Ht|left]. by eapply within_other. }
  eapply during_trans; [exact D|]. eapply during_mono; [|apply IH; lia].
  intros t Ht id Hid. destruct (Ht id Hid) as [->|]; [by apply (during_end _ _ _ D)|by right].
Qed.

Lemma loop_quiet l : forall i h, 0 <= i -> i + zlen l <= 0x1000 ->
  (forall id, i <= id < i + zlen l -> rng h id = None) ->
  during (fun t => forall id, 0 <= id < 0x1000 -> rng t id = rng h id \/ rng t id = rng (wins_loop on l i h) id)
    h (wins_loop on l i h).
Proof.
  induction l as [|x l IH]; intros i h Hi Hl Hnone; [apply during_refl; by left|]. cbn [wins_loop].
  rewrite zlen_cons in *. pose proof (zlen_nonneg l).
  assert (Q : during (within i h (fun r => r = None \/ r = rng (on x i h) i)) h (on x i h))
    by (apply Qon; [lia|apply Hnone; lia]).
  assert (Hother : forall id, 0 <= id < 0x1000 -> id <> i -> rng (on x i h) id = rng h id)
    by (intros; eapply within_other; [exact (during_end _ _ _ Q)|done|done]).
  assert (Hfin : rng (wins_loop on l (i + 1) (on x i h)) i = rng (on x i h) i).
  { apply (unit_range U); [lia|]. eapply same_outside_agree; [eapply wins_loop_frame; [apply U|apply U|lia..]|].
    right. pose proof (unit_stride U). nia. }
  eapply during_trans.
  - eapply during_mono; [|exact Q]. intros t Ht id Hid. destruct (decide (id = i)) as [->|Hne].
    + rewrite Hfin. destruct Ht as [_ [Ht|Ht]]; [left; rewrite Ht; symmetry; apply Hnone; lia|by right].
    + left. by eapply within_other.
  - eapply during_mono; [|apply IH; [lia|lia|intros; rewrite Hother by lia; apply Hnone; lia]].
    intros t Ht id Hid. destruct (Ht id Hid) as [->|]; [|by right].
    destruct (decide (id = i)) as [->|Hne]; [right; by rewrite Hfin|left; by apply Hother].
Qed.
End quiet.

(** ** The CCU *)
Section ccu.
Context (base : Z) (Hbase : 0 <= base < 2 ^ 62).

Lemma ccu_range_cr h h' id : mmio_read_32 h' (CCU_WIN_CR_OFFSET base id) = mmio_read_32 h (CCU_WIN_CR_OFFSET base id) ->
  ccu_range h base id = None -> ccu_range h' base id = None.
Proof. unfold ccu_range. intros ->. by destruct (win_enabled _). Qed.

Lemma ccu_disable_quiet id h : 0 <= id < 0x1000 ->
  during (within (base := base) (stride := 0x10) (rng := fun h => ccu_range h base) id h
    (fun r => r = ccu_range h base id \/ r = None)) h (ccu_disable_win base id h).
Proof.
  intros Hid. unfold ccu_disable_win. set (h1 := mmio_write_32 _ (clear_enable _) h).
  assert (same_outside (base + 0x10 * id) (base + 0x10 * (id + 1)) h h1) as F1
    by (apply same_outside_write; regs_at; lia).
  assert (ccu_range h1 base id = None) as N1.
  { unfold ccu_range, h1. rewrite read_write, Z.eqb_refl. by rewrite clear_enable_off. }
  apply (during_trans _ _ h1); apply during_write; try by split; auto with adec.
  - split; [|right; eapply ccu_range_cr; [|exact N1]; by read_back].
    eapply same_outside_trans; [exact F1|]. apply same_outside_write. regs_at. lia.
Qed.

Lemma ccu_enable_quiet w id h : 0 <= id < 0x1000 -> ccu_range h base id = None ->
  during (within (base := base) (stride := 0x10) (rng := fun h => ccu_range h base) id h
    (fun r => r = None \/ r = ccu_range (ccu_enable_win base w id h) base id)) h (ccu_enable_win base w id h).
Proof.
  intros Hid Hnone. unfold ccu_enable_win at 2. cbv zeta.
  set (h1 := mmio_write_32 (CCU_WIN_ALR_OFFSET base id) _ h). set (h2 := mmio_write_32 _ _ h1).
  assert (same_outside (base + 0x10 * id) (base + 0x10 * (id + 1)) h h1) as F1
    by (apply same_outside_write; regs_at; lia).
  assert (same_outside (base + 0x10 * id) (base + 0x10 * (id + 1)) h h2) as F2
    by (eapply same_outside_trans; [exact F1|]; apply same_outside_write; regs_at; lia).
  assert (ccu_range h1 base id = None) by (eapply ccu_range_cr; [|exact Hnone]; unfold h1; by read_back).
  assert (ccu_range h2 base id = None) by (eapply ccu_range_cr; [|exact Hnone]; unfold h2, h1; by read_back).
  apply (during_trans _ _ h1); [apply during_write; split; auto with adec|].
  apply (during_trans _ _ h2); apply during_write; try by split; auto.
  split; [|by right]. eapply same_outside_trans; [exact F2|]. apply same_outside_write. regs_at. lia.
Qed.
End ccu.

(** C30: at every moment of [init_ccu], in the order in which it writes the registers, each window
    decodes exactly what it decoded before the call, or nothing, or exactly what it decodes
    after the call: no window is ever enabled with addresses of another configuration. *)
Theorem ccu_windows_whole `{Board} (ap : Z) (s : adec) (newer older : list (Z * Z)) (id : Z) :
  let base := marvell_get_ccu_reg_offs ap in
  0 <= base < 2 ^ 62 -> 0 <= id < 8 ->
  let s' := (init_ccu ap s).2 in
  writes (mmio s') = newer ++ older ++ writes (mmio s) ->
  let r := ccu_range (replay (mmio s) older) base id in
  r = ccu_range (mmio s) base id \/ r = None \/ r = ccu_range (mmio s') base id.
Proof.
  intros base Hbase Hid s' Hw.
  assert (D : during (fun t => forall id, 0 <= id < 8 -> ccu_range t base id = ccu_range (mmio s) base id \/
    ccu_range t base id = None \/ ccu_range t base id = ccu_range (mmio s') base id) (mmio s) (mmio s')).
  { clear Hw newer older id Hid. unfold s'. destruct (decide (ccu_memory_map s = [])) as [E|Hne].
    { unfold init_ccu. rewrite E. apply during_refl. by left. }
    rewrite init_ccu_eq by done. fold base. cbn [snd mmio].
    set (max := ccu_max _). pose proof (max_range ap) as Hmax. fold max in Hmax.
    set (h0 := mmio_write_32 _ _ _). set (h1 := each_win _ _ _ _). set (wins := take _ _).
    pose proof (wins_len ap s) as Hlen. fold max wins in Hlen. pose proof (zlen_nonneg wins).
    set (h2 := wins_loop _ _ _ _).
    assert (R0 : forall id, 0 <= id < 8 -> ccu_range h0 base id = ccu_range (mmio s) base id).
    { intros id Hid. apply ccu_range_block; [done|lia|]. eapply same_outside_agree;
        [apply (same_outside_write (base + 0xD0) (base + 0xD4))|]; [unfold base; rewrite gcr_at by done; lia|lia]. }
    assert (R1 : forall id, 1 <= id < max -> ccu_range h1 base id = None).
    { intros id Hid. pose proof (ccu_unit base Hbase) as U. rewrite <- (unit_none U id h0) by lia.
      apply (unit_range U); [lia|]. eapply each_win_block; [apply U|apply U|lia..]. }
    pose proof (each_quiet (ccu_unit base Hbase) (ccu_disable_quiet base Hbase) (Z.to_nat (max - 1)) 1 h0
      ltac:(lia) ltac:(lia)) as D1. fold h1 in D1.
    assert (D2 : during (fun t => forall id, 0 <= id < 0x1000 -> ccu_range t base id = ccu_range h1 base id \/
      ccu_range t base id = ccu_range h2 base id) h1 h2).
    { apply (loop_quiet (ccu_unit base Hbase)); [intros; by apply ccu_enable_quiet|lia|lia|]. intros. apply R1. lia. }
    apply (during_trans _ _ h0); [apply during_write; intros; left; [done|by apply R0]|].
    apply (during_trans _ _ h1).
    - eapply during_mono; [|exact D1]. intros t Ht id Hid. destruct (Ht id ltac:(lia)) as [->|]; [left; by apply R0|by right; left].
    - eapply during_mono; [|exact D2]. intros t Ht id Hid. destruct (Ht id ltac:(lia)) as [->|]; [|by right; right].
      destruct (during_end _ _ _ D1 id ltac:(lia)) as [-> | ->]; [left; by apply R0|by right; left]. }
  destruct D as (ws & E & HP). assert (ws = newer ++ older) as Ews.
  { apply (app_inv_tail (writes (mmio s))). rewrite <- replay_writes, <- E, Hw. by rewrite app_assoc. }
  by apply (HP _ _ Ews).
Qed.
(** After the eleventh write of a call on an enabled window, with its end still to come. *)
Definition busy_regs : hw := Hw (<[0xF0004010 := 1]> (<[0xF0004018 := 0xC000]> (<[0xF000401C := 0xC7F0]> ∅))) [].
Lemma ccu_windows_whole_witness :
  let s := a80x0_maps busy_regs in let s' := (init_ccu (H := a80x0) 0 s).2 in
  let older := drop 2 (writes (mmio s')) in
  let r := ccu_range (replay busy_regs older) MVEBU_CCU_BASE 1 in
  (r = ccu_range busy_regs MVEBU_CCU_BASE 1 \/ r = None \/ r = ccu_range (mmio s') MVEBU_CCU_BASE 1) /\
  ccu_range busy_regs MVEBU_CCU_BASE 1 <> None.
Proof.
  intros s s' older r. assert (0 <= MVEBU_CCU_BASE < 2 ^ 62) as H1 by (vm_compute; split; [discriminate|reflexivity]).
  assert (writes (mmio s') = take 2 (writes (mmio s')) ++ older ++ writes (mmio s)) as H2 by (vm_compute; reflexivity).
  split; [|vm_compute; discriminate].
  exact (ccu_windows_whole (H := a80x0) 0 s (take 2 (writes (mmio s'))) older 1 H1 ltac:(lia) H2).
Defined.
End AddrQuiet.
