(* ===== verification/AddrRoutes.v ===== *)
(** * Where the addresses of a board go

    After BL31 has programmed the windows, which windows an address falls into at each unit
    ([hits]), first as lists computed from the board's arrays, then, for the eight boards of
    plat/marvell/a8k, the route of every address of a bridge window.  Then the windows of the
    boot loader extension, which are given back, and those of BL2, which are not opened. *)

From Stdlib Require Import ZArith Lia String.
From stdpp Require Import base option list gmap numbers strings.
From S2P Require Import Prelude AddrDec AddrDecProps AddrBoards AddrDecSpec.
Open Scope Z_scope.
Open Scope cint_scope.

Module AddrRoutes.
Import Ccu IoWin Iob Amb AddrDecSpec.

(** ** Windows an address falls into *)
Definition hit (a : Z) (r : range) : option Z :=
  if (rstart r <=? a) && (a <? rend r) then Some (rtarget r) else None.
Definition hits (rng : Z -> option range) (first n a : Z) : list Z :=
  omap (fun id => r ← rng id; hit a r) (seqZ first n).

Lemma hits_ext rng rng' first n a : (forall id, first <= id < first + n -> rng id = rng' id) ->
  hits rng first n a = hits rng' first n a.
Proof.
  intros E. unfold hits. assert (Forall (fun id => first <= id < first + n) (seqZ first n)) as F
    by (apply Forall_forall; intros x Hx; by apply elem_of_seqZ in Hx).
  induction F as [|x l Hx _ IH]; [done|]. cbn. by rewrite E, IH.
Qed.

(** Window 0, and the others. *)
Lemma hits_first rng n a : 0 < n -> hits rng 0 n a = hits rng 0 1 a ++ hits rng 1 (n - 1) a.
Proof.
  intros Hn. unfold hits. replace n with (1 + (n - 1)) at 1 by lia. rewrite seqZ_app by lia.
  apply omap_app.
Qed.

(** The windows of an array, from window [first] on, when all others are off. *)
Lemma hits_list {A} (f : A -> range) rng a l : forall first n, zlen l <= n ->
  (forall i x, l !! i = Some x -> rng (first + Z.of_nat i) = Some (f x)) ->
  (forall id, first + zlen l <= id < first + n -> rng id = None) ->
  hits rng first n a = omap (hit a ∘ f) l.
Proof.
  unfold hits. induction l as [|x l IH]; intros first n Hn Hon Hoff.
  - rewrite zlen_nil in *. assert (Forall (fun id => rng id = None) (seqZ first n)) as F
      by (apply Forall_forall; intros id Hid; apply elem_of_seqZ in Hid; apply Hoff; lia).
    induction F as [|id k E _ IH]; [done|]. cbn. by rewrite E.
  - rewrite zlen_cons in *. pose proof (zlen_nonneg l). rewrite seqZ_cons by lia. cbn.
    specialize (Hon 0%nat x eq_refl) as E. rewrite Z.add_0_r in E. rewrite E. cbn.
    rewrite (IH (Z.succ first) (Z.pred n)); [done|lia| |].
    + intros i y Hi. rewrite <- (Hon (S i) y Hi). f_equal. lia.
    + intros id Hid. apply Hoff. lia.
Qed.

(** ** BL31 on a board of the family *)
Section bl31.
Context (idx : Z -> option nat) (cpc : Z).
Local Instance board : Board := a8k_board idx cpc.

Lemma iob_base_eq cp : 0 <= cp < 2 -> MVEBU_IOB_BASE cp = 0xF2190000 + 0x2000000 * cp.
Proof. intros. unfold MVEBU_IOB_BASE, MVEBU_CP_REGS_BASE. rewrite (wrap_small 32 (0xF2000000 + _)), wrap_small; lia. Qed.
Lemma amb_base_eq cp : 0 <= cp < 2 -> MVEBU_AMB_ADEC_BASE cp = 0xF270FF00 + 0x2000000 * cp.
Proof. intros. unfold MVEBU_AMB_ADEC_BASE, MVEBU_CP_REGS_BASE. rewrite (wrap_small 32 (0xF2000000 + _)), wrap_small; lia. Qed.

Definition amb_range_of (w : amb_win) : range :=
  Range (attribute w) (amb_base_addr w * 2 ^ 16) (amb_base_addr w * 2 ^ 16 + amb_win_size w).
Definition io_range_of (w : win) : range :=
  Range (target_id w) (up (win_base w)) (up (win_base w) + up (win_size w)).

(** What the two units of a CP110 decode, given the arrays they were programmed from. *)
Definition cp_decodes (cp : Z) (wins : list win) (amb : list amb_win) (h : hw) : Prop :=
  (wins <> [] -> forall a, hits (iob_range h (MVEBU_IOB_BASE cp)) 1 15 a = omap (hit a ∘ win_range 0xF) wins) /\
  (forall a, hits (amb_range h (MVEBU_AMB_ADEC_BASE cp)) 0 7 a = omap (hit a ∘ amb_range_of) amb).
Definition cp_region (cp : Z) (h h' : hw) : Prop :=
  same_outside (0xF2000000 + 0x2000000 * cp) (0xF4000000 + 0x2000000 * cp) h h'.

Lemma cp_decodes_frame cp lo hi wins amb h h' : 0 <= cp < 2 -> same_outside lo hi h h' ->
  hi <= 0xF2000000 + 0x2000000 * cp \/ 0xF4000000 + 0x2000000 * cp <= lo ->
  cp_decodes cp wins amb h -> cp_decodes cp wins amb h'.
Proof.
  intros Hcp Hs Hd [H1 H2]. split; [intros Hne a; rewrite <- H1 by done|intros a; rewrite <- H2]; apply hits_ext; intros id Hid.
  - rewrite iob_base_eq by done. apply iob_range_block; [lia|lia|]. eapply same_outside_agree; [exact Hs|lia].
  - rewrite amb_base_eq by done. apply amb_range_block; [lia|lia|]. eapply same_outside_agree; [exact Hs|lia].
Qed.

(** Window 0 of the bridge of a CP110 is as it was. *)
Definition iob0_kept (cp : Z) (h h' : hw) : Prop := iob_range h' (MVEBU_IOB_BASE cp) 0 = iob_range h (MVEBU_IOB_BASE cp) 0.
Lemma iob0_frame cp lo hi h h' : 0 <= cp < 2 -> same_outside lo hi h h' ->
  hi <= 0xF2190000 + 0x2000000 * cp \/ 0xF2190020 + 0x2000000 * cp <= lo -> iob0_kept cp h h'.
Proof.
  intros Hcp Hs Hd. unfold iob0_kept. rewrite iob_base_eq by done. apply iob_range_block; [lia|lia|]. eapply same_outside_agree; [exact Hs|lia].
Qed.

Lemma cp110_spec cp s : 0 <= cp < 2 ->
  let wins := marvell_get_iob_memory_map (iob_memory_maps s) cp in
  zlen (amb_memory_map s) <= 7 -> Forall amb_fits (amb_memory_map s) ->
  zlen wins <= 15 -> Forall win_fits wins ->
  exists s', cp110_windows cp s = Some s' /\ cp_region cp (mmio s) (mmio s') /\ iob0_kept cp (mmio s) (mmio s') /\
    cp_decodes cp wins (amb_memory_map s) (mmio s') /\ amb_memory_map s' = amb_memory_map s /\
    (forall j, idx j <> idx cp \/ idx j = None -> marvell_get_iob_memory_map (iob_memory_maps s') j =
               marvell_get_iob_memory_map (iob_memory_maps s) j).
Proof.
  intros Hcp wins Hna Hfa Hni Hfi. unfold cp110_windows.
  destruct (init_amb_spec cp s) as (s1 & E1 & A1 & A2 & A3 & A4); [cbn; rewrite amb_base_eq; lia|done|done|].
  rewrite E1. cbn [mbind option_bind]. cbn [marvell_get_amb_reg_offs board a8k_board] in A1, A2, A3.
  rewrite amb_base_eq in A3 by done.
  assert (Hiob1 : iob_memory_maps s1 = iob_memory_maps s) by (by rewrite A4).
  assert (Hamb1 : amb_memory_map s1 = amb_memory_map s) by (by rewrite A4).
  assert (Hmap : marvell_get_iob_memory_map (iob_memory_maps s1) cp = wins) by (by rewrite Hiob1).
  assert (Hamb : forall h', same_outside (0xF2190000 + 0x2000000 * cp) (0xF2190200 + 0x2000000 * cp) (mmio s1) h' ->
    forall a, hits (amb_range h' (MVEBU_AMB_ADEC_BASE cp)) 0 7 a = omap (hit a ∘ amb_range_of) (amb_memory_map s)).
  { intros h' Hs a. apply hits_list; [done| |].
    - intros i w Hi. rewrite Z.add_0_l. transitivity (amb_range (mmio s1) (MVEBU_AMB_ADEC_BASE cp) (Z.of_nat i)); [|by apply A1]. apply lookup_lt_Some in Hi. unfold zlen in Hna.
      rewrite amb_base_eq by done. apply amb_range_block; [lia|lia|]. eapply same_outside_agree; [exact Hs|lia].
    - intros id Hid. rewrite <- (A2 id) by lia. rewrite amb_base_eq by done. pose proof (zlen_nonneg (amb_memory_map s)).
      apply amb_range_block; [lia|lia|]. eapply same_outside_agree; [exact Hs|lia]. }
  destruct (decide (wins = [])) as [Ew|Ew].
  - unfold init_iob. rewrite Hmap, Ew. cbn [zlen length Z.of_nat Z.leb Z.compare].
    eexists. split; [done|]. cbn [snd mmio amb_memory_map iob_memory_maps]. split_and!; [| | |done|by rewrite Hiob1].
    + eapply same_outside_mono; [| |exact A3]; lia.
    + eapply iob0_frame; [done|exact A3|lia].
    + split; [done|]. apply Hamb, same_outside_refl.
  - assert (Hne : marvell_get_iob_memory_map (iob_memory_maps s1) cp <> []) by (by rewrite Hmap).
    pose proof (init_iob_spec cp s1) as S. cbn zeta in S. rewrite Hmap in S.
    cbn [marvell_get_iob_reg_offs marvell_get_iob_max_win board a8k_board] in S.
    change (if u32 MARVELL_IOB_MAX_WIN =? 0 then 24 else u32 MARVELL_IOB_MAX_WIN) with 16 in S.
    specialize (S ltac:(rewrite iob_base_eq; lia) Ew ltac:(lia) Hfi). rewrite init_iob_eq in * by done.
    destruct S as (_ & S1 & S2 & S0 & S3). eexists. split; [done|].
    cbn [snd mmio amb_memory_map iob_memory_maps] in *. set (h2 := wins_loop _ _ _ _) in *.
    rewrite iob_base_eq in S3 by done. split_and!; [| | |done|].
    + eapply same_outside_trans; eapply same_outside_mono; [| |exact A3| | |exact S3]; lia.
    + unfold iob0_kept. rewrite S0. eapply (iob0_frame cp); [done|exact A3|lia].
    + split; [|apply Hamb; eapply same_outside_mono; [| |exact S3]; lia].
      intros _ a. apply hits_list; [done|done|]. intros. apply S2. lia.
    + intros j Hj. rewrite <- Hiob1. unfold marvell_get_iob_memory_map, set_iob_memory_map.
      cbn [iob_map_index board a8k_board]. destruct (idx cp) as [k|], (idx j) as [i|]; try done.
      rewrite list_lookup_insert_ne; [done|]. intros ->. by destruct Hj.
Qed.

(** The arrays of a board that the drivers can program. *)
Definition arrays_ok (ccu io : list win) (iob : list (list win)) (amb : list amb_win) : Prop :=
  ccu <> [] /\ zlen ccu <= 7 /\ Forall win_fits ccu /\
  zlen io <= 6 /\ Forall (fun w => io_win_fits w /\ target_id w < 7) io /\
  Forall (fun wins => zlen wins <= 15 /\ Forall win_fits wins) iob /\
  zlen amb <= 7 /\ Forall amb_fits amb.

Definition amb_fitsb (w : amb_win) : bool :=
  bool_decide (in_u 16 (amb_base_addr w) /\ amb_base_addr w mod 16 = 0 /\ in_u 8 (attribute w)) &&
  existsb (fun k => amb_win_size w =? 2 ^ k) (seqZ 16 9).
Definition arrays_okb (ccu io : list win) (iob : list (list win)) (amb : list amb_win) : bool :=
  bool_decide (ccu <> [] /\ zlen ccu <= 7 /\ Forall win_fits ccu /\ zlen io <= 6 /\
    Forall (fun w => (win_fits w /\ (win_size w mod MB = 0 \/ up (win_size w) < 2 ^ 32)) /\ target_id w < 7) io /\
    Forall (fun wins => zlen wins <= 15 /\ Forall win_fits wins) iob /\ zlen amb <= 7) &&
  forallb amb_fitsb amb.
Lemma arrays_okb_sound ccu io iob amb : arrays_okb ccu io iob amb = true -> arrays_ok ccu io iob amb.
Proof.
  intros [(? & ? & ? & ? & ? & ? & ?)%bool_decide_eq_true Ha]%andb_true_iff.
  rewrite forallb_forall in Ha. split_and!; try done. apply Forall_forall. intros w Hw.
  specialize (Ha w ltac:(by apply list_elem_of_In)).
  apply andb_true_iff in Ha as [(? & ? & ?)%bool_decide_eq_true (k & Hk & E%Z.eqb_eq)%existsb_exists].
  apply list_elem_of_In, elem_of_seqZ in Hk. split_and!; try done. exists k. split; [lia|done].
Qed.

Lemma iob_map_ok iob cp : Forall (fun wins => zlen wins <= 15 /\ Forall win_fits wins) iob ->
  zlen (marvell_get_iob_memory_map iob cp) <= 15 /\ Forall win_fits (marvell_get_iob_memory_map iob cp).
Proof.
  intros Hf. unfold marvell_get_iob_memory_map. destruct (iob_map_index cp) as [i|]; [|split; [unfold zlen; cbn; lia|constructor]].
  destruct (iob !! i) as [wins|] eqn:E; [|split; [unfold zlen; cbn; lia|constructor]]. exact (Forall_lookup_1 _ _ _ _ Hf E).
Qed.

(** The units next to the cores: nothing outside their registers changes. *)
Lemma apn806_spec ccu io iob amb h : arrays_ok ccu io iob amb ->
  let s' := apn806_windows (unset ccu io iob amb h) in
  (forall a, hits (ccu_range (mmio s') MVEBU_CCU_BASE) 1 7 a = omap (hit a ∘ win_range 0x7F) ccu) /\
  ccu_range (mmio s') MVEBU_CCU_BASE 0 = ccu_range h MVEBU_CCU_BASE 0 /\
  ccu_default (mmio s') MVEBU_CCU_BASE = DRAM_0_TID /\
  (forall a, hits (io_win_range (mmio s') MVEBU_IO_WIN_BASE) 0 7 a = omap (hit a ∘ io_range_of) io) /\
  io_win_default (mmio s') MVEBU_IO_WIN_BASE = PIDI_TID /\
  iob_memory_maps s' = iob /\ amb_memory_map s' = amb /\ (forall cp, 0 <= cp < 2 -> iob0_kept cp h (mmio s')).
Proof.
  intros (Hc0 & Hcn & Hcf & Hin & Hif & _) s'.
  pose proof (init_io_win_spec 0 (unset ccu io iob amb h)) as S. cbn zeta in S.
  cbn [marvell_get_io_win_reg_offs marvell_get_io_win_gcr_target board a8k_board io_win_memory_map unset mmio] in S.
  assert (Hio : Forall io_win_fits io) by (eapply Forall_impl; [exact Hif|by intros ? [? _]]).
  specialize (S ltac:(done) Hin Hio). clear Hio.
  unfold s', apn806_windows. rewrite init_io_win_eq in * by (cbn; lia).
  cbn [snd fst marvell_get_io_win_reg_offs marvell_get_io_win_gcr_target board a8k_board] in *.
  destruct S as (_ & I1 & I2 & I3 & I4). cbn [mmio] in *.
  set (s1 := Adec _ _ _ _ _ _ _ _ _ _ _) in *. set (h1 := wins_loop _ _ _ _) in *.
  pose proof (init_ccu_decodes 0 s1) as S. cbn zeta in S.
  cbn [marvell_get_ccu_reg_offs marvell_get_ccu_max_win marvell_get_ccu_gcr_target board a8k_board] in S.
  change (ccu_max (u32 MARVELL_CCU_MAX_WIN)) with 8 in S.
  assert (ccu_memory_map s1 = ccu) as Em by done. rewrite Em in S.
  rewrite take_ge in S by (unfold zlen in Hcn; lia).
  specialize (S ltac:(done) Hc0 Hcf). change (mmio s1) with h1 in S.
  destruct (init_ccu 0 s1) as [ret s2] eqn:E2. cbn [snd].
  assert (iob_memory_maps s2 = iob /\ amb_memory_map s2 = amb) as [-> ->].
  { rewrite init_ccu_eq in E2 by (by rewrite Em). by injection E2 as <- <-. }
  destruct S as (_ & C1 & C2 & C3 & C4 & _ & C6).
  assert (Hio : agree MVEBU_IO_WIN_BASE (MVEBU_IO_WIN_BASE + 0x74) (mmio s2) h1).
  { intros a Ha. apply C6; unfold MVEBU_IO_WIN_BASE, MVEBU_RFU_BASE, MVEBU_CCU_BASE, MVEBU_REGS_BASE in *;
      rewrite !wrap_small in * by lia; lia. }
  assert (Hir : forall id, 0 <= id < 7 -> io_win_range (mmio s2) MVEBU_IO_WIN_BASE id = io_win_range h1 MVEBU_IO_WIN_BASE id).
  { intros id Hid. apply io_win_range_block; [done|lia|]. eapply agree_mono; [| |exact Hio]; lia. }
  split_and!; try done.
  - intros a. apply hits_list; [done|done|]. intros. apply C2. lia.
  - rewrite C3. apply ccu_range_block; [done|lia|]. eapply same_outside_agree; [exact I4|].
    right. vm_compute. discriminate.
  - intros a. rewrite (hits_ext _ (io_win_range h1 MVEBU_IO_WIN_BASE)) by (intros; apply Hir; lia).
    change 7 with (1 + 6). unfold hits. rewrite seqZ_app, omap_app by lia.
    change (seqZ 0 1) with [0]. cbn [omap list_omap]. rewrite (I2 0) by lia. cbn [mbind option_bind app].
    change (0 + 1) with 1. apply (hits_list io_range_of); [done| |].
    + intros i w Hi. rewrite (I1 i w Hi). eapply Forall_lookup_1 in Hif as [_ Ht]; [|exact Hi].
      by rewrite (proj2 (Z.ltb_lt _ _) Ht).
    + intros id Hid. apply I2. lia.
  - rewrite <- I3. unfold io_win_default. apply Hio. vm_compute. split; [discriminate|done].
  - intros cp Hcp. unfold iob0_kept. rewrite iob_base_eq by done. apply iob_range_block; [lia|lia|]. intros a Ha. rewrite C6.
    + apply I4. right. change MVEBU_IO_WIN_BASE with 0xF06F0000. lia.
    + change MVEBU_CCU_BASE with 0xF0004000. lia.
    + change MVEBU_CCU_BASE with 0xF0004000. lia.
Qed.

(** The registers below the CP110s, which [cp110_windows] does not touch. *)
Lemma cp_region_low cp h h' : 0 <= cp -> cp_region cp h h' -> agree 0 0xF2000000 h' h.
Proof. intros Hcp Hs. eapply same_outside_agree; [exact Hs|lia]. Qed.
Lemma low_ranges h h' : agree 0 0xF2000000 h' h ->
  (forall a, hits (ccu_range h' MVEBU_CCU_BASE) 0 8 a = hits (ccu_range h MVEBU_CCU_BASE) 0 8 a) /\
  (forall a, hits (io_win_range h' MVEBU_IO_WIN_BASE) 0 7 a = hits (io_win_range h MVEBU_IO_WIN_BASE) 0 7 a) /\
  io_win_default h' MVEBU_IO_WIN_BASE = io_win_default h MVEBU_IO_WIN_BASE.
Proof.
  intros Hag. change MVEBU_CCU_BASE with 0xF0004000. change MVEBU_IO_WIN_BASE with 0xF06F0000. split_and!.
  - intros a. apply hits_ext. intros id Hid. apply ccu_range_block; [lia|lia|]. eapply agree_mono; [| |exact Hag]; lia.
  - intros a. apply hits_ext. intros id Hid. apply io_win_range_block; [lia|lia|]. eapply agree_mono; [| |exact Hag]; lia.
  - apply Hag. vm_compute. split; [discriminate|done].
Qed.

(** The CP110s that are programmed: the second one only if its link came up. *)
Definition linked (link : bool) : Z := if link then cpc else 1.
Lemma bl31_spec ccu io iob amb link h : arrays_ok ccu io iob amb -> cpc = 1 \/ cpc = 2 /\ idx 1 <> idx 0 ->
  exists s', bl31_windows link (unset ccu io iob amb h) = Some s' /\
  (forall a, hits (ccu_range (mmio s') MVEBU_CCU_BASE) 0 8 a = hits (ccu_range h MVEBU_CCU_BASE) 0 1 a ++ omap (hit a ∘ win_range 0x7F) ccu) /\
  (forall a, hits (io_win_range (mmio s') MVEBU_IO_WIN_BASE) 0 7 a = omap (hit a ∘ io_range_of) io) /\
  io_win_default (mmio s') MVEBU_IO_WIN_BASE = PIDI_TID /\
  (forall cp, 0 <= cp < linked link -> cp_decodes cp (marvell_get_iob_memory_map iob cp) amb (mmio s') /\ iob0_kept cp h (mmio s')).
Proof.
  intros Hok Hcpc. destruct (apn806_spec ccu io iob amb h Hok) as (S1 & S0 & _ & S2 & S3 & Eiob & Eamb & K0).
  destruct Hok as (_ & _ & _ & _ & _ & Hiob & Han & Haf). unfold bl31_windows, linked.
  set (s0 := apn806_windows _) in *.
  assert (forall a, hits (ccu_range (mmio s0) MVEBU_CCU_BASE) 0 8 a = hits (ccu_range h MVEBU_CCU_BASE) 0 1 a ++ omap (hit a ∘ win_range 0x7F) ccu) as S1'.
  { intros a. rewrite hits_first, S1 by lia. f_equal. apply hits_ext. intros id Hid. by replace id with 0 by lia. }
  destruct (cp110_spec 0 s0) as (s1 & E1 & R1 & K1 & D1 & A1 & M1);
    [lia|by rewrite Eamb|by rewrite Eamb|by rewrite Eiob; apply iob_map_ok..|].
  rewrite Eiob, Eamb in *. rewrite E1. cbn [mbind option_bind CP_COUNT board a8k_board].
  destruct (low_ranges (mmio s0) (mmio s1)) as (L1 & L2 & L3); [by eapply cp_region_low; [|exact R1]|].
  assert (iob0_kept 0 h (mmio s1)) as K01 by (unfold iob0_kept in *; by rewrite K1, K0 by lia).
  destruct (decide (cpc = 2 /\ link = true)) as [[-> ->]|Hno].
  2: { assert ((cpc =? 2) && link = false) as -> by (destruct link; destruct (Z.eqb_spec cpc 2); try done; by destruct Hno).
    exists s1. split_and!; [done|intros; by rewrite L1, S1'|intros; by rewrite L2|by rewrite L3|].
    intros cp Hcp. assert (cp = 0) as -> by (destruct link; [|lia]; destruct Hcpc as [->|[-> _]]; [lia|by destruct Hno]). done. }
  destruct Hcpc as [?|[_ Hidx]]; [lia|]. cbn [Z.eqb Pos.eqb andb].
  specialize (M1 1 ltac:(by left)).
  destruct (cp110_spec 1 s1) as (s2 & E2 & R2 & K2 & D2 & _);
    [lia|by rewrite A1|by rewrite A1|by rewrite M1; apply iob_map_ok..|].
  rewrite M1, A1 in D2. exists s2.
  destruct (low_ranges (mmio s1) (mmio s2)) as (L4 & L5 & L6); [by eapply cp_region_low; [|exact R2]|].
  split_and!; [done|intros; by rewrite L4, L1, S1'|intros; by rewrite L5, L2|by rewrite L6, L3|].
  intros cp Hcp. assert (cp = 0 \/ cp = 1) as [-> | ->] by lia; split; [| |done|].
  - eapply cp_decodes_frame; [lia|exact R2|lia|done].
  - unfold iob0_kept in *. rewrite <- K01. eapply (iob0_frame 0); [lia|exact R2|lia].
  - unfold iob0_kept in *. rewrite K2, <- (K0 1) by lia. eapply (iob0_frame 1); [lia|exact R1|lia].
Qed.
End bl31.

(** ** Intervals instead of addresses

    [only rs lo hi]: the targets of the ranges that hold all of [[lo, hi)], if every other range
    is clear of it. *)
Fixpoint only (rs : list range) (lo hi : Z) : option (list Z) :=
  match rs with
  | [] => Some []
  | r :: rs =>
      ts ← only rs lo hi;
      if (rstart r <=? lo) && (hi <=? rend r) then Some (rtarget r :: ts)
      else if (hi <=? rstart r) || (rend r <=? lo) then Some ts else None
  end.
Lemma only_hits rs lo hi a : forall ts, only rs lo hi = Some ts -> lo <= a < hi -> omap (hit a) rs = ts.
Proof.
  induction rs as [|r rs IH]; intros ts; [by intros [= <-]|].
  cbn [only]. intros (ts' & E & Ht)%bind_Some Ha. cbn. rewrite (IH _ E Ha). unfold hit.
  destruct (Z.leb_spec (rstart r) lo), (Z.leb_spec hi (rend r)), (Z.leb_spec hi (rstart r)), (Z.leb_spec (rend r) lo);
    cbn in Ht; try done; injection Ht as <-;
    destruct (Z.leb_spec (rstart r) a), (Z.ltb_spec a (rend r)); try done; lia.
Qed.
Lemma only_omap {A} (f : A -> range) l lo hi a ts :
  only (f <$> l) lo hi = Some ts -> lo <= a < hi -> omap (hit a ∘ f) l = ts.
Proof.
  intros E Ha. rewrite <- (only_hits _ _ _ _ _ E Ha). clear E. induction l as [|x l IH]; [done|]. cbn. by rewrite IH.
Qed.

(** The route of a bridge window of CP110 [cp], checked on the arrays. *)
Definition route_ok (ccu io wins : list win) (amb : list amb_win) (cp : Z) (w : win) : bool :=
  let lo := win_base w in let hi := win_base w + win_size w in
  bool_decide (only (win_range 0x7F <$> ccu) lo hi = Some [IO_0_TID]) &&
  bool_decide (only (io_range_of <$> io) lo hi = Some (if cp =? 0 then [] else [MCI_0_TID])) &&
  bool_decide (only (win_range 0xF <$> wins) lo hi = Some [target_id w]) &&
  (negb (target_id w =? RUNIT_TID) || bool_decide (length <$> only (amb_range_of <$> amb) lo hi = Some 1%nat)).

Definition boards : list (Board * (hw -> adec)) :=
  [(a80x0, a80x0_maps); (a80x0_mcbin, a80x0_mcbin_maps); (a80x0_ocp, a80x0_ocp_maps); (a70x0, a70x0_maps);
   (a70x0_amc, a70x0_amc_maps); (a70x0_cust, a70x0_cust_maps); (a70x0_pcac, a70x0_pcac_maps); (a3900, a3900_maps)].

(** What the theorem below says of one board. *)
Definition board_routed (B : Board) (maps : hw -> adec) : Prop := forall link h,
  exists s', bl31_windows link (maps h) = Some s' /\
  io_win_default (mmio s') MVEBU_IO_WIN_BASE = PIDI_TID /\
  forall cp w a, 0 <= cp < (if link then CP_COUNT else 1) -> w ∈ marvell_get_iob_memory_map (iob_memory_maps (maps h)) cp ->
    win_base w <= a < win_base w + win_size w ->
    hits (ccu_range (mmio s') MVEBU_CCU_BASE) 0 8 a = hits (ccu_range h MVEBU_CCU_BASE) 0 1 a ++ [IO_0_TID] /\
    hits (io_win_range (mmio s') MVEBU_IO_WIN_BASE) 0 7 a = (if cp =? 0 then [] else [MCI_0_TID]) /\
    hits (iob_range (mmio s') (MVEBU_IOB_BASE cp)) 0 16 a = hits (iob_range h (MVEBU_IOB_BASE cp)) 0 1 a ++ [target_id w] /\
    (target_id w = RUNIT_TID -> exists attr, hits (amb_range (mmio s') (MVEBU_AMB_ADEC_BASE cp)) 0 7 a = [attr]).

Lemma board_routed_ok idx cpc ccu io iob amb : arrays_ok ccu io iob amb -> cpc = 1 \/ cpc = 2 /\ idx 1 <> idx 0 ->
  (forall cp, 0 <= cp < cpc -> let wins := marvell_get_iob_memory_map (H := a8k_board idx cpc) iob cp in
     forallb (route_ok ccu io wins amb cp) wins = true) ->
  board_routed (a8k_board idx cpc) (unset ccu io iob amb).
Proof.
  intros Hok Hcpc Hr link h. destruct (bl31_spec idx cpc ccu io iob amb link h Hok Hcpc) as (s' & E & S1 & S2 & S3 & D).
  exists s'. split; [exact E|]. split; [exact S3|]. intros cp w a Hcp Hw Ha. cbn [iob_memory_maps unset CP_COUNT a8k_board] in *.
  assert (0 <= cp < cpc) as Hc by (change (0 <= cp < if link then cpc else 1) in Hcp; destruct link, Hcpc as [?|[? _]]; lia).
  specialize (Hr cp Hc). cbn zeta in Hr. destruct (D cp Hcp) as [[D1 D2] D0].
  rewrite forallb_forall in Hr. specialize (Hr w ltac:(by apply list_elem_of_In)).
  unfold route_ok in Hr. apply andb_true_iff in Hr as [[[R1 R2]%andb_true_iff R3]%andb_true_iff R4].
  apply bool_decide_eq_true in R1, R2, R3.
  rewrite S1, S2, (hits_first _ 16), D2 by lia. change (16 - 1) with 15. rewrite D1.
  2: { intros Hn. change (board idx cpc) with (a8k_board idx cpc) in Hn. rewrite Hn in Hw. by apply elem_of_nil in Hw. }
  split_and!; [f_equal; by eapply only_omap in R1|by eapply only_omap in R2| |].
  { f_equal; [|by eapply only_omap in R3]. apply hits_ext. intros id Hid. by replace id with 0 by lia. }
  intros Et. rewrite Et in R4. cbn in R4. apply bool_decide_eq_true, fmap_Some in R4 as (ts & R4 & El).
  eapply only_omap in R4 as ->; [|exact Ha]. destruct ts as [|t [|? ?]]; try done. by exists t.
Qed.

(** C29: On each of the eight boards, whatever the registers held before, once BL31 has programmed the
    windows every address of a bridge window has one route to its unit, window 0 of the CCU and of the bridges aside:
    that is the window of the internal registers, which the drivers leave as it was, whatever it takes.  Besides
    it, exactly one window of the CCU takes the address, to the crossbar; the crossbar sends it to
    the right CP110 (to CP0 by the default, as no window takes it; to CP1 by exactly one); there
    exactly one window besides window 0 takes it, to the unit the board names; and for the peripheral bus exactly one window
    of the bus.  For CP1 this is so if its link came up; otherwise only CP0 is programmed. *)
Theorem bl31_routes (B : Board) (maps : hw -> adec) : (B, maps) ∈ boards -> board_routed B maps.
Proof.
  unfold boards. rewrite !elem_of_cons, elem_of_nil.
  intros Hb. repeat destruct Hb as [Hb|Hb]; try done; injection Hb as -> ->;
    (apply board_routed_ok;
     [by apply arrays_okb_sound; vm_compute|first [by left|right; split; [done|vm_compute; discriminate]]|];
     intros cp Hcp; assert (cp = 0 \/ cp = 1) as [-> | ->] by lia; (lia || (vm_compute; reflexivity))).
Qed.
Lemma bl31_routes_witness : (a80x0, a80x0_maps) ∈ boards /\ board_routed a80x0 a80x0_maps.
Proof.
  assert ((a80x0, a80x0_maps) ∈ boards) as Hin by (left; reflexivity).
  split; [exact Hin|]. exact (bl31_routes a80x0 a80x0_maps Hin).
Defined.

(** ** The boot loader extension *)
Import Ble.

(** The registers [ble_plat_mmap_config] saves, and those it changes. *)
Definition ble_regs (cp_count : Z) : list Z :=
  [CCU_WIN_CR 3; CCU_WIN_SCR 3; CCU_WIN_ALR 3; CCU_WIN_AHR 3; CCU_WIN_GCR; IOW_GCR] ++ (IOW_WIN_ALR <$> iow_wins cp_count).

(** Compare registers, all of which are constants. *)
Ltac eqb_consts :=
  repeat match goal with
         | |- context [Z.eqb ?x ?y] => let v := eval vm_compute in (Z.eqb x y) in change (Z.eqb x y) with v
         end; cbv iota.

Lemma ble_config_frame cpc sv h a : cpc = 1 \/ cpc = 2 -> a ∉ ble_regs cpc ->
  mmio_read_32 (ble_config cpc sv h) a = mmio_read_32 h a.
Proof.
  intros [-> | ->] Ha; unfold ble_regs in Ha; cbn [iow_wins] in Ha;
    [change (iow_wins 1) with (@nil Z) in Ha|change (iow_wins 2) with [2] in Ha];
    cbn in Ha; rewrite ?not_elem_of_cons in Ha; unfold ble_config;
    [change (iow_wins 1) with (@nil Z)|change (iow_wins 2) with [2]]; cbn [foldl]; change CCU_CFG_IO_WIN_NUM with 3;
    rewrite ?read_write;
    repeat match goal with |- context [a =? ?b] => rewrite (proj2 (Z.eqb_neq a b)) by tauto end; reflexivity.
Qed.
Lemma ble_restore_read cpc h0 h a : cpc = 1 \/ cpc = 2 ->
  mmio_read_32 (ble_restore cpc (ble_save cpc h0) h) a =
  if bool_decide (a ∈ ble_regs cpc) then mmio_read_32 h0 a else mmio_read_32 h a.
Proof.
  intros Hc.
  assert (iow_wins cpc = [] \/ iow_wins cpc = [2]) as Hw by (destruct Hc as [-> | ->]; [left|right]; reflexivity).
  unfold ble_regs, ble_restore, ble_save. cbn [ccu_win_regs io_win_regs ccu_gcr iow_gcr nth].
  change CCU_CFG_IO_WIN_NUM with 3.
  destruct Hw as [-> | ->]; case_bool_decide as Ha; rewrite ?fmap_nil, ?fmap_cons in *; cbn [foldl app] in *; rewrite ?read_write.
  1, 3: rewrite !elem_of_cons, elem_of_nil in Ha; repeat destruct Ha as [Ha|Ha]; try done; subst a; eqb_consts; reflexivity.
  all: rewrite ?not_elem_of_cons in Ha;
    repeat match goal with |- context [?x =? ?y] => rewrite (proj2 (Z.eqb_neq x y)) by tauto end; reflexivity.
Qed.

Lemma gcr_dram g : Z.land (Z.shiftr (Z.lor (Z.land g 0xFFFFF0FF) 0x300) 8) 0xF = DRAM_0_TID.
Proof.
  rewrite Z.shiftr_lor, Z.shiftr_land, Z.land_lor_distr_l, <- Z.land_assoc.
  change (Z.land (Z.shiftr 0xFFFFF0FF 8) 0xF) with 0. by rewrite Z.land_0_r.
Qed.

(** C32: on every board, [ble_plat_mmap_config] gives back what it took: whatever the rest of the
    boot loader extension writes in between (up to [h2]), after the restoring call each register the
    saving call read or changed holds its old value and every other register is left alone; so
    restoring at once is the identity on registers.  In between, the cores reach the
    configuration spaces of the CP110s: window 3 takes 16 MB from each CP110 base to the crossbar,
    whose default is CP0. *)
Theorem ble_mmap_roundtrip (B : Board) (maps : hw -> adec) (sv0 : saved) (h h2 : hw) :
  (B, maps) ∈ boards ->
  let '(sv, h1) := ble_plat_mmap_config MMAP_SAVE_AND_CONFIG (sv0, h) in
  (forall a, mmio_read_32 (ble_plat_mmap_config MMAP_RESTORE_SAVED (sv, h2)).2 a =
     if bool_decide (a ∈ ble_regs CP_COUNT) then mmio_read_32 h a else mmio_read_32 h2 a) /\
  (forall a, mmio_read_32 (ble_plat_mmap_config MMAP_RESTORE_SAVED (sv, h1)).2 a = mmio_read_32 h a) /\
  ccu_range h1 MVEBU_CCU_BASE 3 =
    Some (Range IO_0_TID (MVEBU_CP_REGS_BASE 0) (MVEBU_CP_REGS_BASE (CP_COUNT - 1) + 0x1000000)) /\
  ccu_default h1 MVEBU_CCU_BASE = DRAM_0_TID /\ io_win_default h1 MVEBU_IO_WIN_BASE = PIDI_TID.
Proof.
  intros Hb. assert (CP_COUNT = 1 \/ CP_COUNT = 2) as Hc.
  { unfold boards in Hb. rewrite !elem_of_cons, elem_of_nil in Hb. clear h h2 sv0.
    repeat destruct Hb as [Hb|Hb]; try done; injection Hb as -> ->; [right..|left|left|left|left|left]; reflexivity. }
  clear Hb. unfold ble_plat_mmap_config. change (MMAP_SAVE_AND_CONFIG =? MMAP_RESTORE_SAVED) with false.
  change (MMAP_RESTORE_SAVED =? MMAP_RESTORE_SAVED) with true. cbv iota. cbn [snd].
  split; [intros a; by apply ble_restore_read|]. split.
  { intros a. rewrite ble_restore_read by done. case_bool_decide; [done|]. by apply ble_config_frame. }
  unfold ble_config, ccu_range, ccu_default, io_win_default. generalize (ble_save CP_COUNT h) as sv. intros sv.
  destruct Hc as [E|E]; rewrite E; [change (iow_wins 1) with (@nil Z)|change (iow_wins 2) with [2]];
    cbn [foldl]; rewrite ?read_write; eqb_consts; (split_and!; [vm_compute; reflexivity| |reflexivity]); apply gcr_dram.
Qed.
Lemma ble_mmap_roundtrip_witness : (a80x0, a80x0_maps) ∈ boards /\
  forall a, mmio_read_32 (ble_plat_mmap_config (H := a80x0) MMAP_RESTORE_SAVED
    (ble_plat_mmap_config (H := a80x0) MMAP_SAVE_AND_CONFIG (no_saved, Hw ∅ []))).2 a = 0.
Proof.
  assert ((a80x0, a80x0_maps) ∈ boards) as Hin by (left; reflexivity). split; [exact Hin|].
  exact (proj1 (proj2 (ble_mmap_roundtrip a80x0 a80x0_maps no_saved (Hw ∅ []) (Hw ∅ []) Hin))).
Defined.

(** ** The windows of BL2 *)

(** When BL2 opens the windows for the coprocessor firmware, the register base of the CCU driver is
    still 0, since [init_ccu] does not run in BL2: [bl2_plat_mmap_init] reports success, no window of the
    CCU changes, and the addresses of the window of CP0 are written to memory at 8 and 12 and its
    control word to memory at 0.  (With the base set, windows 0 and 1 would have been opened.) *)
Theorem bl2_windows_not_opened (B : Board) (maps : hw -> adec) (h : hw) :
  (B, maps) ∈ boards ->
  let '(ret, map, h') := bl2_plat_mmap_init mem_map (maps h) in
  ret = 0 /\ map = mem_map /\
  (forall id, 0 <= id < 8 -> ccu_range h' MVEBU_CCU_BASE id = ccu_range h MVEBU_CCU_BASE id) /\
  mmio_read_32 h' 0x8 = addr_reg 0xF2000000 /\ mmio_read_32 h' 0xC = addr_reg 0xF3FFFFFF /\ mmio_read_32 h' 0x0 = 1 /\
  (forall s, ccu_base s = MVEBU_CCU_BASE -> let h'' := (bl2_plat_mmap_init mem_map s).2 in
     ccu_range h'' MVEBU_CCU_BASE 0 = Some (Range IO_0_TID 0xF2000000 0xF4000000) /\
     ccu_range h'' MVEBU_CCU_BASE 1 = Some (Range IO_0_TID 0xF4000000 0xF6000000)).
Proof.
  intros Hb. assert (marvell_get_ccu_max_win = 8 /\ ccu_base (maps h) = 0 /\ mmio (maps h) = h) as (E1 & E2 & E3).
  { unfold boards in Hb. rewrite !elem_of_cons, elem_of_nil in Hb.
    repeat destruct Hb as [Hb|Hb]; try done; injection Hb as -> ->; done. }
  clear Hb. unfold bl2_plat_mmap_init. rewrite E1. change (u64 8 <? zlen mem_map) with false. cbv iota.
  unfold bl2_enable_wins, mem_map. rewrite E2, E3. split_and!; [done|vm_compute; reflexivity| | | | |].
  - intros id Hid. apply ccu_range_block; [done|lia|]. intros a Ha.
    change MVEBU_CCU_BASE with 0xF0004000 in Ha. unfold ccu_enable_win. rewrite ?read_write.
    repeat match goal with
    | |- context [a =? ?b] => let v := eval vm_compute in b in change b with v; rewrite (proj2 (Z.eqb_neq a v)) by lia
    end. reflexivity.
  - unfold ccu_enable_win. rewrite ?read_write. eqb_consts. vm_compute. reflexivity.
  - unfold ccu_enable_win. rewrite ?read_write. eqb_consts. vm_compute. reflexivity.
  - unfold ccu_enable_win. rewrite ?read_write. eqb_consts. vm_compute. reflexivity.
  - intros s Es. rewrite Es. cbn [snd]. unfold ccu_range, ccu_enable_win. rewrite ?read_write. eqb_consts.
    split; vm_compute; reflexivity.
Qed.
Lemma bl2_windows_not_opened_witness : (a80x0, a80x0_maps) ∈ boards /\
  mmio_read_32 (bl2_plat_mmap_init (H := a80x0) mem_map (a80x0_maps (Hw ∅ []))).2 0x8 = addr_reg 0xF2000000.
Proof.
  assert ((a80x0, a80x0_maps) ∈ boards) as Hin by (left; reflexivity). split; [exact Hin|].
  exact (proj1 (proj2 (proj2 (proj2 (bl2_windows_not_opened a80x0 a80x0_maps (Hw ∅ []) Hin))))).
Defined.
End AddrRoutes.
