(* ===== verification/A3700Win.v ===== *)
(** * Address decoding windows of the Armada 3700

    plat/marvell/a3700/common: the CPU windows (dram_win.c), the size of the DRAM they depend on
    (a3700_dram_cs.c), the windows of the IO units, which repeat the CPU windows that go to DRAM
    (io_addr_dec.c), and the part of the wake-up from suspend that programs them (plat_pm.c).
    Registers are those of [AddrDec].  A pointer that may be NULL is an option. *)

From Stdlib Require Import ZArith Lia String.
From stdpp Require Import base option list gmap numbers strings.
From S2P Require Import Prelude AddrDec AddrDecProps.
Open Scope Z_scope.
Open Scope cint_scope.

Module A3700Win.

(** ** Registers: platform_def.h, a3700_plat_def.h *)
Definition MVEBU_REGS_BASE : Z := 0xD0000000.
Definition MVEBU_CS_MMAP_REG_BASE : Z := MVEBU_REGS_BASE +u32 0x200.
Definition MVEBU_CPU_DEC_WIN_REG_BASE : Z := MVEBU_REGS_BASE +u32 0xCF00.
Definition MVEBU_CS_MMAP_LOW (cs_num : Z) : Z := MVEBU_CS_MMAP_REG_BASE +u32 cs_num * 0x8.
Definition MVEBU_CS_MMAP_ENABLE : Z := 0x1.
Definition MVEBU_CS_MMAP_AREA_LEN_OFFS : Z := 16.
Definition MVEBU_CS_MMAP_AREA_LEN_MASK : Z := Z.shiftl 0x1f MVEBU_CS_MMAP_AREA_LEN_OFFS.
Definition MVEBU_CS_MMAP_START_ADDR_LOW_OFFS : Z := 23.
Definition MVEBU_CS_MMAP_START_ADDR_LOW_MASK : Z := u32 (Z.shiftl 0x1ff MVEBU_CS_MMAP_START_ADDR_LOW_OFFS).
Definition MVEBU_CS_MMAP_HIGH (cs_num : Z) : Z := MVEBU_CS_MMAP_REG_BASE + 0x4 +u32 cs_num * 0x8.
Definition MVEBU_MAX_CS_MMAP_NUM : Z := 2.
Definition CPU_DEC_WIN_CTRL_REG (win_num : Z) : Z := MVEBU_CPU_DEC_WIN_REG_BASE +u32 win_num * 0x10.
Definition CPU_DEC_CR_WIN_ENABLE : Z := 0x1.
Definition CPU_DEC_CR_WIN_TARGET_OFFS : Z := 4.
Definition CPU_DEC_CR_WIN_TARGET_MASK : Z := Z.shiftl 0xf CPU_DEC_CR_WIN_TARGET_OFFS.
Definition CPU_DEC_WIN_SIZE_REG (win_num : Z) : Z := MVEBU_CPU_DEC_WIN_REG_BASE + 0x4 +u32 win_num * 0x10.
Definition CPU_DEC_CR_WIN_SIZE_OFFS : Z := 0.
Definition CPU_DEC_CR_WIN_SIZE_MASK : Z := Z.shiftl 0xffff CPU_DEC_CR_WIN_SIZE_OFFS.
Definition CPU_DEC_CR_WIN_SIZE_ALIGNMENT : Z := 0x10000.
Definition CPU_DEC_WIN_BASE_REG (win_num : Z) : Z := MVEBU_CPU_DEC_WIN_REG_BASE + 0x8 +u32 win_num * 0x10.
Definition CPU_DEC_BR_BASE_OFFS : Z := 0.
Definition CPU_DEC_BR_BASE_MASK : Z := Z.shiftl 0xffff CPU_DEC_BR_BASE_OFFS.
Definition CPU_DEC_REMAP_LOW_REG (win_num : Z) : Z := MVEBU_CPU_DEC_WIN_REG_BASE + 0xC +u32 win_num * 0x10.
Definition CPU_DEC_RLR_REMAP_LOW_OFFS : Z := 0.
Definition CPU_DEC_RLR_REMAP_LOW_MASK : Z := Z.shiftl 0xffff CPU_DEC_BR_BASE_OFFS.

(** ** a3700_dram_cs.c *)
Definition EPERM : Z := 1.
Definition EFAULT : Z := 14.
Definition ENODEV : Z := 19.
Definition GB_2_MB (gb : Z) : Z := 1024 * gb.
Definition TB_2_MB (tb : Z) : Z := 1024 * GB_2_MB tb.
Definition dram_cs_addr_len_to_size_map : list (Z * Z) :=
  [(0x0, 384); (0x1, 768); (0x2, 1536); (0x3, GB_2_MB 3); (0x7, 8); (0x8, 16); (0x9, 32); (0xA, 64); (0xB, 128);
   (0xC, 256); (0xD, 512); (0xE, GB_2_MB 1); (0xF, GB_2_MB 2); (0x10, GB_2_MB 4); (0x11, GB_2_MB 8); (0x12, GB_2_MB 16);
   (0x13, GB_2_MB 32); (0x14, GB_2_MB 64); (0x15, GB_2_MB 128); (0x16, GB_2_MB 256); (0x17, GB_2_MB 512);
   (0x18, TB_2_MB 1); (0x19, TB_2_MB 2); (0x1A, TB_2_MB 4)].
(** [None] is the error -EFAULT. *)
Definition marvell_dram_cs_get_size_by_addr_len (addr_len_value : Z) : option Z :=
  '(_, e) ← list_find (fun e => e.1 = addr_len_value) dram_cs_addr_len_to_size_map; Some e.2.

(** The error, or the base (low, high) and the size in MB. *)
Definition marvell_get_dram_cs_base_size (h : hw) (cs_num : Z) : Z + Z * Z * Z :=
  if MVEBU_MAX_CS_MMAP_NUM <=? cs_num then inl (- EPERM)
  else
    let cs_mmap_reg := mmio_read_32 h (MVEBU_CS_MMAP_LOW cs_num) in
    if Z.land cs_mmap_reg MVEBU_CS_MMAP_ENABLE =? 0 then inl (- ENODEV)
    else
      let base_low := Z.shiftr (Z.land cs_mmap_reg MVEBU_CS_MMAP_START_ADDR_LOW_MASK) MVEBU_CS_MMAP_START_ADDR_LOW_OFFS in
      let base_high := mmio_read_32 h (MVEBU_CS_MMAP_HIGH cs_num) in
      let area_len := Z.shiftr (Z.land cs_mmap_reg MVEBU_CS_MMAP_AREA_LEN_MASK) MVEBU_CS_MMAP_AREA_LEN_OFFS in
      match marvell_dram_cs_get_size_by_addr_len area_len with
      | None => inl (- EFAULT)
      | Some size_mbytes =>
          if (area_len <=? 3) && negb (Z.shiftr base_low 20 *u32 3 =? size_mbytes) then inl (- EFAULT)
          else inr (base_low, base_high, size_mbytes)
      end.

(** ** dram_win.c *)
Definition MV_CPU_WIN_NUM : Z := 5.
Definition CPU_WIN_TARGET_DRAM : Z := 0.
Definition CPU_WIN_TARGET_PCIE : Z := 2.
Definition CPU_WIN_TARGET_PCIE_OVER_MCI : Z := 3.
Definition CPU_WIN_TARGET_MCI_EXTERNAL : Z := 5.
Definition CPU_WIN_TARGET_RWTM_RAM : Z := 7.
Record cpu_win_configuration := CpuWin { enabled : bool; target : Z; base_addr : Z; size : Z; remap_addr : Z }.
(** The windows when the DRAM is not over 2 GB, and when it is 4 GB. *)
Definition mv_cpu_wins : list (list cpu_win_configuration) :=
  [[CpuWin true CPU_WIN_TARGET_DRAM 0x0 0x08000000 0x0;
    CpuWin true CPU_WIN_TARGET_MCI_EXTERNAL 0xe0000000 0x08000000 0xe0000000;
    CpuWin true CPU_WIN_TARGET_PCIE 0xe8000000 0x08000000 0xe8000000;
    CpuWin true CPU_WIN_TARGET_RWTM_RAM 0xf0000000 0x00020000 0x1fff0000;
    CpuWin true CPU_WIN_TARGET_PCIE_OVER_MCI 0x80000000 0x10000000 0x80000000];
   [CpuWin true CPU_WIN_TARGET_DRAM 0x0 0x80000000 0x0;
    CpuWin true CPU_WIN_TARGET_DRAM 0x80000000 0x40000000 0x80000000;
    CpuWin true CPU_WIN_TARGET_DRAM 0xc0000000 0x10000000 0xc0000000;
    CpuWin true CPU_WIN_TARGET_DRAM 0xe0000000 0x08000000 0xe0000000;
    CpuWin true CPU_WIN_TARGET_PCIE 0xe8000000 0x08000000 0xe8000000]].
Definition CPU_WIN_CONFIG_DRAM_NOT_OVER_2GB : nat := 0%nat.
Definition CPU_WIN_CONFIG_DRAM_4GB : nat := 1%nat.

(** include/io_addr_dec.h *)
Definition DRAM_WIN_MAP_NUM_MAX : Z := 5.
Definition DRAM_CPU_DEC_TARGET_NUM : Z := 0.
Record dram_win := DramWin { dw_base : Z; dw_size : Z }.

(** The filled part of [dram_windows]; [dram_win_num] is its length. *)
Definition dram_win_at (h : hw) (win_id : Z) : option dram_win :=
  let ctrl_reg := mmio_read_32 h (CPU_DEC_WIN_CTRL_REG win_id) in
  let target := Z.shiftr (Z.land ctrl_reg CPU_DEC_CR_WIN_TARGET_MASK) CPU_DEC_CR_WIN_TARGET_OFFS in
  let enabled := Z.land ctrl_reg CPU_DEC_CR_WIN_ENABLE in
  if (enabled =? 0) || negb (target =? DRAM_CPU_DEC_TARGET_NUM) then None
  else
    let base_reg := mmio_read_32 h (CPU_DEC_WIN_BASE_REG win_id) in
    let size_reg := mmio_read_32 h (CPU_DEC_WIN_SIZE_REG win_id) in
    let base := Z.shiftr (Z.land base_reg CPU_DEC_BR_BASE_MASK) CPU_DEC_BR_BASE_OFFS *u64 CPU_DEC_CR_WIN_SIZE_ALIGNMENT in
    let size := Z.shiftr (Z.land size_reg CPU_DEC_CR_WIN_SIZE_MASK) CPU_DEC_CR_WIN_SIZE_OFFS in
    Some (DramWin base ((size + 1) *u64 CPU_DEC_CR_WIN_SIZE_ALIGNMENT)).
Definition dram_win_map_build (h : hw) : list dram_win := omap (dram_win_at h) (seqZ 0 DRAM_WIN_MAP_NUM_MAX).

Definition cpu_win_set (win_id : Z) (win_cfg : cpu_win_configuration) (h : hw) : hw :=
  let ctrl_reg := mmio_read_32 h (CPU_DEC_WIN_CTRL_REG win_id) in
  let ctrl_reg := Z.land ctrl_reg (u32 (Z.lnot CPU_DEC_CR_WIN_ENABLE)) in
  let h := mmio_write_32 (CPU_DEC_WIN_CTRL_REG win_id) ctrl_reg h in
  if negb (enabled win_cfg) then h
  else
    let base_reg := u32 (base_addr win_cfg / CPU_DEC_CR_WIN_SIZE_ALIGNMENT) in
    let base_reg := Z.land (u32 (Z.shiftl base_reg CPU_DEC_BR_BASE_OFFS)) CPU_DEC_BR_BASE_MASK in
    let h := mmio_write_32 (CPU_DEC_WIN_BASE_REG win_id) base_reg h in
    let remap_reg := u32 (remap_addr win_cfg / CPU_DEC_CR_WIN_SIZE_ALIGNMENT) in
    let remap_reg := Z.land (u32 (Z.shiftl remap_reg CPU_DEC_RLR_REMAP_LOW_OFFS)) CPU_DEC_RLR_REMAP_LOW_MASK in
    let h := mmio_write_32 (CPU_DEC_REMAP_LOW_REG win_id) remap_reg h in
    let size_reg := u32 (size win_cfg / CPU_DEC_CR_WIN_SIZE_ALIGNMENT - 1) in
    let size_reg := Z.land (u32 (Z.shiftl size_reg CPU_DEC_CR_WIN_SIZE_OFFS)) CPU_DEC_CR_WIN_SIZE_MASK in
    let h := mmio_write_32 (CPU_DEC_WIN_SIZE_REG win_id) size_reg h in
    let ctrl_reg := Z.land ctrl_reg (u32 (Z.lnot CPU_DEC_CR_WIN_TARGET_MASK)) in
    let ctrl_reg := Z.lor ctrl_reg (Z.shiftl (target win_cfg) CPU_DEC_CR_WIN_TARGET_OFFS) in
    let ctrl_reg := Z.lor ctrl_reg CPU_DEC_CR_WIN_ENABLE in
    mmio_write_32 (CPU_DEC_WIN_CTRL_REG win_id) ctrl_reg h.

(** Megabytes of DRAM, of the chip selects that report a size. *)
Definition total_mbytes (h : hw) : Z :=
  foldl (fun total cs_id => match marvell_get_dram_cs_base_size h cs_id with
                            | inr (_, _, size_mbytes) => total +u32 size_mbytes
                            | inl _ => total
                            end) 0 (seqZ 0 MVEBU_MAX_CS_MMAP_NUM).
Definition cpu_cfg_idx (h : hw) : nat :=
  if total_mbytes h <=? 2048 then CPU_WIN_CONFIG_DRAM_NOT_OVER_2GB else CPU_WIN_CONFIG_DRAM_4GB.
Definition cpu_cfgs (h : hw) : list cpu_win_configuration := default [] (mv_cpu_wins !! cpu_cfg_idx h).
(** Window 0 is set by an earlier stage: the loop starts at 1. *)
Fixpoint cpu_wins_loop (cfgs : list cpu_win_configuration) (win_id : Z) (h : hw) : hw :=
  match cfgs with [] => h | c :: cfgs => cpu_wins_loop cfgs (win_id + 1) (cpu_win_set win_id c h) end.
Definition cpu_wins_init (h : hw) : hw := cpu_wins_loop (drop 1 (cpu_cfgs h)) 1 h.

(** ** io_addr_dec.c *)
Record dec_win_config := DecWin { dec_reg_base : Z; win_attr : Z; max_dram_win : Z; max_remap : Z; win_offset : Z }.
Definition MVEBU_DEC_WIN_CTRL_REG (base win off : Z) : Z := MVEBU_REGS_BASE + base +u32 u32 (win * off).
Definition MVEBU_DEC_WIN_BASE_REG (base win off : Z) : Z := MVEBU_REGS_BASE + base + u32 (win * off) +u32 0x4.
Definition MVEBU_DEC_WIN_REMAP_REG (base win off : Z) : Z := MVEBU_REGS_BASE + base + u32 (win * off) +u32 0x8.
Definition MVEBU_DEC_WIN_CTRL_SIZE_OFF : Z := 16.
Definition MVEBU_DEC_WIN_ENABLE : Z := 0x1.
Definition MVEBU_DEC_WIN_CTRL_ATTR_OFF : Z := 8.
Definition MVEBU_DEC_WIN_CTRL_TARGET_OFF : Z := 4.
Definition MVEBU_DEC_WIN_CTRL_EN_OFF : Z := 0.
Definition MVEBU_DEC_WIN_BASE_OFF : Z := 16.
Definition MVEBU_WIN_BASE_SIZE_ALIGNMENT : Z := 0x10000.
Definition IO_UNIT_NUM_MAX : Z := 14.
Definition MVEBU_MAX_ADDRSS_4GB : Z := 0x100000000.

Definition set_io_addr_dec_win (win_id base_addr win_size : Z) (dec_win : dec_win_config) (h : hw) : hw :=
  let reg r := r (dec_reg_base dec_win) win_id (win_offset dec_win) in
  let ctrl := u32 (Z.shiftl (win_size / MVEBU_WIN_BASE_SIZE_ALIGNMENT -u64 1) MVEBU_DEC_WIN_CTRL_SIZE_OFF) in
  let ctrl := Z.lor ctrl (u32 (Z.shiftl (win_attr dec_win) MVEBU_DEC_WIN_CTRL_ATTR_OFF)) in
  let ctrl := Z.lor ctrl (Z.shiftl DRAM_CPU_DEC_TARGET_NUM MVEBU_DEC_WIN_CTRL_TARGET_OFF) in
  let base := u32 (Z.shiftl (base_addr / MVEBU_WIN_BASE_SIZE_ALIGNMENT) MVEBU_DEC_WIN_BASE_OFF) in
  let h := mmio_write_32 (reg MVEBU_DEC_WIN_BASE_REG) base h in
  let h := if win_id <? max_remap dec_win then mmio_write_32 (reg MVEBU_DEC_WIN_REMAP_REG) base h else h in
  let h := mmio_write_32 (reg MVEBU_DEC_WIN_CTRL_REG) ctrl h in
  let ctrl := Z.lor ctrl (Z.shiftl MVEBU_DEC_WIN_ENABLE MVEBU_DEC_WIN_CTRL_EN_OFF) in
  mmio_write_32 (reg MVEBU_DEC_WIN_CTRL_REG) ctrl h.

Definition dec_win_off (dec_win : dec_win_config) (id : Z) (h : hw) : hw :=
  mmio_write_32 (MVEBU_DEC_WIN_CTRL_REG (dec_reg_base dec_win) id (win_offset dec_win)) 0 h.
Definition dec_win_on (dec_win : dec_win_config) (w : dram_win) (id : Z) (h : hw) : hw :=
  set_io_addr_dec_win id (dw_base w) (dw_size w) dec_win h.
Fixpoint dec_wins_loop (dec_win : dec_win_config) (wins : list dram_win) (id : Z) (h : hw) : hw :=
  match wins with [] => h | w :: wins => dec_wins_loop dec_win wins (id + 1) (dec_win_on dec_win w id h) end.

Definition set_io_addr_dec (win_map : list dram_win) (dec_win : dec_win_config) (h : hw) : hw :=
  let h := each_win (dec_win_off dec_win) 0 (Z.to_nat (max_dram_win dec_win)) h in
  if max_dram_win dec_win <? zlen win_map then set_io_addr_dec_win 0 0 MVEBU_MAX_ADDRSS_4GB dec_win h
  else dec_wins_loop dec_win win_map 0 h.

(** The caller passes an array with its length. *)
Definition init_io_addr_dec (dram_wins_map : option (list dram_win)) (io_dec_config : option (list dec_win_config))
    (h : hw) : Z * hw :=
  match io_dec_config with
  | None => (-1, h)
  | Some conf =>
      if zlen conf =? 0 then (-1, h)
      else if IO_UNIT_NUM_MAX <? zlen conf then (-1, h)
      else match dram_wins_map with
           | None => (-1, h)
           | Some map => (0, foldl (fun h io_dec_win => set_io_addr_dec map io_dec_win h) h conf)
           end
  end.

(** ** marvell_plat_config.c, and plat_pm.c on waking up *)
Definition io_dec_win_conf : list dec_win_config :=
  [DecWin 0xc000 0x3d 2 0 0x08; DecWin 0xc100 0x3d 3 0 0x10; DecWin 0xc200 0x3d 2 0 0x10; DecWin 0xc300 0x3d 2 0 0x10;
   DecWin 0xc400 0x3d 2 0 0x10; DecWin 0xc500 0x3d 2 0 0x10; DecWin 0xc800 0x3d 3 0 0x10; DecWin 0xca00 0x3d 3 0 0x08;
   DecWin 0xcb00 0x3d 3 0 0x10; DecWin 0xce00 0x3d 2 0 0x10].
(** The windows part of [a3700_pwr_domain_suspend_finish]. *)
Definition suspend_finish_windows (h : hw) : Z * hw :=
  let h := cpu_wins_init h in
  let dram_wins_map := dram_win_map_build h in
  init_io_addr_dec (Some dram_wins_map) (Some io_dec_win_conf) h.
End A3700Win.
