(* ===== verification/Auth.v ===== *)
(** * Authentication of images: drivers/auth of the Trusted Firmware

    auth_mod.c, img_parser_mod.c and crypto_mod.c, and the chain of trust of tbbr/tbbr_cot.c.

    The parser of an image type, the cryptographic library and the platform's root key and
    counters are the class [AuthLib].  An image is its address and its bytes; a pointer of a
    parser is an address, and reading outside the image is undefined.  The static buffers of
    the chain of trust, the flags and the variables of the parser are the state.  A
    reference to a descriptor of the chain is its index.  A [void *cookie] is the object
    identifier it points to: each is used by one descriptor only. *)

From Stdlib Require Import ZArith Lia.
From stdpp Require Import base option list numbers strings.
From S2P Require Import Prelude CMonad LoadImage.
Open Scope Z_scope.
Open Scope cint_scope.

Module Auth.

(** ** Descriptors: auth_common.h, auth_mod.h, img_parser_mod.h *)
Inductive auth_param_type :=
| AUTH_PARAM_NONE | AUTH_PARAM_RAW_DATA | AUTH_PARAM_SIG | AUTH_PARAM_SIG_ALG
| AUTH_PARAM_HASH | AUTH_PARAM_PUB_KEY | AUTH_PARAM_NV_CTR.
#[global] Instance auth_param_type_eq_dec : EqDecision auth_param_type.
Proof. solve_decision. Defined.

Record auth_param_type_desc := TypeDesc { type : auth_param_type; cookie : option string }.
#[global] Instance auth_param_type_desc_eq_dec : EqDecision auth_param_type_desc.
Proof. solve_decision. Defined.

Inductive img_type := IMG_RAW | IMG_PLAT | IMG_CERT.
#[global] Instance img_type_eq_dec : EqDecision img_type.
Proof. solve_decision. Defined.
Definition IMG_MAX_TYPES := 3%nat.
Definition img_type_idx (t : img_type) : nat := match t with IMG_RAW => 0 | IMG_PLAT => 1 | IMG_CERT => 2 end.

Definition IMG_PARSER_OK := 0.
Definition IMG_PARSER_ERR := 1.
Definition IMG_PARSER_ERR_FORMAT := 2.
Definition IMG_PARSER_ERR_NOT_FOUND := 3.
Definition ROTPK_IS_HASH := 1.
Definition ROTPK_NOT_DEPLOYED := 2.
Definition IMG_FLAG_AUTHENTICATED := 1.
Definition AUTH_METHOD_NUM := 4%nat.
Definition COT_MAX_VERIFIED_PARAMS := 4%nat.

(** The static buffers of tbbr_cot.c. *)
Inductive auth_buf :=
| tb_fw_hash_buf | scp_fw_hash_buf | soc_fw_hash_buf | tos_fw_hash_buf
| nt_world_bl_hash_buf | trusted_world_pk_buf | non_trusted_world_pk_buf | content_pk_buf.
#[global] Instance auth_buf_eq_dec : EqDecision auth_buf.
Proof. solve_decision. Defined.

(** An entry of [authenticated_data]; a NULL [type_desc] is [None] in the list of them. *)
Record auth_param_desc := ParamDesc { type_desc : auth_param_type_desc; ptr : auth_buf; len : Z }.

Inductive auth_method_desc :=
| AUTH_METHOD_NONE
| AUTH_METHOD_HASH (data hash : auth_param_type_desc)
| AUTH_METHOD_SIG (pk sig alg data : auth_param_type_desc)
| AUTH_METHOD_NV_CTR (cert_nv_ctr plat_nv_ctr : auth_param_type_desc).

Record auth_img_desc := ImgDesc {
  img_id : Z;
  itype : img_type;
  parent : option Z;
  img_auth_methods : list auth_method_desc;
  authenticated_data : list (option auth_param_desc)
}.

(** ** Libraries and the platform *)
Record img_parser_lib_desc (pstate : Type) := ParserLib {
  lib_type : img_type;
  check_integrity : pstate -> Z -> list Z -> option (Z * pstate);
  (** The return value, and [*param], [*param_len] on success. *)
  get_auth_param : pstate -> auth_param_type_desc -> Z -> list Z -> option (Z * option (Z * Z))
}.
Arguments lib_type {_}.
Arguments check_integrity {_}.
Arguments get_auth_param {_}.

Class AuthLib := {
  pstate : Type;
  parser_lib_descs : list (img_parser_lib_desc pstate);
  (** Data, signature, algorithm, key. *)
  verify_signature : list Z -> list Z -> list Z -> list Z -> option Z;
  (** Data, digest with its algorithm. *)
  verify_hash : list Z -> list Z -> option Z;
  plat_state : Type;
  (** The return value, the key or its hash, and the flags. *)
  plat_get_rotpk_info : plat_state -> option string -> option (Z * list Z * Z);
  plat_get_nv_ctr : plat_state -> option string -> option (Z * Z);
  plat_set_nv_ctr : plat_state -> option string -> Z -> option (Z * plat_state)
}.

Section auth.
Context `{AuthLib} (cot_desc_ptr : list auth_img_desc).

Record am := Am {
  auth_img_flags : list Z;
  bufs : auth_buf -> list Z;
  parser_lib_indices : list Z;
  parser_vars : pstate;
  plat : plat_state
}.
Definition set_flags f s := Am f (bufs s) (parser_lib_indices s) (parser_vars s) (plat s).
Definition set_bufs b s := Am (auth_img_flags s) b (parser_lib_indices s) (parser_vars s) (plat s).
Definition set_indices i s := Am (auth_img_flags s) (bufs s) i (parser_vars s) (plat s).
Definition set_parser_vars p s := Am (auth_img_flags s) (bufs s) (parser_lib_indices s) p (plat s).
Definition set_plat p s := Am (auth_img_flags s) (bufs s) (parser_lib_indices s) (parser_vars s) p.

Abbreviation X := (M am).
Definition cot_desc_at (id : Z) : X auth_img_desc :=
  must (if id <? 0 then None else cot_desc_ptr !! Z.to_nat id).

(** What a [void *] with its length refers to: a part of the image, or other bytes. *)
Inductive ref := InImg (p n : Z) | Other (l : list Z).
Definition ref_len (r : ref) : Z := match r with InImg _ n => n | Other l => zlen l end.

Section image.
Context (img_ptr : Z) (img : list Z).
Definition byte_at (r : ref) (i : Z) : option Z :=
  match r with
  | InImg p _ => if p + i <? img_ptr then None else img !! Z.to_nat (p + i - img_ptr)
  | Other l => if i <? 0 then None else l !! Z.to_nat i
  end.
Definition ref_bytes (r : ref) : option (list Z) :=
  match r with
  | InImg p n =>
      if (img_ptr <=? p) && (0 <=? n) && (p + n <=? img_ptr + zlen img)
      then Some (slice img (p - img_ptr) (p - img_ptr + n)) else None
  | Other l => Some l
  end.

(** *** img_parser_mod.c *)
Definition INVALID_IDX := 0xFFFFFFFF.
Definition parser_of (type : img_type) : X (img_parser_lib_desc pstate) :=
  indices ← gets parser_lib_indices;
  idx ← must (indices !! img_type_idx type);
  massert (negb (idx =? INVALID_IDX));;
  must (parser_lib_descs !! Z.to_nat idx).
Definition img_parser_check_integrity (type : img_type) : X Z :=
  massert (negb (img_ptr =? 0));;
  massert (negb (zlen img =? 0));;
  if decide (type = IMG_RAW) then mret IMG_PARSER_OK else
  lib ← parser_of type;
  v ← gets parser_vars;
  '(rc, v) ← must (check_integrity lib v img_ptr img);
  modify (set_parser_vars v);;
  mret rc.
Definition img_parser_get_auth_param (itype : img_type) (td : auth_param_type_desc) : X (Z * option ref) :=
  massert (negb (img_ptr =? 0));;
  massert (negb (zlen img =? 0));;
  if decide (itype = IMG_RAW) then
    massert (bool_decide (type td = AUTH_PARAM_RAW_DATA));;
    mret (IMG_PARSER_OK, Some (InImg img_ptr (zlen img)))
  else
    lib ← parser_of itype;
    v ← gets parser_vars;
    '(rc, r) ← must (get_auth_param lib v td img_ptr img);
    mret (rc, (fun '(p, n) => InImg p n) <$> r).

(** *** crypto_mod.c *)
Definition not_empty (r : ref) : X (list Z) :=
  massert (match r with InImg p _ => negb (p =? 0) | Other _ => true end);;
  massert (negb (ref_len r =? 0));;
  must (ref_bytes r).
Definition crypto_mod_verify_signature (data sig alg pk : ref) : X Z :=
  data ← not_empty data; sig ← not_empty sig; alg ← not_empty alg; pk ← not_empty pk;
  must (verify_signature data sig alg pk).
Definition crypto_mod_verify_hash (data digest_info : ref) : X Z :=
  data ← not_empty data; digest_info ← not_empty digest_info;
  must (verify_hash data digest_info).

(** *** auth_mod.c *)
Definition cmp_auth_param_type_desc (a b : auth_param_type_desc) : Z :=
  if decide (type a = type b /\ cookie a = cookie b) then 0 else 1.
(** The loop of [auth_get_param]: comparing with an unused entry dereferences NULL. *)
Fixpoint get_param_loop (td : auth_param_type_desc) (entries : list (option auth_param_desc)) : X (Z * option ref) :=
  match entries with
  | [] => mret (1, None)
  | None :: _ => must None
  | Some d :: entries =>
      if cmp_auth_param_type_desc td (type_desc d) =? 0 then
        b ← gets (fun s => bufs s (ptr d));
        massert (len d <=? zlen b);;
        mret (0, Some (Other (take (Z.to_nat (len d)) b)))
      else get_param_loop td entries
  end.
Definition auth_get_param (td : auth_param_type_desc) (parent : option Z) : X (Z * option ref) :=
  p ← must parent;
  d ← cot_desc_at p;
  get_param_loop td (authenticated_data d).

Definition auth_hash (data hash : auth_param_type_desc) (img_desc : auth_img_desc) : X Z :=
  '(rc, hash_der) ← auth_get_param hash (parent img_desc);
  if negb (rc =? 0) then mret rc else
  '(rc, data) ← img_parser_get_auth_param (itype img_desc) data;
  if negb (rc =? 0) then mret rc else
  hash_der ← must hash_der; data ← must data;
  crypto_mod_verify_hash data hash_der.

Definition auth_signature (pk sig alg data : auth_param_type_desc) (img_desc : auth_img_desc) : X Z :=
  '(rc, data_r) ← img_parser_get_auth_param (itype img_desc) data;
  if negb (rc =? 0) then mret rc else
  '(rc, sig_r) ← img_parser_get_auth_param (itype img_desc) sig;
  if negb (rc =? 0) then mret rc else
  '(rc, alg_r) ← img_parser_get_auth_param (itype img_desc) alg;
  if negb (rc =? 0) then mret rc else
  '(rc, pk_r, flags) ←
    (match parent img_desc with
     | Some _ => '(rc, r) ← auth_get_param pk (parent img_desc); mret (rc, r, 0)
     | None =>
         p ← gets plat;
         '(rc, key, flags) ← must (plat_get_rotpk_info p (cookie pk));
         mret (rc, Some (Other key), flags)
     end);
  if negb (rc =? 0) then mret rc else
  data_r ← must data_r; sig_r ← must sig_r; alg_r ← must alg_r; pk_r ← must pk_r;
  if negb (Z.land flags (Z.lor ROTPK_IS_HASH ROTPK_NOT_DEPLOYED) =? 0) then
    let pk_hash_r := pk_r in
    '(rc, pk_r) ← img_parser_get_auth_param (itype img_desc) pk;
    if negb (rc =? 0) then mret rc else
    pk_r ← must pk_r;
    rc ← crypto_mod_verify_signature data_r sig_r alg_r pk_r;
    if negb (rc =? 0) then mret rc else
    if negb (Z.land flags ROTPK_NOT_DEPLOYED =? 0) then mret rc
    else crypto_mod_verify_hash pk_r pk_hash_r
  else crypto_mod_verify_signature data_r sig_r alg_r pk_r.

Definition ASN1_INTEGER := 2.
(** The loop of [auth_nvctr], [n] bytes from offset [i] on. *)
Fixpoint nv_ctr_bytes (r : ref) (i : Z) (n : nat) (cert_nv_ctr : Z) : option Z :=
  match n with
  | O => Some cert_nv_ctr
  | S n => b ← byte_at r i; nv_ctr_bytes r (i + 1) n (Z.lor (u32 (Z.shiftl cert_nv_ctr 8)) b)
  end.
(** [auth_nvctr] up to the counter in the certificate: [Some None] is [return 1]. *)
Definition nv_ctr_parse (r : ref) : option (option Z) :=
  b ← byte_at r 0;
  if negb (b =? ASN1_INTEGER) then Some None else
  b ← byte_at r 1;
  let len := Z.land b 0x7f in
  if negb (Z.land b 0x80 =? 0) || (4 <? len) then Some None else
  b ← byte_at r 2;
  if negb (Z.land b 0x80 =? 0) then Some None else
  c ← nv_ctr_bytes r 2 (Z.to_nat len) 0;
  Some (Some c).
Definition auth_nvctr (cert_nv_ctr plat_nv_ctr : auth_param_type_desc) (img_desc : auth_img_desc) : X Z :=
  '(rc, data) ← img_parser_get_auth_param (itype img_desc) cert_nv_ctr;
  if negb (rc =? 0) then mret rc else
  data ← must data;
  massert (match data with InImg p _ => negb (p =? 0) | Other _ => true end);;
  c ← must (nv_ctr_parse data);
  match c with
  | None => mret 1
  | Some cert =>
      p ← gets plat;
      '(rc, plat_ctr) ← must (plat_get_nv_ctr p (cookie plat_nv_ctr));
      if negb (rc =? 0) then mret rc else
      if cert <? plat_ctr then mret 1
      else if plat_ctr <? cert then
        match parent img_desc with
        | None =>
            '(rc, p) ← must (plat_set_nv_ctr p (cookie plat_nv_ctr) cert);
            modify (set_plat p);;
            mret rc
        | Some _ => mret 1
        end
      else mret 0
  end.

(** One method of [auth_mod_verify_img]. *)
Definition auth_method (m : auth_method_desc) (img_desc : auth_img_desc) : X Z :=
  match m with
  | AUTH_METHOD_NONE => mret 0
  | AUTH_METHOD_HASH data hash => auth_hash data hash img_desc
  | AUTH_METHOD_SIG pk sig alg data => auth_signature pk sig alg data img_desc
  | AUTH_METHOD_NV_CTR c p => auth_nvctr c p img_desc
  end.
Fixpoint auth_methods (ms : list auth_method_desc) (img_desc : auth_img_desc) : X Z :=
  match ms with
  | [] => mret 0
  | m :: ms => rc ← auth_method m img_desc; if negb (rc =? 0) then mret rc else auth_methods ms img_desc
  end.
(** [memcpy] to the start of a buffer. *)
Definition copy_to (b : auth_buf) (l : list Z) (s : am) : am :=
  set_bufs (fun b' => if decide (b' = b) then l ++ drop (length l) (bufs s b) else bufs s b') s.
(** The loop that extracts the parameters. *)
Fixpoint extract_params (entries : list (option auth_param_desc)) (img_desc : auth_img_desc) : X Z :=
  match entries with
  | [] => mret 0
  | None :: entries => extract_params entries img_desc
  | Some d :: entries =>
      '(rc, param) ← img_parser_get_auth_param (itype img_desc) (type_desc d);
      if negb (rc =? 0) then mret rc else
      param ← must param;
      if len d <? ref_len param then mret 1 else
      l ← must (ref_bytes param);
      b ← gets (fun s => bufs s (ptr d));
      massert (zlen l <=? zlen b);;
      modify (copy_to (ptr d) l);;
      extract_params entries img_desc
  end.
Definition set_authenticated (id : Z) : X unit :=
  f ← gets auth_img_flags;
  v ← must (f !! Z.to_nat id);
  modify (set_flags (<[Z.to_nat id := Z.lor v IMG_FLAG_AUTHENTICATED]> f)).
Definition auth_mod_verify_img (id : Z) : X Z :=
  img_desc ← cot_desc_at id;
  rc ← img_parser_check_integrity (itype img_desc);
  if negb (rc =? 0) then mret rc else
  rc ← auth_methods (img_auth_methods img_desc) img_desc;
  if negb (rc =? 0) then mret rc else
  rc ← extract_params (authenticated_data img_desc) img_desc;
  if negb (rc =? 0) then mret rc else
  set_authenticated (img_id img_desc);;
  mret 0.
End image.

(** The return value and [*parent_id]. *)
Definition auth_mod_get_parent_id (id : Z) : X (Z * Z) :=
  img_desc ← cot_desc_at id;
  match parent img_desc with
  | None => mret (1, 0)
  | Some p =>
      pd ← cot_desc_at p;
      f ← gets auth_img_flags;
      v ← must (f !! Z.to_nat (img_id pd));
      if negb (Z.land v IMG_FLAG_AUTHENTICATED =? 0) then mret (1, 0) else mret (0, img_id pd)
  end.

(** The loop of [img_parser_init] over the registered libraries, from [index] on. *)
Fixpoint register_parsers (libs : list (img_parser_lib_desc pstate)) (index : Z) : X unit :=
  match libs with
  | [] => mret tt
  | lib :: libs =>
      indices ← gets parser_lib_indices;
      i ← must (indices !! img_type_idx (lib_type lib));
      massert (i =? INVALID_IDX);;
      modify (set_indices (<[img_type_idx (lib_type lib) := index]> indices));;
      register_parsers libs (index + 1)
  end.
Definition img_parser_init : X unit :=
  modify (set_indices (replicate IMG_MAX_TYPES INVALID_IDX));;
  massert (0 <? zlen parser_lib_descs);;
  register_parsers parser_lib_descs 0.
Definition auth_mod_init : X unit := img_parser_init.
End auth.

(** What the loader calls. *)
Definition loader_auth `{AuthLib} (cot : list auth_img_desc) (tbb : bool) : LoadImage.AuthMod :=
  {| LoadImage.TRUSTED_BOARD_BOOT := tbb; LoadImage.auth_state := am;
     LoadImage.auth_mod_get_parent_id := fun a id => fst <$> auth_mod_get_parent_id cot id a;
     LoadImage.auth_mod_verify_img := fun a id img_ptr img => auth_mod_verify_img cot img_ptr img id a |}.
End Auth.
