(* ===== verification/AuthCot.v ===== *)
(** * The chain of trust of tbbr/tbbr_cot.c, and the platform functions of the Arm boards

    The images and certificates of the Trusted Board Boot Requirements: which key signs which
    certificate, which certificate has which key or hash.  [ArmBoard]: the root key hash and the
    counters of plat/arm/board/common/board_arm_trusted_boot.c and
    plat/arm/board/fvp/fvp_trusted_boot.c. *)

From Stdlib Require Import ZArith Lia.
From stdpp Require Import base option list numbers strings.
From S2P Require Import Prelude CMonad Auth.
Import Auth.
Open Scope Z_scope.
Open Scope cint_scope.

Module Cot.

(** ** Image identifiers: tbbr_img_def.h *)
Definition FIP_IMAGE_ID := 0.
Definition BL2_IMAGE_ID := 1.
Definition SCP_BL2_IMAGE_ID := 2.
Definition BL31_IMAGE_ID := 3.
Definition BL32_IMAGE_ID := 4.
Definition BL33_IMAGE_ID := 5.
Definition TRUSTED_BOOT_FW_CERT_ID := 6.
Definition TRUSTED_KEY_CERT_ID := 7.
Definition SCP_FW_KEY_CERT_ID := 8.
Definition SOC_FW_KEY_CERT_ID := 9.
Definition TRUSTED_OS_FW_KEY_CERT_ID := 10.
Definition NON_TRUSTED_FW_KEY_CERT_ID := 11.
Definition SCP_FW_CONTENT_CERT_ID := 12.
Definition SOC_FW_CONTENT_CERT_ID := 13.
Definition TRUSTED_OS_FW_CONTENT_CERT_ID := 14.
Definition NON_TRUSTED_FW_CONTENT_CERT_ID := 15.
Definition NS_BL1U_IMAGE_ID := 16.
Definition FWU_CERT_ID := 17.
Definition SCP_BL2U_IMAGE_ID := 18.
Definition BL2U_IMAGE_ID := 19.
Definition NS_BL2U_IMAGE_ID := 20.

(** ** Object identifiers: board_arm_oid.h *)
Definition TRUSTED_FW_NVCOUNTER_OID := "1.3.6.1.4.1.4128.2100.1"%string.
Definition NON_TRUSTED_FW_NVCOUNTER_OID := "1.3.6.1.4.1.4128.2100.2"%string.
Definition AP_FWU_CFG_HASH_OID := "1.3.6.1.4.1.4128.2100.101"%string.
Definition SCP_FWU_CFG_HASH_OID := "1.3.6.1.4.1.4128.2100.102"%string.
Definition FWU_HASH_OID := "1.3.6.1.4.1.4128.2100.103"%string.
Definition TRUSTED_BOOT_FW_HASH_OID := "1.3.6.1.4.1.4128.2100.201"%string.
Definition TRUSTED_WORLD_PK_OID := "1.3.6.1.4.1.4128.2100.302"%string.
Definition NON_TRUSTED_WORLD_PK_OID := "1.3.6.1.4.1.4128.2100.303"%string.
Definition SOC_FW_CONTENT_CERT_PK_OID := "1.3.6.1.4.1.4128.2100.501"%string.
Definition SOC_AP_FW_HASH_OID := "1.3.6.1.4.1.4128.2100.603"%string.
Definition SCP_FW_CONTENT_CERT_PK_OID := "1.3.6.1.4.1.4128.2100.701"%string.
Definition SCP_FW_HASH_OID := "1.3.6.1.4.1.4128.2100.801"%string.
Definition TRUSTED_OS_FW_CONTENT_CERT_PK_OID := "1.3.6.1.4.1.4128.2100.901"%string.
Definition TRUSTED_OS_FW_HASH_OID := "1.3.6.1.4.1.4128.2100.1001"%string.
Definition NON_TRUSTED_FW_CONTENT_CERT_PK_OID := "1.3.6.1.4.1.4128.2100.1101"%string.
Definition NON_TRUSTED_WORLD_BOOTLOADER_HASH_OID := "1.3.6.1.4.1.4128.2100.1201"%string.

(** ** Parameters: tbbr_cot.c *)
Definition PK_DER_LEN := 294.
Definition HASH_DER_LEN := 51.
(** The buffers are in zero-initialised memory. *)
Definition buf_len (b : auth_buf) : Z :=
  match b with trusted_world_pk_buf | non_trusted_world_pk_buf | content_pk_buf => PK_DER_LEN | _ => HASH_DER_LEN end.
Definition init_bufs (b : auth_buf) : list Z := replicate (Z.to_nat (buf_len b)) 0.
Definition trusted_nv_ctr := TypeDesc AUTH_PARAM_NV_CTR (Some TRUSTED_FW_NVCOUNTER_OID).
Definition non_trusted_nv_ctr := TypeDesc AUTH_PARAM_NV_CTR (Some NON_TRUSTED_FW_NVCOUNTER_OID).
Definition subject_pk := TypeDesc AUTH_PARAM_PUB_KEY None.
Definition sig := TypeDesc AUTH_PARAM_SIG None.
Definition sig_alg := TypeDesc AUTH_PARAM_SIG_ALG None.
Definition raw_data := TypeDesc AUTH_PARAM_RAW_DATA None.
Definition trusted_world_pk := TypeDesc AUTH_PARAM_PUB_KEY (Some TRUSTED_WORLD_PK_OID).
Definition non_trusted_world_pk := TypeDesc AUTH_PARAM_PUB_KEY (Some NON_TRUSTED_WORLD_PK_OID).
Definition scp_fw_content_pk := TypeDesc AUTH_PARAM_PUB_KEY (Some SCP_FW_CONTENT_CERT_PK_OID).
Definition soc_fw_content_pk := TypeDesc AUTH_PARAM_PUB_KEY (Some SOC_FW_CONTENT_CERT_PK_OID).
Definition tos_fw_content_pk := TypeDesc AUTH_PARAM_PUB_KEY (Some TRUSTED_OS_FW_CONTENT_CERT_PK_OID).
Definition nt_fw_content_pk := TypeDesc AUTH_PARAM_PUB_KEY (Some NON_TRUSTED_FW_CONTENT_CERT_PK_OID).
Definition tb_fw_hash := TypeDesc AUTH_PARAM_HASH (Some TRUSTED_BOOT_FW_HASH_OID).
Definition scp_fw_hash := TypeDesc AUTH_PARAM_HASH (Some SCP_FW_HASH_OID).
Definition soc_fw_hash := TypeDesc AUTH_PARAM_HASH (Some SOC_AP_FW_HASH_OID).
Definition tos_fw_hash := TypeDesc AUTH_PARAM_HASH (Some TRUSTED_OS_FW_HASH_OID).
Definition nt_world_bl_hash := TypeDesc AUTH_PARAM_HASH (Some NON_TRUSTED_WORLD_BOOTLOADER_HASH_OID).
Definition scp_bl2u_hash := TypeDesc AUTH_PARAM_HASH (Some SCP_FWU_CFG_HASH_OID).
Definition bl2u_hash := TypeDesc AUTH_PARAM_HASH (Some AP_FWU_CFG_HASH_OID).
Definition ns_bl2u_hash := TypeDesc AUTH_PARAM_HASH (Some FWU_HASH_OID).

(** ** The chain *)
(** Missing elements of the arrays are zero. *)
Definition methods (l : list auth_method_desc) := l ++ replicate (AUTH_METHOD_NUM - length l) AUTH_METHOD_NONE.
Definition params (l : list auth_param_desc) := (Some <$> l) ++ replicate (COT_MAX_VERIFIED_PARAMS - length l) None.
Definition cot_TRUSTED_BOOT_FW_CERT : auth_img_desc := ImgDesc TRUSTED_BOOT_FW_CERT_ID IMG_CERT None
  (methods [AUTH_METHOD_SIG subject_pk sig sig_alg raw_data; AUTH_METHOD_NV_CTR trusted_nv_ctr trusted_nv_ctr])
  (params [ParamDesc tb_fw_hash tb_fw_hash_buf HASH_DER_LEN]).
Definition cot_BL2_IMAGE : auth_img_desc := ImgDesc BL2_IMAGE_ID IMG_RAW (Some TRUSTED_BOOT_FW_CERT_ID)
  (methods [AUTH_METHOD_HASH raw_data tb_fw_hash])
  (params []).
Definition cot_TRUSTED_KEY_CERT : auth_img_desc := ImgDesc TRUSTED_KEY_CERT_ID IMG_CERT None
  (methods [AUTH_METHOD_SIG subject_pk sig sig_alg raw_data; AUTH_METHOD_NV_CTR trusted_nv_ctr trusted_nv_ctr])
  (params [ParamDesc trusted_world_pk trusted_world_pk_buf PK_DER_LEN; ParamDesc non_trusted_world_pk non_trusted_world_pk_buf PK_DER_LEN]).
Definition cot_SCP_FW_KEY_CERT : auth_img_desc := ImgDesc SCP_FW_KEY_CERT_ID IMG_CERT (Some TRUSTED_KEY_CERT_ID)
  (methods [AUTH_METHOD_SIG trusted_world_pk sig sig_alg raw_data; AUTH_METHOD_NV_CTR trusted_nv_ctr trusted_nv_ctr])
  (params [ParamDesc scp_fw_content_pk content_pk_buf PK_DER_LEN]).
Definition cot_SCP_FW_CONTENT_CERT : auth_img_desc := ImgDesc SCP_FW_CONTENT_CERT_ID IMG_CERT (Some SCP_FW_KEY_CERT_ID)
  (methods [AUTH_METHOD_SIG scp_fw_content_pk sig sig_alg raw_data; AUTH_METHOD_NV_CTR trusted_nv_ctr trusted_nv_ctr])
  (params [ParamDesc scp_fw_hash scp_fw_hash_buf HASH_DER_LEN]).
Definition cot_SCP_BL2_IMAGE : auth_img_desc := ImgDesc SCP_BL2_IMAGE_ID IMG_RAW (Some SCP_FW_CONTENT_CERT_ID)
  (methods [AUTH_METHOD_HASH raw_data scp_fw_hash])
  (params []).
Definition cot_SOC_FW_KEY_CERT : auth_img_desc := ImgDesc SOC_FW_KEY_CERT_ID IMG_CERT (Some TRUSTED_KEY_CERT_ID)
  (methods [AUTH_METHOD_SIG trusted_world_pk sig sig_alg raw_data; AUTH_METHOD_NV_CTR trusted_nv_ctr trusted_nv_ctr])
  (params [ParamDesc soc_fw_content_pk content_pk_buf PK_DER_LEN]).
Definition cot_SOC_FW_CONTENT_CERT : auth_img_desc := ImgDesc SOC_FW_CONTENT_CERT_ID IMG_CERT (Some SOC_FW_KEY_CERT_ID)
  (methods [AUTH_METHOD_SIG soc_fw_content_pk sig sig_alg raw_data; AUTH_METHOD_NV_CTR trusted_nv_ctr trusted_nv_ctr])
  (params [ParamDesc soc_fw_hash soc_fw_hash_buf HASH_DER_LEN]).
Definition cot_BL31_IMAGE : auth_img_desc := ImgDesc BL31_IMAGE_ID IMG_RAW (Some SOC_FW_CONTENT_CERT_ID)
  (methods [AUTH_METHOD_HASH raw_data soc_fw_hash])
  (params []).
Definition cot_TRUSTED_OS_FW_KEY_CERT : auth_img_desc := ImgDesc TRUSTED_OS_FW_KEY_CERT_ID IMG_CERT (Some TRUSTED_KEY_CERT_ID)
  (methods [AUTH_METHOD_SIG trusted_world_pk sig sig_alg raw_data; AUTH_METHOD_NV_CTR trusted_nv_ctr trusted_nv_ctr])
  (params [ParamDesc tos_fw_content_pk content_pk_buf PK_DER_LEN]).
Definition cot_TRUSTED_OS_FW_CONTENT_CERT : auth_img_desc := ImgDesc TRUSTED_OS_FW_CONTENT_CERT_ID IMG_CERT (Some TRUSTED_OS_FW_KEY_CERT_ID)
  (methods [AUTH_METHOD_SIG tos_fw_content_pk sig sig_alg raw_data; AUTH_METHOD_NV_CTR trusted_nv_ctr trusted_nv_ctr])
  (params [ParamDesc tos_fw_hash tos_fw_hash_buf HASH_DER_LEN]).
Definition cot_BL32_IMAGE : auth_img_desc := ImgDesc BL32_IMAGE_ID IMG_RAW (Some TRUSTED_OS_FW_CONTENT_CERT_ID)
  (methods [AUTH_METHOD_HASH raw_data tos_fw_hash])
  (params []).
Definition cot_NON_TRUSTED_FW_KEY_CERT : auth_img_desc := ImgDesc NON_TRUSTED_FW_KEY_CERT_ID IMG_CERT (Some TRUSTED_KEY_CERT_ID)
  (methods [AUTH_METHOD_SIG non_trusted_world_pk sig sig_alg raw_data; AUTH_METHOD_NV_CTR non_trusted_nv_ctr non_trusted_nv_ctr])
  (params [ParamDesc nt_fw_content_pk content_pk_buf PK_DER_LEN]).
Definition cot_NON_TRUSTED_FW_CONTENT_CERT : auth_img_desc := ImgDesc NON_TRUSTED_FW_CONTENT_CERT_ID IMG_CERT (Some NON_TRUSTED_FW_KEY_CERT_ID)
  (methods [AUTH_METHOD_SIG nt_fw_content_pk sig sig_alg raw_data; AUTH_METHOD_NV_CTR non_trusted_nv_ctr non_trusted_nv_ctr])
  (params [ParamDesc nt_world_bl_hash nt_world_bl_hash_buf HASH_DER_LEN]).
Definition cot_BL33_IMAGE : auth_img_desc := ImgDesc BL33_IMAGE_ID IMG_RAW (Some NON_TRUSTED_FW_CONTENT_CERT_ID)
  (methods [AUTH_METHOD_HASH raw_data nt_world_bl_hash])
  (params []).
Definition cot_FWU_CERT : auth_img_desc := ImgDesc FWU_CERT_ID IMG_CERT None
  (methods [AUTH_METHOD_SIG subject_pk sig sig_alg raw_data])
  (params [ParamDesc scp_bl2u_hash scp_fw_hash_buf HASH_DER_LEN; ParamDesc bl2u_hash tb_fw_hash_buf HASH_DER_LEN; ParamDesc ns_bl2u_hash nt_world_bl_hash_buf HASH_DER_LEN]).
Definition cot_SCP_BL2U_IMAGE : auth_img_desc := ImgDesc SCP_BL2U_IMAGE_ID IMG_RAW (Some FWU_CERT_ID)
  (methods [AUTH_METHOD_HASH raw_data scp_bl2u_hash])
  (params []).
Definition cot_BL2U_IMAGE : auth_img_desc := ImgDesc BL2U_IMAGE_ID IMG_RAW (Some FWU_CERT_ID)
  (methods [AUTH_METHOD_HASH raw_data bl2u_hash])
  (params []).
Definition cot_NS_BL2U_IMAGE : auth_img_desc := ImgDesc NS_BL2U_IMAGE_ID IMG_RAW (Some FWU_CERT_ID)
  (methods [AUTH_METHOD_HASH raw_data ns_bl2u_hash])
  (params []).
(** The elements without an initialiser, of the images 0 and 16. *)
Definition cot_zero : auth_img_desc := ImgDesc 0 IMG_RAW None (methods []) (params []).
Definition cot_desc : list auth_img_desc :=
  [cot_zero;
   cot_BL2_IMAGE;
   cot_SCP_BL2_IMAGE;
   cot_BL31_IMAGE;
   cot_BL32_IMAGE;
   cot_BL33_IMAGE;
   cot_TRUSTED_BOOT_FW_CERT;
   cot_TRUSTED_KEY_CERT;
   cot_SCP_FW_KEY_CERT;
   cot_SOC_FW_KEY_CERT;
   cot_TRUSTED_OS_FW_KEY_CERT;
   cot_NON_TRUSTED_FW_KEY_CERT;
   cot_SCP_FW_CONTENT_CERT;
   cot_SOC_FW_CONTENT_CERT;
   cot_TRUSTED_OS_FW_CONTENT_CERT;
   cot_NON_TRUSTED_FW_CONTENT_CERT;
   cot_zero;
   cot_FWU_CERT;
   cot_SCP_BL2U_IMAGE;
   cot_BL2U_IMAGE;
   cot_NS_BL2U_IMAGE].
End Cot.

(** ** Root key and counters of the Arm boards *)
Module ArmBoard.
Definition SHA256_BYTES := 32.
Definition ARM_ROTPK_REGS_ID := 1.
Definition ARM_ROTPK_DEVEL_RSA_ID := 2.
Definition rotpk_hash_hdr : list Z :=
  [0x30; 0x31; 0x30; 0x0D; 0x06; 0x09; 0x60; 0x86; 0x48;
   0x01; 0x65; 0x03; 0x04; 0x02; 0x01; 0x05; 0x00; 0x04; 0x20].
Definition arm_devel_rotpk_hash : list Z :=
  [0xB0; 0xF3; 0x82; 0x09; 0x12; 0x97; 0xD8; 0x3A; 0x37; 0x7A; 0x72; 0x47; 0x1B; 0xEC; 0x32; 0x73;
   0xE9; 0x92; 0x32; 0xE2; 0x49; 0x59; 0xF6; 0x5E; 0x8B; 0x4A; 0x4A; 0x46; 0xD8; 0x22; 0x9A; 0xDA].

(** The registers: the eight words of the key hash and the two counters. *)
Record regs := Regs { TZ_PUB_KEY_HASH : list Z; TFW_NVCTR : Z; NTFW_CTR : Z }.
Definition word_bytes (tmp : Z) : list Z :=
  [Z.land (Z.shiftr tmp 24) 0xFF; Z.land (Z.shiftr tmp 16) 0xFF; Z.land (Z.shiftr tmp 8) 0xFF; Z.land tmp 0xFF].
(** One of the two loops over [words] registers from [src] on. *)
Definition swap_half (h : list Z) (src words : Z) : option (list Z) :=
  mjoin <$> mapM (fun i => word_bytes <$> h !! Z.to_nat (src + (words - 1 - i))) (seqZ 0 words).
Definition plat_get_rotpk_info (ARM_ROTPK_LOCATION_ID : Z) (s : regs) (cookie : option string) : option (Z * list Z * Z) :=
  hash ← (if ARM_ROTPK_LOCATION_ID =? ARM_ROTPK_DEVEL_RSA_ID then Some arm_devel_rotpk_hash
          else
            let words := Z.shiftr SHA256_BYTES 3 in
            lo ← swap_half (TZ_PUB_KEY_HASH s) 0 words;
            hi ← swap_half (TZ_PUB_KEY_HASH s) 4 words;
            Some (lo ++ hi));
  Some (0, rotpk_hash_hdr ++ hash, ROTPK_IS_HASH).
Definition plat_get_nv_ctr (s : regs) (cookie : option string) : option (Z * Z) :=
  oid ← cookie;
  Some (if decide (oid = Cot.TRUSTED_FW_NVCOUNTER_OID) then (0, TFW_NVCTR s)
        else if decide (oid = Cot.NON_TRUSTED_FW_NVCOUNTER_OID) then (0, NTFW_CTR s)
        else (1, 0)).
(** The default: the counters are read-only. *)
Definition plat_set_nv_ctr (s : regs) (cookie : option string) (nv_ctr : Z) : option (Z * regs) := Some (1, s).

(** The FVP; on some versions ([RO]) a write to a counter has no effect. *)
Definition fvp_set_nv_ctr (RO : bool) (s : regs) (cookie : option string) (nv_ctr : Z) : option (Z * regs) :=
  oid ← cookie;
  if decide (oid = Cot.TRUSTED_FW_NVCOUNTER_OID) then
    let s := if RO then s else Regs (TZ_PUB_KEY_HASH s) nv_ctr (NTFW_CTR s) in
    Some (if negb (nv_ctr =? TFW_NVCTR s) then 1 else 0, s)
  else if decide (oid = Cot.NON_TRUSTED_FW_NVCOUNTER_OID) then
    let s := if RO then s else Regs (TZ_PUB_KEY_HASH s) (TFW_NVCTR s) nv_ctr in
    Some (if negb (nv_ctr =? NTFW_CTR s) then 1 else 0, s)
  else Some (1, s).
End ArmBoard.
