(* ===== verification/X509.v ===== *)
(** * Certificates: drivers/auth/mbedtls of the Trusted Firmware

    mbedtls_x509_parser.c and mbedtls_crypto.c.  The functions of mbed TLS that they call are
    the class [Mbedtls], with what their documentation says of them in [MbedtlsLaws].  A
    pointer is an address; the bytes that may be read are those of the image, which starts at
    [base]. *)

From Stdlib Require Import ZArith Lia.
From stdpp Require Import base option list numbers strings.
From S2P Require Import Prelude CMonad Auth.
Import Auth.
Open Scope Z_scope.
Open Scope cint_scope.

Module X509.

(** Tags and error codes of mbedtls/asn1.h and mbedtls/oid.h. *)
Definition ASN1_INTEGER := 0x02.
Definition ASN1_BIT_STRING := 0x03.
Definition ASN1_OCTET_STRING := 0x04.
Definition ASN1_OID := 0x06.
Definition ASN1_SEQUENCE := 0x10.
Definition ASN1_CONSTRUCTED := 0x20.
Definition ASN1_CONTEXT_SPECIFIC := 0x80.
Definition ERR_ASN1_UNEXPECTED_TAG := -0x62.
Definition ERR_OID_BUF_TOO_SMALL := -0x0B.
Definition SEQ := Z.lor ASN1_CONSTRUCTED ASN1_SEQUENCE.
Definition CONTEXT (n : Z) := Z.lor (Z.lor ASN1_CONTEXT_SPECIFIC ASN1_CONSTRUCTED) n.

Definition CRYPTO_SUCCESS := 0.
Definition CRYPTO_ERR_HASH := 2.
Definition CRYPTO_ERR_SIGNATURE := 3.

(** Each function of the library takes the memory as its start and its bytes. *)
Class Mbedtls := {
  (** [p], [end], [*len] and the tag; the return value, [*p] and [*len]. *)
  mbedtls_asn1_get_tag : Z -> list Z -> Z -> Z -> Z -> Z -> option (Z * Z * Z);
  (** The return value and [*p]. *)
  mbedtls_asn1_get_bool : Z -> list Z -> Z -> Z -> option (Z * Z);
  (** The return value, [*p] and the bytes of the object identifier. *)
  mbedtls_asn1_get_alg : Z -> list Z -> Z -> Z -> option (Z * Z * list Z);
  (** The return value, [*p] and [*len]. *)
  mbedtls_asn1_get_bitstring_null : Z -> list Z -> Z -> Z -> option (Z * Z * Z);
  (** The return value, and the string when it is the length of that. *)
  mbedtls_oid_get_numeric_string : list Z -> Z * string;
  md_type : Type;
  pk_type : Type;
  mbedtls_oid_get_sig_alg : list Z -> option (md_type * pk_type);
  mbedtls_oid_get_md_alg : list Z -> option md_type;
  md_info : Type;
  mbedtls_md_info_from_type : md_type -> option md_info;
  mbedtls_md_get_size : md_info -> Z;
  mbedtls_md : md_info -> list Z -> option (list Z);
  pk_context : Type;
  mbedtls_pk_parse_subpubkey : list Z -> option pk_context;
  mbedtls_pk_verify_ext : pk_type -> pk_context -> md_type -> list Z -> list Z -> Z
}.

(** What the documentation of mbed TLS says of these functions: they read from [p] up to [end]; on
    success [*p] is behind the tag and the length, and the contents end before [end]; when the
    tag is another one, nothing has been consumed. *)
Class MbedtlsLaws `{Mbedtls} := {
  get_tag_defined b l p e n t : b <= p -> e <= b + zlen l -> is_Some (mbedtls_asn1_get_tag b l p e n t);
  get_tag_ok b l p e n t p' n' : mbedtls_asn1_get_tag b l p e n t = Some (0, p', n') -> p < p' /\ 0 <= n' /\ p' + n' <= e;
  get_tag_missing b l p e n t p' n' :
    mbedtls_asn1_get_tag b l p e n t = Some (ERR_ASN1_UNEXPECTED_TAG, p', n') -> p' = p /\ n' = n;
  get_tag_len b l p e n t p' n' m :
    mbedtls_asn1_get_tag b l p e n t = Some (0, p', n') -> mbedtls_asn1_get_tag b l p e m t = Some (0, p', n');
  get_bool_defined b l p e : b <= p -> e <= b + zlen l -> is_Some (mbedtls_asn1_get_bool b l p e);
  get_bool_ok b l p e p' : mbedtls_asn1_get_bool b l p e = Some (0, p') -> p < p' /\ p' <= e;
  get_bool_missing b l p e p' : mbedtls_asn1_get_bool b l p e = Some (ERR_ASN1_UNEXPECTED_TAG, p') -> p' = p
}.

(** The static variables; each is a pointer and a length. *)
Record x509 := X509Vars { tbs : Z * Z; v3_ext : Z * Z; pk : Z * Z; sig_alg : Z * Z; signature : Z * Z }.
Definition set_tbs v s := X509Vars v (v3_ext s) (pk s) (sig_alg s) (signature s).
Definition set_v3_ext v s := X509Vars (tbs s) v (pk s) (sig_alg s) (signature s).
Definition set_pk v s := X509Vars (tbs s) (v3_ext s) v (sig_alg s) (signature s).
Definition set_sig_alg v s := X509Vars (tbs s) (v3_ext s) (pk s) v (signature s).
Definition set_signature v s := X509Vars (tbs s) (v3_ext s) (pk s) (sig_alg s) v.

Declare Scope exit_scope.
Delimit Scope exit_scope with exit.
(** Computations that may return early: [inr rc] is [return rc]. *)
Abbreviation E A := (M x509 (A + Z)).
Definition ebind {A B} (m : E A) (k : A -> E B) : E B :=
  r ← m; match r with inl x => k x | inr rc => mret (inr rc) end.
Definition eret {A} (x : A) : E A := mret (inl x).
Definition efail {A} (rc : Z) : E A := mret (inr rc).
Definition edo (m : M x509 unit) : E unit := m;; eret tt.
Definition echeck (b : bool) : E unit := if b then eret tt else efail IMG_PARSER_ERR_FORMAT.
Notation "x ⇐ m ; k" := (ebind m (fun x => k)) (at level 20, m at level 100, k at level 200).
Notation "' x ⇐ m ; k" := (ebind m (fun x => k)) (at level 20, x pattern, m at level 100, k at level 200).
Notation "m ;; k" := (ebind m (fun _ => k)) (at level 100, k at level 200, right associativity) : exit_scope.

Section image.
Context `{Mbedtls} (base : Z) (img : list Z).
Definition region (p n : Z) : option (list Z) :=
  if (base <=? p) && (0 <=? n) && (p + n <=? base + zlen img) then Some (slice img (p - base) (p - base + n)) else None.

(** *** The integrity check *)

(** A tag that must be there: the new [p] and [len]. *)
Definition tag (p end_ len t : Z) : E (Z * Z) :=
  '(ret, p, len) ← must (mbedtls_asn1_get_tag base img p end_ len t);
  if negb (ret =? 0) then efail IMG_PARSER_ERR_FORMAT else eret (p, len).
(** The same, and skip the contents. *)
Definition skip (p end_ len t : Z) : E (Z * Z) :=
  '(p, len) ⇐ tag p end_ len t; eret (p + len, len).
(** An element that may be missing. *)
Definition skip_opt (p end_ len t : Z) : E (Z * Z) :=
  '(ret, p, len) ← must (mbedtls_asn1_get_tag base img p end_ len t);
  if negb (ret =? 0) then
    if negb (ret =? ERR_ASN1_UNEXPECTED_TAG) then efail IMG_PARSER_ERR_FORMAT else eret (p, len)
  else eret (p + len, len).
(** The boolean [critical], which may be missing. *)
Definition skip_bool (p end_ : Z) : E Z :=
  '(ret, p) ← must (mbedtls_asn1_get_bool base img p end_);
  if negb (ret =? 0) && negb (ret =? ERR_ASN1_UNEXPECTED_TAG) then efail IMG_PARSER_ERR_FORMAT else eret p.

(** The loop over the extensions; each round reads a byte more at least. *)
Fixpoint check_exts (fuel : nat) (p end_ len : Z) : E (Z * Z) :=
  match fuel with
  | O => must None
  | S fuel =>
      if p <? end_ then
        ('(p, len) ⇐ tag p end_ len SEQ;
         '(p, len) ⇐ skip p end_ len ASN1_OID;
         p ⇐ skip_bool p end_;
         '(p, len) ⇐ skip p end_ len ASN1_OCTET_STRING;
         check_exts fuel p end_ len)%exit
      else eret (p, len)
  end.

(** From the version to the end of the extensions: [p], [len] and the first algorithm. *)
Definition parse_tbs (p end_ len : Z) : E (Z * Z * (Z * Z)) :=
  ('(p, len) ⇐ skip p end_ len (CONTEXT 0);
   '(p, len) ⇐ skip p end_ len ASN1_INTEGER;
   let alg_p := p in
   '(p, len) ⇐ tag p end_ len SEQ;
   echeck (negb (end_ - p <? 1));;
   let alg1 := (alg_p, p + len - alg_p) in
   let p := p + len in
   '(p, len) ⇐ skip p end_ len SEQ;
   '(p, len) ⇐ skip p end_ len SEQ;
   '(p, len) ⇐ skip p end_ len SEQ;
   let pk_p := p in
   edo (modify (fun s => set_pk (pk_p, snd (pk s)) s));;
   '(p, len) ⇐ tag p end_ len SEQ;
   edo (modify (set_pk (pk_p, p + len - pk_p)));;
   let p := p + len in
   '(p, len) ⇐ skip_opt p end_ len (CONTEXT 1);
   '(p, len) ⇐ skip_opt p end_ len (CONTEXT 2);
   '(p, len) ⇐ tag p end_ len (CONTEXT 3);
   let ext_p := p in
   edo (modify (fun s => set_v3_ext (ext_p, snd (v3_ext s)) s));;
   '(p, len) ⇐ tag p end_ len SEQ;
   edo (modify (set_v3_ext (ext_p, p + len - ext_p)));;
   '(p, len) ⇐ check_exts (S (length img)) p end_ len;
   echeck (p =? end_);;
   eret (p, len, alg1))%exit.

(** The signature algorithm and the signature after the signed part. *)
Definition parse_sig (p end_ len : Z) (alg1 : Z * Z) : E unit :=
  (let alg_p := p in
   '(p, len) ⇐ tag p end_ len SEQ;
   echeck (negb (end_ - p <? 1));;
   let alg2 := (alg_p, p + len - alg_p) in
   let p := p + len in
   echeck (snd alg1 =? snd alg2);;
   a1 ⇐ (x ← must (region (fst alg1) (snd alg1)); eret x);
   a2 ⇐ (x ← must (region (fst alg2) (snd alg1)); eret x);
   echeck (bool_decide (a1 = a2));;
   edo (modify (set_sig_alg alg1));;
   let sig_p := p in
   edo (modify (fun s => set_signature (sig_p, snd (signature s)) s));;
   '(p, len) ⇐ tag p end_ len ASN1_BIT_STRING;
   edo (modify (set_signature (sig_p, p + len - sig_p)));;
   echeck (p + len =? end_))%exit.

Definition cert_parse : M x509 Z :=
  r ← (let p := base in
       let end_ := p + zlen img in
       '(p, len) ⇐ tag p end_ (zlen img) SEQ;
       echeck (negb (end_ - p <? len));;
       let crt_end := p + len in
       let tbs_p := p in
       edo (modify (fun s => set_tbs (tbs_p, snd (tbs s)) s));;
       '(p, len) ⇐ tag p end_ len SEQ;
       let end_ := p + len in
       edo (modify (set_tbs (tbs_p, end_ - tbs_p)));;
       '(p, len, alg1) ⇐ parse_tbs p end_ len;
       parse_sig p crt_end len alg1)%exit;
  mret (match r with inl _ => IMG_PARSER_OK | inr rc => rc end).

(** *** Extracting parameters *)

(** The loop of [get_ext]; it need not end, so it has fuel.  [*len] is not set when a call
    fails. *)
Fixpoint ext_loop (fuel : nat) (oid : string) (p end_ len : Z) : option (Z * option (Z * Z)) :=
  match fuel with
  | O => None
  | S fuel =>
      if p <? end_ then
        '(_, p, len) ← mbedtls_asn1_get_tag base img p end_ len SEQ;
        let end_ext_data := p + len in
        region p 1;;
        '(_, p, oid_len) ← mbedtls_asn1_get_tag base img p end_ 0 ASN1_OID;
        extn_oid ← region p oid_len;
        let p := p + oid_len in
        '(_, p) ← mbedtls_asn1_get_bool base img p end_ext_data;
        '(_, p, len) ← mbedtls_asn1_get_tag base img p end_ext_data len ASN1_OCTET_STRING;
        let end_ext_octet := p + len in
        let '(oid_len, oid_str) := mbedtls_oid_get_numeric_string extn_oid in
        if oid_len =? ERR_OID_BUF_TOO_SMALL then Some (IMG_PARSER_ERR, None)
        else if (oid_len =? Z.of_nat (String.length oid_str)) && bool_decide (oid = oid_str)
        then Some (IMG_PARSER_OK, Some (p, u32 len))
        else ext_loop fuel oid end_ext_octet end_ len
      else Some (IMG_PARSER_ERR_NOT_FOUND, None)
  end.
Definition get_ext (fuel : nat) (v3 : Z * Z) (oid : string) : option (Z * option (Z * Z)) :=
  let p := fst v3 in
  let end_ := fst v3 + snd v3 in
  '(_, p, len) ← mbedtls_asn1_get_tag base img p end_ 0 SEQ;
  ext_loop fuel oid p end_ len.
Definition get_auth_param (v : x509) (td : auth_param_type_desc) : option (Z * option (Z * Z)) :=
  let fuel := S (length img) in
  let ptr x := Some (IMG_PARSER_OK, Some (fst x, u32 (snd x))) in
  match type td with
  | AUTH_PARAM_RAW_DATA => ptr (tbs v)
  | AUTH_PARAM_HASH | AUTH_PARAM_NV_CTR => oid ← cookie td; get_ext fuel (v3_ext v) oid
  | AUTH_PARAM_PUB_KEY =>
      match cookie td with
      | Some oid => get_ext fuel (v3_ext v) oid
      | None => ptr (pk v)
      end
  | AUTH_PARAM_SIG_ALG => ptr (sig_alg v)
  | AUTH_PARAM_SIG => ptr (signature v)
  | AUTH_PARAM_NONE => Some (IMG_PARSER_ERR_NOT_FOUND, None)
  end.
End image.

(** [REGISTER_IMG_PARSER_LIB]. *)
Definition x509_parser `{Mbedtls} : img_parser_lib_desc x509 :=
  ParserLib x509 IMG_CERT (fun v base img => cert_parse base img v) (fun v td base img => get_auth_param base img v td).

(** *** mbedtls_crypto.c: the arguments are the bytes *)
Definition verify_signature `{Mbedtls} (data sig sig_alg pk : list Z) : option Z :=
  '(rc, _, sig_oid) ← mbedtls_asn1_get_alg 0 sig_alg 0 (zlen sig_alg);
  if negb (rc =? 0) then Some CRYPTO_ERR_SIGNATURE else
  match mbedtls_oid_get_sig_alg sig_oid with
  | None => Some CRYPTO_ERR_SIGNATURE
  | Some (md_alg, pk_alg) =>
      match mbedtls_pk_parse_subpubkey pk with
      | None => Some CRYPTO_ERR_SIGNATURE
      | Some pk =>
          '(rc, p, len) ← mbedtls_asn1_get_bitstring_null 0 sig 0 (zlen sig);
          if negb (rc =? 0) then Some CRYPTO_ERR_SIGNATURE else
          sig_bytes ← region 0 sig p len;
          match mbedtls_md_info_from_type md_alg with
          | None => Some CRYPTO_ERR_SIGNATURE
          | Some info =>
              match mbedtls_md info data with
              | None => Some CRYPTO_ERR_SIGNATURE
              | Some hash =>
                  Some (if negb (mbedtls_pk_verify_ext pk_alg pk md_alg hash sig_bytes =? 0)
                        then CRYPTO_ERR_SIGNATURE else CRYPTO_SUCCESS)
              end
          end
      end
  end.
Definition verify_hash `{Mbedtls} (data digest_info : list Z) : option Z :=
  let end_ := zlen digest_info in
  '(rc, p, len) ← mbedtls_asn1_get_tag 0 digest_info 0 end_ 0 SEQ;
  if negb (rc =? 0) then Some CRYPTO_ERR_HASH else
  '(rc, p, hash_oid) ← mbedtls_asn1_get_alg 0 digest_info p end_;
  if negb (rc =? 0) then Some CRYPTO_ERR_HASH else
  match mbedtls_oid_get_md_alg hash_oid with
  | None => Some CRYPTO_ERR_HASH
  | Some md_alg =>
      match mbedtls_md_info_from_type md_alg with
      | None => Some CRYPTO_ERR_HASH
      | Some info =>
          '(rc, p, len) ← mbedtls_asn1_get_tag 0 digest_info p end_ len ASN1_OCTET_STRING;
          if negb (rc =? 0) then Some CRYPTO_ERR_HASH else
          if negb (len =? mbedtls_md_get_size info) then Some CRYPTO_ERR_HASH else
          match mbedtls_md info data with
          | None => Some CRYPTO_ERR_HASH
          | Some data_hash =>
              hash ← region 0 digest_info p len;
              Some (if negb (bool_decide (take (Z.to_nat len) data_hash = hash)) then CRYPTO_ERR_HASH else CRYPTO_SUCCESS)
          end
      end
  end.
End X509.
