(* ===== verification/X509Props.v ===== *)
(** * The certificate parser: where its pointers are

    [ewp] is the weakest precondition of computations that may return early; the lemmas on
    [tag], [skip] and the loop over the extensions keep every pointer between the start and
    the end of what is parsed. *)

From Stdlib Require Import ZArith Lia.
From stdpp Require Import base option list numbers strings.
From S2P Require Import Prelude CMonad Auth X509.
Import Auth X509.
Open Scope Z_scope.

Module X509Props.

(** The value satisfies [Q], or the function has returned [IMG_PARSER_ERR_FORMAT]. *)
Definition ewp {A} (m : E A) (Q : A -> x509 -> Prop) (s : x509) : Prop :=
  wp m (fun r s' => match r with inl x => Q x s' | inr rc => rc = IMG_PARSER_ERR_FORMAT end) s.
Lemma ewp_ret {A} (x : A) (Q : A -> x509 -> Prop) s : Q x s -> ewp (eret x) Q s.
Proof. done. Qed.
Lemma ewp_bind {A B} (m : E A) (k : A -> E B) Q s : ewp m (fun x s' => ewp (k x) Q s') s -> ewp (ebind m k) Q s.
Proof. intros Hm. apply wp_bind. eapply wp_mono; [exact Hm|]. intros [x|rc] s'; done. Qed.
Lemma ewp_check b Q s : (b = true -> Q tt s) -> ewp (echeck b) Q s.
Proof. destruct b; [|done]. intros HQ. by apply HQ. Qed.
Lemma ewp_modify f Q s : Q tt (f s) -> ewp (edo (modify f)) Q s.
Proof. done. Qed.
Lemma ewp_mono {A} (m : E A) (P Q : A -> x509 -> Prop) s : ewp m P s -> (forall x s', P x s' -> Q x s') -> ewp m Q s.
Proof. intros Hm HPQ. eapply wp_mono; [exact Hm|]. intros [x|rc] s'; [apply HPQ|done]. Qed.

Section parse.
Context `{MbedtlsLaws} (base : Z) (img : list Z).
Context (e : Z) (He : e <= base + zlen img).

Lemma ewp_tag p n t Q s : base <= p -> (forall p' n', p < p' -> 0 <= n' -> p' + n' <= e -> Q (p', n') s) -> ewp (tag base img p e n t) Q s.
Proof.
  intros Hp HQ. unfold ewp, tag. apply wp_bind. destruct (get_tag_defined base img p e n t Hp He) as [[[ret p'] n'] E1].
  eapply wp_must; [exact E1|]. cbn beta iota. destruct (Z.eqb_spec ret 0) as [->|]; cbn [negb]; [|by apply wp_ret]. apply get_tag_ok in E1 as (? & ? & ?). by apply HQ.
Qed.
Lemma ewp_skip p n t Q s : base <= p -> (forall p' n', p < p' -> p' <= e -> Q (p', n') s) -> ewp (skip base img p e n t) Q s.
Proof. intros Hp HQ. apply ewp_bind, ewp_tag; [done|]. intros. apply ewp_ret, HQ; lia. Qed.
Lemma ewp_skip_opt p n t Q s : base <= p <= e -> (forall p' n', p <= p' -> p' <= e -> Q (p', n') s) -> ewp (skip_opt base img p e n t) Q s.
Proof.
  intros Hp HQ. unfold ewp, skip_opt. apply wp_bind. destruct (get_tag_defined base img p e n t ltac:(lia) He) as [[[ret p'] n'] E1].
  eapply wp_must; [exact E1|]. cbn beta iota. destruct (Z.eqb_spec ret 0) as [->|]; cbn [negb].
  - apply get_tag_ok in E1 as (? & ? & ?). apply HQ; lia.
  - destruct (Z.eqb_spec ret ERR_ASN1_UNEXPECTED_TAG) as [->|]; cbn [negb]; [|by apply wp_ret]. apply get_tag_missing in E1 as [-> ->]. apply HQ; lia.
Qed.
Lemma ewp_bool p Q s : base <= p <= e -> (forall p', p <= p' -> p' <= e -> Q p' s) -> ewp (skip_bool base img p e) Q s.
Proof.
  intros Hp HQ. unfold ewp, skip_bool. apply wp_bind. destruct (get_bool_defined base img p e ltac:(lia) He) as [[ret p'] E1].
  eapply wp_must; [exact E1|]. cbn beta iota. destruct (Z.eqb_spec ret 0) as [->|]; cbn [negb andb].
  - apply get_bool_ok in E1 as (? & ?). apply HQ; lia.
  - destruct (Z.eqb_spec ret ERR_ASN1_UNEXPECTED_TAG) as [->|]; cbn [negb]; [|by apply wp_ret]. apply get_bool_missing in E1 as ->. apply HQ; lia.
Qed.
Lemma ewp_exts fuel : forall p n Q s, base <= p <= e -> e - p < Z.of_nat fuel ->
  (forall n', Q (e, n') s) -> ewp (check_exts base img fuel p e n) Q s.
Proof.
  induction fuel as [|fuel IH]; intros p n Q s Hp Hf HQ; [lia|]. cbn [check_exts]. destruct (Z.ltb_spec p e) as [Hlt|Hge].
  - apply ewp_bind, ewp_tag; [lia|]. intros p1 n1 ? ? ?. apply ewp_bind, ewp_skip; [lia|]. intros p2 n2 ? ?.
    apply ewp_bind, ewp_bool; [lia|]. intros p3 ? ?. apply ewp_bind, ewp_skip; [lia|]. intros p4 n4 ? ?. apply IH; [lia|lia|done].
  - assert (p = e) as -> by lia. by apply ewp_ret.
Qed.

(** A variable inside what is parsed. *)
Definition within (lo hi : Z) (v : Z * Z) : Prop := lo <= fst v /\ 0 < snd v /\ fst v + snd v <= hi.
Lemma ewp_parse_tbs p n Q s : base <= p <= e ->
  (forall n' alg s', within p e (pk s') -> within p e (v3_ext s') -> within p e alg -> tbs s' = tbs s -> Q (e, n', alg) s') ->
  ewp (parse_tbs base img p e n) Q s.
Proof.
  intros Hp HQ. unfold parse_tbs.
  apply ewp_bind, ewp_skip; [lia|]. intros p1 n1 ? ?. apply ewp_bind, ewp_skip; [lia|]. intros p2 n2 ? ?.
  apply ewp_bind, ewp_tag; [lia|]. intros p3 n3 ? ? ?. apply ewp_bind, ewp_check. intros _.
  apply ewp_bind, ewp_skip; [lia|]. intros p4 n4 ? ?. apply ewp_bind, ewp_skip; [lia|]. intros p5 n5 ? ?.
  apply ewp_bind, ewp_skip; [lia|]. intros p6 n6 ? ?. apply ewp_bind, ewp_modify. apply ewp_bind, ewp_tag; [lia|]. intros p7 n7 ? ? ?.
  apply ewp_bind, ewp_modify. apply ewp_bind, ewp_skip_opt; [lia|]. intros p8 n8 ? ?. apply ewp_bind, ewp_skip_opt; [lia|]. intros p9 n9 ? ?.
  apply ewp_bind, ewp_tag; [lia|]. intros p10 n10 ? ? ?. apply ewp_bind, ewp_modify. apply ewp_bind, ewp_tag; [lia|]. intros p11 n11 ? ? ?.
  apply ewp_bind, ewp_modify. apply ewp_bind, ewp_exts; [lia|unfold zlen in He; lia|]. intros n12.
  apply ewp_bind, ewp_check. intros _. apply ewp_ret, HQ; unfold within; cbn; try done; lia.
Qed.
End parse.

Lemma region_some base img p n : base <= p -> 0 <= n -> p + n <= base + zlen img -> is_Some (region base img p n).
Proof. intros. unfold region. rewrite !(proj2 (Z.leb_le _ _)) by lia. cbn. eauto. Qed.
Lemma ewp_region base img p n (Q : list Z -> x509 -> Prop) s : base <= p -> 0 <= n -> p + n <= base + zlen img ->
  (forall l, region base img p n = Some l -> Q l s) -> ewp (x ← must (region base img p n); eret x) Q s.
Proof. intros H1 H2 H3 HQ. destruct (region_some _ _ _ _ H1 H2 H3) as [l E1]. rewrite E1. by apply HQ. Qed.

Section cert.
Context `{MbedtlsLaws} (base : Z) (img : list Z).
Lemma ewp_parse_sig p e n alg Q s : e <= base + zlen img -> base <= p <= e -> within base p alg ->
  (forall v, within p e v -> Q tt (set_signature v (set_sig_alg alg s))) -> ewp (parse_sig base img p e n alg) Q s.
Proof.
  intros He Hp (Ha1 & Ha2 & Ha3) HQ. unfold parse_sig.
  apply ewp_bind, ewp_tag; [lia|lia|]. intros p1 n1 ? ? ?. apply ewp_bind, ewp_check. intros _.
  apply ewp_bind, ewp_check. cbn [snd fst]. intros El%Z.eqb_eq.
  apply ewp_bind, ewp_region; [lia|lia|lia|]. intros a1 _. apply ewp_bind, ewp_region; [lia|lia|lia|]. intros a2 _.
  apply ewp_bind, ewp_check. intros _. apply ewp_bind, ewp_modify. apply ewp_bind, ewp_modify.
  apply ewp_bind, ewp_tag; [lia|lia|]. intros p2 n2 ? ? ?. apply ewp_bind, ewp_modify. apply ewp_check. intros _.
  apply (HQ (_, _)). unfold within. cbn. lia.
Qed.
(** [cert_parse] is defined on every image, and what it keeps is inside the image. *)
Lemma cert_parse_wp s : wp (cert_parse base img) (fun rc s' =>
  rc = IMG_PARSER_ERR_FORMAT \/
  rc = IMG_PARSER_OK /\ within base (base + zlen img) (tbs s') /\
  (let '(p, n) := tbs s' in within p (p + n) (pk s') /\ within p (p + n) (v3_ext s') /\ within p (p + n) (sig_alg s') /\
     within (p + n) (base + zlen img) (signature s'))) s.
Proof.
  unfold cert_parse. apply wp_bind.
  apply (wp_mono _ (fun r s' => match r with
    | inl _ => within base (base + zlen img) (tbs s') /\
       (let '(p, n) := tbs s' in within p (p + n) (pk s') /\ within p (p + n) (v3_ext s') /\ within p (p + n) (sig_alg s') /\
         within (p + n) (base + zlen img) (signature s'))
    | inr rc => rc = IMG_PARSER_ERR_FORMAT end)).
  2: { intros [[]|rc] s' HQ; apply wp_ret; [by right|by left]. }
  apply (ewp_bind (tag _ _ _ _ _ _)), ewp_tag; [lia|lia|]. intros p1 n1 ? ? ?. apply ewp_bind, ewp_check. intros _.
  apply ewp_bind, ewp_modify. apply ewp_bind, ewp_tag; [lia|lia|]. intros p2 n2 ? ? ?. apply ewp_bind, ewp_modify.
  apply ewp_bind, ewp_parse_tbs; [lia|lia|]. intros n3 alg s3 Hpk Hext Halg Htbs.
  destruct (Z_le_gt_dec (p2 + n2) (p1 + n1)) as [Hin|Hout].
  2: { (* the signed part ends after the certificate *)
    apply (ewp_bind (tag _ _ _ _ _ _)), ewp_tag; [lia|lia|]. intros; lia. }
  apply ewp_parse_sig; [lia|lia| |].
  { unfold within in *. lia. }
  intros v Hv. cbn [tbs pk v3_ext sig_alg signature set_signature set_sig_alg]. rewrite Htbs. cbn.
  unfold within in *. cbn. lia.
Qed.
End cert.
End X509Props.
