(* ===== verification/X509Spec.v ===== *)
(** * Certificates: the theorems

    [cert_parse_spec]: the integrity check never reads outside the image, ends, and what it keeps is
    inside the image.  [get_ext_spec]: the right extension is found when the extensions are properly
    nested.  [integrity_not_enough]: the integrity check does not establish that.  The functions
    of mbed TLS, which is not part of the sources, are parameters throughout ([Mbedtls], with the documented
    behaviour [MbedtlsLaws]).  [der] instantiates them for the examples and the witnesses, to
    show that the laws can hold; it does not model mbed TLS. *)

From Stdlib Require Import ZArith Lia.
From stdpp Require Import base option list numbers strings pretty.
From S2P Require Import Prelude CMonad Auth AuthCot X509 X509Props.
Import Auth X509 X509Props.
Open Scope Z_scope.

Module X509Spec.

(** ** Properly nested extensions *)
Section exts.
Context `{Mbedtls} (base : Z) (img : list Z).
(** From [p] to [e] there are extensions: a sequence of an identifier, perhaps a boolean, and
    an octet string that ends where the sequence ends.  The list has the identifiers and where the
    strings are. *)
Inductive exts_at (e : Z) : Z -> list (list Z * (Z * Z)) -> Prop :=
| exts_nil : exts_at e e []
| exts_cons p p1 n1 p2 n2 oid r p3 p4 n4 l :
    mbedtls_asn1_get_tag base img p e 0 SEQ = Some (0, p1, n1) ->
    mbedtls_asn1_get_tag base img p1 e 0 ASN1_OID = Some (0, p2, n2) -> region base img p2 n2 = Some oid ->
    mbedtls_asn1_get_bool base img (p2 + n2) (p1 + n1) = Some (r, p3) ->
    mbedtls_asn1_get_tag base img p3 (p1 + n1) 0 ASN1_OCTET_STRING = Some (0, p4, n4) -> p4 + n4 = p1 + n1 ->
    exts_at e (p1 + n1) l -> exts_at e p ((oid, (p4, n4)) :: l).
(** The first extension with the identifier; an identifier that is too long for the buffer ends the search. *)
Fixpoint ext_find (oid : string) (l : list (list Z * (Z * Z))) : Z * option (Z * Z) :=
  match l with
  | [] => (IMG_PARSER_ERR_NOT_FOUND, None)
  | (o, (p, n)) :: l =>
      let '(r, s) := mbedtls_oid_get_numeric_string o in
      if r =? ERR_OID_BUF_TOO_SMALL then (IMG_PARSER_ERR, None)
      else if (r =? Z.of_nat (String.length s)) && bool_decide (oid = s) then (IMG_PARSER_OK, Some (p, u32 n))
      else ext_find oid l
  end.
End exts.

Section spec.
Context `{MbedtlsLaws} (base : Z) (img : list Z).
Lemma exts_loop e l : forall p, exts_at base img e p l -> base <= p -> e <= base + zlen img ->
  forall fuel oid n, (length l < fuel)%nat -> ext_loop base img fuel oid p e n = Some (ext_find oid l).
Proof.
  induction 1 as [|p p1 n1 p2 n2 o r p3 p4 n4 l E1 E2 E3 E4 E5 E6 _ IH]; intros Hp He fuel oid n Hf; (destruct fuel as [|fuel]; [cbn in Hf; lia|]); cbn [ext_loop].
  - by rewrite Z.ltb_irrefl.
  - pose proof (get_tag_ok _ _ _ _ _ _ _ _ E1) as (? & ? & ?). pose proof (get_tag_ok _ _ _ _ _ _ _ _ E2) as (? & ? & ?).
    rewrite (proj2 (Z.ltb_lt _ _)) by lia. rewrite (get_tag_len _ _ _ _ _ _ _ _ n E1). cbn [mbind option_bind].
    destruct (region_some base img p1 1) as [x Ex]; [lia..|]. rewrite Ex. cbn [mbind option_bind]. rewrite E2. cbn [mbind option_bind]. rewrite E3. cbn [mbind option_bind].
    rewrite E4. cbn [mbind option_bind]. rewrite (get_tag_len _ _ _ _ _ _ _ _ n1 E5). cbn [mbind option_bind ext_find].
    destruct (mbedtls_oid_get_numeric_string o) as [r' s]. destruct (r' =? ERR_OID_BUF_TOO_SMALL); [done|]. destruct (_ && _); [done|].
    rewrite E6. apply IH; [lia|done|]. cbn in Hf. lia.
Qed.
Lemma exts_length e l p : exts_at base img e p l -> Z.of_nat (length l) <= e - p.
Proof.
  induction 1 as [|p p1 n1 p2 n2 o r p3 p4 n4 l E1 E2 E3 E4 E5 E6 _ IH]; cbn; [lia|].
  pose proof (get_tag_ok _ _ _ _ _ _ _ _ E1) as (? & ? & ?). lia.
Qed.
End spec.

(** C28: [cert_parse] on any bytes: it returns [IMG_PARSER_OK] or [IMG_PARSER_ERR_FORMAT], without
    reading outside the image; its loop over the extensions ends.  On success the signed part is in
    the image; the key, the extensions and the algorithm are in the signed part; the signature is
    behind it; all are not empty. *)
Theorem cert_parse_spec `{MbedtlsLaws} base img s :
  exists rc s', cert_parse base img s = Some (rc, s') /\
    (rc = IMG_PARSER_ERR_FORMAT \/
     rc = IMG_PARSER_OK /\ within base (base + zlen img) (tbs s') /\
     (let '(p, n) := tbs s' in within p (p + n) (pk s') /\ within p (p + n) (v3_ext s') /\ within p (p + n) (sig_alg s') /\
        within (p + n) (base + zlen img) (signature s'))).
Proof. apply wp_inv, cert_parse_wp. Qed.

(** [get_ext] in a certificate with properly nested extensions ends, reads only the image, and
    returns the value of the first extension with the identifier, or that there is none. *)
Theorem get_ext_spec `{MbedtlsLaws} base img v3 p1 n1 l oid :
  within base (base + zlen img) v3 ->
  mbedtls_asn1_get_tag base img (fst v3) (fst v3 + snd v3) 0 SEQ = Some (0, p1, n1) -> exts_at base img (fst v3 + snd v3) p1 l ->
  get_ext base img (S (length img)) v3 oid = Some (ext_find oid l).
Proof.
  intros (H1 & H2 & H3) E1 Hx. unfold get_ext. rewrite E1. cbn [mbind option_bind]. pose proof (get_tag_ok _ _ _ _ _ _ _ _ E1) as (? & ? & ?).
  pose proof (exts_length _ _ _ _ _ Hx) as Hl. apply exts_loop; [done|lia|lia|]. unfold zlen in *. lia.
Qed.

(** ** An implementation of the library *)
Definition rd (base : Z) (img : list Z) (p : Z) : option Z := if p <? base then None else img !! Z.to_nat (p - base).
Definition OUT_OF_DATA := -0x60.
Definition INVALID_LENGTH := -0x64.
Definition der_len (base : Z) (img : list Z) (p e len : Z) : option (Z * Z * Z) :=
  if e - p <? 1 then Some (OUT_OF_DATA, p, len) else
  b ← rd base img p;
  if b <? 0 then Some (INVALID_LENGTH, p, len)
  else if b <? 0x80 then Some (if e - (p + 1) <? b then OUT_OF_DATA else 0, p + 1, b)
  else if negb (b =? 0x81) then Some (INVALID_LENGTH, p, len)
  else if e - p <? 2 then Some (OUT_OF_DATA, p, len) else
  n ← rd base img (p + 1);
  if n <? 0 then Some (INVALID_LENGTH, p, len) else Some (if e - (p + 2) <? n then OUT_OF_DATA else 0, p + 2, n).
Definition der_tag (base : Z) (img : list Z) (p e len t : Z) : option (Z * Z * Z) :=
  if e - p <? 1 then Some (OUT_OF_DATA, p, len) else
  b ← rd base img p;
  if negb (b =? t) then Some (ERR_ASN1_UNEXPECTED_TAG, p, len) else der_len base img (p + 1) e len.
Definition der_bool (base : Z) (img : list Z) (p e : Z) : option (Z * Z) :=
  '(ret, p, len) ← der_tag base img p e 0 1;
  if negb (ret =? 0) then Some (ret, p) else if negb (len =? 1) then Some (INVALID_LENGTH, p) else Some (0, p + 1).
(** The numbers of an identifier, after the first byte. *)
Fixpoint der_oid (l : list Z) (value : Z) : string :=
  match l with
  | [] => ""
  | b :: l =>
      let value := value * 128 + Z.land b 0x7f in
      if b <? 0x80 then "." +:+ pretty (Z.to_N value) +:+ der_oid l 0 else der_oid l value
  end.
Definition der_oid_string (l : list Z) : Z * string :=
  let s := match l with [] => ""%string | b :: l => pretty (Z.to_N (b / 40)) +:+ "." +:+ pretty (Z.to_N (b mod 40)) +:+ der_oid l 0 end in
  (if 64 <=? Z.of_nat (String.length s) then ERR_OID_BUF_TOO_SMALL else Z.of_nat (String.length s), s).
(** An instance to run the examples on, with one algorithm that knows one key. *)
#[global] Instance der : Mbedtls :=
  {| mbedtls_asn1_get_tag := der_tag; mbedtls_asn1_get_bool := der_bool;
     mbedtls_asn1_get_alg := fun b l p e => '(r, p, n) ← der_tag b l p e 0 SEQ; o ← region b l p (if r =? 0 then n else 0); Some (r, p + n, o);
     mbedtls_asn1_get_bitstring_null := fun b l p e => der_tag b l p e 0 ASN1_BIT_STRING;
     mbedtls_oid_get_numeric_string := der_oid_string; md_type := unit; pk_type := unit;
     mbedtls_oid_get_sig_alg := fun _ => Some (tt, tt); mbedtls_oid_get_md_alg := fun _ => Some tt; md_info := unit;
     mbedtls_md_info_from_type := fun _ => Some tt; mbedtls_md_get_size := fun _ => 1; mbedtls_md := fun _ l => Some (take 1 l);
     pk_context := list Z; mbedtls_pk_parse_subpubkey := fun l => Some l;
     mbedtls_pk_verify_ext := fun _ pk _ h sig => if decide (sig = pk ++ h) then 0 else 1 |}.
Lemma rd_some base img p : base <= p -> p < base + zlen img -> is_Some (rd base img p).
Proof. intros. unfold rd. rewrite (proj2 (Z.ltb_ge _ _)) by lia. apply lookup_lt_is_Some_2. unfold zlen in *. lia. Qed.
Lemma der_len_spec base img p e len : base <= p -> e <= base + zlen img -> exists ret p' n', der_len base img p e len = Some (ret, p', n') /\
  ret <> ERR_ASN1_UNEXPECTED_TAG.
Proof.
  intros Hp He. unfold der_len. destruct (Z.ltb_spec (e - p) 1); [by eexists _, _, _|]. destruct (rd_some base img p) as [b Eb]; [lia..|]. rewrite Eb. cbn.
  destruct (b <? 0); [by eexists _, _, _|]. destruct (b <? 0x80); [destruct (_ <? b); by eexists _, _, _|]. destruct (negb _); [by eexists _, _, _|].
  destruct (Z.ltb_spec (e - p) 2); [by eexists _, _, _|]. destruct (rd_some base img (p + 1)) as [n En]; [lia..|]. rewrite En. cbn.
  destruct (n <? 0); [by eexists _, _, _|]. destruct (_ <? n); by eexists _, _, _.
Qed.
Lemma der_len_ok base img p e len p' n' : der_len base img p e len = Some (0, p', n') ->
  p < p' /\ 0 <= n' /\ p' + n' <= e /\ forall m, der_len base img p e m = Some (0, p', n').
Proof.
  unfold der_len. destruct (Z.ltb_spec (e - p) 1); [done|]. destruct (rd base img p) as [b|]; [|done]. cbn. destruct (Z.ltb_spec b 0); [done|].
  destruct (b <? 0x80).
  - destruct (Z.ltb_spec (e - (p + 1)) b); intros [= <- <-]. split_and!; try done; lia.
  - destruct (negb _); [done|]. destruct (Z.ltb_spec (e - p) 2); [done|]. destruct (rd base img (p + 1)) as [n|]; [|done]. cbn.
    destruct (Z.ltb_spec n 0); [done|]. destruct (Z.ltb_spec (e - (p + 2)) n); intros [= <- <-]. split_and!; try done; lia.
Qed.
Lemma der_len_missing base img p e len p' n' : der_len base img p e len <> Some (ERR_ASN1_UNEXPECTED_TAG, p', n').
Proof. unfold der_len. repeat (case_match || (destruct (rd _ _ _); cbn)); try done. Qed.
#[global] Instance der_laws : MbedtlsLaws.
Proof.
  split; cbn [mbedtls_asn1_get_tag mbedtls_asn1_get_bool der]; intros b l p e.
  - intros n t Hp He. unfold der_tag. destruct (Z.ltb_spec (e - p) 1); [by eexists|]. destruct (rd_some b l p) as [x Ex]; [lia..|]. rewrite Ex. cbn.
    destruct (negb _); [by eexists|]. destruct (der_len_spec b l (p + 1) e n) as (? & ? & ? & -> & _); [lia|lia|]. by eexists.
  - intros n t p' n'. unfold der_tag. destruct (_ <? 1); [done|]. destruct (rd b l p); [|done]. cbn. destruct (negb _); [done|].
    intros (? & ? & ? & _)%der_len_ok. lia.
  - intros n t p' n'. unfold der_tag. destruct (_ <? 1); [done|]. destruct (rd b l p); [|done]. cbn. destruct (negb _); [by intros [= <- <-]|].
    by intros ?%der_len_missing.
  - intros n t p' n' m. unfold der_tag. destruct (_ <? 1); [done|]. destruct (rd b l p); [|done]. cbn. destruct (negb _); [done|].
    by intros (_ & _ & _ & ?)%der_len_ok.
  - intros Hp He. unfold der_bool, der_tag. destruct (Z.ltb_spec (e - p) 1); [by eexists|]. destruct (rd_some b l p) as [x Ex]; [lia..|]. rewrite Ex. cbn.
    destruct (negb (x =? 1)); [by eexists|]. destruct (der_len_spec b l (p + 1) e 0) as (r & ? & ? & -> & _); [lia|lia|]. cbn.
    destruct (negb (r =? 0)); [by eexists|]. destruct (negb _); by eexists.
  - intros p'. unfold der_bool, der_tag. destruct (_ <? 1); [done|]. destruct (rd b l p) as [x|]; [|done]. cbn. destruct (negb (x =? 1)); [done|].
    destruct (der_len b l (p + 1) e 0) as [[[r q] n]|] eqn:E; [|done]. cbn. destruct (Z.eqb_spec r 0) as [->|]; cbn; [|by intros [= -> _]].
    apply der_len_ok in E as (? & ? & ? & _). destruct (Z.eqb_spec n 1); [|done]. intros [= <-]. lia.
  - intros p'. unfold der_bool, der_tag. destruct (_ <? 1); [done|]. destruct (rd b l p) as [x|]; [|done]. cbn. destruct (negb (x =? 1)); [by intros [= <-]|].
    destruct (der_len b l (p + 1) e 0) as [[[r q] n]|] eqn:E; [|done]. cbn. destruct (Z.eqb_spec r 0) as [->|]; cbn; [by destruct (negb _)|].
    intros [= -> ->]. by apply der_len_missing in E.
Qed.

(** ** Certificates *)
Definition tlv (t : Z) (contents : list Z) : list Z := t :: zlen contents :: contents.
Definition alg_bytes : list Z := tlv SEQ [6; 1; 0x2A].
Definition cert_of (exts : list Z) : list Z :=
  tlv SEQ (tlv SEQ (tlv (CONTEXT 0) [2; 1; 2] ++ tlv ASN1_INTEGER [1] ++ alg_bytes ++ tlv SEQ [] ++ tlv SEQ [] ++ tlv SEQ [] ++ tlv SEQ [9] ++
    tlv (CONTEXT 3) (tlv SEQ exts)) ++ alg_bytes ++ tlv ASN1_BIT_STRING [0]).
(** The identifiers of the two counters. *)
Definition oid1 : list Z := [0x2B; 6; 1; 4; 1; 0xA0; 0x20; 0x90; 0x34; 1].
Definition oid2 : list Z := [0x2B; 6; 1; 4; 1; 0xA0; 0x20; 0x90; 0x34; 2].
Lemma oid1_string : der_oid_string oid1 = (23, Cot.TRUSTED_FW_NVCOUNTER_OID).
Proof. by vm_compute. Qed.
Definition ext_of (oid value : list Z) : list Z := tlv SEQ (tlv ASN1_OID oid ++ tlv ASN1_OCTET_STRING value).
Definition no_vars : x509 := X509Vars (0, 0) (0, 0) (0, 0) (0, 0) (0, 0).
Definition parsed_vars (img : list Z) : x509 := default no_vars (snd <$> cert_parse 0x1000 img no_vars).

(** A certificate with both counters. *)
Definition good_cert : list Z := cert_of (ext_of oid1 [2; 1; 5] ++ ext_of oid2 [2; 1; 6]).
Lemma good_cert_ok : cert_parse 0x1000 good_cert no_vars = Some (IMG_PARSER_OK, parsed_vars good_cert).
Proof. by vm_compute. Qed.
Lemma cert_parse_spec_witness : within 0x1000 (0x1000 + zlen good_cert) (tbs (parsed_vars good_cert)).
Proof.
  destruct (cert_parse_spec 0x1000 good_cert no_vars) as (rc & s' & E & H). rewrite good_cert_ok in E. injection E as <- <-.
  by destruct H as [?|(_ & ? & _)].
Defined.
Lemma good_exts : exts_at 0x1000 good_cert (0x1000 + 68) (0x1000 + 30) [(oid1, (0x1000 + 46, 3)); (oid2, (0x1000 + 65, 3))].
Proof.
  refine (exts_cons _ _ _ _ (0x1000 + 32) 17 (0x1000 + 34) 10 oid1 ERR_ASN1_UNEXPECTED_TAG (0x1000 + 44) (0x1000 + 46) 3 _ _ _ _ _ _ _ _); [by vm_compute..|].
  refine (exts_cons _ _ _ _ (0x1000 + 51) 17 (0x1000 + 53) 10 oid2 ERR_ASN1_UNEXPECTED_TAG (0x1000 + 63) (0x1000 + 65) 3 _ _ _ _ _ _ _ _); [by vm_compute..|].
  apply exts_nil.
Qed.
Lemma get_ext_spec_witness : get_ext 0x1000 good_cert (S (length good_cert)) (v3_ext (parsed_vars good_cert)) Cot.NON_TRUSTED_FW_NVCOUNTER_OID =
  Some (IMG_PARSER_OK, Some (0x1000 + 65, 3)).
Proof.
  exact (get_ext_spec 0x1000 good_cert (v3_ext (parsed_vars good_cert)) (0x1000 + 30) 38 _ Cot.NON_TRUSTED_FW_NVCOUNTER_OID
    ltac:(vm_compute; split; [discriminate|split; [reflexivity|discriminate]]) eq_refl good_exts).
Defined.

(** ** The integrity check does not check the nesting *)

(** The sequence of the extension ends with the identifier, before the octet string. *)
Definition short_cert (value : list Z) : list Z := cert_of ([SEQ; 12] ++ tlv ASN1_OID oid1 ++ tlv ASN1_OCTET_STRING value).
Definition overrun_cert : list Z := short_cert [].
Definition endless_cert : list Z := short_cert (replicate 10 7 ++ [SEQ; 0; 7; 7]).

(** One round of the loop of [get_ext]: the result, or the next [p] and [len]. *)
Definition ext_round (base : Z) (img : list Z) (oid : string) (p e len : Z) : option (Z * option (Z * Z) + Z * Z) :=
  if p <? e then
    '(_, p, len) ← mbedtls_asn1_get_tag base img p e len SEQ;
    let end_ext_data := p + len in
    region base img p 1;;
    '(_, p, oid_len) ← mbedtls_asn1_get_tag base img p e 0 ASN1_OID;
    extn_oid ← region base img p oid_len;
    '(_, p) ← mbedtls_asn1_get_bool base img (p + oid_len) end_ext_data;
    '(_, p, len) ← mbedtls_asn1_get_tag base img p end_ext_data len ASN1_OCTET_STRING;
    let '(oid_len, oid_str) := mbedtls_oid_get_numeric_string extn_oid in
    Some (if oid_len =? ERR_OID_BUF_TOO_SMALL then inl (IMG_PARSER_ERR, None)
          else if (oid_len =? Z.of_nat (String.length oid_str)) && bool_decide (oid = oid_str) then inl (IMG_PARSER_OK, Some (p, u32 len))
          else inr (p + len, len))
  else Some (inl (IMG_PARSER_ERR_NOT_FOUND, None)).
Lemma ext_loop_round base img fuel oid p e len p' len' : ext_round base img oid p e len = Some (inr (p', len')) ->
  ext_loop base img (S fuel) oid p e len = ext_loop base img fuel oid p' e len'.
Proof.
  unfold ext_round. cbn [ext_loop]. destruct (p <? e); [|done].
  destruct (mbedtls_asn1_get_tag base img p e len SEQ) as [[[? p1] n1]|]; cbn [mbind option_bind]; [|done].
  destruct (region base img p1 1); cbn [mbind option_bind]; [|done].
  destruct (mbedtls_asn1_get_tag base img p1 e 0 ASN1_OID) as [[[? p2] n2]|]; cbn [mbind option_bind]; [|done].
  destruct (region base img p2 n2) as [o|]; cbn [mbind option_bind]; [|done].
  destruct (mbedtls_asn1_get_bool base img (p2 + n2) (p1 + n1)) as [[? p3]|]; cbn [mbind option_bind]; [|done].
  destruct (mbedtls_asn1_get_tag base img p3 (p1 + n1) n1 ASN1_OCTET_STRING) as [[[? p4] n4]|]; cbn [mbind option_bind]; [|done].
  destruct (mbedtls_oid_get_numeric_string o) as [r s]. destruct (r =? ERR_OID_BUF_TOO_SMALL); [done|]. destruct (_ && _); [done|]. by intros [= <- <-].
Qed.

(** The comment at [get_ext] says that errors need no check since the image has passed the
    integrity check; but that check ignores the length of an extension.  Two certificates that pass:
    in the first, the value of the extension reaches beyond the end of the image; in the second, the loop
    comes back to the same place with the same length, so it never ends. *)
Example integrity_not_enough :
  (exists s, cert_parse 0x1000 overrun_cert no_vars = Some (IMG_PARSER_OK, s) /\
     exists p n, get_auth_param 0x1000 overrun_cert s (TypeDesc AUTH_PARAM_HASH (Some Cot.TRUSTED_FW_NVCOUNTER_OID)) = Some (IMG_PARSER_OK, Some (p, n)) /\
       0x1000 + zlen overrun_cert < p + n) /\
  (exists s p e, cert_parse 0x1000 endless_cert no_vars = Some (IMG_PARSER_OK, s) /\
     (forall fuel, get_ext 0x1000 endless_cert (2 + fuel) (v3_ext s) Cot.NON_TRUSTED_FW_NVCOUNTER_OID =
        ext_loop 0x1000 endless_cert fuel Cot.NON_TRUSTED_FW_NVCOUNTER_OID p e 0) /\
     (forall fuel, ext_loop 0x1000 endless_cert (S fuel) Cot.NON_TRUSTED_FW_NVCOUNTER_OID p e 0 =
        ext_loop 0x1000 endless_cert fuel Cot.NON_TRUSTED_FW_NVCOUNTER_OID p e 0)).
Proof.
  split.
  - exists (parsed_vars overrun_cert). split; [by vm_compute|]. exists (0x1000 + 44), 12. by vm_compute.
  - exists (parsed_vars endless_cert), (0x1000 + 58), (0x1000 + 60). split; [by vm_compute|].
    assert (ext_round 0x1000 endless_cert Cot.NON_TRUSTED_FW_NVCOUNTER_OID (0x1000 + 30) (0x1000 + 60) 30 = Some (inr (0x1000 + 56, 12))) as E1 by by vm_compute.
    assert (ext_round 0x1000 endless_cert Cot.NON_TRUSTED_FW_NVCOUNTER_OID (0x1000 + 56) (0x1000 + 60) 12 = Some (inr (0x1000 + 58, 0))) as E2 by by vm_compute.
    assert (ext_round 0x1000 endless_cert Cot.NON_TRUSTED_FW_NVCOUNTER_OID (0x1000 + 58) (0x1000 + 60) 0 = Some (inr (0x1000 + 58, 0))) as E3 by by vm_compute.
    split; intros fuel; [|exact (ext_loop_round _ _ _ _ _ _ _ _ _ E3)].
    rewrite <- (ext_loop_round _ _ _ _ _ _ _ _ _ E2), <- (ext_loop_round _ _ _ _ _ _ _ _ _ E1).
    assert (v3_ext (parsed_vars endless_cert) = (0x1000 + 28, 32)) as -> by by vm_compute. unfold get_ext.
    assert (mbedtls_asn1_get_tag 0x1000 endless_cert (0x1000 + 28) (0x1000 + 28 + 32) 0 SEQ = Some (0, 0x1000 + 30, 30)) as Et by by vm_compute.
    cbn [fst snd]. rewrite Et. done.
Qed.
End X509Spec.
