(* ===== verification/AuthProps.v ===== *)
(** * The authentication module: what its checks establish

    [view] is an image as its parser sees it
    once its integrity has been checked, and [vparam] a parameter of it; with these, what a
    successful run of each method means ([auth_hash_ok], [auth_signature_ok],
    [auth_nvctr_ok]) and what verifying an image changes ([verify_ok], [verify_changes]). *)

From Stdlib Require Import ZArith Lia.
From stdpp Require Import base option list numbers strings.
From S2P Require Import Prelude CMonad LoadImage Auth.
Import Auth.
Open Scope Z_scope.

Module AuthProps.

Section auth.
Context `{AuthLib} (cot : list auth_img_desc).

(** ** Images as their parsers see them *)
Section view.
Context (indices : list Z).
Record view := View { vtype : img_type; vptr : Z; vimg : list Z; vvars : pstate }.

Definition lib_of (t : img_type) : option (img_parser_lib_desc pstate) :=
  idx ← indices !! img_type_idx t;
  if idx =? INVALID_IDX then None else parser_lib_descs !! Z.to_nat idx.
(** The image has passed its integrity check, which left the variables of the parser as they are. *)
Definition parsed (w : view) : Prop :=
  vtype w <> IMG_RAW -> exists lib v, lib_of (vtype w) = Some lib /\ check_integrity lib v (vptr w) (vimg w) = Some (0, vvars w).
(** The reference the parser returns for a parameter, and its bytes. *)
Definition vref (w : view) (td : auth_param_type_desc) : option ref :=
  if decide (vtype w = IMG_RAW) then
    if decide (type td = AUTH_PARAM_RAW_DATA) then Some (InImg (vptr w) (zlen (vimg w))) else None
  else
    lib ← lib_of (vtype w);
    '(rc, r) ← get_auth_param lib (vvars w) td (vptr w) (vimg w);
    if rc =? 0 then (fun '(p, n) => InImg p n) <$> r else None.
Definition vparam (w : view) (td : auth_param_type_desc) : option (list Z) :=
  r ← vref w td; ref_bytes (vptr w) (vimg w) r.

(** The part of the state that parsing depends on. *)
Definition sees (w : view) (s : am) : Prop := parser_lib_indices s = indices /\ parser_vars s = vvars w.
End view.

Section methods.
Context (indices : list Z) (w : view) (d : auth_img_desc) (Hd : itype d = vtype w).
Local Abbreviation ptr_ := (vptr w).
Local Abbreviation img_ := (vimg w).

Lemma parser_of_ok t s : parser_lib_indices s = indices -> pc (parser_of t) (fun lib s' => s' = s /\ lib_of indices t = Some lib) s.
Proof.
  intros Hi. unfold parser_of. pc_run. split; [done|].
  unfold lib_of. rewrite <- Hi, E. cbn. apply negb_true_iff in E0. by rewrite E0.
Qed.
Lemma get_auth_param_ok td s : sees indices w s ->
  pc (img_parser_get_auth_param ptr_ img_ (itype d) td) (fun '(rc, r) s' => s' = s /\ (rc = 0 -> vref indices w td = r)) s.
Proof.
  intros [Hi Hv]. unfold img_parser_get_auth_param. pc_run. unfold vref. rewrite Hd. destruct (decide (vtype w = IMG_RAW)) as [Ht|Ht].
  - pc_run. split; [done|]. intros _. apply bool_decide_eq_true in E1. by rewrite decide_True.
  - pc_step. eapply pc_mono; [by apply parser_of_ok|]. intros lib s' [-> El]. pc_run. destruct x as [rc r]. pc_step.
    split; [done|]. intros ->. rewrite El. cbn. rewrite <- Hv, E1. done.
Qed.
Lemma not_empty_ok r s : pc (not_empty ptr_ img_ r) (fun l s' => s' = s /\ ref_bytes ptr_ img_ r = Some l) s.
Proof. unfold not_empty. pc_run. done. Qed.
Lemma crypto_hash_ok r1 r2 s : pc (crypto_mod_verify_hash ptr_ img_ r1 r2)
  (fun rc s' => s' = s /\ exists l1 l2, ref_bytes ptr_ img_ r1 = Some l1 /\ ref_bytes ptr_ img_ r2 = Some l2 /\ verify_hash l1 l2 = Some rc) s.
Proof.
  unfold crypto_mod_verify_hash. pc_step. eapply pc_mono; [apply not_empty_ok|]. intros l1 ? [-> E1].
  pc_step. eapply pc_mono; [apply not_empty_ok|]. intros l2 ? [-> E2]. pc_step. eauto 6.
Qed.
Lemma crypto_sig_ok r1 r2 r3 r4 s : pc (crypto_mod_verify_signature ptr_ img_ r1 r2 r3 r4)
  (fun rc s' => s' = s /\ exists l1 l2 l3 l4, ref_bytes ptr_ img_ r1 = Some l1 /\ ref_bytes ptr_ img_ r2 = Some l2 /\
     ref_bytes ptr_ img_ r3 = Some l3 /\ ref_bytes ptr_ img_ r4 = Some l4 /\ verify_signature l1 l2 l3 l4 = Some rc) s.
Proof.
  unfold crypto_mod_verify_signature. pc_step. eapply pc_mono; [apply not_empty_ok|]. intros l1 ? [-> E1].
  pc_step. eapply pc_mono; [apply not_empty_ok|]. intros l2 ? [-> E2]. pc_step. eapply pc_mono; [apply not_empty_ok|]. intros l3 ? [-> E3].
  pc_step. eapply pc_mono; [apply not_empty_ok|]. intros l4 ? [-> E4]. pc_step. split; [done|]. by exists l1, l2, l3, l4.
Qed.

(** The entry of a certificate that has the parameter [td]. *)
Fixpoint entry_of (td : auth_param_type_desc) (entries : list (option auth_param_desc)) : option auth_param_desc :=
  match entries with
  | [] | None :: _ => None
  | Some e :: entries => if decide (td = type_desc e) then Some e else entry_of td entries
  end.
Lemma cmp_eq a b : (cmp_auth_param_type_desc a b =? 0) = bool_decide (a = b).
Proof.
  unfold cmp_auth_param_type_desc. destruct a, b. cbn. destruct (decide _) as [[-> ->]|Hn]; [by rewrite bool_decide_eq_true_2|].
  rewrite bool_decide_eq_false_2; [done|]. intros [= -> ->]. tauto.
Qed.
(** The contents of the buffer where a parent keeps a parameter. *)
Definition kept (s : am) (p : Z) (td : auth_param_type_desc) (l : list Z) : Prop :=
  exists pd e, cot !! Z.to_nat p = Some pd /\ 0 <= p /\ entry_of td (authenticated_data pd) = Some e /\
    len e <= zlen (bufs s (ptr e)) /\ l = take (Z.to_nat (len e)) (bufs s (ptr e)).
Lemma get_param_ok td p s : pc (auth_get_param cot td (Some p))
  (fun '(rc, r) s' => s' = s /\ (rc = 0 -> exists l, r = Some (Other l) /\ kept s p td l)) s.
Proof.
  unfold auth_get_param, cot_desc_at. pc_run. injection E as <-. destruct (Z.ltb_spec p 0); [done|].
  assert (forall es, (forall e, entry_of td es = Some e -> entry_of td (authenticated_data x0) = Some e) ->
    pc (get_param_loop td es) (fun '(rc, r) s' => s' = s /\ (rc = 0 -> exists l, r = Some (Other l) /\ kept s p td l)) s) as Hl; [|by apply Hl].
  induction es as [|[e|] es IH]; intros He; cbn [get_param_loop].
  - pc_step. split; [done|]. done.
  - rewrite cmp_eq. cbn [entry_of] in He. destruct (decide (td = type_desc e)) as [Et|Et].
    + rewrite bool_decide_eq_true_2 by done. pc_run. split; [done|]. intros _. eexists. split; [done|]. exists x0, e.
      apply Z.leb_le in E. auto 10.
    + rewrite bool_decide_eq_false_2 by done. by apply IH.
  - by intros ? ? ?.
Qed.

(** ** What the methods check *)
Definition hash_ok (data : auth_param_type_desc) (digest : list Z) : Prop :=
  exists l, vparam indices w data = Some l /\ verify_hash l digest = Some 0.
Definition sig_ok (sig alg data : auth_param_type_desc) (key : list Z) : Prop :=
  exists D S A, vparam indices w data = Some D /\ vparam indices w sig = Some S /\ vparam indices w alg = Some A /\
    verify_signature D S A key = Some 0.
(** By the root key [key], or a key with the hash [key]. *)
Definition root_ok (pk sig alg data : auth_param_type_desc) (key : list Z) (flags : Z) : Prop :=
  if Z.land flags 3 =? 0 then sig_ok sig alg data key
  else exists k, vparam indices w pk = Some k /\ sig_ok sig alg data k /\
         (Z.land flags ROTPK_NOT_DEPLOYED = 0 -> verify_hash k key = Some 0).
Definition method_ok (s : am) (m : auth_method_desc) : Prop :=
  match m with
  | AUTH_METHOD_NONE | AUTH_METHOD_NV_CTR _ _ => True
  | AUTH_METHOD_HASH data hash => exists p l, parent d = Some p /\ kept s p hash l /\ hash_ok data l
  | AUTH_METHOD_SIG pk sig alg data =>
      match parent d with
      | Some p => exists l, kept s p pk l /\ sig_ok sig alg data l
      | None => exists key flags, plat_get_rotpk_info (plat s) (cookie pk) = Some (0, key, flags) /\ root_ok pk sig alg data key flags
      end
  end.

Lemma vparam_of td r l : vref indices w td = Some r -> ref_bytes ptr_ img_ r = Some l -> vparam indices w td = Some l.
Proof. intros E1 E2. unfold vparam. by rewrite E1. Qed.
Lemma auth_hash_ok data hash s : sees indices w s ->
  pc (auth_hash cot ptr_ img_ data hash d) (fun rc s' => s' = s /\ (rc = 0 -> method_ok s (AUTH_METHOD_HASH data hash))) s.
Proof.
  intros Hs. unfold auth_hash. destruct (parent d) as [p|] eqn:Ep; [|by intros ? ? ?].
  pc_step. eapply pc_mono; [apply get_param_ok|]. intros [rc h] s' [-> Hh]. pc_if; [|by pc_run].
  pc_step. eapply pc_mono; [by apply get_auth_param_ok|]. intros [rc' r] s' [-> Hr]. pc_if; [|by pc_run].
  destruct (Hh Hrc) as (l & -> & Hk). pc_run. injection E as <-. specialize (Hr Hrc0). subst r.
  eapply pc_mono; [apply crypto_hash_ok|]. intros rc2 s' (-> & l1 & l2 & E1 & E2 & E3). split; [done|]. intros ->.
  cbn [method_ok]. injection E2 as <-. exists p, l. split; [done|]. split; [done|]. exists l1. split; [|done]. by eapply vparam_of.
Qed.
Lemma auth_signature_ok pk sig alg data s : sees indices w s ->
  pc (auth_signature cot ptr_ img_ pk sig alg data d) (fun rc s' => s' = s /\ (rc = 0 -> method_ok s (AUTH_METHOD_SIG pk sig alg data))) s.
Proof.
  intros Hs. unfold auth_signature.
  pc_step. eapply pc_mono; [by apply get_auth_param_ok|]. intros [rc rd] ? [-> Hrd]. pc_if; [|by pc_run].
  pc_step. eapply pc_mono; [by apply get_auth_param_ok|]. intros [rc1 rs] ? [-> Hrs]. pc_if; [|by pc_run].
  pc_step. eapply pc_mono; [by apply get_auth_param_ok|]. intros [rc2 ra] ? [-> Hra]. pc_if; [|by pc_run].
  specialize (Hrd Hrc). specialize (Hrs Hrc0). specialize (Hra Hrc1). pc_step.
  apply (pc_mono _ (fun '(rc, r, flags) s' => s' = s /\ (rc = 0 -> exists l, r = Some (Other l) /\
    match parent d with Some p => kept s p pk l /\ flags = 0 | None => plat_get_rotpk_info (plat s) (cookie pk) = Some (0, l, flags) end))).
  { destruct (parent d) as [p|].
    - pc_step. eapply pc_mono; [apply get_param_ok|]. intros [rc3 r] ? [-> Hr]. pc_step. split; [done|].
      intros ->. destruct (Hr eq_refl) as (l & -> & Hk). eauto.
    - pc_run. destruct x as [[rc3 key] flags]. pc_step. split; [done|]. intros ->. eauto. }
  intros [[rc3 rp] flags] ? [-> Hp]. pc_if; [|by pc_run]. destruct (Hp Hrc2) as (key & -> & Hk). clear Hp.
  pc_run. subst. injection E2 as <-. assert (forall r rc, (exists l1 l2 l3 l4, ref_bytes ptr_ img_ x = Some l1 /\
    ref_bytes ptr_ img_ x0 = Some l2 /\ ref_bytes ptr_ img_ x1 = Some l3 /\ ref_bytes ptr_ img_ r = Some l4 /\
    verify_signature l1 l2 l3 l4 = Some rc) -> rc = 0 -> forall l, ref_bytes ptr_ img_ r = Some l -> sig_ok sig alg data l) as Hsig.
  { intros r rc (l1 & l2 & l3 & l4 & F1 & F2 & F3 & F4 & F5) -> l Fl. exists l1, l2, l3. rewrite Fl in F4. injection F4 as ->.
    split_and!; [by eapply vparam_of..|done]. }
  change (Z.lor ROTPK_IS_HASH ROTPK_NOT_DEPLOYED) with 3. pc_if.
  - eapply pc_mono; [apply crypto_sig_ok|]. intros rc ? [-> F]. split; [done|]. intros ->. cbn [method_ok].
    assert (sig_ok sig alg data key) as Hso by by eapply Hsig.
    destruct (parent d) as [p|]; [destruct Hk; eauto|]. exists key, flags. split; [done|]. unfold root_ok. by rewrite Hrc.
  - pc_step. eapply pc_mono; [by apply get_auth_param_ok|]. intros [rc rk] ? [-> Hrk]. pc_if; [|by pc_run].
    specialize (Hrk Hrc0). subst rc. pc_run. subst rk. eapply pc_mono; [apply crypto_sig_ok|]. intros rc ? [-> F].
    pc_if; [|by pc_run]. assert (exists k, ref_bytes ptr_ img_ x2 = Some k) as [k Ek] by (destruct F as (? & ? & ? & ? & _ & _ & _ & ? & _); eauto).
    assert (sig_ok sig alg data k) as Hso by by eapply Hsig.
    destruct (parent d) as [p|] eqn:Ep; [destruct Hk as [_ ->]; by destruct Hrc|].
    assert (vparam indices w pk = Some k) as Hvk by by eapply vparam_of.
    pc_if.
    + eapply pc_mono; [apply crypto_hash_ok|]. intros rc' ? (-> & l1 & l2 & F1 & F2 & F3). split; [done|]. intros ->. cbn [method_ok]. rewrite Ep.
      rewrite Ek in F1. injection F1 as <-. injection F2 as <-. exists key, flags. split; [done|]. unfold root_ok. rewrite (proj2 (Z.eqb_neq _ _) Hrc). eauto.
    + pc_step. split; [done|]. intros _. cbn [method_ok]. rewrite Ep. exists key, flags. split; [done|]. unfold root_ok.
      rewrite (proj2 (Z.eqb_neq _ _) Hrc). exists k. split; [done|]. split; [done|]. done.
Qed.

(** ** Counters *)
Definition vnv (td : auth_param_type_desc) : option Z :=
  r ← vref indices w td; c ← nv_ctr_parse ptr_ img_ r; c.
Definition only_plat (s s' : am) : Prop := s' = set_plat (plat s') s.
(** The counter of the certificate is at least that of the platform, and equal below the root; the
    platform's counter has been set to it where it is larger. *)
Definition nv_ok (s s' : am) (c p : auth_param_type_desc) : Prop :=
  exists cert cur, vnv c = Some cert /\ plat_get_nv_ctr (plat s) (cookie p) = Some (0, cur) /\ cur <= cert /\
    (cur = cert -> plat s' = plat s) /\ (cur < cert -> parent d = None /\ plat_set_nv_ctr (plat s) (cookie p) cert = Some (0, plat s')).
(** A change to the platform comes from a certificate of the root with a larger counter. *)
Definition nv_change (s s' : am) (c p : auth_param_type_desc) : Prop :=
  plat s' = plat s \/ exists cert cur rc, parent d = None /\ vnv c = Some cert /\ plat_get_nv_ctr (plat s) (cookie p) = Some (0, cur) /\
    cur < cert /\ plat_set_nv_ctr (plat s) (cookie p) cert = Some (rc, plat s').
Lemma auth_nvctr_ok c p s : sees indices w s ->
  pc (auth_nvctr ptr_ img_ c p d) (fun rc s' => only_plat s s' /\ nv_change s s' c p /\ (rc = 0 -> nv_ok s s' c p)) s.
Proof.
  intros Hs. assert (only_plat s s) as Hsame by by destruct s. assert (nv_change s s c p) as Hno by by left.
  unfold auth_nvctr. pc_step. eapply pc_mono; [by apply get_auth_param_ok|]. intros [rc r] ? [-> Hr]. pc_if; [|by pc_run].
  specialize (Hr Hrc). pc_run. subst r. assert (vnv c = x0) as Hv by (unfold vnv; rewrite E; cbn; by rewrite E1).
  destruct x0 as [cert|]; [|by pc_run]. pc_run. destruct x0 as [rc1 cur]. cbn iota. pc_if; [|by pc_run]. subst rc1.
  destruct (Z.ltb_spec cert cur) as [Hlt|Hge]; [by pc_run|]. destruct (Z.ltb_spec cur cert) as [Hgt|Hle].
  - destruct (parent d) as [?|] eqn:Ep; [by pc_run|]. pc_run. destruct x0 as [rc2 pl]. pc_run. cbn [plat set_plat].
    split; [done|]. split; [right; by exists cert, cur, rc2|]. intros ->. exists cert, cur. split_and!; try done; lia.
  - pc_run. split; [done|]. split; [done|]. intros _. exists cert, cur. split_and!; try done. lia.
Qed.

(** ** All methods, the copies, and the whole *)
Context (rotpk_kept : forall pl oid n rc pl', plat_set_nv_ctr pl oid n = Some (rc, pl') -> plat_get_rotpk_info pl' = plat_get_rotpk_info pl).
Lemma method_ok_plat s s' m : only_plat s s' -> plat_get_rotpk_info (plat s') = plat_get_rotpk_info (plat s) -> method_ok s' m <-> method_ok s m.
Proof.
  intros -> Hr. cbn [plat set_plat] in Hr. unfold method_ok, kept. cbn [plat set_plat bufs]. by rewrite Hr.
Qed.
Lemma only_plat_trans s1 s2 s3 : only_plat s1 s2 -> only_plat s2 s3 -> only_plat s1 s3.
Proof. unfold only_plat. intros -> ->. done. Qed.
(** The changes of the platform's counters by some ([full = false]) or all of the methods. *)
Inductive counters (full : bool) : list auth_method_desc -> am -> am -> Prop :=
| counters_nil s : counters full [] s s
| counters_stop c p ms s s' : full = false -> only_plat s s' -> nv_change s s' c p -> counters full (AUTH_METHOD_NV_CTR c p :: ms) s s'
| counters_fail m ms s : full = false -> counters full (m :: ms) s s
| counters_nv c p ms s s1 s' : only_plat s s1 -> nv_ok s s1 c p -> counters full ms s1 s' -> counters full (AUTH_METHOD_NV_CTR c p :: ms) s s'
| counters_other m ms s s' : match m with AUTH_METHOD_NV_CTR _ _ => False | _ => True end -> counters full ms s s' -> counters full (m :: ms) s s'.
Lemma counters_weaken full ms s s' : counters true ms s s' -> counters full ms s s'.
Proof. induction 1; try done; [constructor|by eapply counters_nv|by constructor]. Qed.
Lemma nv_rotpk s s' c p : nv_change s s' c p -> plat_get_rotpk_info (plat s') = plat_get_rotpk_info (plat s).
Proof. intros [->|(cert & cur & rc & _ & _ & _ & _ & E)]; [done|]. by eapply rotpk_kept. Qed.
Lemma auth_methods_ok ms : forall s, sees indices w s ->
  pc (auth_methods cot ptr_ img_ ms d) (fun rc s' => only_plat s s' /\ counters (rc =? 0) ms s s' /\
    plat_get_rotpk_info (plat s') = plat_get_rotpk_info (plat s) /\ (rc = 0 -> Forall (method_ok s) ms)) s.
Proof.
  induction ms as [|m ms IH]; intros s Hs; cbn [auth_methods]; [by pc_run; split_and!; [destruct s|constructor|..]|].
  assert (pc (auth_method cot ptr_ img_ m d) (fun rc s1 => only_plat s s1 /\
    plat_get_rotpk_info (plat s1) = plat_get_rotpk_info (plat s) /\ (rc = 0 -> method_ok s m) /\
    counters false (m :: ms) s s1 /\ (rc = 0 -> forall b s', counters b ms s1 s' -> counters b (m :: ms) s s')) s) as Hm.
  { assert (only_plat s s) as Hsame by by destruct s. destruct m as [|data hash|pk sig alg data|c p]; cbn [auth_method].
    - pc_run. split_and!; try done; by constructor.
    - eapply pc_mono; [by apply auth_hash_ok|]. intros rc ? [-> Hok]. split_and!; try done; by constructor.
    - eapply pc_mono; [by apply auth_signature_ok|]. intros rc ? [-> Hok]. split_and!; try done; by constructor.
    - eapply pc_mono; [by apply auth_nvctr_ok|]. intros rc s1 (H1 & H2 & H3). split_and!; try done; [by eapply nv_rotpk|by apply counters_stop|].
      intros Hrc b s' Hc. eapply counters_nv; eauto. }
  pc_step. eapply pc_mono; [exact Hm|]. intros rc s1 (H1 & H2 & H3 & H4 & H5). pc_if.
  2: { pc_run. by rewrite (proj2 (Z.eqb_neq _ _) Hrc). }
  eapply pc_mono; [apply IH|].
  { rewrite H1. exact Hs. }
  intros rc' s' (G1 & G2 & G3 & G4). split; [by eapply only_plat_trans|]. split; [by apply H5|]. split; [congruence|]. intros Hz. constructor; [by apply H3|].
  eapply Forall_impl; [by apply G4|]. intros m' Hm'. by apply (method_ok_plat s s1).
Qed.

(** The buffers after some ([full = false]) or all of the parameters have been copied. *)
Inductive copies (full : bool) : list (option auth_param_desc) -> (auth_buf -> list Z) -> (auth_buf -> list Z) -> Prop :=
| copies_nil bs : copies full [] bs bs
| copies_stop es bs : full = false -> copies full es bs bs
| copies_none es bs bs' : copies full es bs bs' -> copies full (None :: es) bs bs'
| copies_some e l es bs bs' : vparam indices w (type_desc e) = Some l -> zlen l <= len e -> zlen l <= zlen (bs (ptr e)) ->
    copies full es (fun b => if decide (b = ptr e) then l ++ drop (length l) (bs (ptr e)) else bs b) bs' ->
    copies full (Some e :: es) bs bs'.
Definition only_bufs (s s' : am) : Prop := s' = set_bufs (bufs s') s.
Lemma ref_bytes_len r l : ref_bytes ptr_ img_ r = Some l -> zlen l = ref_len r.
Proof.
  destruct r as [p n|l']; cbn; [|by intros [= ->]]. destruct (_ && _) eqn:E; [|done]. intros [= <-].
  apply andb_true_iff in E as [[E1 E2]%andb_true_iff E3]. apply Z.leb_le in E1, E2, E3. rewrite slice_length; lia.
Qed.
Lemma extract_ok es : forall s, sees indices w s ->
  pc (extract_params ptr_ img_ es d) (fun rc s' => only_bufs s s' /\ copies (rc =? 0) es (bufs s) (bufs s')) s.
Proof.
  induction es as [|[e|] es IH]; intros s Hs; cbn [extract_params].
  - pc_run. split; [by destruct s|constructor].
  - pc_step. eapply pc_mono; [by apply get_auth_param_ok|]. intros [rc r] ? [-> Hr]. pc_if.
    2: { pc_run. split; [by destruct s|]. rewrite (proj2 (Z.eqb_neq _ _) Hrc). by constructor. }
    specialize (Hr Hrc). pc_step. pc_step. subst r. destruct (Z.ltb_spec (len e) (ref_len x)) as [Hlt|Hge].
    { pc_run. split; [by destruct s|]. by constructor. }
    pc_run. apply Z.leb_le in E1. pose proof (ref_bytes_len _ _ E0) as Hl.
    eapply pc_mono; [by apply IH|]. intros rc' s' [-> Hc]. cbn [bufs set_bufs] in *. split; [done|].
    eapply copies_some; [by eapply vparam_of|lia|done|exact Hc].
  - eapply pc_mono; [by apply IH|]. intros rc s' [H1 H2]. split; [done|]. by constructor.
Qed.
End methods.

Section verify.
Context (indices : list Z) (rotpk_kept : forall pl oid n rc pl', plat_set_nv_ctr pl oid n = Some (rc, pl') -> plat_get_rotpk_info pl' = plat_get_rotpk_info pl).
Lemma check_integrity_ok t ptr img s : parser_lib_indices s = indices ->
  pc (img_parser_check_integrity ptr img t) (fun rc s' => let w := View t ptr img (parser_vars s') in
    s' = set_parser_vars (parser_vars s') s /\ (rc = 0 -> parsed indices w) /\ sees indices w s') s.
Proof.
  intros Hi. unfold img_parser_check_integrity. pc_run. destruct (decide (t = IMG_RAW)) as [->|Ht].
  - pc_run. cbn. split; [by destruct s|]. split; [intros _ Hn; cbn in Hn; by destruct Hn|done].
  - pc_step. eapply pc_mono; [by apply parser_of_ok|]. intros lib ? [-> El]. pc_run. destruct x as [rc v]. pc_run. cbn.
    split; [done|]. split; [|done]. intros -> _. cbn. exists lib, (parser_vars s). split; [done|exact E1].
Qed.
(** Verifying an image: every change comes from the image, once its methods have succeeded. *)
Lemma verify_ok id ptr img s : parser_lib_indices s = indices ->
  pc (auth_mod_verify_img cot ptr img id) (fun rc s' => exists d w, 0 <= id /\ cot !! Z.to_nat id = Some d /\
    w = View (itype d) ptr img (parser_vars s') /\ parser_lib_indices s' = indices /\
    plat_get_rotpk_info (plat s') = plat_get_rotpk_info (plat s) /\
    (exists s1 s2, plat s1 = plat s /\ plat s2 = plat s' /\ counters indices w d (rc =? 0) (img_auth_methods d) s1 s2) /\
    (if rc =? 0 then exists v, auth_img_flags s !! Z.to_nat (img_id d) = Some v /\
       auth_img_flags s' = <[Z.to_nat (img_id d) := Z.lor v IMG_FLAG_AUTHENTICATED]> (auth_img_flags s)
     else auth_img_flags s' = auth_img_flags s) /\
    (rc <> 0 /\ bufs s' = bufs s \/
     parsed indices w /\ Forall (method_ok indices w d s) (img_auth_methods d) /\
     copies indices w (rc =? 0) (authenticated_data d) (bufs s) (bufs s'))) s.
Proof.
  intros Hi. unfold auth_mod_verify_img, cot_desc_at. pc_run. destruct (Z.ltb_spec id 0); [done|].
  eapply pc_mono; [by apply check_integrity_ok|]. intros rc s1 (H1 & H2 & H3). set (w := View _ _ _ _) in *.
  assert (parser_lib_indices s1 = indices /\ plat s1 = plat s /\ bufs s1 = bufs s /\ auth_img_flags s1 = auth_img_flags s) as (J1 & J2 & J3 & J4)
    by (rewrite H1; by cbn). pc_if.
  2: { pc_run. exists x, w. rewrite (proj2 (Z.eqb_neq _ _) Hrc), J2. split_and!; try done; [|by left].
    exists s, s. split; [done|]. split; [done|]. destruct (img_auth_methods x); by constructor. }
  specialize (H2 Hrc). pc_step. eapply pc_mono; [by apply (auth_methods_ok indices w x eq_refl rotpk_kept)|].
  intros rc1 s2 (G1 & G2 & G3 & G4). assert (parser_vars s2 = parser_vars s1 /\ parser_lib_indices s2 = indices /\ bufs s2 = bufs s /\
    auth_img_flags s2 = auth_img_flags s /\ plat s1 = plat s) as (F1 & F2 & F3 & F4 & F5).
  { rewrite G1. cbn. rewrite H1. by cbn. }
  assert (exists a b, plat a = plat s /\ plat b = plat s2 /\ counters indices w x (rc1 =? 0) (img_auth_methods x) a b) as Hc by (by exists s1, s2).
  rewrite F5 in G3. pc_if.
  2: { pc_run. exists x, w. rewrite (proj2 (Z.eqb_neq _ _) Hrc0) in *. split_and!; try done; [by rewrite F1|by left]. }
  assert (forall b, exists s1 s2', plat s1 = plat s /\ plat s2' = plat s2 /\ counters indices w x b (img_auth_methods x) s1 s2') as Hc'.
  { subst rc1. destruct Hc as (a & b & ? & ? & ?). intros full. exists a, b. eauto using counters_weaken. }
  assert (Forall (method_ok indices w x s) (img_auth_methods x)) as Hm.
  { eapply Forall_impl; [by apply G4|]. intros m. unfold method_ok, kept. rewrite F5.
    assert (bufs s1 = bufs s) as -> by (by rewrite H1). done. }
  pc_step. eapply pc_mono; [apply (extract_ok indices w x eq_refl)|].
  { split; [done|]. by rewrite F1. }
  intros rc2 s3 [E1 E2]. assert (parser_vars s3 = parser_vars s1 /\ parser_lib_indices s3 = indices /\
    auth_img_flags s3 = auth_img_flags s /\ plat s3 = plat s2) as (K1 & K2 & K3 & K4).
  { rewrite E1. by cbn. }
  rewrite F3 in E2. pc_if.
  - subst rc2. unfold set_authenticated. pc_run. exists x, w. cbn [plat auth_img_flags bufs set_flags parser_lib_indices parser_vars Z.eqb].
    rewrite K4, K3 in *. split_and!; try done; [by rewrite K1|by exists x0|by right].
  - pc_run. exists x, w. rewrite (proj2 (Z.eqb_neq _ _) Hrc1) in *. rewrite K4. split_and!; try done; [by rewrite K1|by right].
Qed.
End verify.
End auth.
End AuthProps.
