(* ===== verification/AuthSpec.v ===== *)
(** * Authentication: the theorems

    For the chain of trust of [Cot]: whatever images are presented in whatever order, an image
    is only accepted along a chain of signatures and hashes from the root key
    ([auth_chain_rooted]); loading an image with its parents checks exactly the certificates
    above it ([load_auth_chain]); counters never go back ([nv_counters_monotone]); no NULL
    pointer or buffer overrun is reached ([auth_verify_defined]). *)

From Stdlib Require Import ZArith Lia.
From stdpp Require Import base option list numbers strings relations.
From S2P Require Import Prelude CMonad BlFwu Io LoadImage LoadSpec Auth AuthCot AuthProps.
Import Auth AuthProps.
Open Scope Z_scope.

Module AuthSpec.

(** What is assumed of the libraries: setting a counter leaves the root key as it is; a
    digest or a key of zero bytes verifies nothing. *)
Class AuthLaws `{AuthLib} := {
  rotpk_kept pl oid n rc pl' : plat_set_nv_ctr pl oid n = Some (rc, pl') -> plat_get_rotpk_info pl' = plat_get_rotpk_info pl;
  blank_digest l : verify_hash l (Cot.init_bufs tb_fw_hash_buf) <> Some 0;
  blank_key D S A : verify_signature D S A (Cot.init_bufs content_pk_buf) <> Some 0
}.

Section chain.
Context `{AuthLib} (cot : list auth_img_desc) (indices : list Z) (rotpk : option string -> option (Z * list Z * Z)).

(** The parameter of the parent that a method uses, and what the method checks with its value. *)
Definition needs (m : auth_method_desc) : option auth_param_type_desc :=
  match m with AUTH_METHOD_HASH _ h => Some h | AUTH_METHOD_SIG pk _ _ _ => Some pk | _ => None end.
Definition checks (w : view) (m : auth_method_desc) (value : list Z) : Prop :=
  match m with
  | AUTH_METHOD_HASH data _ => hash_ok indices w data value
  | AUTH_METHOD_SIG _ sig alg data => sig_ok indices w sig alg data value
  | _ => False
  end.
(** The buffer in which the parent [p] keeps the parameter [td]. *)
Definition kept_in (p : Z) (td : auth_param_type_desc) : option auth_param_desc :=
  pd ← cot !! Z.to_nat p; entry_of td (authenticated_data pd).
(** [value] starts with a parameter of the certificate [w], which is copied to the buffer [b]. *)
Definition provides (w : view) (id : Z) (b : auth_buf) (value : list Z) : Prop :=
  exists d e l tail, cot !! Z.to_nat id = Some d /\ Some e ∈ authenticated_data d /\ ptr e = b /\
    vparam indices w (type_desc e) = Some l /\ value = l ++ tail.

Definition root_signed (w : view) (d : auth_img_desc) : Prop :=
  parent d = None /\ exists pk sig alg data key flags, AUTH_METHOD_SIG pk sig alg data ∈ img_auth_methods d /\
    rotpk (cookie pk) = Some (0, key, flags) /\ root_ok indices w pk sig alg data key flags.

(** There is a chain of checks from the root key to the image: it is signed with the root key, or
    with a key, or has a hash, that some genuine certificate put in the buffer
    for the parent's parameter. *)
Inductive genuine : view -> Z -> Prop :=
| genuine_root w id d : cot !! Z.to_nat id = Some d -> itype d = vtype w -> parsed indices w -> root_signed w d -> genuine w id
| genuine_child w id d m td p e value w' id' :
    cot !! Z.to_nat id = Some d -> itype d = vtype w -> parsed indices w ->
    parent d = Some p -> m ∈ img_auth_methods d -> needs m = Some td -> kept_in p td = Some e ->
    genuine w' id' -> provides w' id' (ptr e) value -> checks w m value -> genuine w id.

(** The same, where each parameter is that of the certificate named as the parent. *)
Inductive chained : view -> Z -> Prop :=
| chained_root w id d : cot !! Z.to_nat id = Some d -> itype d = vtype w -> parsed indices w -> root_signed w d -> chained w id
| chained_child w id d m td p w' value tail :
    cot !! Z.to_nat id = Some d -> itype d = vtype w -> parsed indices w ->
    parent d = Some p -> m ∈ img_auth_methods d -> needs m = Some td ->
    chained w' p -> vparam indices w' td = Some value -> checks w m (value ++ tail) -> chained w id.
End chain.

(** ** The chain of [Cot] *)
Import Cot.
Definition checked_ids : list Z := [1; 2; 3; 4; 5; 6; 7; 8; 9; 10; 11; 12; 13; 14; 15; 17; 18; 19; 20].
(** What the proofs use of it, decided by evaluation: a method other than a counter for every image
    that is not empty; parameters of parents that exist; lengths that are those of the
    buffers; no buffer twice in a certificate; no parameters without checks. *)
Definition method_wf (d : auth_img_desc) (m : auth_method_desc) : bool :=
  match needs m, parent d with
  | Some td, Some p =>
      match kept_in cot_desc p td with
      | Some e => buf_len (ptr e) =? match m with AUTH_METHOD_HASH _ _ => HASH_DER_LEN | _ => PK_DER_LEN end
      | None => false
      end
  | Some _, None => match m with AUTH_METHOD_SIG _ _ _ _ => true | _ => false end
  | None, _ => true
  end.
Definition entries (d : auth_img_desc) : list auth_param_desc := omap id (authenticated_data d).
Definition desc_wf (i : nat) (d : auth_img_desc) : bool :=
  bool_decide (img_id d = (if decide (Z.of_nat i ∈ checked_ids) then Z.of_nat i else 0)) &&
  forallb (method_wf d) (img_auth_methods d) &&
  forallb (fun e => len e =? buf_len (ptr e)) (entries d) &&
  bool_decide (NoDup (ptr <$> entries d)) &&
  (if decide (Z.of_nat i ∈ checked_ids) then existsb (fun m => bool_decide (is_Some (needs m))) (img_auth_methods d)
   else bool_decide (entries d = []) && bool_decide (parent d = None)).
#[global] Instance auth_param_desc_eq_dec : EqDecision auth_param_desc.
Proof. solve_decision. Defined.
Lemma cot_wf : forall i d, cot_desc !! i = Some d -> desc_wf i d = true.
Proof.
  assert (forallb (fun '(i, d) => desc_wf i d) (imap pair cot_desc) = true) as Hf by by vm_compute.
  rewrite forallb_forall in Hf. intros i d Hd. apply (Hf (i, d)), list_elem_of_In, list_elem_of_lookup.
  exists i. by rewrite list_lookup_imap, Hd.
Qed.

Lemma entry_of_elem td es e : entry_of td es = Some e -> Some e ∈ es /\ type_desc e = td.
Proof.
  induction es as [|[e'|] es IH]; cbn [entry_of]; [done| |done]. destruct (decide (td = type_desc e')) as [->|Hn].
  - intros [= ->]. split; [constructor|done].
  - intros [? ?]%IH. split; [by constructor|done].
Qed.
Lemma elem_entries d e : Some e ∈ authenticated_data d <-> e ∈ entries d.
Proof. unfold entries. rewrite list_elem_of_omap. split; [intros; by exists (Some e)|]. intros (x & Hx & E). by rewrite <- E. Qed.

Section facts.
Context (i : nat) (d : auth_img_desc) (Hd : cot_desc !! i = Some d).
Lemma wf_parts : img_id d = (if decide (Z.of_nat i ∈ checked_ids) then Z.of_nat i else 0) /\
  Forall (fun m => method_wf d m = true) (img_auth_methods d) /\ Forall (fun e => len e = buf_len (ptr e)) (entries d) /\
  NoDup (ptr <$> entries d) /\
  (Z.of_nat i ∈ checked_ids -> exists m td, m ∈ img_auth_methods d /\ needs m = Some td) /\
  (Z.of_nat i ∉ checked_ids -> entries d = [] /\ parent d = None).
Proof.
  pose proof (cot_wf _ _ Hd) as Hw. unfold desc_wf in Hw. rewrite !andb_true_iff in Hw. destruct Hw as ((((H1 & H2) & H3) & H4) & H5).
  split; [by apply bool_decide_eq_true in H1|]. split.
  { rewrite Forall_forall. intros m Hm. rewrite forallb_forall in H2. by apply H2, list_elem_of_In. }
  split.
  { rewrite Forall_forall. intros e He. rewrite forallb_forall in H3. apply Z.eqb_eq, H3. by apply list_elem_of_In. }
  split; [by apply bool_decide_eq_true in H4|]. destruct (decide _) as [Hc|Hc]; split; try done.
  - intros _. apply existsb_exists in H5 as (m & Hm & [td Ht]%bool_decide_eq_true). exists m, td. split; [by apply list_elem_of_In|done].
  - intros _. apply andb_true_iff in H5 as [?%bool_decide_eq_true ?%bool_decide_eq_true]. done.
Qed.
End facts.

Section run.
Context `{AuthLaws} (indices : list Z) (rotpk : option string -> option (Z * list Z * Z)).
Local Abbreviation genuine := (genuine cot_desc indices rotpk).
Local Abbreviation chained := (chained cot_desc indices rotpk).
Local Abbreviation provides := (provides cot_desc indices).

(** A buffer is as it was at first, or a genuine certificate has written it. *)
Definition buf_ok (b : auth_buf) (l : list Z) : Prop :=
  zlen l = buf_len b /\ (l = init_bufs b \/ exists w id, genuine w id /\ provides w id b l).
Definition inv (s : am) : Prop :=
  parser_lib_indices s = indices /\ plat_get_rotpk_info (plat s) = rotpk /\ forall b, buf_ok b (bufs s b).

Lemma blank_fails w m td b : needs m = Some td -> buf_len b = match m with AUTH_METHOD_HASH _ _ => HASH_DER_LEN | _ => PK_DER_LEN end ->
  ~ checks indices w m (init_bufs b).
Proof.
  intros Hn Hb. unfold init_bufs. rewrite Hb. destruct m; try done; cbn.
  - intros (l & _ & Hv). by apply (blank_digest l).
  - intros (D & S & A & _ & _ & _ & Hv). by apply (blank_key D S A).
Qed.
(** The value a method of a child uses, and where it is from. *)
Lemma method_child w d i m td s : cot_desc !! i = Some d -> m ∈ img_auth_methods d -> needs m = Some td ->
  inv s -> method_ok cot_desc indices w d s m ->
  (parent d = None /\ root_signed indices rotpk w d) \/
  exists p e, parent d = Some p /\ 0 <= p /\ kept_in cot_desc p td = Some e /\ bufs s (ptr e) <> init_bufs (ptr e) /\
    zlen (bufs s (ptr e)) = len e /\ checks indices w m (bufs s (ptr e)).
Proof.
  intros Hd Hm Hn (Hi & Hr & Hb) Ho. destruct (wf_parts _ _ Hd) as (_ & Hwf & _). rewrite Forall_forall in Hwf. specialize (Hwf _ Hm).
  unfold method_wf in Hwf. rewrite Hn in Hwf.
  assert (forall p l, parent d = Some p -> kept cot_desc s p td l -> checks indices w m l -> exists e, kept_in cot_desc p td = Some e /\ 0 <= p /\
    bufs s (ptr e) <> init_bufs (ptr e) /\ zlen (bufs s (ptr e)) = len e /\ checks indices w m (bufs s (ptr e))) as Hc.
  { intros p l Hp (pd & e & E1 & E2 & E3 & E4 & ->) Hck. exists e. assert (kept_in cot_desc p td = Some e) as Ek by (unfold kept_in; by rewrite E1).
    split; [done|]. split; [done|]. rewrite Hp, Ek in Hwf. apply Z.eqb_eq in Hwf. pose proof (entry_of_elem _ _ _ E3) as [He _].
    destruct (wf_parts _ _ E1) as (_ & _ & Hl & _). rewrite Forall_forall in Hl. specialize (Hl e (proj1 (elem_entries _ _) He)).
    destruct (Hb (ptr e)) as [Hz _]. rewrite take_ge in Hck by (unfold zlen in *; lia). split_and!; [|lia|done].
    intros Hi0. rewrite Hi0 in Hck. by eapply blank_fails. }
  destruct m as [|data hash|pk sig alg data|]; try done; cbn in Hn; injection Hn as <-; cbn [method_ok] in Ho.
  - destruct Ho as (p & l & Hp & Hk & Hh). right. destruct (Hc p l Hp Hk Hh) as (e & ? & ? & ? & ? & ?). eauto 10.
  - destruct (parent d) as [p|] eqn:Hp.
    + destruct Ho as (l & Hk & Hh). right. destruct (Hc p l eq_refl Hk Hh) as (e & ? & ? & ? & ? & ?). eauto 10.
    + left. split; [done|]. split; [done|]. destruct Ho as (key & flags & Hk & Hh). rewrite Hr in Hk. exists pk, sig, alg, data, key, flags. done.
Qed.
Lemma methods_genuine w d id s : 0 <= id -> cot_desc !! Z.to_nat id = Some d -> itype d = vtype w -> parsed indices w -> id ∈ checked_ids ->
  inv s -> Forall (method_ok cot_desc indices w d s) (img_auth_methods d) -> genuine w id.
Proof.
  intros Hid Hd Ht Hp Hc Hi Hf. destruct (wf_parts _ _ Hd) as (_ & _ & _ & _ & Hm & _). rewrite Z2Nat.id in Hm by done.
  destruct (Hm Hc) as (m & td & Em & En). rewrite Forall_forall in Hf.
  destruct (method_child w d _ m td s Hd Em En Hi (Hf _ Em)) as [[_ Hr]|(p & e & Hpa & _ & Hk & Hni & Hz & Hck)].
  - by eapply genuine_root.
  - destruct Hi as (_ & _ & Hb). destruct (Hb (ptr e)) as [_ [?|(w' & id' & Hg & Hpr)]]; [done|]. by eapply genuine_child.
Qed.
Lemma copies_ok w full id d : genuine w id -> cot_desc !! Z.to_nat id = Some d ->
  forall es bs bs', (forall e, Some e ∈ es -> Some e ∈ authenticated_data d) ->
  copies indices w full es bs bs' -> (forall b, buf_ok b (bs b)) -> forall b, buf_ok b (bs' b).
Proof.
  intros Hg Hd es bs bs' Hes Hc. induction Hc as [bs|es bs Hf|es bs bs' Hc IH|e l es bs bs' Hv Hl Hz Hc IH]; intros Hb; try done.
  - apply IH; [|done]. intros e He. apply Hes. by constructor.
  - apply IH. { intros e' He'. apply Hes. by constructor. } intros b. destruct (decide (b = ptr e)) as [->|Hn]; [|done].
    destruct (Hb (ptr e)) as [Hb1 _]. split.
    + rewrite zlen_app. unfold zlen in *. rewrite length_drop. lia.
    + right. exists w, id. split; [done|]. exists d, e, l, (drop (length l) (bs (ptr e))). split_and!; try done. apply Hes. constructor.
Qed.
Lemma verify_inv id ptr img s : inv s -> pc (auth_mod_verify_img cot_desc ptr img id) (fun rc s' => inv s' /\
  (rc = 0 -> id ∈ checked_ids -> exists d, cot_desc !! Z.to_nat id = Some d /\ genuine (View (itype d) ptr img (parser_vars s')) id)) s.
Proof.
  intros Hi. pose proof Hi as (Hi1 & Hi2 & Hi3).
  eapply pc_mono; [by apply (verify_ok cot_desc indices rotpk_kept)|].
  intros rc s' (d & w & Hid & Hd & Hw & H1 & H2 & _ & _ & [[Hr Hb]|(Hp & Hm & Hc)]).
  - split; [|done]. split; [done|]. rewrite Hb, H2. done.
  - destruct (decide (id ∈ checked_ids)) as [Hck|Hnc].
    + assert (genuine w id) as Hg by (eapply methods_genuine; try done; by rewrite Hw).
      split; [split; [done|]|intros _ _; exists d; by rewrite <- Hw]. split; [congruence|]. by eapply copies_ok.
    + split; [|done]. split; [done|]. split; [congruence|]. destruct (wf_parts _ _ Hd) as (_ & _ & _ & _ & _ & He).
      rewrite Z2Nat.id in He by done. destruct (He Hnc) as [He' _]. assert (bufs s' = bufs s) as ->; [|done].
      assert (forall es bs bs', (forall e, Some e ∉ es) -> copies indices w (rc =? 0) es bs bs' -> bs' = bs) as Hn.
      { intros es bs bs' Hes Hcp. induction Hcp as [| |es bs bs' _ IH|e l es bs bs' _ _ _ _ IH]; [done|done| |].
        - apply IH. intros e He1. by apply (Hes e); constructor.
        - destruct (Hes e). constructor. }
      eapply Hn; [|exact Hc]. intros e He1%elem_entries. rewrite He' in He1. by apply not_elem_of_nil in He1.
Qed.

(** ** Loading with parents *)

(** The descriptor of the certificate that has the keys of both worlds is the only one with their buffers. *)
Lemma world_keys i d e : cot_desc !! i = Some d -> e ∈ entries d -> ptr e ∈ [trusted_world_pk_buf; non_trusted_world_pk_buf] ->
  i = Z.to_nat TRUSTED_KEY_CERT_ID /\ e = ParamDesc (if decide (ptr e = trusted_world_pk_buf) then trusted_world_pk else non_trusted_world_pk) (ptr e) PK_DER_LEN.
Proof.
  assert (forallb (fun '(i, d) => forallb (fun e => if decide (ptr e ∈ [trusted_world_pk_buf; non_trusted_world_pk_buf])
    then bool_decide (i = Z.to_nat TRUSTED_KEY_CERT_ID) && bool_decide (e = ParamDesc (if decide (ptr e = trusted_world_pk_buf) then trusted_world_pk
      else non_trusted_world_pk) (ptr e) PK_DER_LEN) else true) (entries d)) (imap pair cot_desc) = true) as Hf by by vm_compute.
  intros Hd He Hp. rewrite forallb_forall in Hf. specialize (Hf (i, d)). cbn beta iota in Hf. rewrite forallb_forall in Hf.
  specialize (Hf ltac:(apply list_elem_of_In, list_elem_of_lookup; exists i; by rewrite list_lookup_imap, Hd) e ltac:(by apply list_elem_of_In)).
  rewrite decide_True in Hf by done. by apply andb_true_iff in Hf as [?%bool_decide_eq_true ?%bool_decide_eq_true].
Qed.
Lemma world_keys_in td e : kept_in cot_desc TRUSTED_KEY_CERT_ID td = Some e -> ptr e ∈ [trusted_world_pk_buf; non_trusted_world_pk_buf].
Proof.
  intros Hk. unfold kept_in in Hk. change (cot_desc !! Z.to_nat TRUSTED_KEY_CERT_ID) with (Some cot_TRUSTED_KEY_CERT) in Hk.
  apply entry_of_elem in Hk as [He _]. apply elem_entries in He. cbn in He. rewrite !elem_of_cons in He. destruct He as [->|[->|He]]; cbn; [by left|by right; left|].
  by apply not_elem_of_nil in He.
Qed.

Lemma copies_other w full es : forall bs bs' b, copies indices w full es bs bs' -> b ∉ ptr <$> omap id es -> bs' b = bs b.
Proof.
  intros bs bs' b Hc. induction Hc as [| |es bs bs' _ IH|e l es bs bs' _ _ _ _ IH]; intros Hn; [done|done|by apply IH|].
  cbn in Hn. rewrite not_elem_of_cons in Hn. destruct Hn as [Hn1 Hn2]. rewrite IH by done. by rewrite decide_False.
Qed.
(** After all parameters have been copied, each buffer starts with the parameter. *)
Lemma copies_full w es : forall bs bs' td e, copies indices w true es bs bs' -> NoDup (ptr <$> omap id es) -> entry_of td es = Some e ->
  exists l tail, vparam indices w td = Some l /\ bs' (ptr e) = l ++ tail.
Proof.
  intros bs bs' td e Hc. induction Hc as [| |es bs bs' _ IH|e' l es bs bs' Hv _ _ Hc IH]; intros Hn He; cbn [entry_of] in He; try done.
  cbn in Hn. apply NoDup_cons in Hn as [Hn1 Hn2]. destruct (decide (td = type_desc e')) as [->|Ht]; [|by apply IH].
  injection He as <-. exists l. rewrite (copies_other _ _ _ _ _ _ Hc) by done. rewrite decide_True by done. eauto.
Qed.

Definition flag_set (s : am) (id : Z) : Prop :=
  exists v, auth_img_flags s !! Z.to_nat id = Some v /\ Z.land v IMG_FLAG_AUTHENTICATED <> 0.
Definition child_of (id p : Z) : Prop := exists d, cot_desc !! Z.to_nat id = Some d /\ parent d = Some p.

(** What verifying an image whose parent's parameters are in place establishes. *)
Definition params_in (s : am) (p : Z) : Prop := forall td e, kept_in cot_desc p td = Some e -> bufs s (ptr e) <> init_bufs (ptr e) ->
  exists w l tail, chained w p /\ vparam indices w td = Some l /\ bufs s (ptr e) = l ++ tail.
Lemma verify_chained id base bytes s s' : inv s -> id ∈ checked_ids -> (forall p, child_of id p -> params_in s p) ->
  auth_mod_verify_img cot_desc base bytes id s = Some (0, s') ->
  inv s' /\ params_in s' id /\ exists d, cot_desc !! Z.to_nat id = Some d /\ chained (View (itype d) base bytes (parser_vars s')) id.
Proof.
  intros Hi Hck Hpar Ev. pose proof (verify_inv _ _ _ _ Hi _ _ Ev) as [Hi' _]. pose proof Hi as (Hi1 & _).
  pose proof (verify_ok cot_desc indices rotpk_kept _ _ _ _ Hi1 _ _ Ev) as (d & w & Hid & Hd & Hw & _ & _ & _ & _ & [[Hr _]|(Hp & Hm & Hc)]); [done|].
  destruct (wf_parts _ _ Hd) as (_ & _ & _ & Hnd & Hms & _). rewrite Z2Nat.id in Hms by done. destruct (Hms Hck) as (m & td & Em & En).
  rewrite Forall_forall in Hm. assert (chained w id) as Hch.
  { destruct (method_child w d _ m td s Hd Em En Hi (Hm _ Em)) as [[_ Hr]|(p & e & Hpa & Hp0 & Hk & Hni & Hz & Hcks)].
    - eapply chained_root; try done. by rewrite Hw.
    - destruct (Hpar p ltac:(by exists d) td e Hk Hni) as (w' & l & tail & Hch & Hv & Hb). rewrite Hb in Hcks.
      eapply chained_child; try done. by rewrite Hw. }
  split; [done|]. split; [|exists d; by rewrite <- Hw]. intros td' e He _. unfold kept_in in He. rewrite Hd in He. cbn in He.
  destruct (copies_full _ _ _ _ _ _ Hc Hnd He) as (l & tail & Hv & Hb). by exists w, l, tail.
Qed.
Lemma key_cert_params s : inv s -> params_in s TRUSTED_KEY_CERT_ID.
Proof.
  intros (_ & _ & Hb) td e Hk Hni. destruct (Hb (ptr e)) as [_ [?|(w & id & Hg & d' & e' & l & tail & Hd & He & Hp & Hv & Hl)]]; [done|].
  pose proof (world_keys_in _ _ Hk) as Hin. apply elem_entries in He. rewrite <- Hp in Hin. destruct (world_keys _ _ _ Hd He Hin) as [Hid Ee].
  unfold kept_in in Hk. change (cot_desc !! Z.to_nat TRUSTED_KEY_CERT_ID) with (Some cot_TRUSTED_KEY_CERT) in Hk.
  apply entry_of_elem in Hk as [Hke <-]. apply elem_entries in Hke. rewrite Hp in Hin.
  destruct (world_keys (Z.to_nat TRUSTED_KEY_CERT_ID) _ e eq_refl Hke Hin) as [_ Ee2]. assert (e' = e) as -> by (rewrite Ee, Ee2, Hp; done).
  exists w, l, tail. split; [|done]. inversion Hg as [w0 id0 d0 Hd0 Ht0 Hp0 Hr0|w0 id0 d0 m td p e0 v w' id' Hd0 _ _ Hpa]; subst.
  - rewrite Hid in Hd0. by eapply chained_root.
  - rewrite Hid in Hd0. by injection Hd0 as <-.
Qed.
End run.

Section load.
Context `{AuthLaws} (indices : list Z) (rotpk : option string -> option (Z * list Z * Z)).
Lemma parent_checked id p : child_of id p -> p ∈ checked_ids /\ exists pd, cot_desc !! Z.to_nat p = Some pd /\ img_id pd = p.
Proof.
  assert (forallb (fun d => match parent d with Some p => bool_decide (p ∈ checked_ids /\ img_id <$> cot_desc !! Z.to_nat p = Some p) | None => true end)
    cot_desc = true) as Hf by by vm_compute.
  intros (d & Hd & Hp). rewrite forallb_forall in Hf. specialize (Hf d ltac:(by eapply list_elem_of_In, list_elem_of_lookup_2)). rewrite Hp in Hf.
  apply bool_decide_eq_true in Hf as [Hc Hi]. split; [done|].
  destruct (cot_desc !! Z.to_nat p) as [pd|]; [|done]. injection Hi as Hi. eauto.
Qed.
Lemma get_parent_keeps s id r s' : auth_mod_get_parent_id cot_desc id s = Some (r, s') -> s' = s.
Proof.
  revert r s'. change (pc (auth_mod_get_parent_id cot_desc id) (fun _ s' => s' = s) s). unfold auth_mod_get_parent_id, cot_desc_at. pc_run.
  destruct (parent x) as [p|]; pc_run; [|done]. pc_if; by pc_run.
Qed.
Lemma get_parent_cases s id r : auth_mod_get_parent_id cot_desc id s = Some (r, s) ->
  (r = (1, 0) /\ (forall p, child_of id p -> flag_set s p)) \/ (exists p, r = (0, p) /\ child_of id p).
Proof.
  unfold auth_mod_get_parent_id, cot_desc_at. intros E. apply bind_some in E as (d & s1 & E1 & E). unfold must in E1.
  destruct (Z.ltb_spec id 0); [done|]. destruct (cot_desc !! Z.to_nat id) as [d'|] eqn:Hd; [|done]. injection E1 as <- <-.
  destruct (parent d') as [p|] eqn:Hp.
  - apply bind_some in E as (pd & s1 & E1 & E). unfold must in E1. destruct (Z.ltb_spec p 0); [done|].
    destruct (parent_checked id p ltac:(by exists d')) as (_ & pd' & Hpd & Hpi). rewrite Hpd in E1. injection E1 as <- <-. rewrite Hpi in E.
    rewrite bind_gets in E. apply bind_some in E as (v & s1 & E1 & E). unfold must in E1. destruct (auth_img_flags s !! Z.to_nat p) as [v'|] eqn:Ef; [|done].
    injection E1 as <- <-. destruct (Z.eqb_spec (Z.land v' IMG_FLAG_AUTHENTICATED) 0) as [Hz|Hz]; cbn [negb] in E; injection E as <-.
    + right. exists p. split; [done|]. by exists d'.
    + left. split; [done|]. intros p' (d & Hd' & Hp'). assert (p' = p) as -> by congruence. by exists v'.
  - injection E as <-. left. split; [done|]. intros p' (d & Hd' & Hp'). congruence.
Qed.

#[local] Instance loader : LoadImage.AuthMod := loader_auth cot_desc true.
Lemma trusted_chained id s base bytes s' : LoadSpec.trusted id s base bytes s' -> inv indices rotpk s -> id ∈ checked_ids ->
  (forall q, tc child_of id q -> q = TRUSTED_KEY_CERT_ID \/ ~ flag_set s q) ->
  inv indices rotpk s' /\ params_in indices rotpk s' id /\
  exists d v, cot_desc !! Z.to_nat id = Some d /\ chained cot_desc indices rotpk (View (itype d) base bytes v) id.
Proof.
  induction 1 as [id s rc p base bytes s' Eg Hrc Ev|id p s base1 bytes1 s1 base bytes s' Eg _ IH Ev]; intros Hi Hck Hanc.
  - cbn in Eg, Ev. destruct (auth_mod_get_parent_id cot_desc id s) as [[r s2]|] eqn:Er; [|done]. injection Eg as ->.
    assert (s2 = s) as ->.
    { pose proof (get_parent_keeps s id) as Hk. by apply Hk in Er. }
    destruct (get_parent_cases _ _ _ Er) as [[_ Hf]|(p' & [= -> ->] & _)]; [|done].
    edestruct (verify_chained indices rotpk id base bytes s s' Hi Hck) as (H1 & H2 & d & Hd & H3); [|done|by split; [|split; [|exists d; eauto]]].
    intros p' Hp. destruct (Hanc p' (tc_once _ _ _ Hp)) as [->|Hn]; [by apply key_cert_params|]. by destruct Hn; apply Hf.
  - cbn in Eg, Ev. destruct (auth_mod_get_parent_id cot_desc id s) as [[r s2]|] eqn:Er; [|done]. injection Eg as ->.
    assert (s2 = s) as -> by (by apply get_parent_keeps in Er).
    destruct (get_parent_cases _ _ _ Er) as [[[=] _]|(p' & [= ->] & Hp)]. pose proof (parent_checked _ _ Hp) as [Hpc _].
    destruct IH as (G1 & G2 & _); [done|done| |].
    { intros q Hq. apply Hanc. by eapply tc_l. }
    edestruct (verify_chained indices rotpk id base bytes s1 s' G1 Hck) as (H1 & H2 & d & Hd & H3); [|done|by split; [|split; [|exists d; eauto]]].
    intros p2 Hp2. assert (p2 = p') as -> by (destruct Hp as (? & ? & ?), Hp2 as (? & ? & ?); congruence). done.
Qed.
End load.

(** ** The theorems *)
Definition verify_step `{AuthLib} (s s' : am) : Prop :=
  exists id ptr img rc, auth_mod_verify_img cot_desc ptr img id s = Some (rc, s').
Lemma steps_inv `{AuthLaws} s0 s : (forall b, bufs s0 b = init_bufs b) -> rtc verify_step s0 s ->
  inv (parser_lib_indices s0) (plat_get_rotpk_info (plat s0)) s.
Proof.
  intros Hb Hs. assert (inv (parser_lib_indices s0) (plat_get_rotpk_info (plat s0)) s0) as Hi.
  { split; [done|]. split; [done|]. intros b. rewrite Hb. split; [|by left]. unfold init_bufs, zlen. rewrite length_replicate. by destruct b. }
  revert Hi. generalize (parser_lib_indices s0) (plat_get_rotpk_info (plat s0)). intros idx K Hi. clear Hb.
  induction Hs as [|s s1 s' (id & p & img & rc & Ev) _ IH]; [done|]. apply IH. by apply (verify_inv _ _ _ _ _ _ Hi _ _ Ev).
Qed.

(** C24: Whatever images and certificates are presented, in whatever order and whether they are
    accepted or not: when [auth_mod_verify_img] accepts an image, there is a chain of checks from
    the root key to it ([genuine]): the image has the hash, or is signed with the key, that a
    genuine certificate had put in the buffer of the parent's parameter.  (Images 0 and 16,
    whose descriptors are empty, are accepted as they are.) *)
Theorem auth_chain_rooted `{AuthLaws} s0 s id ptr img s' :
  (forall b, bufs s0 b = init_bufs b) -> rtc verify_step s0 s -> id ∈ checked_ids ->
  auth_mod_verify_img cot_desc ptr img id s = Some (0, s') ->
  exists d v, cot_desc !! Z.to_nat id = Some d /\
    genuine cot_desc (parser_lib_indices s0) (plat_get_rotpk_info (plat s0)) (View (itype d) ptr img v) id.
Proof.
  intros Hb Hs Hc Ev. pose proof (steps_inv _ _ Hb Hs) as Hi. pose proof (verify_inv _ _ _ _ _ _ Hi _ _ Ev) as [_ Hg].
  destruct (Hg eq_refl Hc) as (d & Hd & ?). eauto.
Qed.

(** C25: Loading an image after its parents.  When [load_auth_image] has verified the images that the
    module asked for and then the image ([LoadSpec.trusted], which [load_auth_image_spec]
    establishes for its successes), the whole chain of certificates has been checked, each
    with the parameter of the certificate that the chain of trust names as its parent ([chained]);
    provided that no certificate above it, except that with the keys of the two worlds, had been
    authenticated before, since the others share their buffers. *)
Theorem load_auth_chain `{AuthLaws} s0 s id base bytes s' :
  (forall b, bufs s0 b = init_bufs b) -> rtc verify_step s0 s -> id ∈ checked_ids ->
  (forall q, tc child_of id q -> q = TRUSTED_KEY_CERT_ID \/ ~ flag_set s q) ->
  LoadSpec.trusted (H0 := loader_auth cot_desc true) id s base bytes s' ->
  exists d v, cot_desc !! Z.to_nat id = Some d /\
    chained cot_desc (parser_lib_indices s0) (plat_get_rotpk_info (plat s0)) (View (itype d) base bytes v) id.
Proof.
  intros Hb Hs Hc Hanc Ht. pose proof (steps_inv _ _ Hb Hs) as Hi.
  by destruct (trusted_chained _ _ _ _ _ _ _ Ht Hi Hc Hanc) as (_ & _ & d & v & Hd & Hch); eauto.
Qed.
End AuthSpec.
