(* ===== verification/AuthRun.v ===== *)
(** * Authentication: every call is defined, and counters

    Under [LibLaws], what the framework asks of the cryptographic library and of the platform,
    [auth_mod_verify_img] returns for every image of the chain of trust whose parameters, as the
    parser reports them, lie in the image ([params_inside], [verify_df]): no assertion fails, no NULL
    descriptor is compared, no buffer is overrun. *)

From Stdlib Require Import ZArith Lia.
From stdpp Require Import base option list numbers strings relations.
From S2P Require Import Prelude CMonad Auth AuthCot AuthProps AuthSpec.
Import Auth AuthProps AuthSpec Cot.
Open Scope Z_scope.

Module AuthRun.

(** ** Defined computations *)
Definition df {S A} (m : M S A) (s : S) : Prop := is_Some (m s).
Lemma df_bind {S A B} (m : M S A) (k : A -> M S B) (P : A -> S -> Prop) s :
  df m s -> pc m P s -> (forall x s', P x s' -> df (k x) s') -> df (m ≫= k) s.
Proof. intros [[x s'] E] Hp Hk. destruct (Hk x s' (Hp _ _ E)) as [r Er]. exists r. apply bind_some. eauto. Qed.
Lemma df_gets {S A B} (f : S -> A) (k : A -> M S B) s : df (k (f s)) s -> df (gets f ≫= k) s.
Proof. done. Qed.
Lemma df_must {S A B} (o : option A) x (k : A -> M S B) s : o = Some x -> df (k x) s -> df (must o ≫= k) s.
Proof. by intros ->. Qed.
Lemma df_massert {S B} (b : bool) (k : unit -> M S B) s : b = true -> df (k tt) s -> df (massert b ≫= k) s.
Proof. by intros ->. Qed.
Lemma df_modify {S B} (f : S -> S) (k : unit -> M S B) s : df (k tt) (f s) -> df (modify f ≫= k) s.
Proof. done. Qed.
Lemma df_ret {S A} (x : A) (s : S) : df (mret x) s.
Proof. by eexists. Qed.

(** ** What the framework asks of the libraries *)
Class LibLaws `{AuthLib} := {
  lib_check lib v ptr img : lib ∈ parser_lib_descs -> ptr <> 0 -> img <> [] -> is_Some (check_integrity lib v ptr img);
  lib_sig D S A K : D <> [] -> S <> [] -> A <> [] -> K <> [] -> is_Some (verify_signature D S A K);
  lib_hash D h : D <> [] -> h <> [] -> is_Some (verify_hash D h);
  plat_rotpk pl oid : exists rc key flags, plat_get_rotpk_info pl oid = Some (rc, key, flags) /\ key <> [];
  plat_get pl oid : is_Some (plat_get_nv_ctr pl (Some oid));
  plat_set pl oid n : is_Some (plat_set_nv_ctr pl (Some oid) n)
}.

(** ** The descriptors ask for parameters that the parsers have *)
Definition td_wf (d : auth_img_desc) (td : auth_param_type_desc) : bool :=
  match itype d with
  | IMG_RAW => bool_decide (type td = AUTH_PARAM_RAW_DATA)
  | IMG_PLAT => false
  | IMG_CERT => if decide (type td = AUTH_PARAM_HASH \/ type td = AUTH_PARAM_NV_CTR) then bool_decide (is_Some (cookie td)) else true
  end.
Definition method_td_wf (d : auth_img_desc) (m : auth_method_desc) : bool :=
  match m with
  | AUTH_METHOD_NONE => true
  | AUTH_METHOD_HASH data _ => td_wf d data
  | AUTH_METHOD_SIG pk sig alg data => td_wf d pk && td_wf d sig && td_wf d alg && td_wf d data
  | AUTH_METHOD_NV_CTR c p => td_wf d c && bool_decide (type c = AUTH_PARAM_NV_CTR) && bool_decide (is_Some (cookie p))
  end.
(** The parameters that the methods and the copies of an image ask for. *)
Definition method_params (m : auth_method_desc) : list auth_param_type_desc :=
  match m with
  | AUTH_METHOD_NONE => []
  | AUTH_METHOD_HASH data _ => [data]
  | AUTH_METHOD_SIG pk sig alg data => [pk; sig; alg; data]
  | AUTH_METHOD_NV_CTR c _ => [c]
  end.
Definition asks (d : auth_img_desc) (td : auth_param_type_desc) : Prop :=
  (exists m, m ∈ img_auth_methods d /\ td ∈ method_params m) \/ exists e, e ∈ entries d /\ td = type_desc e.
(** What the framework takes for granted of a certificate that passed the integrity check: the parser
    returns, what it finds for these parameters is in the image, and of a counter the image has
    all bytes that its length announces. *)
Definition params_inside `{AuthLib} (d : auth_img_desc) (ptr : Z) (img : list Z) : Prop :=
  forall lib v0 v td, lib ∈ parser_lib_descs -> check_integrity lib v0 ptr img = Some (0, v) -> asks d td ->
    exists rc r, get_auth_param lib v td ptr img = Some (rc, r) /\
      (rc = 0 -> exists p n, r = Some (p, n) /\ p <> 0 /\ 0 < n /\ ptr <= p /\ p + n <= ptr + zlen img /\
        (type td = AUTH_PARAM_NV_CTR -> is_Some (nv_ctr_parse ptr img (InImg p n)))).
Lemma cot_td_wf i d : cot_desc !! i = Some d ->
  Forall (fun m => method_td_wf d m = true) (img_auth_methods d) /\ Forall (fun e => td_wf d (type_desc e) = true) (entries d).
Proof.
  assert (forallb (fun d => forallb (method_td_wf d) (img_auth_methods d) && forallb (fun e => td_wf d (type_desc e)) (entries d)) cot_desc = true)
    as Hf by by vm_compute.
  intros Hd. rewrite forallb_forall in Hf. specialize (Hf d ltac:(by eapply list_elem_of_In, list_elem_of_lookup_2)).
  apply andb_true_iff in Hf as [H1 H2]. rewrite forallb_forall in H1, H2. split; apply Forall_forall; intros x Hx; [apply H1|apply H2]; by apply list_elem_of_In.
Qed.

(** The methods change nothing but the state of the platform. *)
Section plat.
Context `{AuthLib} (indices : list Z) (w : view) (d : auth_img_desc) (Hd : itype d = vtype w).
Lemma method_plat m s : sees indices w s -> pc (auth_method cot_desc (vptr w) (vimg w) m d) (fun _ s' => only_plat s s') s.
Proof.
  intros Hs. destruct m; cbn [auth_method]; [apply pc_ret; by destruct s|..].
  - eapply pc_mono; [by apply (auth_hash_ok cot_desc indices w d Hd)|]. intros rc ? [-> _]. by destruct s.
  - eapply pc_mono; [by apply (auth_signature_ok cot_desc indices w d Hd)|]. intros rc ? [-> _]. by destruct s.
  - eapply pc_mono; [by apply (auth_nvctr_ok indices w d Hd)|]. by intros rc ? [? _].
Qed.
Lemma methods_plat ms : forall s, sees indices w s -> pc (auth_methods cot_desc (vptr w) (vimg w) ms d) (fun _ s' => only_plat s s') s.
Proof.
  induction ms as [|m ms IH]; intros s Hs; cbn [auth_methods]; [apply pc_ret; by destruct s|].
  apply pc_bind. eapply pc_mono; [by apply method_plat|]. intros rc s' ->. pc_if; [|by pc_run]. eapply pc_mono; [by apply IH|]. by intros ? ? ->.
Qed.
End plat.

Section defined.
Context `{LibLaws} (indices : list Z) (Hcert : is_Some (lib_of indices IMG_CERT)).

Section image.
Context (w : view) (d : auth_img_desc) (Hd : itype d = vtype w) (Hp : parsed indices w) (Hptr : vptr w <> 0) (Himg : vimg w <> [])
  (Hin : itype d = IMG_CERT -> params_inside d (vptr w) (vimg w)).

(** A reference that the cryptographic module accepts. *)
Definition good (r : ref) : Prop :=
  match r with InImg p n => p <> 0 /\ 0 < n /\ vptr w <= p /\ p + n <= vptr w + zlen (vimg w) | Other l => l <> [] end.
Lemma img_len : 0 < zlen (vimg w).
Proof. unfold zlen. destruct (vimg w); [done|]. cbn. lia. Qed.
Lemma lib_elem t lib : lib_of indices t = Some lib -> lib ∈ parser_lib_descs.
Proof.
  unfold lib_of. destruct (indices !! img_type_idx t) as [i|]; [|done]. cbn. destruct (i =? INVALID_IDX); [done|].
  intros El. by eapply list_elem_of_lookup_2.
Qed.
Lemma parser_df t lib s : parser_lib_indices s = indices -> lib_of indices t = Some lib -> parser_of t s = Some (lib, s).
Proof.
  intros Hi El. unfold lib_of in El. unfold parser_of. rewrite bind_gets, Hi. destruct (indices !! img_type_idx t) as [i|]; [|done]. cbn in El.
  rewrite (bind_must _ i) by done. destruct (i =? INVALID_IDX); [done|]. cbn. unfold must. by rewrite El.
Qed.
Lemma get_df td s : sees indices w s -> td_wf d td = true -> asks d td ->
  exists rc r, img_parser_get_auth_param (vptr w) (vimg w) (itype d) td s = Some ((rc, r), s) /\
    (rc = 0 -> exists r0, r = Some r0 /\ good r0 /\ (type td = AUTH_PARAM_NV_CTR ->
       (exists p n, r0 = InImg p n /\ p <> 0) /\ is_Some (nv_ctr_parse (vptr w) (vimg w) r0))).
Proof.
  intros [Hi Hv] Ht Hask. pose proof img_len. unfold img_parser_get_auth_param. rewrite bind_massert by (by rewrite (proj2 (Z.eqb_neq _ _))).
  rewrite bind_massert by (rewrite (proj2 (Z.eqb_neq _ _)) by lia; done). unfold td_wf in Ht. rewrite Hd in Ht, Hin |- *.
  destruct (vtype w) eqn:Ew; [|done|].
  - rewrite decide_True by done. rewrite bind_massert by done. eexists _, _. split; [done|]. intros _. eexists. split; [done|].
    split; [cbn; lia|]. intros Hn. apply bool_decide_eq_true in Ht. congruence.
  - rewrite decide_False by done. destruct (Hp ltac:(by rewrite Ew)) as (lib & v0 & El & Ec). rewrite Ew in El.
    rewrite (bind_eq _ _ _ lib s) by (by apply parser_df). rewrite bind_gets, Hv.
    destruct (Hin eq_refl lib v0 (vvars w) td (lib_elem _ _ El) Ec Hask) as (rc & r & Eg & Hr).
    rewrite (bind_must _ _ _ _ Eg). eexists _, _. split; [done|]. intros Hrc. destruct (Hr Hrc) as (p & n & -> & ? & ? & ? & ? & Hnv).
    eexists. split; [done|]. split; [done|]. intros Hty. split; [eauto|]. by apply Hnv.
Qed.
Lemma not_empty_df r s : good r -> exists l, not_empty (vptr w) (vimg w) r s = Some (l, s) /\ l <> [].
Proof.
  unfold not_empty. destruct r as [p n|l]; cbn [good ref_len ref_bytes].
  - intros (? & ? & ? & ?). rewrite bind_massert by (by rewrite (proj2 (Z.eqb_neq _ _))).
    rewrite bind_massert by (rewrite (proj2 (Z.eqb_neq _ _)) by lia; done). rewrite !(proj2 (Z.leb_le _ _)) by lia. cbn.
    eexists. split; [done|]. intros En. pose proof (slice_length (vimg w) (p - vptr w) (p - vptr w + n) ltac:(lia) ltac:(lia) ltac:(lia)) as Hl.
    rewrite En in Hl. unfold zlen in Hl. cbn in Hl. lia.
  - intros Hl. rewrite bind_massert by done. rewrite bind_massert; [by exists l|]. destruct l; [done|]. rewrite zlen_cons.
    rewrite (proj2 (Z.eqb_neq _ _)); [done|]. pose proof (zlen_nonneg l). lia.
Qed.
Lemma hash_df r1 r2 s : good r1 -> good r2 -> df (crypto_mod_verify_hash (vptr w) (vimg w) r1 r2) s.
Proof.
  intros H1 H2. destruct (not_empty_df r1 s H1) as (l1 & E1 & N1), (not_empty_df r2 s H2) as (l2 & E2 & N2).
  unfold df, crypto_mod_verify_hash. rewrite (bind_eq _ _ _ _ _ E1), (bind_eq _ _ _ _ _ E2). destruct (lib_hash l1 l2 N1 N2) as [rc E].
  unfold must. rewrite E. by eexists.
Qed.
Lemma sig_df r1 r2 r3 r4 s : good r1 -> good r2 -> good r3 -> good r4 -> df (crypto_mod_verify_signature (vptr w) (vimg w) r1 r2 r3 r4) s.
Proof.
  intros H1 H2 H3 H4. destruct (not_empty_df r1 s H1) as (l1 & E1 & N1), (not_empty_df r2 s H2) as (l2 & E2 & N2).
  destruct (not_empty_df r3 s H3) as (l3 & E3 & N3), (not_empty_df r4 s H4) as (l4 & E4 & N4).
  unfold df, crypto_mod_verify_signature. rewrite (bind_eq _ _ _ _ _ E1), (bind_eq _ _ _ _ _ E2), (bind_eq _ _ _ _ _ E3), (bind_eq _ _ _ _ _ E4).
  destruct (lib_sig l1 l2 l3 l4 N1 N2 N3 N4) as [rc E]. unfold must. rewrite E. by eexists.
Qed.
Lemma param_df td p e s : kept_in cot_desc p td = Some e -> 0 <= p -> 0 < len e -> len e <= zlen (bufs s (ptr e)) ->
  exists l, auth_get_param cot_desc td (Some p) s = Some ((0, Some (Other l)), s) /\ l <> [].
Proof.
  intros Hk Hp0 Hl0 Hl. unfold kept_in in Hk. destruct (cot_desc !! Z.to_nat p) as [pd|] eqn:Epd; [|done]. cbn in Hk.
  unfold auth_get_param. rewrite (bind_must _ p) by done. unfold cot_desc_at. rewrite (proj2 (Z.ltb_ge _ _)) by done. rewrite (bind_must _ _ _ _ Epd).
  revert Hk. generalize (authenticated_data pd). intros es. induction es as [|[e'|] es IH]; cbn [entry_of get_param_loop]; [done| |done].
  rewrite cmp_eq. destruct (decide (td = type_desc e')) as [Et|Et].
  - intros [= ->]. rewrite bool_decide_eq_true_2 by done. rewrite bind_gets, bind_massert by (by apply Z.leb_le). eexists. split; [done|].
    intros En. apply (f_equal length) in En. rewrite length_take in En. unfold zlen in Hl. cbn in En. lia.
  - rewrite bool_decide_eq_false_2 by done. apply IH.
Qed.

(** The buffers have the sizes of their declarations. *)
Definition sized (s : am) : Prop := forall b, zlen (bufs s b) = buf_len b.
Context (i : nat) (Hdi : cot_desc !! i = Some d).
Lemma kept_len p td e : kept_in cot_desc p td = Some e -> len e = buf_len (ptr e) /\ 0 < len e.
Proof.
  unfold kept_in. destruct (cot_desc !! Z.to_nat p) as [pd|] eqn:Epd; [|done]. cbn. intros [He _]%entry_of_elem. apply elem_entries in He.
  destruct (wf_parts _ _ Epd) as (_ & _ & Hl & _). rewrite Forall_forall in Hl. rewrite (Hl e He). split; [done|]. by destruct (ptr e).
Qed.
Lemma parent_nonneg p : parent d = Some p -> 0 <= p.
Proof.
  assert (forallb (fun d => match parent d with Some p => 0 <=? p | None => true end) cot_desc = true) as Hf by by vm_compute.
  rewrite forallb_forall in Hf. specialize (Hf d ltac:(by eapply list_elem_of_In, list_elem_of_lookup_2)). intros E. rewrite E in Hf. by apply Z.leb_le.
Qed.
Lemma needs_df m td p s : m ∈ img_auth_methods d -> needs m = Some td -> parent d = Some p -> sized s ->
  exists l, auth_get_param cot_desc td (Some p) s = Some ((0, Some (Other l)), s) /\ l <> [].
Proof.
  intros Hm Hn Hpa Hs. destruct (wf_parts _ _ Hdi) as (_ & Hwf & _). rewrite Forall_forall in Hwf. specialize (Hwf _ Hm). unfold method_wf in Hwf.
  rewrite Hn, Hpa in Hwf. destruct (kept_in cot_desc p td) as [e|] eqn:Ek; [|done]. destruct (kept_len _ _ _ Ek) as [El E0].
  eapply param_df; [exact Ek|by apply parent_nonneg|done|]. rewrite (Hs (ptr e)). lia.
Qed.
Lemma method_df m s : m ∈ img_auth_methods d -> sees indices w s -> sized s -> df (auth_method cot_desc (vptr w) (vimg w) m d) s.
Proof.
  intros Hm Hse Hsz. destruct (cot_td_wf _ _ Hdi) as [Htd _]. rewrite Forall_forall in Htd. specialize (Htd _ Hm).
  assert (forall td, td ∈ method_params m -> asks d td) as Hask by (intros td Hi; left; eauto).
  destruct m as [|data hash|pk sig alg data|c p]; cbn [auth_method]; cbn [method_td_wf] in Htd.
  - apply df_ret.
  - unfold auth_hash. destruct (parent d) as [p|] eqn:Epa.
    2: { destruct (wf_parts _ _ Hdi) as (_ & Hwf & _). rewrite Forall_forall in Hwf. specialize (Hwf _ Hm). unfold method_wf in Hwf. by rewrite Epa in Hwf. }
    destruct (needs_df _ _ _ s Hm eq_refl Epa Hsz) as (l & El & Hl). unfold df. rewrite (bind_eq _ _ _ _ _ El). cbn [Z.eqb negb].
    destruct (get_df data s Hse Htd ltac:(apply Hask; set_solver)) as (rc & r & Er & Hr). rewrite (bind_eq _ _ _ _ _ Er). destruct (Z.eqb_spec rc 0) as [E0|]; [|apply df_ret].
    destruct (Hr E0) as (r0 & -> & Hg & _). cbn [negb]. by apply hash_df.
  - rewrite !andb_true_iff in Htd. destruct Htd as (((Hpk & Hsig) & Halg) & Hdata). unfold auth_signature, df.
    destruct (get_df data s Hse Hdata ltac:(apply Hask; set_solver)) as (rc & r & Er & Hr). rewrite (bind_eq _ _ _ _ _ Er). destruct (Z.eqb_spec rc 0) as [E0|]; [|apply df_ret].
    destruct (get_df sig s Hse Hsig ltac:(apply Hask; set_solver)) as (rc1 & r1 & Er1 & Hr1). cbn [negb]. rewrite (bind_eq _ _ _ _ _ Er1). destruct (Z.eqb_spec rc1 0) as [E1|]; [|apply df_ret].
    destruct (get_df alg s Hse Halg ltac:(apply Hask; set_solver)) as (rc2 & r2 & Er2 & Hr2). cbn [negb]. rewrite (bind_eq _ _ _ _ _ Er2). destruct (Z.eqb_spec rc2 0) as [E2|]; [|apply df_ret].
    destruct (Hr E0) as (q & -> & Hg & _), (Hr1 E1) as (q1 & -> & Hg1 & _), (Hr2 E2) as (q2 & -> & Hg2 & _). cbn [negb].
    assert (exists rc3 key flags, (match parent d with
      | Some _ => '(rc, r) ← auth_get_param cot_desc pk (parent d); mret (rc, r, 0)
      | None => p ← gets plat; '(rc, key, flags) ← must (plat_get_rotpk_info p (cookie pk)); mret (rc, Some (Other key), flags) end) s =
        Some ((rc3, Some (Other key), flags), s) /\ key <> []) as (rc3 & key & flags & Ek & Hk).
    { destruct (parent d) as [p|] eqn:Epa.
      - destruct (needs_df _ _ _ s Hm eq_refl Epa Hsz) as (l & El & Hl). exists 0, l, 0. by rewrite (bind_eq _ _ _ _ _ El).
      - destruct (plat_rotpk (plat s) (cookie pk)) as (rc3 & key & flags & Ek & Hk). exists rc3, key, flags. by rewrite bind_gets, (bind_must _ _ _ _ Ek). }
    rewrite (bind_eq _ _ _ _ _ Ek). destruct (Z.eqb_spec rc3 0) as [E3|]; [|apply df_ret]. cbn [negb]. rewrite !(bind_must _ _ _ _ eq_refl).
    destruct (negb _); [|by apply sig_df]. destruct (get_df pk s Hse Hpk ltac:(apply Hask; set_solver)) as (rc4 & r4 & Er4 & Hr4). rewrite (bind_eq _ _ _ _ _ Er4).
    destruct (Z.eqb_spec rc4 0) as [E4|]; [|apply df_ret]. destruct (Hr4 E4) as (q4 & -> & Hg4 & _). cbn [negb]. rewrite (bind_must _ _ _ _ eq_refl).
    eapply df_bind; [by apply sig_df|apply crypto_sig_ok|]. intros rc5 ? [-> _]. destruct (negb (rc5 =? 0)); [apply df_ret|].
    destruct (negb _); [apply df_ret|]. by apply hash_df.
  - rewrite !andb_true_iff in Htd. destruct Htd as ((Hc & Hty%bool_decide_eq_true) & [oid Hoid]%bool_decide_eq_true). unfold auth_nvctr, df.
    destruct (get_df c s Hse Hc ltac:(apply Hask; set_solver)) as (rc & r & Er & Hr). rewrite (bind_eq _ _ _ _ _ Er). destruct (Z.eqb_spec rc 0) as [E0|]; [|apply df_ret].
    destruct (Hr E0) as (r0 & -> & Hg & Hnv). destruct (Hnv Hty) as ((q & n & -> & Hq) & [cv Ecv]). cbn [negb]. rewrite (bind_must _ _ _ _ eq_refl).
    rewrite bind_massert by (by rewrite (proj2 (Z.eqb_neq _ _))). rewrite (bind_must _ _ _ _ Ecv). destruct cv as [cert|]; [|apply df_ret].
    rewrite bind_gets. rewrite Hoid. destruct (plat_get (plat s) oid) as [[rc1 cur] Eg]. rewrite (bind_must _ _ _ _ Eg).
    destruct (negb (rc1 =? 0)); [apply df_ret|]. destruct (cert <? cur); [apply df_ret|]. destruct (cur <? cert); [|apply df_ret].
    destruct (parent d); [apply df_ret|]. destruct (plat_set (plat s) oid cert) as [[rc2 pl] Es]. rewrite (bind_must _ _ _ _ Es). apply df_ret.
Qed.
Lemma methods_df ms : (forall m, m ∈ ms -> m ∈ img_auth_methods d) -> forall s, sees indices w s -> sized s ->
  df (auth_methods cot_desc (vptr w) (vimg w) ms d) s.
Proof.
  induction ms as [|m ms IH]; intros Hms s Hse Hsz; cbn [auth_methods]; [apply df_ret|].
  apply (df_bind _ _ (fun rc s' => only_plat s s')); [by apply method_df; [apply Hms; constructor|..]| |].
  - by apply (method_plat indices w d Hd).
  - intros rc s' ->. destruct (negb (rc =? 0)); [apply df_ret|]. apply IH; [|done|done]. intros m' Hm'. apply Hms. by constructor.
Qed.
Lemma extract_df es : (forall e, Some e ∈ es -> Some e ∈ authenticated_data d) -> forall s, sees indices w s -> sized s ->
  df (extract_params (vptr w) (vimg w) es d) s.
Proof.
  destruct (cot_td_wf _ _ Hdi) as [_ Htd]. destruct (wf_parts _ _ Hdi) as (_ & _ & Hl & _). rewrite Forall_forall in Htd, Hl.
  induction es as [|[e|] es IH]; intros Hes s Hse Hsz; cbn [extract_params]; [apply df_ret| |by apply IH; [intros; apply Hes; constructor|..]].
  assert (e ∈ entries d) as He by (apply elem_entries, Hes; constructor).
  destruct (get_df (type_desc e) s Hse (Htd _ He) ltac:(right; eauto)) as (rc & r & Er & Hr). unfold df. rewrite (bind_eq _ _ _ _ _ Er).
  destruct (Z.eqb_spec rc 0) as [E0|]; [|apply df_ret]. destruct (Hr E0) as (r0 & -> & Hg & _). cbn [negb]. rewrite (bind_must _ _ _ _ eq_refl).
  destruct (Z.ltb_spec (len e) (ref_len r0)) as [|Hle]; [apply df_ret|].
  assert (exists l, ref_bytes (vptr w) (vimg w) r0 = Some l /\ zlen l = ref_len r0) as (l & El & Hll).
  { destruct r0 as [p n|l]; [|by exists l]. cbn in Hg. destruct Hg as (? & ? & ? & ?). cbn. rewrite !(proj2 (Z.leb_le _ _)) by lia. cbn.
    eexists. split; [done|]. rewrite slice_length; lia. }
  rewrite (bind_must _ _ _ _ El), bind_gets. pose proof (Hsz (ptr e)) as Hb. pose proof (Hl _ He) as Hle'.
  rewrite bind_massert by (apply Z.leb_le; lia). rewrite bind_modify. apply IH.
  - intros e' He'. apply Hes. by constructor.
  - done.
  - intros b. cbn [bufs copy_to set_bufs]. destruct (decide (b = ptr e)) as [->|]; [|apply Hsz]. rewrite zlen_app. unfold zlen in *. rewrite length_drop. lia.
Qed.
End image.

(** The state between calls: one parser for certificates, flags for all images, buffers of their size. *)
Definition ready (s : am) : Prop := parser_lib_indices s = indices /\ length (auth_img_flags s) = length cot_desc /\ sized s.
Lemma verify_df id ptr img s : ready s -> 0 <= id < zlen cot_desc -> ptr <> 0 -> img <> [] ->
  (forall d, cot_desc !! Z.to_nat id = Some d -> itype d = IMG_CERT -> params_inside d ptr img) -> df (auth_mod_verify_img cot_desc ptr img id) s.
Proof.
  intros (Hi & Hf & Hsz) Hid Hptr Himg Hin. unfold auth_mod_verify_img, df, cot_desc_at. rewrite (proj2 (Z.ltb_ge _ _)) by lia.
  destruct (lookup_lt_is_Some_2 cot_desc (Z.to_nat id)) as [d Hd]; [unfold zlen in Hid; lia|]. rewrite (bind_must _ _ _ _ Hd).
  assert (0 < zlen img) as Hpos by (destruct img; [done|]; rewrite zlen_cons; pose proof (zlen_nonneg img); lia).
  eapply df_bind; [|by apply (check_integrity_ok indices)|].
  { unfold df, img_parser_check_integrity. rewrite bind_massert by (by rewrite (proj2 (Z.eqb_neq _ _))).
    rewrite bind_massert by (rewrite (proj2 (Z.eqb_neq _ _)) by lia; done). destruct (decide (itype d = IMG_RAW)); [apply df_ret|].
    assert (itype d = IMG_CERT) as ->.
    { assert (forallb (fun d => bool_decide (itype d = IMG_RAW \/ itype d = IMG_CERT)) cot_desc = true) as Ha by by vm_compute.
      rewrite forallb_forall in Ha. specialize (Ha d ltac:(by eapply list_elem_of_In, list_elem_of_lookup_2)).
      apply bool_decide_eq_true in Ha as [?|?]; done. }
    destruct Hcert as [lib El]. rewrite (bind_eq _ _ _ lib s) by (by apply (parser_df)). rewrite bind_gets.
    destruct (lib_check lib (parser_vars s) ptr img (lib_elem _ _ El) Hptr Himg) as [[rc v] Ec]. rewrite (bind_must _ _ _ _ Ec). apply df_ret. }
  intros rc s1 (H1 & H2 & H3). set (w := View _ _ _ _) in *. destruct (Z.eqb_spec rc 0) as [E0|]; cbn [negb]; [|apply df_ret]. specialize (H2 E0).
  assert (sized s1) as Hsz1 by (rewrite H1; done). eapply (df_bind _ _ (fun rc s' => only_plat s1 s')).
  { apply (methods_df w d eq_refl H2 Hptr Himg (Hin d Hd) _ Hd); done. }
  { by apply (methods_plat indices w d eq_refl). }
  intros rc1 s2 E2. destruct (negb (rc1 =? 0)); [apply df_ret|]. assert (sized s2 /\ sees indices w s2) as [Hsz2 Hse2] by (rewrite E2; done).
  eapply df_bind; [by apply (extract_df w d eq_refl H2 Hptr Himg (Hin d Hd) _ Hd)|by apply (extract_ok indices w d eq_refl)|].
  intros rc2 s3 [E3 _]. destruct (negb (rc2 =? 0)); [apply df_ret|]. unfold df, set_authenticated. rewrite bind_assoc, bind_gets.
  assert (auth_img_flags s3 = auth_img_flags s) as Ef by (rewrite E3; cbn; rewrite E2; cbn; by rewrite H1). rewrite Ef.
  destruct (lookup_lt_is_Some_2 (auth_img_flags s) (Z.to_nat (img_id d))) as [v Ev].
  { rewrite Hf. destruct (wf_parts _ _ Hd) as (-> & _). unfold zlen in Hid. destruct (decide _); [lia|]. cbn. lia. }
  by rewrite bind_assoc, (bind_must _ _ _ _ Ev).
Qed.
End defined.

(** ** Counters *)
(** Setting a counter changes no other counter, and this one to the new value or not at all. *)
Class CounterLaws `{AuthLib} := {
  set_other pl oid n rc pl' oid' : plat_set_nv_ctr pl oid n = Some (rc, pl') -> oid' <> oid -> plat_get_nv_ctr pl' oid' = plat_get_nv_ctr pl oid';
  set_this pl oid n rc pl' : plat_set_nv_ctr pl oid n = Some (rc, pl') ->
    plat_get_nv_ctr pl' oid = Some (0, n) \/ rc <> 0 /\ plat_get_nv_ctr pl' oid = plat_get_nv_ctr pl oid
}.

Section counters.
Context `{CounterLaws} (indices : list Z) (w : view) (d : auth_img_desc).
Definition grows (s s' : am) : Prop := forall oid n, plat_get_nv_ctr (plat s) oid = Some (0, n) ->
  exists n', plat_get_nv_ctr (plat s') oid = Some (0, n') /\ n <= n'.
Lemma grows_refl s s' : plat s' = plat s -> grows s s'.
Proof. intros E oid n Hn. exists n. split; [by rewrite E|lia]. Qed.
Lemma set_grows s s' oid cert cur rc : plat_get_nv_ctr (plat s) oid = Some (0, cur) -> cur < cert ->
  plat_set_nv_ctr (plat s) oid cert = Some (rc, plat s') -> grows s s'.
Proof.
  intros Hc Hlt Hs oid' n Hn. destruct (decide (oid' = oid)) as [->|Hne].
  - assert (n = cur) as -> by congruence. destruct (set_this _ _ _ _ _ Hs) as [E|[_ E]].
    + exists cert. split; [done|lia].
    + exists cur. split; [congruence|lia].
  - exists n. split; [|lia]. by rewrite (set_other _ _ _ _ _ _ Hs Hne).
Qed.
Lemma counters_grow full ms s s' : counters indices w d full ms s s' -> grows s s'.
Proof.
  induction 1 as [s|c p ms s s' _ _ [E|(cert & cur & rc & _ & _ & E1 & E2 & E3)]|m ms s _|c p ms s s1 s' _ (cert & cur & _ & E1 & E2 & E3 & E4) _ IH|m ms s s' _ _ IH];
    [by apply grows_refl|by apply grows_refl|by eapply set_grows|by apply grows_refl| |done].
  assert (grows s s1) as Hg.
  { destruct (decide (cur = cert)) as [Ec|Hne]; [by apply grows_refl, E3|]. assert (cur < cert) as Hlt by lia. destruct (E4 Hlt) as [_ Es]. by eapply set_grows. }
  intros oid n Hn. destruct (Hg oid n Hn) as (n1 & H1 & ?), (IH oid n1 H1) as (n2 & ? & ?). exists n2. split; [done|lia].
Qed.
Lemma counters_none full ms s s' : (forall c p, AUTH_METHOD_NV_CTR c p ∉ ms) -> counters indices w d full ms s s' -> plat s' = plat s.
Proof.
  intros Hn Hc. induction Hc as [s|c p ms s s' _ _ _|m ms s _|c p ms s s1 s' _ _ _ _|m ms s s' _ _ IH]; try done.
  - destruct (Hn c p). constructor.
  - destruct (Hn c p). constructor.
  - apply IH. intros c p Hin. apply (Hn c p). by constructor.
Qed.
(** The counter of a certificate that passed is the counter of the platform from then on. *)
Lemma counters_exact c p pre post s s' : (forall c p, AUTH_METHOD_NV_CTR c p ∉ pre ++ post) ->
  counters indices w d true (pre ++ AUTH_METHOD_NV_CTR c p :: post) s s' ->
  exists cert cur, vnv indices w c = Some cert /\ plat_get_nv_ctr (plat s) (cookie p) = Some (0, cur) /\ cur <= cert /\
    plat_get_nv_ctr (plat s') (cookie p) = Some (0, cert) /\ (parent d <> None -> cur = cert).
Proof.
  revert s. induction pre as [|m pre IH]; intros s Hn Hc; cbn [app] in *.
  - inversion Hc as [|?????|????|c0 p0 ms s0 s1 s2 _ (cert & cur & Hv & Hg & Hle & E3 & E4) Hr|m ms s0 s1 Hm]; [done|done| |done]. subst.
    apply counters_none in Hr; [|done]. exists cert, cur. rewrite Hr. split_and!; try done.
    + destruct (decide (cur = cert)) as [->|Hne]; [by rewrite E3|]. destruct (E4 ltac:(lia)) as [_ Hs].
      by destruct (set_this _ _ _ _ _ Hs) as [?|[? _]].
    + intros Hp. destruct (decide (cur = cert)) as [|Hne]; [done|]. by destruct (E4 ltac:(lia)).
  - inversion Hc as [|?????|????|c0 p0 ms s0 s1 s2 _ _ _|m' ms s0 s1 Hm Hr]; [done|done| |].
    + subst. destruct (Hn c0 p0). constructor.
    + subst. apply IH; [|done]. intros c' p' Hin. apply (Hn c' p'). by constructor.
Qed.
End counters.

(** ** The integer of a counter *)

(** The shortest encoding of a number as an ASN.1 integer: the sign bit of the first byte is clear. *)
Fixpoint be_bytes (k : nat) (n : Z) : list Z :=
  match k with O => [] | S k => be_bytes k (n / 256) ++ [n mod 256] end.
Definition der_size (n : Z) : nat :=
  if n <? 2 ^ 7 then 1 else if n <? 2 ^ 15 then 2 else if n <? 2 ^ 23 then 3 else if n <? 2 ^ 31 then 4 else 5.
Definition der_int (n : Z) : list Z := 2 :: Z.of_nat (der_size n) :: be_bytes (der_size n) n.
(** The bytes at a reference. *)
Definition holds_at (ptr : Z) (img : list Z) (r : ref) (l : list Z) : Prop :=
  forall i b, l !! i = Some b -> byte_at ptr img r (Z.of_nat i) = Some b.

Lemma acc_step c b : 0 <= c < 2 ^ 24 -> 0 <= b < 256 -> Z.lor (u32 (Z.shiftl c 8)) b = c * 256 + b.
Proof. intros Hc Hb. rewrite Z.shiftl_mul_pow2, wrap_small by lia. by rewrite (lor_sum c b 8) by lia. Qed.
Lemma nv_ctr_bytes_eq ptr img r : forall l i c, Forall is_byte l ->
  (forall j b, l !! j = Some b -> byte_at ptr img r (i + Z.of_nat j) = Some b) -> 0 <= c -> c * 256 ^ zlen l < 2 ^ 32 - 256 ^ zlen l + 1 ->
  nv_ctr_bytes ptr img r i (length l) c = Some (foldl (fun c b => c * 256 + b) c l).
Proof.
  induction l as [|b l IH]; intros i c Hl Hb Hc Hlim; [done|]. cbn [nv_ctr_bytes length foldl]. apply Forall_cons in Hl as [Hb0 Hl].
  pose proof (Hb 0%nat b eq_refl) as E0. rewrite Z.add_0_r in E0. rewrite E0. cbn [mbind option_bind]. rewrite zlen_cons in Hlim.
  pose proof (zlen_nonneg l). rewrite Z.pow_add_r, Z.pow_1_r in Hlim by lia. assert (0 < 256 ^ zlen l) by (apply Z.pow_pos_nonneg; lia).
  unfold is_byte in Hb0. assert (256 * (c + 1) * 256 ^ zlen l <= 2 ^ 32) as Hm by lia. assert (256 * (c + 1) <= 2 ^ 32) by nia.
  rewrite acc_step by lia. apply IH; [done| |lia|].
  2: { assert ((c * 256 + b + 1) * 256 ^ zlen l <= 256 * (c + 1) * 256 ^ zlen l) by (apply Z.mul_le_mono_nonneg_r; lia). lia. }
  intros j b' Hj. specialize (Hb (S j) b' Hj). by replace (i + 1 + Z.of_nat j) with (i + Z.of_nat (S j)) by lia.
Qed.
Lemma be_bytes_length k : forall n, length (be_bytes k n) = k.
Proof. induction k as [|k IH]; intros n; [done|]. cbn. rewrite length_app, IH. cbn. lia. Qed.
Lemma be_bytes_bytes k : forall n, Forall is_byte (be_bytes k n).
Proof.
  induction k as [|k IH]; intros n; [constructor|]. cbn. apply Forall_app. split; [done|]. constructor; [|done].
  unfold is_byte. pose proof (Z.mod_pos_bound n 256). lia.
Qed.
Lemma be_bytes_value k : forall n, 0 <= n < 256 ^ Z.of_nat k -> foldl (fun c b => c * 256 + b) 0 (be_bytes k n) = n.
Proof.
  induction k as [|k IH]; intros n Hn; [cbn in *; lia|]. cbn [be_bytes]. rewrite foldl_app, IH; [cbn; pose proof (Z.div_mod n 256); lia|].
  rewrite Nat2Z.inj_succ, Z.pow_succ_r in Hn by lia. split; [apply Z.div_pos; lia|apply Z.div_lt_upper_bound; lia].
Qed.
Lemma be_bytes_head k n : be_bytes (S k) n !! 0%nat = Some (n / 256 ^ Z.of_nat k mod 256).
Proof.
  revert n. induction k as [|k IH]; intros n; [by rewrite Z.div_1_r|]. change (be_bytes (S (S k)) n) with (be_bytes (S k) (n / 256) ++ [n mod 256]).
  rewrite lookup_app_l by (rewrite be_bytes_length; lia). rewrite IH, Z.div_div by lia.
  rewrite Nat2Z.inj_succ, Z.pow_succ_r by lia. done.
Qed.

Lemma low_bits b : 0 <= b < 128 -> Z.land b 0x80 = 0.
Proof.
  intros Hb. change 0x80 with (Z.shiftl 1 7). replace b with (Z.land b (Z.ones 7)) by (rewrite Z.land_ones by lia; apply Z.mod_small; lia).
  bits; by rewrite Z.bits_0.
Qed.
(** [nv_ctr_parse] after the tag and the length byte [b]. *)
Definition nv_ctr_digits (ptr : Z) (img : list Z) (r : ref) (b : Z) : option (option Z) :=
  let len := Z.land b 0x7f in
  if negb (Z.land b 0x80 =? 0) || (4 <? len) then Some None else
  b ← byte_at ptr img r 2;
  if negb (Z.land b 0x80 =? 0) then Some None else
  c ← nv_ctr_bytes ptr img r 2 (Z.to_nat len) 0;
  Some (Some c).

(** The counter of a certificate is read back from its shortest encoding as an ASN.1 integer exactly
    when it is below 2^31; larger ones, whose encoding takes five bytes, are refused (although
    the comment says that counters have up to 32 bits). *)
Theorem nv_ctr_roundtrip ptr img r n :
  0 <= n < 2 ^ 32 -> holds_at ptr img r (der_int n) -> nv_ctr_parse ptr img r = Some (if n <? 2 ^ 31 then Some n else None).
Proof.
  intros Hn Hh. unfold nv_ctr_parse. rewrite (Hh 0%nat 2 eq_refl : byte_at ptr img r 0 = Some 2). cbn [mbind option_bind Z.eqb Pos.eqb negb ASN1_INTEGER].
  rewrite (Hh 1%nat _ eq_refl : byte_at ptr img r 1 = Some _). cbn [mbind option_bind].
  assert (byte_at ptr img r 2 = Some (n / 256 ^ Z.of_nat (pred (der_size n)) mod 256)) as E2.
  { apply (Hh 2%nat). assert (exists k, der_size n = S k) as [k Ek] by (unfold der_size; repeat case_match; eauto).
    cbn [der_int lookup list_lookup]. rewrite Ek. apply be_bytes_head. }
  assert (forall k, der_size n = k -> (k <= 4)%nat -> 0 <= n < 256 ^ Z.of_nat k -> nv_ctr_bytes ptr img r 2 k 0 = Some n) as Hv.
  { intros k Ek Hk Hnk. rewrite <- (be_bytes_length k n) at 1. rewrite nv_ctr_bytes_eq; [by rewrite be_bytes_value|apply be_bytes_bytes| |lia|].
    - intros j b Hj. replace (2 + Z.of_nat j) with (Z.of_nat (S (S j))) by lia. apply Hh. cbn. by rewrite Ek.
    - unfold zlen. rewrite be_bytes_length. assert (256 ^ Z.of_nat k <= 256 ^ 4) by (apply Z.pow_le_mono_r; lia). lia. }
  assert (forall k, der_size n = S k -> (k < 4)%nat -> n < 128 * 256 ^ Z.of_nat k ->
    nv_ctr_digits ptr img r (Z.of_nat (der_size n)) = Some (Some n)) as Hfin.
  { intros k Ek Hk Hlt. rewrite Ek in *. cbn [Nat.pred] in E2. assert (0 < 256 ^ Z.of_nat k) by (apply Z.pow_pos_nonneg; lia).
    assert (0 <= n / 256 ^ Z.of_nat k < 128) as Hb by (split; [apply Z.div_pos|apply Z.div_lt_upper_bound]; lia).
    assert (0 <= n < 256 ^ Z.of_nat (S k)) as Hr by (rewrite Nat2Z.inj_succ, Z.pow_succ_r by lia; lia).
    unfold nv_ctr_digits. rewrite E2, Z.mod_small by lia. cbn [mbind option_bind]. rewrite (low_bits _ Hb).
    assert (Z.land (Z.of_nat (S k)) 0x80 = 0 /\ Z.land (Z.of_nat (S k)) 0x7f = Z.of_nat (S k)) as [-> ->] by (by destruct k as [|[|[|[|k]]]]; [..|lia]).
    rewrite Z.eqb_refl, (proj2 (Z.ltb_ge _ _)) by lia. cbn [negb orb]. by rewrite Nat2Z.id, (Hv _ eq_refl) by (done || lia). }
  change (nv_ctr_digits ptr img r (Z.of_nat (der_size n)) = Some (if n <? 2 ^ 31 then Some n else None)).
  unfold der_size in *. repeat case_match; rewrite ?Z.ltb_lt, ?Z.ltb_ge in *; try lia; try done; (eapply Hfin; [done|lia|cbn; lia]).
Qed.

(** ** The theorems on calls *)
Lemma copies_sized `{AuthLib} indices w full es bs bs' : copies indices w full es bs bs' ->
  (forall b, zlen (bs b) = buf_len b) -> forall b, zlen (bs' b) = buf_len b.
Proof.
  induction 1 as [| |es bs bs' _ IH|e l es bs bs' _ _ Hl _ IH]; intros Hb; [done|done|by apply IH|]. apply IH. intros b.
  destruct (decide (b = ptr e)) as [->|]; [|done]. rewrite <- (Hb (ptr e)), zlen_app. unfold zlen in *. rewrite length_drop. lia.
Qed.

(** C26: With a parser for certificates, flags for every image and buffers of their declared
    size, a call of [auth_mod_verify_img] for any image of the chain of trust returns, on every path:
    no assertion fails, no NULL descriptor is compared in [auth_get_param], nothing outside the image is
    read and no buffer is overrun.  Of a certificate it is assumed that the parameters its descriptor asks for, as the
    parser reports them once the integrity check passed, lie inside the image, and that a counter has
    the bytes its length announces ([params_inside]): the framework does not check this, and the X.509
    parser does not guarantee it ([integrity_not_enough]).  The state is then again
    one in which every call returns, and an image that is refused is not marked as authenticated. *)
Theorem auth_verify_defined `{AuthLaws} `{!LibLaws} (s : am) id ptr img :
  is_Some (lib_of (parser_lib_indices s) IMG_CERT) -> length (auth_img_flags s) = length cot_desc -> sized s ->
  0 <= id < zlen cot_desc -> ptr <> 0 -> img <> [] ->
  (forall d, cot_desc !! Z.to_nat id = Some d -> itype d = IMG_CERT -> params_inside d ptr img) ->
  exists rc s', auth_mod_verify_img cot_desc ptr img id s = Some (rc, s') /\
    parser_lib_indices s' = parser_lib_indices s /\ length (auth_img_flags s') = length cot_desc /\ sized s' /\
    (rc <> 0 -> auth_img_flags s' = auth_img_flags s).
Proof.
  intros Hc Hf Hs Hid Hptr Himg Hin. destruct (verify_df (parser_lib_indices s) Hc id ptr img s) as [[rc s'] Ev]; [done..|].
  exists rc, s'. split; [done|]. pose proof (verify_ok cot_desc (parser_lib_indices s) rotpk_kept _ _ _ _ eq_refl _ _ Ev)
    as (d & w & _ & _ & _ & H2 & _ & _ & Hfl & Hb). split; [done|]. destruct (Z.eqb_spec rc 0) as [->|Hrc].
  - destruct Hfl as (v & _ & ->). rewrite length_insert. split; [done|]. split; [|done]. destruct Hb as [[? _]|(_ & _ & Hcp)]; [done|]. exact (copies_sized _ _ _ _ _ _ Hcp Hs).
  - rewrite Hfl. split; [done|]. split; [|done]. destruct Hb as [[_ Hb]|(_ & _ & Hcp)]; [unfold sized; by rewrite Hb|exact (copies_sized _ _ _ _ _ _ Hcp Hs)].
Qed.

Lemma nv_methods id d c p : cot_desc !! Z.to_nat id = Some d -> AUTH_METHOD_NV_CTR c p ∈ img_auth_methods d ->
  exists pre post, img_auth_methods d = pre ++ AUTH_METHOD_NV_CTR c p :: post /\ forall c p, AUTH_METHOD_NV_CTR c p ∉ pre ++ post.
Proof.
  set (nv m := match m with AUTH_METHOD_NV_CTR _ _ => true | _ => false end).
  assert (forallb (fun d => match img_auth_methods d with m1 :: m2 :: ms => negb (nv m1) && forallb (fun m => negb (nv m)) ms | _ => false end) cot_desc = true)
    as Hf by by vm_compute.
  intros Hd Hin. rewrite forallb_forall in Hf. specialize (Hf d ltac:(by eapply list_elem_of_In, list_elem_of_lookup_2)).
  destruct (img_auth_methods d) as [|m1 [|m2 ms]]; [done..|]. apply andb_true_iff in Hf as [H1 H2]. rewrite forallb_forall in H2.
  assert (forall c p, AUTH_METHOD_NV_CTR c p ∉ m1 :: ms) as Hn.
  { intros c' p' Hc'. apply elem_of_cons in Hc' as [<-|Hc']; [done|]. apply list_elem_of_In, H2 in Hc'. done. }
  exists [m1], ms. split; [|done]. apply elem_of_cons in Hin as [<-|Hin]; [done|]. apply elem_of_cons in Hin as [<-|Hin]; [done|].
  destruct (Hn c p). by constructor.
Qed.

(** C27: No sequence of calls, whatever is presented, makes a counter of the platform smaller.  When a
    certificate with a counter is accepted, its counter is that of the platform
    afterwards; only a certificate of the root can have raised it. *)
Theorem nv_counters_monotone `{AuthLaws} `{!CounterLaws} (s0 s : am) :
  rtc verify_step s0 s ->
  (forall oid n, plat_get_nv_ctr (plat s0) oid = Some (0, n) -> exists n', plat_get_nv_ctr (plat s) oid = Some (0, n') /\ n <= n') /\
  (forall id ptr img s' d c p, auth_mod_verify_img cot_desc ptr img id s = Some (0, s') -> cot_desc !! Z.to_nat id = Some d ->
     AUTH_METHOD_NV_CTR c p ∈ img_auth_methods d ->
     exists cert cur, vnv (parser_lib_indices s) (View (itype d) ptr img (parser_vars s')) c = Some cert /\
       plat_get_nv_ctr (plat s) (cookie p) = Some (0, cur) /\ cur <= cert /\
       plat_get_nv_ctr (plat s') (cookie p) = Some (0, cert) /\ (parent d <> None -> cur = cert)).
Proof.
  intros Hs. split.
  - change (grows s0 s). induction Hs as [|s s1 s' (id & p & img & rc & Ev) _ IH]; [by apply grows_refl|].
    pose proof (verify_ok cot_desc (parser_lib_indices s) rotpk_kept _ _ _ _ eq_refl _ _ Ev) as (d & w & _ & _ & _ & _ & _ & (t & t' & E1 & E2 & Hc) & _).
    apply counters_grow in Hc. intros oid n Hn. rewrite <- E1 in Hn. destruct (Hc oid n Hn) as (n1 & Hn1 & ?). rewrite E2 in Hn1.
    destruct (IH oid n1 Hn1) as (n2 & ? & ?). exists n2. split; [done|lia].
  - intros id ptr img s' d c p Ev Hd Hin.
    pose proof (verify_ok cot_desc (parser_lib_indices s) rotpk_kept _ _ _ _ eq_refl _ _ Ev) as (d' & w & _ & Hd' & -> & _ & _ & (t & t' & E1 & E2 & Hc) & _).
    assert (d' = d) as -> by congruence. destruct (nv_methods _ _ _ _ Hd Hin) as (pre & post & Em & Hn). rewrite Em in Hc.
    apply counters_exact in Hc; [|done]. by rewrite E1, E2 in Hc.
Qed.
End AuthRun.
