(* ===== verification/AuthExamples.v ===== *)
(** * Authentication: a concrete library, and what it shows

    [demo] is an instance of [AuthLib]: certificates of twelve bytes, a signature or a
    digest that is the first byte of the key or of the data, the root key and the counters of
    the Arm boards ([ArmBoard]).  It satisfies all laws ([AuthLaws], [LibLaws], [CounterLaws]), so the
    theorems apply to it; with it, two runs in which the shared buffers of the chain of
    trust let one image pass for another. *)

From Stdlib Require Import ZArith Lia.
From stdpp Require Import base option list numbers strings relations.
From S2P Require Import Prelude CMonad LoadImage LoadSpec Auth AuthCot AuthProps AuthSpec AuthRun.
Import Auth AuthProps AuthSpec AuthRun Cot.
Open Scope Z_scope.

Module AuthExamples.

(** ** The library *)
Definition demo_check (v : unit) (ptr : Z) (img : list Z) : option (Z * unit) :=
  Some (if (0 <? ptr) && (zlen img =? 12) && bool_decide (img !! 9%nat = Some 1) then IMG_PARSER_OK else IMG_PARSER_ERR_FORMAT, tt).
Definition demo_get (v : unit) (td : auth_param_type_desc) (ptr : Z) (img : list Z) : option (Z * option (Z * Z)) :=
  Some (match type td with
        | AUTH_PARAM_RAW_DATA => (0, Some (ptr, 4))
        | AUTH_PARAM_SIG => (0, Some (ptr + 4, 1))
        | AUTH_PARAM_SIG_ALG => (0, Some (ptr + 5, 1))
        | AUTH_PARAM_HASH => (0, Some (ptr + 6, 2))
        | AUTH_PARAM_PUB_KEY => (0, Some (match cookie td with Some _ => (ptr + 6, 2) | None => (ptr, 1) end))
        | AUTH_PARAM_NV_CTR => (0, Some (ptr + 8, 3))
        | AUTH_PARAM_NONE => (IMG_PARSER_ERR_NOT_FOUND, None)
        end).
Definition same_head (a b : list Z) : bool := bool_decide (head a = head b) && bool_decide (head b <> Some 0).
#[global] Instance demo : AuthLib :=
  {| pstate := unit; parser_lib_descs := [ParserLib unit IMG_CERT demo_check demo_get];
     verify_signature := fun D S A K => Some (if same_head S K then 0 else 3);
     verify_hash := fun D h => Some (if same_head D h then 0 else 2);
     plat_state := ArmBoard.regs;
     plat_get_rotpk_info := ArmBoard.plat_get_rotpk_info ArmBoard.ARM_ROTPK_DEVEL_RSA_ID;
     plat_get_nv_ctr := ArmBoard.plat_get_nv_ctr;
     plat_set_nv_ctr := ArmBoard.fvp_set_nv_ctr false |}.

Lemma demo_head_blank n l : same_head l (replicate n 0) = true -> n = 0%nat.
Proof. destruct n; [done|]. unfold same_head. cbn. intros [_ Hn%bool_decide_eq_true]%andb_true_iff. done. Qed.
#[global] Instance demo_laws : AuthLaws.
Proof.
  split.
  - intros pl oid n rc pl' _. done.
  - intros l. cbn [verify_hash demo]. intros [= Hv]. destruct (same_head l _) eqn:E; [|done]. apply demo_head_blank in E. done.
  - intros D S A. cbn [verify_signature demo]. intros [= Hv]. destruct (same_head S _) eqn:E; [|done]. apply demo_head_blank in E. done.
Qed.
#[global] Instance demo_counters : CounterLaws.
Proof.
  assert (TRUSTED_FW_NVCOUNTER_OID <> NON_TRUSTED_FW_NVCOUNTER_OID) as Hne by done. split; cbn; unfold ArmBoard.fvp_set_nv_ctr, ArmBoard.plat_get_nv_ctr.
  - intros pl [oid|] n rc pl' [oid'|]; cbn; try done. intros E Hn. assert (oid' <> oid) as Hn' by congruence.
    destruct (decide (oid = TRUSTED_FW_NVCOUNTER_OID)) as [->|Ho1]; [injection E as <- <-|destruct (decide (oid = NON_TRUSTED_FW_NVCOUNTER_OID)) as [->|Ho2]; injection E as <- <-];
      destruct (decide (oid' = TRUSTED_FW_NVCOUNTER_OID)), (decide (oid' = NON_TRUSTED_FW_NVCOUNTER_OID)); cbn; congruence.
  - intros pl [oid|] n rc pl'; cbn; try done.
    destruct (decide (oid = TRUSTED_FW_NVCOUNTER_OID)) as [->|Ho1]; [|destruct (decide (oid = NON_TRUSTED_FW_NVCOUNTER_OID)) as [->|Ho2]];
      intros [= <- <-]; cbn; rewrite ?Z.eqb_refl; auto.
Qed.
(** The parameters of a certificate that passes the check are in it. *)
Lemma demo_inside d ptr img : params_inside d ptr img.
Proof.
  intros lib v0 v td. cbn [parser_lib_descs demo pstate]. intros ->%list_elem_of_singleton Hc _. cbn [check_integrity get_auth_param] in *. unfold demo_check in Hc. injection Hc as Hc _.
  destruct (_ && _ && _) eqn:E; [|done]. rewrite !andb_true_iff in E. destruct E as ((Hp%Z.ltb_lt & Hl%Z.eqb_eq) & H9%bool_decide_eq_true).
  unfold demo_get. destruct (type td) eqn:Et; cbn [get_auth_param]; eexists _, _; (split; [done|]); intros Hz; try done.
  1-4: eexists _, _; split; [done|]; (split_and!; [lia..|done]).
  + destruct (cookie td); eexists _, _; (split; [done|]); (split_and!; [lia..|done]).
  + eexists _, _; split; [done|]; (split_and!; [lia..|intros _]). unfold zlen in Hl.
    destruct img as [|? [|? [|? [|? [|? [|? [|? [|? [|b8 [|b9 [|b10 [|b11 [|? ?]]]]]]]]]]]]]; cbn in Hl; try lia. injection H9 as ->.
    assert (forall i, 0 <= i -> byte_at ptr [z; z0; z1; z2; z3; z4; z5; z6; b8; 1; b10; b11] (InImg (ptr + 8) 3) i =
      [z; z0; z1; z2; z3; z4; z5; z6; b8; 1; b10; b11] !! Z.to_nat (8 + i)) as Hb.
    { intros i Hi. cbn [byte_at]. rewrite (proj2 (Z.ltb_ge _ _)) by lia. do 2 f_equal. lia. }
    unfold nv_ctr_parse. rewrite !Hb by lia. change (Z.to_nat (8 + 0)) with 8%nat. change (Z.to_nat (8 + 1)) with 9%nat.
    change (Z.to_nat (8 + 2)) with 10%nat. cbn [lookup list_lookup mbind option_bind]. destruct (negb (b8 =? ASN1_INTEGER)); [by eexists|].
    change (Z.land 1 0x80) with 0. change (Z.land 1 0x7f) with 1. cbn [Z.eqb negb orb Z.ltb Z.compare Pos.compare Pos.compare_cont].
    destruct (negb (Z.land b10 0x80 =? 0)); [by eexists|]. change (Z.to_nat 1) with 1%nat. cbn [nv_ctr_bytes]. rewrite Hb by lia. by eexists.
Qed.
#[global] Instance demo_lib : LibLaws.
Proof.
  split; cbn [parser_lib_descs demo pstate].
  - intros lib v ptr img ->%list_elem_of_singleton _ _. by eexists.
  - intros. by eexists.
  - intros. by eexists.
  - intros pl oid. eexists _, _, _. split; [done|]. done.
  - intros pl oid. by eexists.
  - intros pl oid n. unfold ArmBoard.fvp_set_nv_ctr. cbn. destruct (decide _); [by eexists|]. destruct (decide _); by eexists.
Qed.

(** ** Runs *)
Definition demo_reset : am := Am (replicate 21 0) init_bufs [] tt (ArmBoard.Regs [] 5 3).
Definition demo_start : am := Am (replicate 21 0) init_bufs [INVALID_IDX; INVALID_IDX; 0] tt (ArmBoard.Regs [] 5 3).
Lemma demo_init : auth_mod_init demo_reset = Some (tt, demo_start).
Proof. done. Qed.
(** A certificate with the subject key [pk], the signature [sig], one parameter [v] and a counter. *)
Definition demo_cert (pk sig v n : Z) : list Z := [pk; 1; 2; 3; sig; 0; v; v; 2; 1; n; 0].
Definition demo_verify (id : Z) (img : list Z) (s : am) : option (Z * am) := auth_mod_verify_img cot_desc 0x1000 img id s.
Definition after (id : Z) (img : list Z) (s : am) : am := default s (snd <$> demo_verify id img s).
(** The certificate of BL2, with a larger counter, and BL2. *)
Definition bl2_cert : list Z := demo_cert 0x30 0x30 7 6.
Definition bl2 : list Z := [7; 7; 7].
Lemma bl2_cert_ok : demo_verify TRUSTED_BOOT_FW_CERT_ID bl2_cert demo_start = Some (0, after TRUSTED_BOOT_FW_CERT_ID bl2_cert demo_start).
Proof. by vm_compute. Qed.

Lemma bl2_cert_step : rtc verify_step demo_start (after TRUSTED_BOOT_FW_CERT_ID bl2_cert demo_start).
Proof. apply rtc_once. exists TRUSTED_BOOT_FW_CERT_ID, 0x1000, bl2_cert, 0. exact bl2_cert_ok. Qed.
Lemma bl2_ok : exists s', demo_verify BL2_IMAGE_ID bl2 (after TRUSTED_BOOT_FW_CERT_ID bl2_cert demo_start) = Some (0, s').
Proof. eexists. by vm_compute. Qed.

Lemma auth_chain_rooted_witness : exists d v, cot_desc !! 1%nat = Some d /\
  genuine cot_desc [INVALID_IDX; INVALID_IDX; 0] (plat_get_rotpk_info (ArmBoard.Regs [] 5 3)) (View (itype d) 0x1000 bl2 v) BL2_IMAGE_ID.
Proof.
  destruct bl2_ok as [s' E].
  exact (auth_chain_rooted demo_start _ BL2_IMAGE_ID 0x1000 bl2 s' (fun b => eq_refl) bl2_cert_step ltac:(by apply (bool_decide_unpack _)) E).
Defined.
Lemma load_auth_chain_witness : exists d v, cot_desc !! 1%nat = Some d /\
  chained cot_desc [INVALID_IDX; INVALID_IDX; 0] (plat_get_rotpk_info (ArmBoard.Regs [] 5 3)) (View (itype d) 0x1000 bl2 v) BL2_IMAGE_ID.
Proof.
  destruct bl2_ok as [s' E]. refine (load_auth_chain demo_start demo_start BL2_IMAGE_ID 0x1000 bl2 s' (fun b => eq_refl) (rtc_refl _ _)
    ltac:(by apply (bool_decide_unpack _)) _ _).
  - intros q Hq. right. intros (v & Ev & Hv). unfold demo_start in Ev. cbn [auth_img_flags] in Ev. apply lookup_replicate in Ev as [-> _]. by apply Hv.
  - eapply (LoadSpec.trusted_child _ TRUSTED_BOOT_FW_CERT_ID _ 0x1000 bl2_cert); [by vm_compute| |exact E].
    eapply LoadSpec.trusted_root; [by vm_compute|done|exact bl2_cert_ok].
Defined.
Lemma nv_ctr_roundtrip_witness : nv_ctr_parse 0x1000 (der_int 0x12345) (InImg 0x1000 5) = Some (Some 0x12345).
Proof.
  refine (nv_ctr_roundtrip 0x1000 (der_int 0x12345) (InImg 0x1000 5) 0x12345 ltac:(lia) _). intros i b Hb. unfold byte_at.
  rewrite (proj2 (Z.ltb_ge _ _)) by lia. rewrite <- Hb. f_equal. lia.
Defined.
Lemma auth_verify_defined_witness : exists rc s', auth_mod_verify_img cot_desc 0x1000 bl2_cert TRUSTED_BOOT_FW_CERT_ID demo_start = Some (rc, s') /\
  parser_lib_indices s' = parser_lib_indices demo_start /\ length (auth_img_flags s') = length cot_desc /\ sized s' /\
  (rc <> 0 -> auth_img_flags s' = auth_img_flags demo_start).
Proof.
  refine (auth_verify_defined demo_start TRUSTED_BOOT_FW_CERT_ID 0x1000 bl2_cert _ eq_refl _ _ _ _ _); [by eexists| |done|done|done|].
  - intros []; done.
  - intros d _ _. apply demo_inside.
Defined.
Lemma nv_counters_monotone_witness : exists n', plat_get_nv_ctr (plat (after TRUSTED_BOOT_FW_CERT_ID bl2_cert demo_start)) (Some TRUSTED_FW_NVCOUNTER_OID) = Some (0, n') /\ 5 <= n'.
Proof. exact (proj1 (nv_counters_monotone demo_start _ bl2_cert_step) (Some TRUSTED_FW_NVCOUNTER_OID) 5 eq_refl). Defined.

(** ** Shared buffers *)

(** Nothing requires that the parent of an image has been authenticated, and certificates share
    buffers: (1) once BL1 has accepted the certificate of BL2, the image of BL2 is accepted as the updater
    BL2U, without any certificate of the updater; (2) once the key certificates for BL31 and then for the
    SCP firmware have been accepted, a content certificate for BL31 that is signed with the key
    of the SCP firmware is accepted. *)
Theorem auth_buffers_shared :
  (exists s1 s2, demo_verify TRUSTED_BOOT_FW_CERT_ID (demo_cert 0x30 0x30 7 5) demo_start = Some (0, s1) /\
     demo_verify BL2U_IMAGE_ID bl2 s1 = Some (0, s2) /\ auth_img_flags s2 !! Z.to_nat FWU_CERT_ID = Some 0) /\
  (exists s1 s2 s3 s4, demo_verify TRUSTED_KEY_CERT_ID (demo_cert 0x30 0x30 7 5) demo_start = Some (0, s1) /\
     demo_verify SOC_FW_KEY_CERT_ID (demo_cert 0 7 0xA 5) s1 = Some (0, s2) /\
     demo_verify SCP_FW_KEY_CERT_ID (demo_cert 0 7 0xB 5) s2 = Some (0, s3) /\
     demo_verify SOC_FW_CONTENT_CERT_ID (demo_cert 0 0xB 9 5) s3 = Some (0, s4)).
Proof.
  split.
  - exists (after TRUSTED_BOOT_FW_CERT_ID (demo_cert 0x30 0x30 7 5) demo_start).
    exists (after BL2U_IMAGE_ID bl2 (after TRUSTED_BOOT_FW_CERT_ID (demo_cert 0x30 0x30 7 5) demo_start)). split_and!; by vm_compute.
  - set (s1 := after TRUSTED_KEY_CERT_ID (demo_cert 0x30 0x30 7 5) demo_start). set (s2 := after SOC_FW_KEY_CERT_ID (demo_cert 0 7 0xA 5) s1).
    set (s3 := after SCP_FW_KEY_CERT_ID (demo_cert 0 7 0xB 5) s2). exists s1, s2, s3, (after SOC_FW_CONTENT_CERT_ID (demo_cert 0 0xB 9 5) s3).
    split_and!; by vm_compute.
Qed.
End AuthExamples.
