(* ===== verification/Bl31.v ===== *)
(** * Runtime services of the resident firmware

    common/runtime_svc.c and services/std_svc/std_svc_setup.c: how an SMC finds the handler of its
    service.  Functions of a service run on the core [my].  [panic] and calls after which the core does
    not return to the caller yield [None] as their result. *)

From Stdlib Require Import ZArith Lia.
From stdpp Require Import base option list numbers strings.
From S2P Require Import Prelude CMonad Psci.
Open Scope Z_scope.
Open Scope cint_scope.

Module RtSvc.
Definition EINVAL := 22.
Definition FUNCID_TYPE_SHIFT := 31.
Definition FUNCID_OEN_SHIFT := 24.
Definition FUNCID_TYPE_MASK := 0x1.
Definition FUNCID_OEN_MASK := 0x3f.
Definition FUNCID_OEN_WIDTH := 6.
Definition SMC_UNK := 0xffffffff.
Definition SMC_TYPE_FAST := 1.
Definition SMC_TYPE_STD := 0.
Definition OEN_STD_START := 4.
Definition OEN_STD_END := 4.
Definition OEN_LIMIT := 64.
Definition MAX_RT_SVCS := 128.

Definition get_unique_oen (oen call_type : Z) : Z :=
  Z.lor (Z.land oen FUNCID_OEN_MASK) (Z.shiftl (Z.land call_type FUNCID_TYPE_MASK) FUNCID_OEN_WIDTH).
Definition get_unique_oen_from_smc_fid (fid : Z) : Z :=
  get_unique_oen (Z.shiftr fid FUNCID_OEN_SHIFT) (Z.shiftr fid FUNCID_TYPE_SHIFT).

Section svc.
(** The state of the services. *)
Context {St : Type}.
(** [gpregs] are the registers of the caller in its context. *)
Record rt := Rt { rt_svc_descs_indices : list Z; gpregs : list Z; svc : St }.
Definition set_indices i r := Rt i (gpregs r) (svc r).
Definition set_gpregs g r := Rt (rt_svc_descs_indices r) g (svc r).
Definition set_svc s r := Rt (rt_svc_descs_indices r) (gpregs r) s.
Abbreviation X := (M rt).
Definition lift {A} (m : M St A) : X A := fun r => '(x, s) ← m (svc r); Some (x, set_svc s r).

Definition read_gpreg (i : nat) : X Z := g ← gets gpregs; must (g !! i).
Definition write_gpreg (i : nat) (v : Z) : X unit :=
  g ← gets gpregs;
  massert (bool_decide (i < length g)%nat);;
  modify (set_gpregs (<[i := v]> g)).
Definition SMC_RET1 (x0 : Z) : X (option unit) := write_gpreg 0 x0;; mret (Some tt).
Definition SMC_RET2 (x0 x1 : Z) : X (option unit) := write_gpreg 1 x1;; SMC_RET1 x0.
Definition SMC_RET3 (x0 x1 x2 : Z) : X (option unit) := write_gpreg 2 x2;; SMC_RET2 x0 x1.
Definition SMC_RET4 (x0 x1 x2 x3 : Z) : X (option unit) := write_gpreg 3 x3;; SMC_RET3 x0 x1 x2.

Record rt_svc_desc := SvcDesc {
  start_oen : Z;
  end_oen : Z;
  call_type : Z;
  name : string;
  init : option (nat -> M St Z);
  (** The core, the function, [x1] to [x4] and the flags. *)
  handle : option (nat -> Z -> Z -> Z -> Z -> Z -> Z -> X (option unit))
}.

Definition validate_rt_svc_desc (desc : option rt_svc_desc) : Z :=
  match desc with
  | None => - EINVAL
  | Some d =>
      if end_oen d <? start_oen d then - EINVAL
      else if OEN_LIMIT <=? end_oen d then - EINVAL
      else if negb (call_type d =? SMC_TYPE_FAST) && negb (call_type d =? SMC_TYPE_STD) then - EINVAL
      else match init d, handle d with None, None => - EINVAL | _, _ => 0 end
  end.

(** The descriptors that the linker has collected. *)
Context (rt_svc_descs : list rt_svc_desc).
Definition RT_SVC_DECS_NUM : Z := zlen rt_svc_descs.

(** [n] entries of the array of indices, from [start_idx] on. *)
Fixpoint fill_indices (n : nat) (start_idx index : Z) : X unit :=
  match n with
  | O => mret tt
  | S n =>
      l ← gets rt_svc_descs_indices;
      massert ((0 <=? start_idx) && (start_idx <? zlen l));;
      modify (set_indices (<[Z.to_nat start_idx := wrap 8 index]> l));;
      fill_indices n (start_idx + 1) index
  end.
Fixpoint init_loop (my : nat) (services : list rt_svc_desc) (index : Z) : X (option unit) :=
  match services with
  | [] => mret (Some tt)
  | service :: services =>
      if negb (validate_rt_svc_desc (Some service) =? 0) then mret None
      else
        rc ← (match init service with Some init => lift (init my) | None => mret 0 end);
        if negb (rc =? 0) then init_loop my services (index + 1)
        else
          let start_idx := get_unique_oen (start_oen service) (call_type service) in
          massert (start_idx <? MAX_RT_SVCS);;
          let end_idx := get_unique_oen (end_oen service) (call_type service) in
          massert (end_idx <? MAX_RT_SVCS);;
          fill_indices (Z.to_nat (end_idx - start_idx + 1)) start_idx index;;
          init_loop my services (index + 1)
  end.
Definition runtime_svc_init (my : nat) : X (option unit) :=
  massert (RT_SVC_DECS_NUM <? MAX_RT_SVCS);;
  if RT_SVC_DECS_NUM =? 0 then mret (Some tt)
  else
    modify (fun r => set_indices (replicate (length (rt_svc_descs_indices r)) 0xff) r);;
    init_loop my rt_svc_descs 0.

Definition handle_runtime_svc (my : nat) (smc_fid flags : Z) : X (option unit) :=
  let idx := get_unique_oen_from_smc_fid smc_fid in
  massert ((0 <=? idx) && (idx <? MAX_RT_SVCS));;
  l ← gets rt_svc_descs_indices;
  index ← must (l !! Z.to_nat idx);
  if (index <? 0) || (RT_SVC_DECS_NUM <=? index) then SMC_RET1 SMC_UNK
  else
    x1 ← read_gpreg 1; x2 ← read_gpreg 2; x3 ← read_gpreg 3; x4 ← read_gpreg 4;
    d ← must (rt_svc_descs !! Z.to_nat index);
    h ← must (handle d);
    h my smc_fid x1 x2 x3 x4 flags.
End svc.
Arguments rt : clear implicits.
Arguments rt_svc_desc : clear implicits.

(** ** The standard service: std_svc_setup.c *)
Definition ARM_STD_SVC_CALL_COUNT := 0x8400ff00.
Definition ARM_STD_SVC_UID := 0x8400ff01.
Definition ARM_STD_SVC_VERSION := 0x8400ff03.
Definition STD_SVC_VERSION_MAJOR := 0.
Definition STD_SVC_VERSION_MINOR := 1.
(** Without statistics. *)
Definition PSCI_NUM_CALLS := 18.
(** [arm_svc_uid], as the four words of a little-endian machine. *)
Definition arm_svc_uid : list Z := [0x108d905b; 0x47e8f863; 0xfbc02dae; 0xe2f64156].

Section std_svc.
Context `{Psci.Plat} (topology : list Z).
Definition std_svc_setup (my : nat) : M Psci.psci Z := Psci.psci_setup my topology;; mret 0.
Definition std_svc_smc_handler (my : nat) (smc_fid x1 x2 x3 x4 flags : Z) : M (rt Psci.psci) (option unit) :=
  if Psci.is_psci_fid smc_fid then
    r ← lift (Psci.psci_smc_handler my smc_fid x1 x2 x3 flags);
    match r with Some x0 => SMC_RET1 x0 | None => mret None end
  else if smc_fid =? ARM_STD_SVC_CALL_COUNT then SMC_RET1 PSCI_NUM_CALLS
  else if smc_fid =? ARM_STD_SVC_UID then
    match arm_svc_uid with [a; b; c; d] => SMC_RET4 a b c d | _ => must None end
  else if smc_fid =? ARM_STD_SVC_VERSION then SMC_RET2 STD_SVC_VERSION_MAJOR STD_SVC_VERSION_MINOR
  else SMC_RET1 SMC_UNK.
Definition std_svc : rt_svc_desc Psci.psci :=
  SvcDesc OEN_STD_START OEN_STD_END SMC_TYPE_FAST "std_svc" (Some std_svc_setup) (Some std_svc_smc_handler).
End std_svc.
End RtSvc.
