(* ===== verification/Bl31Spec.v ===== *)
(** * Runtime services: the theorems

    [rt_svc_dispatch]: an SMC reaches the last service declared for its owner and call type
    among those whose initialisation succeeded, or is unknown.  [bl31_smc_spec]: with the standard
    service, as on the Marvell platforms, every SMC of a running core is defined, keeps the invariant
    of PSCI, and what the caller gets. *)

From Stdlib Require Import ZArith Lia.
From stdpp Require Import base option list numbers strings.
From S2P Require Import Prelude CMonad Psci PsciProps PsciInv PsciSetup MarvellPlat PsciSpec Bl31.
Import Psci PsciTree PsciInv PsciSetup PsciSpec RtSvc.
Open Scope Z_scope.

Module Bl31Spec.

(** ** Owning entity numbers *)
Lemma unique_oen_eq oen ct : 0 <= oen < 64 -> ct = SMC_TYPE_FAST \/ ct = SMC_TYPE_STD -> get_unique_oen oen ct = oen + 64 * ct.
Proof.
  intros Ho Hc. unfold get_unique_oen, FUNCID_OEN_MASK, FUNCID_TYPE_MASK, FUNCID_OEN_WIDTH. change 0x3f with (Z.ones 6).
  rewrite Z.land_ones, Z.mod_small by (cbn; lia). replace (Z.shiftl (Z.land ct 1) 6) with (64 * ct) by (destruct Hc as [-> | ->]; done).
  rewrite Z.add_comm, Z.lor_comm, (Z.mul_comm 64). apply (lor_sum ct oen 6); cbn; lia.
Qed.
Definition fid_oen (fid : Z) : Z := (fid / 2 ^ 24) mod 64.
Definition fid_type (fid : Z) : Z := fid / 2 ^ 31.
Lemma fid_range fid : 0 <= fid < 2 ^ 32 -> 0 <= fid_oen fid < 64 /\ (fid_type fid = SMC_TYPE_FAST \/ fid_type fid = SMC_TYPE_STD).
Proof. intros H. unfold fid_oen, fid_type, SMC_TYPE_FAST, SMC_TYPE_STD. split; [apply Z.mod_pos_bound; lia|].
  assert (0 <= fid / 2 ^ 31 < 2) by (split; [apply Z.div_pos|apply Z.div_lt_upper_bound]; lia). lia. Qed.
Lemma fid_unique fid : 0 <= fid < 2 ^ 32 -> get_unique_oen_from_smc_fid fid = fid_oen fid + 64 * fid_type fid.
Proof.
  intros H. pose proof (fid_range _ H) as [H1 H2]. unfold get_unique_oen_from_smc_fid, FUNCID_OEN_SHIFT, FUNCID_TYPE_SHIFT.
  rewrite !Z.shiftr_div_pow2 by lia.
  fold (fid_type fid).
  rewrite <- (unique_oen_eq _ _ H1 H2). unfold get_unique_oen, fid_oen, FUNCID_OEN_MASK. change 0x3f with (Z.ones 6).
  rewrite !Z.land_ones by lia. change (2 ^ 6) with 64. by rewrite Zmod_mod.
Qed.

(** ** The table *)
Section dispatch.
Context {St : Type}.
Implicit Types (d : rt_svc_desc St) (ds : list (rt_svc_desc St)) (bs : list bool) (r : rt St).

(** The fields of a descriptor have 8 bits; it passes the check. *)
Definition desc_ok d : Prop := 0 <= start_oen d < 256 /\ 0 <= end_oen d < 256 /\ 0 <= call_type d < 256 /\ validate_rt_svc_desc (Some d) = 0.
Definition start_idx d := get_unique_oen (start_oen d) (call_type d).
Definition end_idx d := get_unique_oen (end_oen d) (call_type d).
Lemma desc_ok_idx d : desc_ok d -> 0 <= start_oen d <= end_oen d /\ end_oen d < 64 /\ (call_type d = SMC_TYPE_FAST \/ call_type d = SMC_TYPE_STD) /\
  start_idx d = start_oen d + 64 * call_type d /\ end_idx d = end_oen d + 64 * call_type d /\ end_idx d < 128.
Proof.
  intros (H1 & H2 & H3 & Hv). unfold validate_rt_svc_desc, OEN_LIMIT in Hv. destruct (Z.ltb_spec (end_oen d) (start_oen d)); [done|].
  destruct (Z.leb_spec 64 (end_oen d)); [done|].
  assert (call_type d = SMC_TYPE_FAST \/ call_type d = SMC_TYPE_STD) as Hc.
  { destruct (Z.eqb_spec (call_type d) SMC_TYPE_FAST); [by left|]. destruct (Z.eqb_spec (call_type d) SMC_TYPE_STD); [by right|done]. }
  unfold start_idx, end_idx. rewrite !unique_oen_eq by (done || lia). split_and!; try done; try lia. destruct Hc as [-> | ->]; unfold SMC_TYPE_FAST, SMC_TYPE_STD; lia.
Qed.

(** Which services came up, and the state they leave. *)
Fixpoint inits (my : nat) ds (s : St) : option (list bool * St) :=
  match ds with
  | [] => Some ([], s)
  | d :: ds =>
      '(rc, s) ← (match init d with Some f => f my s | None => Some (0, s) end);
      '(bs, s) ← inits my ds s;
      Some ((rc =? 0) :: bs, s)
  end.

Definition covers ds bs (i : nat) (u : Z) : Prop :=
  exists d, ds !! i = Some d /\ bs !! i = Some true /\ start_idx d <= u <= end_idx d.
Definition last_cover ds bs (i : nat) (u : Z) : Prop := covers ds bs i u /\ forall j, (i < j)%nat -> ~ covers ds bs j u.
Definition entry_ok ds bs (u v : Z) : Prop :=
  v = 0xff /\ (forall i, ~ covers ds bs i u) \/ exists i, v = Z.of_nat i /\ last_cover ds bs i u.
Definition table ds bs (l : list Z) : Prop :=
  length l = 128%nat /\ forall u, (u < 128)%nat -> exists v, l !! u = Some v /\ entry_ok ds bs (Z.of_nat u) v.

Lemma handled_app ds bs ds' bs' i u : length ds = length bs -> covers (ds ++ ds') (bs ++ bs') i u <->
  if decide (i < length ds)%nat then covers ds bs i u else covers ds' bs' (i - length ds) u.
Proof.
  intros Hl. unfold covers. destruct (decide _).
  - rewrite !lookup_app_l by lia. done.
  - rewrite !lookup_app_r by lia. by rewrite Hl.
Qed.
Lemma covers_lt ds bs i u : covers ds bs i u -> (i < length ds)%nat.
Proof. intros (d & Hd & _). by eapply lookup_lt_Some. Qed.
Lemma covers_one d b i u : covers [d] [b] i u <-> i = 0%nat /\ b = true /\ start_idx d <= u <= end_idx d.
Proof.
  split.
  - intros (d' & Hd & Hb & Hu). destruct i as [|i]; [|done]. injection Hd as ->. by injection Hb as ->.
  - intros (-> & -> & Hu). by exists d.
Qed.

Lemma fill_spec (n : nat) : forall start index r, 0 <= start -> start + Z.of_nat n <= zlen (rt_svc_descs_indices r) ->
  exists l, fill_indices n start index r = Some (tt, set_indices l r) /\ length l = length (rt_svc_descs_indices r) /\
    forall u, (u < length l)%nat -> l !! u = if decide (start <= Z.of_nat u < start + Z.of_nat n) then Some (wrap 8 index) else rt_svc_descs_indices r !! u.
Proof.
  induction n as [|n IH]; intros start index r Hs Hn; cbn [fill_indices].
  - exists (rt_svc_descs_indices r). split; [by destruct r|]. split; [done|]. intros u _. rewrite decide_False by lia. done.
  - rewrite bind_gets, bind_massert by (apply andb_true_iff; rewrite Z.leb_le, Z.ltb_lt; lia). rewrite bind_modify.
    set (l1 := <[Z.to_nat start := wrap 8 index]> (rt_svc_descs_indices r)).
    destruct (IH (start + 1) index (set_indices l1 r)) as (l & E & Hl & Hlk); [lia| |].
    { cbn. unfold l1, zlen in *. rewrite length_insert. lia. }
    exists l. split; [exact E|]. cbn in Hl. split; [rewrite Hl; apply length_insert|]. intros u Hu. rewrite (Hlk u Hu). cbn [rt_svc_descs_indices set_indices].
    unfold l1 in *. rewrite length_insert in Hl. destruct (decide (Z.of_nat u = start)) as [<-|Hne].
    + rewrite decide_False by lia. rewrite decide_True by lia. rewrite Nat2Z.id. apply list_lookup_insert_eq. lia.
    + rewrite list_lookup_insert_ne by lia. destruct (decide (start + 1 <= _ < _)); [by rewrite decide_True by lia|by rewrite decide_False by lia].
Qed.

(** One more service: if it came up, its entries are overwritten. *)
Lemma table_snoc ds bs d b l l' : table ds bs l -> length ds = length bs -> (length ds < 128)%nat -> desc_ok d -> length l' = length l ->
  (forall u, (u < length l)%nat -> l' !! u = if decide (b = true /\ start_idx d <= Z.of_nat u <= end_idx d) then Some (Z.of_nat (length ds)) else l !! u) ->
  table (ds ++ [d]) (bs ++ [b]) l'.
Proof.
  intros [Hl Ht] Hlen Hlt Hok Hl' Hu. split; [by rewrite Hl'|]. intros u Hu'. specialize (Hu u ltac:(lia)). destruct (Ht u Hu') as (v & Ev & He).
  case_decide as Hc.
  - exists (Z.of_nat (length ds)). split; [done|]. right. exists (length ds). split; [done|]. split.
    + rewrite handled_app, decide_False by (done || lia). rewrite Nat.sub_diag. apply covers_one. split; [done|]. exact Hc.
    + intros j Hj Hcj%covers_lt. rewrite length_app in Hcj. cbn in Hcj. lia.
  - exists v. split; [by rewrite Hu|].
    assert (forall i, covers (ds ++ [d]) (bs ++ [b]) i (Z.of_nat u) <-> covers ds bs i (Z.of_nat u)) as Heq.
    { intros i. rewrite handled_app by done. destruct (decide _) as [|Hge]; [done|]. split.
      - intros (_ & Hb & Hr)%covers_one. by destruct Hc.
      - by intros ?%covers_lt. }
    destruct He as [[-> He]|(i & -> & He1 & He2)]; [left; split; [done|]; intros i Hi%Heq; by apply (He i)|right; exists i; split; [done|]].
    split; [by apply Heq|]. intros j Hj Hcj%Heq. by apply (He2 j).
Qed.

Lemma init_loop_spec my services : forall ds bs r bs' s', table ds bs (rt_svc_descs_indices r) -> length ds = length bs -> Forall desc_ok services ->
  (length ds + length services < 128)%nat -> inits my services (svc r) = Some (bs', s') ->
  exists l, init_loop my services (zlen ds) r = Some (Some tt, Rt l (gpregs r) s') /\ table (ds ++ services) (bs ++ bs') l.
Proof.
  induction services as [|d services IH]; intros ds bs r bs' s' Ht Hlen Hok Hlt Hi; cbn [init_loop inits length] in *.
  - injection Hi as <- <-. exists (rt_svc_descs_indices r). rewrite !app_nil_r. split; [by destruct r|done].
  - apply Forall_cons in Hok as [Hd Hok]. pose proof (desc_ok_idx d Hd) as (Hs1 & Hs2 & Hs3 & Hs4 & Hs5 & Hs6). rewrite (proj2 (proj2 (proj2 Hd))). cbn [Z.eqb negb].
    assert (exists rc s1 bs1, (match init d with Some f => lift (f my) | None => mret 0 end) r = Some (rc, set_svc s1 r) /\
      inits my services s1 = Some (bs1, s') /\ bs' = (rc =? 0) :: bs1) as (rc & s1 & bs1 & E1 & E2 & ->).
    { unfold lift. destruct (init d) as [f|].
      - destruct (f my (svc r)) as [[rc s1]|]; [|done]. cbn in Hi |- *. destruct (inits my services s1) as [[bs1 s2]|] eqn:E; [|done]. cbn in Hi.
        injection Hi as <- <-. by exists rc, s1, bs1.
      - cbn in Hi. destruct (inits my services (svc r)) as [[bs1 s2]|] eqn:E; [|done]. injection Hi as <- <-. exists 0, (svc r), bs1. by destruct r. }
    rewrite (bind_eq _ _ _ _ _ E1). cbn [length] in Hlt.
    assert (forall l, table (ds ++ [d]) (bs ++ [rc =? 0]) l -> exists l', init_loop my services (zlen ds + 1) (Rt l (gpregs r) s1) = Some (Some tt, Rt l' (gpregs r) s') /\
      table (ds ++ d :: services) (bs ++ (rc =? 0) :: bs1) l') as Hgo.
    { intros l Hl. edestruct (IH (ds ++ [d]) (bs ++ [rc =? 0]) (Rt l (gpregs r) s1) bs1 s') as (l' & E & Ht'); try done.
      - rewrite !length_app, Hlen. done.
      - rewrite length_app. cbn. lia.
      - exists l'. rewrite zlen_app in E. rewrite <- !app_assoc in Ht'. by split. }
    pose proof Ht as [Hl _]. destruct (Z.eqb_spec rc 0) as [->|Hrc]; cbn [negb].
    + fold (start_idx d) (end_idx d). cbv zeta. rewrite !bind_massert by (apply Z.ltb_lt; unfold MAX_RT_SVCS; lia).
      destruct (fill_spec (Z.to_nat (end_idx d - start_idx d + 1)) (start_idx d) (zlen ds) (set_svc s1 r)) as (l & E & Hll & Hu).
      { unfold SMC_TYPE_FAST, SMC_TYPE_STD in Hs3. lia. }
      { cbn. unfold zlen. rewrite Hl. lia. }
      rewrite (bind_eq _ _ _ _ _ E). cbn [set_indices gpregs svc set_svc]. apply Hgo. eapply table_snoc; try done; [lia|]. intros u Hu'. rewrite (Hu u) by (cbn in Hll; lia).
      cbn [rt_svc_descs_indices set_svc]. replace (wrap 8 (zlen ds)) with (Z.of_nat (length ds)) by (unfold wrap, zlen; rewrite Z.mod_small; lia).
      destruct (decide (start_idx d <= _ < _)); [rewrite decide_True by (split; [done|lia])|rewrite decide_False by lia]; done.
    + apply Hgo. eapply table_snoc; [exact Ht|done|lia|done|done|]. intros u _. rewrite decide_False; [done|]. intros [? _]. done.
Qed.

(** A service is declared for the function of an SMC. *)
Definition serves d (fid : Z) : Prop := call_type d = fid_type fid /\ start_oen d <= fid_oen fid <= end_oen d.
Lemma serves_idx d fid : desc_ok d -> 0 <= fid < 2 ^ 32 -> start_idx d <= get_unique_oen_from_smc_fid fid <= end_idx d <-> serves d fid.
Proof.
  intros Hd Hf. pose proof (desc_ok_idx d Hd) as (? & ? & Hc & -> & -> & _). pose proof (fid_range _ Hf) as [? Ht]. rewrite fid_unique by done.
  unfold serves, SMC_TYPE_FAST, SMC_TYPE_STD in *. lia.
Qed.
(** The service [i] is the last one that came up and is declared for the function. *)
Definition server ds bs (i : nat) d (fid : Z) : Prop :=
  ds !! i = Some d /\ bs !! i = Some true /\ serves d fid /\
  forall j d', (i < j)%nat -> ds !! j = Some d' -> bs !! j = Some true -> ~ serves d' fid.
Lemma covers_serves ds bs i fid : Forall desc_ok ds -> 0 <= fid < 2 ^ 32 ->
  covers ds bs i (get_unique_oen_from_smc_fid fid) <-> exists d, ds !! i = Some d /\ bs !! i = Some true /\ serves d fid.
Proof.
  intros Hok Hf. rewrite Forall_forall in Hok. split; intros (d & Hd & Hb & Hs); exists d; (split; [done|]; split; [done|]);
    apply (serves_idx d fid); try done; apply Hok; by eapply list_elem_of_lookup_2.
Qed.
Lemma table_handle ds bs l my fid flags r : table ds bs l -> Forall desc_ok ds -> length ds = length bs -> (length ds < 128)%nat ->
  rt_svc_descs_indices r = l -> length (gpregs r) = 32%nat -> 0 <= fid < 2 ^ 32 ->
  (forall i d, server ds bs i d fid -> exists x1 x2 x3 x4, gpregs r !! 1%nat = Some x1 /\ gpregs r !! 2%nat = Some x2 /\ gpregs r !! 3%nat = Some x3 /\
     gpregs r !! 4%nat = Some x4 /\ handle_runtime_svc ds my fid flags r = (h ← must (handle d); h my fid x1 x2 x3 x4 flags) r) /\
  ((forall i d, ds !! i = Some d -> bs !! i = Some true -> ~ serves d fid) -> handle_runtime_svc ds my fid flags r = SMC_RET1 SMC_UNK r).
Proof.
  intros [Hl Ht] Hok Hlen Hlt Hr Hg Hf. pose proof (fid_range _ Hf) as [Ho Hty]. pose proof (fid_unique _ Hf) as Hu.
  assert (0 <= get_unique_oen_from_smc_fid fid < 128) as Hb by (rewrite Hu; unfold SMC_TYPE_FAST, SMC_TYPE_STD in Hty; lia).
  destruct (Ht (Z.to_nat (get_unique_oen_from_smc_fid fid))) as (v & Ev & He); [lia|]. rewrite Z2Nat.id in He by lia.
  assert (handle_runtime_svc ds my fid flags r = (if (v <? 0) || (RT_SVC_DECS_NUM ds <=? v) then SMC_RET1 SMC_UNK else
    x1 ← read_gpreg 1; x2 ← read_gpreg 2; x3 ← read_gpreg 3; x4 ← read_gpreg 4; d ← must (ds !! Z.to_nat v); h ← must (handle d); h my fid x1 x2 x3 x4 flags) r) as ->.
  { unfold handle_runtime_svc. cbv zeta. rewrite bind_massert by (apply andb_true_iff; rewrite Z.leb_le, Z.ltb_lt; unfold MAX_RT_SVCS; lia).
    rewrite bind_gets, Hr, (bind_must _ v) by done. done. }
  split.
  - intros i d (Hd & Hbi & Hs & Hlast). destruct He as [[_ Hno]|(j & -> & Hc & Hj)].
    { destruct (Hno i). apply covers_serves; eauto. }
    assert (i = j) as <-.
    { apply covers_serves in Hc as (dj & Hdj & Hbj & Hsj); [|done..]. destruct (lt_eq_lt_dec i j) as [[|]|]; [|done|].
      - by destruct (Hlast j dj).
      - destruct (Hj i); [done|]. apply covers_serves; eauto. }
    assert (Z.of_nat i < RT_SVC_DECS_NUM ds) by (unfold RT_SVC_DECS_NUM, zlen; apply lookup_lt_Some in Hd; lia).
    rewrite (proj2 (Z.ltb_ge _ _)), (proj2 (Z.leb_gt _ _)) by lia. cbn [orb].
    destruct (lookup_lt_is_Some_2 (gpregs r) 1) as [x1 E1]; [lia|]. destruct (lookup_lt_is_Some_2 (gpregs r) 2) as [x2 E2]; [lia|].
    destruct (lookup_lt_is_Some_2 (gpregs r) 3) as [x3 E3]; [lia|]. destruct (lookup_lt_is_Some_2 (gpregs r) 4) as [x4 E4]; [lia|].
    exists x1, x2, x3, x4. split_and!; try done. assert (forall k x, gpregs r !! k = Some x -> read_gpreg k r = Some (x, r)) as Hrd.
    { intros k x Ek. unfold read_gpreg. rewrite bind_gets. unfold must. by rewrite Ek. }
    rewrite (bind_eq _ _ _ _ _ (Hrd _ _ E1)), (bind_eq _ _ _ _ _ (Hrd _ _ E2)), (bind_eq _ _ _ _ _ (Hrd _ _ E3)), (bind_eq _ _ _ _ _ (Hrd _ _ E4)).
    rewrite Nat2Z.id. by rewrite (bind_must _ _ _ _ Hd).
  - intros Hno. assert ((v <? 0) || (RT_SVC_DECS_NUM ds <=? v) = true) as ->; [|done]. destruct He as [[-> _]|(i & -> & Hc & _)].
    + rewrite (proj2 (Z.leb_le _ _)); [by rewrite orb_true_r|]. unfold RT_SVC_DECS_NUM, zlen. lia.
    + apply covers_serves in Hc as (d & Hd & Hb' & Hs); [|done..]. by destruct (Hno i d).
Qed.
Lemma dispatch_ok ds my r bs s' :
  Forall desc_ok ds -> (length ds < 128)%nat -> length (rt_svc_descs_indices r) = 128%nat -> inits my ds (svc r) = Some (bs, s') ->
  exists l, runtime_svc_init ds my r = Some (Some tt, Rt l (gpregs r) s') /\
    forall r1 my1 fid flags, rt_svc_descs_indices r1 = l -> length (gpregs r1) = 32%nat -> 0 <= fid < 2 ^ 32 ->
      (forall i d, server ds bs i d fid -> exists x1 x2 x3 x4, gpregs r1 !! 1%nat = Some x1 /\ gpregs r1 !! 2%nat = Some x2 /\ gpregs r1 !! 3%nat = Some x3 /\
         gpregs r1 !! 4%nat = Some x4 /\ handle_runtime_svc ds my1 fid flags r1 = (h ← must (handle d); h my1 fid x1 x2 x3 x4 flags) r1) /\
      ((forall i d, ds !! i = Some d -> bs !! i = Some true -> ~ serves d fid) -> handle_runtime_svc ds my1 fid flags r1 = SMC_RET1 SMC_UNK r1).
Proof.
  intros Hok Hlt Hl Hi. assert (RT_SVC_DECS_NUM ds < 128) as Hn by (unfold RT_SVC_DECS_NUM, zlen; lia).
  unfold runtime_svc_init. rewrite bind_massert by (apply Z.ltb_lt; unfold MAX_RT_SVCS; lia). destruct (Z.eqb_spec (RT_SVC_DECS_NUM ds) 0) as [E0|E0].
  - assert (ds = []) as -> by (apply length_zero_iff_nil; unfold RT_SVC_DECS_NUM, zlen in E0; lia). injection Hi as <- <-. exists (rt_svc_descs_indices r). split; [by destruct r|].
    intros r1 my1 fid flags E Hg Hf. split; [by intros i d (Hd & _)|]. intros _. pose proof (fid_range _ Hf) as [? Hty]. pose proof (fid_unique _ Hf) as Hu.
    assert (0 <= get_unique_oen_from_smc_fid fid < 128) as Hb by (rewrite Hu; unfold SMC_TYPE_FAST, SMC_TYPE_STD in Hty; lia).
    unfold handle_runtime_svc. cbv zeta. rewrite bind_massert by (apply andb_true_iff; rewrite Z.leb_le, Z.ltb_lt; unfold MAX_RT_SVCS; lia). rewrite bind_gets, E.
    destruct (lookup_lt_is_Some_2 (rt_svc_descs_indices r) (Z.to_nat (get_unique_oen_from_smc_fid fid))) as [v Ev]; [lia|]. rewrite (bind_must _ _ _ _ Ev), E0.
    assert ((v <? 0) || (0 <=? v) = true) as ->; [|done]. destruct (Z.ltb_spec v 0); [done|]. by apply Z.leb_le.
  - rewrite bind_modify. destruct (init_loop_spec my ds [] [] (set_indices (replicate (length (rt_svc_descs_indices r)) 0xff) r) bs s') as (l & E & Ht); try done.
    { split; [cbn; by rewrite length_replicate|]. intros u Hu. exists 0xff. split; [cbn; apply lookup_replicate_2; lia|]. left. split; [done|]. by intros i (d & Hd & _). }
    exists l. split; [exact E|]. intros r1 my1 fid flags E1 Hg Hf. apply (table_handle ds bs l); try done.
    clear -Hi. revert bs Hi. generalize (svc r). induction ds as [|d ds IH]; intros s bs; cbn [inits]; [by intros [= <-]|].
    destruct (match init d with Some f => _ | None => _ end) as [[rc s1]|]; [|done]. cbn. destruct (inits my ds s1) as [[bs1 s2]|] eqn:E; [|done]. cbn.
    intros [= <- ->]. cbn. f_equal. by apply (IH s1).
Qed.
End dispatch.

(** Dispatch of SMCs, for any services with proper descriptors.  [runtime_svc_init] initialises them in
    order.  Afterwards, whatever the services do to their own state, an SMC goes to the
    last service that came up and is declared for its owner and call type, with the registers of the
    caller; without such a service the caller gets [SMC_UNK]. *)
Theorem rt_svc_dispatch {St} (ds : list (rt_svc_desc St)) my (r : rt St) bs s' :
  Forall desc_ok ds -> (length ds < 128)%nat -> length (rt_svc_descs_indices r) = 128%nat -> inits my ds (svc r) = Some (bs, s') ->
  exists l, runtime_svc_init ds my r = Some (Some tt, Rt l (gpregs r) s') /\
    forall r1 my1 fid flags, rt_svc_descs_indices r1 = l -> length (gpregs r1) = 32%nat -> 0 <= fid < 2 ^ 32 ->
      (forall i d, server ds bs i d fid -> exists x1 x2 x3 x4, gpregs r1 !! 1%nat = Some x1 /\ gpregs r1 !! 2%nat = Some x2 /\ gpregs r1 !! 3%nat = Some x3 /\
         gpregs r1 !! 4%nat = Some x4 /\ handle_runtime_svc ds my1 fid flags r1 = (h ← must (handle d); h my1 fid x1 x2 x3 x4 flags) r1) /\
      ((forall i d, ds !! i = Some d -> bs !! i = Some true -> ~ serves d fid) -> handle_runtime_svc ds my1 fid flags r1 = SMC_RET1 SMC_UNK r1).
Proof. apply dispatch_ok. Qed.

(** ** BL31 with the standard service *)
(** The queries of the standard service, and unknown functions. *)
Definition std_answer (fid : Z) (g : list Z) : list Z :=
  if fid =? ARM_STD_SVC_CALL_COUNT then <[0%nat := PSCI_NUM_CALLS]> g
  else if fid =? ARM_STD_SVC_UID then <[0%nat := 0x108d905b]> (<[1%nat := 0x47e8f863]> (<[2%nat := 0xfbc02dae]> (<[3%nat := 0xe2f64156]> g)))
  else if fid =? ARM_STD_SVC_VERSION then <[0%nat := STD_SVC_VERSION_MAJOR]> (<[1%nat := STD_SVC_VERSION_MINOR]> g)
  else <[0%nat := SMC_UNK]> g.
Definition is_psci_call (fid : Z) : Prop := fid_type fid = SMC_TYPE_FAST /\ fid_oen fid = OEN_STD_START /\ is_psci_fid fid = true.

Section std.
Context (P : Plat) (topology : list Z).
Lemma std_desc_ok : desc_ok (std_svc topology).
Proof. split_and!; try done; cbn; unfold OEN_STD_START, OEN_STD_END, SMC_TYPE_FAST; lia. Qed.
Lemma write_gpreg_eq (r : rt psci) i v : (i < length (gpregs r))%nat -> write_gpreg i v r = Some (tt, set_gpregs (<[i := v]> (gpregs r)) r).
Proof. intros Hi. unfold write_gpreg. rewrite bind_gets, bind_massert by (by apply bool_decide_eq_true). done. Qed.
Lemma smc_ret1_eq (r : rt psci) v : length (gpregs r) = 32%nat -> SMC_RET1 v r = Some (Some tt, set_gpregs (<[0%nat := v]> (gpregs r)) r).
Proof. intros Hg. unfold SMC_RET1. rewrite (bind_eq _ _ _ _ _ (write_gpreg_eq r 0 v ltac:(lia))). done. Qed.
Ltac gp_len := cbn [gpregs set_gpregs]; rewrite ?length_insert; first [done | lia].
Ltac ret_step := erewrite bind_eq; [|apply write_gpreg_eq; gp_len].
Lemma std_query my fid x1 x2 x3 x4 flags (r : rt psci) : length (gpregs r) = 32%nat -> is_psci_fid fid = false ->
  std_svc_smc_handler my fid x1 x2 x3 x4 flags r = Some (Some tt, set_gpregs (std_answer fid (gpregs r)) r).
Proof.
  intros Hg Hf. unfold std_svc_smc_handler, std_answer. rewrite Hf. destruct (fid =? ARM_STD_SVC_CALL_COUNT); [by apply smc_ret1_eq|].
  destruct (fid =? ARM_STD_SVC_UID); [|destruct (fid =? ARM_STD_SVC_VERSION); [|by apply smc_ret1_eq]].
  - cbn [arm_svc_uid]. unfold SMC_RET4, SMC_RET3, SMC_RET2. by repeat (ret_step || rewrite smc_ret1_eq by gp_len).
  - unfold SMC_RET2. by repeat (ret_step || rewrite smc_ret1_eq by gp_len).
Qed.
Lemma std_psci my fid x1 x2 x3 x4 flags (r : rt psci) ph : PlatLaws -> length (gpregs r) = 32%nat -> is_psci_fid fid = true ->
  Inv (svc r) ph -> (my < PLATFORM_CORE_COUNT)%nat -> ph my = Up ->
  exists o s' ph', psci_smc_handler my fid x1 x2 x3 flags (svc r) = Some (o, s') /\ Inv s' ph' /\ smc_outcome my fid x1 flags (svc r) s' ph ph' o /\
    std_svc_smc_handler my fid x1 x2 x3 x4 flags r = Some (match o with
      | Some x0 => (Some tt, Rt (rt_svc_descs_indices r) (<[0%nat := x0]> (gpregs r)) s')
      | None => (None, Rt (rt_svc_descs_indices r) (gpregs r) s') end).
Proof.
  intros PL Hg Hf Hi Hc Hp. destruct (wp_inv _ _ _ (smc_handler_ok my fid x1 x2 x3 flags _ ph Hi Hp Hc)) as (o & s' & E & ph' & I' & Hph).
  exists o, s', ph'. split_and!; try done. unfold std_svc_smc_handler. rewrite Hf.
  assert (lift (psci_smc_handler my fid x1 x2 x3 flags) r = Some (o, set_svc s' r)) as El by (unfold lift; by rewrite E).
  rewrite (bind_eq _ _ _ _ _ El). destruct o as [x0|]; [|done]. by rewrite smc_ret1_eq.
Qed.
Lemma std_server fid : server [std_svc topology] [true] 0 (std_svc topology) fid <-> serves (std_svc topology) fid.
Proof.
  split; [by intros (_ & _ & ? & _)|]. intros Hs. split_and!; try done. intros j d' Hj Hd. by rewrite lookup_ge_None_2 in Hd by (cbn; lia).
Qed.
Lemma std_unserved fid (g : list Z) : 0 <= fid < 2 ^ 32 -> ~ serves (std_svc topology) fid -> std_answer fid g = <[0%nat := SMC_UNK]> g.
Proof.
  intros Hf Hn. unfold std_answer. assert (forall k, 0 <= k < 2 ^ 32 -> serves (std_svc topology) k -> (fid =? k) = false) as Hk.
  { intros k _ Hs. apply Z.eqb_neq. intros ->. done. }
  rewrite !Hk by (vm_compute; intuition congruence). done.
Qed.
End std.

(** C9: The firmware of a platform whose only runtime service is the standard one, as that of the Armada 7K
    and 8K.  It comes up; from then on every SMC that a running core makes, with any function and
    arguments, is defined and keeps the invariant of PSCI: it returns or is one of the calls that do not
    return.  A fast call of the standard owner with a number of PSCI is answered in [x0] with the result of
    [psci_smc_handler], unless the core does not return.  That is the case after CPU_OFF, a power-down
    CPU_SUSPEND, SYSTEM_SUSPEND, SYSTEM_OFF and SYSTEM_RESET, and in a CPU_SUSPEND when a hook of the
    platform panics instead of returning: on the Armada 7K and 8K the standby hook does.  The queries
    of the standard service are answered; for all other functions [x0] is [SMC_UNK]. *)
Theorem bl31_smc_spec (P : Plat) (topology : list Z) (boot : nat) (g : list Z) :
  PlatLaws -> topology_ok topology -> (boot < PLATFORM_CORE_COUNT)%nat ->
  exists r0, runtime_svc_init [std_svc topology] boot (Rt (replicate 128 0) g psci_bss) = Some (Some tt, r0) /\ Inv (svc r0) (boot_phases boot) /\
    forall r ph my fid flags, rt_svc_descs_indices r = rt_svc_descs_indices r0 -> length (gpregs r) = 32%nat -> Inv (svc r) ph ->
      (my < PLATFORM_CORE_COUNT)%nat -> ph my = Up -> 0 <= fid < 2 ^ 32 ->
      exists res r' ph', handle_runtime_svc [std_svc topology] my fid flags r = Some (res, r') /\
        rt_svc_descs_indices r' = rt_svc_descs_indices r0 /\ Inv (svc r') ph' /\
        (is_psci_call fid -> exists x1 x2 x3 o, gpregs r !! 1%nat = Some x1 /\ gpregs r !! 2%nat = Some x2 /\ gpregs r !! 3%nat = Some x3 /\
           psci_smc_handler my fid x1 x2 x3 flags (svc r) = Some (o, svc r') /\ smc_outcome my fid x1 flags (svc r) (svc r') ph ph' o /\
           match o with Some x0 => res = Some tt /\ gpregs r' = <[0%nat := x0]> (gpregs r) | None => res = None end) /\
        (~ is_psci_call fid -> res = Some tt /\ svc r' = svc r /\ ph' = ph /\ gpregs r' = std_answer fid (gpregs r)).
Proof.
  intros PL TOK Hb. destruct (wp_inv _ _ _ (psci_setup_ok topology TOK boot PL Hb)) as ([] & s0 & E0 & _ & I0 & _).
  destruct (dispatch_ok [std_svc topology] boot (Rt (replicate 128 0) g psci_bss) [true] s0) as (l & El & Hd); [..|exists (Rt l g s0)].
  { constructor; [apply std_desc_ok|done]. } { cbn. lia. } { done. }
  { cbn [inits std_svc init std_svc_setup svc]. unfold std_svc_setup. rewrite (bind_eq _ _ _ _ _ E0). done. }
  split; [done|]. split; [exact I0|]. cbn [rt_svc_descs_indices]. intros r ph my fid flags Hr Hg Hi Hc Hp Hf. destruct (Hd r my fid flags Hr Hg Hf) as [H1 H2].
  assert (serves (std_svc topology) fid <-> fid_type fid = SMC_TYPE_FAST /\ fid_oen fid = OEN_STD_START) as Hsv.
  { unfold serves. cbn [call_type start_oen end_oen std_svc]. unfold OEN_STD_START, OEN_STD_END. intuition lia. }
  destruct (decide (fid_type fid = SMC_TYPE_FAST /\ fid_oen fid = OEN_STD_START)) as [Hs|Hns].
  - destruct (H1 0%nat (std_svc topology)) as (x1 & x2 & x3 & x4 & G1 & G2 & G3 & G4 & ->); [by apply std_server, Hsv|]. cbn [handle std_svc].
    rewrite (bind_must _ _ _ _ eq_refl). destruct (is_psci_fid fid) eqn:Ef.
    + destruct (std_psci P my fid x1 x2 x3 x4 flags r ph PL Hg Ef Hi Hc Hp) as (o & s' & ph' & E & I' & Hph & ->).
      exists (match o with Some _ => Some tt | None => None end), (Rt l (match o with Some x0 => <[0%nat := x0]> (gpregs r) | None => gpregs r end) s'), ph'.
      split; [rewrite Hr; by destruct o|]. split; [done|]. split; [done|]. split; [|intros []; by destruct Hs].
      intros _. exists x1, x2, x3, o. split_and!; try done. by destruct o.
    + rewrite std_query by done. eexists _, _, ph. split; [done|]. split; [done|]. split; [done|]. split; [|done]. intros (_ & _ & ?). congruence.
  - rewrite H2; [|intros [|i] d Hdi _; [injection Hdi as <-; by rewrite Hsv|done]]. rewrite smc_ret1_eq by done. eexists _, _, ph.
    split; [done|]. split; [done|]. split; [done|]. split; [intros (? & ? & _); by destruct Hns|]. intros _. split_and!; try done.
    by rewrite (std_unserved P topology) by (done || by rewrite Hsv).
Qed.

(** ** Witnesses *)
Lemma bl31_smc_spec_witness : exists r0, @runtime_svc_init psci [@std_svc a8k_demo a8k_topology] 0 (Rt (replicate 128 0) (replicate 32 0) (@psci_bss a8k_demo)) = Some (Some tt, r0) /\
  exists r', handle_runtime_svc [@std_svc a8k_demo a8k_topology] 0 0x8400ff03 1 r0 = Some (Some tt, r') /\ gpregs r' !! 1%nat = Some 1.
Proof.
  destruct (bl31_smc_spec a8k_demo a8k_topology 0 (replicate 32 0) a8k_demo_laws a8k_demo_topology) as (r0 & E & I & H); [vm_compute; lia|].
  exists r0. split; [exact E|]. destruct (H r0 (boot_phases 0) 0%nat 0x8400ff03 1 eq_refl) as (res & r' & ph' & Eh & _ & _ & _ & Hq).
  - assert (gpregs r0 = replicate 32 0) as ->; [|done]. vm_compute in E. injection E as <-. reflexivity.
  - exact I.
  - vm_compute. lia.
  - reflexivity.
  - lia.
  - destruct Hq as (-> & _ & _ & Hg); [intros (_ & _ & Hf); vm_compute in Hf; discriminate|]. exists r'. split; [exact Eh|]. rewrite Hg.
    assert (gpregs r0 = replicate 32 0) as -> by (vm_compute in E; injection E as <-; reflexivity). reflexivity.
Defined.

(** A list with a service that fails to come up, and two that share owners. *)
Definition demo_handler (n : Z) : nat -> Z -> Z -> Z -> Z -> Z -> Z -> M (rt unit) (option unit) := fun _ _ x1 _ _ _ _ => SMC_RET1 (n + x1).
Definition demo_services : list (rt_svc_desc unit) :=
  [SvcDesc 0 3 SMC_TYPE_FAST "a" (Some (fun _ => mret 0)) (Some (demo_handler 100)); SvcDesc 2 2 SMC_TYPE_FAST "b" None (Some (demo_handler 200));
   SvcDesc 1 1 SMC_TYPE_FAST "c" (Some (fun _ => mret (-1))) (Some (demo_handler 300))].
Definition demo_regs : list Z := replicate 32 7.
Lemma rt_svc_dispatch_witness : exists l, runtime_svc_init demo_services 0 (Rt (replicate 128 0) demo_regs tt) = Some (Some tt, Rt l demo_regs tt) /\
  handle_runtime_svc demo_services 0 0x82000000 0 (Rt l demo_regs tt) = Some (Some tt, Rt l (<[0%nat := 207]> demo_regs) tt) /\
  handle_runtime_svc demo_services 0 0x85000000 0 (Rt l demo_regs tt) = Some (Some tt, Rt l (<[0%nat := SMC_UNK]> demo_regs) tt).
Proof.
  destruct (rt_svc_dispatch demo_services 0 (Rt (replicate 128 0) demo_regs tt) [true; true; false] tt) as (l & E & H).
  - repeat constructor; vm_compute; intuition congruence.
  - vm_compute. lia.
  - reflexivity.
  - reflexivity.
  - exists l. split; [exact E|]. split.
    + destruct (H (Rt l demo_regs tt) 0%nat 0x82000000 0 eq_refl eq_refl ltac:(lia)) as [H1 _].
      destruct (H1 1%nat (SvcDesc 2 2 SMC_TYPE_FAST "b" None (Some (demo_handler 200)))) as (x1 & x2 & x3 & x4 & [= <-] & _ & _ & _ & ->); [|reflexivity].
      split; [reflexivity|]. split; [reflexivity|]. split; [vm_compute; intuition congruence|]. intros [|[|[|j]]] d Hj Hd Hb; try lia; done.
    + destruct (H (Rt l demo_regs tt) 0%nat 0x85000000 0 eq_refl eq_refl ltac:(lia)) as [_ H2]. rewrite H2; [reflexivity|].
      intros [|[|[|j]]] d Hd Hb; try done; injection Hd as <-; vm_compute; intuition congruence.
Defined.
End Bl31Spec.
