(* ===== verification/Imf.v ===== *)
(** * Interrupt routing and contexts in BL31

    bl31/interrupt_mgmt.c, the lines of plat/common/plat_gicv2.c (Armada 7K/8K) and plat_gicv3.c
    (Armada 3700), bl31/bl31_context_mgmt.c, and lib/el3_runtime/aarch64/context_mgmt.c without
    the saving of EL1 registers, which is assembly.

    A core has one pointer to a context per security state; the contexts are a pool and a pointer
    is an index into it.  Of the registers of a context those are kept that this code writes.
    A handler is an address; NULL is [None]. *)

From Stdlib Require Import ZArith Lia.
From stdpp Require Import base option list numbers.
From S2P Require Import Prelude CMonad.
Open Scope Z_scope.
Open Scope cint_scope.

Module Imf.
Definition EINVAL := 22.
Definition EALREADY := 37.
Definition SECURE := 0.
Definition NON_SECURE := 1.
Definition sec_state_is_valid (s : Z) : bool := (s =? SECURE) || (s =? NON_SECURE).

Definition INTR_TYPE_S_EL1 := 0.
Definition INTR_TYPE_EL3 := 1.
Definition INTR_TYPE_NS := 2.
Definition MAX_INTR_TYPES := 3%nat.
Definition INTR_RM_FLAGS_SHIFT := 0.
Definition INTR_RM_FLAGS_MASK := 0x3.
Definition INTR_SEL1_VALID_RM0 := 0x2.
Definition INTR_SEL1_VALID_RM1 := 0x3.
Definition INTR_NS_VALID_RM0 := 0x0.
Definition INTR_NS_VALID_RM1 := 0x1.
Definition INTR_EL3_VALID_RM0 := 0x2.
Definition INTR_EL3_VALID_RM1 := 0x3.
Definition INTR_DEFAULT_RM := 0x0.
Definition INTR_TYPE_FLAGS_MASK := 0xFFFFFFFC.
Definition INTR_RM_FROM_FLAG_MASK := 1.
Definition get_interrupt_rm_flag (flag ss : Z) : Z := Z.land (Z.shiftr (Z.shiftr flag INTR_RM_FLAGS_SHIFT) ss) INTR_RM_FROM_FLAG_MASK.
Definition validate_sel1_interrupt_rm (x : Z) : Z := if x =? INTR_SEL1_VALID_RM0 then 0 else if x =? INTR_SEL1_VALID_RM1 then 0 else - EINVAL.
Definition validate_ns_interrupt_rm (x : Z) : Z := if x =? INTR_NS_VALID_RM0 then 0 else if x =? INTR_NS_VALID_RM1 then 0 else - EINVAL.
Definition validate_el3_interrupt_rm (x : Z) : Z := if x =? INTR_EL3_VALID_RM0 then 0 else if x =? INTR_EL3_VALID_RM1 then 0 else - EINVAL.

(** SCR_EL3 *)
Definition SCR_ST_BIT := 2 ^ 11.
Definition SCR_RW_BIT := 2 ^ 10.
Definition SCR_HCE_BIT := 2 ^ 8.
Definition SCR_EA_BIT := 2 ^ 3.
Definition SCR_FIQ_BIT := 2 ^ 2.
Definition SCR_IRQ_BIT := 2 ^ 1.
Definition SCR_NS_BIT := 2 ^ 0.
Definition SCR_VALID_BIT_MASK := 0x2f8f.
(** [__builtin_ctz] of the two bits. *)
Definition IRQ_LINE := 1.
Definition FIQ_LINE := 2.

(** ** The interrupt controller *)
Class Gic := { plat_interrupt_type_to_line : Z -> Z -> option Z }.
Definition type_known (type : Z) : bool := (type =? INTR_TYPE_S_EL1) || (type =? INTR_TYPE_EL3) || (type =? INTR_TYPE_NS).
Definition gicv2_type_to_line (fiq_enabled : bool) (type security_state : Z) : option Z :=
  if negb (type_known type) then None
  else if type =? INTR_TYPE_NS then Some IRQ_LINE
  else Some (if fiq_enabled then FIQ_LINE else IRQ_LINE).
Definition gicv3_type_to_line (type security_state : Z) : option Z :=
  if negb (type_known type) || negb (sec_state_is_valid security_state) then None
  else if type =? INTR_TYPE_S_EL1 then Some (if security_state =? SECURE then IRQ_LINE else FIQ_LINE)
  else if type =? INTR_TYPE_NS then Some (if security_state =? SECURE then FIQ_LINE else IRQ_LINE)
  else Some FIQ_LINE.
Definition gicv2 (fiq_enabled : bool) : Gic := {| plat_interrupt_type_to_line := gicv2_type_to_line fiq_enabled |}.
Definition gicv3 : Gic := {| plat_interrupt_type_to_line := gicv3_type_to_line |}.

(** ** State *)
Record intr_type_desc := IntrDesc { handler : option Z; flags : Z; scr_el3 : list Z }.
Record cpu_context_t := Ctx { ctx_gpregs : list Z; ctx_scr_el3 : Z; ctx_elr_el3 : Z; ctx_spsr_el3 : Z; ctx_sctlr_el1 : Z }.
Record entry_point_info_t := Ep { ep_pc : Z; ep_spsr : Z; ep_attr : Z; ep_args : list Z }.
Record el2_regs := El2 {
  sctlr_el2 : Z; hcr_el2 : Z; cptr_el2 : Z; cnthctl_el2 : Z; cntvoff_el2 : Z; vpidr_el2 : Z; vmpidr_el2 : Z; vttbr_el2 : Z
}.
(** What the registers of a core read. *)
Record sysregs := Sysregs { read_scr : Z; read_id_aa64pfr0_el1 : Z; read_midr_el1 : Z; read_mpidr_el1 : Z }.

Record imf := Imf_ {
  intr_type_descs : list intr_type_desc;
  cpu_context : list (list (option nat));
  ctxs : list cpu_context_t;
  el2 : list el2_regs;
  next_context : list (option nat)
}.
Definition set_descs d s := Imf_ d (cpu_context s) (ctxs s) (el2 s) (next_context s).
Definition set_ptrs p s := Imf_ (intr_type_descs s) p (ctxs s) (el2 s) (next_context s).
Definition set_ctxs c s := Imf_ (intr_type_descs s) (cpu_context s) c (el2 s) (next_context s).
Definition set_el2 e s := Imf_ (intr_type_descs s) (cpu_context s) (ctxs s) e (next_context s).
Definition set_next n s := Imf_ (intr_type_descs s) (cpu_context s) (ctxs s) (el2 s) n.
Abbreviation X := (M imf).

(** Entries of an array. *)
Definition at_ {A} (l : list A) (i : Z) : X A := must (if i <? 0 then None else l !! Z.to_nat i).
Definition desc (type : Z) : X intr_type_desc := l ← gets intr_type_descs; at_ l type.
Definition set_desc (type : Z) (d : intr_type_desc) : X unit :=
  desc type;; modify (fun s => set_descs (<[Z.to_nat type := d]> (intr_type_descs s)) s).
Definition ctx (p : nat) : X cpu_context_t := l ← gets ctxs; must (l !! p).
Definition set_ctx (p : nat) (c : cpu_context_t) : X unit :=
  ctx p;; modify (fun s => set_ctxs (<[p := c]> (ctxs s)) s).

(** ** Pointers to contexts: bl31_context_mgmt.c *)
Definition cm_get_context_by_index (cpu_idx : nat) (security_state : Z) : X (option nat) :=
  massert (sec_state_is_valid security_state);;
  l ← gets cpu_context;
  row ← must (l !! cpu_idx);
  at_ row security_state.
Definition cm_get_context (my : nat) (security_state : Z) : X (option nat) :=
  massert (security_state <=? NON_SECURE);;
  l ← gets cpu_context;
  row ← must (l !! my);
  at_ row security_state.
Definition cm_set_context_by_index (cpu_idx : nat) (context : option nat) (security_state : Z) : X unit :=
  massert (sec_state_is_valid security_state);;
  l ← gets cpu_context;
  row ← must (l !! cpu_idx);
  modify (set_ptrs (<[cpu_idx := <[Z.to_nat security_state := context]> row]> l)).
Definition cm_set_context (my : nat) (context : option nat) (security_state : Z) : X unit :=
  massert (security_state <=? NON_SECURE);;
  l ← gets cpu_context;
  row ← must (l !! my);
  at_ row security_state;;
  modify (set_ptrs (<[my := <[Z.to_nat security_state := context]> row]> l)).

Definition cm_write_scr_el3_bit (my : nat) (security_state bit_pos value : Z) : X unit :=
  c ← cm_get_context my security_state;
  p ← must c;
  massert (negb (Z.land (Z.shiftl 1 bit_pos) SCR_VALID_BIT_MASK =? 0));;
  massert (value <=? 1);;
  c ← ctx p;
  let scr := u32 (ctx_scr_el3 c) in
  let scr := Z.land scr (Z.lnot (Z.shiftl 1 bit_pos)) in
  let scr := Z.lor scr (Z.shiftl value bit_pos) in
  set_ctx p (Ctx (ctx_gpregs c) scr (ctx_elr_el3 c) (ctx_spsr_el3 c) (ctx_sctlr_el1 c)).
Definition cm_get_scr_el3 (my : nat) (security_state : Z) : X Z :=
  c ← cm_get_context my security_state;
  p ← must c;
  c ← ctx p;
  mret (u32 (ctx_scr_el3 c)).
Definition cm_set_elr_el3 (my : nat) (security_state entrypoint : Z) : X unit :=
  c ← cm_get_context my security_state;
  p ← must c;
  c ← ctx p;
  set_ctx p (Ctx (ctx_gpregs c) (ctx_scr_el3 c) entrypoint (ctx_spsr_el3 c) (ctx_sctlr_el1 c)).
Definition cm_set_elr_spsr_el3 (my : nat) (security_state entrypoint spsr : Z) : X unit :=
  c ← cm_get_context my security_state;
  p ← must c;
  c ← ctx p;
  set_ctx p (Ctx (ctx_gpregs c) (ctx_scr_el3 c) entrypoint spsr (ctx_sctlr_el1 c)).
Definition cm_set_next_eret_context (my : nat) (security_state : Z) : X unit :=
  c ← cm_get_context my security_state;
  massert (bool_decide (is_Some c));;
  modify (fun s => set_next (<[my := c]> (next_context s)) s).

(** ** Routing: interrupt_mgmt.c *)
Section routing.
Context `{Gic}.
Definition validate_interrupt_type (type : Z) : Z :=
  if (type =? INTR_TYPE_S_EL1) || (type =? INTR_TYPE_NS) || (type =? INTR_TYPE_EL3) then 0 else - EINVAL.
Definition validate_routing_model (type flags : Z) : Z :=
  let flags := Z.land (Z.shiftr flags INTR_RM_FLAGS_SHIFT) INTR_RM_FLAGS_MASK in
  if type =? INTR_TYPE_S_EL1 then validate_sel1_interrupt_rm flags
  else if type =? INTR_TYPE_NS then validate_ns_interrupt_rm flags
  else if type =? INTR_TYPE_EL3 then validate_el3_interrupt_rm flags
  else - EINVAL.
Definition get_scr_el3_from_routing_model (security_state : Z) : X Z :=
  massert (sec_state_is_valid security_state);;
  d ← desc INTR_TYPE_NS; a ← at_ (scr_el3 d) security_state;
  d ← desc INTR_TYPE_S_EL1; b ← at_ (scr_el3 d) security_state;
  d ← desc INTR_TYPE_EL3; c ← at_ (scr_el3 d) security_state;
  mret (Z.lor (Z.lor a b) c).
Definition set_scr_el3_from_rm (my : nat) (type interrupt_type_flags security_state : Z) : X unit :=
  let flag := get_interrupt_rm_flag interrupt_type_flags security_state in
  bit_pos ← must (plat_interrupt_type_to_line type security_state);
  d ← desc type;
  at_ (scr_el3 d) security_state;;
  set_desc type (IntrDesc (handler d) (flags d) (<[Z.to_nat security_state := u32 (Z.shiftl flag bit_pos)]> (scr_el3 d)));;
  c ← cm_get_context my security_state;
  match c with
  | Some _ => cm_write_scr_el3_bit my security_state bit_pos flag
  | None => mret tt
  end.
Definition set_routing_model (my : nat) (type flags_ : Z) : X Z :=
  let rc := validate_interrupt_type type in
  if negb (rc =? 0) then mret rc else
  let rc := validate_routing_model type flags_ in
  if negb (rc =? 0) then mret rc else
  d ← desc type;
  set_desc type (IntrDesc (handler d) flags_ (scr_el3 d));;
  set_scr_el3_from_rm my type flags_ SECURE;;
  set_scr_el3_from_rm my type flags_ NON_SECURE;;
  mret 0.
Definition disable_intr_rm_local (my : nat) (type security_state : Z) : X Z :=
  d ← desc type;
  massert (bool_decide (is_Some (handler d)));;
  let flag := get_interrupt_rm_flag INTR_DEFAULT_RM security_state in
  bit_pos ← must (plat_interrupt_type_to_line type security_state);
  cm_write_scr_el3_bit my security_state bit_pos flag;;
  mret 0.
Definition enable_intr_rm_local (my : nat) (type security_state : Z) : X Z :=
  d ← desc type;
  massert (bool_decide (is_Some (handler d)));;
  let flag := get_interrupt_rm_flag (flags d) security_state in
  bit_pos ← must (plat_interrupt_type_to_line type security_state);
  cm_write_scr_el3_bit my security_state bit_pos flag;;
  mret 0.
Definition register_interrupt_type_handler (my : nat) (type : Z) (h : option Z) (flags : Z) : X Z :=
  match h with
  | None => mret (- EINVAL)
  | Some _ =>
      if negb (Z.land flags INTR_TYPE_FLAGS_MASK =? 0) then mret (- EINVAL) else
      d ← desc type;
      if bool_decide (is_Some (handler d)) then mret (- EALREADY) else
      rc ← set_routing_model my type flags;
      if negb (rc =? 0) then mret rc else
      d ← desc type;
      set_desc type (IntrDesc h (Imf.flags d) (scr_el3 d));;
      mret 0
  end.
Definition get_interrupt_type_handler (type : Z) : X (option Z) :=
  if negb (validate_interrupt_type type =? 0) then mret None else
  d ← desc type; mret (handler d).

(** ** Entering a context: context_mgmt.c *)
Definition GET_SECURITY_STATE (attr : Z) : Z := Z.land attr 0x1.
Definition EP_GET_EE (attr : Z) : Z := Z.land attr 0x2.
Definition EP_GET_ST (attr : Z) : Z := Z.land attr 0x4.
Definition GET_RW (spsr : Z) : Z := Z.land (Z.shiftr spsr 4) 0x1.
Definition MODE_RW_64 := 0.
Definition GET_EL (spsr : Z) : Z := Z.land (Z.shiftr spsr 2) 0x3.
Definition MODE_EL2 := 2.
Definition GET_M32 (spsr : Z) : Z := Z.land (Z.shiftr spsr 0) 0xf.
Definition MODE32_hyp := 0xa.
Definition SCTLR_EE_BIT := 2 ^ 25.
Definition SCTLR_EL1_RES1 := 0x30D00800.
Definition SCTLR_EL2_RES1 := 0x30C50830.
Definition SCTLR_AARCH32_EL1_RES1 := 0x00C00818.
Definition CTX_GPREG_ALL := 32%nat.

(** Without [HANDLE_EA_EL3_FIRST], in BL31.  [regs] are those of the core that runs it. *)
Definition cm_init_context_common (regs : sysregs) (context : option nat) (ep : entry_point_info_t) : X unit :=
  p ← must context;
  let security_state := GET_SECURITY_STATE (ep_attr ep) in
  ctx p;;
  let scr := u32 (read_scr regs) in
  let scr := Z.land scr (Z.lnot (Z.lor (Z.lor (Z.lor (Z.lor (Z.lor SCR_NS_BIT SCR_RW_BIT) SCR_FIQ_BIT) SCR_IRQ_BIT) SCR_ST_BIT) SCR_HCE_BIT)) in
  let scr := if negb (security_state =? SECURE) then Z.lor scr SCR_NS_BIT else scr in
  let scr := if GET_RW (ep_spsr ep) =? MODE_RW_64 then Z.lor scr SCR_RW_BIT else scr in
  let scr := if negb (EP_GET_ST (ep_attr ep) =? 0) then Z.lor scr SCR_ST_BIT else scr in
  let scr := Z.land scr (Z.lnot SCR_EA_BIT) in
  rm ← get_scr_el3_from_routing_model security_state;
  let scr := Z.lor scr rm in
  let sctlr_elx := if negb (EP_GET_EE (ep_attr ep) =? 0) then SCTLR_EE_BIT else 0 in
  let sctlr_elx := Z.lor sctlr_elx (if GET_RW (ep_spsr ep) =? MODE_RW_64 then SCTLR_EL1_RES1 else SCTLR_AARCH32_EL1_RES1) in
  let scr := if ((GET_RW (ep_spsr ep) =? MODE_RW_64) && (GET_EL (ep_spsr ep) =? MODE_EL2))
                || (negb (GET_RW (ep_spsr ep) =? MODE_RW_64) && (GET_M32 (ep_spsr ep) =? MODE32_hyp))
             then Z.lor scr SCR_HCE_BIT else scr in
  massert (bool_decide (length (ep_args ep) = 8%nat));;
  set_ctx p (Ctx (ep_args ep ++ replicate (CTX_GPREG_ALL - 8) 0) scr (ep_pc ep) (ep_spsr ep) sctlr_elx).
Definition cm_init_context_by_index (regs : sysregs) (cpu_idx : nat) (ep : entry_point_info_t) : X unit :=
  c ← cm_get_context_by_index cpu_idx (GET_SECURITY_STATE (ep_attr ep));
  cm_init_context_common regs c ep.
Definition cm_init_my_context (regs : sysregs) (my : nat) (ep : entry_point_info_t) : X unit :=
  c ← cm_get_context my (GET_SECURITY_STATE (ep_attr ep));
  cm_init_context_common regs c ep.

Definition ID_AA64PFR0_ELX_MASK := 0xf.
Definition ID_AA64PFR0_EL2_SHIFT := 8.
Definition HCR_RW_BIT := 2 ^ 31.
Definition TCPAC_BIT := 2 ^ 31.
Definition TTA_BIT := 2 ^ 20.
Definition TFP_BIT := 2 ^ 10.
Definition EL1PCEN_BIT := 2.
Definition EL1PCTEN_BIT := 1.
Definition set_el2_of (my : nat) (f : el2_regs -> el2_regs) : X unit :=
  l ← gets el2;
  e ← must (l !! my);
  modify (set_el2 (<[my := f e]> l)).
Definition cm_prepare_el3_exit (regs : sysregs) (my : nat) (security_state : Z) : X unit :=
  c ← cm_get_context my security_state;
  p ← must c;
  c ← ctx p;
  (if security_state =? NON_SECURE then
     let scr := u32 (ctx_scr_el3 c) in
     if negb (Z.land scr SCR_HCE_BIT =? 0) then
       let sctlr_elx := u32 (ctx_sctlr_el1 c) in
       let sctlr_elx := Z.land sctlr_elx (Z.lnot SCTLR_EE_BIT) in
       let sctlr_elx := Z.lor sctlr_elx SCTLR_EL2_RES1 in
       set_el2_of my (fun e => El2 sctlr_elx (hcr_el2 e) (cptr_el2 e) (cnthctl_el2 e) (cntvoff_el2 e) (vpidr_el2 e) (vmpidr_el2 e) (vttbr_el2 e))
     else if negb (Z.land (read_id_aa64pfr0_el1 regs) (Z.shiftl ID_AA64PFR0_ELX_MASK ID_AA64PFR0_EL2_SHIFT) =? 0) then
       set_el2_of my (fun e =>
         El2 (sctlr_el2 e) (if negb (Z.land scr SCR_RW_BIT =? 0) then HCR_RW_BIT else 0)
           (Z.land (u32 (cptr_el2 e)) (Z.lnot (Z.lor (Z.lor TCPAC_BIT TTA_BIT) TFP_BIT)))
           (Z.lor EL1PCEN_BIT EL1PCTEN_BIT) 0 (read_midr_el1 regs) (read_mpidr_el1 regs) 0)
     else mret tt
   else mret tt);;
  modify (fun s => set_next (<[my := Some p]> (next_context s)) s).
End routing.

(** The variables before any call: zero. *)
Definition descs_bss : list intr_type_desc := replicate MAX_INTR_TYPES (IntrDesc None 0 [0; 0]).
End Imf.
