(* ===== verification/ImfSpec.v ===== *)
(** * Interrupt routing and contexts: the theorems

    [register_handler_spec]: every branch of the registration of a handler.  [entry_context_spec]: what a
    core is entered with in every state that registrations lead to.  [shared_line_conflict] and
    [el2_entry_little_endian]: where the code does not do what its comments say. *)

From Stdlib Require Import ZArith Lia.
From stdpp Require Import base option list numbers relations.
From S2P Require Import Prelude CMonad Imf.
Import Imf.
Open Scope Z_scope.

Module ImfSpec.

(** ** Lines *)
Class GicLaws `{Gic} := line_known t ss : type_known t = true -> sec_state_is_valid ss = true ->
  plat_interrupt_type_to_line t ss = Some IRQ_LINE \/ plat_interrupt_type_to_line t ss = Some FIQ_LINE.
#[global] Instance gicv2_laws b : @GicLaws (gicv2 b).
Proof. intros t ss Ht _. cbn. unfold gicv2_type_to_line. rewrite Ht. cbn. destruct (t =? INTR_TYPE_NS); [by left|]. destruct b; [by right|by left]. Qed.
#[global] Instance gicv3_laws : @GicLaws gicv3.
Proof.
  intros t ss Ht Hs. cbn. unfold gicv3_type_to_line. rewrite Ht, Hs. cbn. destruct (t =? INTR_TYPE_S_EL1); [destruct (ss =? SECURE); first [by left|by right]|].
  destruct (t =? INTR_TYPE_NS); [destruct (ss =? SECURE); first [by left|by right]|by right].
Qed.

Definition flag (f ss : Z) : Z := get_interrupt_rm_flag f ss.
Lemma flag_eq f ss : 0 <= ss -> flag f ss = Z.b2z (Z.testbit f ss).
Proof.
  intros Hs. unfold flag, get_interrupt_rm_flag, INTR_RM_FLAGS_SHIFT, INTR_RM_FROM_FLAG_MASK. rewrite Z.shiftr_0_r. change 1 with (Z.ones 1).
  rewrite Z.land_ones by lia. change (2 ^ 1) with 2. rewrite <- Z.bit0_mod, Z.shiftr_spec by lia. by rewrite Z.add_0_l.
Qed.

(** ** One bit of a saved register *)
Definition put_bit (b v scr : Z) : Z := Z.lor (Z.land (wrap 32 scr) (Z.lnot (Z.shiftl 1 b))) (Z.shiftl v b).
Lemma put_bit_spec b v scr i : 0 <= b -> v = 0 \/ v = 1 -> 0 <= i ->
  Z.testbit (put_bit b v scr) i = if i =? b then v =? 1 else Z.testbit (wrap 32 scr) i.
Proof.
  intros Hb Hv Hi. unfold put_bit. rewrite Z.lor_spec, Z.land_spec, Z.lnot_spec by lia.
  assert (forall u, u = 0 \/ u = 1 -> Z.testbit (Z.shiftl u b) i = (i =? b) && (u =? 1)) as Hs.
  { intros u Hu. rewrite Z.shiftl_spec by lia. destruct Hu as [-> | ->]; [by rewrite Z.bits_0, andb_false_r|]. rewrite andb_true_r.
    destruct (Z.eqb_spec i b) as [->|Hn]; [by rewrite Z.sub_diag|]. destruct (Z_lt_le_dec i b); [by rewrite Z.testbit_neg_r by lia|].
    apply (Z.bits_above_log2 1); cbn; lia. }
  rewrite !Hs by lia. cbn [Z.eqb]. destruct (i =? b); cbn; [by rewrite andb_false_r|]. by rewrite andb_true_r, orb_false_r.
Qed.
Definition put_scr (b v : Z) (c : cpu_context_t) : cpu_context_t :=
  Ctx (ctx_gpregs c) (put_bit b v (ctx_scr_el3 c)) (ctx_elr_el3 c) (ctx_spsr_el3 c) (ctx_sctlr_el1 c).
(** The bit of the context behind a pointer. *)
Definition put_ctx (ptr : option nat) (b v : Z) (l : list cpu_context_t) : list cpu_context_t :=
  match ptr with Some p => alter (put_scr b v) p l | None => l end.

Section spec.
Context `{GicLaws}.
Definition line (t ss : Z) : Z := default 0 (plat_interrupt_type_to_line t ss).
Lemma line_eq t ss : type_known t = true -> sec_state_is_valid ss = true ->
  plat_interrupt_type_to_line t ss = Some (line t ss) /\ (line t ss = IRQ_LINE \/ line t ss = FIQ_LINE).
Proof. intros Ht Hs. unfold line. destruct (line_known t ss Ht Hs) as [-> | ->]; cbn; eauto. Qed.
Definition word (t ss f : Z) : Z := Z.shiftl (flag f ss) (line t ss).

(** ** The invariant *)
Definition desc_ok (t : Z) (d : intr_type_desc) : Prop :=
  scr_el3 d = [word t SECURE (flags d); word t NON_SECURE (flags d)] /\ (is_Some (handler d) -> validate_routing_model t (flags d) = 0).
Definition descs_ok (l : list intr_type_desc) : Prop := length l = 3%nat /\ forall t d, l !! t = Some d -> desc_ok (Z.of_nat t) d.
Definition ptr_of (s : imf) (cpu : nat) (ss : Z) : option nat := row ← cpu_context s !! cpu; mjoin (row !! Z.to_nat ss).
(** Every core has two pointers, to contexts of the pool. *)
Definition ptrs_ok (s : imf) : Prop :=
  forall cpu row, cpu_context s !! cpu = Some row -> length row = 2%nat /\ forall p, Some p ∈ row -> (p < length (ctxs s))%nat.

Lemma desc_eq t d s : 0 <= t -> intr_type_descs s !! Z.to_nat t = Some d -> desc t s = Some (d, s).
Proof. intros Ht E. unfold desc, at_. rewrite bind_gets, (proj2 (Z.ltb_ge _ _)) by done. unfold must. by rewrite E. Qed.
Lemma set_desc_eq t d d' s : 0 <= t -> intr_type_descs s !! Z.to_nat t = Some d ->
  set_desc t d' s = Some (tt, set_descs (<[Z.to_nat t := d']> (intr_type_descs s)) s).
Proof. intros Ht E. unfold set_desc. by rewrite (bind_eq _ _ _ _ _ (desc_eq _ _ _ Ht E)). Qed.
Lemma get_context_eq s my ss : ptrs_ok s -> (my < length (cpu_context s))%nat -> sec_state_is_valid ss = true ->
  cm_get_context my ss s = Some (ptr_of s my ss, s) /\ cm_get_context_by_index my ss s = Some (ptr_of s my ss, s) /\
  forall p, ptr_of s my ss = Some p -> (p < length (ctxs s))%nat.
Proof.
  intros Hp Hm Hs. destruct (lookup_lt_is_Some_2 _ _ Hm) as [row Er]. destruct (Hp _ _ Er) as [Hl Hin].
  assert (ss = 0 \/ ss = 1) as Hss by (unfold sec_state_is_valid, SECURE, NON_SECURE in Hs; lia).
  destruct (lookup_lt_is_Some_2 row (Z.to_nat ss)) as [c Ec]; [destruct Hss as [-> | ->]; cbn; lia|].
  assert (ptr_of s my ss = c) as -> by (unfold ptr_of; rewrite Er; cbn; by rewrite Ec).
  assert (at_ row ss s = Some (c, s)) as Ea by (unfold at_; rewrite (proj2 (Z.ltb_ge _ _)) by lia; unfold must; by rewrite Ec).
  split_and!.
  - unfold cm_get_context. rewrite bind_massert by (apply Z.leb_le; unfold NON_SECURE; lia). by rewrite bind_gets, (bind_must _ _ _ _ Er).
  - unfold cm_get_context_by_index. rewrite bind_massert by done. by rewrite bind_gets, (bind_must _ _ _ _ Er).
  - intros p ->. apply Hin. by eapply list_elem_of_lookup_2.
Qed.
Lemma write_bit_eq s my ss b v p : ptrs_ok s -> (my < length (cpu_context s))%nat -> sec_state_is_valid ss = true -> ptr_of s my ss = Some p ->
  b = IRQ_LINE \/ b = FIQ_LINE -> v = 0 \/ v = 1 -> cm_write_scr_el3_bit my ss b v s = Some (tt, set_ctxs (put_ctx (Some p) b v (ctxs s)) s).
Proof.
  intros Hp Hm Hs Ep Hb Hv. destruct (get_context_eq s my ss Hp Hm Hs) as (E & _ & Hlt). specialize (Hlt _ Ep). unfold cm_write_scr_el3_bit.
  rewrite (bind_eq _ _ _ _ _ E), Ep, (bind_must _ _ _ _ eq_refl). rewrite bind_massert by (destruct Hb as [-> | ->]; done). rewrite bind_massert by (apply Z.leb_le; lia).
  destruct (lookup_lt_is_Some_2 _ _ Hlt) as [c Ec].
  assert (ctx p s = Some (c, s)) as Ex by (unfold ctx; rewrite bind_gets; unfold must; by rewrite Ec).
  rewrite (bind_eq _ _ _ _ _ Ex). unfold set_ctx. rewrite (bind_eq _ _ _ _ _ Ex). unfold modify. cbn [put_ctx].
  do 3 f_equal. apply list_eq. intros i. destruct (decide (i = p)) as [->|Hn].
  - rewrite list_lookup_insert_eq by done. by rewrite list_lookup_alter_eq, Ec.
  - by rewrite list_lookup_insert_ne, list_lookup_alter_ne by done.
Qed.
Lemma put_ctx_length ptr b v l : length (put_ctx ptr b v l) = length l.
Proof. destruct ptr; [apply length_alter|done]. Qed.
Lemma flag_01 f ss : 0 <= ss -> flag f ss = 0 \/ flag f ss = 1.
Proof. intros. rewrite flag_eq by done. destruct (Z.testbit f ss); [by right|by left]. Qed.
Lemma word_u32 t ss f : type_known t = true -> sec_state_is_valid ss = true -> wrap 32 (Z.shiftl (flag f ss) (line t ss)) = word t ss f.
Proof.
  intros Ht Hs. unfold word. destruct (line_eq t ss Ht Hs) as [_ Hl]. assert (0 <= ss) by (unfold sec_state_is_valid, SECURE, NON_SECURE in Hs; lia).
  destruct (flag_01 f ss) as [-> | ->]; [done| |]; destruct Hl as [-> | ->]; done.
Qed.

(** [set_scr_el3_from_rm], for a known type. *)
Lemma set_scr_eq s my t f ss d : ptrs_ok s -> (my < length (cpu_context s))%nat -> type_known t = true -> sec_state_is_valid ss = true ->
  intr_type_descs s !! Z.to_nat t = Some d -> length (scr_el3 d) = 2%nat ->
  set_scr_el3_from_rm my t f ss s =
    Some (tt, set_ctxs (put_ctx (ptr_of s my ss) (line t ss) (flag f ss) (ctxs s))
      (set_descs (<[Z.to_nat t := IntrDesc (handler d) (flags d) (<[Z.to_nat ss := word t ss f]> (scr_el3 d))]> (intr_type_descs s)) s)).
Proof.
  intros Hp Hm Ht Hs Ed Hl. destruct (line_eq t ss Ht Hs) as [El Hln].
  assert (0 <= t) as Ht0 by (unfold type_known, INTR_TYPE_S_EL1, INTR_TYPE_EL3, INTR_TYPE_NS in Ht; lia).
  assert (ss = 0 \/ ss = 1) as Hss by (unfold sec_state_is_valid, SECURE, NON_SECURE in Hs; lia).
  unfold set_scr_el3_from_rm. cbv zeta. rewrite (bind_must _ _ _ _ El), (bind_eq _ _ _ _ _ (desc_eq _ _ _ Ht0 Ed)).
  destruct (lookup_lt_is_Some_2 (scr_el3 d) (Z.to_nat ss)) as [w Ew]; [destruct Hss as [-> | ->]; cbn; lia|].
  assert (at_ (scr_el3 d) ss s = Some (w, s)) as Ea by (unfold at_; rewrite (proj2 (Z.ltb_ge _ _)) by lia; unfold must; by rewrite Ew).
  rewrite (bind_eq _ _ _ _ _ Ea), (bind_eq _ _ _ _ _ (set_desc_eq _ _ _ _ Ht0 Ed)). fold (flag f ss). rewrite word_u32 by done.
  set (s1 := set_descs _ s). assert (ptrs_ok s1) as Hp1 by done. destruct (get_context_eq s1 my ss Hp1 Hm Hs) as (E & _ & _). rewrite (bind_eq _ _ _ _ _ E).
  change (ptr_of s1 my ss) with (ptr_of s my ss). destruct (ptr_of s my ss) as [p|] eqn:Ep; [|by destruct s].
  rewrite (write_bit_eq s1 my ss _ _ p); try done. apply flag_01. lia.
Qed.

(** The state after a routing model has been set. *)
Definition routed (s : imf) (my : nat) (t f : Z) (h : option Z) : imf :=
  set_ctxs (put_ctx (ptr_of s my NON_SECURE) (line t NON_SECURE) (flag f NON_SECURE) (put_ctx (ptr_of s my SECURE) (line t SECURE) (flag f SECURE) (ctxs s)))
    (set_descs (<[Z.to_nat t := IntrDesc h f [word t SECURE f; word t NON_SECURE f]]> (intr_type_descs s)) s).
Lemma known_range t : type_known t = true <-> 0 <= t < 3.
Proof. unfold type_known, INTR_TYPE_S_EL1, INTR_TYPE_EL3, INTR_TYPE_NS. lia. Qed.
Lemma type_check t : 0 <= t < 3 -> validate_interrupt_type t = 0.
Proof.
  intros Ht. unfold validate_interrupt_type. assert ((t =? INTR_TYPE_S_EL1) || (t =? INTR_TYPE_NS) || (t =? INTR_TYPE_EL3) = true) as ->; [|done].
  unfold INTR_TYPE_S_EL1, INTR_TYPE_EL3, INTR_TYPE_NS. lia.
Qed.
Lemma set_routing_eq s my t f d : ptrs_ok s -> (my < length (cpu_context s))%nat -> 0 <= t < 3 -> intr_type_descs s !! Z.to_nat t = Some d ->
  length (scr_el3 d) = 2%nat -> set_routing_model my t f s =
    Some (if validate_routing_model t f =? 0 then (0, routed s my t f (handler d)) else (validate_routing_model t f, s)).
Proof.
  intros Hp Hm Ht Ed Hl. pose proof (proj2 (known_range t) Ht) as Hk. assert (0 <= t) as Ht0 by lia. unfold set_routing_model. cbv zeta. rewrite type_check by done. cbn [Z.eqb negb].
  destruct (validate_routing_model t f =? 0); cbn [negb]; [|done]. pose proof (lookup_lt_Some _ _ _ Ed) as Hlt.
  rewrite (bind_eq _ _ _ _ _ (desc_eq _ _ _ Ht0 Ed)), (bind_eq _ _ _ _ _ (set_desc_eq _ _ _ _ Ht0 Ed)).
  set (s1 := set_descs _ s). assert (intr_type_descs s1 !! Z.to_nat t = Some (IntrDesc (handler d) f (scr_el3 d))) as E1 by (by apply list_lookup_insert_eq).
  rewrite (bind_eq _ _ _ _ _ (set_scr_eq s1 my t f SECURE _ Hp Hm Hk eq_refl E1 Hl)). cbn [scr_el3 handler flags]. set (s2 := set_ctxs _ _).
  assert (intr_type_descs s2 !! Z.to_nat t = Some (IntrDesc (handler d) f (<[Z.to_nat SECURE := word t SECURE f]> (scr_el3 d)))) as E2.
  { apply list_lookup_insert_eq. cbn. by rewrite length_insert. }
  assert (ptrs_ok s2) as Hp2.
  { intros cpu row Er. destruct (Hp cpu row Er) as [Hr1 Hr2]. split; [done|]. intros p Hin. cbn. rewrite put_ctx_length. by apply Hr2. }
  rewrite (bind_eq _ _ _ _ _ (set_scr_eq s2 my t f NON_SECURE _ Hp2 Hm Hk eq_refl E2 ltac:(cbn; by rewrite length_insert))). cbn [scr_el3 handler flags].
  unfold mret, M_ret. do 2 f_equal. unfold routed, s2, s1. destruct (scr_el3 d) as [|a [|b [|]]]; try done. unfold set_ctxs, set_descs. cbn [intr_type_descs ctxs cpu_context el2 next_context].
  f_equal. by rewrite !list_insert_insert_eq.
Qed.
Lemma register_eq s my t h f d : ptrs_ok s -> (my < length (cpu_context s))%nat -> 0 <= t < 3 -> intr_type_descs s !! Z.to_nat t = Some d ->
  length (scr_el3 d) = 2%nat -> register_interrupt_type_handler my t (Some h) f s =
    Some (if negb (Z.land f INTR_TYPE_FLAGS_MASK =? 0) then (- EINVAL, s)
          else if decide (is_Some (handler d)) then (- EALREADY, s)
          else if validate_routing_model t f =? 0 then (0, routed s my t f (Some h)) else (validate_routing_model t f, s)).
Proof.
  intros Hp Hm Ht Ed Hl. assert (0 <= t) as Ht0 by lia. unfold register_interrupt_type_handler. destruct (negb _); [done|]. rewrite (bind_eq _ _ _ _ _ (desc_eq _ _ _ Ht0 Ed)).
  destruct (decide (is_Some (handler d))) as [Hh|Hn]; [by rewrite bool_decide_eq_true_2|]. rewrite bool_decide_eq_false_2 by done.
  pose proof (set_routing_eq s my t f d Hp Hm Ht Ed Hl) as Er. destruct (Z.eqb_spec (validate_routing_model t f) 0) as [E0|E0];
    rewrite (bind_eq _ _ _ _ _ Er).
  - cbn [Z.eqb negb]. pose proof (lookup_lt_Some _ _ _ Ed) as Hlt.
    assert (intr_type_descs (routed s my t f (handler d)) !! Z.to_nat t = Some (IntrDesc (handler d) f [word t SECURE f; word t NON_SECURE f])) as E1.
    { by apply list_lookup_insert_eq. }
    rewrite (bind_eq _ _ _ _ _ (desc_eq _ _ _ Ht0 E1)), (bind_eq _ _ _ _ _ (set_desc_eq _ _ _ _ Ht0 E1)). cbn [flags scr_el3 handler].
    unfold mret, M_ret. do 2 f_equal. unfold routed, set_ctxs, set_descs. cbn [intr_type_descs ctxs cpu_context el2 next_context]. by rewrite list_insert_insert_eq.
  - rewrite (proj2 (Z.eqb_neq _ _) E0). done.
Qed.

(** ** Reachable states *)
(** Any core calls any of the functions. *)
Inductive step (s s' : imf) : Prop :=
| step_register my t h f rc : register_interrupt_type_handler my t h f s = Some (rc, s') -> step s s'
| step_route my t f rc : set_routing_model my t f s = Some (rc, s') -> step s s'
| step_disable my t ss rc : disable_intr_rm_local my t ss s = Some (rc, s') -> step s s'
| step_enable my t ss rc : enable_intr_rm_local my t ss s = Some (rc, s') -> step s s'
| step_set_context my c ss : cm_set_context my c ss s = Some (tt, s') -> step s s'
| step_set_index cpu c ss : cm_set_context_by_index cpu c ss s = Some (tt, s') -> step s s'
| step_init_index regs cpu ep : cm_init_context_by_index regs cpu ep s = Some (tt, s') -> step s s'
| step_init_my regs my ep : cm_init_my_context regs my ep s = Some (tt, s') -> step s s'
| step_elr my ss pc : cm_set_elr_el3 my ss pc s = Some (tt, s') -> step s s'
| step_elr_spsr my ss pc spsr : cm_set_elr_spsr_el3 my ss pc spsr s = Some (tt, s') -> step s s'
| step_exit regs my ss : cm_prepare_el3_exit regs my ss s = Some (tt, s') -> step s s'.

Definition keeps {A} (m : M imf A) : Prop := forall s, pc m (fun _ s' => intr_type_descs s' = intr_type_descs s) s.
Lemma descs_keep_bind {A B} (m : M imf A) (k : A -> M imf B) : keeps m -> (forall x, keeps (k x)) -> keeps (m ≫= k).
Proof. intros Hm Hk s. apply pc_bind. eapply pc_mono; [apply Hm|]. intros x s1 <-. apply Hk. Qed.
Lemma descs_keep_must {A} (o : option A) : keeps (must o).
Proof. intros s. by apply pc_must. Qed.
Lemma descs_keep_massert b : keeps (massert b).
Proof. intros s. by apply pc_massert. Qed.
Lemma descs_keep_gets {A} (f : imf -> A) : keeps (gets f).
Proof. intros s. by apply pc_gets. Qed.
Lemma descs_keep_ret {A} (x : A) : keeps (mret x).
Proof. intros s. by apply pc_ret. Qed.
Lemma descs_keep_modify f : (forall s, intr_type_descs (f s) = intr_type_descs s) -> keeps (modify f).
Proof. intros Hf s. by apply pc_modify. Qed.
Ltac keep := repeat first
  [ apply descs_keep_bind; intros | apply descs_keep_must | apply descs_keep_massert | apply descs_keep_gets | apply descs_keep_ret
  | apply descs_keep_modify; done | case_match ].
Lemma descs_keep_write my ss b v : keeps (cm_write_scr_el3_bit my ss b v).
Proof. unfold cm_write_scr_el3_bit, cm_get_context, at_, set_ctx, ctx. keep. Qed.
Lemma keeps_init regs c ep : keeps (cm_init_context_common regs c ep).
Proof. unfold cm_init_context_common, get_scr_el3_from_routing_model, set_ctx, ctx, desc, at_. keep. Qed.
Lemma keeps_exit regs my ss : keeps (cm_prepare_el3_exit regs my ss).
Proof. unfold cm_prepare_el3_exit, cm_get_context, set_el2_of, ctx, at_. keep. Qed.

Lemma set_scr_pc s my t f ss : pc (set_scr_el3_from_rm my t f ss) (fun _ s' => exists d b, 0 <= t /\ intr_type_descs s !! Z.to_nat t = Some d /\
  plat_interrupt_type_to_line t ss = Some b /\ intr_type_descs s' =
    <[Z.to_nat t := IntrDesc (handler d) (flags d) (<[Z.to_nat ss := wrap 32 (Z.shiftl (flag f ss) b)]> (scr_el3 d))]> (intr_type_descs s)) s.
Proof.
  unfold set_scr_el3_from_rm, set_desc, desc, at_. cbv zeta. pc_run. destruct (Z.ltb_spec t 0); [done|]. rewrite E0 in *.
  assert (keeps (cm_get_context my ss)) as Hg by (unfold cm_get_context, at_; keep). eapply pc_mono; [apply Hg|]. intros c s1 D1. cbn beta in D1. destruct c.
  - eapply pc_mono; [apply descs_keep_write|]. cbn beta. intros _ s2 D2. exists x0, x. rewrite D2, D1. done.
  - pc_run. exists x0, x. rewrite D1. done.
Qed.
Lemma set_routing_pc s my t f : descs_ok (intr_type_descs s) -> pc (set_routing_model my t f) (fun rc s' =>
  intr_type_descs s' = intr_type_descs s /\ rc <> 0 \/
  rc = 0 /\ 0 <= t < 3 /\ validate_routing_model t f = 0 /\ exists d, intr_type_descs s !! Z.to_nat t = Some d /\
    intr_type_descs s' = <[Z.to_nat t := IntrDesc (handler d) f [word t SECURE f; word t NON_SECURE f]]> (intr_type_descs s)) s.
Proof.
  intros [Hl Hd]. unfold set_routing_model. cbv zeta. pc_if; [|pc_run; by left]. pc_if; [|pc_run; by left].
  assert (0 <= t < 3) as Ht.
  { unfold validate_interrupt_type in Hrc. destruct (_ || _) eqn:E in Hrc; [|done]. unfold INTR_TYPE_S_EL1, INTR_TYPE_EL3, INTR_TYPE_NS in E. lia. }
  pose proof (proj2 (known_range t) Ht) as Hk. unfold desc at 1, set_desc, desc at 1, at_ at 1 2. pc_run. rewrite (proj2 (Z.ltb_ge _ _)) in * by lia.
  rename x into d. destruct (Hd _ _ E) as [Hs _]. eapply pc_mono; [apply set_scr_pc|]. intros _ s1 (d1 & b1 & _ & E1 & B1 & D1). pc_run.
  eapply pc_mono; [apply set_scr_pc|]. intros _ s2 (d2 & b2 & _ & E2 & B2 & D2). pc_run. right. split; [done|]. split; [done|]. split; [done|]. exists d. split; [done|].
  pose proof (lookup_lt_Some _ _ _ E) as Hlt. cbn [intr_type_descs set_descs] in *. rewrite list_lookup_insert_eq in E1 by done. injection E1 as <-. rewrite D1 in E2.
  rewrite list_lookup_insert_eq in E2 by (by rewrite length_insert). injection E2 as <-. rewrite D2, D1. cbn [intr_type_descs set_descs handler flags scr_el3].
  destruct (line_eq t SECURE Hk eq_refl) as [L1 _], (line_eq t NON_SECURE Hk eq_refl) as [L2 _]. rewrite B1 in L1. rewrite B2 in L2. injection L1 as ->. injection L2 as ->.
  rewrite !word_u32 by done. rewrite Hs. by rewrite !list_insert_insert_eq.
Qed.
Lemma descs_insert l t d : descs_ok l -> 0 <= t < 3 -> desc_ok t d -> descs_ok (<[Z.to_nat t := d]> l).
Proof.
  intros [Hl Hd] Ht Ho. split; [by rewrite length_insert|]. intros i d' E. destruct (decide (i = Z.to_nat t)) as [->|Hn].
  - rewrite list_lookup_insert_eq in E by lia. injection E as <-. by rewrite Z2Nat.id by lia.
  - rewrite list_lookup_insert_ne in E by done. by apply Hd.
Qed.
Lemma step_descs s s' : descs_ok (intr_type_descs s) -> step s s' -> descs_ok (intr_type_descs s').
Proof.
  intros Hok Hs. assert (forall A (m : M imf A) x, keeps m -> m s = Some (x, s') -> descs_ok (intr_type_descs s')) as Hk.
  { intros A m x Hm E. by rewrite (Hm s x s' E). }
  destruct Hs as [my t h f rc E|my t f rc E|my t ss rc E|my t ss rc E|my c ss E|cpu c ss E|regs cpu ep E|regs my ep E|my ss pc E|my ss pc spsr E|regs my ss E].
  - revert rc s' E Hk. change (pc (register_interrupt_type_handler my t h f) (fun _ s' => (forall A (m : M imf A) x, keeps m -> m s = Some (x, s') -> descs_ok (intr_type_descs s')) ->
      descs_ok (intr_type_descs s')) s).
    destruct h as [h|]; cbn [register_interrupt_type_handler]; [|by pc_run]. pc_if; [|by pc_run]. unfold set_desc, desc, at_. pc_run.
    case_bool_decide; [by pc_run|]. pc_run. eapply pc_mono; [by apply set_routing_pc|]. intros rc s1 [[D1 Hr]|(-> & Ht & Hv & d & Ed & D1)]; [pc_if; [done|]; pc_run; intros _; by rewrite D1|].
    cbn [Z.eqb negb]. pc_run. intros _. rewrite (proj2 (Z.ltb_ge _ _)) in * by lia. cbn [intr_type_descs set_descs].
    rewrite D1 in *. pose proof (lookup_lt_Some _ _ _ Ed) as Hlt. rewrite list_lookup_insert_eq in E0 by done. injection E0 as <-. cbn [flags scr_el3].
    rewrite list_insert_insert_eq. by apply descs_insert.
  - destruct (set_routing_pc s my t f Hok _ _ E) as [[-> _]|(_ & Ht & Hv & d & Ed & ->)]; [done|]. by apply descs_insert.
  - eapply Hk; [|exact E]. unfold disable_intr_rm_local, desc, at_. keep; apply descs_keep_write.
  - eapply Hk; [|exact E]. unfold enable_intr_rm_local, desc, at_. keep; apply descs_keep_write.
  - eapply Hk; [|exact E]. unfold cm_set_context, at_. keep.
  - eapply Hk; [|exact E]. unfold cm_set_context_by_index. keep.
  - eapply Hk; [|exact E]. unfold cm_init_context_by_index, cm_get_context_by_index, at_. keep; apply keeps_init.
  - eapply Hk; [|exact E]. unfold cm_init_my_context, cm_get_context, at_. keep; apply keeps_init.
  - eapply Hk; [|exact E]. unfold cm_set_elr_el3, cm_get_context, set_ctx, ctx, at_. keep.
  - eapply Hk; [|exact E]. unfold cm_set_elr_spsr_el3, cm_get_context, set_ctx, ctx, at_. keep.
  - eapply Hk; [|exact E]. apply keeps_exit.
Qed.
Lemma steps_descs s0 s : intr_type_descs s0 = descs_bss -> rtc step s0 s -> descs_ok (intr_type_descs s).
Proof.
  intros E0 Hs. assert (descs_ok (intr_type_descs s0)) as Hi.
  { rewrite E0. split; [done|]. intros t d (-> & _)%lookup_replicate. split; [|intros [? ?]; done]. cbn. unfold word. rewrite !flag_eq by (unfold SECURE, NON_SECURE; lia).
    by rewrite !Z.bits_0, !Z.shiftl_0_l. }
  clear E0. induction Hs as [|s s1 s' Hst _ IH]; [done|]. apply IH. by eapply step_descs.
Qed.

(** ** What traps *)
(** Some type on the line [b] is routed to EL3 from the security state. *)
Definition traps (s : imf) (ss b : Z) : Prop :=
  exists t d, intr_type_descs s !! t = Some d /\ line (Z.of_nat t) ss = b /\ flag (flags d) ss = 1.
Lemma get_scr_spec s ss : descs_ok (intr_type_descs s) -> ss = SECURE \/ ss = NON_SECURE ->
  exists v, get_scr_el3_from_routing_model ss s = Some (v, s) /\ forall i, 0 <= i -> Z.testbit v i = true <-> traps s ss i.
Proof.
  intros [Hl Hd] Hs. assert (sec_state_is_valid ss = true) as Hv by (destruct Hs as [-> | ->]; done).
  destruct (intr_type_descs s) as [|d0 [|d1 [|d2 [|]]]] eqn:Ed; try done.
  assert (forall t d, 0 <= t < 3 -> intr_type_descs s !! Z.to_nat t = Some d -> desc t s = Some (d, s) /\ at_ (scr_el3 d) ss s = Some (word t ss (flags d), s)) as Hx.
  { intros t d Ht E. split; [by apply desc_eq; [lia|]|]. destruct (Hd (Z.to_nat t) d) as [Hw _]; [by rewrite <- Ed|]. rewrite Z2Nat.id in Hw by lia. rewrite Hw.
    by destruct Hs as [-> | ->]. }
  destruct (Hx 0 d0) as [A0 B0]; [lia|by rewrite Ed|]. destruct (Hx 1 d1) as [A1 B1]; [lia|by rewrite Ed|]. destruct (Hx 2 d2) as [A2 B2]; [lia|by rewrite Ed|].
  exists (Z.lor (Z.lor (word 2 ss (flags d2)) (word 0 ss (flags d0))) (word 1 ss (flags d1))). split.
  - unfold get_scr_el3_from_routing_model. rewrite bind_massert by done. unfold INTR_TYPE_NS, INTR_TYPE_S_EL1, INTR_TYPE_EL3.
    by rewrite (bind_eq _ _ _ _ _ A2), (bind_eq _ _ _ _ _ B2), (bind_eq _ _ _ _ _ A0), (bind_eq _ _ _ _ _ B0), (bind_eq _ _ _ _ _ A1), (bind_eq _ _ _ _ _ B1).
  - intros i Hi. assert (forall t f, 0 <= t < 3 -> Z.testbit (word t ss f) i = true <-> line t ss = i /\ flag f ss = 1) as Hw.
    { intros t f Ht. unfold word. destruct (line_eq t ss ltac:(by apply known_range) Hv) as [_ Hln]. assert (0 <= line t ss) by (destruct Hln as [-> | ->]; done).
      destruct (flag_01 f ss) as [-> | ->]; [destruct Hs as [-> | ->]; done| |].
      - rewrite Z.shiftl_0_l, Z.bits_0. split; [done|]. by intros [_ ?].
      - rewrite Z.shiftl_1_l, Z.pow2_bits_eqb by done. rewrite Z.eqb_eq. by intuition. }
    rewrite !Z.lor_spec, !orb_true_iff, !Hw by lia. unfold traps. rewrite Ed. split.
    + intros [[[? ?]|[? ?]]|[? ?]]; [exists 2%nat, d2|exists 0%nat, d0|exists 1%nat, d1]; done.
    + intros ([|[|[|t]]] & d & E & ? & ?); [..|done]; injection E as <-; [by left; right|by right|by left; left].
Qed.

(** Entry to EL2, or to hyp mode. *)
Definition el2_entry (ep : entry_point_info_t) : bool :=
  ((GET_RW (ep_spsr ep) =? MODE_RW_64) && (GET_EL (ep_spsr ep) =? MODE_EL2)) || (negb (GET_RW (ep_spsr ep) =? MODE_RW_64) && (GET_M32 (ep_spsr ep) =? MODE32_hyp)).
(** SCR_EL3 of a new context, from the value read and the traps. *)
Definition entry_scr (scr0 rm : Z) (ep : entry_point_info_t) : Z :=
  let scr := Z.land (wrap 32 scr0) (Z.lnot (Z.lor (Z.lor (Z.lor (Z.lor (Z.lor SCR_NS_BIT SCR_RW_BIT) SCR_FIQ_BIT) SCR_IRQ_BIT) SCR_ST_BIT) SCR_HCE_BIT)) in
  let scr := if negb (GET_SECURITY_STATE (ep_attr ep) =? SECURE) then Z.lor scr SCR_NS_BIT else scr in
  let scr := if GET_RW (ep_spsr ep) =? MODE_RW_64 then Z.lor scr SCR_RW_BIT else scr in
  let scr := if negb (EP_GET_ST (ep_attr ep) =? 0) then Z.lor scr SCR_ST_BIT else scr in
  let scr := Z.lor (Z.land scr (Z.lnot SCR_EA_BIT)) rm in
  if el2_entry ep then Z.lor scr SCR_HCE_BIT else scr.
Definition scr_bit (scr0 : Z) (ep : entry_point_info_t) (i : Z) : bool :=
  if i =? 0 then negb (GET_SECURITY_STATE (ep_attr ep) =? SECURE)
  else if i =? 10 then GET_RW (ep_spsr ep) =? MODE_RW_64
  else if i =? 11 then negb (EP_GET_ST (ep_attr ep) =? 0)
  else if i =? 8 then el2_entry ep
  else if (i =? 1) || (i =? 2) || (i =? 3) then false
  else Z.testbit (wrap 32 scr0) i.
Lemma or_bit (b : bool) x k i : 0 <= k -> Z.testbit (if b then Z.lor x (2 ^ k) else x) i = Z.testbit x i || (b && (k =? i)).
Proof. intros Hk. destruct b; cbn [andb]; [by rewrite Z.lor_spec, Z.pow2_bits_eqb|by rewrite orb_false_r]. Qed.
Lemma clear_bits x m i : 0 <= i -> Z.testbit (Z.land x (Z.lnot m)) i = Z.testbit x i && negb (Z.testbit m i).
Proof. intros Hi. by rewrite Z.land_spec, Z.lnot_spec. Qed.
Lemma entry_scr_bits scr0 rm ep i : 0 <= i -> Z.testbit (entry_scr scr0 rm ep) i = scr_bit scr0 ep i || Z.testbit rm i.
Proof.
  intros Hi. unfold entry_scr, scr_bit. cbv zeta. unfold SCR_NS_BIT, SCR_RW_BIT, SCR_FIQ_BIT, SCR_IRQ_BIT, SCR_ST_BIT, SCR_HCE_BIT, SCR_EA_BIT.
  rewrite or_bit, Z.lor_spec, clear_bits, !or_bit, clear_bits, !Z.lor_spec, !Z.pow2_bits_eqb by lia.
  generalize (el2_entry ep), (GET_RW (ep_spsr ep) =? MODE_RW_64), (negb (EP_GET_ST (ep_attr ep) =? 0)), (negb (GET_SECURITY_STATE (ep_attr ep) =? SECURE)),
    (Z.testbit (wrap 32 scr0) i), (Z.testbit rm i). intros b1 b2 b3 b4 b5 b6.
  rewrite !(Z.eqb_sym _ i). destruct (Z.eqb_spec i 0) as [->|]; [cbn; by destruct b1, b2, b3, b4, b5, b6|].
  destruct (Z.eqb_spec i 10) as [->|]; [cbn; by destruct b1, b2, b3, b4, b5, b6|]. destruct (Z.eqb_spec i 11) as [->|]; [cbn; by destruct b1, b2, b3, b4, b5, b6|].
  destruct (Z.eqb_spec i 8) as [->|]; [cbn; by destruct b1, b2, b3, b4, b5, b6|]. destruct (i =? 1), (i =? 2), (i =? 3); by destruct b1, b2, b3, b4, b5, b6.
Qed.
End spec.

(** Interrupts for S-EL1 and EL3 always come to EL3 from the normal world, those of the normal world never. *)
Definition model_ok (t f : Z) : bool := if t =? INTR_TYPE_NS then f <=? 1 else 2 <=? f.
Lemma small_flags f : 0 <= f < 2 ^ 32 -> negb (Z.land f INTR_TYPE_FLAGS_MASK =? 0) = (4 <=? f).
Proof.
  intros Hf. change INTR_TYPE_FLAGS_MASK with (Z.shiftl (Z.ones 30) 2). assert (Z.land f (Z.shiftl (Z.ones 30) 2) = Z.shiftl (f / 4) 2) as ->.
  { change 4 with (2 ^ 2). rewrite <- Z.shiftr_div_pow2 by lia. assert (Z.shiftr f 2 = Z.land (Z.shiftr f 2) (Z.ones 30)) as ->.
    { rewrite Z.land_ones, Z.mod_small; [done| |lia]. rewrite Z.shiftr_div_pow2 by lia. split; [apply Z.div_pos|apply Z.div_lt_upper_bound]; lia. }
    bits. }
  rewrite Z.shiftl_mul_pow2 by lia. destruct (Z.leb_spec 4 f); destruct (Z.eqb_spec (f / 4 * 2 ^ 2) 0); cbn; try done; dlia.
Qed.
Lemma model_ok_eq t f : 0 <= t < 3 -> 0 <= f < 4 -> validate_routing_model t f = if model_ok t f then 0 else - EINVAL.
Proof.
  intros Ht Hf. assert (t = 0 \/ t = 1 \/ t = 2) as Ht' by lia. assert (f = 0 \/ f = 1 \/ f = 2 \/ f = 3) as Hf' by lia.
  destruct Ht' as [-> |[-> | ->]], Hf' as [-> |[-> |[-> | ->]]]; done.
Qed.

(** C11: Registering a handler for a type of interrupt, on every branch.  A missing handler, reserved
    flags, a type that has a handler and a routing model that the type does not allow are errors
    that change nothing.  Otherwise the handler is the one [get_interrupt_type_handler] returns, the routing
    model is recorded, and in the two contexts of this core the bit of the line is the flag for
    that security state and nothing else changes ([routed]).  A type that is out of range is
    used as an index before it is checked. *)
Theorem register_handler_spec `{GicLaws} (s : imf) (my : nat) (t : Z) (h : option Z) (f : Z) :
  descs_ok (intr_type_descs s) -> ptrs_ok s -> (my < length (cpu_context s))%nat -> 0 <= f < 2 ^ 32 ->
  (0 <= t < 3 -> exists d, intr_type_descs s !! Z.to_nat t = Some d /\
     register_interrupt_type_handler my t h f s = Some (
       if decide (h = None) then (- EINVAL, s)
       else if 4 <=? f then (- EINVAL, s)
       else if decide (is_Some (handler d)) then (- EALREADY, s)
       else if model_ok t f then (0, routed s my t f h)
       else (- EINVAL, s)) /\
     get_interrupt_type_handler t (routed s my t f h) = Some (h, routed s my t f h)) /\
  (3 <= t -> h <> None -> f < 4 -> register_interrupt_type_handler my t h f s = None).
Proof.
  intros Hd Hp Hm Hf. pose proof Hd as [Hl Hds]. split.
  - intros Ht. destruct (lookup_lt_is_Some_2 (intr_type_descs s) (Z.to_nat t)) as [d Ed]; [lia|]. exists d. split; [done|]. assert (0 <= t) as Ht0 by lia. split.
    + destruct h as [h|]; [|done]. rewrite decide_False by done. rewrite (register_eq s my t h f d), small_flags; try done; [|by destruct (Hds _ _ Ed) as [-> _]].
      destruct (Z.leb_spec 4 f); [done|]. destruct (decide _); [done|]. rewrite model_ok_eq by lia. by destruct (model_ok t f).
    + unfold get_interrupt_type_handler. rewrite type_check by done. cbn [Z.eqb negb].
      assert (intr_type_descs (routed s my t f h) !! Z.to_nat t = Some (IntrDesc h f [word t SECURE f; word t NON_SECURE f])) as E1.
      { apply list_lookup_insert_eq. lia. }
      by rewrite (bind_eq _ _ _ _ _ (desc_eq _ _ _ Ht0 E1)).
  - intros Ht Hh Hf4. destruct h as [h|]; [|done]. unfold register_interrupt_type_handler. rewrite small_flags by done. rewrite (proj2 (Z.leb_gt _ _)) by lia.
    unfold mbind, M_bind at 1. unfold desc, at_. rewrite bind_gets. rewrite (proj2 (Z.ltb_ge _ _)) by lia. rewrite lookup_ge_None_2 by lia. done.
Qed.

Lemma init_context_ok `{GicLaws} (s : imf) (regs : sysregs) (cpu p : nat) (ep : entry_point_info_t) :
  descs_ok (intr_type_descs s) -> ptr_of s cpu (GET_SECURITY_STATE (ep_attr ep)) = Some p -> (p < length (ctxs s))%nat ->
  length (ep_args ep) = 8%nat ->
  exists c, cm_init_context_by_index regs cpu ep s = Some (tt, set_ctxs (<[p := c]> (ctxs s)) s) /\
    cm_init_my_context regs cpu ep s = Some (tt, set_ctxs (<[p := c]> (ctxs s)) s) /\
    ctx_elr_el3 c = ep_pc ep /\ ctx_spsr_el3 c = ep_spsr ep /\ ctx_gpregs c = ep_args ep ++ replicate 24 0 /\
    forall i, 0 <= i -> Z.testbit (ctx_scr_el3 c) i = true <->
      scr_bit (read_scr regs) ep i = true \/ traps s (GET_SECURITY_STATE (ep_attr ep)) i.
Proof.
  intros Hd Hptr Hlt Ha. set (ss := GET_SECURITY_STATE (ep_attr ep)) in *.
  assert (ss = SECURE \/ ss = NON_SECURE) as Hss.
  { unfold ss, GET_SECURITY_STATE. change 1 with (Z.ones 1). rewrite Z.land_ones by lia. unfold SECURE, NON_SECURE. pose proof (Z.mod_pos_bound (ep_attr ep) (2 ^ 1)). lia. }
  destruct (get_scr_spec s ss Hd Hss) as (rm & Erm & Hrm). unfold ptr_of in Hptr. destruct (cpu_context s !! cpu) as [row|] eqn:Er; [|done]. cbn in Hptr.
  destruct (row !! Z.to_nat ss) as [o|] eqn:Eo; [|done]. cbn in Hptr. subst o.
  assert (at_ row ss s = Some (Some p, s)) as Ea by (unfold at_; rewrite (proj2 (Z.ltb_ge _ _)) by (destruct Hss as [-> | ->]; done); unfold must; by rewrite Eo).
  destruct (lookup_lt_is_Some_2 _ _ Hlt) as [c0 Ec]. assert (ctx p s = Some (c0, s)) as Ex by (unfold ctx; rewrite bind_gets; unfold must; by rewrite Ec).
  set (c := Ctx (ep_args ep ++ replicate 24 0) (entry_scr (read_scr regs) rm ep) (ep_pc ep) (ep_spsr ep)
    (Z.lor (if negb (EP_GET_EE (ep_attr ep) =? 0) then SCTLR_EE_BIT else 0) (if GET_RW (ep_spsr ep) =? MODE_RW_64 then SCTLR_EL1_RES1 else SCTLR_AARCH32_EL1_RES1))).
  assert (cm_init_context_common regs (Some p) ep s = Some (tt, set_ctxs (<[p := c]> (ctxs s)) s)) as Ei.
  { unfold cm_init_context_common. rewrite (bind_must _ _ _ _ eq_refl). cbv zeta. rewrite (bind_eq _ _ _ _ _ Ex). fold ss. rewrite (bind_eq _ _ _ _ _ Erm).
    rewrite bind_massert by (by apply bool_decide_eq_true). unfold set_ctx. by rewrite (bind_eq _ _ _ _ _ Ex). }
  exists c. split_and!; try done.
  - unfold cm_init_context_by_index, cm_get_context_by_index. fold ss. rewrite bind_assoc, bind_massert by (destruct Hss as [-> | ->]; done).
    by rewrite bind_assoc, bind_gets, bind_assoc, (bind_must _ _ _ _ Er), (bind_eq _ _ _ _ _ Ea).
  - unfold cm_init_my_context, cm_get_context. fold ss. rewrite bind_assoc, bind_massert by (destruct Hss as [-> | ->]; done).
    by rewrite bind_assoc, bind_gets, bind_assoc, (bind_must _ _ _ _ Er), (bind_eq _ _ _ _ _ Ea).
  - intros i Hi. cbn [c ctx_scr_el3]. by rewrite entry_scr_bits, orb_true_iff, Hrm by done.
Qed.
(** Leaving EL3 for a context: only the registers of EL2 and the context to return to change. *)
Lemma prepare_exit_ok (s : imf) (regs : sysregs) (my p : nat) (ss : Z) (c : cpu_context_t) :
  ss = SECURE \/ ss = NON_SECURE -> ptr_of s my ss = Some p -> ctxs s !! p = Some c -> (my < length (el2 s))%nat ->
  exists e, cm_prepare_el3_exit regs my ss s = Some (tt, set_next (<[my := Some p]> (next_context s)) (set_el2 e s)).
Proof.
  intros Hss Hptr Hc Hm. unfold ptr_of in Hptr. destruct (cpu_context s !! my) as [row|] eqn:Er; [|done]. cbn in Hptr.
  destruct (row !! Z.to_nat ss) as [o|] eqn:Eo; [|done]. cbn in Hptr. subst o.
  assert (cm_get_context my ss s = Some (Some p, s)) as Eg.
  { unfold cm_get_context. rewrite bind_massert by (by destruct Hss as [-> | ->]). rewrite bind_gets, (bind_must _ _ _ _ Er). unfold at_, must.
    rewrite (proj2 (Z.ltb_ge _ _)) by (by destruct Hss as [-> | ->]). by rewrite Eo. }
  assert (ctx p s = Some (c, s)) as Ex by (unfold ctx; rewrite bind_gets; unfold must; by rewrite Hc).
  destruct (lookup_lt_is_Some_2 _ _ Hm) as [e He]. unfold cm_prepare_el3_exit. rewrite (bind_eq _ _ _ _ _ Eg), (bind_must _ _ _ _ eq_refl), (bind_eq _ _ _ _ _ Ex).
  assert (forall f, set_el2_of my f s = Some (tt, set_el2 (<[my := f e]> (el2 s)) s)) as Hs.
  { intros f. unfold set_el2_of. by rewrite bind_gets, (bind_must _ _ _ _ He). }
  cbv zeta. destruct (ss =? NON_SECURE); [destruct (negb _); [|destruct (negb _)]|]; eexists.
  1, 2: by rewrite (bind_eq _ _ _ _ _ (Hs _)).
  all: rewrite bind_ret; instantiate (1 := el2 s); by destruct s.
Qed.

(** C10: What a core is entered with.  After any calls of any cores to this module, a context that is
    initialised has the program counter, the status and the arguments of the entry point.  In its SCR_EL3:
    the state is non-secure and the width, the secure timer and EL2 are as the entry point says; aborts are not taken to EL3; IRQ or
    FIQ is taken to EL3 exactly if a type of interrupt that uses the line in this security state is routed
    there; all other bits are those of the core's register. *)
Theorem entry_context_spec `{GicLaws} (s0 s : imf) (regs : sysregs) (cpu p : nat) (ep : entry_point_info_t) :
  intr_type_descs s0 = descs_bss -> rtc step s0 s -> ptr_of s cpu (GET_SECURITY_STATE (ep_attr ep)) = Some p -> (p < length (ctxs s))%nat ->
  length (ep_args ep) = 8%nat ->
  exists c, cm_init_context_by_index regs cpu ep s = Some (tt, set_ctxs (<[p := c]> (ctxs s)) s) /\
    cm_init_my_context regs cpu ep s = Some (tt, set_ctxs (<[p := c]> (ctxs s)) s) /\
    ctx_elr_el3 c = ep_pc ep /\ ctx_spsr_el3 c = ep_spsr ep /\ ctx_gpregs c = ep_args ep ++ replicate 24 0 /\
    forall i, 0 <= i -> Z.testbit (ctx_scr_el3 c) i = true <->
      scr_bit (read_scr regs) ep i = true \/ traps s (GET_SECURITY_STATE (ep_attr ep)) i.
Proof. intros E0 Hs. apply init_context_ok. by apply (steps_descs s0). Qed.

(** ** Where the code does not do what its comments say *)
(** Entering EL2: SCTLR_EL2 is SCTLR_EL1 of the context without its endianness, which is thus always little (the comment
    says that the endianness is used to initialise it), and with the other bits of SCTLR_EL1. *)
Theorem el2_entry_little_endian (s : imf) (regs : sysregs) (my p : nat) (c : cpu_context_t) (e : el2_regs) :
  ptr_of s my NON_SECURE = Some p -> ctxs s !! p = Some c -> Z.testbit (wrap 32 (ctx_scr_el3 c)) 8 = true -> el2 s !! my = Some e ->
  exists s' e', cm_prepare_el3_exit regs my NON_SECURE s = Some (tt, s') /\ el2 s' !! my = Some e' /\
    forall i, 0 <= i -> Z.testbit (sctlr_el2 e') i = negb (i =? 25) && Z.testbit (wrap 32 (ctx_sctlr_el1 c)) i || Z.testbit SCTLR_EL2_RES1 i.
Proof.
  intros Hptr Hc Hh He. unfold ptr_of in Hptr. destruct (cpu_context s !! my) as [row|] eqn:Er; [|done]. change (mjoin (row !! 1%nat) = Some p) in Hptr.
  destruct (row !! 1%nat) as [o|] eqn:Eo; [|done]. cbn in Hptr. subst o.
  assert (cm_get_context my NON_SECURE s = Some (Some p, s)) as Eg.
  { unfold cm_get_context. rewrite bind_massert by done. rewrite bind_gets, (bind_must _ _ _ _ Er). unfold at_, must. change (match row !! 1%nat with Some x => Some (x, s) | None => None end = Some (Some p, s)). by rewrite Eo. }
  assert (ctx p s = Some (c, s)) as Ex by (unfold ctx; rewrite bind_gets; unfold must; by rewrite Hc).
  assert (Z.land (wrap 32 (ctx_scr_el3 c)) SCR_HCE_BIT <> 0) as Hn.
  { intros E. apply (f_equal (fun z => Z.testbit z 8)) in E. rewrite Z.land_spec, Hh in E. done. }
  eexists _, (El2 (Z.lor (Z.land (wrap 32 (ctx_sctlr_el1 c)) (Z.lnot SCTLR_EE_BIT)) SCTLR_EL2_RES1) (hcr_el2 e) (cptr_el2 e) (cnthctl_el2 e) (cntvoff_el2 e)
    (vpidr_el2 e) (vmpidr_el2 e) (vttbr_el2 e)). split_and!.
  - unfold cm_prepare_el3_exit. rewrite (bind_eq _ _ _ _ _ Eg), (bind_must _ _ _ _ eq_refl), (bind_eq _ _ _ _ _ Ex). cbn [Z.eqb NON_SECURE Pos.eqb]. cbv zeta.
    rewrite (proj2 (Z.eqb_neq _ _) Hn). cbn [negb]. unfold set_el2_of. rewrite !bind_assoc, bind_gets, !bind_assoc, (bind_must _ _ _ _ He), !bind_modify. reflexivity.
  - cbn. apply list_lookup_insert_eq. by eapply lookup_lt_Some.
  - intros i Hi. cbn [sctlr_el2]. rewrite Z.lor_spec, Z.land_spec, Z.lnot_spec by done. unfold SCTLR_EE_BIT. rewrite Z.pow2_bits_eqb, (Z.eqb_sym 25) by lia.
    by rewrite andb_comm.
Qed.

(** The core of the examples, with a GICv3 as on the Armada 3700. *)
Definition demo_ctx : cpu_context_t := Ctx [] 0 0 0 0.
Definition demo_start : imf := Imf_ descs_bss [[Some 0%nat; Some 1%nat]] [demo_ctx; demo_ctx] [El2 0 0 0 0 0 0 0 0] [None].
Definition demo_get {A} (m : M imf A) (s : imf) : imf := default s (snd <$> m s).
Definition after_el3 : imf := demo_get (@register_interrupt_type_handler gicv3 0 INTR_TYPE_EL3 (Some 0x1000) 3) demo_start.
Definition after_both : imf := demo_get (@register_interrupt_type_handler gicv3 0 INTR_TYPE_NS (Some 0x2000) 0) after_el3.

(** From the secure state a GICv3 signals the interrupts for EL3 and those of the normal world on the same line.  After a
    handler for the first, which are to be taken to EL3, is registered, registering one for the second,
    which are not, clears the bit in the context: the interrupts for EL3 are then no longer taken to EL3 on this
    core, although the model that is kept, from which further contexts are initialised, says so. *)
Theorem shared_line_conflict : exists s1 s2,
  @register_interrupt_type_handler gicv3 0 INTR_TYPE_EL3 (Some 0x1000) 3 demo_start = Some (0, s1) /\ cm_get_scr_el3 0 SECURE s1 = Some (SCR_FIQ_BIT, s1) /\
  @register_interrupt_type_handler gicv3 0 INTR_TYPE_NS (Some 0x2000) 0 s1 = Some (0, s2) /\ cm_get_scr_el3 0 SECURE s2 = Some (0, s2) /\
  get_scr_el3_from_routing_model SECURE s2 = Some (SCR_FIQ_BIT, s2).
Proof. exists after_el3, after_both. by vm_compute. Qed.

(** ** Witnesses *)
Lemma demo_descs_ok : @descs_ok gicv3 (intr_type_descs demo_start).
Proof. by apply (@steps_descs gicv3 gicv3_laws demo_start demo_start); [|apply rtc_refl]. Qed.
Lemma demo_ptrs_ok : ptrs_ok demo_start.
Proof.
  intros [|cpu] row E; [|done]. injection E as <-. split; [done|]. intros p Hp. cbn. rewrite !elem_of_cons in Hp. destruct Hp as [[= ->]|[[= ->]|Hp]]; [lia|lia|].
  by apply not_elem_of_nil in Hp.
Qed.
Lemma register_handler_spec_witness : @register_interrupt_type_handler gicv3 0 INTR_TYPE_S_EL1 (Some 0x1000) 2 demo_start =
  Some (0, @routed gicv3 demo_start 0 INTR_TYPE_S_EL1 2 (Some 0x1000)).
Proof.
  destruct (@register_handler_spec gicv3 gicv3_laws demo_start 0 INTR_TYPE_S_EL1 (Some 0x1000) 2 demo_descs_ok demo_ptrs_ok ltac:(cbn; lia) ltac:(lia)) as [H1 _].
  destruct (H1 ltac:(unfold INTR_TYPE_S_EL1; lia)) as (d & Ed & E & _). injection Ed as <-. exact E.
Defined.
Lemma entry_context_spec_witness : exists c, cm_init_context_by_index (Sysregs 0x430 0x1100 0 0) 0 (Ep 0x80000 0x3c9 1 (replicate 8 0)) after_both =
  Some (tt, set_ctxs (<[1%nat := c]> (ctxs after_both)) after_both) /\ Z.testbit (ctx_scr_el3 c) 2 = true.
Proof.
  destruct (@entry_context_spec gicv3 gicv3_laws demo_start after_both (Sysregs 0x430 0x1100 0 0) 0 1 (Ep 0x80000 0x3c9 1 (replicate 8 0)) eq_refl) as (c & E & _ & _ & _ & _ & Hb).
  - eapply rtc_l; [|apply rtc_once]; [eapply (step_register _ after_el3 0 INTR_TYPE_EL3 (Some 0x1000) 3 0); by vm_compute|].
    eapply (step_register _ _ 0 INTR_TYPE_NS (Some 0x2000) 0 0). by vm_compute.
  - reflexivity.
  - vm_compute. lia.
  - reflexivity.
  - exists c. split; [exact E|]. apply (Hb 2); [lia|]. right. exists 1%nat, (IntrDesc (Some 0x1000) 3 [4; 4]). by vm_compute.
Defined.
Lemma el2_entry_little_endian_witness : exists s' e', cm_prepare_el3_exit (Sysregs 0 0 0 0) 0 NON_SECURE
    (set_ctxs [demo_ctx; Ctx [] 0x100 0 0 SCTLR_EE_BIT] demo_start) = Some (tt, s') /\ el2 s' !! 0%nat = Some e' /\ Z.testbit (sctlr_el2 e') 25 = false.
Proof.
  destruct (el2_entry_little_endian (set_ctxs [demo_ctx; Ctx [] 0x100 0 0 SCTLR_EE_BIT] demo_start) (Sysregs 0 0 0 0) 0 1 _ _ eq_refl eq_refl eq_refl eq_refl)
    as (s' & e' & E & He & Hb). exists s', e'. split; [exact E|]. split; [exact He|]. rewrite (Hb 25) by lia. reflexivity.
Defined.
End ImfSpec.
