(* ===== verification/Mss.v ===== *)
(** * Firmware of the coprocessors: plat/marvell/a8k/common/mss/mss_scp_bootloader.c

    BL2 splits the image SCP_BL2 into the firmware of up to five coprocessors and has each
    copied by the DMA engine of its coprocessor.  Registers, and the control block in the memory of
    the AP's coprocessor, are written through [AddrDec.mmio_write_32], which keeps the order; what the
    hardware answers is the class [MssHw].  Memory is read only. *)

From Stdlib Require Import ZArith Lia.
From stdpp Require Import base option list numbers.
From S2P Require Import Prelude CMonad BlFwu AddrDec AddrBoards.
Open Scope Z_scope.
Open Scope cint_scope.

Module Mss.
Definition MSS_DMA_SRCBR (base : Z) : Z := base +u64 0xC0.
Definition MSS_DMA_DSTBR (base : Z) : Z := base +u64 0xC4.
Definition MSS_DMA_CTRLR (base : Z) : Z := base +u64 0xC8.
Definition MSS_M3_RSTCR (base : Z) : Z := base +u64 0xFC.
Definition MSS_AEBR (base : Z) : Z := base +u64 0x160.
Definition MSS_AIBR (base : Z) : Z := base +u64 0x164.
Definition MSS_DMA_CTRLR_SIZE_OFFSET := 0.
Definition MSS_DMA_CTRLR_REQ_OFFSET := 15.
Definition MSS_DMA_CTRLR_REQ_SET := 1.
Definition MSS_DMA_CTRLR_ACK_OFFSET := 12.
Definition MSS_DMA_CTRLR_ACK_MASK := 0x1.
Definition MSS_DMA_CTRLR_ACK_READY := 1.
Definition MSS_M3_RSTCR_RST_OFFSET := 0.
Definition MSS_M3_RSTCR_RST_OFF := 1.
Definition MSS_AEBR_MASK := 0xFFF.
Definition MSS_AIBR_MASK := 0xFFF.
Definition MSS_DMA_TIMEOUT := 1000%nat.
Definition MSS_EXTERNAL_SPACE := 0x50000000.
Definition MSS_EXTERNAL_ACCESS_BIT := 28.
Definition MSS_EXTERNAL_ADDR_MASK := 0xfffffff.
Definition MSS_INTERNAL_ACCESS_BIT := 28.
Definition DMA_SIZE := 128.
Definition MSS_HANDSHAKE_TIMEOUT := 50%nat.
Definition AP_MSS_REG_BASE : Z := MVEBU_REGS_BASE +u32 0x580000.
Definition CP_MSS_REG_BASE (CP : Z) : Z := MVEBU_CP_REGS_BASE CP +u32 0x280000.

(** mss_scp_bl2_format.h *)
Definition MAX_NR_OF_FILES := 5.
Definition FILE_MAGIC := 0xddd01ff.
Definition HEADER_VERSION := 0x1.
Definition MSS_IDRAM_SIZE := 0x10000.
Definition sizeof_file_header := 8.
Definition sizeof_img_header := 12.
Inductive cm3_t := MSS_AP | MSS_CP0 | MSS_CP1 | MG_CP0 | MG_CP1.
Definition cm3_of (type : Z) : option cm3_t :=
  if type =? 0 then Some MSS_AP else if type =? 1 then Some MSS_CP0 else if type =? 2 then Some MSS_CP1
  else if type =? 3 then Some MG_CP0 else if type =? 4 then Some MG_CP1 else None.

(** mss_mem.h, mss_ipc_drv.h, plat_pm_trace.h *)
Definition MSS_SRAM_PM_CONTROL_BASE : Z := MVEBU_REGS_BASE +u32 0x520000.
Definition MSS_ACKNOWLEDGEMENT := 2.
Definition HOST_ACKNOWLEDGEMENT := 3.
Definition MV_PM_FW_IPC_VERSION : Z := Z.lor 0xCA530000 0x00000001.
Definition AP_MSS_ATF_CORE_INFO_SIZE := 256.
Definition AP_MSS_ATF_CORE_CTRL_BASE : Z := MVEBU_REGS_BASE +u32 0x520140.
Definition AP_MSS_ATF_CORE_INFO_BASE : Z := MVEBU_REGS_BASE +u32 0x5201C0.
Definition PLAT_MARVELL_CLUSTER_COUNT := 2.
Definition PLAT_MARVELL_CLUSTER_CORE_COUNT := 2.
(** The offsets of the fields of [struct mss_pm_ctrl_block]. *)
Definition pm_handshake : Z := MSS_SRAM_PM_CONTROL_BASE.
Definition pm_field (i : Z) : Z := MSS_SRAM_PM_CONTROL_BASE + 4 * i.

Definition MVEBU_80X0_DEV_ID := 0x8040.
Definition APN806_REV_ID_A0 := 0.

Class MssHw := {
  (** What the [k]th poll reads after the writes so far, the last first. *)
  dma_ctrlr : list (Z * Z) -> Z -> nat -> Z;
  handshake : list (Z * Z) -> nat -> Z;
  apn806_rev_id_get : Z;
  cp110_device_id_get : Z
}.

Section mss.
Context `{MssHw}.
Abbreviation X := (M hw).
Definition mmio_write (addr value : Z) : X unit := modify (mmio_write_32 addr value).

(** The loop with [timeout--] in its condition reads at most [MSS_HANDSHAKE_TIMEOUT + 1] times. *)
Fixpoint wait_handshake (timeout k : nat) (log : list (Z * Z)) : nat :=
  if handshake log k =? MSS_ACKNOWLEDGEMENT then S k
  else match timeout with O => S k | S timeout => wait_handshake timeout (S k) log end.
Definition mss_check_image_ready : X Z :=
  log ← gets writes;
  let k := wait_handshake MSS_HANDSHAKE_TIMEOUT 0 log in
  if negb (handshake log k =? MSS_ACKNOWLEDGEMENT) && negb (apn806_rev_id_get =? APN806_REV_ID_A0) then mret (-1)
  else mmio_write pm_handshake HOST_ACKNOWLEDGEMENT;; mret 0.

(** The polls of one transfer: whether [timeout] is not 0 at the end. *)
Fixpoint dma_poll (timeout k : nat) (log : list (Z * Z)) (mss_regs : Z) : bool :=
  match timeout with
  | O => false
  | S timeout =>
      if Z.land (Z.shiftr (dma_ctrlr log (MSS_DMA_CTRLR mss_regs) k) MSS_DMA_CTRLR_ACK_OFFSET) MSS_DMA_CTRLR_ACK_MASK =? MSS_DMA_CTRLR_ACK_READY
      then true else dma_poll timeout (S k) log mss_regs
  end.
(** [n] transfers from the [i]th on. *)
Fixpoint dma_loop (n : nat) (i src_addr mss_regs : Z) : X Z :=
  match n with
  | O => mret 0
  | S n =>
      mmio_write (MSS_DMA_SRCBR mss_regs) (Z.lor MSS_EXTERNAL_SPACE (Z.land src_addr MSS_EXTERNAL_ADDR_MASK +u32 (i *u32 DMA_SIZE)));;
      mmio_write (MSS_DMA_DSTBR mss_regs) (i *u32 DMA_SIZE);;
      mmio_write (MSS_DMA_CTRLR mss_regs)
        (Z.lor (Z.shiftl MSS_DMA_CTRLR_REQ_SET MSS_DMA_CTRLR_REQ_OFFSET) (Z.shiftl DMA_SIZE MSS_DMA_CTRLR_SIZE_OFFSET));;
      log ← gets writes;
      if negb (dma_poll MSS_DMA_TIMEOUT 0 log mss_regs) then mret 1 else dma_loop n (i + 1) src_addr mss_regs
  end.
Definition dma_loop_num (size : Z) : Z := size / DMA_SIZE + (if Z.land size (DMA_SIZE - 1) =? 0 then 0 else 1).
Definition mss_image_load (src_addr size mss_regs : Z) : X Z :=
  if MSS_IDRAM_SIZE <? size then mret 1 else
  mmio_write (MSS_AEBR mss_regs) (Z.land (Z.shiftr src_addr MSS_EXTERNAL_ACCESS_BIT) MSS_AEBR_MASK);;
  mmio_write (MSS_AIBR mss_regs) (u32 (Z.land (Z.shiftr mss_regs MSS_INTERNAL_ACCESS_BIT) MSS_AIBR_MASK));;
  rc ← dma_loop (Z.to_nat (dma_loop_num size)) 0 src_addr mss_regs;
  if negb (rc =? 0) then mret 1 else
  mmio_write (MSS_M3_RSTCR mss_regs) (Z.shiftl MSS_M3_RSTCR_RST_OFF MSS_M3_RSTCR_RST_OFFSET);;
  mret 0.

Definition mss_ap_load_image (single_img image_size : Z) : X Z :=
  mmio_write (pm_field 1) MV_PM_FW_IPC_VERSION;;
  mmio_write (pm_field 5) PLAT_MARVELL_CLUSTER_COUNT;;
  mmio_write (pm_field 6) PLAT_MARVELL_CLUSTER_CORE_COUNT;;
  mmio_write (pm_field 4) (PLAT_MARVELL_CLUSTER_COUNT * PLAT_MARVELL_CLUSTER_CORE_COUNT);;
  mmio_write (pm_field 7) AP_MSS_ATF_CORE_CTRL_BASE;;
  mmio_write (pm_field 8) AP_MSS_ATF_CORE_INFO_BASE;;
  mmio_write (pm_field 9) AP_MSS_ATF_CORE_INFO_SIZE;;
  ret ← mss_image_load (u32 single_img) image_size AP_MSS_REG_BASE;
  if negb (ret =? 0) then mret (-1) else
  mss_check_image_ready;;
  mret 0.

Definition load_img_to_cm3 (cm3_type single_img image_size : Z) : X Z :=
  let has_cp1 := cp110_device_id_get =? MVEBU_80X0_DEV_ID in
  let load CP := ret ← mss_image_load (u32 single_img) image_size (CP_MSS_REG_BASE CP); if negb (ret =? 0) then mret (-1) else mret 0 in
  match cm3_of cm3_type with
  | Some MSS_AP => ret ← mss_ap_load_image single_img image_size; if negb (ret =? 0) then mret ret else mret 0
  | Some MSS_CP0 => load 0
  | Some MSS_CP1 => if negb has_cp1 then mret 0 else load 1
  | Some MG_CP0 | Some MG_CP1 | None => mret 0
  end.

Section file.
Context (mem : Fwu.memory_t).
(** A little-endian word. *)
Definition read_32 (a : Z) : Z := mem a + 2 ^ 8 * mem (a + 1) + 2 ^ 16 * mem (a + 2) + 2 ^ 24 * mem (a + 3).
Definition hdr_type (h : Z) : Z := read_32 h.
Definition hdr_length (h : Z) : Z := read_32 (h + 4).
Definition hdr_version (h : Z) : Z := read_32 (h + 8).

(** [n] images; the result of the loading is not looked at. *)
Fixpoint split_loop (n : nat) (img_hdr single_img : Z) : X Z :=
  match n with
  | O => mret 0
  | S n =>
      if negb (hdr_version img_hdr =? HEADER_VERSION) then mret (-1)
      else
        load_img_to_cm3 (hdr_type img_hdr) single_img (hdr_length img_hdr);;
        split_loop n (img_hdr + sizeof_img_header) (single_img +u64 hdr_length img_hdr)
  end.
Definition split_and_load_bl2_image (image : Z) : X Z :=
  if negb (read_32 image =? FILE_MAGIC) then mret (-1) else
  let nr_of_imgs := read_32 (image + 4) in
  if MAX_NR_OF_FILES <? nr_of_imgs then mret (-1) else
  split_loop (Z.to_nat nr_of_imgs) (image + sizeof_file_header) (image + sizeof_file_header + sizeof_img_header * nr_of_imgs).
(** [scp_bl2_base] is [SCP_BL2_BASE] where it is defined. *)
Definition scp_bootloader_transfer (scp_bl2_base : option Z) (image image_size : Z) : X Z :=
  massert (match scp_bl2_base with Some b => image =? b | None => true end);;
  if image_size =? 0 then mret (-1) else
  rc ← split_and_load_bl2_image image;
  if negb (rc =? 0) then mret (-1) else mret 0.

(** mss_bl2_setup.c; [maps] is the state of the window drivers in BL2, with the given registers. *)
Definition bl2_plat_handle_scp_bl2 `{Board} (maps : hw -> adec) (scp_bl2_base : option Z) (image_base image_size : Z) : X Z :=
  h ← get;
  let '(ret, _, h) := bl2_plat_mmap_init mem_map (maps h) in
  put h;;
  if negb (ret =? 0) then mret ret else
  scp_bootloader_transfer scp_bl2_base image_base image_size.
End file.
End mss.
End Mss.
