(* ===== verification/MssSpec.v ===== *)
(** * Firmware of the coprocessors: the theorems

    [scp_split_spec]: from a file that holds the firmware of the coprocessors one behind the
    other, each coprocessor's memory gets its own.  [scp_result_headers]: the result depends on the
    headers only, so that a failed transfer is not noticed.  [dma] is the engine as the code
    programs it: a request copies from the external address to the coprocessor's memory. *)

From Stdlib Require Import ZArith Lia.
From stdpp Require Import base option list gmap numbers.
From S2P Require Import Prelude CMonad BlFwu AddrDec AddrBoards Mss.
Import Mss.
Open Scope Z_scope.

Module MssSpec.

(** ** Programs of register writes *)
Definition run_writes (l : list (Z * Z)) (h : hw) : hw := foldl (fun h '(a, v) => mmio_write_32 a v h) h l.
Lemma run_writes_app l k h : run_writes (l ++ k) h = run_writes k (run_writes l h).
Proof. apply foldl_app. Qed.
Definition chunk (i src regs : Z) : list (Z * Z) :=
  [(MSS_DMA_SRCBR regs, Z.lor MSS_EXTERNAL_SPACE (wrap 32 (Z.land src MSS_EXTERNAL_ADDR_MASK + wrap 32 (i * DMA_SIZE))));
   (MSS_DMA_DSTBR regs, wrap 32 (i * DMA_SIZE)); (MSS_DMA_CTRLR regs, 0x8080)].
Definition chunks (n : nat) (i src regs : Z) : list (Z * Z) := mjoin ((fun i => chunk i src regs) <$> seqZ i (Z.of_nat n)).
Definition prog (src size regs : Z) : list (Z * Z) :=
  [(MSS_AEBR regs, Z.land (Z.shiftr src 28) 0xFFF); (MSS_AIBR regs, wrap 32 (Z.land (Z.shiftr regs 28) 0xFFF))] ++
  chunks (Z.to_nat (dma_loop_num size)) 0 src regs ++ [(MSS_M3_RSTCR regs, 1)].

Lemma chunks_S n i src regs : chunks (S n) i src regs = chunk i src regs ++ chunks n (i + 1) src regs.
Proof. unfold chunks. rewrite Nat2Z.inj_succ, seqZ_cons by lia. by rewrite Z.pred_succ. Qed.

Section hw.
Context `{MssHw}.
(** Every request is acknowledged in time. *)
Definition responsive : Prop := forall log a, exists k, (k < MSS_DMA_TIMEOUT)%nat /\ Z.testbit (dma_ctrlr log a k) 12 = true.
Lemma ack_bit v : (Z.land (Z.shiftr v MSS_DMA_CTRLR_ACK_OFFSET) MSS_DMA_CTRLR_ACK_MASK =? MSS_DMA_CTRLR_ACK_READY) = Z.testbit v 12.
Proof.
  change ((Z.land (Z.shiftr v 12) (Z.ones 1) =? 1) = Z.testbit v 12). rewrite Z.land_ones by lia. change (2 ^ 1) with 2.
  rewrite <- Z.bit0_mod, Z.shiftr_spec by lia. rewrite Z.add_0_l. by destruct (Z.testbit v 12).
Qed.
Lemma poll_ok regs log timeout : forall k j, (k <= j < k + timeout)%nat -> Z.testbit (dma_ctrlr log (MSS_DMA_CTRLR regs) j) 12 = true -> dma_poll timeout k log regs = true.
Proof.
  induction timeout as [|t IH]; intros k j Hj Hb; [lia|]. cbn [dma_poll]. rewrite ack_bit. destruct (Z.testbit (dma_ctrlr log (MSS_DMA_CTRLR regs) k) 12) eqn:E; [done|].
  apply (IH (S k) j); [|done]. destruct (decide (j = k)) as [->|]; [congruence|lia].
Qed.
Lemma write_eq a v h : mmio_write a v h = Some (tt, mmio_write_32 a v h).
Proof. done. Qed.
Lemma dma_loop_ok n : responsive -> forall i src regs h, dma_loop n i src regs h = Some (0, run_writes (chunks n i src regs) h).
Proof.
  intros Hr. induction n as [|n IH]; intros i src regs h; [done|]. cbn [dma_loop]. rewrite chunks_S, run_writes_app.
  rewrite !(bind_eq _ _ _ _ _ (write_eq _ _ _)), bind_gets.
  destruct (Hr (writes (run_writes (chunk i src regs) h)) (MSS_DMA_CTRLR regs)) as (k & Hk & Hb).
  change (mmio_write_32 (MSS_DMA_CTRLR regs) _ _) with (run_writes (chunk i src regs) h).
  rewrite (poll_ok regs _ MSS_DMA_TIMEOUT 0 k) by (done || lia). cbn [negb]. apply IH.
Qed.
Lemma image_load_ok src size regs h : responsive -> size <= MSS_IDRAM_SIZE -> mss_image_load src size regs h = Some (0, run_writes (prog src size regs) h).
Proof.
  intros Hr Hs. unfold mss_image_load. rewrite (proj2 (Z.ltb_ge _ _)) by done. rewrite !(bind_eq _ _ _ _ _ (write_eq _ _ _)).
  rewrite (bind_eq _ _ _ _ _ (dma_loop_ok _ Hr _ _ _ _)). cbn [Z.eqb negb]. rewrite (bind_eq _ _ _ _ _ (write_eq _ _ _)).
  unfold prog. by rewrite !run_writes_app.
Qed.

(** What is written for one image. *)
Definition pm_init : list (Z * Z) :=
  [(pm_field 1, MV_PM_FW_IPC_VERSION); (pm_field 5, 2); (pm_field 6, 2); (pm_field 4, 4); (pm_field 7, AP_MSS_ATF_CORE_CTRL_BASE);
   (pm_field 8, AP_MSS_ATF_CORE_INFO_BASE); (pm_field 9, 256)].
Definition regs_of (type : Z) : option Z :=
  match cm3_of type with
  | Some MSS_AP => Some AP_MSS_REG_BASE
  | Some MSS_CP0 => Some (CP_MSS_REG_BASE 0)
  | Some MSS_CP1 => if cp110_device_id_get =? MVEBU_80X0_DEV_ID then Some (CP_MSS_REG_BASE 1) else None
  | _ => None
  end.
(** [pre] and [post] are the control block of the power management, for the AP only. *)
Inductive loaded (type src len : Z) (h h' : hw) : Prop :=
| loaded_none : regs_of type = None -> h' = h -> loaded type src len h h'
| loaded_prog regs pre post : regs_of type = Some regs -> h' = run_writes (pre ++ prog src len regs ++ post) h ->
    (type = 0 /\ pre = pm_init /\ (post = [] \/ post = [(pm_handshake, HOST_ACKNOWLEDGEMENT)]) \/ type <> 0 /\ pre = [] /\ post = []) ->
    loaded type src len h h'.
Lemma load_ok type src len h : responsive -> len <= MSS_IDRAM_SIZE -> exists rc h', load_img_to_cm3 type src len h = Some (rc, h') /\ loaded type (wrap 32 src) len h h'.
Proof.
  intros Hr Hl. unfold load_img_to_cm3. cbv zeta.
  assert (forall regs, regs_of type = Some regs -> type <> 0 -> exists rc h', (ret ← mss_image_load (wrap 32 src) len regs; if negb (ret =? 0) then mret (-1) else mret 0) h =
    Some (rc, h') /\ loaded type (wrap 32 src) len h h') as Hcp.
  { intros regs Er Ht. rewrite (bind_eq _ _ _ _ _ (image_load_ok _ _ _ _ Hr Hl)). eexists _, _. split; [done|]. eapply (loaded_prog _ _ _ _ _ regs [] []); [done| |by right].
    by rewrite app_nil_r. }
  unfold regs_of in Hcp. destruct (cm3_of type) as [[]|] eqn:Et.
  - assert (type = 0) as ->. { unfold cm3_of in Et. destruct (Z.eqb_spec type 0); [done|]. by repeat case_match. }
    unfold mss_ap_load_image. rewrite !bind_assoc, (bind_eq _ _ _ _ _ (write_eq _ _ _)). do 6 rewrite bind_assoc, (bind_eq _ _ _ _ _ (write_eq _ _ _)).
    rewrite bind_assoc. set (h1 := mmio_write_32 _ _ _). change h1 with (run_writes pm_init h). rewrite (bind_eq _ _ _ _ _ (image_load_ok _ _ _ _ Hr Hl)). cbn [Z.eqb negb].
    rewrite bind_assoc. unfold mss_check_image_ready. rewrite !bind_assoc, bind_gets. destruct (negb _ && negb _).
    + eexists _, _. split; [done|]. eapply (loaded_prog _ _ _ _ _ AP_MSS_REG_BASE pm_init []); [done| |by left; split_and!; [..|left]]. by rewrite !run_writes_app.
    + eexists _, _. split; [done|]. eapply (loaded_prog _ _ _ _ _ AP_MSS_REG_BASE pm_init [_]); [done| |by left; split_and!; [..|right]]. by rewrite !run_writes_app.
  - apply Hcp; [done|]. intros ->. done.
  - destruct (cp110_device_id_get =? MVEBU_80X0_DEV_ID) eqn:E; cbn [negb]; [apply Hcp; [done|]; by intros ->|]. eexists _, _. split; [done|]. apply loaded_none; [|done].
    unfold regs_of. by rewrite Et, E.
  - eexists _, _. split; [done|]. apply loaded_none; [|done]. unfold regs_of. by rewrite Et.
  - eexists _, _. split; [done|]. apply loaded_none; [|done]. unfold regs_of. by rewrite Et.
  - eexists _, _. split; [done|]. apply loaded_none; [|done]. unfold regs_of. by rewrite Et.
Qed.
End hw.

(** ** The engine *)
Record dma := Dma { aebr : Z; srcbr : Z; dstbr : Z; ram : Z -> Z; running : bool }.
(** A write to a register of the coprocessor at [regs]; [mem] is the memory of the application processor. *)
Definition dma_write (mem : Fwu.memory_t) (regs : Z) (w : Z * Z) (d : dma) : dma :=
  let '(a, v) := w in
  if a =? MSS_AEBR regs then Dma v (srcbr d) (dstbr d) (ram d) (running d)
  else if a =? MSS_DMA_SRCBR regs then Dma (aebr d) v (dstbr d) (ram d) (running d)
  else if a =? MSS_DMA_DSTBR regs then Dma (aebr d) (srcbr d) v (ram d) (running d)
  else if (a =? MSS_DMA_CTRLR regs) && Z.testbit v 15 then
    let src := Z.shiftl (aebr d) 28 + Z.land (srcbr d) 0xfffffff in
    Dma (aebr d) (srcbr d) (dstbr d) (fun x => if Fwu.in_range x (dstbr d) (Z.land v 0xfff) then mem (src + (x - dstbr d)) else ram d x) (running d)
  else if a =? MSS_M3_RSTCR regs then Dma (aebr d) (srcbr d) (dstbr d) (ram d) (v =? 1)
  else d.
Definition dma_exec (mem : Fwu.memory_t) (regs : Z) (l : list (Z * Z)) (d : dma) : dma := foldl (fun d w => dma_write mem regs w d) d l.

Section engine.
Context (mem : Fwu.memory_t) (regs : Z) (Hregs : 0 <= regs < 2 ^ 63).
Lemma reg_eqb x y : (0 <=? x) && (x <? 4096) && (0 <=? y) && (y <? 4096) = true -> (wrap 64 (regs + x) =? wrap 64 (regs + y)) = (x =? y).
Proof. intros Hxy. unfold wrap. rewrite !Z.mod_small by lia. destruct (Z.eqb_spec x y) as [->|]; [apply Z.eqb_refl|]. apply Z.eqb_neq. lia. Qed.
Ltac regs_step := unfold MSS_AEBR, MSS_AIBR, MSS_DMA_SRCBR, MSS_DMA_DSTBR, MSS_DMA_CTRLR, MSS_M3_RSTCR; rewrite !reg_eqb by reflexivity; cbn [Z.eqb Pos.eqb andb].

Lemma dma_srcbr v d : dma_write mem regs (MSS_DMA_SRCBR regs, v) d = Dma (aebr d) v (dstbr d) (ram d) (running d).
Proof. unfold dma_write. by regs_step. Qed.
Lemma dma_dstbr v d : dma_write mem regs (MSS_DMA_DSTBR regs, v) d = Dma (aebr d) (srcbr d) v (ram d) (running d).
Proof. unfold dma_write. by regs_step. Qed.
Lemma dma_request d : dma_write mem regs (MSS_DMA_CTRLR regs, 0x8080) d = Dma (aebr d) (srcbr d) (dstbr d)
  (fun x => if Fwu.in_range x (dstbr d) 128 then mem (Z.shiftl (aebr d) 28 + Z.land (srcbr d) 0xfffffff + (x - dstbr d)) else ram d x) (running d).
Proof. unfold dma_write. by regs_step. Qed.
Lemma exec_chunk i src d : 0 <= i < 1024 -> 0 <= src < 2 ^ 32 -> src mod 2 ^ 28 + (i + 1) * 128 <= 2 ^ 28 -> aebr d = src / 2 ^ 28 ->
  let d' := dma_exec mem regs (chunk i src regs) d in
  aebr d' = aebr d /\ running d' = running d /\ forall x, ram d' x = if Fwu.in_range x (i * 128) 128 then mem (src + x) else ram d x.
Proof.
  intros Hi Hs Hc Ha. unfold chunk, dma_exec, DMA_SIZE, MSS_EXTERNAL_SPACE, MSS_EXTERNAL_ADDR_MASK. cbn [foldl]. rewrite dma_request, dma_dstbr, dma_srcbr. cbn [aebr srcbr dstbr ram running].
  split; [done|]. split; [done|]. intros x.
  change 0xfffffff with (Z.ones 28). rewrite !Z.land_ones by lia. replace (wrap 32 (i * 128)) with (i * 128) by (unfold wrap; rewrite Z.mod_small; lia).
  set (off := src mod 2 ^ 28 + i * 128). assert (0 <= off < 2 ^ 28) as Ho by (unfold off; pose proof (Z.mod_pos_bound src (2 ^ 28)); lia).
  replace (wrap 32 off) with off by (unfold wrap; rewrite Z.mod_small; lia). destruct (Fwu.in_range x (i * 128) 128) eqn:E; [|done]. f_equal.
  replace (Z.lor 0x50000000 off mod 2 ^ 28) with off.
  - rewrite Ha, Z.shiftl_mul_pow2 by lia. pose proof (Z.div_mod src (2 ^ 28)). unfold off. lia.
  - change 0x50000000 with (5 * 2 ^ 28). rewrite lor_sum by lia. rewrite Z.add_comm, Z.mod_add by lia. by rewrite Z.mod_small.
Qed.
Lemma in_range_0 x a : Fwu.in_range x a 0 = false.
Proof. unfold Fwu.in_range. destruct (Z.leb_spec a x), (Z.ltb_spec x (a + 0)); cbn [andb]; try done; lia. Qed.
Lemma in_range_S x i (n : nat) : Fwu.in_range x (i * 128) (Z.of_nat (S n) * 128) = Fwu.in_range x (i * 128) 128 || Fwu.in_range x ((i + 1) * 128) (Z.of_nat n * 128).
Proof.
  unfold Fwu.in_range. destruct (Z.leb_spec ((i + 1) * 128) x), (Z.ltb_spec x ((i + 1) * 128 + Z.of_nat n * 128)), (Z.leb_spec (i * 128) x),
    (Z.ltb_spec x (i * 128 + 128)), (Z.ltb_spec x (i * 128 + Z.of_nat (S n) * 128)); cbn [andb orb]; try done; lia.
Qed.
Lemma exec_chunks n : forall i src d, 0 <= i -> i + Z.of_nat n <= 1024 -> 0 <= src < 2 ^ 32 -> src mod 2 ^ 28 + (i + Z.of_nat n) * 128 <= 2 ^ 28 -> aebr d = src / 2 ^ 28 ->
  let d' := dma_exec mem regs (chunks n i src regs) d in
  running d' = running d /\ forall x, ram d' x = if Fwu.in_range x (i * 128) (Z.of_nat n * 128) then mem (src + x) else ram d x.
Proof.
  induction n as [|n IH]; intros i src d Hi Hn Hs Hc Ha.
  - split; [done|]. intros x. cbn [Z.of_nat]. by rewrite Z.mul_0_l, in_range_0.
  - rewrite chunks_S. unfold dma_exec. rewrite foldl_app. fold (dma_exec mem regs (chunk i src regs) d).
    destruct (exec_chunk i src d) as (A1 & R1 & M1); [lia|lia|lia|done|]. destruct (IH (i + 1) src (dma_exec mem regs (chunk i src regs) d)) as (R2 & M2); [lia|lia|lia|lia|congruence|].
    fold (dma_exec mem regs (chunks n (i + 1) src regs) (dma_exec mem regs (chunk i src regs) d)). split; [congruence|]. intros x. rewrite M2, M1.
    rewrite in_range_S. by destruct (Fwu.in_range x (i * 128) 128), (Fwu.in_range x ((i + 1) * 128) (Z.of_nat n * 128)).
Qed.
Lemma loop_num_eq size : 0 <= size -> dma_loop_num size = (size + 127) / 128.
Proof.
  intros Hs. unfold dma_loop_num, DMA_SIZE. change (128 - 1) with (Z.ones 7). rewrite Z.land_ones by lia. change (2 ^ 7) with 128.
  destruct (Z.eqb_spec (size mod 128) 0); dlia.
Qed.
(** After the program of an image its bytes are in the memory of the coprocessor, which runs. *)
Lemma exec_prog src size d : 0 <= src < 2 ^ 32 -> 0 <= size <= MSS_IDRAM_SIZE -> src mod 2 ^ 28 + (size + 127) / 128 * 128 <= 2 ^ 28 ->
  let d' := dma_exec mem regs (prog src size regs) d in running d' = true /\ forall x, 0 <= x < size -> ram d' x = mem (src + x).
Proof.
  intros Hs Hz Hc. unfold MSS_IDRAM_SIZE in Hz. pose proof (loop_num_eq size ltac:(lia)) as Hn. unfold prog, dma_exec. rewrite !foldl_app. cbn [foldl].
  set (d1 := dma_write _ _ _ (dma_write _ _ _ d)).
  assert (aebr d1 = src / 2 ^ 28) as Ha.
  { unfold d1, dma_write. regs_step. cbn [aebr]. change 0xFFF with (Z.ones 12). rewrite Z.land_ones, Z.shiftr_div_pow2 by lia. apply Z.mod_small.
    split; [apply Z.div_pos; lia|]. apply Z.div_lt_upper_bound; lia. }
  destruct (exec_chunks (Z.to_nat (dma_loop_num size)) 0 src d1) as (R1 & M1); [lia| | | |done|].
  { rewrite Hn, Z2Nat.id by dlia. dlia. } { lia. } { rewrite Hn, Z2Nat.id by dlia. lia. }
  fold (dma_exec mem regs (chunks (Z.to_nat (dma_loop_num size)) 0 src regs) d1). set (d2 := dma_exec _ _ _ d1) in *.
  assert (dma_write mem regs (MSS_M3_RSTCR regs, 1) d2 = Dma (aebr d2) (srcbr d2) (dstbr d2) (ram d2) true) as ->.
  { unfold dma_write. regs_step. done. }
  cbn [running ram]. split; [done|]. intros x Hx. rewrite M1, Hn. unfold Fwu.in_range. rewrite Z2Nat.id by dlia. rewrite (proj2 (Z.leb_le _ _)), (proj2 (Z.ltb_lt _ _)) by dlia. done.
Qed.
End engine.

(** ** The file *)
Definition le32 (v : Z) : list Z := [v mod 256; v / 2 ^ 8 mod 256; v / 2 ^ 16 mod 256; v / 2 ^ 24 mod 256].
Definition img_header (im : Z * list Z) : list Z := le32 (fst im) ++ le32 (zlen (snd im)) ++ le32 HEADER_VERSION.
Definition headers (imgs : list (Z * list Z)) : list Z := mjoin (img_header <$> imgs).
Definition bodies (imgs : list (Z * list Z)) : list Z := mjoin (snd <$> imgs).
Definition file (imgs : list (Z * list Z)) : list Z := le32 FILE_MAGIC ++ le32 (zlen imgs) ++ headers imgs ++ bodies imgs.
Definition holds (mem : Fwu.memory_t) (a : Z) (l : list Z) : Prop := forall i b, l !! i = Some b -> mem (a + Z.of_nat i) = b.
Lemma holds_app mem a l k : holds mem a (l ++ k) -> holds mem a l /\ holds mem (a + zlen l) k.
Proof.
  intros Hh. split; intros i b Hb.
  - apply Hh. by rewrite lookup_app_l by (by eapply lookup_lt_Some).
  - unfold zlen. replace (a + Z.of_nat (length l) + Z.of_nat i) with (a + Z.of_nat (length l + i)) by lia. apply Hh. by rewrite lookup_app_r, Nat.add_comm, Nat.add_sub by lia.
Qed.
Lemma read_le32 mem a v : holds mem a (le32 v) -> 0 <= v < 2 ^ 32 -> read_32 mem a = v.
Proof.
  intros Hh Hv. unfold read_32. assert (mem a = v mod 256) as -> by (rewrite <- (Z.add_0_r a); by apply (Hh 0%nat)).
  assert (mem (a + 1) = v / 2 ^ 8 mod 256) as -> by (by apply (Hh 1%nat)). assert (mem (a + 2) = v / 2 ^ 16 mod 256) as -> by (by apply (Hh 2%nat)).
  assert (mem (a + 3) = v / 2 ^ 24 mod 256) as -> by (by apply (Hh 3%nat)). clear -Hv.
  change (2 ^ 8) with 256. change (2 ^ 16) with (256 * 256). change (2 ^ 24) with (256 * 256 * 256). change (2 ^ 32) with (256 * 256 * 256 * 256) in Hv.
  rewrite <- !Z.div_div by lia. dlia.
Qed.
Lemma le32_length v : zlen (le32 v) = 4.
Proof. done. Qed.
Lemma img_header_length im : zlen (img_header im) = 12.
Proof. done. Qed.
Lemma headers_cons im imgs : headers (im :: imgs) = img_header im ++ headers imgs.
Proof. done. Qed.
Lemma bodies_cons im imgs : bodies (im :: imgs) = snd im ++ bodies imgs.
Proof. done. Qed.
Lemma headers_length imgs : zlen (headers imgs) = 12 * zlen imgs.
Proof. induction imgs as [|im imgs IH]; [done|]. rewrite headers_cons, zlen_app, IH, zlen_cons. rewrite img_header_length. lia. Qed.

(** Where each firmware is. *)
Fixpoint places (p : Z) (imgs : list (Z * list Z)) : list (Z * Z * Z) :=
  match imgs with [] => [] | (t, b) :: imgs => (t, p, zlen b) :: places (p + zlen b) imgs end.
Definition img_ok (im : Z * list Z) : Prop := 0 <= fst im < 2 ^ 32 /\ zlen (snd im) <= MSS_IDRAM_SIZE.
Lemma places_holds mem imgs : forall p k t b, holds mem p (bodies imgs) -> imgs !! k = Some (t, b) ->
  exists src, places p imgs !! k = Some (t, src, zlen b) /\ holds mem src b /\ p <= src /\ src + zlen b <= p + zlen (bodies imgs).
Proof.
  induction imgs as [|[t0 b0] imgs IH]; intros p k t b Hh Hk; [done|]. rewrite bodies_cons in Hh |- *. cbn [snd] in Hh |- *.
  pose proof (holds_app _ _ _ _ Hh) as [H0 H1]. rewrite zlen_app.
  pose proof (zlen_nonneg b0). pose proof (zlen_nonneg (bodies imgs)). destruct k as [|k].
  - injection Hk as -> ->. exists p. split; [done|]. split; [done|]. lia.
  - destruct (IH _ k t b H1 Hk) as (src & E & Hs & ? & ?). exists src. split; [done|]. split; [done|]. lia.
Qed.

Section split.
Context `{MssHw} (mem : Fwu.memory_t).
Inductive all_loaded : list (Z * Z * Z) -> hw -> hw -> Prop :=
| all_nil h : all_loaded [] h h
| all_cons t src len l h h1 h' : loaded t src len h h1 -> all_loaded l h1 h' -> all_loaded ((t, src, len) :: l) h h'.

Lemma split_ok imgs : responsive -> Forall img_ok imgs -> forall hdr p h, holds mem hdr (headers imgs) -> holds mem p (bodies imgs) ->
  0 <= p -> p + zlen (bodies imgs) < 2 ^ 32 -> exists h', split_loop mem (length imgs) hdr p h = Some (0, h') /\ all_loaded (places p imgs) h h'.
Proof.
  intros Hr. induction imgs as [|[t b] imgs IH]; intros Hok hdr p h Hh Hb Hp Hlt; [by exists h; split; [|constructor]|].
  apply Forall_cons_1 in Hok as [[Ht Hl] Hok]. cbn [fst snd] in Ht, Hl. rewrite headers_cons in Hh. rewrite bodies_cons in Hb, Hlt. cbn [snd] in Hb, Hlt. apply holds_app in Hh as [Hh0 Hh1]. apply holds_app in Hb as [Hb0 Hb1]. unfold img_header in Hh0.
  apply holds_app in Hh0 as [Ht0 Hh0]. rewrite le32_length in Hh0. apply holds_app in Hh0 as [Hl0 Hv0]. rewrite le32_length in Hv0. cbn [fst snd] in Ht0, Hl0, Hv0, Hb0. rewrite zlen_app in Hlt. pose proof (zlen_nonneg b). pose proof (zlen_nonneg (bodies imgs)).
  unfold MSS_IDRAM_SIZE in Hl. pose proof (read_le32 _ _ _ Ht0 Ht) as Et. pose proof (read_le32 _ _ _ Hl0 ltac:(lia)) as El. pose proof (read_le32 _ _ _ Hv0 ltac:(unfold HEADER_VERSION; lia)) as Ev.
  replace (hdr + 4 + 4) with (hdr + 8) in Ev by lia. rewrite img_header_length in Hh1. cbn [length split_loop].
  unfold hdr_version, hdr_type, hdr_length. rewrite Ev, Et, El, Z.eqb_refl. cbn [negb].
  destruct (load_ok t p (zlen b) h Hr) as (rc & h1 & E1 & Hld); [done|]. rewrite (bind_eq _ _ _ _ _ E1).
  replace (wrap 64 (p + zlen b)) with (p + zlen b) by (unfold wrap; rewrite Z.mod_small; lia).
  destruct (IH Hok (hdr + sizeof_img_header) (p + zlen b) h1 Hh1 Hb1) as (h' & E2 & Ha); [lia|lia|]. exists h'. split; [done|]. econstructor; [|done].
  replace p with (wrap 32 p) by (unfold wrap; rewrite Z.mod_small; lia). done.
Qed.

(** Loading is defined whatever the hardware does. *)
Lemma dma_defined n : forall i src regs h, exists rc h', dma_loop n i src regs h = Some (rc, h').
Proof.
  induction n as [|n IH]; intros i src regs h; [by eexists _, _|]. cbn [dma_loop]. rewrite !(bind_eq _ _ _ _ _ (write_eq _ _ _)), bind_gets.
  destruct (negb _); [by eexists _, _|]. apply IH.
Qed.
Lemma image_load_defined src size regs h : exists rc h', mss_image_load src size regs h = Some (rc, h').
Proof.
  unfold mss_image_load. destruct (_ <? size); [by eexists _, _|]. rewrite !(bind_eq _ _ _ _ _ (write_eq _ _ _)).
  edestruct (dma_defined (Z.to_nat (dma_loop_num size)) 0 src regs) as (rc & h' & E). rewrite (bind_eq _ _ _ _ _ E). destruct (negb _); by eexists _, _.
Qed.
Lemma load_defined type src len h : exists rc h', load_img_to_cm3 type src len h = Some (rc, h').
Proof.
  unfold load_img_to_cm3. cbv zeta. assert (forall regs, exists rc h', (ret ← mss_image_load (wrap 32 src) len regs; if negb (ret =? 0) then mret (-1) else mret 0) h = Some (rc, h')) as Hcp.
  { intros regs. destruct (image_load_defined (wrap 32 src) len regs h) as (rc & h' & E). rewrite (bind_eq _ _ _ _ _ E). destruct (negb _); by eexists _, _. }
  destruct (cm3_of type) as [[]|]; [|apply Hcp|destruct (negb _); [by eexists _, _|apply Hcp]|by eexists _, _..].
  unfold mss_ap_load_image. rewrite !bind_assoc, (bind_eq _ _ _ _ _ (write_eq _ _ _)). do 6 rewrite bind_assoc, (bind_eq _ _ _ _ _ (write_eq _ _ _)). rewrite bind_assoc.
  set (h1 := mmio_write_32 _ _ _). destruct (image_load_defined (wrap 32 src) len AP_MSS_REG_BASE h1) as (rc & h' & E). rewrite (bind_eq _ _ _ _ _ E).
  destruct (negb (rc =? 0)); [by eexists _, _|]. unfold mss_check_image_ready. rewrite !bind_assoc, bind_gets. destruct (negb _ && negb _); by eexists _, _.
Qed.
Lemma split_defined n : forall hdr p h, exists rc h', split_loop mem n hdr p h = Some (rc, h') /\
  (rc = 0 <-> forall i, 0 <= i < Z.of_nat n -> hdr_version mem (hdr + 12 * i) = HEADER_VERSION).
Proof.
  induction n as [|n IH]; intros hdr p h; [eexists _, _; split; [done|]; split; [intros _ i Hi; lia|done]|]. cbn [split_loop].
  destruct (Z.eqb_spec (hdr_version mem hdr) HEADER_VERSION) as [Ev|Ev]; cbn [negb].
  - destruct (load_defined (hdr_type mem hdr) p (hdr_length mem hdr) h) as (rc1 & h1 & E1). rewrite (bind_eq _ _ _ _ _ E1).
    destruct (IH (hdr + sizeof_img_header) (wrap 64 (p + hdr_length mem hdr)) h1) as (rc & h' & E & Hiff). exists rc, h'. split; [done|]. rewrite Hiff. unfold sizeof_img_header. split.
    + intros Hv i Hi. destruct (decide (i = 0)) as [->|Hn]; [by rewrite Z.mul_0_r, Z.add_0_r|]. rewrite <- (Hv (i - 1)) by lia. f_equal. lia.
    + intros Hv i Hi. rewrite <- (Hv (i + 1)) by lia. f_equal. lia.
  - eexists _, _. split; [done|]. split; [done|]. intros Hv. destruct Ev. rewrite <- (Hv 0) by lia. f_equal. lia.
Qed.
End split.

(** A file for the AP's and the first communication processor, and one that is not supported. *)
Definition ack_hw : MssHw := {| dma_ctrlr := fun _ _ _ => 0x1000; handshake := fun _ _ => 2; apn806_rev_id_get := 1; cp110_device_id_get := 0x7040 |}.
Definition small_file : list (Z * list Z) := [(0, [1; 2; 3]); (1, [4; 5]); (3, [6])].
Definition small_mem : Fwu.memory_t := fun a => default 0 (file small_file !! Z.to_nat (a - 0x1000)).

(** C12: The image for the coprocessors, in memory as the firmware of each with headers before all, is split where it
    was put together: with an engine that answers, the registers of the coprocessor of each firmware get,
    in the order of the file, the program whose execution by the engine leaves the bytes of the firmware in the
    memory of the coprocessor and the coprocessor running.  (Those of coprocessors that are not there
    or not supported are skipped.)  It holds for at most five firmwares of at most 64 KB each in a file that
    ends at least 128 bytes below address 2^28 (a larger firmware is not loaded, and one whose transfers cross a
    256 MB boundary is read from the wrong place; neither is reported). *)
Theorem scp_split_spec `{MssHw} (mem : Fwu.memory_t) (image : Z) (imgs : list (Z * list Z)) (h : hw) :
  responsive -> holds mem image (file imgs) -> (length imgs <= 5)%nat -> Forall img_ok imgs ->
  0 <= image -> image + zlen (file imgs) + 128 <= 2 ^ 28 ->
  let start := image + 8 + 12 * zlen imgs in
  exists h', split_and_load_bl2_image mem image h = Some (0, h') /\ all_loaded (places start imgs) h h' /\
    forall k t b, imgs !! k = Some (t, b) -> exists src, places start imgs !! k = Some (t, src, zlen b) /\
      forall regs d, regs_of t = Some regs ->
        let d' := dma_exec mem regs (prog src (zlen b) regs) d in
        running d' = true /\ forall i v, b !! i = Some v -> ram d' (Z.of_nat i) = v.
Proof.
  intros Hr Hf Hn Hok Hi Hlt start. pose proof Hf as Hf'. unfold file in Hf, Hlt. rewrite !zlen_app, headers_length, !le32_length in Hlt.
  apply holds_app in Hf as [Hm Hf]. rewrite le32_length in Hf. apply holds_app in Hf as [Hc Hf]. rewrite le32_length in Hf. apply holds_app in Hf as [Hh Hb]. rewrite headers_length in Hb.
  pose proof (zlen_nonneg (bodies imgs)). pose proof (zlen_nonneg imgs). assert (zlen imgs <= 5) as Hn5 by (unfold zlen; lia).
  pose proof (read_le32 _ _ _ Hm ltac:(unfold FILE_MAGIC; lia)) as Em. pose proof (read_le32 _ _ _ Hc ltac:(lia)) as Ec.
  replace (image + 4 + 4) with (image + 8) in Hh, Hb by lia. fold start in Hb.
  destruct (split_ok mem imgs Hr Hok (image + 8) start h Hh Hb) as (h' & E & Ha); [unfold start; lia..|]. exists h'. split.
  { unfold split_and_load_bl2_image. rewrite Em, Z.eqb_refl. cbn [negb]. cbv zeta. rewrite Ec, (proj2 (Z.ltb_ge _ _)) by (unfold MAX_NR_OF_FILES; lia).
    unfold sizeof_file_header, sizeof_img_header. fold start. unfold zlen at 1. by rewrite Nat2Z.id. }
  split; [done|]. intros k t b Hk. destruct (places_holds mem imgs start k t b Hb Hk) as (src & Ep & Hs & Hs1 & Hs2). exists src. split; [done|]. intros regs d Er.
  destruct (Forall_lookup_1 _ _ _ _ Hok Hk) as [_ Hl]. cbn [snd] in Hl. pose proof (zlen_nonneg b).
  assert (0 <= regs < 2 ^ 63) as Hregs by (unfold regs_of in Er; repeat case_match; simplify_eq; (split; [by apply Z.leb_le|by apply Z.ltb_lt])).
  destruct (exec_prog mem regs Hregs src (zlen b) d) as [Hrun Hram]; [unfold start in *; lia|unfold start in *; lia| |].
  { rewrite Z.mod_small by (unfold start in *; lia). assert ((zlen b + 127) / 128 * 128 <= zlen b + 127) by dlia. unfold start in *. lia. }
  split; [done|]. intros i v Hv. rewrite Hram; [by apply Hs|]. apply lookup_lt_Some in Hv. unfold zlen. lia.
Qed.

Lemma scp_split_spec_witness : exists h',
  @split_and_load_bl2_image ack_hw small_mem 0x1000 (Hw ∅ []) = Some (0, h') /\ @all_loaded ack_hw (places 0x102C small_file) (Hw ∅ []) h'.
Proof.
  destruct (@scp_split_spec ack_hw small_mem 0x1000 small_file (Hw ∅ [])) as (h' & E & Ha & _); [..|by exists h'].
  - intros log a. exists 0%nat. split; [apply Nat.ltb_lt; reflexivity|reflexivity].
  - intros i b Hb. unfold small_mem. replace (0x1000 + Z.of_nat i - 0x1000) with (Z.of_nat i) by lia. by rewrite Nat2Z.id, Hb.
  - cbn. lia.
  - repeat constructor; vm_compute; congruence.
  - lia.
  - vm_compute. discriminate.
Defined.

(** The result of the transfer says nothing about the transfers: it is success exactly if the magic number, the number of
    images and the versions in the headers are right, whatever the engines answer. *)
Theorem scp_result_headers `{MssHw} (mem : Fwu.memory_t) (image image_size : Z) (h : hw) :
  exists rc h', scp_bootloader_transfer mem (Some image) image image_size h = Some (rc, h') /\
    (rc = 0 <-> image_size <> 0 /\ read_32 mem image = FILE_MAGIC /\ read_32 mem (image + 4) <= 5 /\
       forall i, 0 <= i < read_32 mem (image + 4) -> hdr_version mem (image + 8 + 12 * i) = HEADER_VERSION).
Proof.
  unfold scp_bootloader_transfer. rewrite bind_massert by apply Z.eqb_refl. destruct (Z.eqb_spec image_size 0); [eexists _, _; split; [done|]; by split; [|intros []]|].
  unfold split_and_load_bl2_image. destruct (Z.eqb_spec (read_32 mem image) FILE_MAGIC); cbn [negb]; [|eexists _, _; split; [done|]; by split; [|intros (_ & ? & _)]].
  cbv zeta. unfold MAX_NR_OF_FILES. destruct (Z.ltb_spec 5 (read_32 mem (image + 4))); [eexists _, _; split; [done|]; split; [done|]; intros (_ & _ & ? & _); lia|].
  destruct (split_defined mem (Z.to_nat (read_32 mem (image + 4))) (image + sizeof_file_header)
    (image + sizeof_file_header + sizeof_img_header * read_32 mem (image + 4)) h) as (rc & h' & E & Hiff). rewrite (bind_eq _ _ _ _ _ E).
  assert (rc = 0 <-> forall i, 0 <= i < read_32 mem (image + 4) -> hdr_version mem (image + 8 + 12 * i) = HEADER_VERSION) as Hiff'.
  { rewrite Hiff. split; intros Hv i Hi; apply Hv; lia. }
  destruct (Z.eqb_spec rc 0) as [->|Hrc]; cbn [negb]; eexists _, _; (split; [done|]); split; try done; [intros _; split_and!; try done; by apply Hiff'|].
  intros (_ & _ & _ & Hv). by apply Hiff' in Hv.
Qed.
End MssSpec.
