(* ===== verification/Bl2.v ===== *)
(** * BL2: bl2/bl2_image_load.c and plat/marvell/common/marvell_bl2_setup.c

    The second stage loads the coprocessors' firmware, BL31, BL32 and BL33, over
    [LoadImage.load_auth_image], and fills in what BL31 is given.  Pointers in [struct bl31_params] are the
    structures they point to, those that may be NULL as options.  [plat_error_handler] does not
    return: [inl] is its argument.  Messages and cache maintenance are left out. *)

From Stdlib Require Import ZArith Lia.
From stdpp Require Import base option list numbers.
From S2P Require Import Prelude CMonad BlFwu Io LoadImage AddrDec AddrBoards Psci Imf Mss.
Import Io LoadImage.
Open Scope Z_scope.
Open Scope cint_scope.

Module Bl2.

Definition SCP_BL2_IMAGE_ID := 2.
Definition BL31_IMAGE_ID := 3.
Definition BL32_IMAGE_ID := 4.
Definition BL33_IMAGE_ID := 5.
Definition PARAM_EP_SECURITY_MASK := 0x1.
Definition SECURE := 0.
Definition NON_SECURE := 1.
Definition MODE_EL3 := 3.
Definition MODE_EL2 := 2.
Definition MODE_EL1 := 1.
Definition MODE_SP_ELX := 1.
Definition DISABLE_ALL_EXCEPTIONS := 0xf.
Definition ID_AA64PFR0_EL2_SHIFT := 8.
Definition ID_AA64PFR0_ELX_MASK := 0xf.
Definition MARVELL_BL31_PLAT_PARAM_VAL := 0x0f1e2d3c4b5a6978.

(** The build's constants and what the registers of the core read; a constant that need not be defined is
    an option.  [bl31_params_addr] is the address of [bl31_params_mem]; [scp_stack] what the memory
    for the local [scp_bl2_image_info] holds. *)
Class Bl2Config := {
  SCP_BL2_BASE : option Z; BL31_BASE : Z; BL32_BASE : option Z; EL3_PAYLOAD_BASE : option Z; PRELOADED_BL33_BASE : option Z;
  TRUSTED_DRAM_BASE : Z; TRUSTED_DRAM_SIZE : Z; MARVELL_NS_DRAM1_BASE : Z; MARVELL_NS_DRAM1_SIZE : Z; PLAT_MARVELL_NS_IMAGE_OFFSET : Z;
  DEBUG : bool; bl31_params_addr : Z; scp_stack : Z * Z; read_mpidr : Z; read_id_aa64pfr0_el1 : Z
}.

Abbreviation ep_info := Imf.entry_point_info_t.
Record params := Params {
  bl31_image_info : image_info; bl32_image_info : option image_info; bl33_image_info : image_info;
  bl33_ep_info : ep_info; bl32_ep_info : option ep_info; bl31_ep_info : ep_info
}.
Definition ep_zero : ep_info := Imf.Ep 0 0 0 (replicate 8 0).
Definition set_pc (pc : Z) (e : ep_info) : ep_info := Imf.Ep pc (Imf.ep_spsr e) (Imf.ep_attr e) (Imf.ep_args e).
Definition set_arg (i : nat) (v : Z) (e : ep_info) : ep_info := Imf.Ep (Imf.ep_pc e) (Imf.ep_spsr e) (Imf.ep_attr e) (<[i := v]> (Imf.ep_args e)).
Definition set_bl31 (i : image_info) (e : ep_info) (p : params) : params :=
  Params i (bl32_image_info p) (bl33_image_info p) (bl33_ep_info p) (bl32_ep_info p) e.
Definition set_bl32 (i : image_info) (e : ep_info) (p : params) : params :=
  Params (bl31_image_info p) (Some i) (bl33_image_info p) (bl33_ep_info p) (Some e) (bl31_ep_info p).
Definition set_bl33 (i : image_info) (e : ep_info) (p : params) : params :=
  Params (bl31_image_info p) (bl32_image_info p) i e (bl32_ep_info p) (bl31_ep_info p).

Definition SET_SECURITY_STATE (x security : Z) : Z := Z.lor (Z.ldiff x PARAM_EP_SECURITY_MASK) security.

Section bl2.
Context `{IoConfig} `{AuthMod} `{Mss.MssHw} `{Board} `{Bl2Config}.
(** [maps] gives the state of the window drivers in BL2. *)
Context (funcs : dev -> io_dev_funcs) (depth : nat) (maps : hw -> adec).

Record bl2 := Bl2_ { loader : io * auth_state; regs : hw; tzram_layout : meminfo; bl31_params_mem : params }.
Abbreviation X := (M bl2).
Definition set_loader l s := Bl2_ l (regs s) (tzram_layout s) (bl31_params_mem s).
Definition set_regs h s := Bl2_ (loader s) h (tzram_layout s) (bl31_params_mem s).
Definition set_layout l s := Bl2_ (loader s) (regs s) l (bl31_params_mem s).
Definition set_params p s := Bl2_ (loader s) (regs s) (tzram_layout s) p.
Definition on_loader {A} (m : M (io * auth_state) A) : X A :=
  fun s => match m (loader s) with Some (x, l) => Some (x, set_loader l s) | None => None end.
Definition on_regs {A} (m : M hw A) : X A := fun s => match m (regs s) with Some (x, h) => Some (x, set_regs h s) | None => None end.

(** ** marvell_common.c *)
Definition plat_get_ns_image_entrypoint : Z := PLAT_MARVELL_NS_IMAGE_OFFSET.
Definition marvell_get_spsr_for_bl32_entry : Z := 0.
Definition marvell_get_spsr_for_bl33_entry : Z :=
  let el_status := Z.land (Z.shiftr read_id_aa64pfr0_el1 ID_AA64PFR0_EL2_SHIFT) ID_AA64PFR0_ELX_MASK in
  let mode := if negb (el_status =? 0) then MODE_EL2 else MODE_EL1 in
  Psci.SPSR_64 mode MODE_SP_ELX DISABLE_ALL_EXCEPTIONS.

(** ** marvell_bl2_setup.c *)
Definition bl2_plat_sec_mem_layout : X meminfo := gets tzram_layout.
(** [#if BL32_BASE]: neither undefined nor 0. *)
Definition has_bl32 : bool := match BL32_BASE with Some b => negb (b =? 0) | None => false end.
Definition image_zero : image_info := ImageInfo VERSION_1 0 0.
Definition bl2_plat_get_bl31_params : X unit :=
  modify (set_params (Params image_zero (if has_bl32 then Some image_zero else None) image_zero
    (set_arg 0 (Z.land 0xffff read_mpidr) ep_zero) (if has_bl32 then Some ep_zero else None) ep_zero)).
Definition update_params (f : params -> params) : X unit := modify (fun s => set_params (f (bl31_params_mem s)) s).
Definition bl2_plat_get_bl31_ep_info : X unit :=
  if DEBUG then update_params (fun p => set_bl31 (bl31_image_info p) (set_arg 1 MARVELL_BL31_PLAT_PARAM_VAL (bl31_ep_info p)) p) else mret tt.
Definition bl2_platform_setup : X unit := mret tt.
Definition bl2_plat_get_scp_bl2_meminfo : X meminfo := gets tzram_layout.
Definition bl2_plat_set_bl31_ep_info (e : ep_info) : ep_info :=
  Imf.Ep (Imf.ep_pc e) (Psci.SPSR_64 MODE_EL3 MODE_SP_ELX DISABLE_ALL_EXCEPTIONS) (SET_SECURITY_STATE (Imf.ep_attr e) SECURE) (Imf.ep_args e).
Definition bl2_plat_get_bl32_meminfo (base : Z) : meminfo :=
  let size := TRUSTED_DRAM_BASE +u64 TRUSTED_DRAM_SIZE -u64 base in Meminfo base size base size.
Definition bl2_plat_set_bl32_ep_info (e : ep_info) : ep_info :=
  Imf.Ep (Imf.ep_pc e) marvell_get_spsr_for_bl32_entry (SET_SECURITY_STATE (Imf.ep_attr e) SECURE) (Imf.ep_args e).
Definition bl2_plat_set_bl33_ep_info (e : ep_info) : ep_info :=
  Imf.Ep (Imf.ep_pc e) marvell_get_spsr_for_bl33_entry (SET_SECURITY_STATE (Imf.ep_attr e) NON_SECURE) (Imf.ep_args e).
Definition bl2_plat_get_bl33_meminfo : meminfo :=
  Meminfo MARVELL_NS_DRAM1_BASE MARVELL_NS_DRAM1_SIZE MARVELL_NS_DRAM1_BASE MARVELL_NS_DRAM1_SIZE.

(** ** bl2_image_load.c *)
Definition load_scp_bl2 : X Z :=
  match SCP_BL2_BASE with
  | None => mret 0
  | Some base =>
      scp_bl2_mem_info ← bl2_plat_get_scp_bl2_meminfo;
      '(e, _, image, _) ← on_loader (load_auth_image funcs depth scp_bl2_mem_info SCP_BL2_IMAGE_ID base
        (ImageInfo VERSION_1 (fst scp_stack) (snd scp_stack)) None);
      if e =? 0 then
        l ← gets loader;
        on_regs (Mss.bl2_plat_handle_scp_bl2 (memory (fst l)) maps SCP_BL2_BASE (image_base image) (image_size image))
      else mret e
  end.
(** Loading with an entry point: only its program counter is changed. *)
Definition load_exec (layout : meminfo) (image_id base : Z) (image : image_info) (ep : ep_info) : X (Z * meminfo * image_info * ep_info) :=
  '(e, layout, image, pc) ← on_loader (load_auth_image funcs depth layout image_id base image (Some (Imf.ep_pc ep)));
  mret (e, layout, image, set_pc (default (Imf.ep_pc ep) pc) ep).
Definition load_bl31 : X Z :=
  layout ← bl2_plat_sec_mem_layout;
  update_params (fun p => set_bl31 (bl31_image_info p) (set_arg 0 bl31_params_addr (bl31_ep_info p)) p);;
  p ← gets bl31_params_mem;
  '(e, layout, image, ep) ← load_exec layout BL31_IMAGE_ID BL31_BASE (bl31_image_info p) (bl31_ep_info p);
  modify (set_layout layout);;
  update_params (set_bl31 image (if e =? 0 then bl2_plat_set_bl31_ep_info ep else ep));;
  mret e.
Definition load_bl32 : X Z :=
  match BL32_BASE with
  | None => mret 0
  | Some base =>
      p ← gets bl31_params_mem;
      image ← must (bl32_image_info p); ep ← must (bl32_ep_info p);
      '(e, _, image, ep) ← load_exec (bl2_plat_get_bl32_meminfo base) BL32_IMAGE_ID base image ep;
      update_params (set_bl32 image (if e =? 0 then bl2_plat_set_bl32_ep_info ep else ep));;
      mret e
  end.
Definition load_bl33 : X Z :=
  p ← gets bl31_params_mem;
  '(e, _, image, ep) ← load_exec bl2_plat_get_bl33_meminfo BL33_IMAGE_ID plat_get_ns_image_entrypoint (bl33_image_info p) (bl33_ep_info p);
  update_params (set_bl33 image (if e =? 0 then bl2_plat_set_bl33_ep_info ep else ep));;
  mret e.

(** A step after which an error that [fatal] accepts ends the boot. *)
Definition or_stop {A} (m : X Z) (fatal : Z -> bool) (k : X (Z + A)) : X (Z + A) := e ← m; if fatal e then mret (inl e) else k.
Definition failed (e : Z) : bool := negb (e =? 0).
Definition bl2_load_images : X (Z + ep_info) :=
  let finish : X (Z + ep_info) := p ← gets bl31_params_mem; mret (inr (bl31_ep_info p)) in
  or_stop load_scp_bl2 failed
    (bl2_platform_setup;;
     bl2_plat_get_bl31_params;;
     bl2_plat_get_bl31_ep_info;;
     match EL3_PAYLOAD_BASE with
     | Some base =>
         update_params (fun p => set_bl31 (bl31_image_info p) (bl2_plat_set_bl31_ep_info (set_arg 0 bl31_params_addr (set_pc base (bl31_ep_info p)))) p);;
         finish
     | None =>
         or_stop load_bl31 failed
           (or_stop load_bl32 (fun e => failed e && (e =? - EAUTH))
              (match PRELOADED_BL33_BASE with
               | Some base =>
                   update_params (fun p => set_bl33 (bl33_image_info p) (bl2_plat_set_bl33_ep_info (set_pc base (bl33_ep_info p))) p);; finish
               | None => or_stop load_bl33 failed finish
               end))
     end).
End bl2.
End Bl2.
