(* ===== verification/Bl2Spec.v ===== *)
(** * BL2: the theorems

    [bl2_boot_spec]: from a package with the images, BL2 returns BL31's entry point, with the images in
    memory and what BL31 is told about them.  [bl2_images_trusted]: with trusted board boot it only
    returns when every image it hands over has been authenticated. *)

From Stdlib Require Import ZArith Lia.
From stdpp Require Import base option list gmap numbers.
From S2P Require Import Prelude CMonad BlFwu Io LoadImage IoProps IoFip LoadProps LoadSpec AddrDec AddrBoards Psci Imf Mss MssSpec Bl2.
Import Io LoadImage IoFip LoadProps Bl2.
Open Scope Z_scope.

Module Bl2Spec.

(** ** Loading without authentication *)
Section plain.
Context `{IoConfig} `{AuthMod} `{Mss.MssHw} `{Board} `{Bl2Config} (depth : nat) (maps : hw -> adec).
Context (Htbb : TRUSTED_BOARD_BOOT = false) (toc : list fip_toc_entry) (L : Z) (e0 e1 : nat).
Abbreviation fip_base := PLAT_MARVELL_FIP_BASE.
Abbreviation funcs := (dev_funcs 1).
Abbreviation mem s := (memory (fst (loader s))).

Lemma load_plain layout id base data ep s a r s' : load_image funcs layout id base data ep s = Some (r, s') ->
  load_auth_image funcs (S depth) layout id base data ep (s, a) = Some (r, (s', a)).
Proof.
  intros E. cbn [load_auth_image]. rewrite Htbb, bind_ret. cbn [Z.eqb negb]. destruct r as [[[rc l] d] p].
  rewrite (bind_eq _ _ _ (rc, l, d, p) (s', a)) by (unfold lift; by rewrite E). by destruct (Z.eqb_spec rc 0) as [->|].
Qed.

Lemma on_loader_some {A} (m : M (io * auth_state) A) s x l : m (loader s) = Some (x, l) -> on_loader m s = Some (x, set_loader l s).
Proof. unfold on_loader. by intros ->. Qed.
Lemma on_loader_plain layout id base data ep s r s' : load_image funcs layout id base data ep (fst (loader s)) = Some (r, s') ->
  on_loader (load_auth_image funcs (S depth) layout id base data ep) s = Some (r, set_loader (s', snd (loader s)) s).
Proof. intros E. apply on_loader_some. destruct (loader s). by apply load_plain. Qed.

(** The package takes at most [L] bytes. *)
Definition covers : Prop := sizeof_header + sizeof_entry * (Z.of_nat (length toc) + 1) <= L /\ fip_base + L <= 2 ^ 64 /\
  Forall (fun e => 0 < offset_address e /\ offset_address e + size e <= L) toc.
Definition apart (a n b m : Z) : Prop := a + n <= b \/ b + m <= a.
(** A file that can be loaded at [base]. *)
Record place (layout : meminfo) (base : Z) (en : fip_toc_entry) : Prop := {
  pl_size : 0 < size en;
  pl_base : in_u 64 base;
  pl_null : PLAT_ALLOW_ZERO_ADDR_COPY = true \/ base <> 0;
  pl_layout : in_u 64 (free_base layout) /\ in_u 64 (free_size layout);
  pl_free : is_mem_free (free_base layout) (free_size layout) base (size en) = true;
  pl_apart : apart base (size en) fip_base L
}.
Definition copy (m : Fwu.memory_t) (base : Z) (en : fip_toc_entry) : Fwu.memory_t :=
  fun a => if Fwu.in_range a base (size en) then m (payload en 0 + (a - base)) else m a.
Lemma copy_in m base en i : 0 <= i < size en -> copy m base en (base + i) = m (payload en 0 + i).
Proof. intros Hi. unfold copy, Fwu.in_range. rewrite (proj2 (Z.leb_le _ _)), (proj2 (Z.ltb_lt _ _)) by lia. cbn [andb]. f_equal. lia. Qed.
Lemma copy_out m base en a : ~ (base <= a < base + size en) -> copy m base en a = m a.
Proof. intros Ha. unfold copy, Fwu.in_range. destruct (Z.leb_spec base a), (Z.ltb_spec a (base + size en)); [lia|done..]. Qed.
Lemma found_entry u en : covers -> toc_find u toc = Some en -> 0 < offset_address en /\ offset_address en + size en <= L.
Proof.
  intros (_ & _ & Hf) E. unfold toc_find in E. apply fmap_Some in E as ([i e] & E & ->). apply list_find_Some in E as (E & _). by apply (Forall_lookup_1 _ _ _ _ Hf E).
Qed.
Lemma package_frame m m' : package m fip_base toc -> covers -> (forall a, fip_base <= a < fip_base + L -> m' a = m a) -> package m' fip_base toc.
Proof.
  intros P (Hl & _ & _) Hm. assert (forall a n, fip_base <= a -> a + n <= fip_base + L -> bytes_at m' a n = bytes_at m a n) as Hb.
  { intros a n Ha Hn. unfold bytes_at. apply map_ext_in. intros x Hx%list_elem_of_In%elem_of_seqZ. apply Hm. lia. }
  unfold sizeof_header, sizeof_entry in *. assert (forall i, (i <= length toc)%nat -> entry_at m' fip_base i = entry_at m fip_base i) as He.
  { intros i Hi. unfold entry_at, sizeof_header, sizeof_entry. rewrite Hb; [done|lia..]. }
  destruct P as [P1 P2 P3 P4]. unfold sizeof_header, sizeof_entry in *. constructor; unfold sizeof_header, sizeof_entry; [rewrite Hb; [done|lia..]| |rewrite He; [done|lia]|done].
  intros i e Ei. rewrite He by (apply lookup_lt_Some in Ei; lia). by apply P2.
Qed.

(** The drivers are idle and the package is in memory. *)
Definition ready (s : io) : Prop := idle s e0 e1 /\ package (memory s) fip_base toc.
Lemma plain_load_ok id u layout base data ep en s : covers -> ready s -> policy id = Some u -> toc_find u toc = Some en -> version data = VERSION_1 -> place layout base en ->
  exists fb fs s', reserve_mem (free_base layout) (free_size layout) base (size en) = Some (fb, fs) /\
    load_image funcs layout id base data ep s = Some ((0, match ep with Some _ => Meminfo (total_base layout) (total_size layout) fb fs | None => layout end,
      ImageInfo VERSION_1 base (u32 (size en)), (fun _ => base) <$> ep), s') /\
    ready s' /\ memory s' = copy (memory s) base en.
Proof.
  intros Hc [I P] Hpol Hf Hv [Hs Hb Hn [Hl1 Hl2] Hfree Ha]. pose proof (found_entry _ _ Hc Hf) as [Ho Hoe]. pose proof Hc as (_ & HL & _).
  destruct (pk_fits _ _ _ P) as [Hpos _]. unfold apart in Ha. assert (in_u 64 (size en)) as Hsz by (unfold in_u in *; lia).
  assert (base + size en <= 2 ^ 64) as Hend. { apply LoadSpec.is_mem_free_ok in Hfree; try done. unfold LoadSpec.inside, in_u in *. lia. }
  eexists _, _. destruct (load_success (dev_funcs 0) (dev_funcs 1) eq_refl eq_refl s e0 e1 toc id u I P Hpol en Hf ltac:(lia) layout base data ep Hv
    ltac:(lia) Hs) with (fb := if free_base layout + free_size layout - (base + size en) <? base - free_base layout then free_base layout else u64 (base + size en))
    (fs := Z.max (base - free_base layout) (free_base layout + free_size layout - (base + size en))) as (s' & E & I' & Em); try done.
  - unfold not_null. destruct Hn as [->|Hnz]; [done|]. by rewrite (proj2 (Z.eqb_neq _ _)), orb_true_r.
  - unfold in_u in Hb. lia.
  - unfold payload. lia.
  - unfold payload. lia.
  - by apply LoadSpec.reserve_ok.
  - exists s'. split; [by apply LoadSpec.reserve_ok|]. rewrite Hv in E. split; [exact E|]. split; [|exact Em]. split; [done|]. rewrite Em.
    eapply package_frame; [done|done|]. intros a Hfa. change (copy (memory s) base en a = memory s a). apply copy_out. lia.
Qed.

Lemma exec_ok id u layout base image ep en s : covers -> ready (fst (loader s)) -> policy id = Some u -> toc_find u toc = Some en -> version image = VERSION_1 ->
  place layout base en -> exists layout' l', load_exec funcs (S depth) layout id base image ep s = Some ((0, layout', ImageInfo VERSION_1 base (u32 (size en)), set_pc base ep), set_loader l' s) /\
    reserve_mem (free_base layout) (free_size layout) base (size en) = Some (free_base layout', free_size layout') /\ ready (fst l') /\ memory (fst l') = copy (mem s) base en.
Proof.
  intros Hc Hr Hpol Hf Hv Hp. destruct (plain_load_ok id u layout base image (Some (Imf.ep_pc ep)) en (fst (loader s)) Hc Hr Hpol Hf Hv Hp) as (fb & fs & s' & Er & E & Hr' & Em).
  exists (Meminfo (total_base layout) (total_size layout) fb fs), (s', snd (loader s)). split; [|done]. unfold load_exec. by rewrite (bind_eq _ _ _ _ _ (on_loader_plain _ _ _ _ _ _ _ _ E)).
Qed.
Lemma exec_missing id u layout base image ep s : ready (fst (loader s)) -> policy id = Some u -> toc_find u toc = None -> version image = VERSION_1 ->
  exists l', load_exec funcs (S depth) layout id base image ep s = Some ((- ENOENT, layout, image, ep), set_loader l' s) /\ ready (fst l') /\ memory (fst l') = mem s.
Proof.
  intros [I P] Hpol Hf Hv. destruct (load_missing (dev_funcs 0) (dev_funcs 1) eq_refl eq_refl (fst (loader s)) e0 e1 toc id u I P Hpol layout base image
    (Some (Imf.ep_pc ep)) Hv Hf) as (s' & E & I' & Em).
  exists (s', snd (loader s)). split; [|split; [split; [done|cbn [fst]; by rewrite Em]|done]]. unfold load_exec. rewrite (bind_eq _ _ _ _ _ (on_loader_plain _ _ _ _ _ _ _ _ E)). by destruct ep.
Qed.

(** ** The images, one after the other *)
Definition scp_find := toc_find UUID_SCP_FIRMWARE_SCP_BL2 toc.
Definition bl31_find := toc_find UUID_EL3_RUNTIME_FIRMWARE_BL31 toc.
Definition bl32_find := toc_find UUID_SECURE_PAYLOAD_BL32 toc.
Definition bl33_find := toc_find UUID_NON_TRUSTED_FIRMWARE_BL33 toc.
(** The firmware of the coprocessors, if the platform has it, is loaded and its transfer succeeds. *)
Inductive scp_step (layout : meminfo) (m : Fwu.memory_t) (h : hw) : Fwu.memory_t -> hw -> Prop :=
| scp_none : SCP_BL2_BASE = None -> scp_step layout m h m h
| scp_some base en h' : SCP_BL2_BASE = Some base -> scp_find = Some en -> place layout base en ->
    Mss.bl2_plat_handle_scp_bl2 (copy m base en) maps (Some base) base (u32 (size en)) h = Some (0, h') -> scp_step layout m h (copy m base en) h'.
(** BL32 is not expected, expected but not in the package, or loaded. *)
Inductive bl32_step (m : Fwu.memory_t) : Fwu.memory_t -> option image_info -> option Imf.entry_point_info_t -> Prop :=
| bl32_none : BL32_BASE = None -> bl32_step m m None None
| bl32_absent base : BL32_BASE = Some base -> base <> 0 -> bl32_find = None -> bl32_step m m (Some image_zero) (Some ep_zero)
| bl32_some base en : BL32_BASE = Some base -> base <> 0 -> bl32_find = Some en -> place (bl2_plat_get_bl32_meminfo base) base en ->
    bl32_step m (copy m base en) (Some (ImageInfo VERSION_1 base (u32 (size en)))) (Some (Imf.Ep base 0 0 (replicate 8 0))).

Lemma scp_ok s m' h' : covers -> ready (fst (loader s)) -> scp_step (tzram_layout s) (mem s) (regs s) m' h' ->
  exists l', load_scp_bl2 funcs (S depth) maps s = Some (0, set_regs h' (set_loader l' s)) /\ ready (fst l') /\ memory (fst l') = m'.
Proof.
  intros Hc Hr Hs. unfold load_scp_bl2. destruct Hs as [E|base en h' E Hf Hp Hh]; rewrite E.
  - exists (loader s). split; [by destruct s|done].
  - unfold bl2_plat_get_scp_bl2_meminfo. rewrite bind_gets.
    destruct (plain_load_ok SCP_BL2_IMAGE_ID _ (tzram_layout s) base (ImageInfo VERSION_1 (fst scp_stack) (snd scp_stack)) None en _ Hc Hr eq_refl Hf eq_refl Hp) as (fb & fs & s' & _ & El & Hr' & Em).
    exists (s', snd (loader s)). split; [|done]. rewrite (bind_eq _ _ _ _ _ (on_loader_plain _ _ _ _ _ _ _ _ El)). cbn [Z.eqb]. rewrite bind_gets. cbn [loader set_loader fst image_base image_size].
    unfold on_regs. cbn [regs set_loader]. rewrite Em. by rewrite Hh.
Qed.
Lemma bl31_ok s en : covers -> ready (fst (loader s)) -> bl31_find = Some en -> version (bl31_image_info (bl31_params_mem s)) = VERSION_1 -> place (tzram_layout s) BL31_BASE en ->
  exists l' layout', load_bl31 funcs (S depth) s = Some (0, set_params (set_bl31 (ImageInfo VERSION_1 BL31_BASE (u32 (size en)))
      (bl2_plat_set_bl31_ep_info (set_pc BL31_BASE (set_arg 0 bl31_params_addr (bl31_ep_info (bl31_params_mem s))))) (bl31_params_mem s)) (set_layout layout' (set_loader l' s))) /\
    reserve_mem (free_base (tzram_layout s)) (free_size (tzram_layout s)) BL31_BASE (size en) = Some (free_base layout', free_size layout') /\
    ready (fst l') /\ memory (fst l') = copy (mem s) BL31_BASE en.
Proof.
  intros Hc Hr Hf Hv Hp. unfold load_bl31, bl2_plat_sec_mem_layout, update_params. rewrite bind_gets, bind_modify, bind_gets.
  set (s1 := set_params _ s). destruct (exec_ok BL31_IMAGE_ID _ (tzram_layout s) BL31_BASE (bl31_image_info (bl31_params_mem s1)) (bl31_ep_info (bl31_params_mem s1)) en s1 Hc Hr eq_refl Hf Hv Hp)
    as (layout' & l' & E & Er & Hr' & Em).
  exists l', layout'. split; [|done]. rewrite (bind_eq _ _ _ _ _ E). cbn [Z.eqb]. by rewrite !bind_modify.
Qed.
Lemma bl32_ok s m' i e : covers -> ready (fst (loader s)) -> bl32_step (mem s) m' i e ->
  bl32_image_info (bl31_params_mem s) = (if has_bl32 then Some image_zero else None) -> bl32_ep_info (bl31_params_mem s) = (if has_bl32 then Some ep_zero else None) ->
  exists rc l', load_bl32 funcs (S depth) s = Some (rc, set_params (Params (bl31_image_info (bl31_params_mem s)) i (bl33_image_info (bl31_params_mem s))
      (bl33_ep_info (bl31_params_mem s)) e (bl31_ep_info (bl31_params_mem s))) (set_loader l' s)) /\ rc <> - EAUTH /\ ready (fst l') /\ memory (fst l') = m'.
Proof.
  intros Hc Hr Hs Hi He. unfold load_bl32, has_bl32 in *. destruct Hs as [E|base E Hn Hf|base en E Hn Hf Hp]; rewrite E in *.
  - exists 0, (loader s). split; [|done]. destruct s as [l r t []]. cbn in *. by subst.
  - rewrite (proj2 (Z.eqb_neq _ _) Hn) in *. cbn [negb] in *. rewrite bind_gets, Hi, He, !(bind_must _ _ _ _ eq_refl).
    destruct (exec_missing BL32_IMAGE_ID _ (bl2_plat_get_bl32_meminfo base) base image_zero ep_zero s Hr eq_refl Hf eq_refl) as (l' & El & Hr' & Em).
    exists (- ENOENT), l'. split; [|done]. rewrite (bind_eq _ _ _ _ _ El). change (- ENOENT =? 0) with false. cbn iota. unfold update_params. by rewrite bind_modify.
  - rewrite (proj2 (Z.eqb_neq _ _) Hn) in *. cbn [negb] in *. rewrite bind_gets, Hi, He, !(bind_must _ _ _ _ eq_refl).
    destruct (exec_ok BL32_IMAGE_ID _ (bl2_plat_get_bl32_meminfo base) base image_zero ep_zero en s Hc Hr eq_refl Hf eq_refl Hp) as (layout' & l' & El & _ & Hr' & Em).
    exists 0, l'. split; [|done]. rewrite (bind_eq _ _ _ _ _ El). cbn [Z.eqb]. unfold update_params. by rewrite bind_modify.
Qed.
Lemma bl33_ok s en : covers -> ready (fst (loader s)) -> bl33_find = Some en -> version (bl33_image_info (bl31_params_mem s)) = VERSION_1 ->
  place bl2_plat_get_bl33_meminfo PLAT_MARVELL_NS_IMAGE_OFFSET en ->
  exists l', load_bl33 funcs (S depth) s = Some (0, set_params (set_bl33 (ImageInfo VERSION_1 PLAT_MARVELL_NS_IMAGE_OFFSET (u32 (size en)))
      (bl2_plat_set_bl33_ep_info (set_pc PLAT_MARVELL_NS_IMAGE_OFFSET (bl33_ep_info (bl31_params_mem s)))) (bl31_params_mem s)) (set_loader l' s)) /\
    ready (fst l') /\ memory (fst l') = copy (mem s) PLAT_MARVELL_NS_IMAGE_OFFSET en.
Proof.
  intros Hc Hr Hf Hv Hp. unfold load_bl33, plat_get_ns_image_entrypoint. rewrite bind_gets.
  destruct (exec_ok BL33_IMAGE_ID _ bl2_plat_get_bl33_meminfo PLAT_MARVELL_NS_IMAGE_OFFSET (bl33_image_info (bl31_params_mem s)) (bl33_ep_info (bl31_params_mem s)) en s Hc Hr eq_refl Hf Hv Hp)
    as (layout' & l' & E & _ & Hr' & Em).
  exists l'. split; [|done]. rewrite (bind_eq _ _ _ _ _ E). cbn [Z.eqb]. unfold update_params. by rewrite bind_modify.
Qed.

Definition bl33_spsr : Z := if Z.land (Z.shiftr read_id_aa64pfr0_el1 8) 0xf =? 0 then 0x3c5 else 0x3c9.
Definition bl31_entry : Imf.entry_point_info_t :=
  Imf.Ep BL31_BASE 0x3cd 0 [bl31_params_addr; if DEBUG then MARVELL_BL31_PLAT_PARAM_VAL else 0; 0; 0; 0; 0; 0; 0].
Definition bl33_entry : Imf.entry_point_info_t :=
  Imf.Ep PLAT_MARVELL_NS_IMAGE_OFFSET bl33_spsr 1 [Z.land 0xffff read_mpidr; 0; 0; 0; 0; 0; 0; 0].
Lemma bl33_spsr_eq : marvell_get_spsr_for_bl33_entry = bl33_spsr.
Proof. unfold marvell_get_spsr_for_bl33_entry, bl33_spsr, ID_AA64PFR0_EL2_SHIFT, ID_AA64PFR0_ELX_MASK. by destruct (_ =? 0). Qed.

(** What is in the package stays, and a copy that later copies keep away from. *)
Definition same_package (m m' : Fwu.memory_t) : Prop := forall a, fip_base <= a < fip_base + L -> m' a = m a.
Definition image_at (m m' : Fwu.memory_t) (base : Z) (en : fip_toc_entry) : Prop := forall i, 0 <= i < size en -> m' (base + i) = m (payload en 0 + i).
Lemma copy_same layout m base en : place layout base en -> same_package m (copy m base en).
Proof. intros [_ _ _ _ _ Ha] a Hr. apply copy_out. unfold apart in Ha. lia. Qed.
Lemma copy_image u m0 m base en : covers -> toc_find u toc = Some en -> same_package m0 m -> image_at m0 (copy m base en) base en.
Proof. intros Hc Hf Hm i Hi. rewrite copy_in by done. apply Hm. pose proof (found_entry _ _ Hc Hf). unfold payload. lia. Qed.
Lemma image_kept m0 m b n base en : image_at m0 m b n -> apart b (size n) base (size en) -> image_at m0 (copy m base en) b n.
Proof. intros Hi Ha i Hr. rewrite copy_out; [by apply Hi|]. unfold apart in Ha. lia. Qed.
Lemma same_trans m1 m2 m3 : same_package m1 m2 -> same_package m2 m3 -> same_package m1 m3.
Proof. intros Ha Hb a Hr. rewrite Hb, Ha; done. Qed.
Lemma scp_same layout m h m' h' : scp_step layout m h m' h' -> same_package m m'.
Proof. intros [|base en ? _ _ Hp _]; [done|by eapply copy_same]. Qed.
Lemma bl32_mem m0 m m' i e b n : covers -> bl32_step m m' i e -> same_package m0 m -> image_at m0 m b n ->
  (forall base en, BL32_BASE = Some base -> bl32_find = Some en -> apart b (size n) base (size en)) ->
  same_package m0 m' /\ image_at m0 m' b n /\ forall base en, BL32_BASE = Some base -> bl32_find = Some en -> image_at m0 m' base en.
Proof.
  intros Hc Hs Hm Hi Ha. destruct Hs as [E|base E Hn Hf|base en E Hn Hf Hp]; [by split_and!; [..|intros; congruence]..|].
  split; [eapply same_trans; [done|by eapply copy_same]|]. split; [by apply image_kept; [|apply Ha]|].
  intros base' en' E' Hf'. rewrite E in E'. rewrite Hf in Hf'. simplify_eq. by eapply copy_image.
Qed.
End plain.

(** ** Loading with authentication *)
Section trust.
Context `{IoConfig} `{AuthMod} `{Mss.MssHw} `{Board} `{Bl2Config} (funcs : dev -> io_dev_funcs) (depth : nat) (maps : hw -> adec) (Htbb : TRUSTED_BOARD_BOOT = true).
(** The image was in memory when the module accepted it. *)
Definition vouched (id : Z) (image : image_info) (a : auth_state) (l' : io * auth_state) : Prop :=
  exists bytes, Fwu.read_bytes (memory (fst l')) (image_base image) (image_size image) = Some bytes /\ LoadSpec.trusted id a (image_base image) bytes (snd l').
Lemma on_loader_inv {A} (m : M (io * auth_state) A) s x s' : on_loader m s = Some (x, s') -> exists l, m (loader s) = Some (x, l) /\ s' = set_loader l s.
Proof. unfold on_loader. destruct (m (loader s)) as [[y l]|]; [|done]. intros [= <- <-]. eauto. Qed.
Lemma on_loader_vouched layout id base data ep s l d p s' : on_loader (load_auth_image funcs depth layout id base data ep) s = Some ((0, l, d, p), s') ->
  vouched id d (snd (loader s)) (loader s').
Proof.
  intros E. apply on_loader_inv in E as ([io' a'] & E & ->). destruct (loader s) as [io a] eqn:El. by eapply LoadSpec.load_auth_ok in E.
Qed.
Lemma exec_vouched layout id base image ep s e l d ep' s' : load_exec funcs depth layout id base image ep s = Some ((e, l, d, ep'), s') ->
  bl31_params_mem s' = bl31_params_mem s /\ (e = 0 -> vouched id d (snd (loader s)) (loader s')).
Proof.
  intros E. unfold load_exec in E. apply bind_some in E as ([[[e1 l1] d1] p1] & s1 & E & [= <- <- <- _ <-]). pose proof (on_loader_inv _ _ _ _ E) as (l2 & _ & ->).
  split; [done|]. intros ->. by eapply on_loader_vouched.
Qed.
Lemma bl31_vouched s s' : load_bl31 funcs depth s = Some (0, s') ->
  vouched BL31_IMAGE_ID (bl31_image_info (bl31_params_mem s')) (snd (loader s)) (loader s').
Proof.
  unfold load_bl31, bl2_plat_sec_mem_layout, update_params. rewrite bind_gets, bind_modify, bind_gets. intros E.
  apply bind_some in E as ([[[e l] d] ep] & s1 & E1 & E). destruct (exec_vouched _ _ _ _ _ _ _ _ _ _ _ E1) as [_ Hv]. rewrite !bind_modify in E. injection E as -> <-. by apply Hv.
Qed.
Lemma bl32_vouched s rc s' : load_bl32 funcs depth s = Some (rc, s') ->
  bl31_image_info (bl31_params_mem s') = bl31_image_info (bl31_params_mem s) /\
  (BL32_BASE <> None -> rc = 0 -> exists d, bl32_image_info (bl31_params_mem s') = Some d /\ vouched BL32_IMAGE_ID d (snd (loader s)) (loader s')).
Proof.
  revert rc s'. unfold load_bl32, update_params. destruct BL32_BASE as [base|]; [|by intros rc s' [= _ <-]].
  match goal with |- forall rc s', ?m s = Some (rc, s') -> @?Q rc s' => change (pc m Q s) end. pc_run. intros [[[e l] d] ep] s1 E1.
  destruct (exec_vouched _ _ _ _ _ _ _ _ _ _ _ E1) as [Hp Hv]. pc_run. cbn [set_params bl31_params_mem set_bl32 bl31_image_info bl32_image_info loader]. rewrite Hp.
  split; [done|]. intros _ ->. exists d. split; [done|]. by apply Hv.
Qed.
Lemma bl33_vouched s s' : load_bl33 funcs depth s = Some (0, s') ->
  bl31_image_info (bl31_params_mem s') = bl31_image_info (bl31_params_mem s) /\ bl32_image_info (bl31_params_mem s') = bl32_image_info (bl31_params_mem s) /\
  vouched BL33_IMAGE_ID (bl33_image_info (bl31_params_mem s')) (snd (loader s)) (loader s').
Proof.
  unfold load_bl33, update_params. rewrite bind_gets. intros E. apply bind_some in E as ([[[e l] d] ep] & s1 & E1 & E).
  destruct (exec_vouched _ _ _ _ _ _ _ _ _ _ _ E1) as [Hp Hv]. rewrite bind_modify in E. injection E as -> <-. cbn. rewrite Hp. split; [done|]. split; [done|]. by apply Hv.
Qed.
(** The firmware of the coprocessors is transferred from memory where it has been accepted. *)
Lemma scp_vouched s s' base : load_scp_bl2 funcs depth maps s = Some (0, s') -> SCP_BL2_BASE = Some base ->
  exists image, vouched SCP_BL2_IMAGE_ID image (snd (loader s)) (loader s') /\
    Mss.bl2_plat_handle_scp_bl2 (memory (fst (loader s'))) maps (Some base) (image_base image) (image_size image) (regs s) = Some (0, regs s').
Proof.
  unfold load_scp_bl2, bl2_plat_get_scp_bl2_meminfo. intros E Hb. rewrite !Hb, bind_gets in E. apply bind_some in E as ([[[e l] d] p] & s1 & E1 & E).
  destruct (Z.eqb_spec e 0) as [->|He]; [|by injection E]. rewrite bind_gets in E. pose proof (on_loader_vouched _ _ _ _ _ _ _ _ _ _ E1) as Hv.
  apply on_loader_inv in E1 as (l' & _ & ->). unfold on_regs in E. destruct (Mss.bl2_plat_handle_scp_bl2 _ _ _ _ _ _) as [[rc h']|] eqn:Eh; [|done].
  injection E as -> <-. by exists d.
Qed.
Lemma or_stop_some {A} m fatal (k : M bl2 (Z + A)) s x s' : or_stop m fatal k s = Some (inr x, s') -> exists e s1, m s = Some (e, s1) /\ fatal e = false /\ k s1 = Some (inr x, s').
Proof.
  unfold or_stop. intros E. apply bind_some in E as (e & s1 & E1 & E). exists e, s1. destruct (fatal e); [by injection E|done].
Qed.
End trust.

(** ** The theorems *)

(** C7: BL2 with trusted board boot, in the default build (no EL3 payload, no preloaded BL33), whatever the IO layer delivers and whatever the authentication module is: it returns only when
    the module has accepted BL31 and BL33, each after the images above it that the module asked for, and
    the firmware of the coprocessors before it was transferred; the module's state goes from one image to the
    next.  BL32 has been accepted, too, or it could not be loaded; one that the module rejected
    ends the boot. *)
Theorem bl2_images_trusted `{IoConfig} `{AuthMod} `{Mss.MssHw} `{Board} `{Bl2Config} funcs depth maps (s : bl2) ep s' :
  TRUSTED_BOARD_BOOT = true -> EL3_PAYLOAD_BASE = None -> PRELOADED_BL33_BASE = None ->
  bl2_load_images funcs depth maps s = Some (inr ep, s') ->
  exists s1 s2 s3 rc,
    load_scp_bl2 funcs depth maps s = Some (0, s1) /\
    (forall base, SCP_BL2_BASE = Some base -> exists image, vouched SCP_BL2_IMAGE_ID image (snd (loader s)) (loader s1) /\
       Mss.bl2_plat_handle_scp_bl2 (memory (fst (loader s1))) maps (Some base) (image_base image) (image_size image) (regs s) = Some (0, regs s1)) /\
    vouched BL31_IMAGE_ID (bl31_image_info (bl31_params_mem s')) (snd (loader s1)) (loader s2) /\
    load_bl32 funcs depth s2 = Some (rc, s3) /\ rc <> - EAUTH /\
    (BL32_BASE <> None -> rc = 0 -> exists d, bl32_image_info (bl31_params_mem s') = Some d /\ vouched BL32_IMAGE_ID d (snd (loader s2)) (loader s3)) /\
    vouched BL33_IMAGE_ID (bl33_image_info (bl31_params_mem s')) (snd (loader s3)) (loader s').
Proof.
  intros Ht Hel3 Hpre E. unfold bl2_load_images in E. rewrite Hel3, Hpre in E. apply or_stop_some in E as (e1 & s1 & E1 & F1 & E).
  unfold failed in F1. apply negb_false_iff, Z.eqb_eq in F1 as ->. rewrite (bind_eq bl2_platform_setup _ _ tt s1) in E by done.
  apply bind_some in E as ([] & s1a & Ea & E). apply bind_some in E as ([] & s1b & Eb & E).
  assert (loader s1b = loader s1) as Hl.
  { injection Ea as <-. unfold bl2_plat_get_bl31_ep_info in Eb. by destruct DEBUG; injection Eb as <-. }
  apply or_stop_some in E as (e2 & s2 & E2 & F2 & E). unfold failed in F2. apply negb_false_iff, Z.eqb_eq in F2 as ->.
  apply or_stop_some in E as (rc & s3 & E3 & F3 & E). apply or_stop_some in E as (e4 & s4 & E4 & F4 & E). unfold failed in F4. apply negb_false_iff, Z.eqb_eq in F4 as ->.
  rewrite bind_gets in E. injection E as <- <-. pose proof (bl31_vouched funcs depth Ht _ _ E2) as V1. rewrite Hl in V1.
  destruct (bl32_vouched funcs depth Ht _ _ _ E3) as [K3 V3]. destruct (bl33_vouched funcs depth Ht _ _ E4) as (K4 & K5 & V4).
  exists s1, s2, s3, rc. split; [done|]. split; [intros base Hb; by apply (scp_vouched funcs depth maps Ht)|]. split; [by rewrite K4, K3|]. split; [done|].
  split; [|by rewrite K5]. intros ->. by cbn in F3.
Qed.

(** C8: BL2 without authentication.  Given a package with BL31 and BL33 (and the firmware of the coprocessors, where the platform
    wants it, whose transfer succeeds), with room for each image outside the package and outside the others, the loading
    returns: BL31 is to be entered at EL3 with the address of its parameters, which say where each image is and
    that BL33 is to be entered in the non-secure world, at EL2 if there is one.  The memory holds the bytes
    of each image, as they were in the package.  That BL32 is not in the package is not an error. *)
Theorem bl2_boot_spec `{IoConfig} `{AuthMod} `{Mss.MssHw} `{Board} `{Bl2Config} depth maps toc L e0 e1 (s : bl2) en31 en33 m1 h1 m3 i32 ep32 :
  TRUSTED_BOARD_BOOT = false -> EL3_PAYLOAD_BASE = None -> PRELOADED_BL33_BASE = None ->
  covers toc L -> ready toc e0 e1 (fst (loader s)) ->
  let m0 := memory (fst (loader s)) in
  scp_step maps toc L (tzram_layout s) m0 (regs s) m1 h1 ->
  bl31_find toc = Some en31 -> place L (tzram_layout s) BL31_BASE en31 ->
  bl32_step toc L (copy m1 BL31_BASE en31) m3 i32 ep32 ->
  bl33_find toc = Some en33 -> place L bl2_plat_get_bl33_meminfo PLAT_MARVELL_NS_IMAGE_OFFSET en33 ->
  apart BL31_BASE (size en31) PLAT_MARVELL_NS_IMAGE_OFFSET (size en33) ->
  (forall base en, BL32_BASE = Some base -> bl32_find toc = Some en ->
     apart BL31_BASE (size en31) base (size en) /\ apart base (size en) PLAT_MARVELL_NS_IMAGE_OFFSET (size en33)) ->
  exists s', bl2_load_images (dev_funcs 1) (S depth) maps s = Some (inr bl31_entry, s') /\ regs s' = h1 /\
    bl31_params_mem s' = Params (ImageInfo VERSION_1 BL31_BASE (u32 (size en31))) i32
      (ImageInfo VERSION_1 PLAT_MARVELL_NS_IMAGE_OFFSET (u32 (size en33))) bl33_entry ep32 bl31_entry /\
    image_at m0 (memory (fst (loader s'))) BL31_BASE en31 /\
    image_at m0 (memory (fst (loader s'))) PLAT_MARVELL_NS_IMAGE_OFFSET en33 /\
    (forall base en, BL32_BASE = Some base -> bl32_find toc = Some en -> image_at m0 (memory (fst (loader s'))) base en).
Proof.
  intros Ht Hel3 Hpre Hc Hr m0 Hscp F31 P31 Hbl32 F33 P33 A1 A2. pose proof (scp_same _ _ _ _ _ _ _ _ Hscp) as S1.
  destruct (scp_ok depth maps Ht toc L e0 e1 s m1 h1 Hc Hr Hscp) as (l1 & E1 & R1 & M1).
  set (s1 := set_regs h1 (set_loader l1 s)) in *.
  set (ep0 := if DEBUG then set_arg 1 MARVELL_BL31_PLAT_PARAM_VAL ep_zero else ep_zero).
  set (p0 := Params image_zero (if has_bl32 then Some image_zero else None) image_zero (set_arg 0 (Z.land 0xffff read_mpidr) ep_zero) (if has_bl32 then Some ep_zero else None) ep0).
  set (s2 := set_params p0 s1). destruct (bl31_ok depth Ht toc L e0 e1 s2 en31 Hc R1 F31 eq_refl P31) as (l2 & layout & E2 & _ & R2 & M2).
  change (memory (fst (loader s2))) with (memory (fst l1)) in M2. rewrite M1 in M2.
  set (s3 := set_params (set_bl31 _ _ _) _) in E2. rewrite <- M2 in Hbl32.
  destruct (bl32_ok depth Ht toc L e0 e1 s3 m3 i32 ep32 Hc R2 Hbl32 eq_refl eq_refl) as (rc & l3 & E3 & Hrc & R3 & M3).
  set (s4 := set_params (Params _ _ _ _ _ _) _) in E3.
  destruct (bl33_ok depth Ht toc L e0 e1 s4 en33 Hc R3 F33 eq_refl P33) as (l4 & E4 & R4 & M4).
  set (s5 := set_params (set_bl33 _ _ _) _) in E4. exists s5. split; [|split; [done|split]].
  - unfold bl2_load_images, or_stop. rewrite (bind_eq _ _ _ _ _ E1). change (failed 0) with false. cbn iota.
    rewrite (bind_eq bl2_platform_setup _ _ tt s1) by done. rewrite (bind_eq bl2_plat_get_bl31_params _ _ tt (set_params (Params image_zero
      (if has_bl32 then Some image_zero else None) image_zero (set_arg 0 (Z.land 0xffff read_mpidr) ep_zero) (if has_bl32 then Some ep_zero else None) ep_zero) s1)) by done.
    rewrite (bind_eq bl2_plat_get_bl31_ep_info _ _ tt s2) by (unfold bl2_plat_get_bl31_ep_info, s2, p0, ep0; by destruct DEBUG).
    rewrite Hel3, (bind_eq _ _ _ _ _ E2). change (failed 0) with false. cbn iota. rewrite (bind_eq _ _ _ _ _ E3), (proj2 (Z.eqb_neq _ _) Hrc), andb_false_r, Hpre.
    rewrite (bind_eq _ _ _ _ _ E4). change (failed 0) with false. cbn iota. rewrite bind_gets. do 3 f_equal. unfold bl31_entry, s5, s4, s3, s2, p0, ep0. cbn. by destruct DEBUG.
  - unfold bl31_entry, bl33_entry. rewrite <- bl33_spsr_eq. unfold s5, s4, s3, s2, p0, ep0. cbn. by destruct DEBUG.
  - change (memory (fst (loader s5))) with (memory (fst l4)). rewrite M4. change (memory (fst (loader s4))) with (memory (fst l3)). rewrite M3.
    rewrite M2 in Hbl32. pose proof (same_trans _ _ _ _ S1 (copy_same L _ m1 _ _ P31)) as S2.
    destruct (bl32_mem toc L m0 _ _ _ _ BL31_BASE en31 Hc Hbl32 S2) as (S3 & I1 & I2); [by eapply copy_image|by intros; apply A2|].
    split; [by apply image_kept|]. split; [by eapply copy_image|]. intros base en E Hf. apply image_kept; [by apply I2|by apply A2].
Qed.
(** The Armada 8K with a package of the firmware of the coprocessors ([MssSpec.small_file]), BL31 and BL33. *)
Definition demo_auth : AuthMod :=
  {| TRUSTED_BOARD_BOOT := false; auth_state := unit; auth_mod_get_parent_id := fun _ _ => None; auth_mod_verify_img := fun _ _ _ _ => None |}.
Definition demo_config : Bl2Config :=
  {| SCP_BL2_BASE := Some 0x4023000; BL31_BASE := 0x4023000; BL32_BASE := Some 0x4400000; EL3_PAYLOAD_BASE := None; PRELOADED_BL33_BASE := None;
     TRUSTED_DRAM_BASE := 0x4400000; TRUSTED_DRAM_SIZE := 0x1000000; MARVELL_NS_DRAM1_BASE := 0; MARVELL_NS_DRAM1_SIZE := 0x80000000;
     PLAT_MARVELL_NS_IMAGE_OFFSET := 0; DEBUG := false; bl31_params_addr := 0x4020000; scp_stack := (0, 0); read_mpidr := 0x80000000;
     read_id_aa64pfr0_el1 := 0x2222 |}.
Definition demo_scp : fip_toc_entry := TocEntry UUID_SCP_FIRMWARE_SCP_BL2 0x110 50 0.
Definition demo_toc : list fip_toc_entry := [demo_scp; LoadSpec.a8k_bl31; LoadSpec.a8k_bl33].
Definition demo_memory : Fwu.memory_t := fun a =>
  if Fwu.in_range a 0x4120110 50 then default 0 (MssSpec.file MssSpec.small_file !! Z.to_nat (a - 0x4120110))
  else if a <? 0x4120000 then 7 else default 7 (LoadSpec.encode_package LoadSpec.a8k_header demo_toc (TocEntry uuid_null 0 0 0) !! Z.to_nat (a - 0x4120000)).
#[local] Existing Instance LoadSpec.a8k_io.
Lemma demo_package : package demo_memory 0x4120000 demo_toc.
Proof.
  apply (LoadSpec.package_encode _ _ LoadSpec.a8k_header _ (TocEntry uuid_null 0 0 0)); [|by repeat split|done|by repeat constructor|by repeat split|done|done|by vm_compute].
  intros i x Ei. pose proof (lookup_lt_Some _ _ _ Ei) as Hl. change (length _) with 176%nat in Hl. unfold demo_memory, Fwu.in_range.
  rewrite (proj2 (Z.leb_gt 0x4120110 _)), (proj2 (Z.ltb_ge _ 0x4120000)) by lia. cbn [andb].
  replace (0x4120000 + Z.of_nat i - 0x4120000) with (Z.of_nat i) by lia. by rewrite Nat2Z.id, Ei.
Qed.
Definition demo_io : io := default (@io_init LoadSpec.a8k_io demo_memory) (snd <$> @marvell_io_setup LoadSpec.a8k_io (@io_init LoadSpec.a8k_io demo_memory)).
Lemma demo_idle : @idle LoadSpec.a8k_io demo_io 0 1 /\ memory demo_io = demo_memory.
Proof. destruct (@LoadSpec.setup_idle LoadSpec.a8k_io demo_memory) as (s & E & I & M); [cbn; lia|cbn; lia|done|]. unfold demo_io. by rewrite E. Qed.
Definition demo_bl2 : @bl2 demo_auth :=
  @Bl2_ demo_auth (demo_io, tt) (Hw ∅ []) LoadSpec.a8k_layout (Params image_zero None image_zero ep_zero None ep_zero).
Ltac place_tac := constructor; [reflexivity|split; [discriminate|reflexivity]|left; reflexivity|split; (split; [discriminate|reflexivity])|vm_compute; reflexivity|
  left; vm_compute; discriminate].
Lemma demo_scp_ok : exists h', @Mss.bl2_plat_handle_scp_bl2 MssSpec.ack_hw (@copy LoadSpec.a8k_io demo_memory 0x4023000 demo_scp) a80x0 a80x0_maps (Some 0x4023000) 0x4023000 50 (Hw ∅ []) = Some (0, h').
Proof. eexists. by vm_compute. Qed.
Lemma bl2_boot_spec_witness : exists s', @bl2_load_images LoadSpec.a8k_io demo_auth MssSpec.ack_hw a80x0 demo_config (dev_funcs 1) 1 a80x0_maps demo_bl2 =
  Some (inr (Imf.Ep 0x4023000 0x3cd 0 [0x4020000; 0; 0; 0; 0; 0; 0; 0]), s').
Proof.
  destruct demo_scp_ok as [h' Eh]. destruct demo_idle as [I Em].
  edestruct (@bl2_boot_spec LoadSpec.a8k_io demo_auth MssSpec.ack_hw a80x0 demo_config 0 a80x0_maps demo_toc 0x200 0 1 demo_bl2
    LoadSpec.a8k_bl31 LoadSpec.a8k_bl33) as (s' & E & _); [..|by exists s'].
  - done.
  - done.
  - done.
  - split_and!; [done..|]. by repeat constructor.
  - split; [exact I|]. cbn [fst loader demo_bl2]. rewrite Em. exact demo_package.
  - cbn [fst loader demo_bl2 regs tzram_layout]. rewrite Em. eapply (scp_some _ _ _ _ _ _ 0x4023000 demo_scp h'); [done|done| |exact Eh].
    place_tac.
  - done.
  - place_tac.
  - by eapply bl32_absent.
  - done.
  - place_tac.
  - by right.
  - by intros base en _ Hf.
Defined.
(** The memory for BL33 is all of the memory, so that nothing keeps it from covering BL31, which has been loaded before. *)
Theorem bl33_covers_bl31 : let l := @bl2_plat_get_bl33_meminfo demo_config in
  is_mem_free (free_base l) (free_size l) 0 0x4100000 = true /\ 0 <= @BL31_BASE demo_config < 0x4100000.
Proof. vm_compute. split; [reflexivity|split; [discriminate|reflexivity]]. Qed.

(** A module that accepts everything but an empty image. *)
Definition trust_auth : AuthMod :=
  {| TRUSTED_BOARD_BOOT := true; auth_state := list Z; auth_mod_get_parent_id := fun _ _ => Some (1, 0);
     auth_mod_verify_img := fun a id _ bytes => Some (if zlen bytes =? 0 then 1 else 0, id :: a) |}.
Definition trust_bl2 : @bl2 trust_auth :=
  @Bl2_ trust_auth (demo_io, []) (Hw ∅ []) LoadSpec.a8k_layout (Params image_zero None image_zero ep_zero None ep_zero).
Abbreviation trust_run := (@bl2_load_images LoadSpec.a8k_io trust_auth MssSpec.ack_hw a80x0 demo_config (dev_funcs 1) 1 a80x0_maps trust_bl2).
Definition handed {S E} (P : E -> S -> Prop) (r : option ((Z + E) * S)) : Prop := match r with Some (inr ep, s') => P ep s' | _ => False end.
Lemma handed_inv {S E} (P : E -> S -> Prop) r : handed P r -> exists ep s', r = Some (inr ep, s') /\ P ep s'.
Proof. destruct r as [[[e|ep] s']|]; [done| |done]. intros HP. by exists ep, s'. Qed.
Lemma trust_ok : handed (fun ep (s' : @bl2 trust_auth) => Imf.ep_pc ep = 0x4023000 /\ (snd (loader s') : list Z) = [5; 3; 2]) trust_run.
Proof. vm_compute. split; reflexivity. Qed.
Lemma bl2_images_trusted_witness : exists (s3 s' : @bl2 trust_auth), (snd (loader s') : list Z) = [5; 3; 2] /\
  @vouched trust_auth BL33_IMAGE_ID (bl33_image_info (bl31_params_mem s')) (snd (loader s3)) (loader s').
Proof.
  destruct (handed_inv _ _ trust_ok) as (ep & s' & E & _ & Hl).
  destruct (@bl2_images_trusted LoadSpec.a8k_io trust_auth MssSpec.ack_hw a80x0 demo_config (dev_funcs 1) 1 a80x0_maps trust_bl2 ep s' eq_refl eq_refl eq_refl E)
    as (s1 & s2 & s3 & rc & _ & _ & _ & _ & _ & _ & V). exists s3, s'. exact (conj Hl V).
Defined.
End Bl2Spec.
