(* ===== verification/Boot.v ===== *)
(** * From BL2 to the normal world: plat/marvell/common/marvell_bl31_setup.c and bl31/bl31_main.c

    What BL31 keeps of the parameters from BL2, and how it prepares the entry into the next image.
    [boot_hand_over] joins [Bl2] and [Imf]: whenever BL2 hands over to BL31, BL31 enters BL33 in
    the normal world. *)

From Stdlib Require Import ZArith Lia.
From stdpp Require Import base option list gmap numbers relations.
From S2P Require Import Prelude CMonad BlFwu Io LoadImage AddrDec AddrBoards Psci Imf ImfSpec Mss Bl2 Bl2Spec.
Import LoadImage Bl2 Bl2Spec.
Open Scope Z_scope.
Open Scope cint_scope.

Module Boot.

Section bl31.
Context `{Bl2Config}.
Record bl31 := Bl31_ { bl32_image_ep_info : ep_info; bl33_image_ep_info : ep_info; next_image_type : Z; world : Imf.imf }.
Abbreviation X := (M bl31).
Definition set_eps e32 e33 s := Bl31_ e32 e33 (next_image_type s) (world s).
Definition set_type t s := Bl31_ (bl32_image_ep_info s) (bl33_image_ep_info s) t (world s).
Definition set_world w s := Bl31_ (bl32_image_ep_info s) (bl33_image_ep_info s) (next_image_type s) w.
Definition on_world {A} (m : M Imf.imf A) : X A :=
  fun s => match m (world s) with Some (x, w) => Some (x, set_world w s) | None => None end.

(** ** marvell_bl31_setup.c *)
Definition bl31_plat_get_next_image_ep_info (type : Z) : X ep_info :=
  massert (Imf.sec_state_is_valid type);;
  gets (if type =? NON_SECURE then bl33_image_ep_info else bl32_image_ep_info).
(** The variant without [RESET_TO_BL31].  BL2 has set the header of the parameters; the assertion on the second argument is part of
    debug builds only. *)
Definition marvell_bl31_early_platform_setup (from_bl2 : option params) (plat_params_from_bl2 : Z) : X unit :=
  from ← must from_bl2;
  massert (negb DEBUG || (plat_params_from_bl2 =? MARVELL_BL31_PLAT_PARAM_VAL));;
  modify (fun s => set_eps (default (bl32_image_ep_info s) (bl32_ep_info from)) (bl33_ep_info from) s).
(** The variant with [RESET_TO_BL31]: no parameters. *)
Definition marvell_bl31_reset_setup (from_bl2 : option params) (plat_params_from_bl2 : Z) : X unit :=
  massert (bool_decide (from_bl2 = None));;
  massert (plat_params_from_bl2 =? 0);;
  modify (fun s =>
    let e32 := match BL32_BASE with
               | Some base => Imf.Ep base marvell_get_spsr_for_bl32_entry (SET_SECURITY_STATE 0 SECURE) (Imf.ep_args (bl32_image_ep_info s))
               | None => bl32_image_ep_info s end in
    set_eps e32 (Imf.Ep plat_get_ns_image_entrypoint marvell_get_spsr_for_bl33_entry (SET_SECURITY_STATE 0 NON_SECURE) (Imf.ep_args (bl33_image_ep_info s))) s).

(** ** bl31_main.c *)
Definition bl31_set_next_image_type (security_state : Z) : X unit :=
  massert (Imf.sec_state_is_valid security_state);;
  modify (set_type security_state).
Definition bl31_get_next_image_type : X Z := gets next_image_type.
Definition ID_AA64PFR0_EL1_SHIFT := 4.
(** [None] is [panic].  [ctx_aarch32] is [CTX_INCLUDE_AARCH32_REGS]. *)
Definition bl31_prepare_next_image_entry (ctx_aarch32 : bool) (regs : Imf.sysregs) (my : nat) : X (option unit) :=
  if ctx_aarch32 && (Z.land (Z.shiftr (Imf.read_id_aa64pfr0_el1 regs) ID_AA64PFR0_EL1_SHIFT) ID_AA64PFR0_ELX_MASK =? 1) then mret None else
  image_type ← bl31_get_next_image_type;
  next_image_info ← bl31_plat_get_next_image_ep_info image_type;
  massert (image_type =? Imf.GET_SECURITY_STATE (Imf.ep_attr next_image_info));;
  on_world (Imf.cm_init_my_context regs my next_image_info);;
  on_world (Imf.cm_prepare_el3_exit regs my image_type);;
  mret (Some tt).
End bl31.

(** ** What BL2 hands over *)
Section bl2.
Context `{Io.IoConfig} `{AuthMod} `{Mss.MssHw} `{Board} `{Bl2Config} (funcs : Io.dev -> Io.io_dev_funcs) (depth : nat) (maps : hw -> adec).
(** Loading changes at most the program counter of an entry point. *)
Lemma exec_ep layout id base image ep s : pc (load_exec funcs depth layout id base image ep)
  (fun '(_, _, _, ep') s' => (exists x, ep' = set_pc x ep) /\ bl31_params_mem s' = bl31_params_mem s) s.
Proof.
  unfold load_exec. apply pc_bind. intros [[[e l] d] x] s1 E. apply on_loader_inv in E as (l' & _ & ->). apply pc_ret. eauto.
Qed.
Definition mpid : list Z := [Z.land 0xffff read_mpidr; 0; 0; 0; 0; 0; 0; 0].
Definition plat_arg : Z := if DEBUG then MARVELL_BL31_PLAT_PARAM_VAL else 0.
(** While BL2 runs, BL33's arguments and BL31's second one stay as they were set first. *)
Definition kept (p : params) : Prop :=
  Imf.ep_args (bl33_ep_info p) = mpid /\ Imf.ep_attr (bl33_ep_info p) = 0 /\ Imf.ep_args (bl31_ep_info p) !! 1%nat = Some plat_arg.
Lemma kept_get s : pc (bl2_plat_get_bl31_params;; bl2_plat_get_bl31_ep_info) (fun _ s' => kept (bl31_params_mem s')) s.
Proof.
  unfold bl2_plat_get_bl31_params, bl2_plat_get_bl31_ep_info, update_params, kept, plat_arg. pc_run. destruct DEBUG; [apply pc_modify|apply pc_ret]; done.
Qed.
Lemma kept_bl31 s : kept (bl31_params_mem s) -> pc (load_bl31 funcs depth) (fun _ s' => kept (bl31_params_mem s')) s.
Proof.
  intros (K1 & K2 & K3). unfold load_bl31, bl2_plat_sec_mem_layout, update_params. pc_run. eapply pc_mono; [apply exec_ep|].
  intros [[[e l] d] ep] s1 [[x ->] Hp]. pc_run. unfold kept. cbn. rewrite Hp. cbn. split; [done|]. split; [done|].
  destruct (e =? 0); cbn; by rewrite list_lookup_insert_ne.
Qed.
Lemma kept_bl32 s : kept (bl31_params_mem s) -> pc (load_bl32 funcs depth) (fun _ s' => kept (bl31_params_mem s')) s.
Proof.
  intros K. unfold load_bl32, update_params. destruct BL32_BASE; [|by apply pc_ret]. pc_run. eapply pc_mono; [apply exec_ep|].
  intros [[[e l] d] ep] s1 [_ Hp]. pc_run. unfold kept. cbn. rewrite Hp. done.
Qed.
Definition ready_bl33 (p : params) : Prop :=
  (exists x, bl33_ep_info p = Imf.Ep x bl33_spsr 1 mpid) /\ Imf.ep_args (bl31_ep_info p) !! 1%nat = Some plat_arg.
Lemma ready_set x p i : kept p -> ready_bl33 (set_bl33 i (bl2_plat_set_bl33_ep_info (set_pc x (bl33_ep_info p))) p).
Proof.
  intros (K1 & K2 & K3). split; [|done]. exists x. unfold set_bl33, bl2_plat_set_bl33_ep_info, set_pc. cbn. by rewrite K1, K2, bl33_spsr_eq.
Qed.
Lemma load_bl33_ready s : kept (bl31_params_mem s) -> pc (load_bl33 funcs depth) (fun e s' => e = 0 -> ready_bl33 (bl31_params_mem s')) s.
Proof.
  intros K. unfold load_bl33, update_params. pc_run. eapply pc_mono; [apply exec_ep|]. intros [[[e l] d] ep] s1 [[x ->] Hp]. pc_run. intros ->. cbn. rewrite Hp. by apply ready_set.
Qed.
Lemma bl2_hands_over s ep s' : EL3_PAYLOAD_BASE = None -> bl2_load_images funcs depth maps s = Some (inr ep, s') -> ready_bl33 (bl31_params_mem s') /\ ep = bl31_ep_info (bl31_params_mem s').
Proof.
  intros Hel3 E. unfold bl2_load_images in E. rewrite Hel3 in E. apply or_stop_some in E as (e1 & s1 & _ & _ & E). rewrite (bind_eq bl2_platform_setup _ _ tt s1) in E by done.
  rewrite <- bind_assoc in E. apply bind_some in E as (? & s2 & E2 & E). pose proof (kept_get _ _ _ E2) as K2.
  apply or_stop_some in E as (e3 & s3 & E3 & _ & E). pose proof (kept_bl31 _ K2 _ _ E3) as K3. apply or_stop_some in E as (e4 & s4 & E4 & _ & E). pose proof (kept_bl32 _ K3 _ _ E4) as K4.
  destruct PRELOADED_BL33_BASE as [base|].
  - unfold update_params in E. rewrite bind_modify, bind_gets in E. injection E as <- <-. split; [|done]. by apply ready_set.
  - apply or_stop_some in E as (e5 & s5 & E5 & F5 & E). rewrite bind_gets in E. injection E as <- <-. split; [|done]. apply (load_bl33_ready _ K4 _ _ E5).
    unfold failed in F5. by apply negb_false_iff, Z.eqb_eq in F5.
Qed.
End bl2.

(** Entering BL33 from EL3: the bits of SCR_EL3. *)
Lemma bl33_bits `{Bl2Config} scr0 x : let ep := Imf.Ep x bl33_spsr 1 mpid in
  ImfSpec.scr_bit scr0 ep 0 = true /\ ImfSpec.scr_bit scr0 ep 10 = true /\
  ImfSpec.scr_bit scr0 ep 8 = negb (Z.land (Z.shiftr read_id_aa64pfr0_el1 8) 0xf =? 0).
Proof. unfold bl33_spsr. by destruct (_ =? 0). Qed.

(** C6: Whatever images were loaded, with or without authentication: when BL2 hands over to BL31 (and no payload takes BL31's place), BL31, with the
    parameters it is given, returns from EL3 into BL33.  The core is in the normal world, AArch64, at EL2 if it has one and at EL1 otherwise;
    it starts at the entry point recorded by BL2 and its first argument is its MPIDR.  Interrupts are taken to EL3 as the handlers registered
    until then ask for. *)
Theorem boot_hand_over `{Io.IoConfig} `{AuthMod} `{Mss.MssHw} `{Board} `{Bl2Config} `{ImfSpec.GicLaws} funcs depth maps (s s2 : bl2) ep
    (b : bl31) (w0 : Imf.imf) (aarch32 : bool) (sysregs : Imf.sysregs) (my p : nat) :
  EL3_PAYLOAD_BASE = None -> bl2_load_images funcs depth maps s = Some (inr ep, s2) ->
  Imf.intr_type_descs w0 = Imf.descs_bss -> rtc ImfSpec.step w0 (world b) -> next_image_type b = NON_SECURE ->
  ImfSpec.ptr_of (world b) my NON_SECURE = Some p -> (p < length (Imf.ctxs (world b)))%nat -> (my < length (Imf.el2 (world b)))%nat ->
  (aarch32 = true -> Z.land (Z.shiftr (Imf.read_id_aa64pfr0_el1 sysregs) 4) 0xf <> 1) ->
  exists b1 b2 c, Imf.ep_args ep !! 1%nat = Some plat_arg /\
    marvell_bl31_early_platform_setup (Some (bl31_params_mem s2)) plat_arg b = Some (tt, b1) /\
    bl31_prepare_next_image_entry aarch32 sysregs my b1 = Some (Some tt, b2) /\
    Imf.next_context (world b2) = <[my := Some p]> (Imf.next_context (world b)) /\ Imf.ctxs (world b2) = <[p := c]> (Imf.ctxs (world b)) /\
    Imf.ctx_elr_el3 c = Imf.ep_pc (bl33_ep_info (bl31_params_mem s2)) /\
    Imf.ctx_spsr_el3 c = (if Z.land (Z.shiftr read_id_aa64pfr0_el1 8) 0xf =? 0 then 0x3c5 else 0x3c9) /\
    Imf.ctx_gpregs c = Z.land 0xffff read_mpidr :: replicate 31 0 /\
    Z.testbit (Imf.ctx_scr_el3 c) 0 = true /\ Z.testbit (Imf.ctx_scr_el3 c) 10 = true /\
    (Z.land (Z.shiftr read_id_aa64pfr0_el1 8) 0xf <> 0 -> Z.testbit (Imf.ctx_scr_el3 c) 8 = true) /\
    forall i, i = 1 \/ i = 2 -> Z.testbit (Imf.ctx_scr_el3 c) i = true <-> ImfSpec.traps (world b) NON_SECURE i.
Proof.
  intros Hel3 E E0 Hs Ht Hptr Hp Hm Ha32. destruct (bl2_hands_over funcs depth maps s ep s2 Hel3 E) as [[[x Ex] Hx1] ->].
  pose proof (ImfSpec.steps_descs _ _ E0 Hs) as Hd. set (ep33 := bl33_ep_info (bl31_params_mem s2)) in *.
  set (b1 := set_eps (default (bl32_image_ep_info b) (bl32_ep_info (bl31_params_mem s2))) ep33 b).
  assert (Imf.GET_SECURITY_STATE (Imf.ep_attr ep33) = NON_SECURE) as Hns by (by rewrite Ex). assert (length (Imf.ep_args ep33) = 8%nat) as Hl by (by rewrite Ex).
  rewrite <- Hns in Hptr. destruct (ImfSpec.init_context_ok (world b) sysregs my p ep33 Hd Hptr Hp Hl) as (c & _ & Ei & Hpc & Hsp & Hg & Hb). rewrite Hns in Hptr, Hb.
  set (w1 := Imf.set_ctxs (<[p := c]> (Imf.ctxs (world b))) (world b)) in *.
  destruct (ImfSpec.prepare_exit_ok w1 sysregs my p NON_SECURE c) as [e2 Ee]; [by right|done|by apply list_lookup_insert_eq|done|].
  exists b1, (set_world (Imf.set_next (<[my := Some p]> (Imf.next_context w1)) (Imf.set_el2 e2 w1)) b1), c. split; [done|]. split.
  { unfold marvell_bl31_early_platform_setup. rewrite (bind_must _ _ _ _ eq_refl), bind_massert by (unfold plat_arg; by destruct DEBUG). done. }
  split.
  { unfold bl31_prepare_next_image_entry. replace (aarch32 && _) with false by (symmetry; destruct aarch32; [apply Z.eqb_neq, Ha32|]; done).
    unfold bl31_get_next_image_type, bl31_plat_get_next_image_ep_info. rewrite bind_gets. change (next_image_type b1) with (next_image_type b). rewrite Ht.
    rewrite bind_assoc, bind_massert, bind_gets by done. change ((if NON_SECURE =? NON_SECURE then bl33_image_ep_info else bl32_image_ep_info) b1) with ep33. rewrite bind_massert by (by rewrite Hns).
    rewrite (bind_eq _ _ _ tt (set_world w1 b1)) by (unfold on_world; change (world b1) with (world b); by rewrite Ei).
    rewrite (bind_eq _ _ _ tt (set_world (Imf.set_next (<[my := Some p]> (Imf.next_context w1)) (Imf.set_el2 e2 w1)) b1)); [done|].
    unfold on_world. cbn [world set_world]. by rewrite Ee. }
  pose proof (bl33_bits (Imf.read_scr sysregs) x) as (B0 & B10 & B8). rewrite Ex in Hb, Hsp, Hg. cbn [Imf.ep_spsr Imf.ep_args] in Hsp, Hg.
  split_and!; try done.
  - apply Hb; [lia|]. by left.
  - apply Hb; [lia|]. by left.
  - intros Hn. apply Hb; [lia|]. left. rewrite B8. by apply negb_true_iff, Z.eqb_neq.
  - intros i Hi. rewrite Hb by lia. assert (ImfSpec.scr_bit (Imf.read_scr sysregs) (Imf.Ep x bl33_spsr 1 mpid) i = false) as ->
      by (by destruct Hi as [-> | ->]). split; [by intros [?|?]|by right].
Qed.
(** The run of [Bl2Spec] and the core of [ImfSpec]. *)
Definition demo_bl31 : bl31 := Bl31_ ep_zero ep_zero 1 ImfSpec.demo_start.
Lemma boot_hand_over_witness : exists (s2 : @bl2 trust_auth) b1 b2 c,
  @marvell_bl31_early_platform_setup demo_config (Some (bl31_params_mem s2)) 0 demo_bl31 = Some (tt, b1) /\
  @bl31_prepare_next_image_entry true (Imf.Sysregs 0x430 0x2222 0 0) 0 b1 = Some (Some tt, b2) /\ Imf.ctxs (world b2) !! 1%nat = Some c /\
  Imf.ctx_spsr_el3 c = 0x3c9 /\ Imf.ctx_gpregs c = replicate 32 0 /\ Z.testbit (Imf.ctx_scr_el3 c) 0 = true.
Proof.
  destruct (handed_inv _ _ trust_ok) as (ep & s2 & E & _ & _).
  destruct (@boot_hand_over LoadSpec.LoadSpec.a8k_io trust_auth MssSpec.MssSpec.ack_hw a80x0 demo_config Imf.gicv3 ImfSpec.gicv3_laws (Io.dev_funcs 1) 1 a80x0_maps trust_bl2 s2 ep demo_bl31
    ImfSpec.demo_start true (Imf.Sysregs 0x430 0x2222 0 0) 0 1 eq_refl E eq_refl (rtc_refl _ _) eq_refl eq_refl ltac:(cbn; lia) ltac:(cbn; lia) ltac:(done))
    as (b1 & b2 & c & _ & E1 & E2 & _ & Hc & _ & Hsp & Hg & Hns & _).
  exists s2, b1, b2, c. split; [exact E1|]. split; [exact E2|]. split; [rewrite Hc; reflexivity|]. split; [exact Hsp|]. split; [exact Hg|exact Hns].
Defined.
End Boot.
